(* ===== verification/_CoqProject ===== *)
-Q . S2P
Prelude.v
Ring.v
CString.v
Policy.v
Pdo.v
Dc.v
Xchg.v
Histogram.v
Turnaround.v
Diag.v
Sha256.v
Eni.v
Json.v
Ctl.v
CtlSpec.v
CtlServer.v
CtlServerSpec.v
Api.v
ApiDoc.v
ApiSpec.v
Mailbox.v
EscMem.v
EscTypes.v
EscProfile.v
EscCoe.v
EscCoeSpec.v
EscDc.v
EscCore.v
EscCoreSpec.v
EscFrame.v
EscFault.v
EscFaultSpec.v
EscFaultDiag.v
Cia402Cfg.v
Cia402Axis.v
Cia402File.v
Cia402Safety.v
Cia402Hook.v
EscDrive.v
