(* ===== verification/Prelude.v ===== *)
(** * ecmaster: an EtherCAT master and its soft bus, verified

    ecmaster is an EtherCAT master in C on top of the SOEM library.  A real-time
    thread exchanges one process data frame per cycle; a monitor thread, a mailbox
    thread and an API thread talk to it through lock-free rings and seqlocks.  The
    repository also holds a soft bus: a chain of virtual slaves (EtherCAT slave
    controllers with a CoE object dictionary, distributed clocks, watchdog and
    CiA 402 drives) with a fault injector, against which the master is tested.

    The development follows that split.  Data are modelled as the code has them:
    a C integer is a [Z] with the wrap of its type written out, a struct is a
    record with the update notation of this file, an array of bytes is a list, a
    stateful function takes the state and returns the new one, an error is a value.
    Where the source does not end, reads what nothing has set or follows a null
    pointer, the model gives no result ([None], or the flag [undef] of a slave of the
    soft bus), and the theorems say which inputs do not get there.
    Two threads that share memory are step relations with one step per shared access.

    ** The master (src/libecmaster, src/libecm_cia402)

    - [Ring]: the single-producer single-consumer ring of the policy layer and the
      class [SpscRing], the interface its clients are proved against: a ring behaves
      as a bounded queue, sequentially and with the accesses interleaved.
    - [CString]: the C string and number conversions the parsers use.
    - [Policy] (policy/ecm_policy.c): receive deadline, the bus state machine
      RUN/DEGRADED/LOST/RECOVER, event ring and command queue, slave recovery plan,
      input freshness.  The state machine is refined by a declarative reading of the
      last cycles; the events explain every change; recovery attempts are bounded.
    - [Pdo] (pdo/ecm_pdo.c): process data tables, binding and bit access.  Reading
      gives what was written and bound objects do not overlap.
    - [Dc] (core/ecm_dc.c): the phase lock of the cycle to the reference clock.
      The phase error is the true one; without drift the lock is reached.
    - [Xchg] (xchg/ecm_xchg.c): rings and seqlock between application and real-time
      thread, commands and time-stamped setpoints.  A reader never sees a torn
      record; a setpoint comes out in the tick it was meant for.
    - [Histogram], [Turnaround] (telemetry/): latency percentiles; pairing of sent
      and received frames with every sample accounted for.
    - [Diag] (diag/ecm_diag.c): working counter classes, the two-slot handoff between
      threads, accumulation of the 8-bit error counters of the slaves from reads that
      rotate over the bus and may be lost, findings.
    - [Sha256], [Json] (api/): the digest as a function of the message however it is
      cut, the JSON reader against the grammar of RFC 8259 (and the one escape more
      that it takes).
    - [Ctl], [CtlSpec], [CtlServer], [CtlServerSpec] (api/ecm_ctl.c): the control socket:
      binary64 values, reply writer, list of writable objects, requests, and how the
      byte stream of a client becomes requests and replies in order.  A write reaches a
      slave only when every rule allows it: list of objects, hard list, mapped outputs,
      limits of the value.
    - [Api], [ApiDoc], [ApiSpec] (api/ecm_api.c): the publisher: handoff of snapshots,
      JSON writer, the whole of stats.json, machine configuration, publication of a file.
      The document is one JSON text for the reader ([Json]), whole or not at all; a
      reader of the file sees the old or the new contents; the handoff is a queue of two.
    - [Eni] (config/ecm_eni.c): the reader of the network configuration and the
      checks of it against the bus and against what the master can do.
    - [Mailbox] (mailbox/ecm_mailbox.c): job queue, worker with its stop flag and callers
      interleaved.
    - [Cia402Cfg], [Cia402File], [Cia402Axis], [Cia402Safety], [Cia402Hook]
      (src/libecm_cia402): configuration, the axes file with its object references and
      tables of error codes, state and tick of the drive axes.  The safety theorems say
      when a controlword enables a drive, how far a target may move, what a lost bus does.

    ** The soft bus (src/tools/soft_bus)

    - [EscMem], [EscTypes], [EscProfile]: byte memory, records of a slave, profiles.
    - [EscCoe], [EscCoeSpec] (esc_coe.c): the SDO server.  Transfers in any segmentation
      store or return the object exactly, or nothing at all.
    - [EscDc] (esc_dc.c): clock, time control loop, SYNC0.
    - [EscCore], [EscCoreSpec], [EscFrame] (esc_core.c): registers, AL state machine,
      watchdog, FMMU, datagrams, frames.  The AL state machine makes exactly the steps
      of the ETG one for the events that reach it, the working counter is exact, a frame is the sequence of its datagrams.
    - [EscFault], [EscFaultSpec], [EscFaultDiag] (esc_fault.c, loop of soft_bus_main.c):
      fault injection.  Without injections the bus does what it does without an
      injector; every reply is
      accounted for; replies leave in order; an injected bad cable is found by the
      diagnosis of the master ([Diag]) at the right place.
    - [EscDrive] (esc_cia402.c): the power drive state machine, run against the axis of
      the master ([Cia402Axis]): the handshake of both reaches the wanted state.

    ** Loops and fuel

    A loop that is not structural runs on a fuel that its theorems show, or its bound
    makes plain, to be enough: one step more than the capacity for a ring (9 commands,
    17 setpoints, 257 entries of the send order), 64 bits of an object, 120 buckets, the
    length of the input for SHA-256, twice its length and two for JSON, 4 segments for
    the 512 bytes of an SDO, 171 datagrams of 12 bytes at least in a frame of 2047 bytes,
    65 pops of a queue of 64, one step per byte or answer still due for the read loop
    of the control server, one per character for a list of CPUs, the digits of the type
    (20 decimal, 8 hexadecimal) for a printed number.

    ** Not modelled

    The glue to SOEM (ecm_pdo_soem.c, ecm_eni_soem.c, ecm_diag_soem.c) only calls a
    library that is not in the repository.  ecm_run, the command line tools and the
    probes are option parsing, threads, sockets and text around the parts above.  The
    motion of a virtual drive is floating point physics.  Message texts, reports, ecm_eni_load, esc_prof_load and
    the set-up of the cyclic mailbox are left out of modelled components; PROJECT.json
    says so component by component. *)
From Stdlib Require Import ZArith Lia Bool.
From stdpp Require Export base list numbers.
Open Scope Z_scope.

(** ** C integers

    A C integer is a [Z]; a conversion or an arithmetic operation of the
    source that can leave the type's range is followed by the wrap of that
    type.  Signed overflow is undefined in C: where the source relies on an
    implementation-defined signed conversion the two's complement result of
    gcc is written out. *)

Definition u8 (z : Z) : Z := z mod 256.
Definition u16 (z : Z) : Z := z mod 65536.
Definition u32 (z : Z) : Z := z mod 4294967296.
Definition u64 (z : Z) : Z := z mod 18446744073709551616.
Definition i8 (z : Z) : Z := (z + 128) mod 256 - 128.
Definition i32 (z : Z) : Z := (z + 2147483648) mod 4294967296 - 2147483648.
Definition i64 (z : Z) : Z :=
  (z + 9223372036854775808) mod 18446744073709551616 - 9223372036854775808.

Definition is_u8 (z : Z) : Prop := 0 <= z < 256.
Definition is_u16 (z : Z) : Prop := 0 <= z < 65536.
Definition is_u32 (z : Z) : Prop := 0 <= z < 4294967296.
Definition is_u64 (z : Z) : Prop := 0 <= z < 18446744073709551616.
Definition is_i8 (z : Z) : Prop := -128 <= z < 128.
Definition is_i32 (z : Z) : Prop := -2147483648 <= z < 2147483648.
Definition is_i64 (z : Z) : Prop := -9223372036854775808 <= z < 9223372036854775808.

(** The truth value of a C [int]. *)
Definition b2z (b : bool) : Z := if b then 1 else 0.

(** ** Record update

    [r <| f := v |>] is the C assignment [r->f = v], [r <| f ::= g |>] is
    [r->f = g(r->f)].  A record says once, with an [Eta] instance, how it is
    rebuilt from its fields; the setter of a field is derived from it. *)

Class Eta (R : Type) := eta : R -> R.
Class Upd {R T : Type} (get : R -> T) := upd : (T -> T) -> R -> R.
Arguments upd {R T} get {_} _ _ /.
Arguments eta {R} {_} _ /.

Ltac derive_upd :=
  match goal with
  | |- @Upd ?R ?T ?get =>
      let f := fresh "f" in
      let r := fresh "r" in
      intros f r;
      let e := constr:(_ : Eta R) in
      let e := eval red in (e r) in
      let e := eval unfold eta in e in
      let e := eval cbv beta in e in
      let e := eval pattern (get r) in e in
      match e with
      | ?h _ => let b := eval cbv beta in (h (f (get r))) in exact b
      end
  end.

#[export] Hint Extern 1 (Upd _) => derive_upd : typeclass_instances.

Declare Scope ecm_scope.
Delimit Scope ecm_scope with ecm.
Notation "r <| f := v |>" := (upd f (fun _ => v) r)
  (at level 1, f at level 9, left associativity) : ecm_scope.
Notation "r <| f ::= g |>" := (upd f g r)
  (at level 1, f at level 9, left associativity) : ecm_scope.
Open Scope ecm_scope.


(** ** Automation

    [ecm] holds the lemmas that decide the ranges and the list shapes the
    components share; [zify_c] exposes the C wraps to [lia]. *)

Create HintDb ecm discriminated.

Ltac unfold_c :=
  unfold u8, u16, u32, u64, i8, i32, i64, is_u8, is_u16, is_u32, is_u64,
    is_i8, is_i32, is_i64, b2z in *.

Ltac clia := unfold_c; Z.to_euclidean_division_equations; lia.

(** Case analysis on the innermost Boolean test of an [if] in the goal. *)
Ltac case_if :=
  match goal with
  | |- context [if ?b then _ else _] =>
      lazymatch b with
      | context [if _ then _ else _] => fail
      | _ => let E := fresh "E" in destruct b eqn:E
      end
  end.

Ltac case_if_in H :=
  match type of H with
  | context [if ?b then _ else _] =>
      lazymatch b with
      | context [if _ then _ else _] => fail
      | _ => let E := fresh "E" in destruct b eqn:E
      end
  end.

(** Turn Boolean comparisons of the context into propositions. *)
Ltac bprop :=
  repeat match goal with
  | H : (_ && _) = true |- _ => apply andb_true_iff in H as [? ?]
  | H : (_ || _) = false |- _ => apply orb_false_iff in H as [? ?]
  | H : negb _ = true |- _ => apply negb_true_iff in H
  | H : negb _ = false |- _ => apply negb_false_iff in H
  | H : (_ =? _) = true |- _ => apply Z.eqb_eq in H
  | H : (_ =? _) = false |- _ => apply Z.eqb_neq in H
  | H : (_ <? _) = true |- _ => apply Z.ltb_lt in H
  | H : (_ <? _) = false |- _ => apply Z.ltb_ge in H
  | H : (_ <=? _) = true |- _ => apply Z.leb_le in H
  | H : (_ <=? _) = false |- _ => apply Z.leb_gt in H
  | H : (_ >? _) = true |- _ => rewrite Z.gtb_lt in H
  | H : (_ >=? _) = true |- _ => rewrite Z.geb_leb in H; apply Z.leb_le in H
  end.

(** ** Arithmetic shared by the components *)

Lemma u8_range z : is_u8 (u8 z).
Proof. clia. Qed.
Lemma u16_range z : is_u16 (u16 z).
Proof. clia. Qed.
Lemma u32_range z : is_u32 (u32 z).
Proof. clia. Qed.
Lemma u64_range z : is_u64 (u64 z).
Proof. clia. Qed.
Lemma i32_range z : is_i32 (i32 z).
Proof. clia. Qed.
Lemma i64_range z : is_i64 (i64 z).
Proof. clia. Qed.
#[export] Hint Resolve u8_range u16_range u32_range u64_range i32_range i64_range : ecm.

Lemma mod_add_cancel a b m : 0 < m -> a mod m = b mod m -> exists k, a = b + k * m.
Proof.
  intros Hm H. exists (a / m - b / m).
  pose proof (Z.div_mod a m). pose proof (Z.div_mod b m). nia.
Qed.

(** Reducing modulo a multiple first does not change the residue. *)
Lemma mod_mod_divide a m c : 0 < c -> (c | m) -> 0 < m -> (a mod m) mod c = a mod c.
Proof.
  intros Hc [k ->] Hm.
  rewrite (Z.mul_comm k c) in *. rewrite Z.rem_mul_r by nia.
  rewrite Z.mul_comm, Z.mod_add by lia. apply Z.mod_mod. lia.
Qed.

(** Two numbers less than [c] apart have the same residue only if equal. *)
Lemma mod_near_inj a b c : 0 < c -> Z.abs (a - b) < c -> a mod c = b mod c -> a = b.
Proof.
  intros Hc Hn H. destruct (mod_add_cancel a b c Hc H) as [k Hk].
  assert (- c < k * c < c) by lia. assert (k = 0) by nia. lia.
Qed.

(** ** Lists shared by the components *)

Lemma filter_all {A} (P : A -> Prop) `{!forall x, Decision (P x)} (l : list A) :
  (forall x, x ∈ l -> P x) -> filter P l = l.
Proof.
  induction l as [|x l IH]; intros HP; [done|]. rewrite filter_cons, decide_True by (apply HP, list_elem_of_here).
  by rewrite IH by (intros y Hy; apply HP; by apply list_elem_of_further).
Qed.
Lemma filter_none {A} (P : A -> Prop) `{!forall x, Decision (P x)} (l : list A) :
  (forall x, x ∈ l -> ~ P x) -> filter P l = [].
Proof.
  induction l as [|x l IH]; intros HP; [done|]. rewrite filter_cons, decide_False by (apply HP, list_elem_of_here).
  by rewrite IH by (intros y Hy; apply HP; by apply list_elem_of_further).
Qed.

(** Number of elements satisfying [P] after an update of one of them. *)
Lemma filter_alter_length {A} `{!Inhabited A} (P : A -> Prop) `{!forall x, Decision (P x)} (f : A -> A) (i : nat) (l : list A) :
  (i < length l)%nat ->
  Z.of_nat (length (filter P (alter f i l))) =
  Z.of_nat (length (filter P l)) - b2z (bool_decide (P (l !!! i))) + b2z (bool_decide (P (f (l !!! i)))).
Proof.
  revert i. induction l as [|x l IH]; intros i Hi; [cbn in Hi; lia|].
  assert (E : forall y, Z.of_nat (length (filter P (y :: l))) = Z.of_nat (length (filter P l)) + b2z (bool_decide (P y))).
  { intros y. rewrite filter_cons. case_decide; rewrite ?bool_decide_eq_true_2, ?bool_decide_eq_false_2 by done; cbn; lia. }
  destruct i as [|i].
  - change (alter f 0%nat (x :: l)) with (f x :: l). change ((x :: l) !!! 0%nat) with x. rewrite !E. lia.
  - change (alter f (S i) (x :: l)) with (x :: alter f i l). change ((x :: l) !!! S i) with (l !!! i).
    cbn [length] in Hi. rewrite !filter_cons. specialize (IH i ltac:(lia)). case_decide; cbn [length]; lia.
Qed.
Lemma filter_insert_length {A} `{!Inhabited A} (P : A -> Prop) `{!forall x, Decision (P x)} (x : A) (i : nat) (l : list A) :
  (i < length l)%nat ->
  Z.of_nat (length (filter P (<[i := x]> l))) =
  Z.of_nat (length (filter P l)) - b2z (bool_decide (P (l !!! i))) + b2z (bool_decide (P x)).
Proof. intros H'. rewrite list_insert_alter. by apply (filter_alter_length P (fun _ => x)). Qed.
