(* ===== verification/Ring.v ===== *)
(** * The single-producer single-consumer rings

    Five rings of the master share one algorithm, with different element
    types, counter widths and capacities:
    - [ecm_evring_t] and [ecm_cmdq_t] of policy/ecm_policy.c ([unsigned]
      counters, 256 and 16 slots),
    - [ring_spsc_t] of telemetry/ring_spsc.c and [tx_order_ring_t] of
      telemetry/turnaround.c ([size_t] counters, 4096 and 256 slots),
    - [ecm_xring_t] of xchg/ecm_xchg.c ([size_t] counters, a capacity chosen
      at initialisation).

    Section [Core] proves the algorithm once, over a counter modulus [M] and
    a capacity [C]; class [SpscRing] is what a ring promises to its clients
    (a bounded FIFO queue) and each ring has an instance.  Section
    [Interleaving] runs a producer and a consumer step by step. *)
From Stdlib Require Import ZArith Lia Bool.
From stdpp Require Import base list numbers.
From S2P Require Import Prelude.

(** ** What a ring promises *)

Class SpscRing (R E : Type) := {
  rq_wf : R -> Prop;                  (* representation invariant *)
  rq_cap : R -> Z;                    (* capacity *)
  rq_queue : R -> list E;             (* the queue it stands for *)
  rq_push : R -> E -> R * bool;       (* false: full, dropped *)
  rq_pop : R -> R * option E;         (* None: empty *)
  rq_push_wf r e : rq_wf r -> rq_wf (rq_push r e).1;
  rq_pop_wf r : rq_wf r -> rq_wf (rq_pop r).1;
  rq_bounded r : rq_wf r -> Z.of_nat (length (rq_queue r)) <= rq_cap r;
  rq_push_spec r e : rq_wf r ->
    let full := rq_cap r <=? Z.of_nat (length (rq_queue r)) in
    (rq_push r e).2 = negb full /\
    rq_queue (rq_push r e).1 = (if full then rq_queue r else rq_queue r ++ [e]);
  rq_pop_spec r : rq_wf r ->
    (rq_pop r).2 = head (rq_queue r) /\
    rq_queue (rq_pop r).1 = tail (rq_queue r)
}.

(** *** Refinement: a run of any ring is a run of the bounded queue *)
Section Refinement.
Context {R E : Type} `{SR : SpscRing R E}.

Inductive qop := QPush (e : E) | QPop.
Inductive qres := RPush (ok : bool) | RPop (x : option E).

Definition ring_do (r : R) (o : qop) : R * qres :=
  match o with
  | QPush e => let '(r', ok) := rq_push r e in (r', RPush ok)
  | QPop => let '(r', x) := rq_pop r in (r', RPop x)
  end.

(** The abstract queue of capacity [cap]. *)
Definition queue_do (cap : Z) (q : list E) (o : qop) : list E * qres :=
  match o with
  | QPush e => if cap <=? Z.of_nat (length q) then (q, RPush false) else (q ++ [e], RPush true)
  | QPop => (tail q, RPop (head q))
  end.

Fixpoint run_with {S : Type} (step : S -> qop -> S * qres) (s : S) (os : list qop) : S * list qres :=
  match os with
  | [] => (s, [])
  | o :: os => let '(s1, x) := step s o in let '(s2, xs) := run_with step s1 os in (s2, x :: xs)
  end.

Lemma ring_do_refines r o : rq_wf r ->
  rq_wf (ring_do r o).1 /\
  queue_do (rq_cap r) (rq_queue r) o = (rq_queue (ring_do r o).1, (ring_do r o).2).
Proof.
  intros Hw. destruct o as [e|]; cbn.
  - pose proof (rq_push_wf r e Hw) as Hw'. pose proof (rq_push_spec r e Hw) as [H1 H2].
    destruct (rq_push r e) as [r' ok]. cbn in *. subst ok. split; [done|].
    destruct (_ <=? _); cbn in *; rewrite H2; done.
  - pose proof (rq_pop_wf r Hw) as Hw'. pose proof (rq_pop_spec r Hw) as [H1 H2].
    destruct (rq_pop r) as [r' x]. cbn in *. rewrite H1, H2. done.
Qed.

Lemma run_refines (Hcap : forall r o, rq_cap (ring_do r o).1 = rq_cap r) r os : rq_wf r ->
  run_with (queue_do (rq_cap r)) (rq_queue r) os
  = (rq_queue (run_with ring_do r os).1, (run_with ring_do r os).2).
Proof.
  revert r. induction os as [|o os IH]; intros r Hw; cbn; [done|].
  destruct (ring_do_refines r o Hw) as [Hw' ->]. specialize (Hcap r o).
  destruct (ring_do r o) as [r1 x]. cbn in *. rewrite <- Hcap, (IH r1 Hw').
  destruct (run_with ring_do r1 os). done.
Qed.
End Refinement.
Arguments qop : clear implicits.
Arguments qres : clear implicits.

(** ** The algorithm *)
Section Core.
Context {A : Type} `{!Inhabited A}.
Context (M C : Z).
Hypothesis (HC : 0 < C) (HM : C < M) (Hdiv : (C | M)).

Definition ring_slot (i : Z) : nat := Z.to_nat (i mod C).
Definition ring_count (h t : Z) : Z := (h - t) mod M.

(** The elements between the tail and the head, oldest first. *)
Definition ring_contents (b : list A) (h t : Z) : list A :=
  (fun i => b !!! ring_slot (t + i)) <$> seqZ 0 (ring_count h t).

Definition ring_ok (b : list A) (h t : Z) : Prop :=
  (Z.to_nat C <= length b)%nat /\ 0 <= h < M /\ 0 <= t < M /\ ring_count h t <= C.

Lemma ring_count_range h t : 0 <= ring_count h t < M.
Proof. apply Z.mod_pos_bound. lia. Qed.

Lemma ring_contents_length b h t :
  Z.of_nat (length (ring_contents b h t)) = ring_count h t.
Proof.
  unfold ring_contents. rewrite length_fmap, length_seqZ.
  pose proof (ring_count_range h t). lia.
Qed.

Lemma ring_contents_lookup b h t (i : nat) :
  Z.of_nat i < ring_count h t ->
  ring_contents b h t !! i = Some (b !!! ring_slot (t + Z.of_nat i)).
Proof.
  intros Hi. unfold ring_contents. rewrite list_lookup_fmap, lookup_seqZ_lt by lia.
  cbn. do 2 f_equal.
Qed.

Lemma ring_slot_lt i : (ring_slot i < Z.to_nat C)%nat.
Proof. unfold ring_slot. pose proof (Z.mod_pos_bound i C). lia. Qed.

Lemma ring_slot_mod i : ring_slot (i mod M) = ring_slot i.
Proof. unfold ring_slot. rewrite mod_mod_divide by (auto; lia). done. Qed.

Lemma ring_slot_inj i j : Z.abs (i - j) < C -> ring_slot i = ring_slot j -> i = j.
Proof.
  intros Hn H. apply (mod_near_inj i j C); [lia..|].
  unfold ring_slot in H. pose proof (Z.mod_pos_bound i C HC). pose proof (Z.mod_pos_bound j C HC). lia.
Qed.

(** The head is [count] slots after the tail. *)
Lemma ring_slot_head h t : ring_slot h = ring_slot (t + ring_count h t).
Proof.
  unfold ring_slot, ring_count. f_equal.
  rewrite <- (mod_mod_divide (t + (h - t) mod M) M C) by (auto; lia).
  rewrite Z.add_mod_idemp_r by lia. replace (t + (h - t)) with h by lia.
  symmetry. apply mod_mod_divide; auto; lia.
Qed.

Lemma ring_count_push h t :
  ring_count h t < C -> ring_count ((h + 1) mod M) t = ring_count h t + 1.
Proof.
  unfold ring_count. intros H. rewrite Zminus_mod_idemp_l.
  replace (h + 1 - t) with ((h - t) + 1) by lia.
  rewrite <- Z.add_mod_idemp_l by lia. apply Z.mod_small.
  pose proof (Z.mod_pos_bound (h - t) M). lia.
Qed.

Lemma ring_count_pop h t :
  0 < ring_count h t -> ring_count h ((t + 1) mod M) = ring_count h t - 1.
Proof.
  unfold ring_count. intros H. rewrite Zminus_mod_idemp_r.
  replace (h - (t + 1)) with ((h - t) + (-1)) by lia.
  rewrite <- Z.add_mod_idemp_l by lia. apply Z.mod_small.
  pose proof (Z.mod_pos_bound (h - t) M). lia.
Qed.

Lemma ring_count_zero h t :
  0 <= h < M -> 0 <= t < M -> ring_count h t = 0 <-> t = h.
Proof.
  intros Hh Ht. unfold ring_count. split.
  - intros H. assert (E : h mod M = t mod M).
    { rewrite <- (Z.add_0_l t), <- H. rewrite Z.add_mod_idemp_l by lia. f_equal. lia. }
    rewrite !Z.mod_small in E by lia. done.
  - intros ->. rewrite Z.sub_diag. apply Z.mod_0_l. lia.
Qed.

Lemma ring_contents_push b h t e :
  ring_ok b h t -> ring_count h t < C ->
  ring_contents (<[ring_slot h := e]> b) ((h + 1) mod M) t = ring_contents b h t ++ [e].
Proof.
  intros (Hlen & Hh & Ht & _) Hn.
  pose proof (ring_count_range h t) as Hr.
  pose proof (ring_count_push h t Hn) as Hp.
  apply list_eq. intros i.
  destruct (decide (Z.of_nat i < ring_count h t)) as [Hi|Hi].
  - rewrite lookup_app_l by (apply Nat2Z.inj_lt; rewrite ring_contents_length; lia).
    rewrite !ring_contents_lookup by lia. f_equal.
    apply list_lookup_total_insert_ne. rewrite ring_slot_head with (t := t).
    intros E. apply ring_slot_inj in E; lia.
  - pose proof (ring_contents_length b h t) as Hl.
    rewrite lookup_app_r by lia.
    destruct (decide (Z.of_nat i = ring_count h t)) as [E|E].
    + rewrite ring_contents_lookup by lia.
      replace (i - length (ring_contents b h t))%nat with 0%nat by lia. cbn. f_equal.
      rewrite E, <- ring_slot_head. apply list_lookup_total_insert_eq.
      pose proof (ring_slot_lt h). lia.
    + rewrite !lookup_ge_None_2; [done| cbn; lia |].
      pose proof (ring_contents_length (<[ring_slot h:=e]> b) ((h + 1) mod M) t). lia.
Qed.

Lemma ring_contents_pop b h t :
  ring_ok b h t -> t <> h ->
  ring_contents b h t = (b !!! ring_slot t) :: ring_contents b h ((t + 1) mod M).
Proof.
  intros (Hlen & Hh & Ht & Hc) Hne.
  pose proof (ring_count_range h t) as Hr.
  assert (Hn : 0 < ring_count h t).
  { destruct (decide (ring_count h t = 0)) as [E|E]; [|lia].
    apply (ring_count_zero h t Hh Ht) in E. congruence. }
  pose proof (ring_count_pop h t Hn) as Hp.
  pose proof (ring_contents_length b h t) as L1.
  pose proof (ring_contents_length b h ((t + 1) mod M)) as L2.
  apply list_eq. intros [|i].
  - rewrite ring_contents_lookup by lia. cbn. rewrite Z.add_0_r. done.
  - cbn. destruct (decide (Z.of_nat (S i) < ring_count h t)) as [Hi|Hi].
    + rewrite !ring_contents_lookup by lia. do 2 f_equal.
      rewrite <- (ring_slot_mod (t + Z.of_nat (S i))), <- (ring_slot_mod (_ + Z.of_nat i)).
      f_equal. rewrite Z.add_mod_idemp_l by lia. f_equal. lia.
    + transitivity (@None A); [|symmetry]; apply lookup_ge_None_2; lia.
Qed.

Lemma ring_contents_empty b h : ring_contents b h h = [].
Proof. unfold ring_contents, ring_count. rewrite Z.sub_diag, Z.mod_0_l by lia. done. Qed.

Lemma ring_ok_push b h t e :
  ring_ok b h t -> ring_count h t < C ->
  ring_ok (<[ring_slot h := e]> b) ((h + 1) mod M) t.
Proof.
  intros (Hlen & Hh & Ht & _) Hn. repeat split; try lia.
  - rewrite length_insert. done.
  - apply Z.mod_pos_bound; lia.
  - apply Z.mod_pos_bound; lia.
  - rewrite ring_count_push; lia.
Qed.

Lemma ring_ok_pop b h t :
  ring_ok b h t -> t <> h -> ring_ok b h ((t + 1) mod M).
Proof.
  intros (Hlen & Hh & Ht & Hc) Hne. pose proof (ring_count_range h t).
  assert (0 < ring_count h t).
  { destruct (decide (ring_count h t = 0)) as [E|E]; [|lia].
    apply (ring_count_zero h t Hh Ht) in E. congruence. }
  repeat split; try lia; try (apply Z.mod_pos_bound; lia).
  rewrite ring_count_pop; lia.
Qed.

End Core.

(** ** The ring of the sources: four fields and two operations *)

Record ring (E : Type) := mkring {
  r_buf : list E;
  r_head : Z;          (* written by the producer only *)
  r_tail : Z;          (* written by the consumer only *)
  r_drops : Z          (* producer only *)
}.
Arguments mkring {E}.
Arguments r_buf {E}.
Arguments r_head {E}.
Arguments r_tail {E}.
Arguments r_drops {E}.

#[export] Instance ring_eta E : Eta (ring E) :=
  fun r => {| r_buf := r_buf r; r_head := r_head r; r_tail := r_tail r; r_drops := r_drops r |}.

Section Generic.
Context {E : Type} `{!Inhabited E}.
Context (M C : Z).

Definition spsc_push (r : ring E) (e : E) : ring E * bool :=
  let h := r_head r in
  let t := r_tail r in
  if C <=? ring_count M h t then (r <| r_drops := u64 (r_drops r + 1) |>, false)
  else (r <| r_buf := <[ring_slot C h := e]> (r_buf r) |> <| r_head := (h + 1) mod M |>, true).

Definition spsc_pop (r : ring E) : ring E * option E :=
  let t := r_tail r in
  let h := r_head r in
  if t =? h then (r, None)
  else (r <| r_tail := (t + 1) mod M |>, Some (r_buf r !!! ring_slot C t)).

Definition spsc_wf (r : ring E) : Prop := ring_ok M C (r_buf r) (r_head r) (r_tail r).
Definition spsc_queue (r : ring E) : list E := ring_contents M C (r_buf r) (r_head r) (r_tail r).

Hypothesis (HC : 0 < C) (HM : C < M) (Hdiv : (C | M)).

(** Every ring of the sources is an instance of this one. *)
Program Definition spsc_ring : SpscRing (ring E) E := {|
  rq_wf := spsc_wf; rq_cap := fun _ => C; rq_queue := spsc_queue;
  rq_push := spsc_push; rq_pop := spsc_pop |}.
Next Obligation.
  intros r e H. unfold spsc_push. destruct (Z.leb_spec C (ring_count M (r_head r) (r_tail r))); [done|].
  unfold spsc_wf; cbn. by apply ring_ok_push.
Qed.
Next Obligation.
  intros r H. unfold spsc_pop. destruct (Z.eqb_spec (r_tail r) (r_head r)); [done|].
  unfold spsc_wf; cbn. by apply ring_ok_pop.
Qed.
Next Obligation.
  intros r (_ & _ & _ & H). unfold spsc_queue. rewrite ring_contents_length; lia.
Qed.
Next Obligation.
  intros r e H. unfold spsc_push, spsc_queue. rewrite ring_contents_length by lia.
  destruct (Z.leb_spec C (ring_count M (r_head r) (r_tail r))); cbn; [done|].
  split; [done|]. by apply ring_contents_push.
Qed.
Next Obligation.
  intros r H. unfold spsc_pop, spsc_queue. destruct (Z.eqb_spec (r_tail r) (r_head r)) as [E1|E1]; cbn.
  - rewrite E1, ring_contents_empty by lia. done.
  - rewrite (ring_contents_pop M C HC HM Hdiv _ _ _ H E1). done.
Qed.

(** Operations equal to the generic ones make the same promise. *)
Program Definition ring_as_spsc (push : ring E -> E -> ring E * bool) (pop : ring E -> ring E * option E)
    (Hpush : forall r e, push r e = spsc_push r e) (Hpop : forall r, pop r = spsc_pop r) :
    SpscRing (ring E) E := {|
  rq_wf := spsc_wf; rq_cap := fun _ => C; rq_queue := spsc_queue;
  rq_push := push; rq_pop := pop |}.
Next Obligation. intros push pop Hpush Hpop r e H. rewrite Hpush. exact (rq_push_wf (SpscRing := spsc_ring) r e H). Qed.
Next Obligation. intros push pop Hpush Hpop r H. rewrite Hpop. exact (rq_pop_wf (SpscRing := spsc_ring) r H). Qed.
Next Obligation. intros push pop Hpush Hpop r H. exact (rq_bounded (SpscRing := spsc_ring) r H). Qed.
Next Obligation. intros push pop Hpush Hpop r e H. cbn. rewrite Hpush. exact (rq_push_spec (SpscRing := spsc_ring) r e H). Qed.
Next Obligation. intros push pop Hpush Hpop r H. rewrite Hpop. exact (rq_pop_spec (SpscRing := spsc_ring) r H). Qed.

End Generic.

(** ** Producer and consumer, interleaved

    One constructor per shared-memory access of push and pop, in program
    order.  A counter a thread loaded may be stale by the time it uses it.
    [s_pushed] and [s_popped] are ghost: what was published and what was
    taken, in order. *)
Section Interleaving.
Context {A : Type} `{!Inhabited A}.
Context (M C : Z).

Inductive ppc :=
  | PIdle
  | PGotHead (e : A) (h : Z)            (* head loaded *)
  | PGotBoth (e : A) (h t : Z)          (* tail loaded *)
  | PWrote (e : A) (h : Z).             (* slot written, head not yet stored *)

Inductive cpc :=
  | CIdle
  | CGotTail (t : Z)
  | CGotBoth (t h : Z)
  | CRead (t : Z) (v : A).              (* slot read, tail not yet stored *)

Record sys := mksys {
  s_buf : list A; s_head : Z; s_tail : Z;
  s_p : ppc; s_c : cpc;
  s_pushed : list A; s_popped : list A
}.

Definition sys_init (b : list A) : sys := mksys b 0 0 PIdle CIdle [] [].

Inductive pstep : sys -> sys -> Prop :=
  | p_load_head b h t c pu po e :
      pstep (mksys b h t PIdle c pu po) (mksys b h t (PGotHead e h) c pu po)
  | p_load_tail b h t c pu po e hp :
      pstep (mksys b h t (PGotHead e hp) c pu po) (mksys b h t (PGotBoth e hp t) c pu po)
  | p_full b h t c pu po e hp tp : C <= ring_count M hp tp ->
      pstep (mksys b h t (PGotBoth e hp tp) c pu po) (mksys b h t PIdle c pu po)
  | p_write b h t c pu po e hp tp : ring_count M hp tp < C ->
      pstep (mksys b h t (PGotBoth e hp tp) c pu po)
            (mksys (<[ring_slot C hp := e]> b) h t (PWrote e hp) c pu po)
  | p_publish b h t c pu po e hp :
      pstep (mksys b h t (PWrote e hp) c pu po)
            (mksys b ((hp + 1) mod M) t PIdle c (pu ++ [e]) po).

Inductive cstep : sys -> sys -> Prop :=
  | c_load_tail b h t p pu po :
      cstep (mksys b h t p CIdle pu po) (mksys b h t p (CGotTail t) pu po)
  | c_load_head b h t p pu po tc :
      cstep (mksys b h t p (CGotTail tc) pu po) (mksys b h t p (CGotBoth tc h) pu po)
  | c_empty b h t p pu po tc hc : tc = hc ->
      cstep (mksys b h t p (CGotBoth tc hc) pu po) (mksys b h t p CIdle pu po)
  | c_read b h t p pu po tc hc : tc <> hc ->
      cstep (mksys b h t p (CGotBoth tc hc) pu po)
            (mksys b h t p (CRead tc (b !!! ring_slot C tc)) pu po)
  | c_release b h t p pu po tc v :
      cstep (mksys b h t p (CRead tc v) pu po)
            (mksys b h ((tc + 1) mod M) p CIdle pu (po ++ [v])).

Inductive reach (b0 : list A) : sys -> Prop :=
  | reach_init : reach b0 (sys_init b0)
  | reach_p s s' : reach b0 s -> pstep s s' -> reach b0 s'
  | reach_c s s' : reach b0 s -> cstep s s' -> reach b0 s'.

(** The slot the next step of a thread writes or reads, if it does. *)
Definition p_target (s : sys) : option nat :=
  match s_p s with
  | PGotBoth _ h t => if C <=? ring_count M h t then None else Some (ring_slot C h)
  | _ => None
  end.
Definition c_target (s : sys) : option nat :=
  match s_c s with
  | CGotBoth t h => if t =? h then None else Some (ring_slot C t)
  | _ => None
  end.

Definition npush (s : sys) : Z := Z.of_nat (length (s_pushed s)).
Definition npop (s : sys) : Z := Z.of_nat (length (s_popped s)).

Definition p_inv (s : sys) : Prop :=
  match s_p s with
  | PIdle => True
  | PGotHead _ h => h = npush s mod M
  | PGotBoth _ h t => h = npush s mod M /\
      exists T, t = T mod M /\ 0 <= T <= npop s /\ npush s - T <= C
  | PWrote e h => h = npush s mod M /\ npush s - npop s < C /\
      s_buf s !!! ring_slot C (npush s) = e
  end.

Definition c_inv (s : sys) : Prop :=
  match s_c s with
  | CIdle => True
  | CGotTail t => t = npop s mod M
  | CGotBoth t h => t = npop s mod M /\
      exists H, h = H mod M /\ npop s <= H <= npush s
  | CRead t v => t = npop s mod M /\ npop s < npush s /\ s_pushed s !! length (s_popped s) = Some v
  end.

Definition sys_inv (s : sys) : Prop :=
  length (s_buf s) = Z.to_nat C /\
  s_head s = npush s mod M /\ s_tail s = npop s mod M /\
  npop s <= npush s <= npop s + C /\
  s_popped s = take (length (s_popped s)) (s_pushed s) /\
  (forall i x, (length (s_popped s) <= i)%nat -> s_pushed s !! i = Some x ->
     s_buf s !!! ring_slot C (Z.of_nat i) = x) /\
  p_inv s /\ c_inv s.

Hypothesis (HC : 0 < C) (HM : C < M) (Hdiv : (C | M)).

Lemma count_ghost H T : 0 <= H - T <= C -> ring_count M (H mod M) (T mod M) = H - T.
Proof.
  intros Hr. unfold ring_count. rewrite <- Zminus_mod. apply Z.mod_small. lia.
Qed.

Lemma ghost_neq H T : 0 <= H - T <= C -> H mod M <> T mod M -> T < H.
Proof. intros Hr Hne. destruct (decide (H = T)) as [->|]; [done|lia]. Qed.

Lemma succ_mod i : (i mod M + 1) mod M = (i + 1) mod M.
Proof. rewrite Z.add_mod_idemp_l by lia. done. Qed.

Lemma npush_snoc b h t p c pu po e :
  npush (mksys b h t p c (pu ++ [e]) po) = Z.of_nat (length pu) + 1.
Proof. unfold npush; cbn. rewrite length_app; cbn. lia. Qed.

Lemma pstep_inv s s' : sys_inv s -> pstep s s' -> sys_inv s'.
Proof.
  intros (Hb & Hh & Ht & Hn & Hpo & Hbuf & Hp & Hc) Hst.
  destruct Hst as [b h t c pu po e|b h t c pu po e hp|b h t c pu po e hp tp Hful
                  |b h t c pu po e hp tp Hlt|b h t c pu po e hp];
    unfold sys_inv, p_inv, npush, npop in *; cbn in *.
  - repeat split; auto; lia.
  - repeat split; auto; try lia.
    exists (Z.of_nat (length po)). repeat split; auto; lia.
  - repeat split; auto; lia.
  - destruct Hp as (-> & T & -> & HT & HT').
    rewrite count_ghost in Hlt by lia. rewrite ring_slot_mod by auto.
    repeat split; auto; try lia.
    + rewrite length_insert. done.
    + intros i x Hi Hx. apply lookup_lt_Some in Hx as Hl.
      rewrite list_lookup_total_insert_ne; [eauto|].
      intros E. apply ring_slot_inj in E; lia.
    + apply list_lookup_total_insert_eq. rewrite Hb. apply ring_slot_lt; lia.
  - destruct Hp as (-> & Hlt & Hw).
    repeat split; auto; rewrite ?length_app; cbn; try lia.
    + rewrite succ_mod. f_equal. lia.
    + rewrite take_app_le by lia. done.
    + intros i x Hi Hx. destruct (decide (i < length pu)%nat) as [Hl|Hl].
      * rewrite lookup_app_l in Hx by lia. eauto.
      * rewrite lookup_app_r in Hx by lia. apply list_lookup_singleton_Some in Hx as [E <-].
        replace i with (length pu) by lia. done.
    + unfold c_inv, npush, npop in *; cbn in *. destruct c as [|tc|tc hc|tc v]; auto.
      * destruct Hc as (Hc & H & Hh' & Hr). split; [done|]. exists H.
        rewrite length_app; cbn. repeat split; auto; lia.
      * destruct Hc as (Hc & Hl & Hv). rewrite length_app; cbn. repeat split; auto; [lia|].
        rewrite lookup_app_l by lia. done.
Qed.

Lemma cstep_inv s s' : sys_inv s -> cstep s s' -> sys_inv s'.
Proof.
  intros (Hb & Hh & Ht & Hn & Hpo & Hbuf & Hp & Hc) Hst.
  destruct Hst as [b h t p pu po|b h t p pu po tc|b h t p pu po tc hc Hem
                  |b h t p pu po tc hc Hne|b h t p pu po tc v];
    unfold sys_inv, c_inv, npush, npop in *; cbn in *.
  - repeat split; auto; lia.
  - repeat split; auto; try lia.
    exists (Z.of_nat (length pu)). repeat split; auto; lia.
  - repeat split; auto; lia.
  - destruct Hc as (-> & H & -> & HH).
    assert (Hlt : Z.of_nat (length po) < H) by (apply ghost_neq; [lia|congruence]).
    repeat split; auto; try lia.
    rewrite ring_slot_mod by auto.
    destruct (lookup_lt_is_Some_2 pu (length po)) as [x Hx]; [lia|].
    rewrite (Hbuf _ _ (le_n _) Hx). done.
  - destruct Hc as (-> & Hlt & Hv).
    repeat split; auto; rewrite ?length_app; cbn; try lia.
    + rewrite succ_mod. f_equal. lia.
    + replace (length po + 1)%nat with (S (length po)) by lia.
      rewrite (take_S_r _ _ v) by done. f_equal. done.
    + intros i x Hi Hx. apply Hbuf; [lia|done].
    + unfold p_inv, npush, npop in *; cbn in *. destruct p as [|e hp|e hp tp|e hp]; auto.
      * destruct Hp as (Hp & T & Ht' & HT & HT'). split; [done|]. exists T.
        rewrite length_app; cbn. repeat split; auto; lia.
      * destruct Hp as (Hp & Hp' & Hp''). rewrite length_app; cbn. repeat split; auto; lia.
Qed.

Lemma reach_inv b0 s : length b0 = Z.to_nat C -> reach b0 s -> sys_inv s.
Proof.
  intros Hb Hr. induction Hr; eauto using pstep_inv, cstep_inv.
  unfold sys_inv, p_inv, c_inv, npush, npop; cbn. repeat split; auto; try lia.
  intros i x _ Hx. rewrite lookup_nil in Hx. discriminate.
Qed.

(** Under any interleaving the consumer takes what the producer published,
    in order, at most [C] elements behind. *)
Lemma interleaving_fifo b0 s : length b0 = Z.to_nat C -> reach b0 s ->
  s_popped s `prefix_of` s_pushed s /\ npush s <= npop s + C.
Proof.
  intros Hb Hr. destruct (reach_inv b0 s Hb Hr) as (_ & _ & _ & Hn & Hpo & _).
  split; [|lia]. rewrite Hpo. apply prefix_take.
Qed.

(** No reachable state lets one thread write the slot the other one reads. *)
Lemma interleaving_race_free b0 s i j : length b0 = Z.to_nat C -> reach b0 s ->
  p_target s = Some i -> c_target s = Some j -> i <> j.
Proof.
  intros Hb Hr. destruct (reach_inv b0 s Hb Hr) as (_ & _ & _ & Hn & _ & _ & Hp & Hc).
  unfold p_target, c_target, p_inv, c_inv in *.
  destruct (s_p s) as [|e hp|e hp tp|e hp]; try discriminate.
  destruct (s_c s) as [|tc|tc hc|tc v]; try discriminate.
  destruct Hp as (-> & T & -> & HT & HT'). destruct Hc as (-> & H & -> & HH).
  destruct (Z.leb_spec C (ring_count M (npush s mod M) (T mod M))) as [|Hlt]; [discriminate|].
  destruct (Z.eqb_spec (npop s mod M) (H mod M)) as [|Hne]; [discriminate|].
  rewrite count_ghost in Hlt by lia.
  intros [= <-] [= <-]. rewrite !ring_slot_mod by auto.
  assert (npop s < H) by (apply ghost_neq; [lia|congruence]).
  intros E. apply ring_slot_inj in E; lia.
Qed.
End Interleaving.
