(* ===== verification/CString.v ===== *)
(** * The C string functions the sources call

    Strings are lists of characters without the terminator.  [strtok] gives
    the tokens of [strtok_r]; [strtoull], [strtoll], [strtoul] and [strtol] are
    the conversions of <stdlib.h> on a 64-bit target: white space, a sign, the
    prefix of base 0, then the longest run of digits; a value out of range is
    clamped and reported ([ERANGE]). *)
From Stdlib Require Import ZArith Lia Bool Ascii String.
From S2P Require Import Prelude.
From stdpp Require Import base list numbers strings.
Open Scope Z_scope.

Notation str := (list ascii).
Definition code (c : ascii) : Z := Z.of_nat (nat_of_ascii c).
Definition s_ (s : string) : str := list_ascii_of_string s.
Arguments s_ : simpl never.
Definition streq (a b : str) : bool := bool_decide (a = b).

(** toupper, tolower of the C locale. *)
Definition toupper (c : ascii) : ascii :=
  let n := nat_of_ascii c in
  if (97 <=? n)%nat && (n <=? 122)%nat then ascii_of_nat (n - 32) else c.
Definition tolower (c : ascii) : ascii :=
  let n := nat_of_ascii c in
  if (65 <=? n)%nat && (n <=? 90)%nat then ascii_of_nat (n + 32) else c.

(** [strcasecmp(a, b) == 0] *)
Definition strcaseeq (a b : str) : bool := bool_decide (tolower <$> a = tolower <$> b).

Definition isspace (c : ascii) : bool := (code c =? 32) || ((9 <=? code c) && (code c <=? 13)).
Definition isdigit (c : ascii) : bool := (48 <=? code c) && (code c <=? 57).

(** The tokens of [strtok_r] for one separator: the non-empty pieces. *)
Fixpoint strtok (sep : ascii) (cur s : str) : list str :=
  match s with
  | [] => match cur with [] => [] | _ => [rev cur] end
  | c :: s =>
      if Ascii.eqb c sep then match cur with [] => strtok sep [] s | _ => rev cur :: strtok sep [] s end
      else strtok sep (c :: cur) s
  end.

(** The tokens of [strtok] for the separators of a line, and a line up to its comment. *)
Definition is_sep (c : ascii) : bool := (code c =? 32) || (code c =? 9) || (code c =? 13) || (code c =? 10).
Fixpoint tokens (cur s : str) : list str :=
  match s with
  | [] => match cur with [] => [] | _ => [rev cur] end
  | c :: s =>
      if is_sep c then match cur with [] => tokens [] s | _ => rev cur :: tokens [] s end
      else tokens (c :: cur) s
  end.
Fixpoint before_hash (s : str) : str :=
  match s with [] => [] | c :: s => if code c =? 35 then [] else c :: before_hash s end.

(** The C string in a buffer. *)
Fixpoint until_nul (s : str) : str := match s with [] => [] | c :: s => if code c =? 0 then [] else c :: until_nul s end.

(** Value of a digit, 99 for any other character. *)
Definition digit (c : ascii) : Z :=
  if isdigit c then code c - 48
  else if (97 <=? code c) && (code c <=? 122) then code c - 87
  else if (65 <=? code c) && (code c <=? 90) then code c - 55
  else 99.
Definition isxdigit (c : ascii) : bool := digit c <? 16.

Fixpoint skip_space (s : str) : str :=
  match s with c :: s' => if isspace c then skip_space s' else s | [] => [] end.

(** The digits of [base] at the head of [s]: value and rest. *)
Fixpoint digits (base acc : Z) (s : str) : Z * str :=
  match s with
  | c :: s' => if digit c <? base then digits base (acc * base + digit c) s' else (acc, s)
  | [] => (acc, [])
  end.

(** Base 0 looks at the prefix; base 16 also skips it. *)
Definition strip_prefix (base : Z) (s : str) : Z * str :=
  match s with
  | c0 :: c1 :: c2 :: _ =>
      if Ascii.eqb c0 "0" && (Ascii.eqb c1 "x" || Ascii.eqb c1 "X") && isxdigit c2 && ((base =? 0) || (base =? 16))
      then (16, drop 2 s)
      else if base =? 0 then (if Ascii.eqb c0 "0" then 8 else 10, s) else (base, s)
  | c0 :: _ => if base =? 0 then (if Ascii.eqb c0 "0" then 8 else 10, s) else (base, s)
  | [] => (if base =? 0 then 10 else base, s)
  end.

(** Sign, magnitude and rest; [None] when there is nothing to convert. *)
Definition scan_int (base : Z) (s : str) : option (bool * Z * str) :=
  let s := skip_space s in
  let '(neg, s) := match s with
                   | c :: s' => if Ascii.eqb c "-" then (true, s') else if Ascii.eqb c "+" then (false, s') else (false, s)
                   | [] => (false, s)
                   end in
  let '(b, s) := strip_prefix base s in
  match s with
  | c :: _ => if digit c <? b then let '(v, rest) := digits b 0 s in Some (neg, v, rest) else None
  | [] => None
  end.

(** Value, [errno == ERANGE], rest of the string. *)
Definition strtoull (base : Z) (s : str) : option (Z * bool * str) :=
  match scan_int base s with
  | None => None
  | Some (neg, v, rest) =>
      if 18446744073709551615 <? v then Some (18446744073709551615, true, rest)
      else Some (if neg then u64 (- v) else v, false, rest)
  end.
Definition strtoul := strtoull.
Definition strtoll (base : Z) (s : str) : option (Z * bool * str) :=
  match scan_int base s with
  | None => None
  | Some (neg, v, rest) =>
      let v := if neg then - v else v in
      if v <? -9223372036854775808 then Some (-9223372036854775808, true, rest)
      else if 9223372036854775807 <? v then Some (9223372036854775807, true, rest)
      else Some (v, false, rest)
  end.
Definition strtol := strtoll.

Lemma strtoull_range base s v e rest : 0 <= base -> strtoull base s = Some (v, e, rest) -> 0 <= v < 18446744073709551616.
Proof.
  intros Hb. unfold strtoull. destruct (scan_int base s) as [[[neg m] r]|] eqn:E; [|done].
  assert (Hm : 0 <= m).
  { unfold scan_int in E. destruct (match skip_space s with [] => _ | _ => _ end) as [ng s1].
    destruct (strip_prefix base s1) as [b s2] eqn:Es.
    assert (Hb2 : 0 <= b).
    { unfold strip_prefix in Es. repeat (case_match; simplify_eq; try lia). }
    assert (Hd : forall s acc, 0 <= acc -> 0 <= (digits b acc s).1).
    { clear -Hb2. induction s as [|c s IH]; intros acc Ha; cbn; [done|]. destruct (digit c <? b); [|done]. apply IH.
      assert (0 <= digit c) by (unfold digit, isdigit; repeat case_if; bprop; lia). nia. }
    destruct s2 as [|c s2]; [done|]. destruct (digit c <? b); [|done].
    specialize (Hd (c :: s2) 0 ltac:(lia)). destruct (digits b 0 (c :: s2)) as [v' r']. by simplify_eq. }
  destruct (Z.ltb_spec 18446744073709551615 m); intros [= <- <- <-]; [lia|].
  destruct neg; [|lia]. pose proof (u64_range (- m)) as H'. unfold is_u64 in H'. lia.
Qed.

Example strto_hex : strtoull 0 (s_ "0x1F;") = Some (31, false, s_ ";").
Proof. reflexivity. Qed.
Example strto_negative : strtoull 0 (s_ " -1") = Some (18446744073709551615, false, []).
Proof. reflexivity. Qed.
Example strto_octal : strtol 0 (s_ "010") = Some (8, false, []).
Proof. reflexivity. Qed.
Example strto_prefix_only : strtoull 0 (s_ "0xg") = Some (0, false, s_ "xg").
Proof. reflexivity. Qed.
