(* ===== verification/Policy.v ===== *)
(** * Master fault policy: libecmaster/policy/ecm_policy.c

    Receive timeout, bus state machine (RUN / DEGRADED / LOST / RECOVER), the
    event and command rings between the RT thread and the monitor, the
    per-slave recovery planner and the input freshness check.  A function
    that fills [*ev] and returns 1 on a transition returns [Some ev] here, 0
    is [None]. *)
From Stdlib Require Import ZArith Lia Bool.
From stdpp Require Import base list numbers.
From S2P Require Import Prelude Ring.

Definition ECM_POL_WKC_OK : Z := 0.
Definition ECM_POL_WKC_NOFRAME : Z := 1.

(** ** Receive timeout *)

Definition ecm_rx_timeout_us (now_ns deadline_ns min_us max_us : Z) : Z :=
  let left_us := if now_ns <? deadline_ns then i64 (u64 (deadline_ns - now_ns) / 1000) else 0 in
  let left_us := if left_us <? min_us then min_us else left_us in
  let left_us := if max_us <? left_us then max_us else left_us in
  i32 left_us.

(** The receive timeout stays inside the caller's bounds and, unless the
    minimum forces it, never reaches past the deadline. *)
Theorem rx_timeout_bounds now deadline min_us max_us :
  is_u64 now -> is_u64 deadline -> is_i32 min_us -> is_i32 max_us -> min_us <= max_us ->
  let t := ecm_rx_timeout_us now deadline min_us max_us in
  min_us <= t <= max_us /\ (min_us < t -> 0 <= t -> now + 1000 * t <= Z.max now deadline).
Proof.
  intros Hn Hd Hmin Hmax Hle. unfold ecm_rx_timeout_us.
  assert (E : (if now <? deadline then i64 (u64 (deadline - now) / 1000) else 0)
              = Z.max 0 (deadline - now) / 1000).
  { destruct (Z.ltb_spec now deadline); [|rewrite Z.max_l by lia; done].
    rewrite Z.max_r by lia. clia. }
  rewrite E. set (l := _ / 1000).
  assert (Hl : 0 <= l /\ 1000 * l <= Z.max 0 (deadline - now)) by (unfold l; clia).
  destruct (Z.ltb_spec l min_us); [destruct (Z.ltb_spec max_us min_us)|destruct (Z.ltb_spec max_us l)];
    cbv zeta; unfold i32; rewrite Z.mod_small by clia; clia.
Qed.

Lemma rx_timeout_bounds_witness :
  ecm_rx_timeout_us 1000000 1250999 10 1000 = 250 /\ 10 <= ecm_rx_timeout_us 1000000 1250999 10 1000 <= 1000.
Proof.
  split; [reflexivity|]. apply rx_timeout_bounds; clia.
Defined.

(** ** Events and the bus state machine *)
Module Bus.

Record ecm_event_t := mkev {
  ev_tick : Z; ev_type : Z; ev_from : Z; ev_to : Z; ev_a : Z; ev_b : Z
}.
#[export] Instance ecm_event_inhabited : Inhabited ecm_event_t := populate (mkev 0 0 0 0 0 0).

Definition ECM_EV_BUS : Z := 1.

Inductive ecm_bus_state_t := ECM_BUS_RUN | ECM_BUS_DEGRADED | ECM_BUS_LOST | ECM_BUS_RECOVER.
#[export] Instance ecm_bus_state_eq_dec : EqDecision ecm_bus_state_t.
Proof. solve_decision. Defined.

Definition bus_index (s : ecm_bus_state_t) : Z :=
  match s with
  | ECM_BUS_RUN => 0 | ECM_BUS_DEGRADED => 1 | ECM_BUS_LOST => 2 | ECM_BUS_RECOVER => 3
  end.

Record ecm_bus_cfg_t := mkbuscfg {
  n_lost : Z; probe_ticks : Z; recover_backoff_ticks : Z
}.
#[export] Instance ecm_bus_cfg_eta : Eta ecm_bus_cfg_t :=
  fun c => mkbuscfg (n_lost c) (probe_ticks c) (recover_backoff_ticks c).

Record ecm_bus_fsm_t := mkbus {
  cfg : ecm_bus_cfg_t;
  state : ecm_bus_state_t;
  noframe_run : Z;
  io_ok : bool;
  io_last_class : Z;
  since_tick : Z;
  next_probe_tick : Z;
  entered : list Z;
  ticks_in : list Z
}.
#[export] Instance ecm_bus_fsm_eta : Eta ecm_bus_fsm_t :=
  fun f => mkbus (cfg f) (state f) (noframe_run f) (io_ok f) (io_last_class f) (since_tick f)
             (next_probe_tick f) (entered f) (ticks_in f).

Definition ecm_bus_default_cfg : ecm_bus_cfg_t :=
  {| n_lost := 100; probe_ticks := 10; recover_backoff_ticks := 1000 |}.

Definition ecm_bus_init (c : ecm_bus_cfg_t) : ecm_bus_fsm_t :=
  let c := if n_lost c =? 0 then c <| n_lost := 1 |> else c in
  let c := if probe_ticks c =? 0 then c <| probe_ticks := 1 |> else c in
  {| cfg := c; state := ECM_BUS_RUN; noframe_run := 0; io_ok := true; io_last_class := 0;
     since_tick := 0; next_probe_tick := 0; entered := [1; 0; 0; 0]; ticks_in := [0; 0; 0; 0] |}.

(** [x[i]++] on an array of [uint64_t]. *)
Definition count_up (i : Z) (l : list Z) : list Z := alter (fun n => u64 (n + 1)) (Z.to_nat i) l.

Definition go (f : ecm_bus_fsm_t) (tick : Z) (to : ecm_bus_state_t) (reason group : Z) :
    ecm_bus_fsm_t * option ecm_event_t :=
  let e := {| ev_tick := tick; ev_type := ECM_EV_BUS; ev_from := u8 (bus_index (state f));
              ev_to := u8 (bus_index to); ev_a := reason; ev_b := group |} in
  (f <| state := to |> <| since_tick := tick |> <| entered := count_up (bus_index to) (entered f) |>,
   Some e).

Definition ecm_bus_on_cycle (f : ecm_bus_fsm_t) (tick motion_class io_class : Z) :
    ecm_bus_fsm_t * option ecm_event_t :=
  match state f with
  | ECM_BUS_RUN | ECM_BUS_DEGRADED =>
      let f := if motion_class =? ECM_POL_WKC_NOFRAME
               then f <| noframe_run := u32 (noframe_run f + 1) |>
               else f <| noframe_run := 0 |> in
      let f := if 0 <=? io_class
               then f <| io_ok := (io_class =? ECM_POL_WKC_OK) |> <| io_last_class := io_class |>
               else f in
      if n_lost (cfg f) <=? noframe_run f
      then go (f <| next_probe_tick := u64 (tick + 1) |>) tick ECM_BUS_LOST ECM_POL_WKC_NOFRAME 0
      else
        let bad := negb (motion_class =? ECM_POL_WKC_OK) || negb (io_ok f) in
        if bool_decide (state f = ECM_BUS_RUN) && bad
        then let motion_bad := negb (motion_class =? ECM_POL_WKC_OK) in
             go f tick ECM_BUS_DEGRADED (if motion_bad then motion_class else io_last_class f)
                (if motion_bad then 0 else 1)
        else if bool_decide (state f = ECM_BUS_DEGRADED) && negb bad
        then go f tick ECM_BUS_RUN ECM_POL_WKC_OK 0
        else (f, None)
  | _ => (f, None)
  end.

Definition ecm_bus_probe_due (f : ecm_bus_fsm_t) (tick : Z) : bool :=
  bool_decide (state f = ECM_BUS_LOST) && (next_probe_tick f <=? tick).

Definition ecm_bus_on_probe (f : ecm_bus_fsm_t) (tick brd_wkc : Z) :
    ecm_bus_fsm_t * option ecm_event_t :=
  match state f with
  | ECM_BUS_LOST =>
      if 0 <? brd_wkc then go f tick ECM_BUS_RECOVER brd_wkc 0
      else (f <| next_probe_tick := u64 (tick + probe_ticks (cfg f)) |>, None)
  | _ => (f, None)
  end.

Definition ecm_bus_on_recover_done (f : ecm_bus_fsm_t) (tick : Z) (ok : bool) :
    ecm_bus_fsm_t * option ecm_event_t :=
  match state f with
  | ECM_BUS_RECOVER =>
      let f := f <| noframe_run := 0 |> <| io_ok := true |> in
      if ok then go f tick ECM_BUS_RUN 0 0
      else go (f <| next_probe_tick := u64 (tick + recover_backoff_ticks (cfg f)) |>)
              tick ECM_BUS_LOST (-1) 0
  | _ => (f, None)
  end.

Definition ecm_bus_tick (f : ecm_bus_fsm_t) : ecm_bus_fsm_t :=
  f <| ticks_in := count_up (bus_index (state f)) (ticks_in f) |>.

(** *** Specification of a run of motion cycles *)

(** One cycle's input: tick, motion class, IO class (-1: not serviced). *)
Definition cycle_in : Type := Z * Z * Z.
Definition cyc_motion (c : cycle_in) : Z := c.1.2.
Definition cyc_io (c : cycle_in) : Z := c.2.
Definition is_noframe (c : cycle_in) : bool := cyc_motion c =? ECM_POL_WKC_NOFRAME.

Definition bus_cycle (f : ecm_bus_fsm_t) (c : cycle_in) : ecm_bus_fsm_t :=
  (ecm_bus_on_cycle f c.1.1 (cyc_motion c) (cyc_io c)).1.
Definition bus_cycles (f : ecm_bus_fsm_t) (h : list cycle_in) : ecm_bus_fsm_t :=
  foldl bus_cycle f h.

(** Number of NOFRAME cycles since the last cycle with a frame. *)
Definition noframe_tail (h : list cycle_in) : nat :=
  foldl (fun n c => if is_noframe c then S n else 0%nat) 0%nat h.

(** The last serviced IO cycle was OK (true before the first one). *)
Definition io_good (h : list cycle_in) : bool :=
  foldl (fun b c => if 0 <=? cyc_io c then cyc_io c =? ECM_POL_WKC_OK else b) true h.

Definition last_motion_good (h : list cycle_in) : bool :=
  foldl (fun _ c => cyc_motion c =? ECM_POL_WKC_OK) true h.

(** Some [n] cycles in a row had no frame. *)
Definition noframe_window (n : nat) (h : list cycle_in) : Prop :=
  exists l1 w l2, h = l1 ++ w ++ l2 /\ length w = n /\ Forall (fun c => is_noframe c = true) w.

(** What the state machine should be in after the cycles [h]. *)
Definition bus_spec (n : nat) (h : list cycle_in) (s : ecm_bus_state_t) : Prop :=
  match s with
  | ECM_BUS_LOST => noframe_window n h
  | ECM_BUS_RUN => ~ noframe_window n h /\ last_motion_good h = true /\ io_good h = true
  | ECM_BUS_DEGRADED => ~ noframe_window n h /\ (last_motion_good h = false \/ io_good h = false)
  | ECM_BUS_RECOVER => False
  end.

Definition bus_edge (a b : ecm_bus_state_t) : bool :=
  match a, b with
  | ECM_BUS_RUN, (ECM_BUS_DEGRADED | ECM_BUS_LOST)
  | ECM_BUS_DEGRADED, (ECM_BUS_RUN | ECM_BUS_LOST)
  | ECM_BUS_LOST, ECM_BUS_RECOVER
  | ECM_BUS_RECOVER, (ECM_BUS_RUN | ECM_BUS_LOST) => true
  | _, _ => false
  end.

Lemma noframe_tail_snoc h c :
  noframe_tail (h ++ [c]) = if is_noframe c then S (noframe_tail h) else 0%nat.
Proof. unfold noframe_tail. rewrite foldl_app. done. Qed.

Lemma io_good_snoc h c :
  io_good (h ++ [c]) = if 0 <=? cyc_io c then cyc_io c =? ECM_POL_WKC_OK else io_good h.
Proof. unfold io_good. rewrite foldl_app. done. Qed.

Lemma last_motion_good_snoc h c :
  last_motion_good (h ++ [c]) = (cyc_motion c =? ECM_POL_WKC_OK).
Proof. unfold last_motion_good. rewrite foldl_app. done. Qed.

(** [noframe_tail] counts the longest suffix without a frame. *)
Lemma noframe_tail_suffix h k :
  (k <= noframe_tail h)%nat <->
  exists l w, h = l ++ w /\ length w = k /\ Forall (fun c => is_noframe c = true) w.
Proof.
  revert k. induction h as [|c h IH] using rev_ind; intros k.
  - cbn. split.
    + intros Hk. exists [], []. cbn. split_and!; [done|lia|constructor].
    + intros (l & w & E & <- & _). symmetry in E. apply app_eq_nil in E as [_ ->]. cbn. lia.
  - rewrite noframe_tail_snoc. split.
    + intros Hk. destruct k as [|k].
      { exists (h ++ [c]), []. rewrite app_nil_r. split_and!; [done..|constructor]. }
      destruct (is_noframe c) eqn:Ec; [|lia].
      destruct (proj1 (IH k)) as (l & w & -> & Hl & Hf); [lia|].
      exists l, (w ++ [c]). rewrite <- app_assoc, length_app, Hl. cbn.
      split_and!; [done|lia|]. apply Forall_app. auto.
    + intros (l & w & E & Hl & Hf). destruct w as [|x w' _] using rev_ind.
      { cbn in Hl. lia. }
      rewrite app_assoc in E. apply app_inj_tail in E as [-> ->].
      apply Forall_app in Hf as [Hf Hx]. rewrite Forall_singleton in Hx. cbn in Hx. rewrite Hx.
      rewrite length_app in Hl. cbn in Hl. destruct k as [|k]; [lia|].
      assert (k <= noframe_tail (l ++ w'))%nat; [|lia].
      apply IH. exists l, w'. split_and!; [done|lia|done].
Qed.

Lemma noframe_window_snoc n h c : (0 < n)%nat ->
  noframe_window n (h ++ [c]) <-> noframe_window n h \/ (n <= noframe_tail (h ++ [c]))%nat.
Proof.
  intros Hn. rewrite noframe_tail_suffix. split.
  - intros (l1 & w & l2 & E & Hl & Hf). destruct l2 as [|x l2' _] using rev_ind.
    + right. exists l1, w. rewrite app_nil_r in E. done.
    + left. rewrite !app_assoc in E. apply app_inj_tail in E as [-> _].
      exists l1, w, l2'. rewrite <- app_assoc. done.
  - intros [(l1 & w & l2 & -> & Hl & Hf)|(l & w & E & Hl & Hf)].
    + exists l1, w, (l2 ++ [c]). rewrite <- !app_assoc. done.
    + exists l, w, []. rewrite app_nil_r. done.
Qed.

Lemma noframe_window_nil n : (0 < n)%nat -> ~ noframe_window n [].
Proof.
  intros Hn (l1 & w & l2 & E & Hl & _). symmetry in E.
  apply app_eq_nil in E as [_ E]. apply app_eq_nil in E as [-> _]. cbn in Hl. lia.
Qed.

(** The state of the machine against its history. *)
Definition bus_inv (n : Z) (h : list cycle_in) (f : ecm_bus_fsm_t) : Prop :=
  n_lost (cfg f) = n /\ bus_spec (Z.to_nat n) h (state f) /\
  (state f <> ECM_BUS_LOST ->
     noframe_run f = Z.of_nat (noframe_tail h) /\ noframe_run f < n /\ io_ok f = io_good h).

(** The fields after one cycle of a running machine. *)
Lemma on_cycle_fields f tick m io :
  state f = ECM_BUS_RUN \/ state f = ECM_BUS_DEGRADED ->
  let run := if m =? ECM_POL_WKC_NOFRAME then u32 (noframe_run f + 1) else 0 in
  let ok := if 0 <=? io then io =? ECM_POL_WKC_OK else io_ok f in
  let f' := (ecm_bus_on_cycle f tick m io).1 in
  cfg f' = cfg f /\ noframe_run f' = run /\ io_ok f' = ok /\
  state f' = if n_lost (cfg f) <=? run then ECM_BUS_LOST
             else if (m =? ECM_POL_WKC_OK) && ok then ECM_BUS_RUN else ECM_BUS_DEGRADED.
Proof.
  intros Hst. unfold ecm_bus_on_cycle.
  destruct Hst as [Hst|Hst]; rewrite Hst; cbn;
    destruct (m =? ECM_POL_WKC_NOFRAME); destruct (0 <=? io); cbn; rewrite ?Hst;
    repeat (case_if; cbn in *; rewrite ?Hst in *); cbn; repeat split; auto;
    repeat match goal with
    | H : context [bool_decide ?P] |- _ => destruct (bool_decide_reflect P); cbn in H
    | |- context [m =? 0] => destruct (m =? 0); cbn in *
    end; try congruence;
    destruct (m =? ECM_POL_WKC_OK), (io =? ECM_POL_WKC_OK), (io_ok f); cbn in *; congruence.
Qed.

Lemma bus_cycle_inv n h f c : 0 < n < 4294967296 ->
  bus_inv n h f -> bus_inv n (h ++ [c]) (bus_cycle f c).
Proof.
  intros Hn (Hc & Hs & Hr).
  pose proof (noframe_window_snoc (Z.to_nat n) h c ltac:(lia)) as Hw.
  rewrite noframe_tail_snoc in Hw. destruct c as [[tk m] io]. unfold bus_cycle. cbn.
  destruct (decide (state f = ECM_BUS_LOST)) as [Hst|Hst].
  { unfold ecm_bus_on_cycle. rewrite Hst in *. split; [done|]. cbn. rewrite Hst.
    split; [|done]. apply Hw. left. exact Hs. }
  destruct (Hr Hst) as (Hrun & Hlt & Hio).
  assert (Hst2 : state f = ECM_BUS_RUN \/ state f = ECM_BUS_DEGRADED)
    by (destruct (state f); auto; done).
  assert (Hnw : ~ noframe_window (Z.to_nat n) h) by (destruct Hst2 as [E|E]; rewrite E in Hs; apply Hs).
  destruct (on_cycle_fields f tk m io Hst2) as (Fc & Fr & Fi & Fs).
  unfold bus_inv, bus_spec, cyc_motion, cyc_io in *. cbn in *.
  rewrite Fc, Fr, Fi, Fs, Hc, noframe_tail_snoc, io_good_snoc, last_motion_good_snoc.
  unfold is_noframe, cyc_motion, cyc_io in *. cbn in *. rewrite Hio.
  set (g := if 0 <=? io then _ else _).
  assert (Hu : u32 (noframe_run f + 1) = noframe_run f + 1) by (apply Z.mod_small; lia).
  destruct (m =? ECM_POL_WKC_NOFRAME); rewrite ?Hu;
    (destruct (Z.leb_spec n (noframe_run f + 1)) || idtac);
    (destruct (Z.leb_spec n 0); [lia|] || idtac);
    destruct (m =? ECM_POL_WKC_OK), g; cbn;
    rewrite ?Hw; split_and!; intros; auto; try lia; try done;
    try (intros [?|?]; [done|lia]); try (right; lia).
Qed.

Lemma ecm_bus_init_fields c : 0 <= n_lost c ->
  let f := ecm_bus_init c in
  state f = ECM_BUS_RUN /\ noframe_run f = 0 /\ io_ok f = true /\ n_lost (cfg f) = Z.max 1 (n_lost c).
Proof.
  intros H. unfold ecm_bus_init.
  destruct (Z.eqb_spec (n_lost c) 0); cbn; destruct (_ =? 0); cbn; repeat split; lia.
Qed.

Lemma bus_cycles_inv c h : 0 <= n_lost c < 4294967296 ->
  bus_inv (Z.max 1 (n_lost c)) h (bus_cycles (ecm_bus_init c) h).
Proof.
  intros Hn. induction h as [|x h IH] using rev_ind.
  - destruct (ecm_bus_init_fields c) as (Hs & Hr & Hi & Hc); [lia|].
    change (bus_cycles (ecm_bus_init c) []) with (ecm_bus_init c).
    unfold bus_inv. rewrite Hs, Hr, Hi, Hc. cbn.
    split_and!; auto; try lia. apply noframe_window_nil. lia.
  - unfold bus_cycles. rewrite foldl_app. cbn. apply bus_cycle_inv; [lia|exact IH].
Qed.

(** *** Every operation of the machine *)

Inductive bus_op :=
  | OpCycle (tick motion io : Z)
  | OpProbe (tick brd_wkc : Z)
  | OpRecover (tick : Z) (ok : bool)
  | OpTick.

Definition bus_do (f : ecm_bus_fsm_t) (o : bus_op) : ecm_bus_fsm_t * option ecm_event_t :=
  match o with
  | OpCycle t m io => ecm_bus_on_cycle f t m io
  | OpProbe t w => ecm_bus_on_probe f t w
  | OpRecover t ok => ecm_bus_on_recover_done f t ok
  | OpTick => (ecm_bus_tick f, None)
  end.

(** Run a sequence of operations, collecting the events. *)
Fixpoint bus_run (f : ecm_bus_fsm_t) (os : list bus_op) : ecm_bus_fsm_t * list ecm_event_t :=
  match os with
  | [] => (f, [])
  | o :: os =>
      let '(f1, e) := bus_do f o in
      let '(f2, es) := bus_run f1 os in
      (f2, match e with Some e => e :: es | None => es end)
  end.

(** What one event says about the states around it. *)
Definition ev_explains (f f' : ecm_bus_fsm_t) (e : option ecm_event_t) : Prop :=
  match e with
  | None => state f' = state f /\ entered f' = entered f
  | Some e => bus_edge (state f) (state f') = true /\
      ev_type e = ECM_EV_BUS /\ ev_from e = bus_index (state f) /\ ev_to e = bus_index (state f') /\
      entered f' = count_up (bus_index (state f')) (entered f)
  end.

Lemma bus_do_explains f o : ev_explains f (bus_do f o).1 (bus_do f o).2.
Proof.
  destruct o as [t m io|t w|t ok|]; cbn; [| | |done].
  - unfold ecm_bus_on_cycle. destruct (state f) eqn:Hst; cbn; try done;
      destruct (m =? ECM_POL_WKC_NOFRAME); destruct (0 <=? io); cbn; rewrite ?Hst;
      repeat (case_if; cbn in *; rewrite ?Hst in *); cbn; rewrite ?Hst; auto; cbn in *; try discriminate.
  - unfold ecm_bus_on_probe. destruct (state f) eqn:Hst; cbn; try done.
    destruct (0 <? w); cbn; rewrite ?Hst; auto.
  - unfold ecm_bus_on_recover_done. destruct (state f) eqn:Hst; cbn; try done.
    destruct ok; cbn; rewrite ?Hst; auto.
Qed.

Definition entered_wf (f : ecm_bus_fsm_t) : Prop :=
  length (entered f) = 4%nat /\ Forall (fun n => 0 <= n) (entered f).
Definition total (l : list Z) : Z := foldr Z.add 0 l.

Lemma count_up_total l i : (Z.to_nat i < length l)%nat -> Forall (fun n => 0 <= n) l ->
  total l + 1 < 18446744073709551616 ->
  total (count_up i l) = total l + 1 /\ Forall (fun n => 0 <= n) (count_up i l).
Proof.
  unfold count_up, total. revert l. induction (Z.to_nat i) as [|k IH]; intros [|x l] Hl Hf Ht;
    cbn in *; try lia; inversion_clear Hf as [|? ? Hx Hr].
  - assert (0 <= foldr Z.add 0 l) by (clear -Hr; induction Hr; cbn; lia).
    assert (u64 (x + 1) = x + 1) as E by (apply Z.mod_small; lia). rewrite E.
    split; [lia|constructor; [lia|done]].
  - destruct (IH l) as [E1 E2]; [lia|done|lia|]. rewrite E1. split; [lia|constructor; done].
Qed.

Lemma bus_index_lt s : (Z.to_nat (bus_index s) < 4)%nat.
Proof. destruct s; cbn; lia. Qed.

(** The transition counters add up to the events sent (plus the start). *)
Lemma bus_run_total os f : entered_wf f ->
  total (entered f) + Z.of_nat (length os) < 18446744073709551616 ->
  let r := bus_run f os in
  entered_wf r.1 /\ total (entered r.1) = total (entered f) + Z.of_nat (length r.2).
Proof.
  revert f. induction os as [|o os IH]; intros f [Hl Hp] Ht; cbn.
  - split; [done|lia].
  - pose proof (bus_do_explains f o) as He. destruct (bus_do f o) as [f1 e] eqn:Ed.
    cbn in He. cbn in Ht.
    assert (H1 : entered_wf f1 /\ total (entered f1) = total (entered f) + (if e then 1 else 0)).
    { destruct e as [e|]; cbn in He.
      - destruct He as (_ & _ & _ & _ & Hen). unfold entered_wf. rewrite Hen.
        destruct (count_up_total (entered f) (bus_index (state f1))) as [E1 E2];
          [rewrite Hl; apply bus_index_lt|done|lia|].
        rewrite E1. split; [|lia]. split; [|done]. unfold count_up. rewrite length_alter. done.
      - destruct He as [_ Hen]. unfold entered_wf. rewrite Hen. split; [done|lia]. }
    destruct H1 as [Hw1 Ht1]. specialize (IH f1 Hw1).
    destruct (bus_run f1 os) as [f2 es]. cbn in IH |- *.
    destruct IH as [Hw2 Ht2]; [destruct e; lia|]. split; [done|]. destruct e; cbn; lia.
Qed.

(** The events of a run chain: each one starts where the last one ended, and
    follows an edge of the machine. *)
Fixpoint ev_chain (s : ecm_bus_state_t) (es : list ecm_event_t) (s' : ecm_bus_state_t) : Prop :=
  match es with
  | [] => s = s'
  | e :: es => exists m, bus_edge s m = true /\ ev_from e = bus_index s /\ ev_to e = bus_index m /\
               ev_chain m es s'
  end.

Lemma bus_run_chain os f : ev_chain (state f) (bus_run f os).2 (state (bus_run f os).1).
Proof.
  revert f. induction os as [|o os IH]; intros f; cbn; [done|].
  pose proof (bus_do_explains f o) as He. destruct (bus_do f o) as [f1 e]. cbn in He.
  specialize (IH f1). destruct (bus_run f1 os) as [f2 es]. cbn in *.
  destruct e as [e|]; cbn in *.
  - destruct He as (H1 & _ & H2 & H3 & _). exists (state f1). auto.
  - destruct He as [<- _]. exact IH.
Qed.

(** C22: after any sequence of motion cycles on a freshly initialised machine,
    the state is LOST exactly when [n_lost] cycles in a row had no frame
    (0 counts as 1), RUN when no such window occurred and both the last motion
    cycle and the last serviced IO cycle were OK, and DEGRADED otherwise. *)
Theorem bus_state_after_cycles c h : 0 <= n_lost c < 4294967296 ->
  bus_spec (Z.to_nat (Z.max 1 (n_lost c))) h (state (bus_cycles (ecm_bus_init c) h)).
Proof. intros Hn. apply (bus_cycles_inv c h Hn). Qed.

Lemma bus_state_after_cycles_witness :
  let c := mkbuscfg 2 10 1000 in
  let h := [(1, 0, 0); (2, 1, -1); (3, 1, -1)] in
  state (bus_cycles (ecm_bus_init c) h) = ECM_BUS_LOST /\ noframe_window 2 h.
Proof.
  split; [reflexivity|].
  apply (bus_state_after_cycles (mkbuscfg 2 10 1000) [(1, 0, 0); (2, 1, -1); (3, 1, -1)]).
  cbn. lia.
Defined.

(** Whatever operations the RT thread and the monitor run, the events sent
    form a path of the documented machine (RUN <-> DEGRADED, both -> LOST,
    LOST -> RECOVER, RECOVER -> RUN or LOST) from RUN to the current state, and
    the [entered] counters add up to the number of events plus the start. *)
Theorem bus_events_path c os : Z.of_nat (length os) < 18446744073709551615 ->
  let r := bus_run (ecm_bus_init c) os in
  ev_chain ECM_BUS_RUN r.2 (state r.1) /\ total (entered r.1) = 1 + Z.of_nat (length r.2).
Proof.
  intros Hl r. split.
  - pose proof (bus_run_chain os (ecm_bus_init c)) as H. unfold r.
    assert (E : state (ecm_bus_init c) = ECM_BUS_RUN) by done. rewrite E in H. exact H.
  - apply (bus_run_total os (ecm_bus_init c)).
    + split; [done|]. repeat constructor; lia.
    + change (total (entered (ecm_bus_init c))) with 1. lia.
Qed.

Lemma bus_events_path_witness :
  total (entered (bus_run (ecm_bus_init ecm_bus_default_cfg)
    [OpCycle 1 3 (-1); OpCycle 2 0 0; OpTick]).1) = 3.
Proof.
  destruct (bus_events_path ecm_bus_default_cfg [OpCycle 1 3 (-1); OpCycle 2 0 0; OpTick]) as [_ H].
  - cbn. lia.
  - rewrite H. reflexivity.
Defined.

End Bus.

(** ** The rings between the RT thread and the monitor *)
Module Rings.
Import Bus.

Definition ECM_EVRING_LEN : Z := 256.
Definition ecm_evring_t : Type := ring ecm_event_t.

Definition ecm_evring_init : ecm_evring_t := mkring (replicate 256 inhabitant) 0 0 0.

Definition ecm_evring_push (r : ecm_evring_t) (ev : ecm_event_t) : ecm_evring_t * bool :=
  let h := r_head r in
  let t := r_tail r in
  if ECM_EVRING_LEN <=? u32 (h - t) then (r <| r_drops := u64 (r_drops r + 1) |>, false)
  else (r <| r_buf := <[Z.to_nat (Z.land h (ECM_EVRING_LEN - 1)) := ev]> (r_buf r) |>
          <| r_head := u32 (h + 1) |>, true).

Definition ecm_evring_pop (r : ecm_evring_t) : ecm_evring_t * option ecm_event_t :=
  let t := r_tail r in
  let h := r_head r in
  if t =? h then (r, None)
  else (r <| r_tail := u32 (t + 1) |>,
        Some (r_buf r !!! Z.to_nat (Z.land t (ECM_EVRING_LEN - 1)))).

Record ecm_cmd_t := mkcmd { c_slave : Z; c_configadr : Z; c_reg : Z; c_value : Z }.
#[export] Instance ecm_cmd_inhabited : Inhabited ecm_cmd_t := populate (mkcmd 0 0 0 0).

Definition ECM_CMDQ_LEN : Z := 16.
Definition ecm_cmdq_t : Type := ring ecm_cmd_t.

Definition ecm_cmdq_init : ecm_cmdq_t := mkring (replicate 16 inhabitant) 0 0 0.

Definition ecm_cmdq_push (q : ecm_cmdq_t) (c : ecm_cmd_t) : ecm_cmdq_t * bool :=
  let h := r_head q in
  let t := r_tail q in
  if ECM_CMDQ_LEN <=? u32 (h - t) then (q <| r_drops := u64 (r_drops q + 1) |>, false)
  else (q <| r_buf := <[Z.to_nat (Z.land h (ECM_CMDQ_LEN - 1)) := c]> (r_buf q) |>
          <| r_head := u32 (h + 1) |>, true).

Definition ecm_cmdq_peek (q : ecm_cmdq_t) : option ecm_cmd_t :=
  let t := r_tail q in
  let h := r_head q in
  if t =? h then None else Some (r_buf q !!! Z.to_nat (Z.land t (ECM_CMDQ_LEN - 1))).

Definition ecm_cmdq_drop_head (q : ecm_cmdq_t) : ecm_cmdq_t :=
  let t := r_tail q in
  let h := r_head q in
  if negb (t =? h) then q <| r_tail := u32 (t + 1) |> else q.

(** The RT thread looks at the head and removes it once executed. *)
Definition ecm_cmdq_take (q : ecm_cmdq_t) : ecm_cmdq_t * option ecm_cmd_t :=
  (ecm_cmdq_drop_head q, ecm_cmdq_peek q).

Lemma mask_256 h : Z.land h (ECM_EVRING_LEN - 1) = h mod 256.
Proof. apply (Z.land_ones h 8). lia. Qed.
Lemma mask_16 h : Z.land h (ECM_CMDQ_LEN - 1) = h mod 16.
Proof. apply (Z.land_ones h 4). lia. Qed.

Lemma evring_push_spsc r ev : ecm_evring_push r ev = spsc_push 4294967296 256 r ev.
Proof. unfold ecm_evring_push. rewrite mask_256. done. Qed.
Lemma evring_pop_spsc r : ecm_evring_pop r = spsc_pop 4294967296 256 r.
Proof. unfold ecm_evring_pop. rewrite mask_256. done. Qed.
Lemma cmdq_push_spsc q c : ecm_cmdq_push q c = spsc_push 4294967296 16 q c.
Proof. unfold ecm_cmdq_push. rewrite mask_16. done. Qed.
Lemma cmdq_take_spsc q : ecm_cmdq_take q = spsc_pop 4294967296 16 q.
Proof.
  unfold ecm_cmdq_take, ecm_cmdq_drop_head, ecm_cmdq_peek, spsc_pop. rewrite mask_16.
  destruct (r_tail q =? r_head q); done.
Qed.

#[export] Instance evring_ring : SpscRing ecm_evring_t ecm_event_t :=
  ring_as_spsc 4294967296 256 eq_refl eq_refl (ex_intro _ 16777216 eq_refl) _ _ evring_push_spsc evring_pop_spsc.
#[export] Instance cmdq_ring : SpscRing ecm_cmdq_t ecm_cmd_t :=
  ring_as_spsc 4294967296 16 eq_refl eq_refl (ex_intro _ 268435456 eq_refl) _ _ cmdq_push_spsc cmdq_take_spsc.

(** C23: the event ring and the command queue behave as bounded FIFO queues of
    256 and 16 elements: for any sequence of pushes and pops from the initial
    ring the results (accepted or dropped, element or empty) and the remaining
    contents are those of the abstract queue. *)
Theorem policy_rings_refine_queue (es : list (qop ecm_event_t)) (cs : list (qop ecm_cmd_t)) :
  (let r := run_with ring_do ecm_evring_init es in
   run_with (queue_do 256) [] es = (rq_queue r.1, r.2)) /\
  (let q := run_with ring_do ecm_cmdq_init cs in
   run_with (queue_do 16) [] cs = (rq_queue q.1, q.2)).
Proof.
  split.
  - apply (run_refines (SR := evring_ring) (fun _ _ => eq_refl) ecm_evring_init es).
    split; [reflexivity|]. vm_compute. intuition congruence.
  - apply (run_refines (SR := cmdq_ring) (fun _ _ => eq_refl) ecm_cmdq_init cs).
    split; [reflexivity|]. vm_compute. intuition congruence.
Qed.

(** C24: with producer and consumer of the event ring interleaved access by
    access, the consumer takes exactly the published events in order, never
    more than 256 are waiting, and the slot being written is never the slot
    being read. *)
Theorem evring_interleaved_safe (b0 : list ecm_event_t) (st : sys) :
  length b0 = 256%nat -> reach 4294967296 256 b0 st ->
  s_popped st `prefix_of` s_pushed st /\ npush st <= npop st + 256 /\
  (forall i j, p_target 4294967296 256 st = Some i -> c_target 256 st = Some j -> i <> j).
Proof.
  intros Hb Hr.
  assert (Hdiv : (256 | 4294967296)) by (exists 16777216; reflexivity).
  destruct (interleaving_fifo 4294967296 256 eq_refl eq_refl Hdiv b0 st Hb Hr) as [H1 H2].
  split_and!; auto. intros i j.
  exact (interleaving_race_free 4294967296 256 eq_refl eq_refl Hdiv b0 st i j Hb Hr).
Qed.

Lemma evring_interleaved_safe_witness :
  let b0 := replicate 256 inhabitant in
  let ev := mkev 7 1 0 1 3 0 in
  exists st : sys, reach 4294967296 256 b0 st /\ s_pushed st = [ev] /\
    s_popped st `prefix_of` s_pushed st.
Proof.
  set (b0 := replicate 256 inhabitant). set (ev := mkev 7 1 0 1 3 0).
  assert (Hr : reach 4294967296 256 b0 (mksys (<[ring_slot 256 0 := ev]> b0) 1 0 PIdle (CGotTail 0) [ev] [])).
  { change (reach 4294967296 256 b0 (mksys (<[ring_slot 256 0 := ev]> b0) ((0 + 1) mod 4294967296) 0
      PIdle (CGotTail 0) ([] ++ [ev]) [])).
    eapply reach_p; [|apply (p_publish _ _ _ 0)].
    eapply reach_p; [|apply p_write with (tp := 0); reflexivity].
    eapply reach_p; [|apply p_load_tail].
    eapply reach_c; [|apply c_load_tail].
    eapply reach_p; [|apply p_load_head].
    apply reach_init. }
  exists (mksys (<[ring_slot 256 0 := ev]> b0) 1 0 PIdle (CGotTail 0) [ev] []).
  split; [exact Hr|]. split; [reflexivity|].
  apply (evring_interleaved_safe b0 _ eq_refl Hr).
Defined.

End Rings.

(** ** Per-slave recovery planner *)
Module Srec.

Definition AL_INIT : Z := 1.
Definition AL_PREOP : Z := 2.
Definition AL_SAFEOP : Z := 4.
Definition AL_OP : Z := 8.
Definition AL_ERR : Z := 16.
Definition ECM_SREC_MAX_SLAVES : Z := 64.

Inductive ecm_sact_t := ECM_SACT_NONE | ECM_SACT_ACK | ECM_SACT_OP | ECM_SACT_RECONFIG.
#[export] Instance ecm_sact_eq_dec : EqDecision ecm_sact_t.
Proof. solve_decision. Defined.
Definition sact_index (a : ecm_sact_t) : nat :=
  match a with ECM_SACT_NONE => 0 | ECM_SACT_ACK => 1 | ECM_SACT_OP => 2 | ECM_SACT_RECONFIG => 3 end.

Record ecm_srec_input_t := mkin {
  in_reach : bool; answered : bool; al_status : Z; al_code : Z
}.

Inductive ecm_al_class_t := ECM_AL_OK | ECM_AL_TRANSIENT | ECM_AL_CONFIG.
#[export] Instance ecm_al_class_eq_dec : EqDecision ecm_al_class_t.
Proof. solve_decision. Defined.

Definition al_config_codes : list Z :=
  [3; 4; 6; 14; 19; 20; 21; 22; 23; 28; 29; 30; 31; 36; 37; 38; 39; 40; 41; 46; 48; 49; 53; 54; 55;
   65; 66; 67; 68; 69; 79; 112].

Definition ecm_al_code_class (code : Z) : ecm_al_class_t :=
  if code =? 0 then ECM_AL_OK
  else if existsb (Z.eqb code) al_config_codes then ECM_AL_CONFIG
  else ECM_AL_TRANSIENT.

Record ecm_srec_t := mksrec {
  attempts : Z; next_try_ns : Z; failed : bool; failed_config : bool; failed_code : Z;
  unhealthy : bool; last : ecm_sact_t; recoveries : Z; actions : list Z
}.
#[export] Instance ecm_srec_eta : Eta ecm_srec_t :=
  fun s => mksrec (attempts s) (next_try_ns s) (failed s) (failed_config s) (failed_code s)
             (unhealthy s) (last s) (recoveries s) (actions s).

Record ecm_srec_plan_t := mkplan {
  n : Z; max_attempts : Z; backoff0_ns : Z; s : list ecm_srec_t
}.
#[export] Instance ecm_srec_plan_eta : Eta ecm_srec_plan_t :=
  fun p => mkplan (n p) (max_attempts p) (backoff0_ns p) (s p).

Definition srec_zero : ecm_srec_t := mksrec 0 0 false false 0 false ECM_SACT_NONE 0 [0; 0; 0; 0].

Definition ecm_srec_init (nslaves maxa b0 : Z) : ecm_srec_plan_t :=
  {| n := if ECM_SREC_MAX_SLAVES <? nslaves then ECM_SREC_MAX_SLAVES else nslaves;
     max_attempts := maxa; backoff0_ns := b0; s := replicate 64 srec_zero |}.

Definition ecm_srec_reset (p : ecm_srec_plan_t) (i : Z) : ecm_srec_plan_t :=
  if (i <? 0) || (n p <=? i) then p
  else p <| s := alter (fun s => s <| failed := false |> <| failed_config := false |>
                                  <| failed_code := 0 |> <| attempts := 0 |> <| next_try_ns := 0 |>)
                       (Z.to_nat i) (s p) |>.

(** The action asked for before the attempts are counted. *)
Definition srec_wanted (inp : ecm_srec_input_t) : ecm_sact_t :=
  let st := Z.land (al_status inp) 15 in
  let err := negb (Z.land (al_status inp) AL_ERR =? 0) in
  if negb (answered inp) || (st =? AL_INIT) || (st =? AL_PREOP) then ECM_SACT_RECONFIG
  else if err then ECM_SACT_ACK
  else if st =? AL_SAFEOP then ECM_SACT_OP
  else ECM_SACT_NONE.

Definition starts_attempt (a : ecm_sact_t) : bool :=
  match a with ECM_SACT_ACK | ECM_SACT_RECONFIG => true | _ => false end.

Definition healthy (inp : ecm_srec_input_t) : bool :=
  answered inp && (Z.land (al_status inp) 15 =? AL_OP) && (Z.land (al_status inp) AL_ERR =? 0).

Definition take_action (s : ecm_srec_t) (act : ecm_sact_t) : ecm_srec_t :=
  match act with
  | ECM_SACT_NONE => s
  | _ => s <| last := act |>
           <| actions := alter (fun k => u64 (k + 1)) (sact_index act) (actions s) |>
  end.

(** The body of [ecm_srec_decide] for one slave: new record, action,
    [*recovered], [*gave_up]. *)
Definition srec_decide1 (maxa b0 : Z) (s : ecm_srec_t) (inp : ecm_srec_input_t) (now_ns : Z) :
    ecm_srec_t * ecm_sact_t * bool * bool :=
  if negb (in_reach inp) then (s, ECM_SACT_NONE, false, false)
  else if healthy inp then
    let was := unhealthy s in
    let s := if was then s <| recoveries := u64 (recoveries s + 1) |> else s in
    (s <| unhealthy := false |> <| attempts := 0 |> <| failed := false |> <| failed_config := false |>
       <| failed_code := 0 |> <| next_try_ns := 0 |> <| last := ECM_SACT_NONE |>,
     ECM_SACT_NONE, was, false)
  else
    let s := s <| unhealthy := true |> in
    if failed s then (s, ECM_SACT_NONE, false, false)
    else if answered inp && negb (Z.land (al_status inp) AL_ERR =? 0)
              && bool_decide (ecm_al_code_class (al_code inp) = ECM_AL_CONFIG)
    then (s <| failed := true |> <| failed_config := true |> <| failed_code := al_code inp |>,
          ECM_SACT_NONE, false, true)
    else
      let act := srec_wanted inp in
      if starts_attempt act then
        if now_ns <? next_try_ns s then (s, ECM_SACT_NONE, false, false)
        else if maxa <=? attempts s then (s <| failed := true |>, ECM_SACT_NONE, false, true)
        else
          let s := s <| attempts := u32 (attempts s + 1) |> in
          let sh := if 20 <? u32 (attempts s - 1) then 20 else u32 (attempts s - 1) in
          let s := s <| next_try_ns := u64 (now_ns + u64 (Z.shiftl b0 sh)) |> in
          (take_action s act, act, false, false)
      else (take_action s act, act, false, false).

Definition ecm_srec_decide (p : ecm_srec_plan_t) (i : Z) (inp : ecm_srec_input_t) (now_ns : Z) :
    ecm_srec_plan_t * ecm_sact_t * bool * bool :=
  if (i <? 0) || (n p <=? i) then (p, ECM_SACT_NONE, false, false)
  else match s p !! Z.to_nat i with
       | None => (p, ECM_SACT_NONE, false, false)      (* n <= 64: not reached *)
       | Some si =>
           let '(si, act, recovered, gave_up) :=
             srec_decide1 (max_attempts p) (backoff0_ns p) si inp now_ns in
           (p <| s := <[Z.to_nat i := si]> (s p) |>, act, recovered, gave_up)
       end.

(** *** Properties of one decision *)

Section Decide1.
Context (maxa b0 : Z).
Hypothesis (Hmax : 0 <= maxa < 4294967296).

Definition unrecovered (inp : ecm_srec_input_t) : bool := negb (in_reach inp && healthy inp).

Ltac srec_cases :=
  unfold srec_decide1, unrecovered, starts_attempt in *;
  match goal with
  | H : negb (in_reach ?i && healthy ?i) = true |- _ => destruct (in_reach i), (healthy i), (srec_wanted i); cbn in H |- *
  end;
  repeat (match goal with
    | |- context [match ?b with true => _ | false => _ end] => destruct b eqn:?
    end; cbn in *); try discriminate; bprop; cbn in *.

(** Attempts are counted exactly, never beyond the maximum. *)
Lemma decide1_attempts st inp now : 0 <= attempts st <= maxa -> unrecovered inp = true ->
  let '(st', act, _, _) := srec_decide1 maxa b0 st inp now in
  0 <= attempts st' <= maxa /\
  attempts st' = attempts st + (if starts_attempt act then 1 else 0).
Proof.
  intros Ha Hu. srec_cases; repeat split; try lia;
    (assert (E : u32 (attempts st + 1) = attempts st + 1) by (apply Z.mod_small; lia); rewrite ?E; lia).
Qed.

(** A failed slave gets no action until it is healthy or reset. *)
Lemma decide1_failed st inp now : failed st = true -> unrecovered inp = true ->
  let '(st', act, rec, gu) := srec_decide1 maxa b0 st inp now in
  failed st' = true /\ failed_config st' = failed_config st /\ act = ECM_SACT_NONE /\ rec = false /\ gu = false.
Proof. intros Hf Hu. srec_cases; rewrite ?Hf in *; try discriminate; auto. Qed.

Lemma srec_shift a : 0 <= a < 4294967296 ->
  (if 20 <? u32 (u32 (a + 1) - 1) then 20 else u32 (u32 (a + 1) - 1)) = Z.min a 20.
Proof.
  intros Ha. assert (E : u32 (u32 (a + 1) - 1) = a).
  { unfold u32. rewrite Zminus_mod_idemp_l. replace (a + 1 - 1) with a by lia. apply Z.mod_small. lia. }
  rewrite E. destruct (Z.ltb_spec 20 a); lia.
Qed.

(** An attempt is not started before its time and sets the next one
    [2^(attempts-1)] back-offs later (at most [2^20]). *)
Lemma decide1_backoff st inp now : 0 <= attempts st <= maxa ->
  0 <= now -> 0 <= b0 -> now + b0 * 2 ^ 20 < 18446744073709551616 ->
  let '(st', act, _, _) := srec_decide1 maxa b0 st inp now in
  starts_attempt act = true ->
  attempts st < maxa /\ next_try_ns st <= now /\
  next_try_ns st' = now + b0 * 2 ^ (Z.min (attempts st) 20).
Proof.
  intros Ha Hn Hb Hov. pose proof (srec_shift (attempts st)) as Hsh.
  assert (Hp : 0 <= b0 * 2 ^ (Z.min (attempts st) 20) <= b0 * 2 ^ 20).
  { split; [apply Z.mul_nonneg_nonneg; [lia|apply Z.pow_nonneg; lia]|].
    apply Z.mul_le_mono_nonneg_l; [lia|]. apply Z.pow_le_mono_r; lia. }
  unfold srec_decide1. destruct (srec_wanted inp); cbn;
    repeat case_if; cbn in *; try discriminate; intros _; bprop;
    (split; [lia|]; split; [lia|]).
  all: match goal with
       | |- u64 (_ + u64 (Z.shiftl _ ?k)) = _ =>
           replace k with (Z.min (attempts st) 20) by (rewrite <- Hsh by lia; repeat case_if; bprop; lia)
       end.
  all: rewrite Z.shiftl_mul_pow2 by lia; unfold u64; rewrite (Z.mod_small (_ * _)), Z.mod_small by lia; do 3 f_equal; lia.
Qed.
End Decide1.

(** *** Runs over the whole plan *)

(** One call of the monitor: slave (0-based), diagnostic read, time. *)
Definition srec_call : Type := Z * ecm_srec_input_t * Z.

Fixpoint srec_run (p : ecm_srec_plan_t) (cs : list srec_call) : ecm_srec_plan_t * list (Z * ecm_sact_t) :=
  match cs with
  | [] => (p, [])
  | (i, inp, now) :: cs =>
      let '(p1, act, _, _) := ecm_srec_decide p i inp now in
      let '(p2, acts) := srec_run p1 cs in
      (p2, (i, act) :: acts)
  end.

(** Attempts started on slave [k]. *)
Definition started (k : Z) (acts : list (Z * ecm_sact_t)) : Z :=
  Z.of_nat (length (filter (fun a => a.1 = k /\ starts_attempt a.2 = true) acts)).

Lemma started_cons k i act acts :
  started k ((i, act) :: acts)
  = (if bool_decide (i = k) && starts_attempt act then 1 else 0) + started k acts.
Proof.
  unfold started. rewrite filter_cons. cbn.
  destruct (decide _) as [[-> ->]|H]; cbn.
  - rewrite bool_decide_true by done. cbn. lia.
  - destruct (bool_decide_reflect (i = k)), (starts_attempt act); cbn; try lia; destruct H; done.
Qed.

(** A decision on slave [i] leaves the others alone. *)
Lemma decide_other p i inp now (k : nat) : k <> Z.to_nat i ->
  s (ecm_srec_decide p i inp now).1.1.1 !! k = s p !! k.
Proof.
  intros Hk. unfold ecm_srec_decide. case_if; [done|]. destruct (s p !! Z.to_nat i); [|done].
  destruct (srec_decide1 _ _ _ _ _) as [[[? ?] ?] ?]. cbn. apply list_lookup_insert_ne. done.
Qed.

Lemma decide_plan p i inp now :
  let p' := (ecm_srec_decide p i inp now).1.1.1 in
  n p' = n p /\ max_attempts p' = max_attempts p /\ backoff0_ns p' = backoff0_ns p /\
  length (s p') = length (s p).
Proof.
  unfold ecm_srec_decide. case_if; [done|]. destruct (s p !! Z.to_nat i); [|done].
  destruct (srec_decide1 _ _ _ _ _) as [[[? ?] ?] ?]. cbn. rewrite length_insert. done.
Qed.

(** From a record with [a] attempts made, a run that never sees slave [k]
    healthy starts at most [max_attempts - a] attempts on it. *)
Lemma srec_run_bounded k cs p r : 0 <= max_attempts p < 4294967296 -> 0 <= k ->
  s p !! Z.to_nat k = Some r -> 0 <= attempts r <= max_attempts p ->
  Forall (fun c => c.1.1 = k -> unrecovered c.1.2 = true) cs ->
  started k (srec_run p cs).2 <= max_attempts p - attempts r.
Proof.
  intros Hm Hk. revert p r Hm. induction cs as [|[[i inp] now] cs IH]; intros p r Hm Hr Ha Hf.
  { cbn. unfold started; cbn. lia. }
  inversion_clear Hf as [|? ? Hc Hf']. cbn in Hc. cbn [srec_run].
  destruct (decide_plan p i inp now) as (_ & Em & _ & _).
  destruct (decide (i = k)) as [->|Hne].
  - specialize (Hc eq_refl). unfold ecm_srec_decide in *.
    destruct (_ || _).
    { specialize (IH p r Hm Hr Ha Hf'). destruct (srec_run p cs). cbn in *.
      rewrite started_cons. cbn. rewrite andb_false_r. lia. }
    rewrite Hr in *.
    pose proof (decide1_attempts (max_attempts p) (backoff0_ns p) Hm r inp now Ha Hc) as Hd.
    destruct (srec_decide1 _ _ _ _ _) as [[[r' act] ?] ?]. cbn in *. destruct Hd as [Hd1 Hd2].
    specialize (IH (p <| s := <[Z.to_nat k:=r']> (s p) |>) r'). cbn in IH.
    destruct (srec_run _ cs) as [p2 acts]. cbn in *. rewrite started_cons.
    rewrite bool_decide_true by done. cbn.
    assert (started k acts <= max_attempts p - attempts r'); [|destruct (starts_attempt act); lia].
    apply IH; auto. apply list_lookup_insert_eq. by eapply lookup_lt_Some.
  - pose proof (decide_other p i inp now (Z.to_nat k)) as Ho.
    assert (Hcase : i < 0 \/ Z.to_nat k <> Z.to_nat i) by lia.
    destruct Hcase as [Hi|Hi].
    { unfold ecm_srec_decide. rewrite (proj2 (Z.ltb_lt i 0) Hi). cbn.
      specialize (IH p r Hm Hr Ha Hf'). destruct (srec_run p cs). cbn in *.
      rewrite started_cons. rewrite andb_false_r. lia. }
    specialize (Ho Hi).
    destruct (ecm_srec_decide p i inp now) as [[[p1 act] ?] ?]. cbn in *.
    specialize (IH p1 r). rewrite Em, Ho in IH.
    destruct (srec_run p1 cs). cbn in *. rewrite started_cons, bool_decide_false by done. cbn.
    auto.
Qed.

Lemma srec_init_lookup ns maxa b0 k : 0 <= k < 64 ->
  s (ecm_srec_init ns maxa b0) !! Z.to_nat k = Some srec_zero.
Proof. intros Hk. apply lookup_replicate. split; [done|lia]. Qed.

(** C29: recovery is bounded: from a fresh plan, over any sequence of decisions
    in which slave [k] is never read healthy, at most [max_attempts] attempts
    (acknowledge or reconfigure) are started on it, whatever happens to the
    other slaves and whatever the times. *)
Theorem srec_attempts_bounded ns maxa b0 k cs : 0 <= maxa < 4294967296 -> 0 <= k < 64 ->
  Forall (fun c => c.1.1 = k -> unrecovered c.1.2 = true) cs ->
  started k (srec_run (ecm_srec_init ns maxa b0) cs).2 <= maxa.
Proof.
  intros Hm Hk Hf. rewrite <- (Z.sub_0_r maxa) at 2.
  apply (srec_run_bounded k cs (ecm_srec_init ns maxa b0) srec_zero); auto; try (cbn; lia).
  by apply srec_init_lookup.
Qed.

Lemma srec_attempts_bounded_witness :
  let inp := mkin true true 20 27 in
  let cs := [(0, inp, 0); (0, inp, 5); (0, inp, 90); (0, inp, 1000)] in
  started 0 (srec_run (ecm_srec_init 2 2 10) cs).2 = 2 /\
  started 0 (srec_run (ecm_srec_init 2 2 10) cs).2 <= 2.
Proof.
  split; [reflexivity|].
  apply srec_attempts_bounded; [lia|lia|]. repeat constructor.
Defined.

(** An answering slave that reports an error with a CONFIG class AL code
    is given up at once: no action, no attempt counted, and no action in any
    later decision until it is read healthy. *)
Theorem srec_config_final maxa b0 st inp now : failed st = false ->
  in_reach inp = true -> answered inp = true ->
  Z.land (al_status inp) AL_ERR <> 0 -> ecm_al_code_class (al_code inp) = ECM_AL_CONFIG ->
  let '(st', act, _, gave_up) := srec_decide1 maxa b0 st inp now in
  act = ECM_SACT_NONE /\ gave_up = true /\ attempts st' = attempts st /\
  failed st' = true /\ failed_config st' = true /\ failed_code st' = al_code inp /\
  (forall inp2 now2, unrecovered inp2 = true ->
     let '(st2, act2, _, _) := srec_decide1 maxa b0 st' inp2 now2 in
     act2 = ECM_SACT_NONE /\ failed st2 = true /\ failed_config st2 = true).
Proof.
  intros Hf Hr Ha He Hc.
  assert (Hh : healthy inp = false).
  { unfold healthy. apply andb_false_intro2. by apply Z.eqb_neq. }
  set (r := srec_decide1 maxa b0 st inp now).
  assert (E : r = (st <| unhealthy := true |> <| failed := true |> <| failed_config := true |>
                      <| failed_code := al_code inp |>, ECM_SACT_NONE, false, true)).
  { unfold r, srec_decide1. rewrite Hr, Hh. cbn. rewrite Hf, Ha, Hc, (proj2 (Z.eqb_neq _ _) He).
    cbn. done. }
  rewrite E. cbn. split_and!; auto. intros inp2 now2 Hu.
  match goal with |- context [srec_decide1 maxa b0 ?x inp2 now2] =>
    pose proof (decide1_failed maxa b0 x inp2 now2 eq_refl Hu) as Hd;
    destruct (srec_decide1 maxa b0 x inp2 now2) as [[[st2 act2] ?] ?]
  end. cbn in Hd. tauto.
Qed.

Lemma srec_config_final_witness :
  (srec_decide1 5 1000 srec_zero (mkin true true 18 29) 7).1.1.2 = ECM_SACT_NONE.
Proof.
  pose proof (srec_config_final 5 1000 srec_zero (mkin true true 18 29) 7 eq_refl eq_refl eq_refl
                ltac:(discriminate) eq_refl) as H.
  destruct (srec_decide1 5 1000 srec_zero (mkin true true 18 29) 7) as [[[st' act] r] g].
  apply H.
Defined.

(** Exponential back-off: an attempt is only started once its time has
    come and while attempts remain, and it schedules the next one
    [backoff0 * 2^k] later, [k] being the attempts made before it (capped at
    20), as long as the clock stays below 2^64. *)
Theorem srec_backoff maxa b0 st inp now : 0 <= maxa < 4294967296 -> 0 <= attempts st <= maxa ->
  0 <= now -> 0 <= b0 -> now + b0 * 2 ^ 20 < 18446744073709551616 ->
  let '(st', act, _, _) := srec_decide1 maxa b0 st inp now in
  starts_attempt act = true ->
  attempts st < maxa /\ next_try_ns st <= now /\
  next_try_ns st' = now + b0 * 2 ^ (Z.min (attempts st) 20).
Proof. intros Hm. by apply decide1_backoff. Qed.

Lemma srec_backoff_witness :
  next_try_ns (srec_decide1 5 1000 (srec_zero <| attempts := 3 |>) (mkin true false 0 0) 50).1.1.1 = 8050.
Proof.
  pose proof (srec_backoff 5 1000 (srec_zero <| attempts := 3 |>) (mkin true false 0 0) 50
    ltac:(lia) ltac:(vm_compute; split; congruence) ltac:(lia) ltac:(lia) ltac:(lia)) as H.
  apply H. reflexivity.
Defined.

End Srec.

(** ** Input freshness *)
Module Fresh.

Inductive ecm_fresh_ev_t :=
  | ECM_FRESH_OK | ECM_FRESH_FIRST | ECM_FRESH_UNCHANGED | ECM_FRESH_STALE_START
  | ECM_FRESH_STALE | ECM_FRESH_RESUMED | ECM_FRESH_REGRESSION.
#[export] Instance ecm_fresh_ev_eq_dec : EqDecision ecm_fresh_ev_t.
Proof. solve_decision. Defined.

Record ecm_fresh_t := mkfresh {
  stale_after : Z; bits : Z; have : bool; last : Z; run : Z; stale : bool;
  samples : Z; stale_episodes : Z; stale_cycles : Z; regressions : Z; max_run : Z
}.
#[export] Instance ecm_fresh_eta : Eta ecm_fresh_t :=
  fun f => mkfresh (stale_after f) (bits f) (have f) (last f) (run f) (stale f)
             (samples f) (stale_episodes f) (stale_cycles f) (regressions f) (max_run f).

Definition ecm_fresh_init (after nbits : Z) : ecm_fresh_t :=
  {| stale_after := if after =? 0 then 1 else after;
     bits := if (nbits =? 8) || (nbits =? 32) then nbits else 16;
     have := false; last := 0; run := 0; stale := false;
     samples := 0; stale_episodes := 0; stale_cycles := 0; regressions := 0; max_run := 0 |}.

Definition fresh_mask (f : ecm_fresh_t) : Z :=
  if bits f =? 32 then 4294967295 else u32 (u32 (Z.shiftl 1 (bits f)) - 1).

Definition ecm_fresh_update (f : ecm_fresh_t) (value : Z) : ecm_fresh_t * ecm_fresh_ev_t :=
  let mask := fresh_mask f in
  let value := Z.land value mask in
  let f := f <| samples := u64 (samples f + 1) |> in
  if negb (have f) then (f <| have := true |> <| last := value |>, ECM_FRESH_FIRST)
  else
    let d := Z.land (u32 (value - last f)) mask in
    if d =? 0 then
      let f := f <| run := u32 (run f + 1) |> in
      let f := if max_run f <? run f then f <| max_run := run f |> else f in
      if run f <? stale_after f then (f, ECM_FRESH_UNCHANGED)
      else
        let f := f <| stale_cycles := u64 (stale_cycles f + 1) |> in
        if negb (stale f)
        then (f <| stale := true |> <| stale_episodes := u64 (stale_episodes f + 1) |>, ECM_FRESH_STALE_START)
        else (f, ECM_FRESH_STALE)
    else if Z.shiftr mask 1 <? d then
      (f <| regressions := u64 (regressions f + 1) |>, ECM_FRESH_REGRESSION)
    else
      let f := f <| last := value |> <| run := 0 |> in
      if stale f then (f <| stale := false |>, ECM_FRESH_RESUMED) else (f, ECM_FRESH_OK).

(** *** The mask and the cyclic difference *)

Definition fresh_wf (f : ecm_fresh_t) : Prop := bits f = 8 \/ bits f = 16 \/ bits f = 32.

Lemma fresh_mask_ones f : fresh_wf f -> fresh_mask f = Z.ones (bits f).
Proof. intros [H|[H|H]]; unfold fresh_mask; rewrite H; reflexivity. Qed.

Lemma fresh_half f : fresh_wf f -> Z.shiftr (Z.ones (bits f)) 1 = 2 ^ (bits f - 1) - 1.
Proof. intros [H|[H|H]]; rewrite H; reflexivity. Qed.

Lemma fresh_window f : fresh_wf f ->
  2 ^ bits f = 2 * 2 ^ (bits f - 1) /\ 0 < 2 ^ (bits f - 1) /\ (2 ^ bits f | 4294967296).
Proof.
  intros [H|[H|H]]; rewrite H; (split; [reflexivity|split; [reflexivity|]]);
    [exists 16777216|exists 65536|exists 1]; reflexivity.
Qed.

(** The difference the code computes, on unbounded counters. *)
Lemma fresh_diff f (cur prev : Z) : fresh_wf f ->
  Z.land (u32 (Z.land (u32 cur) (fresh_mask f) - prev mod 2 ^ bits f)) (fresh_mask f)
  = (cur - prev) mod 2 ^ bits f.
Proof.
  intros Hw. destruct (fresh_window f Hw) as (E & Hp & Hd).
  rewrite fresh_mask_ones by done. assert (Hb : 0 <= bits f) by (destruct Hw as [->|[->| ->]]; lia).
  rewrite !Z.land_ones by done. unfold u32.
  rewrite !mod_mod_divide by (auto; lia). rewrite <- Zminus_mod. done.
Qed.

Lemma fresh_value f cur : fresh_wf f -> Z.land (u32 cur) (fresh_mask f) = cur mod 2 ^ bits f.
Proof.
  intros Hw. destruct (fresh_window f Hw) as (E & Hp & Hd).
  rewrite fresh_mask_ones by done. assert (Hb : 0 <= bits f) by (destruct Hw as [->|[->| ->]]; lia).
  rewrite Z.land_ones by done. unfold u32. apply mod_mod_divide; auto; lia.
Qed.

(** *** Runs of samples *)

Fixpoint fresh_run (f : ecm_fresh_t) (vs : list Z) : ecm_fresh_t * list ecm_fresh_ev_t :=
  match vs with
  | [] => (f, [])
  | v :: vs =>
      let '(f1, e) := ecm_fresh_update f v in
      let '(f2, es) := fresh_run f1 vs in (f2, e :: es)
  end.

Definition count_ev (e : ecm_fresh_ev_t) (es : list ecm_fresh_ev_t) : Z :=
  Z.of_nat (length (filter (fun x => x = e) es)).

Lemma count_ev_cons e x es :
  count_ev e (x :: es) = (if decide (x = e) then 1 else 0) + count_ev e es.
Proof. unfold count_ev. rewrite filter_cons. destruct (decide (x = e)); cbn; lia. Qed.

(** The stale flag is set exactly while the run of unchanged samples has
    reached the limit; the run is no longer than the samples seen. *)
Definition fresh_inv (k : Z) (f : ecm_fresh_t) : Prop :=
  0 < stale_after f /\ 0 <= run f <= k /\ stale f = (stale_after f <=? run f) /\
  (have f = false -> run f = 0).

Lemma update_inv k f v : 0 <= k < 4294967295 -> fresh_inv k f ->
  fresh_inv (k + 1) (ecm_fresh_update f v).1.
Proof.
  intros Hk (Hs & Hr & Hst & Hh). unfold ecm_fresh_update, fresh_inv.
  assert (E : u32 (run f + 1) = run f + 1) by (apply Z.mod_small; lia).
  cbn. destruct (have f) eqn:Hv; cbn.
  2:{ rewrite Hst. repeat split; auto; try lia. }
  destruct (_ =? 0); cbn; rewrite ?E.
  - destruct (max_run f <? run f + 1); cbn;
      destruct (Z.ltb_spec (run f + 1) (stale_after f)); cbn; destruct (stale f); cbn;
      rewrite ?Hv; repeat split; auto; try lia; try discriminate;
      symmetry in Hst; bprop; symmetry; (apply Z.leb_le || apply Z.leb_gt); lia.
  - destruct (_ <? _); cbn; [rewrite ?Hv; repeat split; auto; try lia; discriminate|].
    destruct (stale f); cbn; rewrite ?Hv; repeat split; auto; try lia; try discriminate;
      symmetry; apply Z.leb_gt; lia.
Qed.

(** Start and end of the episodes against the flag and the counter. *)
Lemma update_episode f v :
  let '(f', e) := ecm_fresh_update f v in
  b2z (stale f') = b2z (stale f) + (if decide (e = ECM_FRESH_STALE_START) then 1 else 0)
                   - (if decide (e = ECM_FRESH_RESUMED) then 1 else 0) /\
  stale_episodes f' = (if decide (e = ECM_FRESH_STALE_START) then u64 (stale_episodes f + 1) else stale_episodes f).
Proof.
  unfold ecm_fresh_update. cbn. destruct (have f); cbn.
  2:{ split; repeat case_decide; try congruence; lia. }
  destruct (_ =? 0); cbn.
  - destruct (max_run f <? _); cbn; destruct (_ <? stale_after f); cbn; destruct (stale f) eqn:Hs;
      cbn; rewrite ?Hs; split; repeat case_decide; try congruence; unfold b2z; lia.
  - destruct (_ <? _); cbn; [|destruct (stale f) eqn:Hs; cbn]; rewrite ?Hs; split; repeat case_decide;
      try congruence; unfold b2z; lia.
Qed.

Lemma fresh_run_episodes vs f : 0 <= stale_episodes f ->
  stale_episodes f + Z.of_nat (length vs) < 18446744073709551616 ->
  let r := fresh_run f vs in
  b2z (stale r.1) + count_ev ECM_FRESH_RESUMED r.2 = b2z (stale f) + count_ev ECM_FRESH_STALE_START r.2 /\
  stale_episodes r.1 = stale_episodes f + count_ev ECM_FRESH_STALE_START r.2.
Proof.
  revert f. induction vs as [|v vs IH]; intros f H0 Hlt.
  { cbn. unfold count_ev; cbn. lia. }
  cbn [fresh_run]. pose proof (update_episode f v) as Hu.
  destruct (ecm_fresh_update f v) as [f1 e]. destruct Hu as [Hu1 Hu2]. cbn [length] in Hlt.
  assert (E : u64 (stale_episodes f + 1) = stale_episodes f + 1) by (apply Z.mod_small; lia).
  rewrite E in Hu2. specialize (IH f1). destruct (fresh_run f1 vs) as [f2 es]. cbn in *.
  rewrite !count_ev_cons.
  destruct IH as [IH1 IH2]; [destruct (decide (e = ECM_FRESH_STALE_START)); lia..|].
  destruct (decide (e = ECM_FRESH_STALE_START)), (decide (e = ECM_FRESH_RESUMED)); split; lia.
Qed.

Lemma fresh_run_inv vs f k : 0 <= k -> k + Z.of_nat (length vs) < 4294967296 ->
  fresh_inv k f -> fresh_inv (k + Z.of_nat (length vs)) (fresh_run f vs).1.
Proof.
  revert f k. induction vs as [|v vs IH]; intros f k H0 Hk Hi; cbn [fresh_run].
  { cbn. rewrite Z.add_0_r. done. }
  cbn [length] in Hk. pose proof (update_inv k f v ltac:(lia) Hi) as Hu.
  destruct (ecm_fresh_update f v) as [f1 e]. cbn in Hu.
  specialize (IH f1 (k + 1) ltac:(lia) ltac:(lia) Hu).
  destruct (fresh_run f1 vs) as [f2 es]. cbn in *.
  replace (k + Z.of_nat (S (length vs))) with (k + 1 + Z.of_nat (length vs)) by lia. done.
Qed.

(** On an 8, 16 or 32 bit counter the check recovers the order of the
    slave's unbounded counter: with fewer than half a period between the new
    sample [cur] and the last accepted one [prev], an equal value is reported
    unchanged or stale, a newer one is accepted and becomes the reference, an
    older one is reported as a regression and leaves the reference alone. *)
Theorem fresh_classifies f cur prev : fresh_wf f -> have f = true ->
  last f = prev mod 2 ^ bits f -> - 2 ^ (bits f - 1) <= cur - prev < 2 ^ (bits f - 1) ->
  let '(f', e) := ecm_fresh_update f (u32 cur) in
  match cur ?= prev with
  | Eq => (e = ECM_FRESH_UNCHANGED \/ e = ECM_FRESH_STALE_START \/ e = ECM_FRESH_STALE) /\ last f' = last f
  | Gt => (e = ECM_FRESH_OK \/ e = ECM_FRESH_RESUMED) /\ last f' = cur mod 2 ^ bits f /\ run f' = 0
  | Lt => e = ECM_FRESH_REGRESSION /\ last f' = last f /\ run f' = run f
  end.
Proof.
  intros Hw Hh Hl Hd. destruct (fresh_window f Hw) as (E & Hp & _).
  unfold ecm_fresh_update. cbn. rewrite Hh, Hl. cbn.
  rewrite (fresh_diff f cur prev Hw), (fresh_value f cur Hw), (fresh_mask_ones f Hw), (fresh_half f Hw).
  assert (Hmod : (cur - prev) mod 2 ^ bits f = if cur <? prev then cur - prev + 2 ^ bits f else cur - prev).
  { destruct (Z.ltb_spec cur prev).
    - rewrite <- (Z.mod_add _ 1), Z.mul_1_l by lia. apply Z.mod_small. lia.
    - apply Z.mod_small. lia. }
  rewrite Hmod. destruct (Z.compare_spec cur prev) as [->|Hlt|Hgt].
  - rewrite Z.ltb_irrefl, Z.sub_diag. cbn. repeat case_if; cbn; auto.
  - rewrite (proj2 (Z.ltb_lt _ _) Hlt). destruct (Z.eqb_spec (cur - prev + 2 ^ bits f) 0); [lia|].
    destruct (Z.ltb_spec (2 ^ (bits f - 1) - 1) (cur - prev + 2 ^ bits f)); [|lia]. cbn. auto.
  - rewrite (proj2 (Z.ltb_ge _ _)) by lia. destruct (Z.eqb_spec (cur - prev) 0); [lia|].
    destruct (Z.ltb_spec (2 ^ (bits f - 1) - 1) (cur - prev)); [lia|]. destruct (stale f); cbn; auto.
Qed.

Lemma fresh_classifies_witness :
  (ecm_fresh_update ((ecm_fresh_init 5 8) <| have := true |> <| last := 255 |>) (u32 257)).2 = ECM_FRESH_OK.
Proof.
  pose proof (fresh_classifies ((ecm_fresh_init 5 8) <| have := true |> <| last := 255 |>) 257 255
    ltac:(left; reflexivity) eq_refl eq_refl ltac:(cbn; lia)) as H.
  destruct (ecm_fresh_update _ _) as [f' e] eqn:E. cbn in H.
  vm_compute in E. injection E as _ <-. reflexivity.
Defined.

(** Staleness is reported once per episode: over any sequence of fewer
    than 2^32 samples from a fresh start, the stale flag is up exactly while
    the run of unchanged samples has reached [stale_after], every RESUMED
    closes one STALE_START, at most one is open, and [stale_episodes] counts
    the STALE_STARTs. *)
Theorem fresh_episodes after nbits vs : 0 <= after -> Z.of_nat (length vs) < 4294967296 ->
  let r := fresh_run (ecm_fresh_init after nbits) vs in
  stale r.1 = (stale_after r.1 <=? run r.1) /\
  count_ev ECM_FRESH_STALE_START r.2 = count_ev ECM_FRESH_RESUMED r.2 + b2z (stale r.1) /\
  stale_episodes r.1 = count_ev ECM_FRESH_STALE_START r.2.
Proof.
  intros Ha Hl r. unfold r.
  assert (Hi : fresh_inv 0 (ecm_fresh_init after nbits)).
  { unfold fresh_inv; cbn. destruct (Z.eqb_spec after 0); repeat split; try lia;
      symmetry; apply Z.leb_gt; lia. }
  destruct (fresh_run_inv vs _ 0 ltac:(lia) ltac:(lia) Hi) as (_ & _ & Hs & _).
  destruct (fresh_run_episodes vs (ecm_fresh_init after nbits)) as [H1 H2]; [cbn; lia..|].
  cbn [ecm_fresh_init stale stale_episodes b2z] in H1, H2. split_and!; [done|lia|lia].
Qed.

Lemma fresh_episodes_witness :
  stale_episodes (fresh_run (ecm_fresh_init 2 16) [4; 4; 4; 4; 5; 5; 5]).1 = 2.
Proof.
  destruct (fresh_episodes 2 16 [4; 4; 4; 4; 5; 5; 5] ltac:(lia) ltac:(cbn; lia)) as (_ & _ & H).
  rewrite H. reflexivity.
Defined.

(** The run counter is 32 bits wide: after 2^32 - 1 unchanged samples (49.7
    days at 1 ms) it wraps and a still stale input is reported as
    "unchanged, not stale" until the limit is reached again. *)
Lemma fresh_run_wraps ep cyc reg :
  let f := mkfresh 100 16 true 7 4294967295 true 4294967296 ep cyc reg 4294967295 in
  (ecm_fresh_update f 7).2 = ECM_FRESH_UNCHANGED /\ stale (ecm_fresh_update f 7).1 = true.
Proof. split; reflexivity. Qed.

End Fresh.
