(* ===== verification/Pdo.v ===== *)
(** * Process data binding: libecmaster/pdo/ecm_pdo.c

    The table of mapped PDO entries (slave, direction, index, subindex, bit
    length, bit offset), its comparison and size checks, the bind of an object
    to a handle, and the bit-level read and write of a handle in the IOmap.
    The IOmap is a list of bytes; an array with a count is the list of its
    used elements.  The diagnostic texts are not modelled, only the results
    that decide. *)
From Stdlib Require Import ZArith Lia Bool.
From stdpp Require Import base list numbers countable gmap fin_sets.
From S2P Require Import Prelude.

Definition ECM_PDO_MAX_ENTRIES : Z := 1024.
Definition ECM_PDO_MAX_SLAVES : Z := 64.

Inductive ecm_pdo_dir_t := ECM_PDO_OUT | ECM_PDO_IN.
#[export] Instance ecm_pdo_dir_eq_dec : EqDecision ecm_pdo_dir_t.
Proof. solve_decision. Defined.

Record ecm_pdo_entry_t := mkentry {
  e_slave : Z; e_dir : ecm_pdo_dir_t; e_pdo : Z; e_index : Z; e_sub : Z; e_bits : Z; e_bit_off : Z
}.
#[export] Instance ecm_pdo_entry_eq_dec : EqDecision ecm_pdo_entry_t.
Proof. solve_decision. Defined.

Record ecm_pdo_table_t := mktable {
  t_e : list ecm_pdo_entry_t;     (* e[0..n-1] *)
  t_out : list Z;                 (* bits[ECM_PDO_OUT][slave] *)
  t_in : list Z                   (* bits[ECM_PDO_IN][slave] *)
}.
#[export] Instance ecm_pdo_table_eta : Eta ecm_pdo_table_t :=
  fun t => mktable (t_e t) (t_out t) (t_in t).

Definition ecm_pdo_table_init : ecm_pdo_table_t := mktable [] (replicate 65 0) (replicate 65 0).

Definition t_bits (t : ecm_pdo_table_t) (dir : ecm_pdo_dir_t) : list Z :=
  match dir with ECM_PDO_OUT => t_out t | ECM_PDO_IN => t_in t end.
Definition bits_of (t : ecm_pdo_table_t) (dir : ecm_pdo_dir_t) (slave : Z) : Z :=
  default 0 (t_bits t dir !! Z.to_nat slave).
Definition set_bits (t : ecm_pdo_table_t) (dir : ecm_pdo_dir_t) (slave v : Z) : ecm_pdo_table_t :=
  match dir with
  | ECM_PDO_OUT => t <| t_out := <[Z.to_nat slave := v]> (t_out t) |>
  | ECM_PDO_IN => t <| t_in := <[Z.to_nat slave := v]> (t_in t) |>
  end.

Definition ecm_pdo_add (t : ecm_pdo_table_t) (slave : Z) (dir : ecm_pdo_dir_t)
    (pdo index sub bits : Z) : option ecm_pdo_table_t :=
  if (ECM_PDO_MAX_ENTRIES <=? Z.of_nat (length (t_e t))) || (slave <? 1)
     || (ECM_PDO_MAX_SLAVES <? slave) || (bits =? 0)
  then None
  else
    let e := {| e_slave := u16 slave; e_dir := dir; e_pdo := pdo; e_index := index; e_sub := sub;
                e_bits := bits; e_bit_off := bits_of t dir slave |} in
    let t := t <| t_e := t_e t ++ [e] |> in
    Some (set_bits t dir slave (u32 (bits_of t dir slave + bits))).

(** Number of differing lines; 0 is "the same table". *)
Fixpoint compare_entries (a b : list ecm_pdo_entry_t) : Z :=
  match a, b with
  | x :: a, y :: b => (if decide (x = y) then 0 else 1) + compare_entries a b
  | _, _ => 0
  end.
Definition ecm_pdo_table_compare (a b : ecm_pdo_table_t) : Z :=
  compare_entries (t_e a) (t_e b) + (if (length (t_e a) =? length (t_e b))%nat then 0 else 1).

Definition ecm_pdo_check_sizes (t : ecm_pdo_table_t) (n : Z) (obits ibits : list Z) : Z :=
  foldr Z.add 0
    ((fun s => if negb (bits_of t ECM_PDO_OUT s =? default 0 (obits !! Z.to_nat s))
                  || negb (bits_of t ECM_PDO_IN s =? default 0 (ibits !! Z.to_nat s)) then 1 else 0)
       <$> seqZ 1 (Z.min n ECM_PDO_MAX_SLAVES)).

Record ecm_pdo_loc_t := mkloc { l_group : Z; l_out_bit : Z; l_in_bit : Z }.
#[export] Instance ecm_pdo_loc_inhabited : Inhabited ecm_pdo_loc_t := populate (mkloc 0 0 0).

Record ecm_pdo_handle_t := mkhandle {
  h_slave : Z; h_group : Z; h_dir : ecm_pdo_dir_t; h_bit : Z; h_bits : Z
}.

Definition handle_zero : ecm_pdo_handle_t := mkhandle 0 0 ECM_PDO_OUT 0 0.

Definition entry_matches (slave index sub : Z) (e : ecm_pdo_entry_t) : bool :=
  (e_slave e =? slave) && (e_index e =? index) && (e_sub e =? sub).

Definition ecm_pdo_bind (t : ecm_pdo_table_t) (loc : list ecm_pdo_loc_t) (slave index sub : Z) :
    option ecm_pdo_handle_t :=
  if index =? 0 then None
  else match list_find (fun e => entry_matches slave index sub e = true) (t_e t) with
  | None => None
  | Some (_, e) =>
      if 64 <? e_bits e then None
      else
        let l := loc !!! Z.to_nat slave in
        Some {| h_slave := u16 slave; h_group := l_group l; h_dir := e_dir e;
                h_bit := u32 ((match e_dir e with ECM_PDO_OUT => l_out_bit l | ECM_PDO_IN => l_in_bit l end)
                              + e_bit_off e);
                h_bits := e_bits e |}
  end.

(** ** Bits of the IOmap *)

Definition byte_at (io : list Z) (i : Z) : Z := default 0 (io !! Z.to_nat i).

(** [for (k = 0; k < bits;)]: every round takes at least one bit, so [bits]
    rounds are enough. *)
Fixpoint get_loop (fuel : nat) (io : list Z) (bits bit k v : Z) : Z :=
  match fuel with
  | O => v
  | S fuel =>
      if k <? bits then
        let byte := Z.shiftr bit 3 in
        let sh := Z.land bit 7 in
        let take := 8 - sh in
        let take := if bits - k <? take then bits - k else take in
        let part := Z.land (Z.shiftr (byte_at io byte) sh) (u32 (Z.shiftl 1 take) - 1) in
        get_loop fuel io bits (u32 (bit + take)) (k + take) (Z.lor v (u64 (Z.shiftl part k)))
      else v
  end.
Definition ecm_pdo_get (h : ecm_pdo_handle_t) (iomap : list Z) : Z :=
  get_loop (Z.to_nat (h_bits h)) iomap (h_bits h) (h_bit h) 0 0.

Fixpoint set_loop (fuel : nat) (bits bit k v : Z) (io : list Z) : list Z :=
  match fuel with
  | O => io
  | S fuel =>
      if k <? bits then
        let byte := Z.shiftr bit 3 in
        let sh := Z.land bit 7 in
        let take := 8 - sh in
        let take := if bits - k <? take then bits - k else take in
        let mask := u8 (Z.shiftl (u32 (Z.shiftl 1 take) - 1) sh) in
        let part := u8 (Z.shiftl (Z.land (Z.shiftr v k) (u32 (Z.shiftl 1 take) - 1)) sh) in
        let io := <[Z.to_nat byte := u8 (Z.lor (Z.land (byte_at io byte) (Z.lnot mask)) part)]> io in
        set_loop fuel bits (u32 (bit + take)) (k + take) v io
      else io
  end.
Definition ecm_pdo_set (h : ecm_pdo_handle_t) (iomap : list Z) (v : Z) : list Z :=
  set_loop (Z.to_nat (h_bits h)) (h_bits h) (h_bit h) 0 v iomap.

(** ** Scan requirement *)

Definition foreign (vendor : list Z) (own : list Z) (s : Z) : bool :=
  negb (existsb (Z.eqb (default 0 (vendor !! Z.to_nat s))) own).

(** The loop over the bound slaves, with the [seen] flags. *)
Fixpoint scan_loop (vendor own : list Z) (n : Z) (bound : list Z) (seen : list bool) : Z :=
  match bound with
  | [] => 0
  | s :: bound =>
      if (s <? 1) || (n <? s) || (ECM_PDO_MAX_SLAVES <? s) || default false (seen !! Z.to_nat s)
      then scan_loop vendor own n bound seen
      else
        let seen := <[Z.to_nat s := true]> seen in
        (if foreign vendor own s then 1 else 0) + scan_loop vendor own n bound seen
  end.
Definition ecm_pdo_scan_required (vendor : list Z) (n : Z) (bound own : list Z) : Z :=
  scan_loop vendor own n bound (replicate 65 false).

(** ** Bit-level semantics of the accessors *)

(** Bit [j] of the IOmap. *)
Definition iobit (io : list Z) (j : Z) : bool := Z.testbit (byte_at io (j / 8)) (j mod 8).

Definition bytes (io : list Z) : Prop := Forall is_u8 io.

(** The handle lies inside the IOmap and has a width the accessors handle. *)
Definition handle_in (h : ecm_pdo_handle_t) (io : list Z) : Prop :=
  0 <= h_bit h /\ 0 <= h_bits h <= 64 /\ h_bit h + h_bits h <= 8 * Z.of_nat (length io) /\
  8 * Z.of_nat (length io) <= 4294967296.

Lemma byte_at_range io i : bytes io -> is_u8 (byte_at io i).
Proof.
  intros Hb. unfold byte_at. destruct (io !! Z.to_nat i) eqn:E; cbn; [|clia].
  eapply Forall_lookup_1 in E; eauto.
Qed.

Lemma ones_take k : 0 <= k < 32 -> u32 (Z.shiftl 1 k) - 1 = Z.ones k.
Proof.
  intros Hk. rewrite Z.ones_equiv, Z.shiftl_1_l.
  unfold u32. rewrite Z.mod_small; [lia|]. split; [apply Z.pow_nonneg; lia|].
  change 4294967296 with (2 ^ 32). apply Z.pow_lt_mono_r; lia.
Qed.

Lemma testbit_u8 z i : 0 <= i -> Z.testbit (u8 z) i = (i <? 8) && Z.testbit z i.
Proof.
  intros Hi. change (u8 z) with (z mod 2 ^ 8). destruct (Z.ltb_spec i 8).
  - rewrite Z.mod_pow2_bits_low by lia. done.
  - rewrite Z.mod_pow2_bits_high by lia. done.
Qed.

Lemma testbit_ones k i : 0 <= k -> 0 <= i -> Z.testbit (Z.ones k) i = (i <? k).
Proof.
  intros Hk Hi. destruct (Z.ltb_spec i k); [apply Z.ones_spec_low; lia|apply Z.ones_spec_high; lia].
Qed.

Lemma testbit_above z k i : 0 <= z < 2 ^ k -> 0 <= k <= i -> Z.testbit z i = false.
Proof.
  intros Hz Hk. rewrite <- (Z.mod_small z (2 ^ k)) by done. apply Z.mod_pow2_bits_high. lia.
Qed.

Lemma split_bit bit : Z.shiftr bit 3 = bit / 8 /\ Z.land bit 7 = bit mod 8.
Proof. split; [apply Z.shiftr_div_pow2; lia|apply (Z.land_ones bit 3); lia]. Qed.

(** One round of either loop takes [take] bits from bit [bit] on. *)
Definition round_take (bits bit k : Z) : Z := Z.min (8 - bit mod 8) (bits - k).

Lemma round_take_eq bits bit k :
  (if bits - k <? 8 - bit mod 8 then bits - k else 8 - bit mod 8) = round_take bits bit k.
Proof. unfold round_take. destruct (Z.ltb_spec (bits - k) (8 - bit mod 8)); lia. Qed.

Lemma round_take_range bits bit k : k < bits ->
  0 < round_take bits bit k <= 8 /\ bit mod 8 + round_take bits bit k <= 8.
Proof. unfold round_take. pose proof (Z.mod_pos_bound bit 8). lia. Qed.

(** Bits inside one byte. *)
Lemma same_byte bit take j : 0 <= bit -> bit mod 8 + take <= 8 -> bit <= j < bit + take ->
  j / 8 = bit / 8 /\ j mod 8 = bit mod 8 + (j - bit).
Proof. intros. clia. Qed.

(** Appending [tk] bits of [part] above the [k] bits of [v]. *)
Lemma lor_append_bits v part k tk j : 0 <= k -> 0 <= tk -> 0 <= v < 2 ^ k -> 0 <= part < 2 ^ tk -> 0 <= j ->
  Z.testbit (Z.lor v (Z.shiftl part k)) j =
  if j <? k then Z.testbit v j else if j <? k + tk then Z.testbit part (j - k) else false.
Proof.
  intros Hk Ht Hv Hp Hj. rewrite Z.lor_spec, Z.shiftl_spec by lia.
  destruct (Z.ltb_spec j k); [rewrite (Z.testbit_neg_r part) by lia; apply orb_false_r|].
  rewrite (testbit_above v k j) by lia. cbn.
  destruct (Z.ltb_spec j (k + tk)); [done|apply (testbit_above part tk); lia].
Qed.

Lemma lor_append_range v part k tk : 0 <= k -> 0 <= tk -> 0 <= v < 2 ^ k -> 0 <= part < 2 ^ tk ->
  0 <= Z.lor v (Z.shiftl part k) < 2 ^ (k + tk).
Proof.
  intros Hk Ht Hv Hp.
  assert (E : Z.land v (Z.shiftl part k) = 0).
  { apply Z.bits_inj'. intros j Hj. rewrite Z.land_spec, Z.shiftl_spec, Z.bits_0 by lia.
    destruct (Z.ltb_spec j k); [rewrite (Z.testbit_neg_r part) by lia; apply andb_false_r|].
    rewrite (testbit_above v k j) by lia. done. }
  rewrite <- Z.lxor_lor, <- Z.add_nocarry_lxor by done.
  rewrite Z.shiftl_mul_pow2, Z.pow_add_r by lia. nia.
Qed.

(** The bits one round reads. *)
Lemma get_part_spec io bit tk : bytes io -> 0 <= bit -> 0 < tk <= 8 -> bit mod 8 + tk <= 8 ->
  let part := Z.land (Z.shiftr (byte_at io (bit / 8)) (bit mod 8)) (Z.ones tk) in
  0 <= part < 2 ^ tk /\ forall j, 0 <= j < tk -> Z.testbit part j = iobit io (bit + j).
Proof.
  intros Hio Hb Ht Hm part. pose proof (Z.mod_pos_bound bit 8). split.
  - unfold part. rewrite Z.land_ones by lia. apply Z.mod_pos_bound. apply Z.pow_pos_nonneg; lia.
  - intros j Hj. unfold part. rewrite Z.land_spec, testbit_ones, (proj2 (Z.ltb_lt _ _)) by lia.
    rewrite andb_true_r, Z.shiftr_spec by lia. unfold iobit.
    destruct (same_byte bit tk (bit + j)) as [-> ->]; [lia..|]. f_equal; lia.
Qed.

(** The bit counter only wraps after the last round. *)
Lemma bit_advance bits bit k : k < bits -> 0 <= bit -> bit + (bits - k) <= 4294967296 ->
  let tk := round_take bits bit k in
  u32 (bit + tk) = bit + tk \/ k + tk = bits.
Proof.
  intros Hk Hb Hw tk. destruct (decide (k + tk = bits)) as [|Hne]; [auto|left].
  apply Z.mod_small. unfold tk in *. pose proof (round_take_range bits bit k Hk). unfold round_take in *. lia.
Qed.

Lemma get_loop_spec fuel io bits bit k v :
  bytes io -> 0 <= k <= bits -> bits <= 64 -> (Z.to_nat (bits - k) <= fuel)%nat ->
  0 <= v < 2 ^ k -> 0 <= bit -> bit + (bits - k) <= 4294967296 ->
  forall i, 0 <= i ->
  Z.testbit (get_loop fuel io bits bit k v) i =
  if i <? k then Z.testbit v i else if i <? bits then iobit io (bit + (i - k)) else false.
Proof.
  revert bit k v. induction fuel as [|fuel IH]; intros bit k v Hio Hk Hb Hf Hv Hbit Hw i Hi; cbn [get_loop].
  { assert (k = bits) as -> by lia. destruct (Z.ltb_spec i bits); [done|].
    apply (testbit_above v bits i); lia. }
  destruct (Z.ltb_spec k bits) as [Hlt|Hge].
  2:{ assert (k = bits) as -> by lia. destruct (Z.ltb_spec i bits); [done|].
      apply (testbit_above v bits i); lia. }
  destruct (split_bit bit) as [-> ->]. rewrite round_take_eq.
  destruct (round_take_range bits bit k Hlt) as [Ht1 Ht2].
  pose proof (bit_advance bits bit k Hlt Hbit Hw) as Hadv. cbv zeta in Hadv.
  assert (Hle : k + round_take bits bit k <= bits) by (unfold round_take; lia).
  set (tk := round_take bits bit k) in *.
  rewrite ones_take by lia.
  destruct (get_part_spec io bit tk Hio Hbit Ht1 Ht2) as [Hp Hpb].
  set (part := Z.land _ _) in *.
  assert (Hsm : u64 (Z.shiftl part k) = Z.shiftl part k).
  { apply Z.mod_small. rewrite Z.shiftl_mul_pow2 by lia.
    assert (2 ^ (k + tk) <= 2 ^ 64) by (apply Z.pow_le_mono_r; lia).
    rewrite Z.pow_add_r in * by lia. change (2 ^ 64) with 18446744073709551616 in *. nia. }
  rewrite Hsm. pose proof (lor_append_range v part k tk) as Hr.
  pose proof (lor_append_bits v part k tk i) as Hl.
  destruct Hadv as [->|Hend].
  - rewrite IH by (auto; lia). rewrite Hl by lia.
    destruct (Z.ltb_spec i k), (Z.ltb_spec i (k + tk)), (Z.ltb_spec i bits); try lia; auto.
    + apply Hpb; lia.
    + f_equal; lia.
  - assert (E : forall b x, get_loop fuel io bits b (k + tk) x = x).
    { intros b x. destruct fuel; cbn; [done|]. rewrite (proj2 (Z.ltb_ge _ _)) by lia. done. }
    rewrite E, Hl, Hend by lia.
    destruct (Z.ltb_spec i k), (Z.ltb_spec i bits); try done. apply Hpb; lia.
Qed.

(** The byte one round writes. *)
Lemma set_byte_spec b v k sh tk i : is_u8 b -> 0 <= v -> 0 <= k -> 0 <= sh -> 0 < tk -> sh + tk <= 8 -> 0 <= i < 8 ->
  Z.testbit (u8 (Z.lor (Z.land b (Z.lnot (u8 (Z.shiftl (Z.ones tk) sh))))
                       (u8 (Z.shiftl (Z.land (Z.shiftr v k) (Z.ones tk)) sh)))) i
  = if (sh <=? i) && (i <? sh + tk) then Z.testbit v (k + (i - sh)) else Z.testbit b i.
Proof.
  intros Hb Hv Hk Hsh Ht Hs Hi.
  rewrite testbit_u8, Z.lor_spec, Z.land_spec, Z.lnot_spec, !testbit_u8 by lia.
  rewrite !(proj2 (Z.ltb_lt i 8)), !Z.shiftl_spec by lia. cbn.
  destruct (Z.leb_spec sh i) as [H1|H1]; cbn.
  - rewrite Z.land_spec, !testbit_ones, Z.shiftr_spec by lia.
    replace (i - sh + k) with (k + (i - sh)) by lia.
    destruct (Z.ltb_spec (i - sh) tk), (Z.ltb_spec i (sh + tk)); try lia; cbn;
      rewrite ?andb_false_r, ?andb_true_r, ?orb_false_r; done.
  - rewrite !(Z.testbit_neg_r _ (i - sh)) by lia. cbn. rewrite andb_true_r, orb_false_r. done.
Qed.

Lemma iobit_insert io n b j : 0 <= n < Z.of_nat (length io) -> 0 <= j ->
  iobit (<[Z.to_nat n := b]> io) j = if j / 8 =? n then Z.testbit b (j mod 8) else iobit io j.
Proof.
  intros Hn Hj. unfold iobit, byte_at. assert (0 <= j / 8) by clia.
  destruct (Z.eqb_spec (j / 8) n) as [->|Hne].
  - rewrite list_lookup_insert_eq by lia. done.
  - rewrite list_lookup_insert_ne by lia. done.
Qed.

Lemma set_loop_spec fuel bits bit k v io :
  bytes io -> 0 <= v -> 0 <= k <= bits -> (Z.to_nat (bits - k) <= fuel)%nat -> 0 <= bit ->
  bit + (bits - k) <= 8 * Z.of_nat (length io) -> 8 * Z.of_nat (length io) <= 4294967296 ->
  let io' := set_loop fuel bits bit k v io in
  length io' = length io /\ bytes io' /\
  forall j, 0 <= j -> iobit io' j =
    if (bit <=? j) && (j <? bit + (bits - k)) then Z.testbit v (k + (j - bit)) else iobit io j.
Proof.
  revert bit k io. induction fuel as [|fuel IH]; intros bit k io Hio Hv Hk Hf Hbit Hin Hw; cbn [set_loop].
  { split_and!; auto. intros j Hj. destruct (Z.leb_spec bit j), (Z.ltb_spec j (bit + (bits - k))); try lia; done. }
  destruct (Z.ltb_spec k bits) as [Hlt|Hge].
  2:{ split_and!; auto. intros j Hj. destruct (Z.leb_spec bit j), (Z.ltb_spec j (bit + (bits - k))); try lia; done. }
  destruct (split_bit bit) as [-> ->]. rewrite round_take_eq.
  destruct (round_take_range bits bit k Hlt) as [Ht1 Ht2].
  pose proof (bit_advance bits bit k Hlt Hbit ltac:(lia)) as Hadv. cbv zeta in Hadv.
  assert (Hle : k + round_take bits bit k <= bits) by (unfold round_take; lia).
  set (tk := round_take bits bit k) in *. rewrite ones_take by lia.
  pose proof (Z.mod_pos_bound bit 8 ltac:(lia)) as Hsh.
  assert (Hbyte : 0 <= bit / 8 < Z.of_nat (length io)) by clia.
  set (nb := u8 _).
  assert (Hone : forall j, 0 <= j -> iobit (<[Z.to_nat (bit / 8) := nb]> io) j =
     if (bit <=? j) && (j <? bit + tk) then Z.testbit v (k + (j - bit)) else iobit io j).
  { intros j Hj. rewrite iobit_insert by lia. pose proof (Z.mod_pos_bound j 8 ltac:(lia)) as Hjm.
    destruct (Z.eqb_spec (j / 8) (bit / 8)) as [E|E].
    - unfold nb. rewrite set_byte_spec by (auto using byte_at_range; lia).
      unfold iobit. rewrite E.
      assert (Ej : j - bit = j mod 8 - bit mod 8) by clia.
      destruct (Z.leb_spec (bit mod 8) (j mod 8)), (Z.leb_spec bit j); try lia; cbn; try done.
      destruct (Z.ltb_spec (j mod 8) (bit mod 8 + tk)), (Z.ltb_spec j (bit + tk)); try lia; try done.
      f_equal. lia.
    - destruct (Z.leb_spec bit j), (Z.ltb_spec j (bit + tk)); cbn; try done.
      exfalso. apply E. apply (same_byte bit tk j); lia. }
  assert (Hb' : bytes (<[Z.to_nat (bit / 8) := nb]> io)).
  { apply Forall_insert; [done|]. apply u8_range. }
  destruct Hadv as [->|Hend].
  - specialize (IH (bit + tk) (k + tk) (<[Z.to_nat (bit / 8) := nb]> io)).
    rewrite length_insert in IH. destruct IH as (I1 & I2 & I3); auto; try lia.
    split_and!; auto. intros j Hj. rewrite I3, Hone by lia.
    destruct (Z.leb_spec (bit + tk) j), (Z.leb_spec bit j), (Z.ltb_spec j (bit + tk)),
      (Z.ltb_spec j (bit + tk + (bits - (k + tk)))), (Z.ltb_spec j (bit + (bits - k))); try lia; cbn; try done.
    f_equal. lia.
  - assert (E : forall b x, set_loop fuel bits b (k + tk) v x = x).
    { intros b x. destruct fuel; cbn; [done|]. rewrite (proj2 (Z.ltb_ge _ _)) by lia. done. }
    rewrite E, length_insert. split_and!; auto. intros j Hj. rewrite Hone by lia.
    replace (bit + (bits - k)) with (bit + tk) by lia. done.
Qed.

(** Reading: bit [i] of the value is bit [h_bit + i] of the IOmap. *)
Lemma pdo_get_bits h io i : bytes io -> handle_in h io -> 0 <= i ->
  Z.testbit (ecm_pdo_get h io) i = (i <? h_bits h) && iobit io (h_bit h + i).
Proof.
  intros Hio (H1 & H2 & H3 & H4) Hi. unfold ecm_pdo_get.
  rewrite get_loop_spec by (auto; cbn; lia).
  destruct (Z.ltb_spec i 0); [lia|]. rewrite Z.sub_0_r. destruct (i <? h_bits h); done.
Qed.

(** Writing: exactly the handle's bits take the value's bits. *)
Lemma pdo_set_bits h io v : bytes io -> 0 <= v -> handle_in h io ->
  let io' := ecm_pdo_set h io v in
  length io' = length io /\ bytes io' /\
  forall j, 0 <= j -> iobit io' j =
    if (h_bit h <=? j) && (j <? h_bit h + h_bits h) then Z.testbit v (j - h_bit h) else iobit io j.
Proof.
  intros Hio Hv (H1 & H2 & H3 & H4).
  destruct (set_loop_spec (Z.to_nat (h_bits h)) (h_bits h) (h_bit h) 0 v io) as (I1 & I2 & I3);
    auto; try lia.
  rewrite Z.sub_0_r in I3. split_and!; auto.
Qed.

(** Two byte lists of one length with the same bits are equal. *)
Lemma iobit_ext io io' : bytes io -> bytes io' -> length io = length io' ->
  (forall j, 0 <= j -> iobit io j = iobit io' j) -> io = io'.
Proof.
  intros Hb Hb' Hl Hj. apply list_eq. intros i.
  destruct (io !! i) as [x|] eqn:E1, (io' !! i) as [y|] eqn:E2; auto.
  2,3: apply lookup_lt_Some in E1 || apply lookup_lt_Some in E2;
       apply lookup_ge_None in E2 || apply lookup_ge_None in E1; lia.
  f_equal. apply Z.bits_inj'. intros k Hk.
  pose proof (Forall_lookup_1 _ _ _ _ Hb E1) as Hx. pose proof (Forall_lookup_1 _ _ _ _ Hb' E2) as Hy.
  destruct (Z.ltb_spec k 8).
  - specialize (Hj (8 * Z.of_nat i + k) ltac:(lia)). unfold iobit, byte_at in Hj.
    assert (E : (8 * Z.of_nat i + k) / 8 = Z.of_nat i /\ (8 * Z.of_nat i + k) mod 8 = k) by clia.
    destruct E as [-> ->] in Hj. rewrite Nat2Z.id, E1, E2 in Hj. done.
  - rewrite !(testbit_above _ 8) by (clia || lia). done.
Qed.

(** Handles whose bit ranges do not meet. *)
Definition handles_disjoint (h1 h2 : ecm_pdo_handle_t) : Prop :=
  h_bit h1 + h_bits h1 <= h_bit h2 \/ h_bit h2 + h_bits h2 <= h_bit h1.

Lemma handle_in_set h h' io v : bytes io -> 0 <= v -> handle_in h io -> handle_in h' io ->
  handle_in h' (ecm_pdo_set h io v).
Proof. intros. unfold handle_in in *. destruct (pdo_set_bits h io v) as (-> & _); auto. Qed.

(** What a client of the IOmap relies on: the get/put laws of a handle. *)
Lemma pdo_get_set h io v : bytes io -> 0 <= v -> handle_in h io ->
  ecm_pdo_get h (ecm_pdo_set h io v) = v mod 2 ^ h_bits h.
Proof.
  intros Hio Hv Hh. destruct (pdo_set_bits h io v Hio Hv Hh) as (Hl & Hb & Hbit).
  pose proof (handle_in_set h h io v Hio Hv Hh Hh) as Hh'. pose proof Hh as (H1 & H2 & _).
  apply Z.bits_inj'. intros i Hi. rewrite pdo_get_bits, Hbit by (auto; lia).
  destruct (Z.ltb_spec i (h_bits h)); cbn.
  - rewrite Z.mod_pow2_bits_low, (proj2 (Z.leb_le _ _)), (proj2 (Z.ltb_lt _ _)) by lia. cbn.
    f_equal. lia.
  - rewrite Z.mod_pow2_bits_high by lia. done.
Qed.

Lemma pdo_get_set_other h1 h2 io v : bytes io -> 0 <= v -> handle_in h1 io -> handle_in h2 io ->
  handles_disjoint h1 h2 -> ecm_pdo_get h2 (ecm_pdo_set h1 io v) = ecm_pdo_get h2 io.
Proof.
  intros Hio Hv H1 H2 Hd. destruct (pdo_set_bits h1 io v Hio Hv H1) as (Hl & Hb & Hbit).
  pose proof (handle_in_set h1 h2 io v Hio Hv H1 H2) as H2'.
  pose proof H1 as (A1 & A2 & _). pose proof H2 as (B1 & B2 & _).
  apply Z.bits_inj'. intros i Hi. rewrite !pdo_get_bits, Hbit by (auto; lia).
  destruct (Z.ltb_spec i (h_bits h2)); cbn; [|done].
  unfold handles_disjoint in Hd.
  destruct (Z.leb_spec (h_bit h1) (h_bit h2 + i)), (Z.ltb_spec (h_bit h2 + i) (h_bit h1 + h_bits h1));
    cbn; try done; lia.
Qed.

Lemma pdo_get_range h io : bytes io -> handle_in h io -> 0 <= ecm_pdo_get h io < 2 ^ h_bits h.
Proof.
  intros Hio Hh. assert (E : ecm_pdo_get h io = ecm_pdo_get h io mod 2 ^ h_bits h).
  { pose proof Hh as (H1 & H2 & _). apply Z.bits_inj'. intros i Hi.
    destruct (Z.ltb_spec i (h_bits h)).
    - rewrite Z.mod_pow2_bits_low by lia. done.
    - rewrite Z.mod_pow2_bits_high, pdo_get_bits, (proj2 (Z.ltb_ge _ _)) by (auto; lia). done. }
  rewrite E. apply Z.mod_pos_bound. apply Z.pow_pos_nonneg; [lia|]. apply Hh.
Qed.

Lemma pdo_set_get h io : bytes io -> handle_in h io -> ecm_pdo_set h io (ecm_pdo_get h io) = io.
Proof.
  intros Hio Hh. pose proof (pdo_get_range h io Hio Hh) as Hr.
  destruct (pdo_set_bits h io (ecm_pdo_get h io) Hio ltac:(lia) Hh) as (Hl & Hb & Hbit).
  apply iobit_ext; auto. intros j Hj. rewrite Hbit by lia.
  destruct (Z.leb_spec (h_bit h) j), (Z.ltb_spec j (h_bit h + h_bits h)); cbn; try done.
  rewrite pdo_get_bits, (proj2 (Z.ltb_lt _ _)) by (auto; lia). cbn. f_equal. lia.
Qed.

#[export] Hint Resolve handle_in_set : ecm.

(** ** The table *)

(** Bits of the entries of (slave, dir). *)
Fixpoint area_bits (slave : Z) (dir : ecm_pdo_dir_t) (es : list ecm_pdo_entry_t) : Z :=
  match es with
  | [] => 0
  | e :: es => (if decide (e_slave e = slave /\ e_dir e = dir) then e_bits e else 0) + area_bits slave dir es
  end.

Lemma area_bits_app slave dir a b :
  area_bits slave dir (a ++ b) = area_bits slave dir a + area_bits slave dir b.
Proof. induction a as [|e a IH]; cbn; [done|]. rewrite IH. lia. Qed.

(** Offsets are running totals of the slave and direction. *)
Definition table_wf (t : ecm_pdo_table_t) : Prop :=
  length (t_out t) = 65%nat /\ length (t_in t) = 65%nat /\ (length (t_e t) <= 1024)%nat /\
  Forall (fun e => 1 <= e_slave e <= 64 /\ 0 < e_bits e < 65536) (t_e t) /\
  (forall dir slave, 1 <= slave <= 64 -> bits_of t dir slave = area_bits slave dir (t_e t)) /\
  (forall l e r, t_e t = l ++ e :: r -> e_bit_off e = area_bits (e_slave e) (e_dir e) l).

Lemma area_bits_range slave dir es :
  Forall (fun e => 1 <= e_slave e <= 64 /\ 0 < e_bits e < 65536) es ->
  0 <= area_bits slave dir es <= 65535 * Z.of_nat (length es).
Proof.
  induction 1 as [|e es [_ He] _ IH]; cbn [area_bits length]; [lia|].
  destruct (decide _); lia.
Qed.

Lemma table_init_wf : table_wf ecm_pdo_table_init.
Proof.
  split_and!; cbn; auto; try lia.
  - intros dir slave Hs. unfold bits_of. destruct dir; cbn [t_bits ecm_pdo_table_init t_out t_in];
      rewrite lookup_replicate_2 by lia; done.
  - intros l e r H. destruct l; discriminate.
Qed.

Lemma bits_of_set t dir slave v dir' slave' :
  length (t_out t) = 65%nat -> length (t_in t) = 65%nat -> 1 <= slave <= 64 -> 1 <= slave' <= 64 ->
  bits_of (set_bits t dir slave v) dir' slave'
  = if decide (slave = slave' /\ dir = dir') then v else bits_of t dir' slave'.
Proof.
  intros Ho Hi Hs Hs'. unfold bits_of, set_bits.
  destruct dir, dir'; cbn; destruct (decide _) as [[E E']|E]; try discriminate; try done; subst;
    try (rewrite list_lookup_insert_eq by lia; done);
    try (rewrite list_lookup_insert_ne; [done|]; intros F; apply E; split; [lia|done]).
Qed.

Lemma table_add_wf t slave dir pdo index sub bits t' :
  table_wf t -> is_u16 bits -> ecm_pdo_add t slave dir pdo index sub bits = Some t' -> table_wf t'.
Proof.
  intros (Ho & Hi & Hn & Hf & Hb & Hoff) Hbits Hadd. unfold ecm_pdo_add in Hadd.
  case_if_in Hadd; [discriminate|]. injection Hadd as <-.
  unfold ECM_PDO_MAX_ENTRIES, ECM_PDO_MAX_SLAVES in *. bprop.
  assert (Hs16 : u16 slave = slave) by (apply Z.mod_small; lia). rewrite Hs16.
  pose proof (area_bits_range slave dir (t_e t) Hf) as Hr.
  assert (Hbo : bits_of t dir slave = area_bits slave dir (t_e t)) by (apply Hb; lia).
  set (e := {| e_slave := slave |}).
  match goal with |- context [set_bits ?x _ _ _] => set (t1 := x) end.
  assert (E1 : t_e (set_bits t1 dir slave (u32 (bits_of t1 dir slave + bits))) = t_e t ++ [e])
    by (destruct dir; done).
  unfold table_wf. rewrite !E1. split_and!.
  - destruct dir; cbn; rewrite ?length_insert; done.
  - destruct dir; cbn; rewrite ?length_insert; done.
  - rewrite length_app. cbn. lia.
  - apply Forall_app. split; [done|]. repeat constructor; cbn; clia.
  - intros dir' slave' Hs'. rewrite bits_of_set by (auto; lia).
    change (bits_of t1 dir slave) with (bits_of t dir slave).
    change (bits_of t1 dir' slave') with (bits_of t dir' slave').
    rewrite area_bits_app, (Hb dir' slave') by lia.
    change (area_bits slave' dir' [e]) with ((if decide (slave = slave' /\ dir = dir') then bits else 0) + 0).
    destruct (decide (slave = slave' /\ dir = dir')) as [[-> ->]|E]; [|lia].
    rewrite Hbo. unfold u32. rewrite Z.mod_small by clia. lia.
  - intros l x r E. destruct r as [|y r _] using rev_ind.
    + apply app_inj_tail in E as [<- <-]. exact Hbo.
    + rewrite app_comm_cons, app_assoc in E. apply app_inj_tail in E as [E _]. eauto.
Qed.

(** Entries of one slave and direction occupy separate bit ranges. *)
Lemma table_entries_disjoint t l m r e1 e2 :
  table_wf t -> t_e t = l ++ e1 :: m ++ e2 :: r -> e_slave e1 = e_slave e2 -> e_dir e1 = e_dir e2 ->
  e_bit_off e1 + e_bits e1 <= e_bit_off e2.
Proof.
  intros (_ & _ & _ & Hf & _ & Hoff) E Es Ed.
  rewrite (Hoff l e1 (m ++ e2 :: r) E), (Hoff (l ++ e1 :: m) e2 r) by (rewrite E, <- app_assoc; done).
  rewrite Es, Ed, !area_bits_app. cbn. rewrite decide_True by done.
  rewrite E in Hf. apply Forall_app in Hf as [_ Hf]. inversion_clear Hf as [|? ? _ Hm].
  apply Forall_app in Hm as [Hm _]. pose proof (area_bits_range (e_slave e2) (e_dir e2) m Hm). lia.
Qed.

(** What a successful bind says. *)
Lemma bind_inv t loc slave index sub h : ecm_pdo_bind t loc slave index sub = Some h ->
  exists i e, t_e t !! i = Some e /\ entry_matches slave index sub e = true /\ index <> 0 /\
    (forall j e', (j < i)%nat -> t_e t !! j = Some e' -> entry_matches slave index sub e' = false) /\
    e_bits e <= 64 /\ h_dir h = e_dir e /\ h_bits h = e_bits e /\
    h_bit h = u32 ((match e_dir e with
                    | ECM_PDO_OUT => l_out_bit (loc !!! Z.to_nat slave)
                    | ECM_PDO_IN => l_in_bit (loc !!! Z.to_nat slave) end) + e_bit_off e).
Proof.
  unfold ecm_pdo_bind. destruct (Z.eqb_spec index 0); [discriminate|].
  destruct (list_find _ _) as [[i e]|] eqn:Ef; [|discriminate].
  apply list_find_Some in Ef as (Hi & Hm & Hfirst).
  destruct (Z.ltb_spec 64 (e_bits e)); [discriminate|]. intros [= <-]. cbn.
  exists i, e. split_and!; auto. intros j e' Hj He'.
  destruct (entry_matches slave index sub e') eqn:E; [|done]. exfalso. eapply Hfirst; eauto.
Qed.

(** The area a slave's direction occupies in the IOmap. *)
Definition area_base (loc : list ecm_pdo_loc_t) (slave : Z) (dir : ecm_pdo_dir_t) : Z :=
  match dir with
  | ECM_PDO_OUT => l_out_bit (loc !!! Z.to_nat slave)
  | ECM_PDO_IN => l_in_bit (loc !!! Z.to_nat slave)
  end.

Definition loc_fits (t : ecm_pdo_table_t) (loc : list ecm_pdo_loc_t) (slave : Z) : Prop :=
  forall dir, 0 <= area_base loc slave dir /\ area_base loc slave dir + bits_of t dir slave < 4294967296.

(** Entry [e] ends inside its area. *)
Lemma entry_end t i e : table_wf t -> t_e t !! i = Some e ->
  0 <= e_bit_off e /\ e_bit_off e + e_bits e <= bits_of t (e_dir e) (e_slave e).
Proof.
  intros (_ & _ & _ & Hf & Hb & Hoff) Hi.
  apply list_elem_of_split_length in Hi as (l & r & E & _).
  rewrite E in Hf. apply Forall_app in Hf as [Hl Hf]. inversion_clear Hf as [|? ? He Hr].
  rewrite (Hoff l e r E), Hb, E, area_bits_app by lia. cbn. rewrite decide_True by done.
  pose proof (area_bits_range (e_slave e) (e_dir e) l Hl).
  pose proof (area_bits_range (e_slave e) (e_dir e) r Hr). lia.
Qed.

Lemma entries_disjoint_at t i j e1 e2 : table_wf t -> (i < j)%nat ->
  t_e t !! i = Some e1 -> t_e t !! j = Some e2 -> e_slave e1 = e_slave e2 -> e_dir e1 = e_dir e2 ->
  e_bit_off e1 + e_bits e1 <= e_bit_off e2.
Proof.
  intros Hw Hij H1 H2 Hs Hd.
  apply list_elem_of_split_length in H1 as (l & r & E & Hl). subst i. rewrite E in H2.
  rewrite lookup_app_r in H2 by lia.
  destruct (j - length l)%nat as [|k] eqn:Ek; [lia|]. cbn in H2.
  apply list_elem_of_split_length in H2 as (m & r' & -> & _).
  eapply table_entries_disjoint; eauto.
Qed.

Lemma bind_disjoint t loc slave ix1 sub1 ix2 sub2 h1 h2 :
  table_wf t -> loc_fits t loc slave -> (ix1, sub1) <> (ix2, sub2) ->
  ecm_pdo_bind t loc slave ix1 sub1 = Some h1 -> ecm_pdo_bind t loc slave ix2 sub2 = Some h2 ->
  h_dir h1 = h_dir h2 -> handles_disjoint h1 h2.
Proof.
  intros Hw Hl Hne B1 B2 Hd.
  destruct (bind_inv _ _ _ _ _ _ B1) as (i & e1 & I1 & M1 & _ & _ & _ & D1 & W1 & P1).
  destruct (bind_inv _ _ _ _ _ _ B2) as (j & e2 & I2 & M2 & _ & _ & _ & D2 & W2 & P2).
  unfold entry_matches in M1, M2. bprop.
  destruct (entry_end t i e1 Hw I1) as [O1 E1]. destruct (entry_end t j e2 Hw I2) as [O2 E2].
  assert (Hs : e_slave e1 = e_slave e2) by lia. assert (Hdd : e_dir e1 = e_dir e2) by congruence.
  destruct (Hl (e_dir e1)) as [L1 L2].
  assert (Hb : 0 < e_bits e1 /\ 0 < e_bits e2).
  { destruct Hw as (_ & _ & _ & Hf & _). pose proof (Forall_lookup_1 _ _ _ _ Hf I1) as [_ ?].
    pose proof (Forall_lookup_1 _ _ _ _ Hf I2) as [_ ?]. lia. }
  replace (e_slave e1) with slave in E1 by lia. replace (e_slave e2) with slave in E2 by lia.
  fold (area_base loc slave (e_dir e1)) in P1. fold (area_base loc slave (e_dir e2)) in P2.
  rewrite <- Hdd in E2, P2.
  assert (F : forall o b, 0 <= o -> o + b <= bits_of t (e_dir e1) slave -> 0 < b ->
            u32 (area_base loc slave (e_dir e1) + o) = area_base loc slave (e_dir e1) + o).
  { intros o b Ho Hob Hb'. apply Z.mod_small. lia. }
  rewrite (F _ (e_bits e1)) in P1 by lia. rewrite (F _ (e_bits e2)) in P2 by lia.
  unfold handles_disjoint. rewrite P1, P2, W1, W2.
  destruct (Nat.lt_trichotomy i j) as [Hij|[->|Hij]].
  - pose proof (entries_disjoint_at t i j e1 e2 Hw Hij I1 I2 Hs ltac:(congruence)). lia.
  - exfalso. apply Hne. rewrite I1 in I2. injection I2 as <-. f_equal; congruence.
  - pose proof (entries_disjoint_at t j i e2 e1 Hw Hij I2 I1 ltac:(congruence) ltac:(congruence)). lia.
Qed.

(** A table as the loaders build it: one [ecm_pdo_add] after another, a
    refused entry stops the loader. *)
Definition add_args : Type := Z * ecm_pdo_dir_t * Z * Z * Z * Z.
Fixpoint add_all (t : ecm_pdo_table_t) (l : list add_args) : option ecm_pdo_table_t :=
  match l with
  | [] => Some t
  | (slave, dir, pdo, index, sub, bits) :: l =>
      match ecm_pdo_add t slave dir pdo index sub bits with
      | None => None
      | Some t => add_all t l
      end
  end.

Lemma add_all_wf l t t' : table_wf t -> Forall (fun a => is_u16 a.2) l -> add_all t l = Some t' -> table_wf t'.
Proof.
  intros Hw Hf. revert t Hw.
  induction Hf as [|[[[[[slave dir] pdo] ix] sub] bits] l Hb Hf IH]; intros t Hw; cbn.
  - intros [= <-]. done.
  - destruct (ecm_pdo_add _ _ _ _ _ _ _) eqn:E; [|discriminate]. intros Ha.
    eapply IH; [|exact Ha]. eapply table_add_wf; eauto.
Qed.

(** ** Comparing tables *)

Lemma compare_entries_nonneg a b : 0 <= compare_entries a b.
Proof. revert b. induction a; intros [|y b]; cbn; try lia. specialize (IHa b). destruct (decide _); lia. Qed.

Lemma compare_zero a b : length a = length b -> compare_entries a b = 0 -> a = b.
Proof.
  revert b. induction a as [|x a IH]; intros [|y b] Hl; cbn in *; try lia; [done|].
  pose proof (compare_entries_nonneg a b). destruct (decide (x = y)); [|lia].
  intros H0. f_equal; [done|]. apply IH; lia.
Qed.

Lemma compare_refl a : compare_entries a a = 0.
Proof. induction a as [|x a IH]; cbn; [done|]. rewrite decide_True by done. lia. Qed.

(** ** Counting the slaves that need a scan *)

Definition needs_scan (vendor own : list Z) (n s : Z) : Prop :=
  1 <= s <= Z.min n ECM_PDO_MAX_SLAVES /\ foreign vendor own s = true.
#[export] Instance needs_scan_dec vendor own n s : Decision (needs_scan vendor own n s).
Proof. unfold needs_scan. apply _. Defined.

(** The slaves already flagged. *)
Definition seen_set (seen : list bool) : gset Z :=
  list_to_set (filter (fun s => seen !! Z.to_nat s = Some true) (seqZ 1 64)).

Lemma elem_of_seen seen s : s ∈ seen_set seen <-> 1 <= s <= 64 /\ seen !! Z.to_nat s = Some true.
Proof.
  unfold seen_set. rewrite elem_of_list_to_set, list_elem_of_filter, elem_of_seqZ. intuition lia.
Qed.

Lemma size_add (s : Z) (X : gset Z) : s ∉ X -> size ({[s]} ∪ X) = S (size X).
Proof. intros H. rewrite size_union by set_solver. rewrite size_singleton. lia. Qed.

Lemma scan_loop_count vendor own n bound seen : length seen = 65%nat ->
  scan_loop vendor own n bound seen =
  Z.of_nat (size (list_to_set (filter (needs_scan vendor own n) bound) ∖ seen_set seen)).
Proof.
  revert seen. induction bound as [|s bound IH]; intros seen Hl; cbn [scan_loop].
  { cbn. replace (∅ ∖ seen_set seen) with (∅ : gset Z) by set_solver. done. }
  rewrite filter_cons. unfold ECM_PDO_MAX_SLAVES.
  destruct ((s <? 1) || (n <? s) || (64 <? s)) eqn:Er; cbn [orb].
  { rewrite IH by done. rewrite decide_False; [done|]. unfold needs_scan, ECM_PDO_MAX_SLAVES.
    intros [Hr _]. apply orb_true_iff in Er as [Er|Er]; [apply orb_true_iff in Er as [Er|Er]|]; bprop; lia. }
  bprop. destruct (lookup_lt_is_Some_2 seen (Z.to_nat s)) as [b Hb]; [lia|]. rewrite Hb. cbn.
  destruct b.
  { rewrite IH by done. do 2 f_equal. apply set_eq. intros x.
    destruct (decide (needs_scan vendor own n s)); cbn; [|done].
    rewrite !elem_of_difference, elem_of_union, elem_of_singleton, elem_of_seen.
    split; [tauto|]. intros [[->|?] Hx]; [|tauto]. exfalso. apply Hx. split; [lia|done]. }
  rewrite IH by (rewrite length_insert; done).
  assert (Hseen : seen_set (<[Z.to_nat s := true]> seen) = {[s]} ∪ seen_set seen).
  { apply set_eq. intros x. rewrite elem_of_union, elem_of_singleton, !elem_of_seen.
    destruct (decide (x = s)) as [->|Hx].
    - rewrite list_lookup_insert_eq by lia. split; [tauto|]. intros _. split; [lia|done].
    - destruct (decide (1 <= x)) as [Hx1|Hx1]; [rewrite list_lookup_insert_ne by lia; tauto|]. intuition lia. }
  rewrite Hseen.
  destruct (foreign vendor own s) eqn:Ef.
  - rewrite decide_True by (split; [unfold ECM_PDO_MAX_SLAVES; lia|done]). cbn.
    set (X := list_to_set _).
    replace (({[s]} ∪ X) ∖ seen_set seen) with ({[s]} ∪ (X ∖ ({[s]} ∪ seen_set seen))).
    + rewrite size_add by set_solver. lia.
    + apply set_eq. intros x. destruct (decide (x = s)) as [->|]; [|set_solver].
      assert (s ∉ seen_set seen) by (rewrite elem_of_seen, Hb; intros [_ ?]; congruence). set_solver.
  - rewrite decide_False by (intros [_ ?]; congruence). rewrite Z.add_0_l. do 2 f_equal.
    apply set_eq. intros x. rewrite !elem_of_difference, elem_of_union, elem_of_singleton.
    split; [tauto|]. intros [Hx1 Hx2]. split; [done|]. intros [->|?]; [|tauto].
    apply elem_of_list_to_set, list_elem_of_filter in Hx1 as [[_ ?] _]. congruence.
Qed.

(** C30: process data accesses obey the laws of independent cells: a read after
    a write returns the value cut to the handle's width, writing back what was
    read changes nothing, and a handle on other bits is not affected -- at any
    bit offset and any width up to 64. *)
Theorem pdo_cell_laws h h2 io v :
  bytes io -> 0 <= v -> handle_in h io -> handle_in h2 io -> handles_disjoint h h2 ->
  ecm_pdo_get h (ecm_pdo_set h io v) = v mod 2 ^ h_bits h /\
  ecm_pdo_set h io (ecm_pdo_get h io) = io /\
  ecm_pdo_get h2 (ecm_pdo_set h io v) = ecm_pdo_get h2 io.
Proof.
  intros. split_and!; [by apply pdo_get_set|by apply pdo_set_get|by apply pdo_get_set_other].
Qed.

Lemma pdo_cell_laws_witness :
  ecm_pdo_get (mkhandle 1 1 ECM_PDO_OUT 5 13) (ecm_pdo_set (mkhandle 1 1 ECM_PDO_OUT 5 13) [255; 0; 170] 70000)
  = 70000 mod 8192.
Proof.
  apply (pdo_cell_laws (mkhandle 1 1 ECM_PDO_OUT 5 13) (mkhandle 1 1 ECM_PDO_OUT 18 2) [255; 0; 170] 70000).
  - repeat constructor; lia.
  - lia.
  - repeat split; cbn; lia.
  - repeat split; cbn; lia.
  - left. cbn. lia.
Defined.

(** A write touches exactly the bits of its handle: the IOmap keeps its
    length and stays a list of bytes, bit [h_bit + i] takes bit [i] of the
    value, every other bit keeps its value; a read returns those bits. *)
Theorem pdo_access_exact h io v : bytes io -> 0 <= v -> handle_in h io ->
  let io' := ecm_pdo_set h io v in
  length io' = length io /\ bytes io' /\
  (forall j, 0 <= j -> iobit io' j =
     if (h_bit h <=? j) && (j <? h_bit h + h_bits h) then Z.testbit v (j - h_bit h) else iobit io j) /\
  (forall i, 0 <= i -> Z.testbit (ecm_pdo_get h io) i = (i <? h_bits h) && iobit io (h_bit h + i)).
Proof.
  intros Hb Hv Hh. destruct (pdo_set_bits h io v Hb Hv Hh) as (H1 & H2 & H3).
  split_and!; auto. intros i Hi. by apply pdo_get_bits.
Qed.

Lemma pdo_access_exact_witness :
  let h := mkhandle 1 1 ECM_PDO_OUT 3 7 in
  iobit (ecm_pdo_set h [0; 0] 127) 2 = false /\ iobit (ecm_pdo_set h [0; 0] 127) 9 = true.
Proof.
  intros h. destruct (pdo_access_exact h [0; 0] 127) as (_ & _ & H & _).
  - repeat constructor; lia.
  - lia.
  - repeat split; cbn; lia.
  - rewrite !H by lia. split; reflexivity.
Defined.

(** C31: in a table built by [ecm_pdo_add] two different objects of one slave
    bound in the same direction never share a bit, so an application write to
    one never changes the other. *)
Theorem bound_objects_separate l t loc slave ix1 sub1 ix2 sub2 h1 h2 io v :
  Forall (fun a : add_args => is_u16 a.2) l -> add_all ecm_pdo_table_init l = Some t ->
  loc_fits t loc slave -> (ix1, sub1) <> (ix2, sub2) ->
  ecm_pdo_bind t loc slave ix1 sub1 = Some h1 -> ecm_pdo_bind t loc slave ix2 sub2 = Some h2 ->
  h_dir h1 = h_dir h2 -> bytes io -> 0 <= v -> handle_in h1 io -> handle_in h2 io ->
  ecm_pdo_get h2 (ecm_pdo_set h1 io v) = ecm_pdo_get h2 io.
Proof.
  intros Hl Ht Hloc Hne B1 B2 Hd Hio Hv H1 H2. apply pdo_get_set_other; auto.
  eapply bind_disjoint; eauto. eapply add_all_wf; eauto. apply table_init_wf.
Qed.

Lemma bound_objects_separate_witness :
  let l := [(1, ECM_PDO_OUT, 5632, 24640, 0, 16); (1, ECM_PDO_OUT, 5632, 24698, 0, 32)] in
  exists t h1 h2, add_all ecm_pdo_table_init l = Some t /\
    ecm_pdo_bind t [mkloc 0 0 0; mkloc 1 8 64] 1 24640 0 = Some h1 /\
    ecm_pdo_bind t [mkloc 0 0 0; mkloc 1 8 64] 1 24698 0 = Some h2 /\
    ecm_pdo_get h2 (ecm_pdo_set h1 (replicate 8 0) 65535) = ecm_pdo_get h2 (replicate 8 0).
Proof.
  intros l. eexists _, (mkhandle 1 1 ECM_PDO_OUT 8 16), (mkhandle 1 1 ECM_PDO_OUT 24 32).
  split; [reflexivity|]. split; [reflexivity|]. split; [reflexivity|].
  eapply (bound_objects_separate l _ [mkloc 0 0 0; mkloc 1 8 64] 1 24640 0 24698 0);
    try reflexivity; try discriminate.
  - unfold l. repeat (apply Forall_cons_2; [cbn; clia|]). apply Forall_nil_2.
  - intros []; vm_compute; split; congruence.
  - repeat constructor; lia.
  - repeat split; cbn; lia.
  - repeat split; cbn; lia.
Defined.

(** [ecm_pdo_table_compare] reports no difference exactly when the two
    tables list the same entries in the same order. *)
Theorem table_compare_exact a b : ecm_pdo_table_compare a b = 0 <-> t_e a = t_e b.
Proof.
  unfold ecm_pdo_table_compare. pose proof (compare_entries_nonneg (t_e a) (t_e b)). split.
  - destruct (Nat.eqb_spec (length (t_e a)) (length (t_e b))); [|lia].
    intros H0. apply compare_zero; [done|lia].
  - intros ->. rewrite compare_refl, Nat.eqb_refl. done.
Qed.

(** [ecm_pdo_scan_required] counts the distinct bound slaves, present on
    the bus, whose vendor is not one of the project's own: 0 exactly when no
    bind needs the table scanned from the bus. *)
Theorem scan_required_count vendor n bound own :
  ecm_pdo_scan_required vendor n bound own =
  Z.of_nat (size (list_to_set (filter (needs_scan vendor own n) bound) : gset Z)).
Proof.
  unfold ecm_pdo_scan_required. rewrite scan_loop_count by done. do 2 f_equal.
  assert (E : seen_set (replicate 65 false) = ∅); [|rewrite E; set_solver].
  apply set_eq. intros x. rewrite elem_of_seen. split; [|set_solver].
  intros [Hx H]. rewrite lookup_replicate_2 in H by lia. discriminate.
Qed.
