(* ===== verification/Dc.v ===== *)
(** * Distributed clock master shift: libecmaster/core/ecm_dc.c

    The master follows the DC reference clock: unwrapping of the 32-bit DC
    time, the reply-age gate, the PI controller and the lock supervision.
    Signed 64-bit arithmetic is done in [Z] (overflow is undefined in C and
    the times involved are far below 2^63); every conversion and every
    unsigned operation is wrapped as in the source. *)
From Stdlib Require Import ZArith Lia Bool.
From stdpp Require Import base list numbers sets.
From S2P Require Import Prelude.

Definition TWO32 : Z := 4294967296.
Definition ECM_DC_GATE_RESYNC : Z := 3.
Definition ECM_DC_GATE_RESYNC_REUSE : Z := 256.

(** C's [/] and [%] truncate. *)
Definition floor_div (a b : Z) : Z :=
  let q := Z.quot a b in
  if negb (Z.rem a b =? 0) && negb (Bool.eqb (a <? 0) (b <? 0)) then q - 1 else q.

Definition pos_mod (a b : Z) : Z :=
  let r := Z.rem a b in
  if r <? 0 then r + b else r.

Definition iabs64 (v : Z) : Z := if v <? 0 then - v else v.

Record ecm_dc_cfg_t := mkdccfg {
  cycle_ns : Z; setpoint_ns : Z; kp_div : Z; ki_div : Z; max_adjust_ns : Z; lock_window_ns : Z;
  lock_samples : Z; unlock_ns : Z; gate_ns : Z; gate_reuse_ns : Z
}.
#[export] Instance ecm_dc_cfg_eta : Eta ecm_dc_cfg_t :=
  fun c => mkdccfg (cycle_ns c) (setpoint_ns c) (kp_div c) (ki_div c) (max_adjust_ns c)
             (lock_window_ns c) (lock_samples c) (unlock_ns c) (gate_ns c) (gate_reuse_ns c).

Inductive ecm_dc_state_t := ECM_DC_UNANCHORED | ECM_DC_ACQUIRE | ECM_DC_LOCKED.
#[export] Instance ecm_dc_state_eq_dec : EqDecision ecm_dc_state_t.
Proof. solve_decision. Defined.

Record ecm_dc_t := mkdc {
  cfg : ecm_dc_cfg_t; state : ecm_dc_state_t;
  prev_lo : Z; prev_host_ns : Z; ext_ns : Z; sync0_ext_ns : Z;
  integ : Z; err_ns : Z; adjust_ns : Z; win_sum : Z; win_n : Z;
  samples : Z; stale : Z; wraps : Z; clamps : Z; locks : Z; unlocks : Z;
  implausible : Z; gate_resyncs : Z; gate_reuse_held : Z; reject_run : Z; last_rejected : bool
}.
#[export] Instance ecm_dc_eta : Eta ecm_dc_t :=
  fun d => mkdc (cfg d) (state d) (prev_lo d) (prev_host_ns d) (ext_ns d) (sync0_ext_ns d)
             (integ d) (err_ns d) (adjust_ns d) (win_sum d) (win_n d)
             (samples d) (stale d) (wraps d) (clamps d) (locks d) (unlocks d)
             (implausible d) (gate_resyncs d) (gate_reuse_held d) (reject_run d) (last_rejected d).

Definition ecm_dc_default_cfg (cycle setpoint : Z) : ecm_dc_cfg_t :=
  {| cycle_ns := cycle; setpoint_ns := pos_mod setpoint cycle; kp_div := 8; ki_div := 256;
     max_adjust_ns := Z.quot cycle 20; lock_window_ns := Z.quot cycle 100; lock_samples := 100;
     unlock_ns := Z.quot cycle 20; gate_ns := 0; gate_reuse_ns := 0 |}.

Definition ecm_dc_init (c : ecm_dc_cfg_t) : ecm_dc_t :=
  mkdc c ECM_DC_UNANCHORED 0 0 0 0 0 0 0 0 0 0 0 0 0 0 0 0 0 0 0 false.

Definition ecm_dc_anchor (dc : ecm_dc_t) (dc_raw sync0_raw host_ns : Z) : ecm_dc_t :=
  let lo := u32 dc_raw in
  let s0_lo := u32 sync0_raw in
  dc <| ext_ns := lo |> <| sync0_ext_ns := lo + i32 (u32 (s0_lo - lo)) |> <| prev_lo := lo |>
     <| prev_host_ns := host_ns |> <| win_sum := 0 |> <| win_n := 0 |> <| state := ECM_DC_ACQUIRE |>.

(** Reference time elapsed since the last sample, as the host clock and the
    low 32 bits determine it; computed by both the gate and [unwrap]. *)
Definition dc_delta (dc : ecm_dc_t) (lo host_ns : Z) : Z :=
  let pred := i64 (u64 (host_ns - prev_host_ns dc)) in
  let d_lo := u32 (lo - prev_lo dc) in
  let k := floor_div (pred - d_lo + Z.quot TWO32 2) TWO32 in
  d_lo + k * TWO32.

Definition unwrap (dc : ecm_dc_t) (lo host_ns : Z) : ecm_dc_t :=
  let delta := dc_delta dc lo host_ns in
  let old := ext_ns dc in
  let ext := old + delta in
  dc <| ext_ns := ext |>
     <| wraps := u64 (wraps dc + u64 (Z.shiftr ext 32 - Z.shiftr old 32)) |>
     <| prev_lo := lo |> <| prev_host_ns := host_ns |>.

(** The reply-age gate; the flag is true when the sample is rejected. *)
Definition dc_gate (dc : ecm_dc_t) (lo host_ns : Z) : ecm_dc_t * bool :=
  let pred := i64 (u64 (host_ns - prev_host_ns dc)) in
  let smiss := dc_delta dc lo host_ns - pred in
  let miss := if smiss <? 0 then - smiss else smiss in
  let dc := dc <| last_rejected := false |> in
  if (0 <? gate_ns (cfg dc)) && (gate_ns (cfg dc) <? miss) then
    let reuse := (0 <? gate_reuse_ns (cfg dc)) && (smiss <? -2 * gate_ns (cfg dc))
                 && (miss <=? gate_reuse_ns (cfg dc)) in
    let limit := if reuse then ECM_DC_GATE_RESYNC_REUSE else ECM_DC_GATE_RESYNC in
    let dc := dc <| reject_run := u32 (reject_run dc + 1) |> in
    let dc := if reuse && (ECM_DC_GATE_RESYNC <=? reject_run dc) && (reject_run dc <? limit)
              then dc <| gate_reuse_held := u64 (gate_reuse_held dc + 1) |> else dc in
    if reject_run dc <? limit
    then (dc <| implausible := u64 (implausible dc + 1) |> <| last_rejected := true |>
             <| adjust_ns := 0 |>, true)
    else (dc <| gate_resyncs := u64 (gate_resyncs dc + 1) |> <| reject_run := 0 |>, false)
  else (dc <| reject_run := 0 |>, false).

(** Phase error against the SYNC0 grid. *)
Definition dc_phase_error (c : ecm_dc_cfg_t) (ext sync0 : Z) : Z :=
  let ph := pos_mod (ext - sync0) (cycle_ns c) in
  let e := ph - setpoint_ns c in
  let e := if Z.quot (cycle_ns c) 2 <? e then e - cycle_ns c else e in
  if e <=? Z.quot (- cycle_ns c) 2 then e + cycle_ns c else e.

(** PI controller with clamp and anti-windup: new state and output. *)
Definition dc_control (dc : ecm_dc_t) (e : Z) : ecm_dc_t * Z :=
  let c := cfg dc in
  let locked := bool_decide (state dc = ECM_DC_LOCKED) in
  let dc := if locked then dc <| integ := integ dc + e |> else dc in
  let u := - (Z.quot e (kp_div c) + Z.quot (integ dc) (ki_div c)) in
  if (max_adjust_ns c <? u) || (u <? - max_adjust_ns c) then
    let u := if 0 <? u then max_adjust_ns c else - max_adjust_ns c in
    let dc := dc <| clamps := u64 (clamps dc + 1) |> in
    (if locked then dc <| integ := integ dc - e |> else dc, u)
  else (dc, u).

(** Lock supervision on the mean of a window of samples. *)
Definition dc_supervise (dc : ecm_dc_t) (e : Z) : ecm_dc_t :=
  let c := cfg dc in
  let dc := dc <| win_sum := win_sum dc + e |> <| win_n := u32 (win_n dc + 1) |> in
  if lock_samples c <=? win_n dc then
    let mean := iabs64 (Z.quot (win_sum dc) (win_n dc)) in
    let dc :=
      match state dc with
      | ECM_DC_ACQUIRE => if mean <? lock_window_ns c
                          then dc <| state := ECM_DC_LOCKED |> <| locks := u64 (locks dc + 1) |> else dc
      | ECM_DC_LOCKED => if unlock_ns c <? mean
                         then dc <| state := ECM_DC_ACQUIRE |> <| unlocks := u64 (unlocks dc + 1) |> else dc
      | ECM_DC_UNANCHORED => dc
      end in
    dc <| win_sum := 0 |> <| win_n := 0 |>
  else dc.

(** An accepted sample: unwrap, control, supervise. *)
Definition dc_accept (dc : ecm_dc_t) (lo host_ns : Z) : ecm_dc_t * Z :=
  let dc := unwrap dc lo host_ns in
  let dc := dc <| samples := u64 (samples dc + 1) |> in
  let e := dc_phase_error (cfg dc) (ext_ns dc) (sync0_ext_ns dc) in
  let dc := dc <| err_ns := e |> in
  let '(dc, u) := dc_control dc e in
  let dc := dc_supervise dc e in
  (dc <| adjust_ns := u |>, u).

Definition ecm_dc_update (dc : ecm_dc_t) (dc_raw host_ns : Z) : ecm_dc_t * Z :=
  match state dc with
  | ECM_DC_UNANCHORED => (dc, 0)
  | _ =>
      let lo := u32 dc_raw in
      if lo =? prev_lo dc then (dc <| stale := u64 (stale dc + 1) |> <| adjust_ns := 0 |>, 0)
      else
        let '(dc, rejected) := dc_gate dc lo host_ns in
        if rejected then (dc, 0) else dc_accept dc lo host_ns
  end.

Definition ecm_dc_ref_drift_ppb (dc : ecm_dc_t) : Z :=
  Z.quot (integ dc * 1000000000) (ki_div (cfg dc) * cycle_ns (cfg dc)).

(** ** Arithmetic *)

Lemma quot_rem_facts a b : 0 < b ->
  a = b * Z.quot a b + Z.rem a b /\ (0 <= a -> 0 <= Z.rem a b < b) /\ (a < 0 -> - b < Z.rem a b <= 0).
Proof.
  intros Hb. split; [apply Z.quot_rem'|]. split; intros Ha.
  - apply Z.rem_bound_pos; lia.
  - rewrite <- (Z.opp_involutive a), Z.rem_opp_l by lia. pose proof (Z.rem_bound_pos (- a) b). lia.
Qed.

Lemma floor_div_div a b : 0 < b -> floor_div a b = a / b.
Proof.
  intros Hb. destruct (quot_rem_facts a b Hb) as (Hq & Hp & Hn). unfold floor_div.
  rewrite (proj2 (Z.ltb_ge b 0)) by lia.
  destruct (Z.ltb_spec a 0) as [Ha|Ha]; destruct (Z.eqb_spec (Z.rem a b) 0) as [E|E]; cbn.
  - apply Z.div_unique with 0; lia.
  - apply Z.div_unique with (b + Z.rem a b); lia.
  - apply Z.div_unique with 0; lia.
  - apply Z.div_unique with (Z.rem a b); lia.
Qed.

Lemma pos_mod_mod a b : 0 < b -> pos_mod a b = a mod b.
Proof.
  intros Hb. destruct (quot_rem_facts a b Hb) as (Hq & Hp & Hn). unfold pos_mod.
  destruct (Z.ltb_spec (Z.rem a b) 0), (Z.lt_ge_cases a 0); try lia.
  - apply Z.mod_unique with (Z.quot a b - 1); lia.
  - apply Z.mod_unique with (Z.quot a b); lia.
  - apply Z.mod_unique with (Z.quot a b); lia.
Qed.

(** The candidate nearest the host's prediction is the true elapsed time. *)
Lemma dc_delta_exact dc (r0 r1 host : Z) :
  is_u64 host -> is_u64 (prev_host_ns dc) -> prev_lo dc = u32 r0 ->
  let pred := host - prev_host_ns dc in
  is_i64 pred -> pred - 2147483648 < r1 - r0 <= pred + 2147483648 ->
  dc_delta dc (u32 r1) host = r1 - r0.
Proof.
  intros Hh Hp Hlo pred Hpr Hr. unfold dc_delta.
  assert (E : i64 (u64 (host - prev_host_ns dc)) = pred) by (unfold pred in *; clia).
  rewrite E, Hlo, floor_div_div by (unfold TWO32; lia).
  assert (Ed : u32 (u32 r1 - u32 r0) = (r1 - r0) mod TWO32) by (unfold u32, TWO32; rewrite <- Zminus_mod; done).
  rewrite Ed. change (Z.quot TWO32 2) with 2147483648. unfold TWO32 in *. clia.
Qed.

(** ** Field lemmas of the stages *)

Lemma control_fields dc e :
  let dc' := (dc_control dc e).1 in
  cfg dc' = cfg dc /\ state dc' = state dc /\ prev_lo dc' = prev_lo dc /\ prev_host_ns dc' = prev_host_ns dc /\
  ext_ns dc' = ext_ns dc /\ sync0_ext_ns dc' = sync0_ext_ns dc /\ err_ns dc' = err_ns dc /\
  samples dc' = samples dc /\ win_sum dc' = win_sum dc /\ win_n dc' = win_n dc /\ reject_run dc' = reject_run dc
  /\ last_rejected dc' = last_rejected dc.
Proof.
  unfold dc_control. destruct (bool_decide _); cbn; destruct (_ || _); cbn; repeat split.
Qed.

Lemma supervise_fields dc e :
  let dc' := dc_supervise dc e in
  cfg dc' = cfg dc /\ prev_lo dc' = prev_lo dc /\ prev_host_ns dc' = prev_host_ns dc /\
  ext_ns dc' = ext_ns dc /\ sync0_ext_ns dc' = sync0_ext_ns dc /\ err_ns dc' = err_ns dc /\
  samples dc' = samples dc /\ integ dc' = integ dc /\ reject_run dc' = reject_run dc /\
  last_rejected dc' = last_rejected dc /\
  (state dc' = ECM_DC_UNANCHORED <-> state dc = ECM_DC_UNANCHORED).
Proof.
  unfold dc_supervise. cbn. destruct (_ <=? _); cbn; [|repeat split; auto].
  destruct (state dc) eqn:Hs; cbn; try destruct (_ <? _); cbn; rewrite ?Hs; repeat split; auto; discriminate.
Qed.

Lemma gate_fields dc lo host :
  let dc' := (dc_gate dc lo host).1 in
  cfg dc' = cfg dc /\ state dc' = state dc /\ prev_lo dc' = prev_lo dc /\ prev_host_ns dc' = prev_host_ns dc /\
  ext_ns dc' = ext_ns dc /\ sync0_ext_ns dc' = sync0_ext_ns dc /\ err_ns dc' = err_ns dc /\
  samples dc' = samples dc /\ integ dc' = integ dc /\ win_sum dc' = win_sum dc /\ win_n dc' = win_n dc.
Proof.
  unfold dc_gate. cbn. destruct (_ && _); cbn; [|repeat split].
  repeat (match goal with |- context [if ?b then _ else _] => destruct b end; cbn); repeat split.
Qed.

Lemma gate_delta dc lo host : dc_delta (dc_gate dc lo host).1 lo host = dc_delta dc lo host.
Proof.
  destruct (gate_fields dc lo host) as (_ & _ & E1 & E2 & _). unfold dc_delta. rewrite E1, E2. done.
Qed.

Lemma accept_fields dc lo host :
  let dc' := (dc_accept dc lo host).1 in
  cfg dc' = cfg dc /\ prev_lo dc' = lo /\ prev_host_ns dc' = host /\
  ext_ns dc' = ext_ns dc + dc_delta dc lo host /\ sync0_ext_ns dc' = sync0_ext_ns dc /\
  err_ns dc' = dc_phase_error (cfg dc) (ext_ns dc') (sync0_ext_ns dc) /\
  reject_run dc' = reject_run dc /\ last_rejected dc' = last_rejected dc /\
  (state dc' = ECM_DC_UNANCHORED <-> state dc = ECM_DC_UNANCHORED) /\
  adjust_ns dc' = (dc_accept dc lo host).2.
Proof.
  unfold dc_accept. cbn zeta.
  set (d1 := (unwrap dc lo host) <| samples := _ |>).
  set (e := dc_phase_error _ _ _). set (d2 := d1 <| err_ns := e |>).
  pose proof (control_fields d2 e) as Hc. destruct (dc_control d2 e) as [d3 u].
  pose proof (supervise_fields d3 e) as Hs. cbn in Hc, Hs |- *.
  destruct Hc as (C1 & C2 & C3 & C4 & C5 & C6 & C7 & C8 & _ & _ & C11 & C12).
  destruct Hs as (S1 & S2 & S3 & S4 & S5 & S6 & S7 & _ & S9 & S10 & S11).
  rewrite S1, S2, S3, S4, S5, S6, S9, S10, S11, C1, C2, C3, C4, C5, C6, C7, C11, C12.
  cbn. repeat split; auto.
Qed.

(** The output is bounded, whatever the sample. *)
Lemma control_bound dc e : 0 <= max_adjust_ns (cfg dc) ->
  - max_adjust_ns (cfg dc) <= (dc_control dc e).2 <= max_adjust_ns (cfg dc).
Proof.
  intros Hm. unfold dc_control. destruct (bool_decide _); cbn;
    (destruct (_ || _) eqn:E; cbn; [destruct (0 <? _); lia|bprop; lia]).
Qed.

(** ** Phase error on the SYNC0 grid *)

Lemma phase_error_spec c ext sync0 k : cycle_ns c = 2 * k -> 0 < k -> 0 <= setpoint_ns c < cycle_ns c ->
  let e := dc_phase_error c ext sync0 in
  - k < e <= k /\ exists q, e = ext - sync0 - setpoint_ns c + q * cycle_ns c.
Proof.
  intros Hc Hk Hs. unfold dc_phase_error. rewrite pos_mod_mod by lia.
  assert (E1 : Z.quot (cycle_ns c) 2 = k) by (rewrite Hc, Z.mul_comm; apply Z.quot_mul; lia).
  assert (E2 : Z.quot (- cycle_ns c) 2 = - k)
    by (rewrite Hc; replace (- (2 * k)) with (- k * 2) by lia; apply Z.quot_mul; lia).
  rewrite E1, E2. pose proof (Z.mod_pos_bound (ext - sync0) (cycle_ns c) ltac:(lia)) as Hm.
  pose proof (Z.div_mod (ext - sync0) (cycle_ns c) ltac:(lia)) as Hd.
  set (ph := (ext - sync0) mod cycle_ns c) in *. set (q := (ext - sync0) / cycle_ns c) in *.
  destruct (Z.ltb_spec k (ph - setpoint_ns c)).
  - destruct (Z.leb_spec (ph - setpoint_ns c - cycle_ns c) (- k)); [lia|].
    split; [lia|]. exists (- q - 1). lia.
  - destruct (Z.leb_spec (ph - setpoint_ns c) (- k)); (split; [lia|]).
    + exists (- q + 1). lia.
    + exists (- q). lia.
Qed.

(** ** A run of samples after the anchor

    A sample is (true reference time, host time).  The two clocks may drift
    apart, by less than 2^31 ns over the run. *)

Definition dc_run (dc : ecm_dc_t) (l : list (Z * Z)) : ecm_dc_t :=
  foldl (fun d s => (ecm_dc_update d s.1 s.2).1) dc l.

Definition sample_ok (off : Z) (s : Z * Z) : Prop :=
  0 <= s.2 < 9223372036854775808 /\ off <= s.1 - s.2 < off + 2147483648.

(** The state after the run tracks one of the samples. *)
Definition tracks (c : ecm_dc_cfg_t) (base s0 : Z) (dc : ecm_dc_t) (s : Z * Z) : Prop :=
  cfg dc = c /\ state dc <> ECM_DC_UNANCHORED /\ prev_lo dc = u32 s.1 /\ prev_host_ns dc = s.2 /\
  ext_ns dc = s.1 - base /\ sync0_ext_ns dc = s0 - base.

Definition err_true (c : ecm_dc_cfg_t) (s0 : Z) (dc : ecm_dc_t) (s : Z * Z) : Prop :=
  err_ns dc = dc_phase_error c s.1 s0.

Lemma phase_error_shift c ext sync0 b : dc_phase_error c (ext - b) (sync0 - b) = dc_phase_error c ext sync0.
Proof. unfold dc_phase_error. replace (ext - b - (sync0 - b)) with (ext - sync0) by lia. done. Qed.

Lemma update_tracks c base s0 off dc s s' :
  sample_ok off s -> sample_ok off s' -> tracks c base s0 dc s ->
  let dc' := (ecm_dc_update dc s'.1 s'.2).1 in
  (tracks c base s0 dc' s /\ err_ns dc' = err_ns dc) \/ (tracks c base s0 dc' s' /\ err_true c s0 dc' s').
Proof.
  intros (Hs1 & Hs2) (Hs1' & Hs2') (T1 & T2 & T3 & T4 & T5 & T6). unfold ecm_dc_update.
  destruct (state dc) eqn:Hst; [done| |];
  (destruct (Z.eqb_spec (u32 s'.1) (prev_lo dc)) as [E|E]; cbn;
   [left; split; [|done]; unfold tracks; cbn; rewrite Hst; repeat split; auto|]);
  pose proof (gate_fields dc (u32 s'.1) s'.2) as Hg; pose proof (gate_delta dc (u32 s'.1) s'.2) as Hd;
  destruct (dc_gate dc (u32 s'.1) s'.2) as [dg rej]; cbn in Hg, Hd;
  destruct Hg as (G1 & G2 & G3 & G4 & G5 & G6 & G7 & _);
  (destruct rej; cbn; [left; unfold tracks; rewrite G1, G2, G3, G4, G5, G6, Hst; repeat split; auto|]);
  destruct (accept_fields dg (u32 s'.1) s'.2) as (A1 & A2 & A3 & A4 & A5 & A6 & _ & _ & A9 & _);
  (assert (Hdel : dc_delta dg (u32 s'.1) s'.2 = s'.1 - s.1);
   [rewrite Hd; apply dc_delta_exact; unfold is_u64, is_i64; rewrite ?T4; try done; lia|]);
  right; unfold tracks, err_true; rewrite A6, A4, A5, A1, A2, A3, Hdel, G1, G5, G6, T1, T5, T6;
  (assert (Ex : s.1 - base + (s'.1 - s.1) = s'.1 - base) by lia); rewrite Ex, phase_error_shift;
  repeat split; auto; rewrite A9, G2, Hst; discriminate.
Qed.

(** What is known after a run that started on the anchor sample [s]. *)
Definition run_inv (c : ecm_dc_cfg_t) (base s0 : Z) (s : Z * Z) (l : list (Z * Z)) (dc : ecm_dc_t) : Prop :=
  exists s', s' ∈ s :: l /\ tracks c base s0 dc s' /\ (s' = s \/ err_true c s0 dc s').

Lemma run_tracks c base s0 off dc s l : sample_ok off s -> Forall (sample_ok off) l ->
  tracks c base s0 dc s -> run_inv c base s0 s l (dc_run dc l).
Proof.
  intros Hs Hl Ht. unfold run_inv. induction l as [|x l IH] using rev_ind.
  - exists s. split_and!; [set_solver|done|auto].
  - apply Forall_app in Hl as [Hl Hx]. rewrite Forall_singleton in Hx.
    destruct (IH Hl) as (s' & Hin & Ht' & He). unfold dc_run. rewrite foldl_app. cbn.
    fold (dc_run dc l).
    assert (Hs' : sample_ok off s').
    { exact (proj1 (Forall_forall (sample_ok off) (s :: l)) ltac:(by constructor) s' (proj1 (list_elem_of_In _ _) Hin)). }
    destruct (update_tracks c base s0 off (dc_run dc l) s' x Hs' Hx Ht') as [[T1 E1]|[T1 E1]].
    + exists s'. split_and!; [set_solver|done|]. destruct He as [->|He]; [auto|right].
      unfold err_true in *. rewrite E1. done.
    + exists x. split_and!; [set_solver|done|auto].
Qed.

Lemma anchor_tracks dc r0 s0 h0 : - 2147483648 <= s0 - r0 < 2147483648 -> is_u64 h0 ->
  tracks (cfg dc) (r0 - u32 r0) s0 (ecm_dc_anchor dc r0 s0 h0) (r0, h0).
Proof.
  intros Hd Hh. unfold tracks, ecm_dc_anchor. cbn. repeat split; auto; try discriminate; [lia|].
  assert (E : i32 (u32 (u32 s0 - u32 r0)) = s0 - r0); [|lia].
  assert (E2 : u32 (u32 s0 - u32 r0) = (s0 - r0) mod 4294967296) by (unfold u32; rewrite <- Zminus_mod; done).
  rewrite E2. clia.
Qed.

(** A sample that moved and passes the gate is taken. *)
Lemma update_taken c base s0 off dc s s' :
  sample_ok off s -> sample_ok off s' -> tracks c base s0 dc s -> u32 s'.1 <> u32 s.1 ->
  (dc_gate dc (u32 s'.1) s'.2).2 = false ->
  let dc' := (ecm_dc_update dc s'.1 s'.2).1 in
  tracks c base s0 dc' s' /\ err_true c s0 dc' s'.
Proof.
  intros Hs Hs' Ht Hm Hg. pose proof (update_tracks c base s0 off dc s s' Hs Hs' Ht) as H.
  cbn in H. destruct H as [[T _]|H]; [exfalso|exact H].
  destruct Ht as (_ & T2 & T3 & _). destruct T as (_ & _ & P & _).
  unfold ecm_dc_update in P. destruct (state dc) eqn:Hst; [done| |];
    (destruct (Z.eqb_spec (u32 s'.1) (prev_lo dc)); [congruence|]);
    destruct (dc_gate dc (u32 s'.1) s'.2) as [dg rej]; cbn in Hg; subst rej;
    destruct (accept_fields dg (u32 s'.1) s'.2) as (_ & A2 & _); congruence.
Qed.

Lemma gate_off dc lo host : gate_ns (cfg dc) <= 0 -> (dc_gate dc lo host).2 = false.
Proof. intros H. unfold dc_gate. cbn. rewrite (proj2 (Z.ltb_ge 0 (gate_ns (cfg dc))) H). done. Qed.

(** Consecutive samples have different low words. *)
Fixpoint lo_moves (s : Z * Z) (l : list (Z * Z)) : Prop :=
  match l with
  | [] => True
  | x :: l => u32 x.1 <> u32 s.1 /\ lo_moves x l
  end.

Definition final_sample (s : Z * Z) (l : list (Z * Z)) : Z * Z := foldl (fun _ x => x) s l.

Lemma run_tracks_last c base s0 off dc s l : gate_ns c <= 0 -> sample_ok off s ->
  Forall (sample_ok off) l -> lo_moves s l -> tracks c base s0 dc s ->
  tracks c base s0 (dc_run dc l) (final_sample s l) /\ (l <> [] -> err_true c s0 (dc_run dc l) (final_sample s l)).
Proof.
  intros Hg Hs Hl. revert dc s Hs. induction Hl as [|x l Hx Hl IH]; intros dc s Hs Hm Ht; [done|].
  destruct Hm as [Hne Hm].
  destruct (update_taken c base s0 off dc s x Hs Hx Ht Hne) as [T E].
  { apply gate_off. destruct Ht as (-> & _). done. }
  specialize (IH _ x Hx Hm T). cbn. destruct IH as [I1 I2]. split; [exact I1|]. intros _.
  destruct l as [|y l]; [exact E|]. apply I2. discriminate.
Qed.

(** ** The gate rejects only so many samples in a row *)

Definition rejects (dc : ecm_dc_t) (s : Z * Z) : bool :=
  negb (bool_decide (state dc = ECM_DC_UNANCHORED)) && negb (u32 s.1 =? prev_lo dc)
  && (dc_gate dc (u32 s.1) s.2).2.

Fixpoint all_rejected (dc : ecm_dc_t) (l : list (Z * Z)) : bool :=
  match l with
  | [] => true
  | s :: l => rejects dc s && all_rejected (ecm_dc_update dc s.1 s.2).1 l
  end.

(** What the clock and the controller are made of. *)
Definition clock_state (dc : ecm_dc_t) : ecm_dc_state_t * (Z * Z * Z * Z) * (Z * Z * Z * Z) :=
  (state dc, (prev_lo dc, prev_host_ns dc, ext_ns dc, sync0_ext_ns dc),
   (integ dc, err_ns dc, win_sum dc, win_n dc)).

Definition gate_limit (c : ecm_dc_cfg_t) : Z := if 0 <? gate_reuse_ns c then 256 else 3.

Lemma gate_reject dc lo host : 0 <= reject_run dc < 256 -> (dc_gate dc lo host).2 = true ->
  let dc' := (dc_gate dc lo host).1 in
  reject_run dc' = reject_run dc + 1 /\ reject_run dc' < gate_limit (cfg dc) /\
  clock_state dc' = clock_state dc /\ cfg dc' = cfg dc /\ last_rejected dc' = true /\ adjust_ns dc' = 0.
Proof.
  intros Hr. destruct (gate_fields dc lo host) as (G1 & G2 & G3 & G4 & G5 & G6 & G7 & _ & G9 & G10 & G11).
  unfold clock_state. rewrite G1, G2, G3, G4, G5, G6, G7, G9, G10, G11. clear G1 G2 G3 G4 G5 G6 G7 G9 G10 G11.
  unfold dc_gate, gate_limit, ECM_DC_GATE_RESYNC, ECM_DC_GATE_RESYNC_REUSE. cbn.
  assert (E : u32 (reject_run dc + 1) = reject_run dc + 1) by (apply Z.mod_small; lia).
  destruct (0 <? gate_ns (cfg dc)); cbn; [|discriminate].
  match goal with |- context [gate_ns (cfg dc) <? ?m] => destruct (gate_ns (cfg dc) <? m) end;
    cbn; [|discriminate].
  destruct (0 <? gate_reuse_ns (cfg dc)); cbn;
    [match goal with |- context [?a && ?b && (3 <=? _)] => destruct (a && b) end|]; cbn; rewrite ?E;
    repeat (match goal with |- context [if ?b then _ else _] => destruct b eqn:? end; cbn in *; rewrite ?E in *);
    bprop; try discriminate; intros _; repeat split; lia.
Qed.

Lemma all_rejected_inv l dc : 0 <= reject_run dc < 256 -> all_rejected dc l = true ->
  clock_state (dc_run dc l) = clock_state dc /\
  reject_run (dc_run dc l) = reject_run dc + Z.of_nat (length l) /\
  (l <> [] -> reject_run (dc_run dc l) < gate_limit (cfg dc)).
Proof.
  revert dc. induction l as [|s l IH]; intros dc Hr Ha; cbn in *; [split_and!; [done|lia|done]|].
  apply andb_true_iff in Ha as [Hs Ha]. unfold rejects in Hs. bprop.
  assert (Hu : (ecm_dc_update dc s.1 s.2).1 = (dc_gate dc (u32 s.1) s.2).1).
  { unfold ecm_dc_update. destruct (state dc) eqn:Hst;
      [exfalso; match goal with H : bool_decide _ = false |- _ => apply bool_decide_eq_false in H; done end| |];
      (destruct (Z.eqb_spec (u32 s.1) (prev_lo dc)); [done|]);
      destruct (dc_gate dc (u32 s.1) s.2) as [dg rej]; cbn in *; subst rej; done. }
  destruct (gate_reject dc (u32 s.1) s.2 Hr) as (R1 & R2 & R3 & R4 & _); [done|].
  rewrite Hu in *. assert (Hlim : gate_limit (cfg dc) <= 256) by (unfold gate_limit; destruct (0 <? _); lia).
  destruct (IH (dc_gate dc (u32 s.1) s.2).1) as (I1 & I2 & I3); [lia|exact Ha|].
  fold (dc_run (dc_gate dc (u32 s.1) s.2).1 l).
  rewrite I1, I2, R3, R1. split_and!; [done|lia|]. intros _.
  destruct l as [|y l]; [cbn; lia|]. rewrite R4 in I3. rewrite I2, R1 in I3. apply I3. discriminate.
Qed.

(** ** Closed loop

    The next frame leaves one cycle plus the commanded adjustment later, on
    both clocks (no drift): what the master's shift does to its own send
    times. *)
Definition loop_step (x : ecm_dc_t * (Z * Z)) : ecm_dc_t * (Z * Z) :=
  let '(dc, (r, h)) := x in
  let u := adjust_ns dc in
  let r := r + cycle_ns (cfg dc) + u in
  let h := h + cycle_ns (cfg dc) + u in
  ((ecm_dc_update dc r h).1, (r, h)).

Lemma phase_error_unique c ext sync0 k e : cycle_ns c = 2 * k -> 0 < k -> 0 <= setpoint_ns c < cycle_ns c ->
  - k < e <= k -> (exists q, e = ext - sync0 - setpoint_ns c + q * cycle_ns c) ->
  dc_phase_error c ext sync0 = e.
Proof.
  intros Hc Hk Hs He [q Hq]. destruct (phase_error_spec c ext sync0 k Hc Hk Hs) as [Hr [q' Hq']].
  assert (dc_phase_error c ext sync0 - e = (q' - q) * (2 * k)) by lia.
  assert (q' = q) by nia. subst. lia.
Qed.

(** Proportional output of the ACQUIRE state. *)
Definition p_output (c : ecm_dc_cfg_t) (e : Z) : Z :=
  Z.max (- max_adjust_ns c) (Z.min (max_adjust_ns c) (- Z.quot e (kp_div c))).

Lemma control_acquire dc e : state dc = ECM_DC_ACQUIRE -> integ dc = 0 -> 0 <= max_adjust_ns (cfg dc) ->
  ki_div (cfg dc) <> 0 ->
  (dc_control dc e).2 = p_output (cfg dc) e /\ integ (dc_control dc e).1 = 0.
Proof.
  intros Hs Hi Hm Hk. unfold dc_control, p_output. rewrite Hs, bool_decide_false by discriminate. cbn.
  rewrite Hi, Z.quot_0_l, Z.add_0_r by done.
  destruct (_ || _) eqn:E; cbn.
  - split; [|done]. apply orb_true_iff in E as [E|E]; bprop; destruct (Z.ltb_spec 0 (- Z.quot e (kp_div (cfg dc)))); lia.
  - bprop. split; [lia|done].
Qed.

Lemma update_acquire dc r h : state dc = ECM_DC_ACQUIRE -> integ dc = 0 -> 0 <= max_adjust_ns (cfg dc) ->
  ki_div (cfg dc) <> 0 -> u32 r <> prev_lo dc -> (dc_gate dc (u32 r) h).2 = false ->
  let dc' := (ecm_dc_update dc r h).1 in
  adjust_ns dc' = p_output (cfg dc) (err_ns dc') /\ integ dc' = 0.
Proof.
  intros Hs Hi Hm Hk Hne Hg. unfold ecm_dc_update. rewrite Hs.
  rewrite (proj2 (Z.eqb_neq _ _) Hne).
  pose proof (gate_fields dc (u32 r) h) as (G1 & G2 & _ & _ & _ & _ & _ & _ & G9 & _).
  destruct (dc_gate dc (u32 r) h) as [dg rej]. cbn in *. subst rej.
  unfold dc_accept. cbn zeta.
  match goal with |- context [dc_control ?d ?e] => set (d2 := d); set (e2 := e) end.
  destruct (control_acquire d2 e2) as [C1 C2]; try (cbn; rewrite ?G1, ?G2, ?G9; done).
  pose proof (control_fields d2 e2) as (_ & _ & _ & _ & _ & _ & C7 & _).
  destruct (dc_control d2 e2) as [d3 u]. cbn in C1, C2, C7.
  destruct (supervise_fields d3 e2) as (_ & _ & _ & _ & _ & S6 & _ & S8 & _). cbn.
  rewrite S6, S8, C1, C2, C7. cbn. rewrite <- G1. split; reflexivity.
Qed.

(** Both clocks agree on the elapsed time: the gate lets the sample pass. *)
Lemma gate_exact dc lo host : dc_delta dc lo host = i64 (u64 (host - prev_host_ns dc)) ->
  (dc_gate dc lo host).2 = false.
Proof.
  intros E. unfold dc_gate. rewrite E, Z.sub_diag. cbn.
  destruct (Z.ltb_spec 0 (gate_ns (cfg dc))); [|done]. cbn.
  rewrite (proj2 (Z.ltb_ge (gate_ns (cfg dc)) 0)) by lia. done.
Qed.

(** Moving by the output shrinks the error, without changing its sign. *)
Lemma p_output_shrinks c e : 0 < kp_div c -> 0 < max_adjust_ns c ->
  let e' := e + p_output c e in
  (0 <= e -> 0 <= e' <= e) /\ (e <= 0 -> e <= e' <= 0) /\
  Z.abs e' <= Z.max (kp_div c - 1) (Z.abs e - 1).
Proof.
  intros Hk Hm e'. unfold e', p_output.
  assert (Hq : (0 <= e -> 0 <= Z.quot e (kp_div c) <= e) /\ (e <= 0 -> e <= Z.quot e (kp_div c) <= 0) /\
               (kp_div c <= Z.abs e -> Z.quot e (kp_div c) <> 0)).
  { pose proof (quot_rem_facts e (kp_div c) Hk) as (Q1 & Q2 & Q3). split_and!; intros.
    - split; [apply Z.quot_pos; lia|]. apply Z.quot_le_upper_bound; nia.
    - destruct (Z.eq_dec e 0) as [->|]; [rewrite Z.quot_0_l; lia|]. nia.
    - intros E. rewrite E in Q1. lia. }
  lia.
Qed.

(** The invariant of the closed loop while acquiring. *)
Definition loop_inv (c : ecm_dc_cfg_t) (base s0 off : Z) (x : ecm_dc_t * (Z * Z)) : Prop :=
  tracks c base s0 x.1 x.2 /\ err_true c s0 x.1 x.2 /\ integ x.1 = 0 /\
  adjust_ns x.1 = p_output c (err_ns x.1) /\ x.2.1 - x.2.2 = off.

Section Loop.
Context (c : ecm_dc_cfg_t) (base s0 off k : Z).
Hypothesis (Hc : cycle_ns c = 2 * k) (Hk : 0 < k < 1000000000).
Hypothesis (Hsp : 0 <= setpoint_ns c < cycle_ns c).
Hypothesis (Hkp : 0 < kp_div c) (Hki : ki_div c <> 0) (Hmax : 0 < max_adjust_ns c < cycle_ns c).

Lemma loop_step_inv x : loop_inv c base s0 off x -> state x.1 = ECM_DC_ACQUIRE ->
  0 <= x.2.2 -> x.2.2 + 4 * k < 9223372036854775808 ->
  let x' := loop_step x in
  loop_inv c base s0 off x' /\ err_ns x'.1 = err_ns x.1 + p_output c (err_ns x.1) /\
  x.2.2 < x'.2.2 <= x.2.2 + 4 * k.
Proof.
  destruct x as [dc [r h]]. intros (Ht & He & Hi & Ha & Ho) Hs H0 Hov. cbn in Hs, H0, Hov, Ho.
  destruct (phase_error_spec c r s0 k Hc ltac:(lia) Hsp) as [Hrange [q Hq]].
  unfold err_true in He. cbn in He. cbn in Ha, Hi. rewrite <- He in Hrange, Hq.
  pose proof (p_output_shrinks c (err_ns dc) Hkp ltac:(lia)) as (S1 & S2 & _). cbv zeta in S1, S2.
  assert (Hu : - max_adjust_ns c <= p_output c (err_ns dc) <= max_adjust_ns c) by (unfold p_output; lia).
  pose proof Ht as (T1 & T2 & T3 & T4 & T5 & T6). cbn in T1, T2, T3, T4, T5, T6.
  unfold loop_step. rewrite T1, Ha. cbn.
  set (u := p_output c (err_ns dc)) in *. set (r' := r + cycle_ns c + u). set (h' := h + cycle_ns c + u).
  assert (Hok : sample_ok off (r, h)) by (split; cbn; lia).
  assert (Hok' : sample_ok off (r', h')) by (split; cbn; unfold r', h'; lia).
  assert (Hmove : u32 r' <> u32 r).
  { unfold u32, r'. intros E. destruct (mod_add_cancel _ _ 4294967296 ltac:(lia) E) as [q' Hq']. lia. }
  assert (Hg : (dc_gate dc (u32 r') h').2 = false).
  { apply gate_exact. rewrite (dc_delta_exact dc r r' h'); rewrite ?T4; auto;
      unfold is_u64, is_i64, r', h'; try lia. clia. }
  destruct (update_taken c base s0 off dc (r, h) (r', h') Hok Hok' Ht Hmove Hg) as [Ht' He'].
  destruct (update_acquire dc r' h') as [Hadj Hint]; rewrite ?T1, ?T3; auto; try lia.
  cbn in Ht', He'. split_and!; cbn; auto.
  - unfold loop_inv. cbn. rewrite T1 in Hadj. split_and!; auto. unfold r', h'. lia.
  - rewrite He'. apply (phase_error_unique c r' s0 k); auto; try lia.
    exists (q - 1). unfold r'. lia.
  - unfold h'. lia.
  - unfold h'. lia.
Qed.

(** [n] closed-loop cycles; [acquiring n x]: all of them start in ACQUIRE. *)
Fixpoint loop_n (n : nat) (x : ecm_dc_t * (Z * Z)) : ecm_dc_t * (Z * Z) :=
  match n with O => x | S n => loop_n n (loop_step x) end.
Fixpoint acquiring (n : nat) (x : ecm_dc_t * (Z * Z)) : Prop :=
  match n with O => True | S n => state x.1 = ECM_DC_ACQUIRE /\ acquiring n (loop_step x) end.

(** Between [e] and zero, on the side of [e]. *)
Definition shrunk (e e' : Z) : Prop := (0 <= e -> 0 <= e' <= e) /\ (e <= 0 -> e <= e' <= 0).
Lemma loop_n_converges n x : loop_inv c base s0 off x -> acquiring n x ->
  0 <= x.2.2 -> x.2.2 + 4 * k * Z.of_nat (S n) < 9223372036854775808 ->
  loop_inv c base s0 off (loop_n n x) /\
  Z.abs (err_ns (loop_n n x).1) <= Z.max (kp_div c - 1) (Z.abs (err_ns x.1) - Z.of_nat n) /\
  forall m, (m <= n)%nat -> shrunk (err_ns (loop_n m x).1) (err_ns (loop_n n x).1).
Proof.
  revert x. induction n as [|n IH]; intros x Hx Ha H0 Hov.
  { cbn. split_and!; [done|lia|]. intros m Hm. replace m with 0%nat by lia. unfold shrunk. cbn. lia. }
  destruct Ha as [Hs Ha]. cbn [loop_n].
  destruct (loop_step_inv x Hx Hs H0 ltac:(lia)) as (Hx' & He & Hh).
  pose proof (p_output_shrinks c (err_ns x.1) Hkp ltac:(lia)) as (S1 & S2 & S3). cbv zeta in S1, S2, S3.
  rewrite <- He in S1, S2, S3.
  destruct (IH (loop_step x) Hx' Ha ltac:(lia) ltac:(lia)) as (I1 & I2 & I3). split_and!; [done|lia|].
  intros [|m] Hm; [|apply (I3 m); lia]. specialize (I3 0%nat ltac:(lia)). unfold shrunk in *. cbn [loop_n] in *. lia.
Qed.
End Loop.

(** ** Claims *)

(** With the gate off, after any run of moving samples the controller's
    clock and phase error are those of the last sample's true reference time
    against the true SYNC0 grid: the 32-bit wraps of the DC time cause no
    jump, as long as the two clocks drift by less than 2^31 ns.  The error
    lies in (-cycle/2, cycle/2] (even cycle) and is congruent to
    time - SYNC0 - setpoint modulo the cycle. *)
Theorem dc_error_true c k off r0 s0 h0 x l : gate_ns c <= 0 ->
  cycle_ns c = 2 * k -> 0 < k -> 0 <= setpoint_ns c < cycle_ns c ->
  - 2147483648 <= s0 - r0 < 2147483648 ->
  Forall (sample_ok off) ((r0, h0) :: x :: l) -> lo_moves (r0, h0) (x :: l) ->
  let dc := dc_run (ecm_dc_anchor (ecm_dc_init c) r0 s0 h0) (x :: l) in
  let r := (final_sample x l).1 in
  ext_ns dc = r - (r0 - u32 r0) /\ - k < err_ns dc <= k /\
  exists q, err_ns dc = r - s0 - setpoint_ns c + q * cycle_ns c.
Proof.
  intros Hg Hc Hk Hs Hd Hf Hm dc r. inversion_clear Hf as [|? ? Hf0 Hfl].
  assert (Ht : tracks c (r0 - u32 r0) s0 (ecm_dc_anchor (ecm_dc_init c) r0 s0 h0) (r0, h0)).
  { apply anchor_tracks; [lia|]. destruct Hf0 as [H _]. cbn in H. unfold is_u64. lia. }
  destruct (run_tracks_last c (r0 - u32 r0) s0 off _ (r0, h0) (x :: l) Hg Hf0 Hfl Hm Ht) as [T E].
  specialize (E ltac:(discriminate)). destruct T as (_ & _ & _ & _ & T5 & _).
  change (final_sample (r0, h0) (x :: l)) with (final_sample x l) in *.
  split; [exact T5|]. unfold err_true in E. unfold dc. rewrite E.
  exact (phase_error_spec c _ s0 k Hc Hk Hs).
Qed.

Lemma dc_error_true_witness :
  let c := ecm_dc_default_cfg 1000000 250000 in
  let dc := dc_run (ecm_dc_anchor (ecm_dc_init c) 4294000000 4294500000 1000)
              [(4295000100, 1001000); (4296000300, 2001000)] in
  err_ns dc = 250300 /\ - 500000 < err_ns dc <= 500000.
Proof.
  intros c dc.
  assert (Hf : Forall (sample_ok 4293998900) [(4294000000, 1000); (4295000100, 1001000); (4296000300, 2001000)])
    by (repeat (apply Forall_cons_2; [unfold sample_ok; cbn [fst snd]; lia|]); apply Forall_nil_2).
  assert (Hm : lo_moves (4294000000, 1000) [(4295000100, 1001000); (4296000300, 2001000)])
    by (cbn [lo_moves fst]; repeat split; vm_compute; discriminate).
  destruct (dc_error_true c 500000 4293998900 4294000000 4294500000 1000 (4295000100, 1001000)
              [(4296000300, 2001000)] ltac:(vm_compute; discriminate) eq_refl ltac:(lia)
              ltac:(vm_compute; split; congruence) ltac:(lia) Hf Hm) as (_ & H & _).
  split; [vm_compute; reflexivity|exact H].
Defined.

(** The adjustment an update returns never exceeds the configured clamp,
    a lost or rejected sample gives 0, and the integrator only moves in the
    LOCKED state and not when the output is clamped. *)
Theorem dc_output_bounded dc raw host : 0 <= max_adjust_ns (cfg dc) ->
  let '(dc', u) := ecm_dc_update dc raw host in
  - max_adjust_ns (cfg dc) <= u <= max_adjust_ns (cfg dc) /\
  (integ dc' = integ dc \/
   (state dc = ECM_DC_LOCKED /\ integ dc' = integ dc + err_ns dc' /\
    u = - (Z.quot (err_ns dc') (kp_div (cfg dc)) + Z.quot (integ dc') (ki_div (cfg dc))))).
Proof.
  intros Hm. unfold ecm_dc_update. destruct (state dc) eqn:Hs; [split; [lia|auto]| |];
  (destruct (u32 raw =? prev_lo dc); [cbn; split; [lia|auto]|]);
  pose proof (gate_fields dc (u32 raw) host) as (G1 & G2 & _ & _ & _ & _ & _ & _ & G9 & _);
  destruct (dc_gate dc (u32 raw) host) as [dg rej]; cbn in G1, G2, G9;
  (destruct rej; [split; [lia|auto]|]);
  unfold dc_accept; cbn zeta;
  match goal with |- context [dc_control ?d ?e] => set (d2 := d); set (e2 := e) end;
  pose proof (control_bound d2 e2) as Hb;
  assert (Hcd : integ (dc_control d2 e2).1 = integ d2 \/
    (state d2 = ECM_DC_LOCKED /\ integ (dc_control d2 e2).1 = integ d2 + e2 /\
     (dc_control d2 e2).2 = - (Z.quot e2 (kp_div (cfg d2)) + Z.quot (integ d2 + e2) (ki_div (cfg d2)))))
    by (unfold dc_control; destruct (bool_decide_reflect (state d2 = ECM_DC_LOCKED)); cbn;
        destruct (_ || _); cbn; [left; lia|auto..]);
  pose proof (control_fields d2 e2) as (_ & _ & _ & _ & _ & _ & C7 & _);
  destruct (dc_control d2 e2) as [d3 u]; cbn in C7, Hb, Hcd;
  destruct (supervise_fields d3 e2) as (_ & _ & _ & _ & _ & S6 & _ & S8 & _); cbn;
  rewrite S6, S8, C7; rewrite G1, G9, ?G2, Hs in *; (split; [apply Hb; lia|]);
  (destruct Hcd as [->|(H1 & -> & ->)]; [auto|]); try discriminate; right; repeat split; auto;
  unfold e2; cbn; rewrite ?G1; done.
Qed.

Lemma dc_output_bounded_witness :
  let dc := ecm_dc_anchor (ecm_dc_init (ecm_dc_default_cfg 1000000 0)) 0 0 0 in
  - 50000 <= (ecm_dc_update dc 1400000 1000000).2 <= 50000.
Proof.
  intros dc. pose proof (dc_output_bounded dc 1400000 1000000 ltac:(vm_compute; discriminate)) as H.
  destruct (ecm_dc_update dc 1400000 1000000) as [d u]. apply H.
Defined.

(** The reply-age gate cannot lock the master out: at most 255 samples in
    a row are rejected (2 without the reuse window), and a rejected sample
    changes neither the clock estimate nor the controller. *)
Theorem dc_gate_bounded dc l : 0 <= reject_run dc < 256 -> all_rejected dc l = true ->
  clock_state (dc_run dc l) = clock_state dc /\
  Z.of_nat (length l) <= Z.max 0 (gate_limit (cfg dc) - 1 - reject_run dc).
Proof.
  intros Hr Ha. destruct (all_rejected_inv l dc Hr Ha) as (H1 & H2 & H3). split; [done|].
  destruct l as [|s l]; [cbn; lia|]. specialize (H3 ltac:(discriminate)). lia.
Qed.

Lemma dc_gate_bounded_witness :
  let c := (ecm_dc_default_cfg 1000000 0) <| gate_ns := 1000000 |> in
  let dc := ecm_dc_anchor (ecm_dc_init c) 50000000 0 50000000 in
  let l := [(46000000, 51000000); (47000000, 52000000)] in
  all_rejected dc l = true /\ clock_state (dc_run dc l) = clock_state dc.
Proof.
  intros c dc l. split; [reflexivity|]. apply dc_gate_bounded; [vm_compute; split; congruence|reflexivity].
Defined.

(** The lock state only changes at the end of a window of [lock_samples]
    samples: ACQUIRE -> LOCKED when the mean error is inside the lock window,
    LOCKED -> ACQUIRE when it is above the unlock limit. *)
Theorem dc_lock_hysteresis dc e :
  let dc' := dc_supervise dc e in
  let n := u32 (win_n dc + 1) in
  let mean := iabs64 (Z.quot (win_sum dc + e) n) in
  let full := lock_samples (cfg dc) <=? n in
  state dc' = match state dc with
              | ECM_DC_ACQUIRE => if full && (mean <? lock_window_ns (cfg dc)) then ECM_DC_LOCKED else ECM_DC_ACQUIRE
              | ECM_DC_LOCKED => if full && (unlock_ns (cfg dc) <? mean) then ECM_DC_ACQUIRE else ECM_DC_LOCKED
              | ECM_DC_UNANCHORED => ECM_DC_UNANCHORED
              end /\
  (win_n dc', win_sum dc') = if full then (0, 0) else (n, win_sum dc + e).
Proof.
  unfold dc_supervise. cbn. destruct (lock_samples (cfg dc) <=? u32 (win_n dc + 1)); cbn.
  - destruct (state dc) eqn:Hs; cbn; try destruct (_ <? _); cbn; rewrite ?Hs; done.
  - destruct (state dc); done.
Qed.

(** C32: acquisition converges in an ideal closed loop: every frame leaves one
    cycle plus the commanded adjustment after the last one, on the master's and on the reference
    clock alike (no drift, no lost sample).  While the controller
    stays in ACQUIRE with a zero integrator, for an even cycle below 2 s, an adjustment limit below
    the cycle and times below 2^63 ns,
    the error never grows and never changes sign from any cycle to any later one, and after
    [n] cycles its size is at most the larger of [kp_div - 1] and its start value minus [n]. *)
Theorem dc_acquire_converges c base s0 off k n x :
  cycle_ns c = 2 * k -> 0 < k < 1000000000 -> 0 <= setpoint_ns c < cycle_ns c ->
  0 < kp_div c -> ki_div c <> 0 -> 0 < max_adjust_ns c < cycle_ns c ->
  loop_inv c base s0 off x -> acquiring n x ->
  0 <= x.2.2 -> x.2.2 + 4 * k * Z.of_nat (S n) < 9223372036854775808 ->
  Z.abs (err_ns (loop_n n x).1) <= Z.max (kp_div c - 1) (Z.abs (err_ns x.1) - Z.of_nat n) /\
  forall m, (m <= n)%nat -> let e := err_ns (loop_n m x).1 in let e' := err_ns (loop_n n x).1 in
    (0 <= e -> 0 <= e' <= e) /\ (e <= 0 -> e <= e' <= 0).
Proof. intros. eapply loop_n_converges; eauto. Qed.

(** The first accepted sample after the anchor, then 20 closed-loop cycles. *)
Lemma dc_acquire_converges_witness :
  let c := ecm_dc_default_cfg 1000000 0 in
  let dc := (ecm_dc_update (ecm_dc_anchor (ecm_dc_init c) 0 0 0) 1000020 1000000).1 in
  Z.abs (err_ns (loop_n 15 (dc, (1000020, 1000000))).1) <= 7.
Proof.
  intros c dc.
  pose proof (dc_acquire_converges c 0 0 20 500000 15 (dc, (1000020, 1000000))) as H.
  assert (E : Z.max (kp_div c - 1) (Z.abs (err_ns (dc, (1000020, 1000000)).1) - Z.of_nat 15) = 7) by reflexivity.
  rewrite <- E. destruct H as [H _]; [..|exact H]; try reflexivity; try (vm_compute; repeat split; congruence).
Defined.

(** On an odd cycle the two corrections of the error undo each other and the
    documented range (-cycle/2, cycle/2] is left. *)
Lemma dc_error_odd_cycle :
  dc_phase_error ((ecm_dc_default_cfg 8 0) <| cycle_ns := 7 |>) 4 0 = 4 /\ 2 * 4 > 7.
Proof. split; reflexivity. Qed.
