(* ===== verification/Xchg.v ===== *)
(** * Application / RT exchange: libecmaster/xchg/ecm_xchg.c

    Module [Xring]: the 32-byte element ring with a capacity chosen at
    initialisation (polymorphic here: the source copies the four words of a
    command or of a setpoint).  Module [Xst]: the seqlock record, as a
    function of the writer and as an interleaving of writer and reader.
    Then the exchange itself: commands, setpoints keyed by tick, state. *)
From Stdlib Require Import ZArith Lia Bool.
From S2P Require Import Prelude Ring Pdo.
From stdpp Require Import base list numbers sets.
Open Scope Z_scope.

Definition ECM_XRING_CAP : Z := 512.
Definition ECM_XCHG_CMD_CAP : Z := 256.
Definition ECM_XCHG_MAX_SLOTS : Z := 32.
Definition ECM_XCHG_CMD_PER_TICK : Z := 8.
Definition ECM_XCHG_SP_SKIP_MAX : Z := 16.

Module Xring.

Record ecm_xring_t (E : Type) := mkxring {
  x_buf : list E; x_mask : Z; x_head : Z; x_tail : Z; x_full_drops : Z
}.
Arguments mkxring {E}.
Arguments x_buf {E}.
Arguments x_mask {E}.
Arguments x_head {E}.
Arguments x_tail {E}.
Arguments x_full_drops {E}.
#[export] Instance ecm_xring_eta E : Eta (ecm_xring_t E) :=
  fun r => mkxring (x_buf r) (x_mask r) (x_head r) (x_tail r) (x_full_drops r).

Section Ops.
Context {E : Type} `{!Inhabited E}.

Definition ecm_xring_init (cap : Z) : ecm_xring_t E :=
  let cap := if (cap =? 0) || (ECM_XRING_CAP <? cap) || negb (Z.land cap (cap - 1) =? 0)
             then ECM_XRING_CAP else cap in
  mkxring (replicate 512 inhabitant) (cap - 1) 0 0 0.

Definition ecm_xring_push (r : ecm_xring_t E) (e : E) : ecm_xring_t E * bool :=
  let head := x_head r in
  let tail := x_tail r in
  if x_mask r <? u64 (head - tail) then (r <| x_full_drops := u64 (x_full_drops r + 1) |>, false)
  else (r <| x_buf := <[Z.to_nat (Z.land head (x_mask r)) := e]> (x_buf r) |>
          <| x_head := u64 (head + 1) |>, true).

Definition ecm_xring_peek (r : ecm_xring_t E) : option E :=
  let tail := x_tail r in
  let head := x_head r in
  if tail =? head then None else Some (x_buf r !!! Z.to_nat (Z.land tail (x_mask r))).

Definition ecm_xring_pop (r : ecm_xring_t E) : ecm_xring_t E :=
  r <| x_tail := u64 (x_tail r + 1) |>.

(** [ecm_xring_pop] is only called after a successful peek. *)
Definition xring_take (r : ecm_xring_t E) : ecm_xring_t E * option E :=
  match ecm_xring_peek r with
  | None => (r, None)
  | Some e => (ecm_xring_pop r, Some e)
  end.

Definition M64 : Z := 18446744073709551616.
Definition xring_cap (r : ecm_xring_t E) : Z := x_mask r + 1.
Definition xring_wf (r : ecm_xring_t E) : Prop :=
  (exists k, 0 <= k <= 9 /\ x_mask r = 2 ^ k - 1) /\
  ring_ok M64 (xring_cap r) (x_buf r) (x_head r) (x_tail r).
Definition xring_queue (r : ecm_xring_t E) : list E :=
  ring_contents M64 (xring_cap r) (x_buf r) (x_head r) (x_tail r).

Lemma xring_params r : xring_wf r ->
  0 < xring_cap r /\ xring_cap r < M64 /\ (xring_cap r | M64) /\
  (forall i, Z.to_nat (Z.land i (x_mask r)) = ring_slot (xring_cap r) i).
Proof.
  intros [[k [Hk Hm]] _]. unfold xring_cap. rewrite Hm.
  replace (2 ^ k - 1 + 1) with (2 ^ k) by lia. unfold M64. change 18446744073709551616 with (2 ^ 64).
  split_and!.
  - apply Z.pow_pos_nonneg; lia.
  - apply Z.pow_lt_mono_r; lia.
  - exists (2 ^ (64 - k)). rewrite <- Z.pow_add_r by lia. f_equal. lia.
  - intros i. unfold ring_slot. f_equal. rewrite <- Z.land_ones by lia. f_equal. rewrite Z.ones_equiv. lia.
Qed.

Lemma xring_push_cap r e : xring_cap (ecm_xring_push r e).1 = xring_cap r.
Proof. unfold ecm_xring_push. case_if; done. Qed.

#[export] Program Instance xring_ring : SpscRing (ecm_xring_t E) E := {|
  rq_wf := xring_wf; rq_cap := xring_cap; rq_queue := xring_queue;
  rq_push := ecm_xring_push; rq_pop := xring_take |}.
Next Obligation.
  intros r e H. destruct (xring_params r H) as (H1 & H2 & H3 & H4). unfold ecm_xring_push.
  destruct (Z.ltb_spec (x_mask r) (u64 (x_head r - x_tail r))); [done|].
  destruct H as [Hk Hok]. split; [done|]. unfold xring_cap in *; cbn. rewrite H4.
  apply ring_ok_push; auto. unfold ring_count, M64. unfold u64 in *. lia.
Qed.
Next Obligation.
  intros r H. destruct (xring_params r H) as (H1 & H2 & H3 & H4). unfold xring_take, ecm_xring_peek.
  destruct (Z.eqb_spec (x_tail r) (x_head r)); [done|]. destruct H as [Hk Hok]. split; [done|].
  unfold xring_cap in *; cbn. by apply ring_ok_pop.
Qed.
Next Obligation.
  intros r H. destruct (xring_params r H) as (H1 & H2 & _). destruct H as [_ (_ & _ & _ & Hc)].
  unfold xring_queue. rewrite ring_contents_length; [done|lia..].
Qed.
Next Obligation.
  intros r e H. destruct (xring_params r H) as (H1 & H2 & H3 & H4).
  unfold xring_queue. rewrite ring_contents_length by lia. destruct H as [Hk Hok].
  unfold ecm_xring_push. change (u64 (x_head r - x_tail r)) with (ring_count M64 (x_head r) (x_tail r)).
  destruct (Z.ltb_spec (x_mask r) (ring_count M64 (x_head r) (x_tail r))),
    (Z.leb_spec (xring_cap r) (ring_count M64 (x_head r) (x_tail r))); unfold xring_cap in *; try lia; cbn; [done|].
  split; [done|]. rewrite H4. apply ring_contents_push; auto.
Qed.
Next Obligation.
  intros r H. destruct (xring_params r H) as (H1 & H2 & H3 & H4). destruct H as [Hk Hok].
  unfold xring_take, ecm_xring_peek, xring_queue. destruct (Z.eqb_spec (x_tail r) (x_head r)) as [E1|E1]; cbn.
  - rewrite E1, ring_contents_empty by lia. done.
  - unfold xring_cap in *. cbn. rewrite (ring_contents_pop _ _ H1 H2 H3 _ _ _ Hok E1). rewrite H4. done.
Qed.

Lemma xring_peek_queue r : xring_wf r -> ecm_xring_peek r = head (xring_queue r).
Proof.
  intros H. pose proof (rq_pop_spec (SpscRing := xring_ring) r H) as [H1 _]. cbn in H1. rewrite <- H1.
  unfold xring_take. destruct (ecm_xring_peek r); done.
Qed.

Lemma xring_pop_queue r e q : xring_wf r -> xring_queue r = e :: q ->
  xring_wf (ecm_xring_pop r) /\ xring_queue (ecm_xring_pop r) = q /\ xring_cap (ecm_xring_pop r) = xring_cap r.
Proof.
  intros H Hq. pose proof (xring_peek_queue r H) as Hp. rewrite Hq in Hp. cbn in Hp.
  pose proof (rq_pop_spec (SpscRing := xring_ring) r H) as [_ H2].
  pose proof (rq_pop_wf (SpscRing := xring_ring) r H) as H3. cbn in H2, H3.
  unfold xring_take in H2, H3. rewrite Hp in H2, H3. cbn in H2, H3. rewrite Hq in H2. done.
Qed.

(** A capacity the initialisation accepts is a power of two. *)
Lemma pow2_mask cap : 1 <= cap <= 512 -> Z.land cap (cap - 1) = 0 -> exists k, 0 <= k <= 9 /\ cap = 2 ^ k.
Proof.
  intros Hr Hl.
  assert (Hall : forallb (fun c => negb (Z.land c (c - 1) =? 0) || existsb (fun k => c =? 2 ^ k) (seqZ 0 10))
                   (seqZ 1 512) = true) by (vm_compute; reflexivity).
  rewrite forallb_forall in Hall. specialize (Hall cap). rewrite Hl in Hall. cbn [Z.eqb negb orb] in Hall.
  apply existsb_exists in Hall as (k & Hk & Ek).
  - apply list_elem_of_In, elem_of_seqZ in Hk. bprop. exists k. split; [lia|done].
  - apply list_elem_of_In, elem_of_seqZ. lia.
Qed.

Lemma xring_init_wf cap : 0 <= cap ->
  xring_wf (ecm_xring_init cap : ecm_xring_t E) /\ xring_queue (ecm_xring_init cap : ecm_xring_t E) = [].
Proof.
  intros H0. unfold ecm_xring_init, ECM_XRING_CAP.
  match goal with |- context [if ?b then 512 else cap] => set (c := if b then 512 else cap) end.
  assert (Hk : exists k, 0 <= k <= 9 /\ c = 2 ^ k).
  { unfold c. match goal with |- context [if ?b then _ else _] => destruct b eqn:Eb end; [exists 9; done|]. bprop. apply pow2_mask; lia. }
  destruct Hk as (k & Hk & Ek).
  assert (Hc : 1 <= c <= 512).
  { rewrite Ek. split; [assert (0 < 2 ^ k) by (apply Z.pow_pos_nonneg; lia); lia|].
    change 512 with (2 ^ 9). apply Z.pow_le_mono_r; lia. }
  split; [split|].
  - exists k. cbn [x_mask]. lia.
  - unfold ring_ok, xring_cap, ring_count, M64. cbn [x_buf x_mask x_head x_tail].
    rewrite length_replicate. change ((0 - 0) mod 18446744073709551616) with 0. lia.
  - unfold xring_queue. cbn [x_head x_tail x_buf x_mask].
    apply ring_contents_empty; unfold M64, xring_cap; cbn [x_mask]; lia.
Qed.

End Ops.
End Xring.

(** ** The seqlock record *)
Module Xst.

Definition ECM_XST_WORDS : Z := 8.
Definition ECM_XST_TRIES : nat := 64.

Record ecm_xst_t := mkxst { st_seq : Z; st_tick : Z; st_w : list Z }.
#[export] Instance ecm_xst_eta : Eta ecm_xst_t := fun s => mkxst (st_seq s) (st_tick s) (st_w s).

Definition xst_zero : ecm_xst_t := mkxst 0 0 (replicate 8 0).

(** [for (i = 0; i < n && i < ECM_XST_WORDS; i++) s->w[i] = w[i]] *)
Definition store_words (n : Z) (w old : list Z) : list Z :=
  imap (fun i o => if Z.of_nat i <? Z.min n ECM_XST_WORDS then default 0 (w !! i) else o) old.

Definition ecm_xst_write (s : ecm_xst_t) (tick : Z) (w : list Z) (n : Z) : ecm_xst_t :=
  let q := st_seq s in
  let s := s <| st_seq := u32 (q + 1) |> in
  let s := s <| st_tick := tick |> in
  let s := s <| st_w := store_words n w (st_w s) |> in
  s <| st_seq := u32 (q + 2) |>.

(** A read that no write overlaps: the first try decides, every further try
    sees the same record. *)
Fixpoint ecm_xst_read (s : ecm_xst_t) (n : Z) (tries : nat) : option (Z * list Z) :=
  match tries with
  | O => None
  | S tries =>
      let s1 := st_seq s in
      if Z.odd s1 then ecm_xst_read s n tries
      else
        let tick := st_tick s in
        let w := take (Z.to_nat (Z.min n ECM_XST_WORDS)) (st_w s) in
        if st_seq s =? s1 then Some (tick, w) else ecm_xst_read s n tries
  end.

Definition xst_wf (s : ecm_xst_t) : Prop := length (st_w s) = 8%nat /\ Z.odd (st_seq s) = false /\ is_u32 (st_seq s).

Lemma u32_even q : Z.odd q = false -> Z.odd (u32 (q + 2)) = false.
Proof.
  intros H. unfold u32. rewrite <- Z.bit0_odd, Z.mod_pow2_bits_low with (n := 32) by lia.
  rewrite Z.bit0_odd, Z.odd_add, H. done.
Qed.

Lemma xst_write_wf s tick w n : xst_wf s -> xst_wf (ecm_xst_write s tick w n).
Proof.
  intros (Hl & Ho & Hr). unfold xst_wf, ecm_xst_write. cbn. split_and!; [|by apply u32_even|apply u32_range].
  unfold store_words. rewrite length_imap. done.
Qed.

Lemma store_words_take n w old : length old = 8%nat -> 0 <= n <= 8 -> length w = Z.to_nat n ->
  take (Z.to_nat n) (store_words n w old) = w.
Proof.
  intros Hl Hn Hw. apply list_eq. intros i. unfold store_words, ECM_XST_WORDS. rewrite Z.min_l by lia.
  destruct (decide (i < Z.to_nat n)%nat) as [Hi|Hi].
  - rewrite lookup_take, decide_True by lia. rewrite list_lookup_imap.
    destruct (lookup_lt_is_Some_2 old i) as [o Ho]; [lia|].
    destruct (lookup_lt_is_Some_2 w i) as [x Hx]; [lia|]. rewrite Ho, Hx. cbn.
    rewrite (proj2 (Z.ltb_lt _ _)) by lia. done.
  - rewrite !lookup_ge_None_2; [done|lia|rewrite length_take; lia].
Qed.

(** What was written is what is read. *)
Lemma xst_read_write s tick w n tries : xst_wf s -> 0 <= n <= 8 -> length w = Z.to_nat n ->
  ecm_xst_read (ecm_xst_write s tick w n) n (S tries) = Some (tick, w).
Proof.
  intros (Hl & Ho & Hr) Hn Hw. cbn [ecm_xst_read].
  assert (E : Z.odd (st_seq (ecm_xst_write s tick w n)) = false) by (cbn; by apply u32_even).
  rewrite E, Z.eqb_refl. cbn [st_tick st_w ecm_xst_write upd].
  unfold ECM_XST_WORDS. rewrite Z.min_l by lia. cbn. rewrite store_words_take by done. done.
Qed.

(** *** Writer and reader interleaved, one access per step

    A record is the list of its cells (the tick, then the words).  [sl_ver]
    counts the completed writes and [sl_rec] is the record of the last one;
    [sl_rver], [sl_rrec] remember them as of the reader's first load.  The
    reader gives up or retries freely: a failed try is a return to [RIdle]. *)

Inductive wpc :=
  | WIdle
  | WIn (todo : list Z) (i : nat) (rec : list Z).   (* cells [i..] still to store *)
Inductive rpc :=
  | RIdle
  | RIn (s1 : Z) (got : list Z)                     (* cells loaded so far *)
  | RDone (got : list Z).                           (* a successful try *)

Record slk := mkslk {
  sl_seq : Z; sl_mem : list Z; sl_w : wpc; sl_r : rpc;
  sl_ver : Z; sl_rec : list Z; sl_rver : Z; sl_rrec : list Z
}.

Inductive sstep (n : nat) : slk -> slk -> Prop :=
  | w_begin seq mem r v rec rv rr new : length new = n ->
      sstep n (mkslk seq mem WIdle r v rec rv rr) (mkslk (u32 (seq + 1)) mem (WIn new 0 new) r v rec rv rr)
  | w_store seq mem x todo i new r v rec rv rr :
      sstep n (mkslk seq mem (WIn (x :: todo) i new) r v rec rv rr)
              (mkslk seq (<[i := x]> mem) (WIn todo (S i) new) r v rec rv rr)
  | w_end seq mem i new r v rec rv rr :
      sstep n (mkslk seq mem (WIn [] i new) r v rec rv rr)
              (mkslk (u32 (seq + 1)) mem WIdle r (v + 1) new rv rr)
  | r_begin seq mem w r v rec rv rr : Z.odd seq = false ->
      sstep n (mkslk seq mem w r v rec rv rr) (mkslk seq mem w (RIn seq []) v rec v rec)
  | r_load seq mem w s1 got v rec rv rr x : mem !! length got = Some x ->
      sstep n (mkslk seq mem w (RIn s1 got) v rec rv rr) (mkslk seq mem w (RIn s1 (got ++ [x])) v rec rv rr)
  | r_ok seq mem w s1 got v rec rv rr : length got = n -> seq = s1 ->
      sstep n (mkslk seq mem w (RIn s1 got) v rec rv rr) (mkslk seq mem w (RDone got) v rec rv rr)
  | r_retry seq mem w s1 got v rec rv rr : seq <> s1 ->
      sstep n (mkslk seq mem w (RIn s1 got) v rec rv rr) (mkslk seq mem w RIdle v rec rv rr).

Inductive sreach (n : nat) (rec0 : list Z) : slk -> Prop :=
  | sreach_init : sreach n rec0 (mkslk 0 rec0 WIdle RIdle 0 rec0 0 rec0)
  | sreach_step s s' : sreach n rec0 s -> sstep n s s' -> sreach n rec0 s'.

Definition w_inv (n : nat) (s : slk) : Prop :=
  match sl_w s with
  | WIdle => sl_seq s = u32 (2 * sl_ver s) /\ sl_mem s = sl_rec s
  | WIn todo i new => sl_seq s = u32 (2 * sl_ver s + 1) /\ length new = n /\
      todo = drop i new /\ (i <= n)%nat /\ take i (sl_mem s) = take i new
  end.

(** While no write has started since the reader's first load, the cells
    loaded are those of the current record. *)
Definition r_inv (s : slk) : Prop :=
  match sl_r s with
  | RIdle => True
  | RIn s1 got => s1 = u32 (2 * sl_rver s) /\ 0 <= sl_rver s <= sl_ver s /\
      (sl_ver s = sl_rver s -> sl_w s = WIdle -> sl_rec s = sl_rrec s /\ got = take (length got) (sl_rrec s))
  | RDone got => 0 <= sl_rver s <= sl_ver s
  end.

Definition s_inv (n : nat) (s : slk) : Prop :=
  length (sl_mem s) = n /\ length (sl_rec s) = n /\ 0 <= sl_ver s /\ w_inv n s /\ r_inv s.

Lemma u32_succ a : u32 (u32 a + 1) = u32 (a + 1).
Proof. unfold u32. rewrite Z.add_mod_idemp_l by lia. done. Qed.

Lemma odd_u32 a : Z.odd (u32 a) = Z.odd a.
Proof. unfold u32. rewrite <- !Z.bit0_odd. apply (Z.mod_pow2_bits_low a 32 0). lia. Qed.

(** A write cannot be under way when the sequence number is even. *)
Lemma even_idle n s : w_inv n s -> Z.odd (sl_seq s) = false -> sl_w s = WIdle.
Proof.
  unfold w_inv. destruct (sl_w s) as [|todo i new]; [done|]. intros (E & _) Ho.
  rewrite E, odd_u32, Z.odd_add, Z.odd_mul in Ho. discriminate.
Qed.

Lemma sstep_inv n s s' : s_inv n s -> sstep n s s' -> s_inv n s'.
Proof.
  intros (Hm & Hr & Hv & Hw & Hrd) Hst.
  destruct Hst as [seq mem r v rec rv rr new Hl|seq mem x todo i new r v rec rv rr|seq mem i new r v rec rv rr
                  |seq mem w r v rec rv rr Ho|seq mem w s1 got v rec rv rr x Hx
                  |seq mem w s1 got v rec rv rr Hl He|seq mem w s1 got v rec rv rr Hne];
    unfold s_inv, r_inv in *; cbn in *.
  - unfold w_inv in Hw. cbn in Hw. destruct Hw as [E1 E2]. subst mem seq. unfold w_inv. cbn. rewrite u32_succ. split_and!; auto; try lia.
    destruct r as [|s1 got|got]; auto. destruct Hrd as (H1 & H2 & _). split_and!; auto; try lia; done.
  - unfold w_inv in Hw. cbn in Hw. destruct Hw as (H1 & H2 & H3 & H4 & H5).
    assert (Hi : (i < n)%nat).
    { assert (length (drop i new) = S (length todo)) as E by (rewrite <- H3; done).
      rewrite length_drop in E. lia. }
    assert (Hx : new !! i = Some x).
    { rewrite <- (Nat.add_0_r i), <- lookup_drop, <- H3. done. }
    unfold w_inv. cbn. rewrite length_insert. split_and!; auto; try lia.
    + rewrite <- Nat.add_1_r, <- drop_drop, <- H3. done.
    + rewrite (take_S_r _ _ x) by (apply list_lookup_insert_eq; lia).
      rewrite (take_S_r _ _ x Hx), take_insert_ge by lia. rewrite H5. done.
    + destruct r as [|s1 got|got]; auto. destruct Hrd as (R1 & R2 & _). split_and!; auto; try lia; done.
  - unfold w_inv in Hw. cbn in Hw. destruct Hw as (H1 & H2 & H3 & H4 & H5). unfold w_inv. cbn.
    assert (Hi : i = n).
    { assert (length (drop i new) = 0%nat) as E by (rewrite <- H3; done). rewrite length_drop in E. lia. }
    subst i. rewrite (firstn_all2 mem), (firstn_all2 new) in H5 by lia.
    rewrite H1, u32_succ. split_and!; auto; try lia; [f_equal; lia|].
    destruct r as [|s1 got|got]; auto; [|lia]. destruct Hrd as (R1 & R2 & _). split_and!; auto; lia.
  - pose proof (even_idle n _ Hw Ho) as Hid. cbn in Hid. subst w. destruct (Hw) as [E1 E2]. cbn in E1, E2. subst mem seq.
    split_and!; auto; try lia.
  - destruct Hrd as (R1 & R2 & R3). split_and!; auto; try lia. intros Hv' Hw'. subst w.
    destruct (R3 Hv' eq_refl) as [E1 E2]. split; [done|]. destruct Hw as [_ E3]. cbn in E3. subst mem.
    rewrite length_app. cbn. rewrite Nat.add_1_r.
    rewrite (take_S_r _ _ x) by (rewrite <- E1; done). f_equal. done.
  - destruct Hrd as (R1 & R2 & R3). split_and!; auto; lia.
  - split_and!; auto.
Qed.

Lemma sreach_inv n rec0 s : length rec0 = n -> sreach n rec0 s -> s_inv n s.
Proof.
  intros Hl Hr. induction Hr; eauto using sstep_inv.
  unfold s_inv, w_inv, r_inv; cbn. split_and!; auto; lia.
Qed.

(** C25: a reader of the seqlock never returns a torn record: whenever a try
    succeeds in a reachable state, and fewer than 2^31 writes completed since
    its first load (the period of the 32-bit sequence number), the copy it
    made is exactly the record that was current at that load -- whatever the
    interleaving of the writer's and the reader's accesses. *)
Theorem seqlock_read_consistent n rec0 s s1 got :
  length rec0 = n -> sreach n rec0 s -> sl_r s = RIn s1 got -> length got = n -> sl_seq s = s1 ->
  sl_ver s - sl_rver s < 2147483648 -> got = sl_rrec s /\ sl_rrec s = sl_rec s.
Proof.
  intros Hl Hr Hrd Hg Hs Hlt. destruct (sreach_inv n rec0 s Hl Hr) as (Hm & Hrec & Hv & Hw & Hri).
  unfold r_inv in Hri. rewrite Hrd in Hri. destruct Hri as (R1 & R2 & R3).
  assert (Hid : sl_w s = WIdle).
  { apply (even_idle n s Hw). rewrite Hs, R1, odd_u32, Z.odd_mul. done. }
  assert (Heq : sl_ver s = sl_rver s).
  { unfold w_inv in Hw. rewrite Hid in Hw. destruct Hw as [E _]. rewrite Hs, R1 in E. unfold u32 in E.
    destruct (mod_add_cancel _ _ 4294967296 ltac:(lia) E) as [q Hq]. lia. }
  destruct (R3 Heq Hid) as [E1 E2]. split; [|done]. rewrite E2. rewrite firstn_all2 by (rewrite <- E1; lia). done.
Qed.

Lemma seqlock_read_consistent_witness :
  exists s, sreach 2 [0; 0] s /\ sl_r s = RIn 2 [5; 6] /\ [5; 6] = sl_rec s.
Proof.
  exists (mkslk 2 [5; 6] WIdle (RIn 2 ([] ++ [5] ++ [6])) 1 [5; 6] 1 [5; 6]).
  assert (Hr : sreach 2 [0; 0] (mkslk 2 [5; 6] WIdle (RIn 2 (([] ++ [5]) ++ [6])) 1 [5; 6] 1 [5; 6])).
  { apply (sreach_step _ _ (mkslk 2 [5; 6] WIdle (RIn 2 ([] ++ [5])) 1 [5; 6] 1 [5; 6])); [|by apply r_load].
    apply (sreach_step _ _ (mkslk 2 [5; 6] WIdle (RIn 2 []) 1 [5; 6] 1 [5; 6])); [|by apply r_load].
    apply (sreach_step _ _ (mkslk 2 [5; 6] WIdle RIdle 1 [5; 6] 0 [0; 0])); [|by apply r_begin].
    apply (sreach_step _ _ (mkslk 1 [5; 6] (WIn [] 2 [5; 6]) RIdle 0 [0; 0] 0 [0; 0])); [|apply w_end].
    apply (sreach_step _ _ (mkslk 1 [5; 0] (WIn [6] 1 [5; 6]) RIdle 0 [0; 0] 0 [0; 0])); [|apply w_store].
    apply (sreach_step _ _ (mkslk 1 [0; 0] (WIn [5; 6] 0 [5; 6]) RIdle 0 [0; 0] 0 [0; 0])); [|apply w_store].
    apply (sreach_step _ _ (mkslk 0 [0; 0] WIdle RIdle 0 [0; 0] 0 [0; 0])); [|by apply w_begin].
    apply sreach_init. }
  split; [exact Hr|]. split; [reflexivity|].
  apply (seqlock_read_consistent 2 [0; 0] _ 2 [5; 6] eq_refl Hr eq_refl eq_refl eq_refl).
  cbn. lia.
Defined.

End Xst.

(** ** The exchange *)
Module Xchg.
Import Xring Xst.

Record ecm_xcmd_t := mkxcmd {
  c_tick : Z; c_target : Z; c_op : Z; c_seq : Z; c_arg0 : Z; c_arg1 : Z
}.
Record ecm_xsp_t := mkxsp { e_tick : Z; e_v : list Z }.
#[export] Instance ecm_xcmd_inhabited : Inhabited ecm_xcmd_t := populate (mkxcmd 0 0 0 0 0 0).
#[export] Instance ecm_xsp_inhabited : Inhabited ecm_xsp_t := populate (mkxsp 0 [0; 0; 0]).

Definition ECM_XOP_NOP : Z := 0.
Definition ECM_XOP_SET : Z := 1.
Definition ECM_XOP_USER : Z := 256.
Definition ECM_XS_NWORDS : Z := 6.
Definition ECM_XC_NWORDS : Z := 8.

Record ecm_xslot_t := mkxslot {
  s_h : ecm_pdo_handle_t; s_is_out : bool; s_armed : bool; s_last : Z;
  s_used : Z; s_late : Z; s_underrun : Z; s_dropped_lost : Z
}.
#[export] Instance ecm_xslot_eta : Eta ecm_xslot_t := fun s =>
  mkxslot (s_h s) (s_is_out s) (s_armed s) (s_last s) (s_used s) (s_late s) (s_underrun s) (s_dropped_lost s).
Definition xslot_zero : ecm_xslot_t := mkxslot handle_zero false false 0 0 0 0 0.
#[export] Instance ecm_xslot_inhabited : Inhabited ecm_xslot_t := populate xslot_zero.
#[export] Instance ecm_xst_inhabited : Inhabited ecm_xst_t := populate xst_zero.
#[export] Instance ecm_xring_inhabited `{!Inhabited E} : Inhabited (ecm_xring_t E) :=
  populate (ecm_xring_init ECM_XRING_CAP).

Record ecm_xchg_t := mkxchg {
  nslots : Z; cycle_ns : Z; slot : list ecm_xslot_t; cmd : ecm_xring_t ecm_xcmd_t;
  sp : list (ecm_xring_t ecm_xsp_t); st : list ecm_xst_t; clock : ecm_xst_t;
  cmd_applied : Z; cmd_deferred : Z; cmd_unknown : Z; last_seq : Z
}.
#[export] Instance ecm_xchg_eta : Eta ecm_xchg_t := fun x =>
  mkxchg (nslots x) (cycle_ns x) (slot x) (cmd x) (sp x) (st x) (clock x)
    (cmd_applied x) (cmd_deferred x) (cmd_unknown x) (last_seq x).

Definition ecm_xchg_init (cycle_ns : Z) : ecm_xchg_t :=
  mkxchg 0 cycle_ns (replicate 32 xslot_zero) (ecm_xring_init ECM_XCHG_CMD_CAP)
    (replicate 32 (ecm_xring_init ECM_XRING_CAP)) (replicate 32 xst_zero) xst_zero 0 0 0 0.

Definition is_out_dir (h : ecm_pdo_handle_t) : bool :=
  match h_dir h with ECM_PDO_OUT => true | ECM_PDO_IN => false end.

(** [None] is a null handle pointer. *)
Definition ecm_xchg_add_slot (x : ecm_xchg_t) (h : option ecm_pdo_handle_t) : ecm_xchg_t * Z :=
  match h with
  | Some h =>
      if (ECM_XCHG_MAX_SLOTS <=? nslots x) || (h_bits h =? 0) then (x, -1)
      else
        let s := xslot_zero <| s_h := h |> in
        let s := s <| s_is_out := is_out_dir h |> in
        (x <| slot ::= <[Z.to_nat (nslots x) := s]> |> <| nslots := nslots x + 1 |>, nslots x)
  | None => (x, -1)
  end.

Definition apply (s : ecm_xslot_t) (iomap : list Z) (v : Z) : ecm_xslot_t * list Z :=
  (s <| s_last := v |> <| s_armed := true |>, ecm_pdo_set (s_h s) iomap (u64 v)).

(** One command of the loop, up to the pop. *)
Definition cmd_exec (bus_lost : bool) (st : ecm_xchg_t * list Z) (c : ecm_xcmd_t) : ecm_xchg_t * list Z :=
  let '(x, iomap) := st in
  let target := Z.to_nat (c_target c) in
  let '(x, iomap) :=
    if (c_op c =? ECM_XOP_SET) && (c_target c <? nslots x) && s_is_out (slot x !!! target) && negb bus_lost then
      let '(s, iomap) := apply (slot x !!! target) iomap (c_arg0 c) in
      (x <| slot ::= <[target := s]> |>, iomap)
    else if negb (c_op c =? ECM_XOP_NOP) && negb (c_op c =? ECM_XOP_SET)
    then (x <| cmd_unknown := u64 (cmd_unknown x + 1) |>, iomap)
    else (x, iomap) in
  (x <| last_seq := c_seq c |> <| cmd_applied := u64 (cmd_applied x + 1) |>, iomap).

Fixpoint cmd_loop (fuel : nat) (k1 : Z) (bus_lost : bool) (n : Z) (x : ecm_xchg_t) (iomap : list Z) :
    ecm_xchg_t * list Z :=
  match fuel with
  | O => (x, iomap)
  | S fuel =>
      match ecm_xring_peek (cmd x) with
      | None => (x, iomap)
      | Some c =>
          if k1 <? c_tick c then (x, iomap)
          else if n =? ECM_XCHG_CMD_PER_TICK then (x <| cmd_deferred := u64 (cmd_deferred x + 1) |>, iomap)
          else
            let '(x, iomap) := cmd_exec bus_lost (x, iomap) c in
            cmd_loop fuel k1 bus_lost (n + 1) (x <| cmd ::= ecm_xring_pop |>) iomap
      end
  end.

(** The setpoint loop of one slot; returns [got] too. *)
Fixpoint sp_loop (fuel : nat) (k1 : Z) (bus_lost : bool) (skipped : Z) (r : ecm_xring_t ecm_xsp_t)
    (s : ecm_xslot_t) (iomap : list Z) : ecm_xring_t ecm_xsp_t * ecm_xslot_t * list Z * bool :=
  match fuel with
  | O => (r, s, iomap, false)
  | S fuel =>
      match ecm_xring_peek r with
      | None => (r, s, iomap, false)
      | Some e =>
          if (e_tick e <? k1) || (bus_lost && (e_tick e =? k1)) then
            if skipped =? ECM_XCHG_SP_SKIP_MAX then (r, s, iomap, false)
            else
              let s := if bus_lost then s <| s_dropped_lost := u64 (s_dropped_lost s + 1) |>
                       else s <| s_late := u64 (s_late s + 1) |> in
              sp_loop fuel k1 bus_lost (skipped + 1) (ecm_xring_pop r) s iomap
          else if bus_lost then (r, s, iomap, false)
          else if e_tick e =? k1 then
            let '(s, iomap) := apply s iomap (e_v e !!! 0%nat) in
            (ecm_xring_pop r, s <| s_used := u64 (s_used s + 1) |>, iomap, true)
          else (r, s, iomap, false)
      end
  end.

Definition rt_slot (k1 : Z) (bus_lost : bool) (xi : ecm_xchg_t * list Z) (i : nat) : ecm_xchg_t * list Z :=
  let '(x, iomap) := xi in
  let s := slot x !!! i in
  if negb (s_is_out s) then (x, iomap)
  else
    let '(r, s, iomap, got) := sp_loop 17 k1 bus_lost 0 (sp x !!! i) s iomap in
    let '(s, iomap) :=
      if negb got && s_armed s && negb bus_lost
      then (s <| s_underrun := u64 (s_underrun s + 1) |>, ecm_pdo_set (s_h s) iomap (u64 (s_last s)))
      else (s, iomap) in
    (x <| slot ::= <[i := s]> |> <| sp ::= <[i := r]> |>, iomap).

(** The words of a slot's record; [rec] is the slot's last record. *)
Definition slot_words (iomap : list Z) (in_valid : bool) (s : ecm_xslot_t) (rec : ecm_xst_t) : list Z :=
  let valid := if s_is_out s then s_armed s else in_valid in
  let value := if s_is_out s || in_valid then ecm_pdo_get (s_h s) iomap else 0 in
  let value :=
    if negb (s_is_out s) && negb in_valid then
      match ecm_xst_read rec ECM_XS_NWORDS 1 with
      | Some (_, old) => old !!! 0%nat
      | None => value
      end
    else value in
  [value; s_used s; s_late s; s_underrun s; s_dropped_lost s; b2z valid].

Definition rt_state (iomap : list Z) (tick : Z) (in_valid : bool) (x : ecm_xchg_t) (i : nat) : ecm_xchg_t :=
  let w := slot_words iomap in_valid (slot x !!! i) (st x !!! i) in
  x <| st ::= <[i := ecm_xst_write (st x !!! i) tick w ECM_XS_NWORDS]> |>.

Definition ecm_xchg_rt (x : ecm_xchg_t) (iomap : list Z) (tick t_send_ns : Z) (in_valid bus_lost : bool) :
    ecm_xchg_t * list Z :=
  let k1 := u64 (tick + 1) in
  let '(x, iomap) := cmd_loop 9 k1 bus_lost 0 x iomap in
  let '(x, iomap) := foldl (rt_slot k1 bus_lost) (x, iomap) (seq 0 (Z.to_nat (nslots x))) in
  let x := foldl (rt_state iomap tick in_valid) x (seq 0 (Z.to_nat (nslots x))) in
  let cw := [t_send_ns; cycle_ns x; b2z in_valid; b2z bus_lost;
             cmd_applied x; cmd_deferred x; last_seq x; cmd_unknown x] in
  (x <| clock ::= fun c => ecm_xst_write c tick cw ECM_XC_NWORDS |>, iomap).

Definition ecm_xchg_cmd (x : ecm_xchg_t) (c : ecm_xcmd_t) : ecm_xchg_t * bool :=
  let '(r, ok) := ecm_xring_push (cmd x) c in (x <| cmd := r |>, ok).

Definition ecm_xchg_setpoint (x : ecm_xchg_t) (i tick v0 : Z) : ecm_xchg_t * bool :=
  if (i <? 0) || (nslots x <=? i) || negb (s_is_out (slot x !!! Z.to_nat i)) then (x, false)
  else
    let '(r, ok) := ecm_xring_push (sp x !!! Z.to_nat i) (mkxsp tick [v0; 0; 0]) in
    (x <| sp ::= <[Z.to_nat i := r]> |>, ok).

Definition ecm_xchg_read_clock (x : ecm_xchg_t) : option (Z * list Z) :=
  ecm_xst_read (clock x) ECM_XC_NWORDS ECM_XST_TRIES.

Definition ecm_xchg_read_slot (x : ecm_xchg_t) (i : Z) : option (Z * list Z) :=
  if (i <? 0) || (nslots x <=? i) then None
  else ecm_xst_read (st x !!! Z.to_nat i) ECM_XS_NWORDS ECM_XST_TRIES.

(** *** What the loops do to the queues *)

Fixpoint take_while {A} (p : A -> bool) (l : list A) : list A :=
  match l with
  | [] => []
  | a :: l => if p a then a :: take_while p l else []
  end.

(** A counter incremented [n] times. *)
Definition bump (n : nat) (c : Z) : Z := Nat.iter n (fun c => u64 (c + 1)) c.

Lemma bump_u64 n c : is_u64 c -> bump n c = u64 (c + Z.of_nat n).
Proof.
  intros Hc. induction n as [|n IH].
  - cbn. rewrite Z.add_0_r. clia.
  - unfold bump in *. rewrite Nat.iter_succ. rewrite IH. unfold u64. rewrite Z.add_mod_idemp_l by lia. f_equal. lia.
Qed.

(** The commands executed in a tick: the longest due prefix, at most eight. *)
Definition cmds_now (k1 : Z) (b : nat) (q : list ecm_xcmd_t) : list ecm_xcmd_t :=
  take b (take_while (fun c => c_tick c <=? k1) q).

(** A due command is left when the budget is used up. *)
Definition cmds_left (k1 : Z) (b : nat) (q : list ecm_xcmd_t) : bool :=
  (b <? length (take_while (fun c => c_tick c <=? k1) q)%Z)%nat.

Lemma cmd_exec_set_cmd lost x io c r :
  cmd_exec lost (x <| cmd := r |>, io) c =
  ((cmd_exec lost (x, io) c).1 <| cmd := r |>, (cmd_exec lost (x, io) c).2).
Proof. unfold cmd_exec, apply. cbn. repeat case_if; done. Qed.

Lemma cmd_fold_set_cmd lost l x io r :
  foldl (cmd_exec lost) (x <| cmd := r |>, io) l =
  ((foldl (cmd_exec lost) (x, io) l).1 <| cmd := r |>, (foldl (cmd_exec lost) (x, io) l).2).
Proof.
  revert x io. induction l as [|c l IH]; intros x io; [done|]. cbn [foldl].
  rewrite cmd_exec_set_cmd. rewrite IH. destruct (cmd_exec lost (x, io) c); done.
Qed.

Lemma cmd_exec_cmd lost st c : cmd (cmd_exec lost st c).1 = cmd st.1.
Proof. destruct st as [x io]. unfold cmd_exec, apply. cbn. repeat case_if; done. Qed.

Lemma cmd_exec_deferred lost st c : cmd_deferred (cmd_exec lost st c).1 = cmd_deferred st.1.
Proof. destruct st as [x io]. unfold cmd_exec, apply. cbn. repeat case_if; done. Qed.

Lemma cmd_fold_deferred lost l st : cmd_deferred (foldl (cmd_exec lost) st l).1 = cmd_deferred st.1.
Proof. revert st. induction l as [|c l IH]; intros st; [done|]. cbn. rewrite IH. apply cmd_exec_deferred. Qed.

(** The command loop executes the due prefix in order, whatever the fuel
    beyond the budget, and leaves the rest of the queue. *)
Lemma cmd_loop_spec fuel b k1 lost x io :
  (b <= 8)%nat -> (b < fuel)%nat -> xring_wf (cmd x) ->
  let q := xring_queue (cmd x) in
  let l := cmds_now k1 b q in
  exists r, xring_wf r /\ xring_queue r = drop (length l) q /\
    cmd_loop fuel k1 lost (8 - Z.of_nat b) x io =
    ((foldl (cmd_exec lost) (x, io) l).1 <| cmd := r |>
       <| cmd_deferred := bump (if cmds_left k1 b q then 1 else 0) (cmd_deferred x) |>,
     (foldl (cmd_exec lost) (x, io) l).2).
Proof.
  revert b x io. induction fuel as [|fuel IH]; intros b x io Hb Hf Hw q l; [lia|].
  cbn [cmd_loop]. rewrite xring_peek_queue by done. fold q. unfold l, cmds_now, cmds_left.
  destruct q as [|c q'] eqn:Eq; cbn [head take_while].
  { exists (cmd x). rewrite take_nil. split_and!; [done|by subst q|]. cbn. destruct x; done. }
  rewrite Z.leb_antisym. destruct (k1 <? c_tick c) eqn:Et; cbn [negb].
  { exists (cmd x). rewrite take_nil. split_and!; [done|by subst q|]. cbn. destruct x; done. }
  destruct b as [|b].
  { exists (cmd x). cbn. split_and!; [done|by subst q|]. destruct x; done. }
  rewrite (proj2 (Z.eqb_neq _ _)) by (unfold ECM_XCHG_CMD_PER_TICK; lia).
  destruct (cmd_exec lost (x, io) c) as [x1 io1] eqn:Ex.
  pose proof (cmd_exec_cmd lost (x, io) c) as Hc. pose proof (cmd_exec_deferred lost (x, io) c) as Hd.
  rewrite Ex in Hc, Hd. cbn [fst] in Hc, Hd.
  destruct (xring_pop_queue (cmd x) c q') as (Pw & Pq & _); [done|by subst q|].
  replace (8 - Z.of_nat (S b) + 1) with (8 - Z.of_nat b) by lia.
  assert (E1 : x1 <| cmd ::= ecm_xring_pop |> = x1 <| cmd := ecm_xring_pop (cmd x) |>) by (cbn; by rewrite Hc).
  rewrite E1. destruct (IH b (x1 <| cmd := ecm_xring_pop (cmd x) |>) io1) as (r & R1 & R2 & R3); [lia|lia|done|].
  change (cmd (x1 <| cmd := ecm_xring_pop (cmd x) |>)) with (ecm_xring_pop (cmd x)) in R2, R3.
  rewrite Pq in R2, R3. exists r. split_and!; [done|done|].
  cbn [take foldl]. rewrite Ex, R3. rewrite (cmd_fold_set_cmd lost _ x1 io1). cbn. rewrite Hd. done.
Qed.

(** A setpoint whose frame is gone, or cannot be sent for want of a bus. *)
Definition sp_dead (k1 : Z) (lost : bool) (e : ecm_xsp_t) : bool :=
  (e_tick e <? k1) || (lost && (e_tick e =? k1)).
(** The setpoints a tick drops: the dead prefix, at most the budget. *)
Definition sp_drop (k1 : Z) (lost : bool) (b : nat) (q : list ecm_xsp_t) : list ecm_xsp_t :=
  take b (take_while (sp_dead k1 lost) q).
Definition sp_count (lost : bool) (n : nat) (s : ecm_xslot_t) : ecm_xslot_t :=
  if lost then s <| s_dropped_lost ::= bump n |> else s <| s_late ::= bump n |>.
(** The value of the next setpoint, when it is for this frame. *)
Definition sp_due (k1 : Z) (lost : bool) (q : list ecm_xsp_t) : option Z :=
  match q with
  | e :: _ => if negb lost && (e_tick e =? k1) then Some (e_v e !!! 0%nat) else None
  | [] => None
  end.

(** One slot's part of the hook, on the queue: the new slot, the rest of the
    queue, and the value put into the frame, if any. *)
Definition slot_out (k1 : Z) (lost : bool) (s : ecm_xslot_t) (q : list ecm_xsp_t) :
    ecm_xslot_t * list ecm_xsp_t * option Z :=
  let n := length (sp_drop k1 lost 16 q) in
  let s := sp_count lost n s in
  let rest := drop n q in
  match sp_due k1 lost rest with
  | Some v => (s <| s_last := v |> <| s_armed := true |> <| s_used := u64 (s_used s + 1) |>, tail rest, Some v)
  | None =>
      if s_armed s && negb lost then (s <| s_underrun := u64 (s_underrun s + 1) |>, rest, Some (s_last s))
      else (s, rest, None)
  end.

Definition put (h : ecm_pdo_handle_t) (io : list Z) (v : option Z) : list Z :=
  match v with Some v => ecm_pdo_set h io (u64 v) | None => io end.

Lemma bump_S n c : bump n (u64 (c + 1)) = bump (S n) c.
Proof. unfold bump. rewrite Nat.iter_succ_r. done. Qed.

Lemma sp_count_S lost n s :
  sp_count lost n (if lost then s <| s_dropped_lost := u64 (s_dropped_lost s + 1) |>
                   else s <| s_late := u64 (s_late s + 1) |>) = sp_count lost (S n) s.
Proof. destruct lost; cbn -[bump]; rewrite bump_S; done. Qed.

Lemma sp_loop_spec fuel b k1 lost r s io :
  (b <= 16)%nat -> (b < fuel)%nat -> xring_wf r ->
  let q := xring_queue r in
  let n := length (sp_drop k1 lost b q) in
  let s1 := sp_count lost n s in
  exists r', xring_wf r' /\
    match sp_due k1 lost (drop n q) with
    | Some v => xring_queue r' = tail (drop n q) /\
        sp_loop fuel k1 lost (16 - Z.of_nat b) r s io =
        (r', s1 <| s_last := v |> <| s_armed := true |> <| s_used := u64 (s_used s1 + 1) |>,
         ecm_pdo_set (s_h s) io (u64 v), true)
    | None => xring_queue r' = drop n q /\
        sp_loop fuel k1 lost (16 - Z.of_nat b) r s io = (r', s1, io, false)
    end.
Proof.
  revert b r s. induction fuel as [|fuel IH]; intros b r s Hb Hf Hw q n s1; [lia|].
  cbn [sp_loop]. rewrite xring_peek_queue by done. fold q. unfold s1, n, sp_drop.
  assert (Hs : sp_count lost 0 s = s) by (destruct lost, s; done).
  destruct q as [|e q'] eqn:Eq; cbn [head take_while].
  { exists r. rewrite take_nil. cbn [length]. rewrite Hs. cbn. by subst q. }
  fold (sp_dead k1 lost e). destruct (sp_dead k1 lost e) eqn:Ed.
  - destruct b as [|b].
    { exists r. cbn [take length drop]. rewrite Hs. unfold sp_due.
      assert (negb lost && (e_tick e =? k1) = false) as ->; [|by subst q].
      unfold sp_dead in Ed. destruct lost; cbn in *; [done|]. rewrite orb_false_r in Ed. bprop. lia. }
    rewrite (proj2 (Z.eqb_neq _ _)) by (unfold ECM_XCHG_SP_SKIP_MAX; lia).
    destruct (xring_pop_queue r e q') as (Pw & Pq & _); [done|by subst q|].
    replace (16 - Z.of_nat (S b) + 1) with (16 - Z.of_nat b) by lia.
    match goal with |- context [sp_loop _ _ _ _ _ ?s2 _] =>
      destruct (IH b (ecm_xring_pop r) s2 ltac:(lia) ltac:(lia) Pw) as (r' & R1 & R2) end.
    exists r'. split; [done|]. rewrite Pq in R2. rewrite sp_count_S in R2. cbn [take length drop].
    destruct lost; exact R2.
  - exists (match sp_due k1 lost (e :: q') with Some _ => ecm_xring_pop r | None => r end).
    rewrite take_nil. cbn [length drop]. rewrite Hs. unfold sp_due.
    destruct (xring_pop_queue r e q') as (Pw & Pq & _); [done|by subst q|].
    unfold sp_dead in Ed. destruct lost; cbn [negb andb].
    { split_and!; [done|by subst q|]. done. }
    destruct (e_tick e =? k1); [|by subst q]. split_and!; done.
Qed.

Lemma rt_slot_spec k1 lost x io i s r :
  slot x !! i = Some s -> sp x !! i = Some r -> s_is_out s = true -> xring_wf r ->
  let '(s', q', v) := slot_out k1 lost s (xring_queue r) in
  exists r', xring_wf r' /\ xring_queue r' = q' /\
    rt_slot k1 lost (x, io) i =
    (x <| slot ::= <[i := s']> |> <| sp ::= <[i := r']> |>, put (s_h s) io v).
Proof.
  intros Hs Hr Ho Hw. unfold rt_slot, slot_out.
  rewrite (list_lookup_total_correct _ _ _ Hs), (list_lookup_total_correct _ _ _ Hr), Ho. cbn [negb].
  destruct (sp_loop_spec 17 16 k1 lost r s io ltac:(lia) ltac:(lia) Hw) as (r' & R1 & R2).
  change (16 - Z.of_nat 16) with 0 in R2.
  destruct (sp_due _ _ _); destruct R2 as [R2 ->]; cbn [negb andb].
  - exists r'. done.
  - case_if; exists r'; [|done]. split_and!; try done. unfold sp_count. destruct lost; done.
Qed.

(** *** Well-formed exchanges *)

Definition shape (s : ecm_xslot_t) : ecm_pdo_handle_t * bool := (s_h s, s_is_out s).

Record xchg_wf (x : ecm_xchg_t) (io : list Z) : Prop := {
  xw_n : 0 <= nslots x <= 32;
  xw_slot : length (slot x) = 32%nat;
  xw_sp : length (sp x) = 32%nat;
  xw_st : length (st x) = 32%nat;
  xw_cmd : xring_wf (cmd x);
  xw_rings : Forall xring_wf (sp x);
  xw_recs : Forall xst_wf (st x);
  xw_clock : xst_wf (clock x);
  xw_targets : Forall (fun c => 0 <= c_target c) (xring_queue (cmd x));
  xw_io : bytes io;
  xw_handles : forall i s, Z.of_nat i < nslots x -> slot x !! i = Some s -> handle_in (s_h s) io
}.

(** The output objects of two slots do not overlap. *)
Definition outputs_disjoint (x : ecm_xchg_t) : Prop :=
  forall i j s t, i <> j -> Z.of_nat i < nslots x -> Z.of_nat j < nslots x ->
    slot x !! i = Some s -> slot x !! j = Some t -> s_is_out s = true -> s_is_out t = true ->
    handles_disjoint (s_h s) (s_h t).

Lemma shape_insert (l : list ecm_xslot_t) (i : nat) s t : l !! i = Some s -> shape t = shape s -> shape <$> <[i := t]> l = shape <$> l.
Proof.
  intros Hi Hs. rewrite list_fmap_insert. apply list_insert_id. rewrite list_lookup_fmap, Hi. cbn. by rewrite Hs.
Qed.

(** Writing one output keeps the exchange well-formed and the shapes. *)
Lemma xchg_wf_put x io i s t v : xchg_wf x io -> Z.of_nat i < nslots x -> slot x !! i = Some s -> shape t = shape s ->
  xchg_wf (x <| slot ::= <[i := t]> |>) (put (s_h s) io v) /\
  shape <$> slot (x <| slot ::= <[i := t]> |>) = shape <$> slot x.
Proof.
  intros [] Hi Hs Ht. cbn. split; [|by apply (shape_insert _ _ s)].
  assert (Hio : bytes (put (s_h s) io v) /\ length (put (s_h s) io v) = length io).
  { destruct v as [v|]; cbn; [|done]. pose proof (u64_range v).
    destruct (pdo_set_bits (s_h s) io (u64 v)) as (? & ? & _); eauto; clia. }
  destruct Hio as [Hb Hl]. constructor; cbn; auto; [by rewrite length_insert|].
  intros j s' Hj Hl'. unfold handle_in in *. rewrite Hl.
  destruct (decide (i = j)) as [->|Hne].
  - rewrite list_lookup_insert_eq in Hl' by (eapply lookup_lt_Some; eauto). injection Hl' as <-.
    injection Ht as -> _. by apply (xw_handles0 j s).
  - rewrite list_lookup_insert_ne in Hl' by done. by apply (xw_handles0 j s').
Qed.

Lemma put_other x io i j s t v : xchg_wf x io -> outputs_disjoint x -> i <> j ->
  Z.of_nat i < nslots x -> Z.of_nat j < nslots x -> slot x !! i = Some s -> slot x !! j = Some t ->
  s_is_out s = true -> s_is_out t = true -> ecm_pdo_get (s_h t) (put (s_h s) io v) = ecm_pdo_get (s_h t) io.
Proof.
  intros [] Hd Hne Hi Hj Hs Ht Hos Hot. destruct v as [v|]; cbn; [|done]. pose proof (u64_range v).
  apply pdo_get_set_other; eauto. clia.
Qed.

Lemma outputs_disjoint_shape x x' : nslots x' = nslots x -> shape <$> slot x' = shape <$> slot x ->
  outputs_disjoint x -> outputs_disjoint x'.
Proof.
  intros Hn Hs Hd i j s t Hne Hi Hj Hsi Htj Hos Hot.
  assert (Hget : forall k u, slot x' !! k = Some u -> exists u', slot x !! k = Some u' /\ shape u' = shape u).
  { intros k u Hk. assert (E : (shape <$> slot x') !! k = Some (shape u)) by (by rewrite list_lookup_fmap, Hk).
    rewrite Hs, list_lookup_fmap in E. destruct (slot x !! k) as [u'|]; [|done]. apply (inj Some) in E. eauto. }
  destruct (Hget i s Hsi) as (s' & Hs' & Es), (Hget j t Htj) as (t' & Ht' & Et).
  injection Es as Es1 Es2. injection Et as Et1 Et2. rewrite <- Es1, <- Et1. rewrite Hn in *.
  apply (Hd i j); congruence.
Qed.

(** *** The command phase, per slot *)

Definition cmd_slot (i : nat) (lost : bool) (s : ecm_xslot_t) (c : ecm_xcmd_t) : ecm_xslot_t :=
  if (c_op c =? ECM_XOP_SET) && (Z.to_nat (c_target c) =? i)%nat && s_is_out s && negb lost
  then s <| s_last := c_arg0 c |> <| s_armed := true |> else s.

Record same_frame (x x' : ecm_xchg_t) : Prop := {
  sf_n : nslots x' = nslots x; sf_shape : shape <$> slot x' = shape <$> slot x;
  sf_sp : sp x' = sp x; sf_st : st x' = st x; sf_clock : clock x' = clock x; sf_cycle : cycle_ns x' = cycle_ns x
}.

Lemma cmd_exec_spec lost x io c i s :
  xchg_wf x io -> outputs_disjoint x -> 0 <= c_target c -> Z.of_nat i < nslots x -> slot x !! i = Some s ->
  s_is_out s = true ->
  let '(x', io') := cmd_exec lost (x, io) c in
  xchg_wf x' io' /\ same_frame x x' /\ slot x' !! i = Some (cmd_slot i lost s c) /\
  (ecm_pdo_get (s_h s) io' = ecm_pdo_get (s_h s) io \/ (lost = false /\ s_armed (cmd_slot i lost s c) = true)).
Proof.
  intros Hw Hd Htg Hi Hs Ho. unfold cmd_exec, cmd_slot in *.
  destruct ((c_op c =? ECM_XOP_SET) && (c_target c <? nslots x)
            && s_is_out (slot x !!! Z.to_nat (c_target c)) && negb lost) eqn:Ec.
  - bprop. set (j := Z.to_nat (c_target c)) in *.
    destruct (lookup_lt_is_Some_2 (slot x) j) as [t Ht]; [rewrite (xw_slot _ _ Hw); pose proof (xw_n _ _ Hw); lia|].
    rewrite (list_lookup_total_correct _ _ _ Ht) in *. unfold apply.
    destruct (xchg_wf_put x io j t (t <| s_last := c_arg0 c |> <| s_armed := true |>) (Some (c_arg0 c))) as [W S];
      [done|lia|done|done|].
    split; [|split; [by constructor|]]; [destruct W; by constructor|]. cbn.
    rewrite (proj2 (Z.eqb_eq _ _)) by done. rewrite Ho. replace (negb lost) with true by (destruct lost; done).
    destruct (Nat.eqb_spec j i) as [->|Hne]; cbn.
    + rewrite list_lookup_insert_eq by (eapply lookup_lt_Some; eauto). split; [congruence|]. right.
      split; [by destruct lost|done].
    + rewrite list_lookup_insert_ne by done. split; [done|]. left.
      apply (put_other x io j i t s (Some (c_arg0 c))); auto; lia.
  - assert (Hno : (c_op c =? ECM_XOP_SET) && (Z.to_nat (c_target c) =? i)%nat && s_is_out s && negb lost = false).
    { destruct (Nat.eqb_spec (Z.to_nat (c_target c)) i) as [<-|]; [|by rewrite andb_false_r].
      rewrite (list_lookup_total_correct _ _ _ Hs) in Ec. rewrite (proj2 (Z.ltb_lt _ _)) in Ec by lia. done. }
    rewrite Hno. case_if; (split; [destruct Hw; by constructor|split; [by constructor|]]); cbn; auto.
Qed.

Lemma cmd_slot_shape i lost s c : shape (cmd_slot i lost s c) = shape s.
Proof. unfold cmd_slot. case_if; done. Qed.

Lemma cmd_slots_armed i lost l s : s_armed s = true -> s_armed (foldl (cmd_slot i lost) s l) = true.
Proof.
  revert s. induction l as [|c l IH]; intros s Hs; [done|]. cbn. apply IH. unfold cmd_slot. case_if; done.
Qed.

Lemma same_frame_trans x y z : same_frame x y -> same_frame y z -> same_frame x z.
Proof. intros [] []. constructor; congruence. Qed.

Lemma cmd_fold_spec lost l x io i s :
  xchg_wf x io -> outputs_disjoint x -> Forall (fun c => 0 <= c_target c) l -> Z.of_nat i < nslots x -> slot x !! i = Some s ->
  s_is_out s = true ->
  let '(x', io') := foldl (cmd_exec lost) (x, io) l in
  let s' := foldl (cmd_slot i lost) s l in
  xchg_wf x' io' /\ same_frame x x' /\ slot x' !! i = Some s' /\
  (ecm_pdo_get (s_h s) io' = ecm_pdo_get (s_h s) io \/ (lost = false /\ s_armed s' = true)).
Proof.
  revert x io s. induction l as [|c l IH]; intros x io s Hw Hd Hl Hi Hs Ho; cbn [foldl].
  { split_and!; auto. by constructor. }
  apply Forall_cons_1 in Hl as [Hc Hl].
  pose proof (cmd_exec_spec lost x io c i s Hw Hd Hc Hi Hs Ho) as H1.
  destruct (cmd_exec lost (x, io) c) as [x1 io1]. destruct H1 as (W1 & F1 & S1 & G1).
  pose proof (cmd_slot_shape i lost s c) as Hsh. injection Hsh as Hh Hout.
  assert (D1 : outputs_disjoint x1) by (destruct F1; by apply (outputs_disjoint_shape x)).
  specialize (IH x1 io1 _ W1 D1 Hl ltac:(rewrite (sf_n _ _ F1); lia) S1 ltac:(congruence)).
  destruct (foldl (cmd_exec lost) (x1, io1) l) as [x2 io2]. destruct IH as (W2 & F2 & S2 & G2).
  split_and!; auto; [by apply (same_frame_trans x x1)|]. rewrite Hh in G2.
  destruct G2 as [G2|G2]; [|auto]. destruct G1 as [G1|[G1 A1]]; [left; congruence|].
  right. split; [done|]. by apply cmd_slots_armed.
Qed.

(** *** The setpoint phase *)

Record sp_frame (x x' : ecm_xchg_t) : Prop := {
  pf_n : nslots x' = nslots x; pf_shape : shape <$> slot x' = shape <$> slot x; pf_cycle : cycle_ns x' = cycle_ns x;
  pf_cmd : cmd x' = cmd x; pf_st : st x' = st x; pf_clock : clock x' = clock x;
  pf_counts : cmd_applied x' = cmd_applied x /\ cmd_deferred x' = cmd_deferred x /\
              cmd_unknown x' = cmd_unknown x /\ last_seq x' = last_seq x
}.

Lemma sp_frame_refl x : sp_frame x x.
Proof. by constructor. Qed.
Lemma sp_frame_trans x y z : sp_frame x y -> sp_frame y z -> sp_frame x z.
Proof. intros [? ? ? ? ? ? (? & ? & ? & ?)] [? ? ? ? ? ? (? & ? & ? & ?)]. constructor; split_and?; congruence. Qed.

Lemma slot_out_shape k1 lost s q : shape (slot_out k1 lost s q).1.1 = shape s.
Proof. unfold slot_out, sp_count. destruct (sp_due _ _ _), lost; cbn; try case_if; done. Qed.

(** What slot [i] is after its own turn. *)
Definition slot_after (k1 : Z) (lost : bool) (x : ecm_xchg_t) (i : nat) (x' : ecm_xchg_t) (g g' : Z) : Prop :=
  forall s r, slot x !! i = Some s -> sp x !! i = Some r -> s_is_out s = true ->
    let '(s', q', v) := slot_out k1 lost s (xring_queue r) in
    slot x' !! i = Some s' /\ (exists r', sp x' !! i = Some r' /\ xring_queue r' = q') /\
    g' = match v with Some v => u64 v mod 2 ^ h_bits (s_h s) | None => g end.

Lemma rt_slot_step k1 lost x io i : xchg_wf x io -> Z.of_nat i < nslots x ->
  let '(x', io') := rt_slot k1 lost (x, io) i in
  xchg_wf x' io' /\ sp_frame x x' /\
  (forall s, slot x !! i = Some s -> slot_after k1 lost x i x' (ecm_pdo_get (s_h s) io) (ecm_pdo_get (s_h s) io')) /\
  (forall j s, j <> i -> Z.of_nat j < nslots x -> slot x !! j = Some s ->
     slot x' !! j = Some s /\ sp x' !! j = sp x !! j /\
     (outputs_disjoint x -> s_is_out s = true -> ecm_pdo_get (s_h s) io' = ecm_pdo_get (s_h s) io)).
Proof.
  intros Hw Hi. pose proof (xw_n _ _ Hw) as Hn.
  destruct (lookup_lt_is_Some_2 (slot x) i) as [s Hs]; [rewrite (xw_slot _ _ Hw); lia|].
  destruct (lookup_lt_is_Some_2 (sp x) i) as [r Hr]; [rewrite (xw_sp _ _ Hw); lia|].
  destruct (s_is_out s) eqn:Ho.
  2:{ assert (rt_slot k1 lost (x, io) i = (x, io)) as ->.
      { unfold rt_slot. by rewrite (list_lookup_total_correct _ _ _ Hs), Ho. }
      split_and!; [done|apply sp_frame_refl| |auto].
      intros s0 Hs0 s1 r1 Hs1 Hr1 Ho1. congruence. }
  assert (Hrw : xring_wf r) by (eapply Forall_lookup_1; [apply Hw|done]).
  pose proof (rt_slot_spec k1 lost x io i s r Hs Hr Ho Hrw) as H.
  pose proof (slot_out_shape k1 lost s (xring_queue r)) as Hsh.
  destruct (slot_out k1 lost s (xring_queue r)) as [[s' q'] v] eqn:Eo. destruct H as (r' & Hw' & Hq' & ->).
  destruct (xchg_wf_put x io i s s' v Hw Hi Hs Hsh) as [W S].
  split_and!.
  - destruct W. constructor; cbn in *; auto; [by rewrite length_insert|by apply Forall_insert].
  - constructor; done.
  - intros s0 Hs0 s1 r1 Hs1 Hr1 Ho1. assert (s0 = s) as -> by congruence. assert (s1 = s) as -> by congruence.
    assert (r1 = r) as -> by congruence. rewrite Eo. cbn. split_and!.
    + apply list_lookup_insert_eq. by eapply lookup_lt_Some.
    + exists r'. split; [|done]. apply list_lookup_insert_eq. by eapply lookup_lt_Some.
    + destruct v as [v|]; cbn; [|done]. pose proof (u64_range v).
      apply pdo_get_set; [apply Hw|clia|by apply (xw_handles _ _ Hw i s)].
  - intros j t Hne Hj Ht. cbn. rewrite !list_lookup_insert_ne by done. split_and!; auto.
    intros Hd Hot. by apply (put_other x io i j s t v).
Qed.

Lemma rt_slots_spec k1 lost x io l i s :
  xchg_wf x io -> outputs_disjoint x -> NoDup l -> Forall (fun k => Z.of_nat k < nslots x) l -> Z.of_nat i < nslots x ->
  slot x !! i = Some s -> s_is_out s = true ->
  let '(x', io') := foldl (rt_slot k1 lost) (x, io) l in
  xchg_wf x' io' /\ sp_frame x x' /\
  if decide (i ∈ l) then slot_after k1 lost x i x' (ecm_pdo_get (s_h s) io) (ecm_pdo_get (s_h s) io')
  else slot x' !! i = Some s /\ sp x' !! i = sp x !! i /\ ecm_pdo_get (s_h s) io' = ecm_pdo_get (s_h s) io.
Proof.
  revert x io s. induction l as [|k l IH]; intros x io s Hw Hd Hnd Hl Hi Hs Ho; cbn [foldl].
  { rewrite decide_False by set_solver. split_and!; auto using sp_frame_refl. }
  apply Forall_cons_1 in Hl as [Hk Hl]. inversion_clear Hnd as [|? ? Hnk Hnd2]. rename Hnd2 into Hnd.
  pose proof (rt_slot_step k1 lost x io k Hw Hk) as H.
  destruct (rt_slot k1 lost (x, io) k) as [x1 io1]. destruct H as (W1 & F1 & A1 & O1).
  assert (D1 : outputs_disjoint x1) by (destruct F1; by apply (outputs_disjoint_shape x)).
  destruct (slot x1 !! i) as [s1|] eqn:Hs1.
  2:{ apply lookup_ge_None_1 in Hs1. rewrite (xw_slot _ _ W1) in Hs1. pose proof (xw_n _ _ Hw). lia. }
  assert (Hsh : shape s1 = shape s).
  { pose proof (f_equal (fun l => l !! i) (pf_shape _ _ F1)) as E. cbn in E.
    rewrite !list_lookup_fmap, Hs, Hs1 in E. by apply (inj Some) in E. }
  injection Hsh as Hh Hout.
  specialize (IH x1 io1 s1 W1 D1 Hnd). rewrite (pf_n _ _ F1) in IH. specialize (IH Hl Hi Hs1 ltac:(congruence)).
  destruct (foldl (rt_slot k1 lost) (x1, io1) l) as [x2 io2]. destruct IH as (W2 & F2 & S2).
  split_and!; [done|by apply (sp_frame_trans x x1)|]. rewrite Hh in S2.
  destruct (decide (i = k)) as [->|Hne].
  - rewrite decide_True by set_solver. rewrite decide_False in S2 by done. destruct S2 as (S2 & P2 & G2).
    intros s0 r0 Hs0 Hr0 Ho0. specialize (A1 s Hs s0 r0 Hs0 Hr0 Ho0). rewrite S2, P2, G2, <- Hs1.
    done.
  - destruct (O1 i s Hne Hi Hs) as (S1 & P1 & G1). assert (s1 = s) as -> by congruence.
    destruct (decide (i ∈ l)) as [Hin|Hin].
    + rewrite decide_True by set_solver. intros s0 r0 Hs0 Hr0 Ho0.
      rewrite <- G1 by done. apply (S2 s0 r0); congruence.
    + rewrite decide_False by set_solver. destruct S2 as (S2 & P2 & G2). rewrite S2, P2, G2. auto.
Qed.

Lemma cmd_exec_wf lost x io c : xchg_wf x io -> 0 <= c_target c ->
  xchg_wf (cmd_exec lost (x, io) c).1 (cmd_exec lost (x, io) c).2 /\ same_frame x (cmd_exec lost (x, io) c).1.
Proof.
  intros Hw Htg. unfold cmd_exec.
  destruct ((c_op c =? ECM_XOP_SET) && (c_target c <? nslots x)
            && s_is_out (slot x !!! Z.to_nat (c_target c)) && negb lost) eqn:Ec.
  - bprop. destruct (lookup_lt_is_Some_2 (slot x) (Z.to_nat (c_target c))) as [t Ht];
      [rewrite (xw_slot _ _ Hw); pose proof (xw_n _ _ Hw); lia|].
    rewrite (list_lookup_total_correct _ _ _ Ht) in *. unfold apply.
    destruct (xchg_wf_put x io (Z.to_nat (c_target c)) t (t <| s_last := c_arg0 c |> <| s_armed := true |>) (Some (c_arg0 c)) Hw
                ltac:(lia) Ht eq_refl) as [W S].
    split; [destruct W; by constructor|by constructor].
  - case_if; (split; [destruct Hw; by constructor|by constructor]).
Qed.

Lemma cmd_fold_wf lost l x io : xchg_wf x io -> Forall (fun c => 0 <= c_target c) l ->
  xchg_wf (foldl (cmd_exec lost) (x, io) l).1 (foldl (cmd_exec lost) (x, io) l).2 /\
  same_frame x (foldl (cmd_exec lost) (x, io) l).1.
Proof.
  revert x io. induction l as [|c l IH]; intros x io Hw Hl; [split; [done|by constructor]|].
  apply Forall_cons_1 in Hl as [Hc Hl]. destruct (cmd_exec_wf lost x io c Hw Hc) as [W F]. cbn [foldl].
  destruct (cmd_exec lost (x, io) c) as [x1 io1]. destruct (IH x1 io1 W Hl) as [W2 F2].
  split; [done|by apply (same_frame_trans x x1)].
Qed.

Lemma rt_slots_wf k1 lost x io l : xchg_wf x io -> Forall (fun k => Z.of_nat k < nslots x) l ->
  xchg_wf (foldl (rt_slot k1 lost) (x, io) l).1 (foldl (rt_slot k1 lost) (x, io) l).2 /\
  sp_frame x (foldl (rt_slot k1 lost) (x, io) l).1.
Proof.
  revert x io. induction l as [|k l IH]; intros x io Hw Hl; [split; [done|apply sp_frame_refl]|].
  apply Forall_cons_1 in Hl as [Hk Hl]. pose proof (rt_slot_step k1 lost x io k Hw Hk) as H. cbn [foldl].
  destruct (rt_slot k1 lost (x, io) k) as [x1 io1]. destruct H as (W & F & _).
  rewrite <- (pf_n _ _ F) in Hl. destruct (IH x1 io1 W Hl) as [W2 F2].
  split; [done|by apply (sp_frame_trans x x1)].
Qed.

(** *** The state phase *)

Lemma rt_states_spec io tick v l x : length (st x) = 32%nat -> Forall xst_wf (st x) -> NoDup l ->
  Forall (fun i => (i < 32)%nat) l ->
  exists st', foldl (rt_state io tick v) x l = x <| st := st' |> /\ length st' = 32%nat /\ Forall xst_wf st' /\
    forall i, st' !!! i = if decide (i ∈ l)
      then ecm_xst_write (st x !!! i) tick (slot_words io v (slot x !!! i) (st x !!! i)) ECM_XS_NWORDS
      else st x !!! i.
Proof.
  revert x. induction l as [|k l IH]; intros x Hl Hw Hnd Hlt; cbn [foldl].
  { exists (st x). split_and!; [destruct x; done|done|done|]. intros i. rewrite decide_False by set_solver. done. }
  apply Forall_cons_1 in Hlt as [Hk Hlt]. inversion_clear Hnd as [|? ? Hnk Hnd'].
  assert (Hw1 : xst_wf (st x !!! k)).
  { destruct (lookup_lt_is_Some_2 (st x) k) as [r Hr]; [lia|]. rewrite (list_lookup_total_correct _ _ _ Hr).
    by eapply Forall_lookup_1. }
  destruct (IH (rt_state io tick v x k)) as (st' & -> & L & W & G); unfold rt_state; cbn; auto.
  { by rewrite length_insert. }
  { apply Forall_insert; [done|]. by apply xst_write_wf. }
  exists st'. split_and!; auto. intros i. rewrite G. cbn. destruct (decide (i = k)) as [->|Hne].
  - rewrite decide_False by done. rewrite decide_True by set_solver.
    apply list_lookup_total_insert_eq. lia.
  - rewrite list_lookup_total_insert_ne by done.
    destruct (decide (i ∈ l)); [rewrite decide_True by set_solver|rewrite decide_False by set_solver]; done.
Qed.

(** *** The whole hook *)

Definition clock_words (x : ecm_xchg_t) (t_send_ns : Z) (in_valid bus_lost : bool) : list Z :=
  [t_send_ns; cycle_ns x; b2z in_valid; b2z bus_lost;
   cmd_applied x; cmd_deferred x; last_seq x; cmd_unknown x].

Lemma seq_slots x io : xchg_wf x io -> Forall (fun k => Z.of_nat k < nslots x) (seq 0 (Z.to_nat (nslots x))).
Proof. intros [Hn _ _ _ _ _ _ _ _ _ _]. apply Forall_lookup_2. intros i k Hk. apply lookup_seq in Hk as [-> Hi]. lia. Qed.

(** The hook is the three phases in a row: commands to [x1], setpoints to
    [x2], records to the result. *)
Lemma xchg_rt_phases x io tick ts v lost : xchg_wf x io ->
  let k1 := u64 (tick + 1) in
  let q := xring_queue (cmd x) in
  let l := cmds_now k1 8 q in
  exists r x1 io1 x2 io2 st',
    foldl (cmd_exec lost) (x, io) l = (x1, io1) /\ same_frame x x1 /\
    xring_queue r = drop (length l) q /\
    let x1' := x1 <| cmd := r |> <| cmd_deferred := bump (if cmds_left k1 8 q then 1 else 0) (cmd_deferred x) |> in
    xchg_wf x1' io1 /\
    foldl (rt_slot k1 lost) (x1', io1) (seq 0 (Z.to_nat (nslots x))) = (x2, io2) /\
    xchg_wf x2 io2 /\ sp_frame x1' x2 /\ length st' = 32%nat /\ Forall xst_wf st' /\
    (forall i, Z.of_nat i < nslots x -> st' !!! i =
       ecm_xst_write (st x !!! i) tick (slot_words io2 v (slot x2 !!! i) (st x !!! i)) ECM_XS_NWORDS) /\
    ecm_xchg_rt x io tick ts v lost =
      (x2 <| st := st' |> <| clock := ecm_xst_write (clock x) tick (clock_words x2 ts v lost) ECM_XC_NWORDS |>, io2).
Proof.
  intros Hw k1 q l. pose proof (xw_targets _ _ Hw) as Ht. fold q in Ht.
  assert (Hl : Forall (fun c => 0 <= c_target c) l).
  { unfold l, cmds_now. apply Forall_take. clear -Ht. induction Ht as [|c q' Hc Hq IH]; [constructor|].
    cbn. case_if; [by constructor|constructor]. }
  destruct (cmd_fold_wf lost l x io Hw Hl) as [W1 F1].
  destruct (cmd_loop_spec 9 8 k1 lost x io ltac:(lia) ltac:(lia) (xw_cmd _ _ Hw)) as (r & R1 & R2 & R3).
  fold q l in R2, R3. change (8 - Z.of_nat 8) with 0 in R3.
  destruct (foldl (cmd_exec lost) (x, io) l) as [x1 io1] eqn:E1. cbn [fst snd] in *.
  set (x1' := x1 <| cmd := r |> <| cmd_deferred := bump (if cmds_left k1 8 q then 1 else 0) (cmd_deferred x) |>) in *.
  assert (W1' : xchg_wf x1' io1).
  { destruct W1. constructor; cbn; auto. rewrite R2. by apply Forall_drop. }
  assert (N1 : nslots x1' = nslots x) by (unfold x1'; cbn; apply F1).
  pose proof (seq_slots _ _ W1') as Hsq. rewrite N1 in Hsq.
  destruct (rt_slots_wf k1 lost x1' io1 (seq 0 (Z.to_nat (nslots x)))) as [W2 F2]; [done|by rewrite N1|].
  destruct (foldl (rt_slot k1 lost) (x1', io1) (seq 0 (Z.to_nat (nslots x)))) as [x2 io2] eqn:E2. cbn [fst snd] in *.
  pose proof (xw_n _ _ Hw) as Hn.
  destruct (rt_states_spec io2 tick v (seq 0 (Z.to_nat (nslots x))) x2) as (st' & S1 & S2 & S3 & S4).
  { apply W2. } { apply W2. } { apply NoDup_seq. }
  { apply Forall_lookup_2. intros i k Hk. apply lookup_seq in Hk as [-> Hi]. lia. }
  assert (N2 : nslots x2 = nslots x) by (rewrite (pf_n _ _ F2); done).
  exists r, x1, io1, x2, io2, st'. split_and!; auto.
  - intros i Hi. rewrite S4, decide_True by (apply elem_of_seq; lia).
    rewrite (pf_st _ _ F2). unfold x1'; cbn. by rewrite (sf_st _ _ F1).
  - unfold ecm_xchg_rt. fold k1. rewrite R3. rewrite N1, E2, N2, S1. cbn. unfold clock_words.
    rewrite (pf_clock _ _ F2). unfold x1'; cbn. by rewrite (sf_clock _ _ F1).
Qed.

Lemma cmds_now_split k1 b q : q = cmds_now k1 b q ++ drop (length (cmds_now k1 b q)) q.
Proof.
  assert (Hp : cmds_now k1 b q `prefix_of` q).
  { unfold cmds_now. transitivity (take_while (fun c => c_tick c <=? k1) q).
    - eexists. symmetry. apply take_drop.
    - induction q as [|c q IH]; cbn; [done|]. case_if; [by apply prefix_cons|apply prefix_nil]. }
  destruct Hp as [t Ht]. rewrite Ht at 1. f_equal. symmetry.
  rewrite <- (drop_app_length (cmds_now k1 b q) t). f_equal. done.
Qed.

(** The counters the command loop keeps. *)
Lemma cmd_fold_counts lost l x io :
  cmd_applied (foldl (cmd_exec lost) (x, io) l).1 = bump (length l) (cmd_applied x) /\
  last_seq (foldl (cmd_exec lost) (x, io) l).1 = default (last_seq x) (c_seq <$> last l).
Proof.
  revert x io. induction l as [|c l IH]; intros x io; [done|]. cbn [foldl length].
  destruct (cmd_exec lost (x, io) c) as [x1 io1] eqn:E1. destruct (IH x1 io1) as [-> ->].
  assert (Hx : cmd_applied x1 = u64 (cmd_applied x + 1) /\ last_seq x1 = c_seq c).
  { apply (f_equal fst) in E1. cbn [fst] in E1. subst x1. unfold cmd_exec, apply. repeat case_if; done. }
  destruct Hx as [-> ->]. rewrite bump_S. split; [done|]. destruct l as [|d l]; [done|].
  change (last (c :: d :: l)) with (last (d :: l)).
  destruct (last (d :: l)) eqn:El; [done|]. by apply last_None in El.
Qed.

(** The output value of a slot after the hook, with the slot and its queue. *)
Lemma xchg_rt_output x io tick ts v lost i s r :
  xchg_wf x io -> outputs_disjoint x -> Z.of_nat i < nslots x -> slot x !! i = Some s -> sp x !! i = Some r ->
  s_is_out s = true ->
  let k1 := u64 (tick + 1) in
  let s1 := foldl (cmd_slot i lost) s (cmds_now k1 8 (xring_queue (cmd x))) in
  let '(s2, q2, out) := slot_out k1 lost s1 (xring_queue r) in
  let '(x', io') := ecm_xchg_rt x io tick ts v lost in
  slot x' !! i = Some s2 /\ (exists r', sp x' !! i = Some r' /\ xring_queue r' = q2) /\
  ecm_pdo_get (s_h s) io' =
    match out with Some o => u64 o mod 2 ^ h_bits (s_h s) | None => ecm_pdo_get (s_h s) io end.
Proof.
  intros Hw Hd Hi Hs Hr Ho k1 s1.
  destruct (xchg_rt_phases x io tick ts v lost Hw) as
    (rc & x1 & io1 & x2 & io2 & st' & E1 & F1 & Q1 & W1 & E2 & W2 & F2 & _ & _ & _ & Ert).
  fold k1 in E1, Q1, W1, E2, F2. rewrite Ert.
  assert (Hl : Forall (fun c => 0 <= c_target c) (cmds_now k1 8 (xring_queue (cmd x)))).
  { unfold cmds_now. apply Forall_take. pose proof (xw_targets _ _ Hw) as Ht. clear -Ht.
    induction Ht as [|c q' Hc Hq IH]; [constructor|]. cbn. case_if; [by constructor|constructor]. }
  pose proof (cmd_fold_spec lost _ x io i s Hw Hd Hl Hi Hs Ho) as H1. rewrite E1 in H1. fold s1 in H1.
  destruct H1 as (_ & _ & Hs1 & G1).
  assert (Hsh : shape s1 = shape s).
  { unfold s1. generalize (cmds_now k1 8 (xring_queue (cmd x))). intros l. clear. revert s.
    induction l as [|c l IH]; intros s; [done|]. cbn. rewrite IH. apply cmd_slot_shape. }
  injection Hsh as Hh Hout.
  match type of W1 with xchg_wf ?y _ => set (x1' := y) in * end.
  assert (D1 : outputs_disjoint x1').
  { apply (outputs_disjoint_shape x); [apply F1|apply F1|done]. }
  pose proof (rt_slots_spec k1 lost x1' io1 (seq 0 (Z.to_nat (nslots x))) i s1 W1 D1 (NoDup_seq _ _)) as H2.
  assert (N1 : nslots x1' = nslots x) by apply F1. rewrite N1 in H2.
  pose proof (seq_slots _ _ W1) as Hsq. rewrite N1 in Hsq.
  specialize (H2 Hsq Hi Hs1 ltac:(congruence)). rewrite E2 in H2. destruct H2 as (_ & _ & H2).
  rewrite decide_True in H2 by (apply elem_of_seq; lia).
  assert (Hr1 : sp x1' !! i = Some r) by (unfold x1'; cbn; by rewrite (sf_sp _ _ F1)).
  specialize (H2 s1 r Hs1 Hr1 ltac:(congruence)). rewrite Hh in H2. cbn.
  destruct (slot_out k1 lost s1 (xring_queue r)) as [[s2 q2] out] eqn:Eo.
  destruct H2 as (A & B & G). split_and!; [done|done|]. rewrite G. destruct out as [o|]; [done|].
  destruct G1 as [G1|[-> Ha]]; [done|]. exfalso. clear -Eo Ha. revert Eo. unfold slot_out.
  destruct (sp_due _ _ _); [done|]. unfold sp_count. cbn. rewrite Ha. done.
Qed.

(** C26: the value of an output slot after the RT hook of tick [k], on every
    path: the SET commands due now (in order, at most eight) update the held
    value, then the setpoint queue decides -- the entry for frame [k+1] is
    written and consumed, otherwise an armed slot holds its last value and
    counts an underrun, and with the bus lost or before the first value
    nothing is written.  Late entries (at most sixteen) leave the queue and
    are counted.  Writes to the other slots do not disturb the value. *)
Theorem xchg_output_value x io tick ts v lost i s r :
  xchg_wf x io -> outputs_disjoint x -> Z.of_nat i < nslots x -> slot x !! i = Some s -> sp x !! i = Some r ->
  s_is_out s = true ->
  let k1 := u64 (tick + 1) in
  let s1 := foldl (cmd_slot i lost) s (cmds_now k1 8 (xring_queue (cmd x))) in
  let '(s2, q2, out) := slot_out k1 lost s1 (xring_queue r) in
  let '(x', io') := ecm_xchg_rt x io tick ts v lost in
  slot x' !! i = Some s2 /\ (exists r', sp x' !! i = Some r' /\ xring_queue r' = q2) /\
  ecm_pdo_get (s_h s) io' =
    match out with Some o => u64 o mod 2 ^ h_bits (s_h s) | None => ecm_pdo_get (s_h s) io end.
Proof. apply xchg_rt_output. Qed.

(** C27: a setpoint reaches its frame: with a live bus, a queue whose ticks
    increase, at most sixteen entries overdue and one entry for frame [k+1],
    the hook of tick [k] puts exactly that entry's value into the IOmap and
    removes it and the overdue ones from the queue. *)
Theorem xchg_setpoint_delivered x io tick ts v i s r old e later :
  xchg_wf x io -> outputs_disjoint x -> Z.of_nat i < nslots x -> slot x !! i = Some s -> sp x !! i = Some r ->
  s_is_out s = true -> xring_queue r = old ++ e :: later -> (length old <= 16)%nat ->
  Forall (fun o => e_tick o < e_tick e) old -> e_tick e = u64 (tick + 1) ->
  let '(x', io') := ecm_xchg_rt x io tick ts v false in
  ecm_pdo_get (s_h s) io' = u64 (e_v e !!! 0%nat) mod 2 ^ h_bits (s_h s) /\
  exists r', sp x' !! i = Some r' /\ xring_queue r' = later.
Proof.
  intros Hw Hd Hi Hs Hr Ho Hq Hlen Hold He.
  pose proof (xchg_rt_output x io tick ts v false i s r Hw Hd Hi Hs Hr Ho) as H. cbv zeta in H.
  set (s1 := foldl _ s _) in H. unfold slot_out in H. rewrite Hq, <- He in H.
  assert (Hdrop : sp_drop (e_tick e) false 16 (old ++ e :: later) = old).
  { unfold sp_drop. assert (take_while (sp_dead (e_tick e) false) (old ++ e :: later) = old) as ->.
    { clear -Hold. induction Hold as [|o old Hlt Hold IH]; cbn; unfold sp_dead at 1; cbn.
      - rewrite Z.ltb_irrefl. done.
      - rewrite (proj2 (Z.ltb_lt _ _)) by done. cbn. by rewrite IH. }
    by apply take_ge. }
  rewrite Hdrop, drop_app_length in H. unfold sp_due in H. cbn [negb andb] in H. rewrite Z.eqb_refl in H.
  cbn [tail] in H. destruct (ecm_xchg_rt x io tick ts v false). destruct H as (_ & Hr' & Hg). done.
Qed.

(** The RT hook takes the commands in order and in bounded number: with
    [l] the due prefix of the queue cut at eight, exactly [l] leaves the queue
    (a command for a later tick keeps its place and holds back the ones
    behind it), the applied counter advances by the length of [l], the echoed
    sequence number is that of its last command, and a due command left
    behind is counted once as deferred. *)
Theorem xchg_commands_fifo x io tick ts v lost :
  xchg_wf x io ->
  let k1 := u64 (tick + 1) in
  let q := xring_queue (cmd x) in
  let l := cmds_now k1 8 q in
  let x' := (ecm_xchg_rt x io tick ts v lost).1 in
  (length l <= 8)%nat /\ q = l ++ xring_queue (cmd x') /\
  cmd_applied x' = bump (length l) (cmd_applied x) /\
  last_seq x' = default (last_seq x) (c_seq <$> last l) /\
  cmd_deferred x' = bump (if cmds_left k1 8 q then 1 else 0) (cmd_deferred x).
Proof.
  intros Hw k1 q l x'.
  destruct (xchg_rt_phases x io tick ts v lost Hw) as
    (rc & x1 & io1 & x2 & io2 & st' & E1 & F1 & Q1 & W1 & E2 & W2 & F2 & _ & _ & _ & Ert).
  unfold x'. rewrite Ert. fold k1 q l in E1, Q1, F2. cbn.
  destruct F2 as [_ _ _ Fc _ _ (Fa & Fd & _ & Fl)]. rewrite Fc, Fa, Fd, Fl. cbn.
  pose proof (cmd_fold_counts lost l x io) as [Ca Cl]. rewrite E1 in Ca, Cl. split_and!; auto.
  - unfold l, cmds_now. rewrite length_take. lia.
  - rewrite Q1. apply cmds_now_split.
Qed.

(** *** The IOmap keeps its size *)

Lemma set_loop_length fuel bits bit k v io : length (set_loop fuel bits bit k v io) = length io.
Proof.
  revert bit k io. induction fuel as [|fuel IH]; intros bit k io; [done|]. cbn.
  case_if; [|done]. rewrite IH. apply length_insert.
Qed.

Lemma pdo_set_length h io v : length (ecm_pdo_set h io v) = length io.
Proof. apply set_loop_length. Qed.

Lemma cmd_exec_length lost st c : length (cmd_exec lost st c).2 = length st.2.
Proof. destruct st as [x io]. unfold cmd_exec, apply. repeat case_if; cbn -[ecm_pdo_set]; auto using pdo_set_length. Qed.

Lemma cmd_loop_length fuel k1 lost n x io : length (cmd_loop fuel k1 lost n x io).2 = length io.
Proof.
  revert n x io. induction fuel as [|fuel IH]; intros n x io; [done|]. cbn [cmd_loop].
  destruct (ecm_xring_peek (cmd x)) as [c|]; [|done]. repeat case_if; try done.
  pose proof (cmd_exec_length lost (x, io) c) as H. destruct (cmd_exec lost (x, io) c).
  rewrite IH. done.
Qed.

Lemma sp_loop_length fuel k1 lost n r s io : length (sp_loop fuel k1 lost n r s io).1.2 = length io.
Proof.
  revert n r s. induction fuel as [|fuel IH]; intros n r s; [done|]. cbn.
  destruct (ecm_xring_peek r); [|done]. repeat case_if; try done; try apply IH. apply pdo_set_length.
Qed.

Lemma rt_slot_length k1 lost xi i : length (rt_slot k1 lost xi i).2 = length xi.2.
Proof.
  destruct xi as [x io]. unfold rt_slot. case_if; [done|].
  pose proof (sp_loop_length 17 k1 lost 0 (sp x !!! i) (slot x !!! i) io) as H.
  destruct (sp_loop 17 k1 lost 0 (sp x !!! i) (slot x !!! i) io) as [[[r s] io1] got]. cbn in H.
  case_if; cbn -[ecm_pdo_set]; [|done]. by rewrite pdo_set_length.
Qed.

Lemma rt_slots_length k1 lost l xi : length (foldl (rt_slot k1 lost) xi l).2 = length xi.2.
Proof. revert xi. induction l as [|i l IH]; intros xi; [done|]. cbn. by rewrite IH, rt_slot_length. Qed.

Lemma xchg_rt_length x io tick ts v lost : length (ecm_xchg_rt x io tick ts v lost).2 = length io.
Proof.
  unfold ecm_xchg_rt. pose proof (cmd_loop_length 9 (u64 (tick + 1)) lost 0 x io) as H1.
  destruct (cmd_loop _ _ _ _ _ _) as [x1 io1]. cbn in H1.
  pose proof (rt_slots_length (u64 (tick + 1)) lost (seq 0 (Z.to_nat (nslots x1))) (x1, io1)) as H2.
  destruct (foldl _ (x1, io1) _) as [x2 io2]. cbn in *. lia.
Qed.

(** *** Sequences of calls *)

Inductive xop :=
  | XAdd (h : ecm_pdo_handle_t) | XCmd (c : ecm_xcmd_t) | XSp (i tick v0 : Z)
  | XRt (tick t_send_ns : Z) (in_valid bus_lost : bool).

Definition xdo (xi : ecm_xchg_t * list Z) (o : xop) : ecm_xchg_t * list Z :=
  match o with
  | XAdd h => ((ecm_xchg_add_slot xi.1 (Some h)).1, xi.2)
  | XCmd c => ((ecm_xchg_cmd xi.1 c).1, xi.2)
  | XSp i tick v0 => ((ecm_xchg_setpoint xi.1 i tick v0).1, xi.2)
  | XRt tick ts v lost => ecm_xchg_rt xi.1 xi.2 tick ts v lost
  end.

(** The arguments the types and the binding of the objects guarantee. *)
Definition xop_ok (len : nat) (o : xop) : Prop :=
  match o with
  | XAdd h => 0 <= h_bit h /\ 0 <= h_bits h <= 64 /\ h_bit h + h_bits h <= 8 * Z.of_nat len /\
              8 * Z.of_nat len <= 4294967296
  | XCmd c => 0 <= c_target c
  | _ => True
  end.

Lemma xring_push_wf `{!Inhabited E} (r : ecm_xring_t E) e : xring_wf r ->
  xring_wf (ecm_xring_push r e).1 /\
  (xring_queue (ecm_xring_push r e).1 = xring_queue r \/ xring_queue (ecm_xring_push r e).1 = xring_queue r ++ [e]).
Proof.
  intros H. split; [apply (rq_push_wf (SpscRing := xring_ring) r e H)|].
  pose proof (rq_push_spec (SpscRing := xring_ring) r e H) as Hp. cbn in Hp. case_if_in Hp; destruct Hp as [_ Hp]; auto.
Qed.

Lemma xdo_wf x io o : xchg_wf x io -> xop_ok (length io) o -> xchg_wf (xdo (x, io) o).1 (xdo (x, io) o).2.
Proof.
  intros Hw Hok. destruct o as [h|c|i tick v0|tick ts v lost]; cbn in *.
  - case_if; [done|]. bprop. unfold ECM_XCHG_MAX_SLOTS in *. destruct Hw. constructor; cbn; auto; [lia|by rewrite length_insert|].
    intros j s Hj Hs. destruct (decide (Z.to_nat (nslots x) = j)) as [<-|Hne].
    + rewrite list_lookup_insert_eq in Hs by lia. injection Hs as <-. done.
    + rewrite list_lookup_insert_ne in Hs by done. apply (xw_handles0 j s); [lia|done].
  - unfold ecm_xchg_cmd. destruct (xring_push_wf (cmd x) c (xw_cmd _ _ Hw)) as [W Q].
    destruct (ecm_xring_push (cmd x) c) as [r ok]. cbn in *. destruct Hw. constructor; cbn; auto.
    destruct Q as [->| ->]; [done|]. apply Forall_app. split; [done|]. by repeat constructor.
  - unfold ecm_xchg_setpoint. case_if; [done|]. bprop.
    assert (Hr : xring_wf (sp x !!! Z.to_nat i)).
    { destruct (lookup_lt_is_Some_2 (sp x) (Z.to_nat i)) as [r Hr]; [rewrite (xw_sp _ _ Hw); pose proof (xw_n _ _ Hw); lia|].
      rewrite (list_lookup_total_correct _ _ _ Hr). eapply Forall_lookup_1; [apply Hw|done]. }
    destruct (xring_push_wf _ (mkxsp tick [v0; 0; 0]) Hr) as [W _].
    destruct (ecm_xring_push _ _) as [r ok]. cbn in *. destruct Hw. constructor; cbn; auto; [by rewrite length_insert|].
    by apply Forall_insert.
  - destruct (xchg_rt_phases x io tick ts v lost Hw) as
      (rc & x1 & io1 & x2 & io2 & st' & E1 & F1 & Q1 & W1 & E2 & W2 & F2 & L & Wst & _ & ->).
    destruct W2. constructor; cbn; auto. apply xst_write_wf. apply Hw.
Qed.

Lemma xdo_length xi o : length (xdo xi o).2 = length xi.2.
Proof. destruct xi as [x io], o; cbn; auto using xchg_rt_length. Qed.

Lemma xrun_wf ops x io : xchg_wf x io -> Forall (xop_ok (length io)) ops ->
  xchg_wf (foldl xdo (x, io) ops).1 (foldl xdo (x, io) ops).2.
Proof.
  revert x io. induction ops as [|o ops IH]; intros x io Hw Hok; [done|]. apply Forall_cons_1 in Hok as [Ho Hok].
  cbn [foldl]. pose proof (xdo_wf x io o Hw Ho) as W. pose proof (xdo_length (x, io) o) as L.
  destruct (xdo (x, io) o) as [x1 io1]. cbn in *. apply IH; [done|]. by rewrite L.
Qed.

Lemma xchg_init_wf cyc io : bytes io -> xchg_wf (ecm_xchg_init cyc) io.
Proof.
  intros Hio.
  destruct (xring_init_wf (E := ecm_xcmd_t) 256) as [R1 Q1]; [lia|].
  destruct (xring_init_wf (E := ecm_xsp_t) 512) as [R2 Q2]; [lia|].
  assert (Z0 : xst_wf xst_zero) by (split_and!; done).
  constructor; try done.
  - by apply Forall_replicate.
  - by apply Forall_replicate.
  - intros i s Hi. cbn in Hi. lia.
Qed.

(** Every exchange that any sequence of calls can build (slots added,
    commands and setpoints queued, hooks run) is well-formed: rings within
    their capacity, records readable, the IOmap the same bytes in size, every
    slot's object inside it. *)
Theorem xchg_reachable_wf cyc io ops :
  bytes io -> Forall (xop_ok (length io)) ops ->
  let '(x, io') := foldl xdo (ecm_xchg_init cyc, io) ops in xchg_wf x io' /\ length io' = length io.
Proof.
  intros Hio Hok. pose proof (xrun_wf ops _ io (xchg_init_wf cyc io Hio) Hok) as W.
  assert (L : forall xi, length (foldl xdo xi ops).2 = length xi.2).
  { clear. induction ops as [|o ops IH]; intros xi; [done|]. cbn. by rewrite IH, xdo_length. }
  specialize (L (ecm_xchg_init cyc, io)). destruct (foldl xdo (ecm_xchg_init cyc, io) ops). done.
Qed.

(** With the bus lost nothing of the loops writes. *)
Lemma cmd_loop_lost fuel k1 n x io : (cmd_loop fuel k1 true n x io).2 = io.
Proof.
  revert n x. induction fuel as [|fuel IH]; intros n x; [done|]. cbn [cmd_loop].
  destruct (ecm_xring_peek (cmd x)) as [c|]; [|done]. repeat case_if; try done.
  unfold cmd_exec. rewrite andb_false_r. case_if; apply IH.
Qed.

Lemma sp_loop_lost fuel k1 n r s io : (sp_loop fuel k1 true n r s io).1.2 = io.
Proof.
  revert n r s. induction fuel as [|fuel IH]; intros n r s; [done|]. cbn.
  destruct (ecm_xring_peek r); [|done]. repeat case_if; try done; apply IH.
Qed.

(** While the bus is lost the RT hook leaves the IOmap exactly as it
    was, whatever commands and setpoints are queued. *)
Theorem xchg_bus_lost_silent x io tick ts v : (ecm_xchg_rt x io tick ts v true).2 = io.
Proof.
  unfold ecm_xchg_rt. pose proof (cmd_loop_lost 9 (u64 (tick + 1)) 0 x io) as H.
  destruct (cmd_loop _ _ _ _ _ _) as [x1 io1]. cbn in H. subst io1.
  assert (Hs : forall l y, (foldl (rt_slot (u64 (tick + 1)) true) (y, io) l).2 = io).
  { induction l as [|i l IH]; intros y; [done|]. cbn [foldl].
    assert (Hr : (rt_slot (u64 (tick + 1)) true (y, io) i).2 = io).
    { unfold rt_slot. case_if; [done|].
      pose proof (sp_loop_lost 17 (u64 (tick + 1)) 0 (sp y !!! i) (slot y !!! i) io) as Hl.
      destruct (sp_loop _ _ _ _ _ _ _) as [[[r s] io1] got]. cbn in Hl |- *. by rewrite andb_false_r. }
    destruct (rt_slot _ _ (y, io) i) as [y1 io1]. cbn in Hr. subst io1. apply IH. }
  specialize (Hs (seq 0 (Z.to_nat (nslots x1))) x1). destruct (foldl _ (x1, io) _) as [x2 io2]. done.
Qed.

(** What the hook publishes is what a reader gets: after the hook of
    tick [k] the record of slot [i] carries [k], the slot's counters and its
    value -- the bits of the IOmap now, or, for an input whose frame was
    not valid, the value of the previous record -- and the clock record
    carries the tick, the send time and the counters of the command loop. *)
Theorem xchg_state_published x io tick ts v lost i :
  xchg_wf x io -> 0 <= i < nslots x ->
  let '(x', io') := ecm_xchg_rt x io tick ts v lost in
  let s := slot x' !!! Z.to_nat i in
  let valid := if s_is_out s then s_armed s else v in
  let value := if s_is_out s || v then Some (ecm_pdo_get (s_h s) io')
               else (fun t => t.2 !!! 0%nat) <$> ecm_xchg_read_slot x i in
  ecm_xchg_read_slot x' i =
    (fun w => (tick, [w; s_used s; s_late s; s_underrun s; s_dropped_lost s; b2z valid])) <$> value /\
  ecm_xchg_read_clock x' = Some (tick, clock_words x' ts v lost) /\
  is_Some (ecm_xchg_read_slot x' i).
Proof.
  intros Hw Hi.
  destruct (xchg_rt_phases x io tick ts v lost Hw) as
    (rc & x1 & io1 & x2 & io2 & st' & E1 & F1 & Q1 & W1 & E2 & W2 & F2 & L & Wst & Hst & ->).
  assert (N2 : nslots x2 = nslots x) by (rewrite (pf_n _ _ F2); apply F1).
  assert (Hrec : xst_wf (st x !!! Z.to_nat i)).
  { destruct (lookup_lt_is_Some_2 (st x) (Z.to_nat i)) as [r Hr]; [rewrite (xw_st _ _ Hw); pose proof (xw_n _ _ Hw); lia|].
    rewrite (list_lookup_total_correct _ _ _ Hr). eapply Forall_lookup_1; [apply Hw|done]. }
  assert (Hread : forall n, ecm_xst_read (st x !!! Z.to_nat i) 6 (S n) =
            Some (st_tick (st x !!! Z.to_nat i), take 6 (st_w (st x !!! Z.to_nat i)))).
  { intros n. destruct Hrec as (_ & Ho & _). cbn [ecm_xst_read]. by rewrite Ho, Z.eqb_refl. }
  assert (Hb : forall y, nslots y = nslots x -> (i <? 0) || (nslots y <=? i) = false).
  { intros y Hy. apply orb_false_iff. split; [apply Z.ltb_ge|apply Z.leb_gt]; lia. }
  unfold ecm_xchg_read_slot. cbn [upd nslots slot st clock]. rewrite !Hb by done.
  rewrite (Hst (Z.to_nat i)) by lia. unfold ECM_XS_NWORDS, ECM_XST_TRIES in *.
  rewrite xst_read_write by (done || lia). rewrite Hread.
  split_and!; [| |eauto].
  - unfold slot_words. unfold ECM_XS_NWORDS. rewrite Hread. by destruct (s_is_out (slot x2 !!! Z.to_nat i)), v.
  - unfold ecm_xchg_read_clock, ECM_XC_NWORDS, ECM_XST_TRIES. cbn [clock upd]. rewrite xst_read_write; [done|apply Hw|lia|done].
Qed.

(** *** Concrete runs *)

(** One 16-bit output at bit 4, one 8-bit input at bit 24 of a 5-byte IOmap. *)
Definition demo_out : ecm_pdo_handle_t := mkhandle 1 0 ECM_PDO_OUT 4 16.
Definition demo_in : ecm_pdo_handle_t := mkhandle 1 0 ECM_PDO_IN 24 8.
Definition demo_io : list Z := [255; 0; 240; 7; 9].
Definition demo_ops : list xop :=
  [XAdd demo_out; XAdd demo_in; XSp 0 9 100; XSp 0 11 4660; XSp 0 12 77;
   XCmd (mkxcmd 0 0 1 41 (-2) 0); XCmd (mkxcmd 0 0 300 42 0 0); XCmd (mkxcmd 50 0 1 43 5 0)].
Definition demo_x : ecm_xchg_t := (foldl xdo (ecm_xchg_init 1000000, demo_io) demo_ops).1.

Lemma demo_wf : xchg_wf demo_x demo_io.
Proof.
  apply (xrun_wf demo_ops (ecm_xchg_init 1000000) demo_io).
  - apply xchg_init_wf. unfold demo_io, bytes. repeat constructor; unfold is_u8; lia.
  - unfold demo_ops, demo_io. repeat constructor; cbn; lia.
Qed.

Lemma demo_disjoint : outputs_disjoint demo_x.
Proof.
  intros i j s t Hne Hi Hj Hs Ht Hos Hot. change (nslots demo_x) with 2 in *.
  assert (Hone : forall k u, (k < 2)%nat -> slot demo_x !! k = Some u -> s_is_out u = true -> k = 0%nat).
  { intros k u Hk Hu Ho. destruct k as [|[|k]]; [done| |lia]. vm_compute in Hu. injection Hu as <-. done. }
  pose proof (Hone i s ltac:(lia) Hs Hos). pose proof (Hone j t ltac:(lia) Ht Hot). lia.
Qed.

Lemma xchg_reachable_wf_witness :
  let '(x, io') := foldl xdo (ecm_xchg_init 1000000, demo_io) (demo_ops ++ [XRt 10 5000 true false]) in
  xchg_wf x io' /\ length io' = 5%nat.
Proof.
  apply (xchg_reachable_wf 1000000 demo_io).
  - unfold demo_io, bytes. repeat constructor; unfold is_u8; lia.
  - unfold demo_ops, demo_io. repeat constructor; cbn; lia.
Defined.

(** Tick 10: SET -2 is executed first, then the setpoint 4660 for frame 11
    replaces it; the entry for frame 9 is dropped as late. *)
Lemma xchg_output_value_witness :
  let '(x', io') := ecm_xchg_rt demo_x demo_io 10 5000 true false in
  s_late (slot x' !!! 0%nat) = 1 /\ s_used (slot x' !!! 0%nat) = 1 /\ ecm_pdo_get demo_out io' = 4660.
Proof.
  pose proof (xchg_output_value demo_x demo_io 10 5000 true false 0 (slot demo_x !!! 0%nat) (sp demo_x !!! 0%nat)
    demo_wf demo_disjoint eq_refl eq_refl eq_refl eq_refl) as H.
  cbv zeta in H. destruct (slot_out _ _ _ _) as [[s2 q2] out] eqn:Eo in H.
  destruct (ecm_xchg_rt demo_x demo_io 10 5000 true false) as [x' io'].
  destruct H as (Hs & _ & Hg). vm_compute in Eo. injection Eo as <- <- <-.
  rewrite (list_lookup_total_correct _ _ _ Hs). split_and!; [reflexivity|reflexivity|].
  etransitivity; [exact Hg|]. vm_compute. reflexivity.
Defined.

Lemma xchg_setpoint_delivered_witness :
  let '(x', io') := ecm_xchg_rt demo_x demo_io 10 5000 true false in
  ecm_pdo_get demo_out io' = 4660 /\
  exists r', sp x' !! 0%nat = Some r' /\ xring_queue r' = [mkxsp 12 [77; 0; 0]].
Proof.
  assert (H1 : slot demo_x !! 0%nat = Some (slot demo_x !!! 0%nat)) by (vm_compute; reflexivity).
  assert (H2 : sp demo_x !! 0%nat = Some (sp demo_x !!! 0%nat)) by (vm_compute; reflexivity).
  assert (H3 : s_is_out (slot demo_x !!! 0%nat) = true) by (vm_compute; reflexivity).
  assert (H4 : xring_queue (sp demo_x !!! 0%nat) =
    [mkxsp 9 [100; 0; 0]] ++ mkxsp 11 [4660; 0; 0] :: [mkxsp 12 [77; 0; 0]]) by (vm_compute; reflexivity).
  pose proof (xchg_setpoint_delivered demo_x demo_io 10 5000 true 0 _ _ _ _ _ demo_wf demo_disjoint eq_refl H1 H2 H3 H4
    ltac:(cbn; lia) ltac:(repeat constructor; cbn; lia) eq_refl) as H.
  destruct (ecm_xchg_rt demo_x demo_io 10 5000 true false) as [x' io']. destruct H as [Hg Hr].
  split; [|exact Hr]. etransitivity; [exact Hg|]. vm_compute. reflexivity.
Defined.

Lemma xchg_commands_fifo_witness :
  let x' := (ecm_xchg_rt demo_x demo_io 10 5000 true false).1 in
  cmd_applied x' = 2 /\ last_seq x' = 42 /\ cmd_deferred x' = 0.
Proof.
  destruct (xchg_commands_fifo demo_x demo_io 10 5000 true false demo_wf) as (_ & _ & Ha & Hl & Hd).
  cbv zeta. rewrite Ha, Hl, Hd. vm_compute. auto.
Defined.

Lemma xchg_state_published_witness :
  let '(x', io') := ecm_xchg_rt demo_x demo_io 10 5000 true false in
  ecm_xchg_read_slot x' 1 = Some (10, [7; 0; 0; 0; 0; 1]).
Proof.
  pose proof (xchg_state_published demo_x demo_io 10 5000 true false 1 demo_wf ltac:(vm_compute; split; congruence)) as H.
  destruct (ecm_xchg_rt demo_x demo_io 10 5000 true false) as [x' io'] eqn:E.
  destruct H as [H _]. rewrite H. apply (f_equal fst) in E as E1. apply (f_equal snd) in E as E2. cbn [fst snd] in E1, E2.
  rewrite <- E1, <- E2. vm_compute. reflexivity.
Defined.

End Xchg.
