(* ===== verification/Histogram.v ===== *)
(** * telemetry/histogram.c: the latency histogram

    A log-linear histogram of 120 buckets and an overflow bucket.  The bucket
    bounds come from [pow] of the C mathematical library: the model takes them
    as a function [bound], with what the code relies on -- the bounds do not
    decrease -- as the hypothesis [bound_mono].  The percentile multiplies the
    number of samples by a [double]; that product, converted to an integer, is
    the argument [scaled] of [hist_percentile]. *)
From Stdlib Require Import ZArith Lia Bool Sorted.
From S2P Require Import Prelude.
From stdpp Require Import base list numbers sets sorting.
Open Scope Z_scope.

Definition HIST_MIN_NS : Z := 100.
Definition HIST_DECADES : Z := 6.
Definition HIST_BUCKETS_PER_DECADE : Z := 20.
Definition HIST_NUM_BUCKETS : Z := HIST_DECADES * HIST_BUCKETS_PER_DECADE.
Definition HIST_OVERFLOW_IDX : Z := HIST_NUM_BUCKETS.

Record ecm_hist_t := mkhist {
  bucket_upper_ns : list Z; buckets : list Z;
  count : Z; sum_ns : Z; min_ns : Z; max_ns : Z
}.
#[export] Instance ecm_hist_eta : Eta ecm_hist_t := fun h =>
  mkhist (bucket_upper_ns h) (buckets h) (count h) (sum_ns h) (min_ns h) (max_ns h).

(** [bound i] is [(uint64_t)(HIST_MIN_NS * pow(10.0, (i + 1) / 20.0))]. *)
Definition hist_init (bound : Z -> Z) : ecm_hist_t :=
  mkhist (bound <$> seqZ 0 HIST_NUM_BUCKETS) (replicate (Z.to_nat (HIST_NUM_BUCKETS + 1)) 0)
    0 0 9223372036854775807 0.

Definition upper (h : ecm_hist_t) (i : Z) : Z := bucket_upper_ns h !!! Z.to_nat i.

(** The loop of the binary search on [lo, hi]; [fuel] bounds its rounds. *)
Fixpoint bucket_search (fuel : nat) (h : ecm_hist_t) (ns lo hi : Z) : Z :=
  match fuel with
  | O => lo
  | S fuel =>
      if lo <? hi then
        let mid := Z.quot (lo + hi) 2 in
        if u64 ns <=? upper h mid then bucket_search fuel h ns lo mid
        else bucket_search fuel h ns (mid + 1) hi
      else lo
  end.

Definition hist_bucket_index (h : ecm_hist_t) (ns : Z) : Z :=
  if ns <? HIST_MIN_NS then 0
  else if upper h (HIST_NUM_BUCKETS - 1) <? u64 ns then HIST_OVERFLOW_IDX
  else bucket_search (Z.to_nat HIST_NUM_BUCKETS) h ns 0 (HIST_NUM_BUCKETS - 1).

Definition hist_add (h : ecm_hist_t) (ns : Z) : ecm_hist_t :=
  let idx := hist_bucket_index h ns in
  let h := h <| buckets := alter (fun k => u64 (k + 1)) (Z.to_nat idx) (buckets h) |>
             <| count := u64 (count h + 1) |> <| sum_ns := u64 (sum_ns h + ns) |> in
  let h := if ns <? min_ns h then h <| min_ns := ns |> else h in
  if max_ns h <? ns then h <| max_ns := ns |> else h.

(** The loop over the buckets from [i] on, with [running] samples before. *)
Fixpoint percentile_loop (n : nat) (h : ecm_hist_t) (target i running : Z) : Z :=
  match n with
  | O => u64 (max_ns h)
  | S n =>
      let running := u64 (running + buckets h !!! Z.to_nat i) in
      if target <? running then
        if i =? HIST_OVERFLOW_IDX then u64 (max_ns h) else upper h i
      else percentile_loop n h target (i + 1) running
  end.

(** [scaled] is [(uint64_t)(p * (double)h->count)]. *)
Definition hist_percentile (h : ecm_hist_t) (scaled : Z) : Z :=
  if count h =? 0 then 0
  else
    let target := if count h <=? scaled then u64 (count h - 1) else scaled in
    percentile_loop (Z.to_nat (HIST_NUM_BUCKETS + 1)) h target 0 0.

(** ** Which bucket *)

Ltac hlia :=
  unfold HIST_OVERFLOW_IDX, HIST_NUM_BUCKETS, HIST_DECADES, HIST_BUCKETS_PER_DECADE, HIST_MIN_NS in *;
  unfold_c; lia.

Definition bounds_mono (h : ecm_hist_t) : Prop :=
  forall i j, 0 <= i <= j -> j < HIST_NUM_BUCKETS -> upper h i <= upper h j.

Lemma bucket_search_spec fuel h ns lo hi :
  bounds_mono h -> is_u64 ns -> 0 <= lo <= hi -> hi < HIST_NUM_BUCKETS ->
  (Z.to_nat (hi - lo) <= fuel)%nat ->
  ns <= upper h hi -> (forall j, 0 <= j < lo -> upper h j < ns) ->
  let i := bucket_search fuel h ns lo hi in
  lo <= i <= hi /\ ns <= upper h i /\ (forall j, 0 <= j < i -> upper h j < ns).
Proof.
  intros Hm Hns. revert lo hi. induction fuel as [|fuel IH]; intros lo hi Hlo Hhi Hf Hup Hlow; cbn.
  - assert (lo = hi) by lia. subst. split_and!; auto; lia.
  - destruct (Z.ltb_spec lo hi) as [L|L]; [|assert (lo = hi) by lia; subst; split_and!; auto; lia].
    set (mid := Z.quot (lo + hi) 2).
    assert (Hmid : lo <= mid < hi) by (subst mid; Z.to_euclidean_division_equations; lia).
    assert (Eu : u64 ns = ns) by (unfold_c; apply Z.mod_small; lia). rewrite Eu.
    destruct (Z.leb_spec ns (upper h mid)) as [C|C].
    + destruct (IH lo mid) as (I1 & I2 & I3); try lia; auto. split_and!; auto; lia.
    + destruct (IH (mid + 1) hi) as (I1 & I2 & I3); try lia; auto.
      * intros j Hj. pose proof (Hm j mid). lia.
      * split_and!; auto; lia.
Qed.

(** The index of a sample: 0 below the range, else the first bucket whose
    bound reaches it, else the overflow bucket. *)
Lemma bucket_index_spec h ns : bounds_mono h -> is_i64 ns ->
  let i := hist_bucket_index h ns in
  0 <= i <= HIST_OVERFLOW_IDX /\
  (i < HIST_OVERFLOW_IDX -> HIST_MIN_NS <= ns -> ns <= upper h i) /\
  (forall j, 0 <= j < i -> upper h j < ns /\ HIST_MIN_NS <= ns).
Proof.
  intros Hm Hns. unfold hist_bucket_index.
  destruct (Z.ltb_spec ns HIST_MIN_NS) as [L|L]; [split_and!; intros; hlia|].
  assert (Eu : u64 ns = ns) by (unfold HIST_MIN_NS in *; unfold_c; apply Z.mod_small; lia). rewrite Eu.
  destruct (Z.ltb_spec (upper h (HIST_NUM_BUCKETS - 1)) ns) as [C|C].
  - split_and!; [hlia..|]. intros j Hj.
    pose proof (Hm j (HIST_NUM_BUCKETS - 1)). unfold HIST_OVERFLOW_IDX in *. lia.
  - destruct (bucket_search_spec (Z.to_nat HIST_NUM_BUCKETS) h ns 0 (HIST_NUM_BUCKETS - 1)) as (I1 & I2 & I3);
      auto; try hlia.
    unfold HIST_OVERFLOW_IDX. split_and!; auto; lia.
Qed.

Lemma bucket_index_mono h x y : bounds_mono h -> is_i64 x -> is_i64 y -> x <= y ->
  hist_bucket_index h x <= hist_bucket_index h y.
Proof.
  intros Hm Hx Hy L.
  destruct (bucket_index_spec h x Hm Hx) as (X1 & X2 & X3).
  destruct (bucket_index_spec h y Hm Hy) as (Y1 & Y2 & Y3).
  destruct (Z.le_gt_cases (hist_bucket_index h x) (hist_bucket_index h y)) as [?|G]; [done|].
  destruct (X3 (hist_bucket_index h y)); [lia|].
  specialize (Y2 ltac:(lia) ltac:(lia)). lia.
Qed.

(** ** The histogram of a list of samples *)

Lemma bucket_search_ext fuel h h' ns lo hi :
  bucket_upper_ns h' = bucket_upper_ns h -> bucket_search fuel h' ns lo hi = bucket_search fuel h ns lo hi.
Proof.
  intros E. revert lo hi. induction fuel as [|fuel IH]; intros lo hi; cbn; [done|].
  unfold upper in *. rewrite E, !IH. done.
Qed.
Lemma bucket_index_ext h h' ns :
  bucket_upper_ns h' = bucket_upper_ns h -> hist_bucket_index h' ns = hist_bucket_index h ns.
Proof. intros E. unfold hist_bucket_index. rewrite (bucket_search_ext _ h h') by done. unfold upper. by rewrite E. Qed.

Lemma hist_add_upper h ns : bucket_upper_ns (hist_add h ns) = bucket_upper_ns h.
Proof. unfold hist_add. repeat case_if; done. Qed.
Lemma hist_add_buckets h ns :
  buckets (hist_add h ns) = alter (fun k => u64 (k + 1)) (Z.to_nat (hist_bucket_index h ns)) (buckets h).
Proof. unfold hist_add. repeat case_if; done. Qed.
Lemma hist_add_count h ns : count (hist_add h ns) = u64 (count h + 1).
Proof. unfold hist_add. repeat case_if; done. Qed.
Lemma hist_add_max h ns : max_ns (hist_add h ns) = Z.max (max_ns h) ns.
Proof. unfold hist_add. repeat case_if; bprop; cbn in *; lia. Qed.

(** In a sorted list the elements of a downward closed set come first. *)
Lemma sorted_rank (P : Z -> Prop) `{!forall x, Decision (P x)} s t x :
  StronglySorted Z.le s -> (forall a b, a ∈ s -> b ∈ s -> a <= b -> P b -> P a) -> s !! t = Some x ->
  (t < length (filter P s))%nat <-> P x.
Proof.
  intros Hs HP. revert t. induction Hs as [|y s Hs IH Hy]; intros t Hx; [done|].
  rewrite filter_cons. rewrite Forall_forall in Hy.
  assert (Hno : ~ P y -> filter P s = []).
  { intros N. apply filter_none. intros z Hz Pz. apply N.
    apply (HP y z); [set_solver|set_solver|by apply Hy|done]. }
  destruct t as [|t]; cbn in Hx.
  - injection Hx as ->. case_decide as D; cbn; [split; auto; lia|]. rewrite Hno by done. cbn. split; [lia|done].
  - case_decide as D; cbn [length].
    + rewrite <- (IH ltac:(intros a b Ha Hb; apply HP; set_solver) t Hx). lia.
    + rewrite Hno by done. cbn. split; [lia|]. intros Px. exfalso. apply D.
      apply list_elem_of_lookup_2 in Hx. apply (HP y x); [set_solver|set_solver|by apply Hy|done].
Qed.

Section Samples.
Context (bound : Z -> Z).
Hypothesis bound_mono : forall i j, 0 <= i <= j -> j < HIST_NUM_BUCKETS -> bound i <= bound j.

Definition hist_of (l : list Z) : ecm_hist_t := foldl hist_add (hist_init bound) l.
Definition idx (ns : Z) : Z := hist_bucket_index (hist_init bound) ns.

Lemma upper_init i : 0 <= i < HIST_NUM_BUCKETS -> upper (hist_init bound) i = bound i.
Proof.
  intros Hi. unfold upper, hist_init; cbn [bucket_upper_ns].
  apply list_lookup_total_correct. rewrite list_lookup_fmap, lookup_seqZ_lt by lia. cbn. f_equal. f_equal. lia.
Qed.
Lemma init_mono : bounds_mono (hist_init bound).
Proof. intros i j Hi Hj. rewrite !upper_init by lia. by apply bound_mono. Qed.

Definition in_bucket (i : Z) (l : list Z) : Z := Z.of_nat (length (filter (fun x => idx x = i) l)).
Definition up_to (i : Z) (l : list Z) : Z := Z.of_nat (length (filter (fun x => idx x <= i) l)).

Lemma idx_range x : is_i64 x -> 0 <= idx x <= HIST_OVERFLOW_IDX.
Proof. intros H. by destruct (bucket_index_spec _ x init_mono H). Qed.

Lemma filter_length_snoc (P : Z -> Prop) `{!forall x, Decision (P x)} l x :
  Z.of_nat (length (filter P (l ++ [x]))) = Z.of_nat (length (filter P l)) + b2z (bool_decide (P x)).
Proof.
  rewrite filter_app, length_app, filter_cons, filter_nil. case_decide as D; rewrite ?bool_decide_eq_true_2, ?bool_decide_eq_false_2 by done; cbn; lia.
Qed.

(** What the histogram holds after the samples [l]. *)
Lemma hist_of_state l : Forall is_i64 l -> Z.of_nat (length l) < 18446744073709551616 ->
  let h := hist_of l in
  bucket_upper_ns h = bucket_upper_ns (hist_init bound) /\
  length (buckets h) = 121%nat /\
  (forall i, 0 <= i <= HIST_OVERFLOW_IDX -> buckets h !!! Z.to_nat i = in_bucket i l) /\
  count h = Z.of_nat (length l) /\ 0 <= max_ns h < 9223372036854775808 /\ Forall (fun x => x <= max_ns h) l.
Proof.
  induction l as [|x l IH] using rev_ind; cbn zeta; intros Hl Hn.
  { split_and!; try done. intros i Hi. apply list_lookup_total_correct, lookup_replicate_2. hlia. }
  rewrite length_app in Hn; cbn in Hn. apply Forall_app in Hl as [Hl [Hx _]%Forall_cons_1].
  destruct IH as (U & L & B & C & M0 & M); [done|lia|].
  unfold hist_of in *. rewrite foldl_app. cbn [foldl]. set (h := foldl _ _ l) in *.
  assert (Ei : hist_bucket_index h x = idx x) by by apply bucket_index_ext.
  rewrite hist_add_upper, hist_add_buckets, hist_add_count, hist_add_max, Ei.
  pose proof (idx_range x Hx) as Hr. split_and!.
  - done.
  - by rewrite length_alter.
  - intros i Hi. unfold in_bucket. rewrite filter_length_snoc.
    assert (Hb : (Z.to_nat i < length (buckets h))%nat) by (rewrite L; hlia).
    pose proof (B i Hi) as Bi. unfold in_bucket in Bi.
    pose proof (length_filter (fun x => idx x = i) l) as Hfl.
    destruct (decide (idx x = i)) as [E|E].
    + rewrite bool_decide_eq_true_2 by done. rewrite E.
      rewrite list_lookup_total_alter, decide_True by (split; [reflexivity|assumption]). rewrite Bi. unfold_c. apply Z.mod_small. lia.
    + rewrite bool_decide_eq_false_2 by done. rewrite list_lookup_total_alter, decide_False by (intros [? _]; lia).
      rewrite Bi. unfold_c. lia.
  - rewrite C, length_app. cbn. unfold_c. rewrite Z.mod_small; lia.
  - lia.
  - unfold_c. lia.
  - apply Forall_app; split; [|apply Forall_singleton; lia]. eapply Forall_impl; [exact M|]. cbn. lia.
Qed.

Lemma filter_step i l :
  up_to i l = up_to (i - 1) l + in_bucket i l.
Proof.
  unfold up_to, in_bucket. induction l as [|x l IH]; [done|].
  rewrite !filter_cons. repeat case_decide; cbn [length]; lia.
Qed.

(** Value reported for a bucket. *)
Definition bucket_value (h : ecm_hist_t) (i : Z) : Z :=
  if i =? HIST_OVERFLOW_IDX then u64 (max_ns h) else upper h i.

(** The loop stops at the bucket that holds the sample of rank [target]. *)
Lemma percentile_loop_spec n l target i :
  Forall is_i64 l -> Z.of_nat (length l) < 18446744073709551616 ->
  0 <= i -> i + Z.of_nat n = HIST_OVERFLOW_IDX + 1 ->
  up_to (i - 1) l <= target < Z.of_nat (length l) ->
  exists j, percentile_loop n (hist_of l) target i (up_to (i - 1) l) = bucket_value (hist_of l) j /\
    up_to (j - 1) l <= target < up_to j l.
Proof.
  intros Hl Hn. destruct (hist_of_state l Hl Hn) as (_ & _ & B & _).
  revert i. induction n as [|n IH]; intros i Hi Hin Ht.
  - exfalso. assert (up_to (i - 1) l = Z.of_nat (length l)); [|lia].
    unfold up_to. f_equal. f_equal. apply filter_all. intros x Hx.
    rewrite Forall_forall in Hl. pose proof (idx_range x (Hl x Hx)). lia.
  - cbn [percentile_loop]. rewrite B by lia. pose proof (filter_step i l) as Hs. rewrite <- Hs.
    assert (Hu : up_to i l <= Z.of_nat (length l)).
    { unfold up_to. pose proof (length_filter (fun x => idx x <= i) l). lia. }
    assert (E : u64 (up_to i l) = up_to i l).
    { unfold_c. apply Z.mod_small. unfold up_to in *. lia. }
    rewrite E. destruct (Z.ltb_spec target (up_to i l)) as [C|C].
    + exists i. split; [done|lia].
    + replace (up_to i l) with (up_to ((i + 1) - 1) l) by (f_equal; lia).
      apply IH; try lia. replace (i + 1 - 1) with i by lia. lia.
Qed.

End Samples.

(** A percentile is the tightest bucket bound of the exact order statistic.
    With the samples sorted and [x] the one of the requested rank, the reported
    value is not below [x] and no bucket bound lies between the two (the
    largest sample standing for the bound of the overflow bucket). *)
Theorem hist_percentile_rank (bound : Z -> Z) (l s : list Z) (scaled : Z) :
  (forall i j, 0 <= i <= j -> j < HIST_NUM_BUCKETS -> bound i <= bound j) -> HIST_MIN_NS <= bound 0 ->
  Forall is_i64 l -> 0 < Z.of_nat (length l) < 18446744073709551616 -> 0 <= scaled ->
  s ≡ₚ l -> Sorted Z.le s ->
  let v := hist_percentile (hist_of bound l) scaled in
  let x := s !!! Z.to_nat (Z.min scaled (Z.of_nat (length l) - 1)) in
  x <= v /\ (forall j, 0 <= j < HIST_NUM_BUCKETS -> bound j < v -> bound j < x).
Proof.
  intros Hb H0 Hl Hn Hsc Hp Hs. cbn zeta.
  set (t := Z.min scaled (Z.of_nat (length l) - 1)).
  destruct (hist_of_state bound Hb l Hl ltac:(lia)) as (U & _ & _ & C & M0 & M).
  assert (Ht : (Z.to_nat t < length s)%nat) by (rewrite Hp; lia).
  destruct (lookup_lt_is_Some_2 s _ Ht) as [x Hx]. rewrite (list_lookup_total_correct _ _ _ Hx).
  assert (Hxl : x ∈ l) by (rewrite <- Hp; by eapply list_elem_of_lookup_2).
  rewrite Forall_forall in M, Hl. pose proof (Hl x Hxl) as Hxi. pose proof (M x Hxl) as Hxm.
  assert (Em : u64 (max_ns (hist_of bound l)) = max_ns (hist_of bound l)) by (unfold_c; apply Z.mod_small; lia).
  assert (Hrank : forall j, t < up_to bound j l <-> idx bound x <= j).
  { intros j. unfold up_to. rewrite <- Hp.
    rewrite <- (sorted_rank (fun y => idx bound y <= j) s (Z.to_nat t) x); [lia|..|done].
    - apply Sorted_StronglySorted; [intros ???; lia|done].
    - intros a b Ha Hb' L Pb. unfold idx in *. rewrite Hp in Ha, Hb'.
      pose proof (bucket_index_mono _ a b (init_mono bound Hb) (Hl a Ha) (Hl b Hb') L). lia. }
  assert (Z0 : up_to bound (0 - 1) l = 0).
  { unfold up_to. rewrite filter_none; [done|]. intros y Hy. pose proof (idx_range bound Hb y (Hl y Hy)). lia. }
  destruct (percentile_loop_spec bound Hb (Z.to_nat (HIST_NUM_BUCKETS + 1)) l t 0) as (j & E & Hj);
    [by apply Forall_forall|lia|lia|hlia|lia|]. rewrite Z0 in E.
  assert (Ej : j = idx bound x).
  { pose proof (Hrank j). pose proof (Hrank (j - 1)). lia. } subst j.
  assert (Ev : hist_percentile (hist_of bound l) scaled = bucket_value (hist_of bound l) (idx bound x)).
  { rewrite <- E. unfold hist_percentile. rewrite C. rewrite (proj2 (Z.eqb_neq _ _)) by lia.
    replace (if Z.of_nat (length l) <=? scaled then u64 (Z.of_nat (length l) - 1) else scaled) with t.
    2:{ subst t. destruct (Z.leb_spec (Z.of_nat (length l)) scaled); [|lia].
        unfold_c. rewrite Z.mod_small; lia. }
    reflexivity. }
  rewrite Ev. unfold bucket_value.
  destruct (bucket_index_spec _ x (init_mono bound Hb) Hxi) as (I1 & I2 & I3). fold (idx bound x) in *.
  destruct (Z.eqb_spec (idx bound x) HIST_OVERFLOW_IDX) as [O|O].
  - rewrite Em. split; [done|]. intros j Hj' _. destruct (I3 j) as [I _]; [hlia|].
    by rewrite upper_init in I.
  - assert (Eu : upper (hist_of bound l) (idx bound x) = bound (idx bound x)).
    { unfold upper. rewrite U. apply upper_init. hlia. }
    rewrite Eu. split.
    + destruct (Z.le_gt_cases HIST_MIN_NS x) as [G|G].
      * rewrite <- upper_init by hlia. apply I2; hlia.
      * pose proof (Hb 0 (idx bound x)). hlia.
    + intros j Hj' L. destruct (I3 j) as [I _]; [|by rewrite upper_init in I].
      destruct (Z.le_gt_cases (idx bound x) j) as [G|G]; [|lia]. pose proof (Hb (idx bound x) j). lia.
Qed.

(** The bounds as exact powers: the largest [b] with [b^20 <= 100^20 * 10^(i+1)]. *)
Fixpoint root20 (fuel : nat) (n lo hi : Z) : Z :=
  match fuel with
  | O => lo
  | S fuel => if hi - lo <=? 1 then lo
              else let mid := (lo + hi) / 2 in
                   if mid ^ 20 <=? n then root20 fuel n mid hi else root20 fuel n lo mid
  end.
Definition demo_bounds : list Z :=
  Eval vm_compute in (fun i => root20 32 (100 ^ 20 * 10 ^ (i + 1)) 0 1000000000) <$> seqZ 0 120.
Definition demo_bound (i : Z) : Z := demo_bounds !!! Z.to_nat i.

Lemma demo_bound_mono : forall i j, 0 <= i <= j -> j < HIST_NUM_BUCKETS -> demo_bound i <= demo_bound j.
Proof.
  assert (H : forallb (fun i => demo_bound (i - 1) <=? demo_bound i) (seqZ 1 119) = true) by (vm_compute; reflexivity).
  rewrite forallb_forall in H.
  intros i j Hi Hj. replace j with (i + (j - i)) in * by lia. revert Hj.
  apply (natlike_ind (fun k => i + k < HIST_NUM_BUCKETS -> demo_bound i <= demo_bound (i + k))); [|..|lia].
  - intros _. rewrite Z.add_0_r. lia.
  - intros k Hk IH L. specialize (IH ltac:(lia)).
    specialize (H (i + Z.succ k)). rewrite Z.leb_le in H.
    replace (i + Z.succ k - 1) with (i + k) in H by lia.
    etrans; [exact IH|]. apply H. apply list_elem_of_In, elem_of_seqZ. hlia.
Qed.

Lemma hist_percentile_rank_witness :
  let l := [250; 90; 1000000000; 130; 131; 7000] in
  hist_percentile (hist_of demo_bound l) 2 = 141 /\
  131 <= hist_percentile (hist_of demo_bound l) 2 /\
  (forall j, 0 <= j < HIST_NUM_BUCKETS -> demo_bound j < hist_percentile (hist_of demo_bound l) 2 -> demo_bound j < 131).
Proof.
  intros l. split; [vm_compute; reflexivity|].
  assert (H0 : HIST_MIN_NS <= demo_bound 0) by (vm_compute; congruence).
  assert (Hl : Forall is_i64 l) by (repeat constructor; vm_compute; congruence).
  assert (Hn : 0 < Z.of_nat (length l) < 18446744073709551616) by (vm_compute; split; reflexivity).
  assert (Hp : merge_sort Z.le l ≡ₚ l) by apply merge_sort_Permutation.
  assert (Hs : Sorted Z.le (merge_sort Z.le l)) by (apply Sorted_merge_sort; apply _).
  assert (Hx : merge_sort Z.le l !!! Z.to_nat (Z.min 2 (Z.of_nat (length l) - 1)) = 131) by (vm_compute; reflexivity).
  pose proof (hist_percentile_rank demo_bound l _ 2 demo_bound_mono H0 Hl Hn ltac:(lia) Hp Hs) as H.
  cbv zeta in H. rewrite Hx in H. exact H.
Defined.
