(* ===== verification/Turnaround.v ===== *)
(** * telemetry/ring_spsc.c and telemetry/turnaround.c

    The sample ring of the RT thread ([Samples]), the ring of sends
    ([TxOrder]) and the correlator that pairs every send with its TX time
    stamp and its reply ([Turnaround]).  The two rings are instances of the
    ring of Ring.v; the correlator runs in one thread and is modelled by state
    passing. *)
From Stdlib Require Import ZArith Lia Bool.
From S2P Require Import Prelude Ring Histogram.
From stdpp Require Import base list numbers sets.
Open Scope Z_scope.

Module Samples.

Record rt_sample_t := mkrts {
  wake_jitter_ns : Z; prep_send_ns : Z; cycle_occupancy_ns : Z; rx_ts_ns : Z;
  rts_tick : Z; sent_io_group : Z; any_wkc_mismatch : Z
}.
#[export] Instance rt_sample_inhabited : Inhabited rt_sample_t := populate (mkrts 0 0 0 0 0 0 0).

Definition RING_CAPACITY : Z := 4096.
Definition ring_spsc_t : Type := ring rt_sample_t.

Definition ring_init : ring_spsc_t := mkring (replicate (Z.to_nat RING_CAPACITY) inhabitant) 0 0 0.

Definition ring_push (r : ring_spsc_t) (s : rt_sample_t) : ring_spsc_t * bool :=
  let head := r_head r in
  let tail := r_tail r in
  if RING_CAPACITY <=? u64 (head - tail) then (r <| r_drops := u64 (r_drops r + 1) |>, false)
  else (r <| r_buf := <[Z.to_nat (Z.land head (RING_CAPACITY - 1)) := s]> (r_buf r) |>
          <| r_head := u64 (head + 1) |>, true).

Definition ring_pop (r : ring_spsc_t) : ring_spsc_t * option rt_sample_t :=
  let tail := r_tail r in
  let head := r_head r in
  if tail =? head then (r, None)
  else (r <| r_tail := u64 (tail + 1) |>, Some (r_buf r !!! Z.to_nat (Z.land tail (RING_CAPACITY - 1)))).

Lemma mask_4096 h : Z.land h (RING_CAPACITY - 1) = h mod 4096.
Proof. apply (Z.land_ones h 12). lia. Qed.
Lemma ring_push_spsc r s : ring_push r s = spsc_push 18446744073709551616 4096 r s.
Proof. unfold ring_push. rewrite mask_4096. done. Qed.
Lemma ring_pop_spsc r : ring_pop r = spsc_pop 18446744073709551616 4096 r.
Proof. unfold ring_pop. rewrite mask_4096. done. Qed.

#[export] Instance samples_ring : SpscRing ring_spsc_t rt_sample_t :=
  ring_as_spsc 18446744073709551616 4096 eq_refl eq_refl (ex_intro _ 4503599627370496 eq_refl)
    _ _ ring_push_spsc ring_pop_spsc.
End Samples.

Module TxOrder.

Record tx_order_sample_t := mktxo { tick : Z; group_id : Z; ec_idx : Z }.
#[export] Instance tx_order_sample_inhabited : Inhabited tx_order_sample_t := populate (mktxo 0 0 0).
Definition TX_ORDER_IDX_UNKNOWN : Z := 0xFF.
Definition TX_ORDER_RING_CAPACITY : Z := 256.
Definition tx_order_ring_t : Type := ring tx_order_sample_t.

Definition tx_order_ring_init : tx_order_ring_t :=
  mkring (replicate (Z.to_nat TX_ORDER_RING_CAPACITY) inhabitant) 0 0 0.

Definition tx_order_ring_push_idx (r : tx_order_ring_t) (tick g ec_idx : Z) : tx_order_ring_t * bool :=
  let head := r_head r in
  let tail := r_tail r in
  if TX_ORDER_RING_CAPACITY <=? u64 (head - tail) then (r <| r_drops := u64 (r_drops r + 1) |>, false)
  else (r <| r_buf := <[Z.to_nat (Z.land head (TX_ORDER_RING_CAPACITY - 1)) := mktxo tick (u8 g) ec_idx]> (r_buf r) |>
          <| r_head := u64 (head + 1) |>, true).

Definition tx_order_ring_push (r : tx_order_ring_t) (tick g : Z) : tx_order_ring_t * bool :=
  tx_order_ring_push_idx r tick g TX_ORDER_IDX_UNKNOWN.

Definition tx_order_ring_pop (r : tx_order_ring_t) : tx_order_ring_t * option tx_order_sample_t :=
  let tail := r_tail r in
  let head := r_head r in
  if tail =? head then (r, None)
  else (r <| r_tail := u64 (tail + 1) |>,
        Some (r_buf r !!! Z.to_nat (Z.land tail (TX_ORDER_RING_CAPACITY - 1)))).

Lemma mask_txo h : Z.land h (TX_ORDER_RING_CAPACITY - 1) = h mod 256.
Proof. apply (Z.land_ones h 8). lia. Qed.
Lemma txo_push_spsc r s : group_id s = u8 (group_id s) ->
  tx_order_ring_push_idx r (tick s) (group_id s) (ec_idx s) = spsc_push 18446744073709551616 256 r s.
Proof. intros E. unfold tx_order_ring_push_idx. rewrite mask_txo, <- E. by destruct s. Qed.
Lemma txo_pop_spsc r : tx_order_ring_pop r = spsc_pop 18446744073709551616 256 r.
Proof. unfold tx_order_ring_pop. rewrite mask_txo. done. Qed.

(** A send as the ring stores it. *)
Definition txo_store (s : tx_order_sample_t) : tx_order_sample_t := mktxo (tick s) (u8 (group_id s)) (ec_idx s).
Definition txo_push (r : tx_order_ring_t) (s : tx_order_sample_t) : tx_order_ring_t * bool :=
  tx_order_ring_push_idx r (tick s) (group_id s) (ec_idx s).
End TxOrder.

Module Turnaround.
Import TxOrder.

Definition GROUP_MOTION : Z := 1.
Definition GROUP_IO : Z := 2.
Definition RX_LOOKUP_CAPACITY : Z := 64.
Definition UINT64_MAX : Z := 18446744073709551615.
Definition TURNAROUND_SANITY_MAX_NS : Z := 1000000.
Definition TURNAROUND_LOOKAHEAD : Z := 32.
Definition TURNAROUND_MAX_AGE_TICKS : Z := 12.

Record rx_lookup_slot_t := mkslot { sl_tick : Z; sl_ts : Z }.
#[export] Instance rx_lookup_slot_inhabited : Inhabited rx_lookup_slot_t := populate (mkslot UINT64_MAX 0).

(** One of the two FIFOs of the sends in flight. *)
Record fifo_t := mkfifo { q_buf : list tx_order_sample_t; q_head : Z; q_tail : Z }.
#[export] Instance fifo_eta : Eta fifo_t := fun q => mkfifo (q_buf q) (q_head q) (q_tail q).

Record turnaround_ctx_t := mkctx {
  entries : list rx_lookup_slot_t; next_slot : Z;
  pending_tx : fifo_t; pending_rx : fifo_t;
  stat_matched : Z; stat_evicted_no_match : Z; stat_completion_no_pending : Z; stat_rx_no_pending : Z;
  stat_implausible : Z; stat_tx_io_discarded : Z; stat_rx_io_discarded : Z;
  stat_tx_skipped : Z; stat_rx_skipped : Z; stat_rx_unmatched : Z; stat_tx_unmatched : Z
}.
#[export] Instance turnaround_ctx_eta : Eta turnaround_ctx_t := fun c =>
  mkctx (entries c) (next_slot c) (pending_tx c) (pending_rx c)
    (stat_matched c) (stat_evicted_no_match c) (stat_completion_no_pending c) (stat_rx_no_pending c)
    (stat_implausible c) (stat_tx_io_discarded c) (stat_rx_io_discarded c)
    (stat_tx_skipped c) (stat_rx_skipped c) (stat_rx_unmatched c) (stat_tx_unmatched c).

Definition no_entries : list rx_lookup_slot_t := replicate (Z.to_nat RX_LOOKUP_CAPACITY) (mkslot UINT64_MAX 0).
Definition fifo_zero : fifo_t := mkfifo (replicate (Z.to_nat TX_ORDER_RING_CAPACITY) inhabitant) 0 0.

Definition turnaround_init : turnaround_ctx_t :=
  mkctx no_entries 0 fifo_zero fifo_zero 0 0 0 0 0 0 0 0 0 0 0.

(** The time stamps of the emptied slots and the buffers stay as they are. *)
Definition turnaround_resync (c : turnaround_ctx_t) : turnaround_ctx_t :=
  c <| entries := (fun s => mkslot UINT64_MAX (sl_ts s)) <$> entries c |> <| next_slot := 0 |>
    <| pending_tx := mkfifo (q_buf (pending_tx c)) 0 0 |>
    <| pending_rx := mkfifo (q_buf (pending_rx c)) 0 0 |>.

Definition turnaround_note_rx (c : turnaround_ctx_t) (tick rx_ts_ns : Z) : turnaround_ctx_t :=
  let idx := Z.to_nat (next_slot c mod RX_LOOKUP_CAPACITY) in
  let c := if negb (sl_tick (entries c !!! idx) =? UINT64_MAX)
           then c <| stat_evicted_no_match := u64 (stat_evicted_no_match c + 1) |> else c in
  c <| entries := <[idx := mkslot tick rx_ts_ns]> (entries c) |> <| next_slot := u64 (next_slot c + 1) |>.

(** The loop of [rx_lookup_take] from slot [i] on. *)
Fixpoint lookup_loop (es : list rx_lookup_slot_t) (tick : Z) (i : nat) : option nat :=
  match es with
  | [] => None
  | e :: es => if sl_tick e =? tick then Some i else lookup_loop es tick (S i)
  end.

Definition rx_lookup_take (c : turnaround_ctx_t) (tick : Z) : turnaround_ctx_t * option Z :=
  match lookup_loop (entries c) tick 0 with
  | Some i => (c <| entries := alter (fun e => mkslot UINT64_MAX (sl_ts e)) i (entries c) |>,
               Some (sl_ts (entries c !!! i)))
  | None => (c, None)
  end.

Definition fifo_at (q : fifo_t) (i : Z) : tx_order_sample_t :=
  q_buf q !!! Z.to_nat (i mod TX_ORDER_RING_CAPACITY).

(** The body of the drain loop for one FIFO. *)
Definition fifo_put (q : fifo_t) (s : tx_order_sample_t) : fifo_t :=
  let q := if TX_ORDER_RING_CAPACITY <=? u64 (q_head q - q_tail q)
           then q <| q_tail := u64 (q_tail q + 1) |> else q in
  q <| q_buf := <[Z.to_nat (q_head q mod TX_ORDER_RING_CAPACITY) := s]> (q_buf q) |>
    <| q_head := u64 (q_head q + 1) |>.

Fixpoint drain_loop (fuel : nat) (c : turnaround_ctx_t) (ring : tx_order_ring_t) :
    turnaround_ctx_t * tx_order_ring_t :=
  match fuel with
  | O => (c, ring)
  | S fuel =>
      match tx_order_ring_pop ring with
      | (ring, None) => (c, ring)
      | (ring, Some s) =>
          drain_loop fuel (c <| pending_tx := fifo_put (pending_tx c) s |>
                             <| pending_rx := fifo_put (pending_rx c) s |>) ring
      end
  end.

(** The ring holds at most its capacity, so the loop ends. *)
Definition turnaround_drain_tx_order (c : turnaround_ctx_t) (ring : tx_order_ring_t) :
    turnaround_ctx_t * tx_order_ring_t :=
  drain_loop (S (Z.to_nat TX_ORDER_RING_CAPACITY)) c ring.

Definition turnaround_frame_idx (eth : list Z) : Z :=
  if Z.of_nat (length eth) <? 18 then -1
  else if negb (eth !!! 12%nat =? 0x88) || negb (eth !!! 13%nat =? 0xA4) then -1
  else eth !!! 17%nat.

(** The sends too old to still be answered; at most [fuel] are pending. *)
Fixpoint age_loop (fuel : nat) (q : fifo_t) (newest skipped : Z) : fifo_t * Z :=
  match fuel with
  | O => (q, skipped)
  | S fuel =>
      if negb (q_tail q =? q_head q) then
        if u64 (newest - tick (fifo_at q (q_tail q))) <=? TURNAROUND_MAX_AGE_TICKS then (q, skipped)
        else age_loop fuel (q <| q_tail := u64 (q_tail q + 1) |>) newest (u64 (skipped + 1))
      else (q, skipped)
  end.

(** The first of the next [n] pending sends from offset [j] with the index. *)
Fixpoint look_loop (n : nat) (q : fifo_t) (idx j : Z) : option Z :=
  match n with
  | O => None
  | S n =>
      if u64 (q_tail q + j) <? q_head q then
        if ec_idx (fifo_at q (u64 (q_tail q + j))) =? u8 idx then Some j else look_loop n q idx (j + 1)
      else None
  end.

(** -1, 0 and 1 with [*out]. *)
Inductive take_t := TakeEmpty | TakeNone | Take (s : tx_order_sample_t).

(** [*tail], [*skipped], [*unmatched] and the result. *)
Definition fifo_take (q : fifo_t) (idx skipped unmatched : Z) : fifo_t * Z * Z * take_t :=
  let oldest q := fifo_at q (q_tail q) in
  let next q := q <| q_tail := u64 (q_tail q + 1) |> in
  if q_tail q =? q_head q then (q, skipped, unmatched, TakeEmpty)
  else if idx <? 0 then (next q, skipped, unmatched, Take (oldest q))
  else
    let newest := tick (fifo_at q (u64 (q_head q - 1))) in
    let '(q, skipped) := age_loop (Z.to_nat TX_ORDER_RING_CAPACITY) q newest skipped in
    match look_loop (Z.to_nat TURNAROUND_LOOKAHEAD) q idx 0 with
    | Some j => (q <| q_tail := u64 (q_tail q + (j + 1)) |>, u64 (skipped + j), unmatched,
                 Take (fifo_at q (u64 (q_tail q + j))))
    | None =>
        if negb (q_tail q =? q_head q) && (ec_idx (oldest q) =? TX_ORDER_IDX_UNKNOWN)
        then (next q, skipped, unmatched, Take (oldest q))
        else (q, skipped, u64 (unmatched + 1), TakeNone)
    end.

Definition turnaround_on_tx_complete_idx (c : turnaround_ctx_t) (tx_ts_ns idx : Z) : turnaround_ctx_t :=
  let '(q, sk, un, r) := fifo_take (pending_tx c) idx (stat_tx_skipped c) (stat_tx_unmatched c) in
  let c := c <| pending_tx := q |> <| stat_tx_skipped := sk |> <| stat_tx_unmatched := un |> in
  match r with
  | TakeEmpty => c <| stat_completion_no_pending := u64 (stat_completion_no_pending c + 1) |>
  | TakeNone => c
  | Take s =>
      if group_id s =? GROUP_IO then c <| stat_tx_io_discarded := u64 (stat_tx_io_discarded c + 1) |>
      else turnaround_note_rx c (tick s) tx_ts_ns
  end.
Definition turnaround_on_tx_complete (c : turnaround_ctx_t) (tx_ts_ns : Z) : turnaround_ctx_t :=
  turnaround_on_tx_complete_idx c tx_ts_ns (-1).

Definition turnaround_on_rx_arrival_idx (c : turnaround_ctx_t) (rx_ts_ns idx : Z) (hist : ecm_hist_t) :
    turnaround_ctx_t * ecm_hist_t :=
  let '(q, sk, un, r) := fifo_take (pending_rx c) idx (stat_rx_skipped c) (stat_rx_unmatched c) in
  let c := c <| pending_rx := q |> <| stat_rx_skipped := sk |> <| stat_rx_unmatched := un |> in
  match r with
  | TakeEmpty => (c <| stat_rx_no_pending := u64 (stat_rx_no_pending c + 1) |>, hist)
  | TakeNone => (c, hist)
  | Take s =>
      if group_id s =? GROUP_IO then (c <| stat_rx_io_discarded := u64 (stat_rx_io_discarded c + 1) |>, hist)
      else
        match rx_lookup_take c (tick s) with
        | (c, Some tx_ts_ns) =>
            let t := i64 (u64 (rx_ts_ns - tx_ts_ns)) in
            if (t <? 0) || (TURNAROUND_SANITY_MAX_NS <? t)
            then (c <| stat_implausible := u64 (stat_implausible c + 1) |>, hist)
            else (c <| stat_matched := u64 (stat_matched c + 1) |>, hist_add hist t)
        | (c, None) => (c <| stat_evicted_no_match := u64 (stat_evicted_no_match c + 1) |>, hist)
        end
  end.
Definition turnaround_on_rx_arrival (c : turnaround_ctx_t) (rx_ts_ns : Z) (hist : ecm_hist_t) :
    turnaround_ctx_t * ecm_hist_t :=
  turnaround_on_rx_arrival_idx c rx_ts_ns (-1) hist.

(** ** The FIFO of the sends in flight as a list *)

Definition fifo_wf (q : fifo_t) : Prop :=
  length (q_buf q) = 256%nat /\ 0 <= q_tail q <= q_head q /\ q_head q <= q_tail q + 256 /\
  q_head q < 18446744073709551616.

(** The sends in flight, oldest first. *)
Definition fifo_list (q : fifo_t) : list tx_order_sample_t := fifo_at q <$> seqZ (q_tail q) (q_head q - q_tail q).

Lemma fifo_list_length q : fifo_wf q -> Z.of_nat (length (fifo_list q)) = q_head q - q_tail q.
Proof. intros (_ & H & _). unfold fifo_list. rewrite length_fmap, length_seqZ. lia. Qed.

Lemma fifo_list_cons q : fifo_wf q -> q_tail q <> q_head q ->
  fifo_list q = fifo_at q (q_tail q) :: fifo_list (q <| q_tail := u64 (q_tail q + 1) |>).
Proof.
  intros (_ & H & _ & B) N. unfold fifo_list at 1. rewrite seqZ_cons by lia. cbn [fmap list_fmap].
  f_equal. unfold fifo_list; cbn [q_tail q_head upd eta].
  unfold u64. rewrite (Z.mod_small (q_tail q + 1)) by lia.
  unfold fifo_at; cbn. f_equal. f_equal; lia.
Qed.

Lemma fifo_next_wf q k : fifo_wf q -> 0 <= k <= q_head q - q_tail q ->
  fifo_wf (q <| q_tail := u64 (q_tail q + k) |>).
Proof. intros (L & H & C & B) Hk. unfold fifo_wf; cbn. unfold_c. rewrite Z.mod_small by lia. lia. Qed.

Lemma fifo_next_list q k : fifo_wf q -> 0 <= k <= q_head q - q_tail q ->
  fifo_list (q <| q_tail := u64 (q_tail q + k) |>) = drop (Z.to_nat k) (fifo_list q).
Proof.
  intros (L & H & C & B) Hk. unfold fifo_list; cbn. unfold_c. rewrite Z.mod_small by lia.
  rewrite <- fmap_drop. f_equal.
  replace (q_head q - q_tail q) with (k + (q_head q - q_tail q - k)) by lia.
  rewrite seqZ_app by lia. rewrite drop_app_length' by (rewrite length_seqZ; lia). f_equal; lia.
Qed.

Lemma fifo_list_lookup q i : fifo_wf q -> 0 <= i < q_head q - q_tail q ->
  fifo_list q !! Z.to_nat i = Some (fifo_at q (q_tail q + i)).
Proof.
  intros (L & H & C & B) Hi. unfold fifo_list. rewrite list_lookup_fmap, lookup_seqZ_lt by lia. cbn. do 2 f_equal. lia.
Qed.

Lemma fifo_put_wf q s : fifo_wf q -> q_head q < UINT64_MAX -> fifo_wf (fifo_put q s).
Proof.
  intros (L & H & C & B) Hh. unfold fifo_put, fifo_wf, TX_ORDER_RING_CAPACITY, UINT64_MAX in *.
  destruct (Z.leb_spec 256 (u64 (q_head q - q_tail q))) as [F|F]; cbn; rewrite length_insert;
    unfold_c; rewrite Z.mod_small in F by lia; rewrite ?Z.mod_small by lia; lia.
Qed.

(** *** What [fifo_take] does to the list *)

Definition too_old (newest : Z) (s : tx_order_sample_t) : bool :=
  negb (u64 (newest - tick s) <=? TURNAROUND_MAX_AGE_TICKS).
Fixpoint drop_old (newest : Z) (l : list tx_order_sample_t) : list tx_order_sample_t :=
  match l with [] => [] | s :: l' => if too_old newest s then drop_old newest l' else l end.
Fixpoint find_idx (idx : Z) (l : list tx_order_sample_t) : option nat :=
  match l with [] => None | s :: l => if ec_idx s =? u8 idx then Some 0%nat else S <$> find_idx idx l end.

(** Remaining list, sends given up, and the send taken. *)
Definition take_spec (l : list tx_order_sample_t) (idx : Z) : list tx_order_sample_t * Z * take_t :=
  match l with
  | [] => (l, 0, TakeEmpty)
  | s0 :: rest =>
      if idx <? 0 then (rest, 0, Take s0)
      else
        let l1 := drop_old (tick (List.last l s0)) l in
        let old := Z.of_nat (length l) - Z.of_nat (length l1) in
        match find_idx idx (take 32 l1) with
        | Some j => (drop (S j) l1, old + Z.of_nat j, Take (l1 !!! j))
        | None =>
            match l1 with
            | s1 :: rest1 => if ec_idx s1 =? TX_ORDER_IDX_UNKNOWN then (rest1, old, Take s1) else (l1, old, TakeNone)
            | [] => (l1, old, TakeNone)
            end
        end
  end.

Lemma drop_old_suffix newest l : exists k, (k <= length l)%nat /\ drop_old newest l = drop k l.
Proof.
  induction l as [|s l (k & Hk & E)]; [by exists 0%nat|]. cbn. destruct (too_old newest s).
  - exists (S k). cbn. rewrite E. split; [lia|done].
  - exists 0%nat. cbn. split; [lia|done].
Qed.

Lemma age_loop_spec fuel q newest sk : fifo_wf q -> (length (fifo_list q) <= fuel)%nat -> is_u64 sk ->
  let '(q', sk') := age_loop fuel q newest sk in
  fifo_wf q' /\ q_head q' = q_head q /\ q_buf q' = q_buf q /\ fifo_list q' = drop_old newest (fifo_list q) /\
  sk' = u64 (sk + (Z.of_nat (length (fifo_list q)) - Z.of_nat (length (fifo_list q')))).
Proof.
  revert q sk. induction fuel as [|fuel IH]; intros q sk W Hf Hsk; cbn.
  - destruct (fifo_list q) eqn:E; [|cbn in Hf; lia]. split_and!; try done.
    unfold_c. rewrite Z.add_0_r, Z.mod_small; lia.
  - destruct (Z.eqb_spec (q_tail q) (q_head q)) as [N|N]; cbn [negb].
    { pose proof (fifo_list_length q W). destruct (fifo_list q) eqn:E; [|cbn in *; lia]. split_and!; try done.
      unfold_c. rewrite Z.add_0_r, Z.mod_small; lia. }
    set (q1 := q <| q_tail := u64 (q_tail q + 1) |>).
    assert (Ec : fifo_list q = fifo_at q (q_tail q) :: fifo_list q1) by by apply fifo_list_cons.
    assert (Ed : drop_old newest (fifo_list q)
      = if too_old newest (fifo_at q (q_tail q)) then drop_old newest (fifo_list q1) else fifo_list q)
      by (rewrite Ec; reflexivity).
    rewrite Ed. unfold too_old.
    destruct (_ <=? _) eqn:Eo; cbn [negb].
    { split_and!; try done. unfold_c. rewrite Z.sub_diag, Z.add_0_r, Z.mod_small; lia. }
    assert (W1 : fifo_wf q1) by (apply (fifo_next_wf q 1 W); destruct W as (_ & ? & _); lia).
    specialize (IH q1 (u64 (sk + 1)) W1 ltac:(rewrite Ec in Hf; cbn in Hf; lia) (u64_range _)).
    change (mkfifo (q_buf q) (q_head q) (u64 (q_tail q + 1))) with q1.
    destruct (age_loop fuel q1 newest _) as [q' sk']. destruct IH as (I1 & I2 & I3 & I4 & I5).
    split_and!; try done. rewrite I5, Ec. cbn [length]. unfold_c. rewrite Zplus_mod_idemp_l. f_equal. lia.
Qed.

Lemma look_loop_spec n q idx j : fifo_wf q -> 0 <= j <= q_head q - q_tail q ->
  look_loop n q idx j = (fun k => j + Z.of_nat k) <$> find_idx idx (take n (drop (Z.to_nat j) (fifo_list q))).
Proof.
  intros W. revert j. induction n as [|n IH]; intros j Hj; cbn [look_loop]; [by rewrite take_0|].
  pose proof W as (_ & H & C & B). pose proof (fifo_list_length q W) as Hl.
  unfold u64. rewrite (Z.mod_small (q_tail q + j)) by lia.
  destruct (Z.ltb_spec (q_tail q + j) (q_head q)) as [L|L].
  - pose proof (fifo_list_lookup q j W ltac:(lia)) as E.
    rewrite (drop_S _ _ _ E). cbn [take find_idx].
    destruct (_ =? _); cbn; [f_equal; lia|]. rewrite IH by lia.
    replace (Z.to_nat (j + 1)) with (S (Z.to_nat j)) by lia.
    destruct (find_idx idx _); cbn; [f_equal; lia|done].
  - rewrite drop_ge by lia. by rewrite take_nil.
Qed.

Lemma fifo_last q s0 : fifo_wf q -> q_tail q <> q_head q ->
  List.last (fifo_list q) s0 = fifo_at q (u64 (q_head q - 1)).
Proof.
  intros (_ & H & _ & B) N. unfold fifo_list, u64. rewrite (Z.mod_small (q_head q - 1)) by lia.
  replace (q_head q - q_tail q) with ((q_head q - 1 - q_tail q) + 1) by lia.
  rewrite seqZ_app by lia. rewrite fmap_app. rewrite (seqZ_cons _ 1), (seqZ_nil _ (Z.pred 1)) by lia.
  cbn [fmap list_fmap]. rewrite List.last_last. f_equal. lia.
Qed.

(** [fifo_take] on the representation is [take_spec] on the list of sends. *)
Lemma fifo_take_refines q idx sk un : fifo_wf q -> is_u64 sk ->
  let '(q', sk', un', r) := fifo_take q idx sk un in
  let '(l', k, r') := take_spec (fifo_list q) idx in
  fifo_wf q' /\ fifo_list q' = l' /\ q_head q' = q_head q /\ r = r' /\ sk' = u64 (sk + k) /\
  un' = match r with TakeNone => u64 (un + 1) | _ => un end.
Proof.
  intros W Hsk. unfold fifo_take, take_spec. pose proof W as (_ & H & C & B).
  assert (Es : u64 (sk + 0) = sk) by (unfold_c; rewrite Z.add_0_r, Z.mod_small; lia).
  pose proof (fifo_list_length q W) as Hl.
  destruct (Z.eqb_spec (q_tail q) (q_head q)) as [N|N].
  { destruct (fifo_list q) eqn:E; [|cbn in Hl; lia]. by rewrite Es. }
  pose proof (fifo_list_cons q W N) as Ec.
  pose proof (fun s0 => fifo_last q s0 W N) as EL.
  destruct (fifo_list q) as [|s0 rest] eqn:El; [cbn in Hl; lia|]. injection Ec as -> ->.
  destruct (Z.ltb_spec idx 0) as [I|I].
  { rewrite Es. split_and!; try done. apply (fifo_next_wf q 1 W). lia. }
  rewrite EL, <- El.
  pose proof (age_loop_spec (Z.to_nat TX_ORDER_RING_CAPACITY) q (tick (fifo_at q (u64 (q_head q - 1)))) sk W
    ltac:(unfold TX_ORDER_RING_CAPACITY; rewrite El; lia) Hsk) as HA.
  destruct (age_loop _ q _ sk) as [q1 sk1]. destruct HA as (W1 & HH & HB & E1 & ->).
  rewrite <- E1. rewrite (look_loop_spec _ q1 idx 0 W1) by (destruct W1 as (_ & ? & _); lia).
  rewrite drop_0. change (Z.to_nat TURNAROUND_LOOKAHEAD) with 32%nat.
  pose proof (fifo_list_length q1 W1) as Hl1.
  destruct (find_idx idx (take 32 (fifo_list q1))) as [j|] eqn:Ef; cbn [fmap option_fmap option_map].
  - assert (Hj : (j < length (fifo_list q1))%nat).
    { clear -Ef. revert j Ef. generalize 32%nat. induction (fifo_list q1) as [|s l IH]; intros n j Ef.
      - by rewrite take_nil in Ef.
      - destruct n; [done|]. cbn in Ef. destruct (_ =? _); [injection Ef as <-; cbn; lia|].
        destruct (find_idx idx (take n l)) as [j'|] eqn:E; [|done]. injection Ef as <-. cbn. apply IH in E. lia. }
    rewrite Z.add_0_l. replace (0 + Z.of_nat j + 1) with (Z.of_nat j + 1) by lia.
    pose proof W1 as (_ & ? & _ & ?).
    assert (Hk : 0 <= Z.of_nat j + 1 <= q_head q1 - q_tail q1) by lia.
    split_and!; [by apply fifo_next_wf| |done| |unfold_c; rewrite Zplus_mod_idemp_l; f_equal; lia|done].
    + rewrite (fifo_next_list q1 (Z.of_nat j + 1) W1 Hk). f_equal. lia.
    + f_equal. unfold u64. rewrite Z.mod_small by lia. symmetry. apply list_lookup_total_correct.
      rewrite <- (fifo_list_lookup q1 (Z.of_nat j) W1) by lia. f_equal. lia.
  - destruct (Z.eqb_spec (q_tail q1) (q_head q1)) as [N1|N1]; cbn [negb andb].
    { destruct (fifo_list q1) eqn:E; [|cbn in Hl1; lia]. by split_and!. }
    pose proof (fifo_list_cons q1 W1 N1) as Ec1.
    destruct (fifo_list q1) as [|s1 rest1] eqn:El1; [done|]. injection Ec1 as -> ->.
    destruct (_ =? TX_ORDER_IDX_UNKNOWN); split_and!; try done.
    apply (fifo_next_wf q1 1 W1). lia.
Qed.

(** ** Every event is accounted for *)

Definition live (c : turnaround_ctx_t) : Z :=
  Z.of_nat (length (filter (fun e => sl_tick e <> UINT64_MAX) (entries c))).

(** TX completions and RX arrivals the counters and the lookup table hold: a
    measured or implausible pair stands for two events. *)
Definition accounted (c : turnaround_ctx_t) : Z :=
  2 * (stat_matched c + stat_implausible c) + live c + stat_evicted_no_match c +
  stat_completion_no_pending c + stat_tx_unmatched c + stat_tx_io_discarded c +
  stat_rx_no_pending c + stat_rx_unmatched c + stat_rx_io_discarded c.

Definition real_tick (s : tx_order_sample_t) : Prop := tick s <> UINT64_MAX.

Lemma fifo_at_real q i : Forall real_tick (q_buf q) -> real_tick (fifo_at q i).
Proof.
  intros H. unfold fifo_at. rewrite list_lookup_total_alt.
  destruct (q_buf q !! _) as [s|] eqn:E; cbn; [by eapply Forall_lookup_1 in E|done].
Qed.

Lemma age_loop_buf fuel q newest sk : q_buf (age_loop fuel q newest sk).1 = q_buf q.
Proof. revert q sk. induction fuel as [|fuel IH]; intros q sk; cbn; [done|]. repeat case_if; cbn; rewrite ?IH; done. Qed.

Lemma fifo_take_frame q idx sk un : Forall real_tick (q_buf q) ->
  let '(q', _, un', r) := fifo_take q idx sk un in
  q_buf q' = q_buf q /\ un' = match r with TakeNone => u64 (un + 1) | _ => un end /\
  match r with Take s => real_tick s | _ => True end.
Proof.
  intros H. unfold fifo_take. case_if; [done|]. case_if; [by split_and!; [..|apply fifo_at_real]|].
  pose proof (age_loop_buf (Z.to_nat TX_ORDER_RING_CAPACITY) q (tick (fifo_at q (u64 (q_head q - 1)))) sk) as Hb.
  destruct (age_loop _ q _ sk) as [q1 sk1]. cbn in Hb.
  assert (H1 : Forall real_tick (q_buf q1)) by (by rewrite Hb).
  destruct (look_loop _ q1 idx 0); [split_and!; [done..|by apply fifo_at_real]|].
  case_if; split_and!; try done. by apply fifo_at_real.
Qed.

Lemma note_rx_accounted c tk ts : length (entries c) = 64%nat -> tk <> UINT64_MAX ->
  let c' := turnaround_note_rx c tk ts in
  u64 (accounted c') = u64 (accounted c + 1) /\ length (entries c') = 64%nat /\
  pending_tx c' = pending_tx c /\ pending_rx c' = pending_rx c.
Proof.
  intros Hl Ht. unfold turnaround_note_rx, RX_LOOKUP_CAPACITY.
  set (i := Z.to_nat (next_slot c mod 64)).
  assert (Hi : (i < length (entries c))%nat) by (rewrite Hl; subst i; pose proof (Z.mod_pos_bound (next_slot c) 64); lia).
  clearbody i.
  pose proof (filter_insert_length (fun e => sl_tick e <> UINT64_MAX) (mkslot tk ts) i (entries c) Hi) as HL.
  rewrite (bool_decide_eq_true_2 (sl_tick (mkslot tk ts) <> UINT64_MAX)) in HL by done.
  unfold accounted, live.
  destruct (Z.eqb_spec (sl_tick (entries c !!! i)) UINT64_MAX) as [E|E]; cbn; rewrite length_insert; split_and!; try done.
  - rewrite bool_decide_eq_false_2 in HL by tauto. unfold b2z in HL. rewrite HL. f_equal. lia.
  - rewrite bool_decide_eq_true_2 in HL by done. unfold b2z in HL. rewrite HL. clia.
Qed.

Lemma lookup_loop_spec es tk i k : lookup_loop es tk i = Some k ->
  exists j, k = (i + j)%nat /\ (j < length es)%nat /\ sl_tick (es !!! j) = tk.
Proof.
  revert i. induction es as [|e es IH]; intros i H; [done|]. cbn in H.
  destruct (Z.eqb_spec (sl_tick e) tk) as [E|E].
  - injection H as <-. exists 0%nat. cbn. split_and!; [lia..|done].
  - apply IH in H as (j & -> & Hj & Ht). exists (S j). cbn. split_and!; [lia..|done].
Qed.

(** One TX completion, one RX arrival: one more event accounted for. *)
Lemma tx_accounted c ts idx : length (entries c) = 64%nat -> Forall real_tick (q_buf (pending_tx c)) ->
  let c' := turnaround_on_tx_complete_idx c ts idx in
  u64 (accounted c') = u64 (accounted c + 1) /\ length (entries c') = 64%nat /\
  q_buf (pending_tx c') = q_buf (pending_tx c) /\ pending_rx c' = pending_rx c.
Proof.
  intros Hl Hr. unfold turnaround_on_tx_complete_idx.
  pose proof (fifo_take_frame (pending_tx c) idx (stat_tx_skipped c) (stat_tx_unmatched c) Hr) as HF.
  destruct (fifo_take _ _ _ _) as [[[q sk] un] r]. destruct HF as (Hb & -> & Hs).
  set (c1 := c <| pending_tx := q |> <| stat_tx_skipped := sk |> <| stat_tx_unmatched := _ |>).
  assert (El : length (entries c1) = 64%nat) by exact Hl.
  destruct r as [| |s]; cbn zeta.
  1, 2: split_and!; [unfold accounted, live; cbn; clia|done..].
  destruct (group_id s =? GROUP_IO); [split_and!; [unfold accounted, live; cbn; clia|done..]|].
  destruct (note_rx_accounted c1 (tick s) ts El Hs) as (-> & -> & -> & ->). by split_and!.
Qed.

Lemma lookup_take_accounted c tk : length (entries c) = 64%nat -> tk <> UINT64_MAX ->
  let '(c', o) := rx_lookup_take c tk in
  accounted c' = accounted c - b2z (bool_decide (is_Some o)) /\ length (entries c') = 64%nat /\
  pending_tx c' = pending_tx c /\ pending_rx c' = pending_rx c /\
  match o with Some ts => mkslot tk ts ∈ entries c | None => True end.
Proof.
  intros Hl Ht. unfold rx_lookup_take. destruct (lookup_loop _ _ _) as [k|] eqn:E.
  - apply lookup_loop_spec in E as (j & -> & Hj & Htk). cbn [Nat.add].
    set (f := fun e => mkslot UINT64_MAX (sl_ts e)).
    pose proof (filter_alter_length (fun e => sl_tick e <> UINT64_MAX) f j (entries c) Hj) as HL.
    rewrite bool_decide_eq_true_2 in HL by by rewrite Htk.
    rewrite (bool_decide_eq_false_2 (sl_tick (f _) <> _)) in HL by (cbn; tauto). unfold b2z in HL.
    rewrite bool_decide_eq_true_2 by done. unfold accounted, live; cbn. rewrite length_alter.
    split_and!; try done; [lia|].
    pose proof (list_lookup_lookup_total_lt _ _ Hj) as Hx.
    apply list_elem_of_lookup_2 in Hx. destruct (entries c !!! j) as [t' ts']. cbn in *. by subst t'.
  - rewrite bool_decide_eq_false_2 by (intros [? ?]; done). cbn. split_and!; try done. lia.
Qed.

Lemma rx_accounted c ts idx hist : length (entries c) = 64%nat -> Forall real_tick (q_buf (pending_rx c)) ->
  let c' := (turnaround_on_rx_arrival_idx c ts idx hist).1 in
  u64 (accounted c') = u64 (accounted c + 1) /\ length (entries c') = 64%nat /\
  pending_tx c' = pending_tx c /\ q_buf (pending_rx c') = q_buf (pending_rx c).
Proof.
  intros Hl Hr. unfold turnaround_on_rx_arrival_idx.
  pose proof (fifo_take_frame (pending_rx c) idx (stat_rx_skipped c) (stat_rx_unmatched c) Hr) as HF.
  destruct (fifo_take _ _ _ _) as [[[q sk] un] r]. destruct HF as (Hb & -> & Hs).
  set (c1 := c <| pending_rx := q |> <| stat_rx_skipped := sk |> <| stat_rx_unmatched := _ |>).
  assert (El : length (entries c1) = 64%nat) by exact Hl.
  destruct r as [| |s]; cbn zeta.
  1, 2: split_and!; [unfold accounted, live; cbn; clia|done..].
  destruct (group_id s =? GROUP_IO); [split_and!; [unfold accounted, live; cbn; clia|done..]|].
  assert (Ea : accounted c1 = accounted c) by done.
  assert (Ep : pending_tx c1 = pending_tx c /\ pending_rx c1 = q) by done.
  pose proof (lookup_take_accounted c1 (tick s) El Hs) as HT. clearbody c1.
  destruct (rx_lookup_take c1 (tick s)) as [c2 [tx|]]; destruct HT as (Ha & Hl2 & Hp1 & Hp2 & _);
    destruct Ep as [Ep1 Ep2].
  - rewrite bool_decide_eq_true_2 in Ha by done.
    assert (E2 : accounted c2 = accounted c - 1) by (unfold b2z in Ha; lia).
    case_if; cbn [fst]; split_and!; cbn; try done; try congruence;
      unfold accounted, live in *; cbn; clia.
  - rewrite bool_decide_eq_false_2 in Ha by (intros [? ?]; done).
    assert (E2 : accounted c2 = accounted c) by (unfold b2z in Ha; lia).
    cbn [fst]; split_and!; cbn; try done; try congruence; unfold accounted, live in *; cbn; clia.
Qed.

Lemma drain_accounted fuel c r : Forall real_tick (r_buf r) ->
  Forall real_tick (q_buf (pending_tx c)) -> Forall real_tick (q_buf (pending_rx c)) ->
  let '(c', r') := drain_loop fuel c r in
  accounted c' = accounted c /\ entries c' = entries c /\ r_buf r' = r_buf r /\
  Forall real_tick (q_buf (pending_tx c')) /\ Forall real_tick (q_buf (pending_rx c')).
Proof.
  revert c r. induction fuel as [|fuel IH]; intros c r Hr H1 H2; cbn [drain_loop]; [done|].
  unfold tx_order_ring_pop. destruct (r_tail r =? r_head r); [done|].
  set (s := r_buf r !!! _).
  assert (Hs : real_tick s).
  { subst s. rewrite list_lookup_total_alt. destruct (r_buf r !! _) as [s|] eqn:E; cbn; [by eapply Forall_lookup_1 in E|done]. }
  assert (Hp : forall q, Forall real_tick (q_buf q) -> Forall real_tick (q_buf (fifo_put q s))).
  { intros q Hq. unfold fifo_put. case_if; cbn; by apply Forall_insert. }
  set (c1 := c <| pending_tx := _ |> <| pending_rx := _ |>).
  match goal with |- context [drain_loop fuel c1 ?x] => set (r1 := x) end.
  specialize (IH c1 r1 Hr (Hp _ H1) (Hp _ H2)).
  destruct (drain_loop fuel c1 r1) as [c' r']. exact IH.
Qed.

(** *** Runs of the telemetry thread *)

Inductive top :=
| OSend (tick g idx : Z)          (* the RT thread sends *)
| ODrain | OTx (ts idx : Z) | ORx (ts idx : Z) | OResync.

(** The correlator, the ring of sends, the histogram, and (ghost) the events
    forgotten by resyncs. *)
Definition tstate : Type := turnaround_ctx_t * tx_order_ring_t * ecm_hist_t * Z.
Definition tdo (st : tstate) (o : top) : tstate :=
  let '(c, r, h, forgot) := st in
  match o with
  | OSend tick g idx => (c, (tx_order_ring_push_idx r tick g idx).1, h, forgot)
  | ODrain => let '(c, r) := turnaround_drain_tx_order c r in (c, r, h, forgot)
  | OTx ts idx => (turnaround_on_tx_complete_idx c ts idx, r, h, forgot)
  | ORx ts idx => let '(c, h) := turnaround_on_rx_arrival_idx c ts idx h in (c, r, h, forgot)
  | OResync => (turnaround_resync c, r, h, forgot + live c)
  end.

Definition is_event (o : top) : bool := match o with OTx _ _ | ORx _ _ => true | _ => false end.
Definition events (os : list top) : Z := foldr (fun o n => b2z (is_event o) + n) 0 os.
Definition send_ok (o : top) : Prop := match o with OSend tick _ _ => tick <> UINT64_MAX | _ => True end.

Definition tinv (n : Z) (st : tstate) : Prop :=
  let '(c, r, h, forgot) := st in
  length (entries c) = 64%nat /\ Forall real_tick (r_buf r) /\
  Forall real_tick (q_buf (pending_tx c)) /\ Forall real_tick (q_buf (pending_rx c)) /\
  u64 (accounted c + forgot) = u64 n.

Lemma tdo_inv n st o : tinv n st -> send_ok o -> tinv (n + b2z (is_event o)) (tdo st o).
Proof.
  destruct st as [[[c r] h] forgot]. intros (Hl & Hr & H1 & H2 & Ha) Ho.
  destruct o as [tk g idx| |ts idx|ts idx|]; cbn [tdo is_event]; unfold tinv, b2z.
  - rewrite Z.add_0_r. split_and!; try done. unfold tx_order_ring_push_idx. case_if; cbn; [done|].
    by apply Forall_insert.
  - rewrite Z.add_0_r. unfold turnaround_drain_tx_order.
    pose proof (drain_accounted (S (Z.to_nat TX_ORDER_RING_CAPACITY)) c r Hr H1 H2) as HD.
    destruct (drain_loop _ c r) as [c' r']. destruct HD as (-> & -> & -> & D1 & D2). by split_and!.
  - destruct (tx_accounted c ts idx Hl H1) as (E & E1 & E2 & E3). rewrite E2, E3. split_and!; try done. clia.
  - pose proof (rx_accounted c ts idx h Hl H2) as HR.
    destruct (turnaround_on_rx_arrival_idx c ts idx h) as [c' h']. cbn zeta in HR.
    destruct HR as (E & E1 & E2 & E3); cbn [fst] in *. rewrite E2, E3. split_and!; try done. clia.
  - rewrite Z.add_0_r. split_and!; try done; [by cbn; rewrite length_fmap|].
    rewrite <- Ha. f_equal. unfold accounted, live; cbn. rewrite (filter_none _ (_ <$> _)); [cbn; lia|].
    intros e He. apply list_elem_of_fmap in He as (e' & -> & _). cbn. tauto.
Qed.

(** No event of the telemetry thread disappears uncounted.  Over any
    sequence of sends, drains, TX completions, RX arrivals and resyncs, every
    TX completion and every RX arrival is in exactly one place: half of a
    measured or implausible pair, an entry waiting in the lookup table, an
    eviction, an IO frame discarded, an event without a pending or matching
    send, or forgotten by a resync (counters modulo 2^64; [UINT64_MAX] marks an
    empty slot and is not a tick). *)
Theorem turnaround_accounting (bound : Z -> Z) (os : list top) : Forall send_ok os ->
  let '(c, _, _, forgot) := foldl tdo (turnaround_init, tx_order_ring_init, hist_init bound, 0) os in
  u64 (accounted c + forgot) = u64 (events os).
Proof.
  intros Ho.
  assert (H : forall os st n, Forall send_ok os -> tinv n st -> tinv (n + events os) (foldl tdo st os)).
  { clear. induction os as [|o os IH]; intros st n Ho Hi; cbn [foldl events foldr]; [by rewrite Z.add_0_r|].
    apply Forall_cons_1 in Ho as [Ho Hos]. rewrite Z.add_assoc. apply IH; [done|]. by apply tdo_inv. }
  specialize (H os (turnaround_init, tx_order_ring_init, hist_init bound, 0) 0 Ho).
  destruct (foldl tdo _ os) as [[[c r] h] forgot]. destruct H as (_ & _ & _ & _ & H); [|exact H].
  assert (Hz : Forall real_tick (replicate 256 (mktxo 0 0 0))) by (apply Forall_replicate; done).
  split_and!; try done.
Qed.

Lemma turnaround_accounting_witness :
  let os := [OSend 5 1 7; OSend 5 2 8; OSend 6 1 9; ODrain; OTx 1000 7; ORx 9000 7; OTx 1500 8; OTx 2000 9;
             ORx 9100 3; OResync; ORx 9200 9] in
  let '(c, _, h, forgot) := foldl tdo (turnaround_init, tx_order_ring_init, hist_init demo_bound, 0) os in
  stat_matched c = 1 /\ count h = 1 /\ max_ns h = 8000 /\ forgot = 1 /\ u64 (accounted c + forgot) = u64 (events os).
Proof.
  set (os := [_; _; _; _; _; _; _; _; _; _; _]).
  assert (Ho : Forall send_ok os) by (repeat constructor; vm_compute; congruence).
  pose proof (turnaround_accounting demo_bound os Ho) as H.
  assert (E : exists c r h f, foldl tdo (turnaround_init, tx_order_ring_init, hist_init demo_bound, 0) os = (c, r, h, f) /\
    stat_matched c = 1 /\ count h = 1 /\ max_ns h = 8000 /\ f = 1).
  { vm_compute. do 4 eexists. split_and!; reflexivity. }
  destruct E as (c & r & h & f & E & E1 & E2 & E3 & E4). rewrite E in H. cbv zeta. rewrite E. auto.
Defined.

(** *** What is measured *)

Lemma take_spec_sound l idx l' k s : take_spec l idx = (l', k, Take s) ->
  s ∈ l /\ (exists skipped, l = skipped ++ s :: l' /\ Z.of_nat (length skipped) = k) /\
  (0 <= idx -> ec_idx s = u8 idx \/ ec_idx s = TX_ORDER_IDX_UNKNOWN).
Proof.
  unfold take_spec. destruct l as [|s0 rest] eqn:El; [done|].
  destruct (Z.ltb_spec idx 0) as [I|I].
  { intros [= <- <- <-]. split_and!; [set_solver|by exists []|lia]. }
  rewrite <- El. set (newest := tick _).
  destruct (drop_old_suffix newest l) as (n & Hn & E).
  assert (Hsplit : forall a b s', drop_old newest l = a ++ s' :: b ->
    l = (take n l ++ a) ++ s' :: b /\ length (take n l) = n).
  { intros a b s' E'. rewrite <- (take_drop n l) at 1. rewrite <- E, E', app_assoc.
    split; [done|]. rewrite length_take. lia. }
  assert (Hlen : Z.of_nat (length l) - Z.of_nat (length (drop_old newest l)) = Z.of_nat n)
    by (rewrite E, length_drop; lia).
  destruct (find_idx idx _) as [j|] eqn:Ef.
  - intros [= <- <- <-].
    assert (Hj : exists s', drop_old newest l !! j = Some s' /\ ec_idx s' = u8 idx).
    { clear -Ef. revert j Ef. generalize 32%nat. induction (drop_old newest l) as [|x l' IH]; intros m j Ef.
      - by rewrite take_nil in Ef.
      - destruct m; [done|]. cbn in Ef. destruct (Z.eqb_spec (ec_idx x) (u8 idx)) as [Ex|Ex].
        + injection Ef as <-. by exists x.
        + destruct (find_idx idx (take m l')) as [j'|] eqn:E2; [|done]. injection Ef as <-. by apply IH in E2. }
    destruct Hj as (s' & Hs' & Hi). rewrite (list_lookup_total_correct _ _ _ Hs').
    pose proof (take_drop_middle _ _ _ Hs') as Hm. symmetry in Hm. apply Hsplit in Hm as [Hm Hn'].
    split_and!; [rewrite Hm; set_solver| |auto].
    eexists. split; [exact Hm|]. rewrite length_app, Hn', length_take.
    apply lookup_lt_Some in Hs'. lia.
  - destruct (drop_old newest l) as [|s1 rest1] eqn:E1; [done|].
    destruct (Z.eqb_spec (ec_idx s1) TX_ORDER_IDX_UNKNOWN) as [U|U]; [|done]. intros [= <- <- <-].
    destruct (Hsplit [] rest1 s1 eq_refl) as [Hm Hn']. rewrite app_nil_r in Hm.
    split_and!; [rewrite Hm; set_solver| |auto]. exists (take n l). split; [done|]. rewrite Hn'. cbn [length] in Hlen. lia.
Qed.

(** What enters the turnaround histogram.  An RX arrival either leaves the
    histogram alone, or adds one value: the time since the TX time stamp
    recorded for the tick of the send it was paired with, between 0 and 1 ms.
    That send was pending, is not an IO frame, carries the index of the arrived
    frame (or an unknown one), and leaves the FIFO together with the older
    sends, which are counted as skipped; its lookup entry is consumed. *)
Theorem turnaround_pair_sound c ts idx hist :
  fifo_wf (pending_rx c) -> Forall real_tick (q_buf (pending_rx c)) -> length (entries c) = 64%nat ->
  is_u64 (stat_rx_skipped c) ->
  let '(c', hist') := turnaround_on_rx_arrival_idx c ts idx hist in
  fifo_wf (pending_rx c') /\
  (hist' = hist /\ stat_matched c' = stat_matched c \/
   exists s tx skipped,
     fifo_list (pending_rx c) = skipped ++ s :: fifo_list (pending_rx c') /\
     stat_rx_skipped c' = u64 (stat_rx_skipped c + Z.of_nat (length skipped)) /\
     group_id s <> GROUP_IO /\ (0 <= idx -> ec_idx s = u8 idx \/ ec_idx s = TX_ORDER_IDX_UNKNOWN) /\
     mkslot (tick s) tx ∈ entries c /\ live c' = live c - 1 /\
     0 <= i64 (u64 (ts - tx)) <= TURNAROUND_SANITY_MAX_NS /\
     hist' = hist_add hist (i64 (u64 (ts - tx))) /\ stat_matched c' = u64 (stat_matched c + 1)).
Proof.
  intros W Hr Hl Hsk. unfold turnaround_on_rx_arrival_idx.
  pose proof (fifo_take_frame (pending_rx c) idx (stat_rx_skipped c) (stat_rx_unmatched c) Hr) as HF.
  pose proof (fifo_take_refines (pending_rx c) idx (stat_rx_skipped c) (stat_rx_unmatched c) W Hsk) as HR.
  destruct (fifo_take _ _ _ _) as [[[q sk] un] r]. destruct HF as (_ & _ & Hs).
  destruct (take_spec (fifo_list (pending_rx c)) idx) as [[l' k] r'] eqn:Et.
  destruct HR as (W' & El & _ & <- & Ek & _).
  set (c1 := c <| pending_rx := q |> <| stat_rx_skipped := sk |> <| stat_rx_unmatched := un |>).
  destruct r as [| |s]; cbn zeta; [split; [exact W'|left; done]..|].
  destruct (Z.eqb_spec (group_id s) GROUP_IO) as [G|G]; [split; [exact W'|left; done]|].
  assert (H1 : entries c1 = entries c /\ pending_rx c1 = q /\ stat_rx_skipped c1 = sk /\ live c1 = live c /\
    stat_matched c1 = stat_matched c) by done.
  pose proof (lookup_take_accounted c1 (tick s) ltac:(exact Hl) Hs) as HT.
  assert (HL : stat_rx_skipped (rx_lookup_take c1 (tick s)).1 = sk /\
    live (rx_lookup_take c1 (tick s)).1 = live c1 - b2z (bool_decide (is_Some (rx_lookup_take c1 (tick s)).2)) /\
    stat_matched (rx_lookup_take c1 (tick s)).1 = stat_matched c).
  { destruct (rx_lookup_take c1 (tick s)) as [c2 o] eqn:E2. destruct HT as (Ha & _).
    unfold rx_lookup_take in E2. destruct (lookup_loop _ _ _); injection E2 as <- <-; cbn in *;
      unfold accounted, live in *; cbn in *; split_and!; try done; lia. }
  clearbody c1. destruct H1 as (He & Hq & _ & Hlv & _). rewrite He in HT.
  destruct (take_spec_sound _ _ _ _ _ Et) as (_ & (skp & Hsp & Hk) & Hidx).
  destruct (rx_lookup_take c1 (tick s)) as [c2 [tx|]]; destruct HT as (_ & _ & _ & Hp2 & Hin);
    destruct HL as (HL1 & HL2 & HL3); cbn in HL1, HL2, HL3.
  - case_if; [split; [cbn; by rewrite Hp2, Hq|left; done]|]. bprop.
    assert (Wc : pending_rx c2 = q) by congruence. split; [cbn; by rewrite Wc|]. right.
    exists s, tx, skp. cbn [pending_rx stat_rx_skipped stat_matched upd eta]. rewrite Wc, El, HL1, HL3, Ek, Hk.
    split_and!; try done. unfold live in *; cbn in *. lia.
  - split; [cbn; by rewrite Hp2, Hq|left; done].
Qed.

Definition demo_ctx : turnaround_ctx_t :=
  (foldl tdo (turnaround_init, tx_order_ring_init, hist_init demo_bound, 0)
     [OSend 5 1 7; OSend 6 1 9; ODrain; OTx 1000 7; OTx 2000 9]).1.1.1.

Lemma turnaround_pair_sound_witness :
  let '(c', hist') := turnaround_on_rx_arrival_idx demo_ctx 9000 9 (hist_init demo_bound) in
  hist' = hist_add (hist_init demo_bound) 7000 /\ fifo_wf (pending_rx c').
Proof.
  assert (W : fifo_wf (pending_rx demo_ctx)) by (vm_compute; split_and!; congruence).
  assert (Hr : Forall real_tick (q_buf (pending_rx demo_ctx))).
  { vm_compute. repeat (constructor; [congruence|]). constructor. }
  assert (Hl : length (entries demo_ctx) = 64%nat) by (vm_compute; reflexivity).
  assert (Hsk : is_u64 (stat_rx_skipped demo_ctx)) by (vm_compute; split; congruence).
  pose proof (turnaround_pair_sound demo_ctx 9000 9 (hist_init demo_bound) W Hr Hl Hsk) as H.
  assert (E : (turnaround_on_rx_arrival_idx demo_ctx 9000 9 (hist_init demo_bound)).2 = hist_add (hist_init demo_bound) 7000)
    by (vm_compute; reflexivity).
  destruct (turnaround_on_rx_arrival_idx demo_ctx 9000 9 (hist_init demo_bound)) as [c' hist'].
  split; [exact E|exact (proj1 H)].
Defined.

(** The comment on [fifo_take] says an event that matches no send touches
    nothing; the sends it finds too old are given up first. *)
Example unmatched_gives_up_old_sends :
  let c := (foldl tdo (turnaround_init, tx_order_ring_init, hist_init demo_bound, 0)
              [OSend 5 1 7; OSend 100 1 9; ODrain]).1.1.1 in
  let c' := (turnaround_on_rx_arrival_idx c 0 33 (hist_init demo_bound)).1 in
  stat_rx_unmatched c' = 1 /\ stat_rx_skipped c' = 1 /\
  tick <$> fifo_list (pending_rx c) = [5; 100] /\ tick <$> fifo_list (pending_rx c') = [100].
Proof. vm_compute. auto. Qed.

End Turnaround.
