(* ===== verification/Diag.v ===== *)
(** * diag/ecm_diag.c: the bus diagnostics model

    [Wkc]: working counter classes and their statistics.  [Handoff]: the two
    slots between the RT thread and the monitor, sequentially and with the
    accesses of the two threads interleaved.  [Model]: the accumulated error
    counters of every slave, the emergency messages, and the analysis that
    turns them into findings.  The texts printed from the findings are not
    modelled. *)
From Stdlib Require Import ZArith Lia Bool.
From S2P Require Import Prelude.
From stdpp Require Import base list numbers sets sorting relations.
Open Scope Z_scope.

(** ** Working counters *)
Module Wkc.

Inductive ecm_wkc_class_t := ECM_WKC_OK | ECM_WKC_NOFRAME | ECM_WKC_ZERO | ECM_WKC_PARTIAL | ECM_WKC_OVER.
#[export] Instance ecm_wkc_class_eq_dec : EqDecision ecm_wkc_class_t.
Proof. solve_decision. Defined.
Definition wkc_index (c : ecm_wkc_class_t) : nat :=
  match c with ECM_WKC_OK => 0 | ECM_WKC_NOFRAME => 1 | ECM_WKC_ZERO => 2 | ECM_WKC_PARTIAL => 3 | ECM_WKC_OVER => 4 end.

Record ecm_wkc_stats_t := mkwkc { w_count : list Z; last_missing : Z; run_bad : Z; max_run_bad : Z }.
#[export] Instance ecm_wkc_stats_eta : Eta ecm_wkc_stats_t := fun w =>
  mkwkc (w_count w) (last_missing w) (run_bad w) (max_run_bad w).
Definition wkc_zero : ecm_wkc_stats_t := mkwkc [0; 0; 0; 0; 0] 0 0 0.

Definition ecm_wkc_classify (wkc expected : Z) : ecm_wkc_class_t :=
  if wkc =? expected then ECM_WKC_OK
  else if wkc <? 0 then ECM_WKC_NOFRAME
  else if wkc =? 0 then ECM_WKC_ZERO
  else if wkc <? expected then ECM_WKC_PARTIAL
  else ECM_WKC_OVER.

Definition ecm_wkc_account (st : ecm_wkc_stats_t) (wkc expected : Z) : ecm_wkc_stats_t :=
  let c := ecm_wkc_classify wkc expected in
  let st := st <| w_count := alter (fun k => u64 (k + 1)) (wkc_index c) (w_count st) |> in
  let st := match c with ECM_WKC_PARTIAL => st <| last_missing := expected - wkc |> | _ => st end in
  match c with
  | ECM_WKC_OK => st <| run_bad := 0 |>
  | _ => let st := st <| run_bad := u32 (run_bad st + 1) |> in
         if max_run_bad st <? run_bad st then st <| max_run_bad := run_bad st |> else st
  end.

(** The lengths of the current and of the longest run of bad cycles. *)
Definition bad (e : Z * Z) : bool := negb (e.1 =? e.2).
Fixpoint runs (l : list (Z * Z)) (cur best : Z) : Z * Z :=
  match l with
  | [] => (cur, best)
  | e :: l => if bad e then runs l (cur + 1) (Z.max best (cur + 1)) else runs l 0 best
  end.
Definition account_all (st : ecm_wkc_stats_t) (l : list (Z * Z)) : ecm_wkc_stats_t :=
  foldl (fun st e => ecm_wkc_account st e.1 e.2) st l.
Definition nclass (c : ecm_wkc_class_t) (l : list (Z * Z)) : Z :=
  Z.of_nat (length (filter (fun e => ecm_wkc_classify e.1 e.2 = c) l)).

Lemma classify_bad e : bad e = negb (bool_decide (ecm_wkc_classify e.1 e.2 = ECM_WKC_OK)).
Proof.
  unfold bad, ecm_wkc_classify. destruct (e.1 =? e.2); [done|]. by repeat case_if.
Qed.

Lemma account_step st e : let st' := ecm_wkc_account st e.1 e.2 in
  w_count st' = alter (fun k => u64 (k + 1)) (wkc_index (ecm_wkc_classify e.1 e.2)) (w_count st) /\
  run_bad st' = (if bad e then u32 (run_bad st + 1) else 0) /\
  max_run_bad st' = if bad e then Z.max (max_run_bad st) (u32 (run_bad st + 1)) else max_run_bad st.
Proof.
  rewrite classify_bad. unfold ecm_wkc_account.
  destruct (ecm_wkc_classify e.1 e.2); cbn -[u32 Z.max]; [done|..];
    (destruct (Z.ltb_spec (max_run_bad st) (u32 (run_bad st + 1))); cbn -[u32 Z.max]; split_and!; try done; rewrite bool_decide_eq_false_2 by done; cbn [negb]; lia).
Qed.

(** The statistics are those of the sequence of cycles: how many fall in each
    class, how long the current and the longest run of bad cycles are. *)
Lemma account_all_exact l st0 : Z.of_nat (length l) < 4294967296 -> st0 = wkc_zero ->
  let st := account_all st0 l in
  (forall c, w_count st !! wkc_index c = Some (nclass c l)) /\
  (run_bad st, max_run_bad st) = runs l 0 0 /\ 0 <= run_bad st <= Z.of_nat (length l).
Proof.
  assert (Hruns : forall l e cur best, runs (l ++ [e]) cur best =
    let '(c, b) := runs l cur best in if bad e then (c + 1, Z.max b (c + 1)) else (0, b)).
  { clear. induction l as [|x l IH]; intros e cur best; cbn; [by destruct (bad e)|]. destruct (bad x); apply IH. }
  intros Hl ->. induction l as [|e l IH] using rev_ind; cbn zeta.
  { split_and!; try done; try (cbn; lia). by intros []. }
  rewrite length_app in Hl; cbn in Hl. destruct IH as (I1 & I2 & I3); [lia|].
  unfold account_all in *. rewrite foldl_app. cbn [foldl]. set (st := foldl _ _ l) in *.
  destruct (account_step st e) as (-> & -> & ->). rewrite Hruns, <- I2. rewrite length_app. cbn [length].
  assert (E : u32 (run_bad st + 1) = run_bad st + 1) by (unfold_c; apply Z.mod_small; lia). rewrite E.
  split_and!; [|by destruct (bad e)|destruct (bad e); lia|destruct (bad e); lia].
  intros c. unfold nclass. rewrite filter_app, length_app, filter_cons, filter_nil.
  pose proof (length_filter (fun e => ecm_wkc_classify e.1 e.2 = c) l) as HF.
  destruct (decide (ecm_wkc_classify e.1 e.2 = c)) as [<-|N].
  - rewrite list_lookup_alter_eq, I1. cbn. f_equal. unfold nclass. unfold_c. rewrite Z.mod_small; lia.
  - rewrite list_lookup_alter_ne by (destruct c, (ecm_wkc_classify e.1 e.2); cbn; congruence).
    rewrite I1. cbn. f_equal. unfold nclass. lia.
Qed.
End Wkc.

(** ** The handoff *)
Module Handoff.
Section slots.
Context {E : Type} `{!Inhabited E}.

(** [state], [put_seq] and [slot] are arrays of two, indexed by a bool. *)
Record ecm_diag_handoff_t := mkho {
  h_state : bool -> bool; put_seq : bool -> Z; drops : Z; puts : Z; next_put : bool; h_slot : bool -> E
}.
Definition set_at {T} (f : bool -> T) (k : bool) (v : T) : bool -> T := fun j => if Bool.eqb j k then v else f j.

Definition ecm_diag_handoff_init : ecm_diag_handoff_t :=
  mkho (fun _ => false) (fun _ => 0) 0 0 false (fun _ => inhabitant).

Definition ecm_diag_handoff_put (h : ecm_diag_handoff_t) (raw : E) : ecm_diag_handoff_t * bool :=
  let fill k :=
    let n := u64 (puts h + 1) in
    (mkho (set_at (h_state h) k true) (set_at (put_seq h) k n) (drops h) n (negb k) (set_at (h_slot h) k raw), true) in
  let k := next_put h in
  if h_state h k then
    let k := negb k in
    if h_state h k then (mkho (h_state h) (put_seq h) (u64 (drops h + 1)) (puts h) (next_put h) (h_slot h), false)
    else fill k
  else fill k.

(** Which of the full slots is taken. *)
Definition pick (f0 f1 : bool) (seq : bool -> Z) : bool :=
  if f0 && f1 then negb (seq false <? seq true) else negb f0.

Definition ecm_diag_handoff_get (h : ecm_diag_handoff_t) : ecm_diag_handoff_t * option E :=
  let f0 := h_state h false in
  let f1 := h_state h true in
  if negb f0 && negb f1 then (h, None)
  else
    let both := if negb (Bool.eqb f0 f1) then h_state h f0 else f0 in   (* the other one again *)
    let k := pick (f0 || both) (f1 || both) (put_seq h) in
    (mkho (set_at (h_state h) k false) (put_seq h) (drops h) (puts h) (next_put h) (h_slot h), Some (h_slot h k)).

(** *** Producer and consumer interleaved

    One step per access to the shared slots.  [s_pub] and [s_got] are ghost:
    the epochs handed over and taken, in order; [s_pend] the slots that are
    full, oldest first. *)
Inductive ppc :=
| PIdle
| PTry (e : E) (k : bool)      (* before the load of state[k], k = next_put *)
| PTry2 (e : E) (k : bool)     (* before the load of the other state *)
| PSlot (e : E) (k : bool)     (* before slot[k] = *raw *)
| PSeq (e : E) (k : bool)      (* before put_seq[k] = ++puts *)
| PPub (e : E) (k : bool).     (* before the release store of state[k] *)
Inductive cpc :=
| CIdle
| CGot0 (f0 : bool)            (* state[0] loaded *)
| CGot01 (f0 f1 : bool)        (* both loaded *)
| CPick (f0 f1 : bool)         (* after the second look at the other one *)
| CCopy (k : bool)             (* before *out = slot[k] *)
| CDone (k : bool) (x : E).    (* before the release store of state[k] *)

Record sys := mksys { s_h : ecm_diag_handoff_t; s_p : ppc; s_c : cpc; s_pub : list E; s_got : list E; s_pend : list bool }.

Definition with_state (h : ecm_diag_handoff_t) k v := mkho (set_at (h_state h) k v) (put_seq h) (drops h) (puts h) (next_put h) (h_slot h).

Inductive pstep : sys -> sys -> Prop :=
| p_start h c pu go pe e : pstep (mksys h PIdle c pu go pe) (mksys h (PTry e (next_put h)) c pu go pe)
| p_free h c pu go pe e k : h_state h k = false -> pstep (mksys h (PTry e k) c pu go pe) (mksys h (PSlot e k) c pu go pe)
| p_full h c pu go pe e k : h_state h k = true -> pstep (mksys h (PTry e k) c pu go pe) (mksys h (PTry2 e (negb k)) c pu go pe)
| p_free2 h c pu go pe e k : h_state h k = false -> pstep (mksys h (PTry2 e k) c pu go pe) (mksys h (PSlot e k) c pu go pe)
| p_drop h c pu go pe e k : h_state h k = true ->
    pstep (mksys h (PTry2 e k) c pu go pe)
      (mksys (mkho (h_state h) (put_seq h) (u64 (drops h + 1)) (puts h) (next_put h) (h_slot h)) PIdle c pu go pe)
| p_slot h c pu go pe e k :
    pstep (mksys h (PSlot e k) c pu go pe)
      (mksys (mkho (h_state h) (put_seq h) (drops h) (puts h) (next_put h) (set_at (h_slot h) k e)) (PSeq e k) c pu go pe)
| p_seq h c pu go pe e k :
    pstep (mksys h (PSeq e k) c pu go pe)
      (mksys (mkho (h_state h) (set_at (put_seq h) k (u64 (puts h + 1))) (drops h) (u64 (puts h + 1)) (next_put h) (h_slot h))
         (PPub e k) c pu go pe)
| p_pub h c pu go pe e k :
    pstep (mksys h (PPub e k) c pu go pe)
      (mksys (mkho (set_at (h_state h) k true) (put_seq h) (drops h) (puts h) (negb k) (h_slot h)) PIdle c
         (pu ++ [e]) go (pe ++ [k])).

Inductive cstep : sys -> sys -> Prop :=
| c_load0 h p pu go pe : cstep (mksys h p CIdle pu go pe) (mksys h p (CGot0 (h_state h false)) pu go pe)
| c_load1 h p pu go pe f0 : cstep (mksys h p (CGot0 f0) pu go pe) (mksys h p (CGot01 f0 (h_state h true)) pu go pe)
| c_none h p pu go pe : cstep (mksys h p (CGot01 false false) pu go pe) (mksys h p CIdle pu go pe)
| c_both h p pu go pe : cstep (mksys h p (CGot01 true true) pu go pe) (mksys h p (CPick true true) pu go pe)
| c_again h p pu go pe f0 f1 : f0 <> f1 ->
    cstep (mksys h p (CGot01 f0 f1) pu go pe)
      (mksys h p (if h_state h f0 then CPick true true else CPick f0 f1) pu go pe)
| c_pick h p pu go pe f0 f1 :
    cstep (mksys h p (CPick f0 f1) pu go pe) (mksys h p (CCopy (pick f0 f1 (put_seq h))) pu go pe)
| c_copy h p pu go pe k : cstep (mksys h p (CCopy k) pu go pe) (mksys h p (CDone k (h_slot h k)) pu go pe)
| c_done h p pu go pe k x :
    cstep (mksys h p (CDone k x) pu go pe) (mksys (with_state h k false) p CIdle pu (go ++ [x]) (tail pe)).

Inductive reach : sys -> Prop :=
| reach_init : reach (mksys ecm_diag_handoff_init PIdle CIdle [] [] [])
| reach_p s s' : reach s -> pstep s s' -> reach s'
| reach_c s s' : reach s -> cstep s s' -> reach s'.

(** *** The invariant *)

Definition full_in (pe : list bool) (k : bool) : bool := existsb (Bool.eqb k) pe.
Definition pend_ok (pe : list bool) : Prop := pe = [] \/ (exists k, pe = [k]) \/ (exists k, pe = [k; negb k]).
Definition seq_order (h : ecm_diag_handoff_t) (pe : list bool) : Prop :=
  match pe with [a; b] => put_seq h a < put_seq h b | _ => True end.

Definition h_inv (s : sys) : Prop :=
  pend_ok (s_pend s) /\ (forall k, h_state (s_h s) k = full_in (s_pend s) k) /\
  s_pub s = s_got s ++ (h_slot (s_h s) <$> s_pend s) /\
  seq_order (s_h s) (s_pend s) /\ Forall (fun k => put_seq (s_h s) k <= Z.of_nat (length (s_pub s))) (s_pend s).

Definition p_inv (s : sys) : Prop :=
  let h := s_h s in
  let n := Z.of_nat (length (s_pub s)) in
  match s_p s with
  | PIdle | PTry _ _ | PTry2 _ _ => puts h = n
  | PSlot e k => h_state h k = false /\ puts h = n
  | PSeq e k => h_state h k = false /\ puts h = n /\ h_slot h k = e
  | PPub e k => h_state h k = false /\ puts h = n + 1 /\ h_slot h k = e /\ put_seq h k = n + 1
  end.

Definition c_inv (s : sys) : Prop :=
  let pe := s_pend s in
  match s_c s with
  | CIdle => True
  | CGot0 f0 => f0 = true -> full_in pe false = true
  | CGot01 f0 f1 => (f0 = true -> full_in pe false = true) /\ (f1 = true -> full_in pe true = true)
  | CPick f0 f1 => (f0 = true /\ f1 = true /\ full_in pe false = true /\ full_in pe true = true) \/
                   (f0 <> f1 /\ head pe = Some (negb f0))
  | CCopy k => head pe = Some k
  | CDone k x => head pe = Some k /\ x = h_slot (s_h s) k
  end.

Definition inv (s : sys) : Prop := h_inv s /\ p_inv s /\ c_inv s.

Lemma full_in_snoc pe j k : full_in (pe ++ [j]) k = full_in pe k || Bool.eqb k j.
Proof. unfold full_in. rewrite existsb_app. cbn. by rewrite orb_false_r. Qed.

Lemma head_full pe k : head pe = Some k -> full_in pe k = true.
Proof. destruct pe; cbn; [done|]. intros [= ->]. unfold full_in; cbn. by rewrite Bool.eqb_reflx. Qed.

Lemma set_at_eq {T} (f : bool -> T) k v : set_at f k v k = v.
Proof. unfold set_at. by rewrite Bool.eqb_reflx. Qed.
Lemma set_at_ne {T} (f : bool -> T) k v j : j <> k -> set_at f k v j = f j.
Proof. unfold set_at. by destruct j, k. Qed.

Lemma map_free {T} (f : bool -> T) k v pe : full_in pe k = false -> set_at f k v <$> pe = f <$> pe.
Proof.
  intros H. induction pe as [|j pe IH]; [done|]. unfold full_in in H; cbn in H. apply orb_false_iff in H as [H1 H2].
  cbn. rewrite IH by done. f_equal. apply set_at_ne. by destruct j, k.
Qed.
Lemma Forall_free {T} (P : T -> Prop) (f : bool -> T) k v pe : full_in pe k = false ->
  Forall (fun j => P (f j)) pe -> Forall (fun j => P (set_at f k v j)) pe.
Proof.
  intros H HF. induction HF as [|j pe Hj _ IH]; constructor; unfold full_in in H; cbn in H; apply orb_false_iff in H as [H1 H2].
  - by rewrite set_at_ne by (by destruct j, k).
  - by apply IH.
Qed.

Lemma seq_order_free h pe k n : full_in pe k = false -> seq_order h pe ->
  seq_order (mkho (h_state h) (set_at (put_seq h) k n) (drops h) n (next_put h) (h_slot h)) pe.
Proof.
  unfold seq_order; cbn. destruct pe as [|a [|b [|? ?]]]; auto. unfold full_in; cbn. intros H.
  apply orb_false_iff in H as [H1 H2]. apply orb_false_iff in H2 as [H2 _].
  by rewrite !set_at_ne by (by destruct a, b, k).
Qed.

(** The consumer's knowledge survives a hand over. *)
Lemma c_inv_grow h h' p p' c pu pu' go pe j :
  c_inv (mksys h p c pu go pe) -> (forall k, full_in pe k = true -> h_slot h' k = h_slot h k) ->
  c_inv (mksys h' p' c pu' go (pe ++ [j])) /\ c_inv (mksys h' p' c pu' go pe).
Proof.
  assert (Hh : forall k, head pe = Some k -> head (pe ++ [j]) = Some k) by (by destruct pe).
  assert (Hf : forall k, full_in pe k = true -> full_in (pe ++ [j]) k = true).
  { intros k H. by rewrite full_in_snoc, H. }
  intros HC HS. destruct c as [|f0|f0 f1|f0 f1|k|k x]; unfold c_inv in *;
    cbn [s_h s_p s_c s_pub s_got s_pend] in *; auto.
  - destruct HC. split; split; auto.
  - split; [|done]. destruct HC as [(? & ? & ? & ?)|[? ?]]; [left|right]; auto.
  - destruct HC as [HC ->]. rewrite <- HS by by apply head_full. auto.
Qed.

Ltac hsimp :=
  cbn [s_h s_p s_c s_pub s_got s_pend h_state put_seq drops puts next_put h_slot] in *.

Lemma rt_step_inv s s' : inv s -> pstep s s' -> Z.of_nat (length (s_pub s')) < 18446744073709551615 -> inv s'.
Proof.
  intros (HI & HP & HC) St. destruct St; unfold h_inv, p_inv in HI, HP; hsimp;
    destruct HI as (H1 & H2 & H3 & H4 & H5); intros Hlen.
  - unfold inv, h_inv, p_inv; hsimp; split_and!; done.
  - unfold inv, h_inv, p_inv; hsimp; split_and!; done.
  - unfold inv, h_inv, p_inv; hsimp; split_and!; done.
  - unfold inv, h_inv, p_inv; hsimp; split_and!; done.
  - unfold inv, h_inv, p_inv; hsimp; split_and!; done.
  - destruct HP as [Hk Hn]. rewrite H2 in Hk. unfold inv, h_inv, p_inv; hsimp; split_and!; auto.
    + by rewrite map_free.
    + by rewrite H2.
    + apply set_at_eq.
    + apply (c_inv_grow h _ (PSlot e k) _ c pu _ go pe false HC). cbn. intros j Hj. apply set_at_ne. congruence.
  - destruct HP as (Hk & Hn & He). pose proof Hk as Hk'. rewrite H2 in Hk'.
    assert (Eu : u64 (puts h + 1) = Z.of_nat (length pu) + 1) by (rewrite Hn; unfold u64; apply Z.mod_small; lia).
    rewrite Eu. unfold inv, h_inv, p_inv; hsimp; split_and!; auto.
    + by apply seq_order_free.
    + by apply (Forall_free (fun x => x <= _)).
    + apply set_at_eq.
  - destruct HP as (Hk & Hn & He & Hs). rewrite H2 in Hk.
    unfold inv, h_inv, p_inv; hsimp; split_and!.
    + destruct H1 as [->|[[a ->]|[a ->]]]; unfold full_in in Hk; cbn in Hk.
      * right; left. by exists k.
      * right; right. exists a. cbn. by destruct a, k.
      * exfalso. by destruct a, k.
    + intros j. unfold set_at. rewrite full_in_snoc, <- H2. destruct (Bool.eqb j k); [by rewrite orb_true_r|by rewrite orb_false_r].
    + rewrite H3, fmap_app, <- app_assoc. cbn. by rewrite He.
    + destruct H1 as [->|[[a ->]|[a ->]]]; cbn; auto. apply Forall_cons_1 in H5 as [H5 _]. lia.
    + rewrite length_app; cbn. apply Forall_app. split; [|apply Forall_singleton; lia].
      eapply Forall_impl; [exact H5|]. cbn. lia.
    + rewrite Hn, length_app. cbn. lia.
    + by apply (c_inv_grow h _ (PPub e k) _ c pu _ go pe k).
Qed.

(** A pick takes the oldest full slot. *)
Lemma pick_oldest h pe f0 f1 : pend_ok pe -> seq_order h pe ->
  (f0 = true /\ f1 = true /\ full_in pe false = true /\ full_in pe true = true) \/ (f0 <> f1 /\ head pe = Some (negb f0)) ->
  head pe = Some (pick f0 f1 (put_seq h)).
Proof.
  intros H1 H4 [(-> & -> & A & B)|[Hn Hh]].
  - unfold pick; cbn [andb]. destruct H1 as [->|[[a ->]|[a ->]]]; unfold full_in in *; cbn in *; [done|by destruct a|].
    destruct a; cbn in *.
    + rewrite (proj2 (Z.ltb_ge _ _)) by lia. done.
    + rewrite (proj2 (Z.ltb_lt _ _)) by lia. done.
  - rewrite Hh. unfold pick. by destruct f0, f1.
Qed.

Lemma monitor_step_inv s s' : inv s -> cstep s s' -> inv s'.
Proof.
  intros (HI & HP & HC) St. destruct St; unfold h_inv, p_inv, c_inv in HI, HC; hsimp;
    destruct HI as (H1 & H2 & H3 & H4 & H5).
  - split; [unfold h_inv; hsimp; auto|split; [done|]]. cbn. by rewrite H2.
  - split; [unfold h_inv; hsimp; auto|split; [done|]]. cbn. rewrite H2. auto.
  - split; [unfold h_inv; hsimp; auto|split; done].
  - split; [unfold h_inv; hsimp; auto|split; [done|]]. left. destruct HC. auto.
  - split; [unfold h_inv; hsimp; auto|split; [done|]]. unfold c_inv; hsimp. rewrite H2.
    destruct HC as [C0 C1]. destruct (full_in pe f0) eqn:Ef.
    + left. destruct f0, f1; try done; auto.
    + right. split; [done|]. destruct H1 as [->|[[a ->]|[a ->]]]; unfold full_in in *; cbn in *.
      * destruct f0, f1; try done; [by specialize (C0 eq_refl)|by specialize (C1 eq_refl)].
      * f_equal. by destruct f0, a.
      * by destruct f0, a.
  - split; [unfold h_inv; hsimp; auto|split; [done|]]. by apply pick_oldest.
  - split; [unfold h_inv; hsimp; auto|split; done].
  - destruct HC as [HC ->]. destruct pe as [|a pe]; [done|]. injection HC as ->.
    assert (Hk : full_in pe k = false).
    { destruct H1 as [H1|[[b H1]|[b H1]]]; [done| |]; injection H1 as -> ->; [done|]. by destruct b. }
    split; [|split; [|done]].
    + unfold h_inv, with_state; hsimp. cbn [tail]. split_and!.
      * destruct H1 as [H1|[[b H1]|[b H1]]]; [done| |]; injection H1 as -> ->; [by left|right; left; by eexists].
      * intros j. unfold set_at. destruct (Bool.eqb_spec j k) as [->|N]; [done|]. rewrite H2. unfold full_in; cbn.
        by rewrite (proj2 (Bool.eqb_false_iff j k)).
      * rewrite H3. cbn. by rewrite <- app_assoc.
      * by destruct H1 as [H1|[[b H1]|[b H1]]]; [done| |]; injection H1 as -> ->.
      * by apply Forall_cons_1 in H5 as [_ H5].
    + unfold p_inv, with_state in *; hsimp. destruct p as [| | |e j|e j|e j]; try done;
        (destruct HP as [HP ?]; split; [|done]; unfold set_at; by destruct (Bool.eqb j k)).
Qed.

Lemma pub_grows s s' : pstep s s' \/ cstep s s' -> (length (s_pub s) <= length (s_pub s'))%nat.
Proof. intros [St|St]; destruct St; cbn; rewrite ?length_app; lia. Qed.

Lemma handoff_reach_inv s : reach s -> Z.of_nat (length (s_pub s)) < 18446744073709551615 -> inv s.
Proof.
  induction 1 as [|s s' _ IH St|s s' _ IH St]; intros Hl.
  - split; [|split]; [|done..]. unfold h_inv; hsimp. split_and!; try done. by left.
  - apply (rt_step_inv s); [|done..]. apply IH. pose proof (pub_grows s s' (or_introl St)). lia.
  - apply (monitor_step_inv s); [|done]. apply IH. pose proof (pub_grows s s' (or_intror St)). lia.
Qed.

(** The slot the producer writes and the slot the consumer reads. *)
Definition p_target (s : sys) : option bool :=
  match s_p s with PSlot _ k | PSeq _ k => Some k | _ => None end.
Definition c_target (s : sys) : option bool := match s_c s with CCopy k => Some k | _ => None end.

(** *** The C functions are runs of these steps *)

Lemma put_is_run h e c pu go pe :
  let '(h', ok) := ecm_diag_handoff_put h e in
  exists pu' pe', rtc pstep (mksys h PIdle c pu go pe) (mksys h' PIdle c pu' go pe') /\
    pu' = if ok then pu ++ [e] else pu.
Proof.
  assert (Hfill : forall k, rtc pstep (mksys h (PSlot e k) c pu go pe)
    (mksys (mkho (set_at (h_state h) k true) (set_at (put_seq h) k (u64 (puts h + 1))) (drops h) (u64 (puts h + 1))
       (negb k) (set_at (h_slot h) k e)) PIdle c (pu ++ [e]) go (pe ++ [k]))).
  { intros k. eapply rtc_l; [apply p_slot|]. eapply rtc_l; [apply p_seq|]. apply rtc_once.
    apply (p_pub (mkho (h_state h) (set_at (put_seq h) k (u64 (puts h + 1))) (drops h) (u64 (puts h + 1)) (next_put h)
      (set_at (h_slot h) k e))). }
  unfold ecm_diag_handoff_put. destruct (h_state h (next_put h)) eqn:E1.
  - destruct (h_state h (negb (next_put h))) eqn:E2.
    + exists pu, pe. split; [|done]. eapply rtc_l; [apply (p_start _ _ _ _ _ e)|]. eapply rtc_l; [by apply p_full|].
      apply rtc_once. by apply p_drop.
    + do 2 eexists. split; [|done]. eapply rtc_l; [apply (p_start _ _ _ _ _ e)|]. eapply rtc_l; [by apply p_full|].
      eapply rtc_l; [by apply p_free2|]. apply Hfill.
  - do 2 eexists. split; [|done]. eapply rtc_l; [apply (p_start _ _ _ _ _ e)|]. eapply rtc_l; [by apply p_free|]. apply Hfill.
Qed.

Lemma get_is_run h p pu go pe :
  let '(h', x) := ecm_diag_handoff_get h in
  exists go' pe', rtc cstep (mksys h p CIdle pu go pe) (mksys h' p CIdle pu go' pe') /\
    go' = match x with Some x => go ++ [x] | None => go end.
Proof.
  assert (Hend : forall f0 f1, rtc cstep (mksys h p (CPick f0 f1) pu go pe)
    (mksys (with_state h (pick f0 f1 (put_seq h)) false) p CIdle pu
       (go ++ [h_slot h (pick f0 f1 (put_seq h))]) (tail pe))).
  { intros f0 f1. eapply rtc_l; [apply c_pick|]. eapply rtc_l; [apply c_copy|]. apply rtc_once, c_done. }
  unfold ecm_diag_handoff_get.
  assert (H01 : rtc cstep (mksys h p CIdle pu go pe) (mksys h p (CGot01 (h_state h false) (h_state h true)) pu go pe)).
  { eapply rtc_l; [apply c_load0|]. apply rtc_once, c_load1. }
  destruct (h_state h false) eqn:F0, (h_state h true) eqn:F1; cbn [negb andb orb Bool.eqb].
  - do 2 eexists. split; [|done]. etrans; [exact H01|]. eapply rtc_l; [apply c_both|]. apply Hend.
  - do 2 eexists. split; [|done]. etrans; [exact H01|].
    eapply rtc_l; [by apply c_again|]. rewrite F1. cbn. apply (Hend true false).
  - do 2 eexists. split; [|done]. etrans; [exact H01|].
    eapply rtc_l; [by apply c_again|]. rewrite F0. cbn. apply (Hend false true).
  - do 2 eexists. split; [|done]. etrans; [exact H01|]. apply rtc_once, c_none.
Qed.
End slots.
Arguments ecm_diag_handoff_t : clear implicits.
Arguments sys : clear implicits.

(** C34: The handoff delivers the diagnostic epochs in order.  With the accesses
    of the RT thread and of the monitor interleaved in any way, what the monitor
    has taken is a prefix of what the RT thread handed over (no epoch torn, lost
    after its hand over, repeated or out of order), at most two epochs wait, and
    the slot being written is never the one being copied. *)
Theorem handoff_in_order {E : Type} `{!Inhabited E} (s : sys E) :
  reach s -> Z.of_nat (length (s_pub s)) < 18446744073709551615 ->
  s_got s `prefix_of` s_pub s /\ (length (s_pub s) <= length (s_got s) + 2)%nat /\
  (forall k, p_target s = Some k -> c_target s = Some k -> False).
Proof.
  intros Hr Hl. destruct (handoff_reach_inv s Hr Hl) as ((H1 & H2 & H3 & _) & HP & HC).
  split_and!.
  - rewrite H3. by eexists.
  - rewrite H3, length_app, length_fmap. destruct H1 as [->|[[a ->]|[a ->]]]; cbn; lia.
  - intros k Hp Hc. unfold p_target, c_target, p_inv, c_inv in *.
    destruct (s_c s) as [| | | |k'|]; try done. injection Hc as ->. apply head_full in HC. rewrite <- H2 in HC.
    destruct (s_p s) as [| | |e j|e j|]; try done; injection Hp as ->; destruct HP as [HP _]; congruence.
Qed.

Lemma handoff_in_order_witness :
  exists s : sys Z, reach s /\ s_pub s = [10; 20] /\ s_got s = [10] /\ s_got s `prefix_of` s_pub s.
Proof.
  set (h0 := ecm_diag_handoff_init (E := Z)).
  set (h1 := (ecm_diag_handoff_put h0 10).1). set (h2 := (ecm_diag_handoff_put h1 20).1).
  set (h3 := (ecm_diag_handoff_get h2).1).
  assert (Hp : forall a b : sys Z, reach a -> rtc pstep a b -> reach b).
  { intros a b Ha Hab. induction Hab; [done|]. apply IHHab. by eapply reach_p. }
  assert (Hc : forall a b : sys Z, reach a -> rtc cstep a b -> reach b).
  { intros a b Ha Hab. induction Hab; [done|]. apply IHHab. by eapply reach_c. }
  pose proof (put_is_run h0 10 CIdle [] [] []) as P1. cbn in P1. destruct P1 as (pu1 & pe1 & R1 & ->).
  pose proof (put_is_run h1 20 CIdle [10] [] pe1) as P2. cbn in P2. destruct P2 as (pu2 & pe2 & R2 & ->).
  pose proof (get_is_run h2 PIdle [10; 20] [] pe2) as P3. cbn in P3. destruct P3 as (go3 & pe3 & R3 & ->).
  assert (Hr : reach (mksys h3 PIdle CIdle [10; 20] [10] pe3)).
  { eapply Hc; [|exact R3]. eapply Hp; [|exact R2]. eapply Hp; [|exact R1]. apply reach_init. }
  eexists. split; [exact Hr|]. split; [reflexivity|]. split; [reflexivity|].
  apply (handoff_in_order _ Hr). reflexivity.
Defined.
End Handoff.

(** ** The accumulated model *)
Module Model.
Import Wkc.

Definition ECM_DIAG_MAX_SLAVES : Z := 64.
Definition ECM_DIAG_MAX_GROUPS : Z := 2.
Definition ECM_DIAG_ERR_LEN : Z := 20.
Definition ECM_DIAG_PORTS : Z := 4.
Definition ECM_DIAG_EMCY_KEEP : Z := 4.
Definition AL_ERR : Z := 0x10.
Definition DL_LINK_PORT (p : Z) : Z := Z.shiftl 1 (4 + p).

Record ecm_diag_raw_slave_t := mkraws {
  rs_station_addr : Z; wkc_err : Z; wkc_dl : Z; wkc_al : Z; rs_err : list Z;
  rs_dl_status : Z; rs_al_status : Z; rs_al_code : Z
}.
#[export] Instance raw_slave_inhabited : Inhabited ecm_diag_raw_slave_t := populate (mkraws 0 0 0 0 [] 0 0 0).

Record ecm_diag_raw_t := mkraw {
  seq : Z; t_ns : Z; frame_ok : bool; clear_on_read : bool; raw_n : Z; first : Z; raw_count : Z;
  raw_brd_count : Z; raw_brd_al_or : Z; raw_frames_lost : Z; raw_handoff_drops : Z; raw_ngroups : Z;
  raw_wkc : list ecm_wkc_stats_t; raw_s : list ecm_diag_raw_slave_t
}.

Record ecm_emcy_t := mkemcy { em_t_ns : Z; em_tick : Z; em_code : Z; em_reg : Z; em_data : list Z }.
#[export] Instance ecm_emcy_inhabited : Inhabited ecm_emcy_t := populate (mkemcy 0 0 0 0 [0; 0; 0; 0; 0]).

Record ecm_diag_counts_t := mkcounts { inv : list Z; rx : list Z; fwd : list Z; pu : Z; pdi : Z; lost : list Z }.
Definition zero4 : list Z := [0; 0; 0; 0].
Definition counts_zero : ecm_diag_counts_t := mkcounts zero4 zero4 zero4 0 0 zero4.

Record ecm_diag_slave_t := mkds {
  tot : ecm_diag_counts_t; last : ecm_diag_counts_t; prev : list Z; have_prev : bool; saturated : Z;
  answered : bool; ever_answered : bool; no_answer : Z;
  station_addr : Z; dl_status : Z; al_status : Z; al_code : Z; seen_read : Z;
  emcy_count : Z; emcy : list ecm_emcy_t; emcy_next : Z
}.
#[export] Instance ecm_diag_slave_eta : Eta ecm_diag_slave_t := fun s =>
  mkds (tot s) (last s) (prev s) (have_prev s) (saturated s) (answered s) (ever_answered s) (no_answer s)
    (station_addr s) (dl_status s) (al_status s) (al_code s) (seen_read s) (emcy_count s) (emcy s) (emcy_next s).
Definition slave_zero : ecm_diag_slave_t :=
  mkds counts_zero counts_zero (replicate 20 0) false 0 false false 0 0 0 0 0 0 0 (replicate 4 inhabitant) 0.
#[export] Instance ecm_diag_slave_inhabited : Inhabited ecm_diag_slave_t := populate slave_zero.

Record ecm_diag_t := mkdiag {
  n : Z; expected_state : Z; reads : Z; frames_lost : Z; handoff_drops : Z; last_seq : Z; last_t_ns : Z;
  brd_count : Z; brd_al_or : Z; ngroups : Z; d_wkc : list ecm_wkc_stats_t; s : list ecm_diag_slave_t;
  emcy_total : Z; emcy_lost : Z; emcy_bad_slave : Z
}.
#[export] Instance ecm_diag_eta : Eta ecm_diag_t := fun d =>
  mkdiag (n d) (expected_state d) (reads d) (frames_lost d) (handoff_drops d) (last_seq d) (last_t_ns d)
    (brd_count d) (brd_al_or d) (ngroups d) (d_wkc d) (s d) (emcy_total d) (emcy_lost d) (emcy_bad_slave d).

Definition ecm_diag_init (nslaves expected : Z) : ecm_diag_t :=
  mkdiag (if ECM_DIAG_MAX_SLAVES <? nslaves then ECM_DIAG_MAX_SLAVES else nslaves) expected 0 0 0 0 0 (-1) 0 0
    (replicate 2 wkc_zero) (replicate 64 slave_zero) 0 0 0.

Definition split (e : list Z) : ecm_diag_counts_t :=
  let at_ i := e !!! Z.to_nat i in
  mkcounts ((fun p => at_ (2 * p)) <$> seqZ 0 4) ((fun p => at_ (2 * p + 1)) <$> seqZ 0 4)
    ((fun p => at_ (8 + p)) <$> seqZ 0 4) (at_ 12) (at_ 13) ((fun p => at_ (16 + p)) <$> seqZ 0 4).

Definition add (t d : ecm_diag_counts_t) : ecm_diag_counts_t :=
  let plus a b := zip_with (fun x y => u64 (x + y)) a b in
  mkcounts (plus (inv t) (inv d)) (plus (rx t) (rx d)) (plus (fwd t) (fwd d))
    (u64 (pu t + pu d)) (u64 (pdi t + pdi d)) (plus (lost t) (lost d)).

Definition is_counter (j : Z) : bool := negb (j =? 14) && negb (j =? 15).

(** The delta of one byte. *)
Definition delta_byte (clear have : bool) (pr : list Z) (err : list Z) (j : Z) : Z :=
  let v := err !!! Z.to_nat j in
  if negb (is_counter j) then 0
  else if clear || negb have then v
  else if pr !!! Z.to_nat j <=? v then u8 (v - pr !!! Z.to_nat j) else v.

(** The error counters of a slave that answered them. *)
Definition ingest_errors (clear : bool) (err : list Z) (sl : ecm_diag_slave_t) : ecm_diag_slave_t :=
  let delta := delta_byte clear (have_prev sl) (prev sl) err <$> seqZ 0 ECM_DIAG_ERR_LEN in
  let sat := existsb (fun j => is_counter j && (err !!! Z.to_nat j =? 255)) (seqZ 0 ECM_DIAG_ERR_LEN) in
  let sl := sl <| prev := if clear then replicate 20 0 else err |> <| have_prev := negb clear |> in
  let sl := if sat then sl <| saturated := u64 (saturated sl + 1) |> else sl in
  sl <| last := split delta |> <| tot := add (tot sl) (split delta) |>.

(** The body of the loop of [ecm_diag_ingest] for one slave. *)
Definition ingest_slave (clear : bool) (reads : Z) (r : ecm_diag_raw_slave_t) (sl : ecm_diag_slave_t) : ecm_diag_slave_t :=
  let ans := (0 <? wkc_err r) || (0 <? wkc_al r) in
  let sl := sl <| seen_read := reads |> <| station_addr := rs_station_addr r |> <| last := counts_zero |>
               <| answered := ans |> in
  if negb ans then sl <| no_answer := u64 (no_answer sl + 1) |>
  else
    let sl := sl <| ever_answered := true |> in
    let sl := if 0 <? wkc_err r then ingest_errors clear (rs_err r) sl else sl in
    let sl := if 0 <? wkc_dl r then sl <| dl_status := rs_dl_status r |> else sl in
    if 0 <? wkc_al r then sl <| al_status := rs_al_status r |> <| al_code := rs_al_code r |> else sl.

(** The loop over the slaves [first, first + count) of the read. *)
Definition ingest_slaves (raw : ecm_diag_raw_t) (reads n : Z) (ss : list ecm_diag_slave_t) : list ecm_diag_slave_t :=
  let fin := if n <? first raw + raw_count raw then n else first raw + raw_count raw in
  foldl (fun ss i => alter (ingest_slave (clear_on_read raw) reads (raw_s raw !!! Z.to_nat i)) (Z.to_nat i) ss)
    ss (seqZ (first raw) (fin - first raw)).

Definition ecm_diag_ingest (d : ecm_diag_t) (raw : ecm_diag_raw_t) : ecm_diag_t :=
  let d := d <| reads := u64 (reads d + 1) |> <| last_seq := seq raw |> <| last_t_ns := t_ns raw |>
             <| frames_lost := raw_frames_lost raw |> <| handoff_drops := raw_handoff_drops raw |>
             <| ngroups := if ECM_DIAG_MAX_GROUPS <? raw_ngroups raw then ECM_DIAG_MAX_GROUPS else raw_ngroups raw |>
             <| d_wkc := raw_wkc raw |> in
  if negb (frame_ok raw) then d
  else
    let d := d <| brd_count := raw_brd_count raw |> <| brd_al_or := raw_brd_al_or raw |> in
    d <| s := ingest_slaves raw (reads d) (n d) (s d) |>.

Definition ecm_diag_add_emcy (d : ecm_diag_t) (slave : Z) (e : ecm_emcy_t) : ecm_diag_t :=
  if (slave <? 1) || (n d <? slave) then d <| emcy_bad_slave := u64 (emcy_bad_slave d + 1) |>
  else
    let put sl := sl <| emcy := <[Z.to_nat (emcy_next sl) := e]> (emcy sl) |>
                     <| emcy_next := Z.rem (emcy_next sl + 1) ECM_DIAG_EMCY_KEEP |>
                     <| emcy_count := u64 (emcy_count sl + 1) |> in
    d <| s := alter put (Z.to_nat (slave - 1)) (s d) |> <| emcy_total := u64 (emcy_total d + 1) |>.

Definition ecm_diag_emcy (d : ecm_diag_t) (slave k : Z) : option ecm_emcy_t :=
  if (slave <? 1) || (n d <? slave) || (k <? 0) || (ECM_DIAG_EMCY_KEEP <=? k) then None
  else
    let sl := s d !!! Z.to_nat (slave - 1) in
    if emcy_count sl <=? u64 k then None
    else Some (emcy sl !!! Z.to_nat (Z.rem (emcy_next sl - 1 - k + 2 * ECM_DIAG_EMCY_KEEP) ECM_DIAG_EMCY_KEEP)).

(** *** The totals are the true number of errors *)

(** Counter [j] of the 20-byte block, in the accumulated counts. *)
Definition count_of (c : ecm_diag_counts_t) (j : Z) : Z :=
  if j <? 8 then (if Z.even j then inv c else rx c) !!! Z.to_nat (j / 2)
  else if j <? 12 then fwd c !!! Z.to_nat (j - 8)
  else if j =? 12 then pu c
  else if j =? 13 then pdi c
  else lost c !!! Z.to_nat (j - 16).

Definition counts_wf (c : ecm_diag_counts_t) : Prop :=
  length (inv c) = 4%nat /\ length (rx c) = 4%nat /\ length (fwd c) = 4%nat /\ length (lost c) = 4%nat.

Lemma counter_cases j (P : Z -> Prop) : 0 <= j < 20 -> is_counter j = true ->
  Forall P [0; 1; 2; 3; 4; 5; 6; 7; 8; 9; 10; 11; 12; 13; 16; 17; 18; 19] -> P j.
Proof.
  intros Hj Hc HF. rewrite Forall_forall in HF. apply HF. unfold is_counter in Hc. bprop.
  apply list_elem_of_In. cbn. lia.
Qed.

Lemma count_split f j : 0 <= j < 20 -> is_counter j = true ->
  count_of (split (f <$> seqZ 0 ECM_DIAG_ERR_LEN)) j = f j.
Proof. intros Hj Hc. apply (counter_cases j (fun j => count_of (split (f <$> seqZ 0 20)) j = f j) Hj Hc). repeat constructor. Qed.

Lemma split_wf e : counts_wf (split e).
Proof. done. Qed.
Lemma add_wf t d : counts_wf t -> counts_wf d -> counts_wf (add t d).
Proof.
  intros (A & B & C & D) (A' & B' & C' & D'). unfold counts_wf, add; cbn [inv rx fwd lost].
  rewrite !length_zip_with. rewrite A, B, C, D, A', B', C', D'. done.
Qed.
Lemma count_add t d j : counts_wf t -> counts_wf d -> 0 <= j < 20 -> is_counter j = true ->
  count_of (add t d) j = u64 (count_of t j + count_of d j).
Proof.
  destruct t as [t1 t2 t3 t4 t5 t6], d as [d1 d2 d3 d4 d5 d6].
  unfold counts_wf; cbn [inv rx fwd lost]. intros (A & B & C & D) (A' & B' & C' & D') Hj Hc.
  destruct t1 as [|? [|? [|? [|? [|]]]]], t2 as [|? [|? [|? [|? [|]]]]], t3 as [|? [|? [|? [|? [|]]]]],
    t6 as [|? [|? [|? [|? [|]]]]]; try discriminate.
  destruct d1 as [|? [|? [|? [|? [|]]]]], d2 as [|? [|? [|? [|? [|]]]]], d3 as [|? [|? [|? [|? [|]]]]],
    d6 as [|? [|? [|? [|? [|]]]]]; try discriminate.
  apply (counter_cases j (fun j => count_of (add _ _) j = u64 (count_of _ j + count_of _ j)) Hj Hc). repeat constructor.
Qed.

(** [cum] errors happened on counter [j] so far, seen in [k] reads. *)
Record slave_inv (clear : bool) (j cum k : Z) (sl : ecm_diag_slave_t) : Prop := {
  si_wf : counts_wf (tot sl);
  si_sat : 0 <= saturated sl <= k;
  si_le : 0 <= count_of (tot sl) j <= cum;
  si_eq : saturated sl = 0 -> count_of (tot sl) j = cum;
  si_prev : if clear then have_prev sl = false
            else if have_prev sl then prev sl !!! Z.to_nat j = Z.min 255 cum else cum = 0
}.

(** What the ESC returns: its 8-bit counter stops at 255; reading with clear
    restarts it. *)
Definition esc_value (clear : bool) (cum d : Z) : Z := Z.min 255 (if clear then d else cum + d).

Lemma ingest_fields clear rd r sl : 0 < wkc_err r ->
  let delta := delta_byte clear (have_prev sl) (prev sl) (rs_err r) in
  let sat := existsb (fun j => is_counter j && (rs_err r !!! Z.to_nat j =? 255)) (seqZ 0 ECM_DIAG_ERR_LEN) in
  let sl' := ingest_slave clear rd r sl in
  tot sl' = add (tot sl) (split (delta <$> seqZ 0 ECM_DIAG_ERR_LEN)) /\
  saturated sl' = (if sat then u64 (saturated sl + 1) else saturated sl) /\
  have_prev sl' = negb clear /\ prev sl' = if clear then replicate 20 0 else rs_err r.
Proof.
  intros Hw. cbv zeta. unfold ingest_slave. cbv zeta. rewrite (proj2 (Z.ltb_lt 0 (wkc_err r))) by done. cbn [orb negb].
  set (sl1 := sl <| seen_read := rd |> <| station_addr := _ |> <| last := _ |> <| answered := _ |> <| ever_answered := _ |>).
  assert (E : tot sl1 = tot sl /\ saturated sl1 = saturated sl /\ have_prev sl1 = have_prev sl /\ prev sl1 = prev sl) by done.
  clearbody sl1. destruct E as (E1 & E2 & E3 & E4). unfold ingest_errors. rewrite E3, E4, <- E1, <- E2.
  generalize (existsb (fun j => is_counter j && (rs_err r !!! Z.to_nat j =? 255)) (seqZ 0 ECM_DIAG_ERR_LEN)).
  generalize (split (delta_byte clear (have_prev sl) (prev sl) (rs_err r) <$> seqZ 0 ECM_DIAG_ERR_LEN)).
  intros c b. destruct b, (0 <? wkc_dl r), (0 <? wkc_al r); done.
Qed.

Lemma ingest_slave_inv clear j cum k rd r sl d : 0 <= j < 20 -> is_counter j = true -> 0 <= d ->
  0 < wkc_err r -> rs_err r !!! Z.to_nat j = esc_value clear cum d ->
  cum + d < 18446744073709551616 -> 0 <= k < 18446744073709551615 ->
  slave_inv clear j cum k sl -> slave_inv clear j (cum + d) (k + 1) (ingest_slave clear rd r sl).
Proof.
  intros Hj Hc Hd Hw Hv Hb Hk [W S1 L1 E1 P1].
  set (delta := delta_byte clear (have_prev sl) (prev sl) (rs_err r)).
  set (sat := existsb (fun j => is_counter j && (rs_err r !!! Z.to_nat j =? 255)) (seqZ 0 ECM_DIAG_ERR_LEN)).
  assert (Hdj : 0 <= delta j <= d /\ (esc_value clear cum d <> 255 -> delta j = d)).
  { subst delta. unfold delta_byte. rewrite Hc, Hv. cbn [negb]. unfold esc_value in *.
    destruct clear; cbn [orb]; [lia|].
    destruct (have_prev sl); cbn [negb]; [rewrite P1|subst cum; lia].
    destruct (Z.leb_spec (Z.min 255 cum) (Z.min 255 (cum + d))) as [C|C]; [|lia].
    unfold u8. rewrite Z.mod_small by lia. lia. }
  assert (Hsat : sat = false -> esc_value clear cum d <> 255).
  { intros Hs E. rewrite <- Hv in E. enough (sat = true) by congruence. apply existsb_exists. exists j.
    split; [apply list_elem_of_In, elem_of_seqZ; unfold ECM_DIAG_ERR_LEN; lia|]. rewrite Hc, E. done. }
  assert (Ht : count_of (add (tot sl) (split (delta <$> seqZ 0 ECM_DIAG_ERR_LEN))) j = count_of (tot sl) j + delta j).
  { rewrite count_add, count_split by (auto; apply split_wf). unfold u64. apply Z.mod_small. lia. }
  assert (Hs1 : u64 (saturated sl + 1) = saturated sl + 1) by (unfold u64; apply Z.mod_small; lia).
  assert (Wn : counts_wf (add (tot sl) (split (delta <$> seqZ 0 ECM_DIAG_ERR_LEN)))) by (apply add_wf; [done|apply split_wf]).
  destruct (ingest_fields clear rd r sl Hw) as (T1 & T2 & T3 & T4). fold delta in T1. fold sat in T2. split.
  - by rewrite T1.
  - rewrite T2. destruct sat; lia.
  - rewrite T1, Ht. lia.
  - rewrite T1, T2, Ht, Hs1. destruct sat; [lia|]. intros E. rewrite E1 by done. destruct Hdj as [_ ->]; auto.
  - rewrite T3, T4. destruct clear; [done|]. cbn [negb]. rewrite Hv. done.
Qed.

Lemma foldl_alter_seqZ (f : Z -> ecm_diag_slave_t -> ecm_diag_slave_t) (m : nat) a l i : 0 <= a -> 0 <= i < Z.of_nat (length l) ->
  foldl (fun ss k => alter (f k) (Z.to_nat k) ss) l (seqZ a (Z.of_nat m)) !!! Z.to_nat i =
  if (a <=? i) && (i <? a + Z.of_nat m) then f i (l !!! Z.to_nat i) else l !!! Z.to_nat i.
Proof.
  intros Ha Hi. induction m as [|m IH].
  - rewrite (seqZ_nil a) by done. cbn [foldl]. destruct (Z.leb_spec a i), (Z.ltb_spec i (a + Z.of_nat 0)); cbn; done || lia.
  - assert (Hlen : forall ks l, length (foldl (fun ss k => alter (f k) (Z.to_nat k) ss) l ks) = length l).
    { clear. induction ks as [|k ks IH]; intros l; cbn; [done|]. by rewrite IH, length_alter. }
    rewrite Nat2Z.inj_succ, <- Z.add_1_r, seqZ_app, foldl_app, (seqZ_cons _ 1), (seqZ_nil _ (Z.pred 1)) by lia. cbn [foldl].
    rewrite list_lookup_total_alter, Hlen. case_decide as D.
    + destruct D as [D _]. assert (a + Z.of_nat m = i) as -> by lia. rewrite IH.
      destruct (Z.leb_spec a i), (Z.ltb_spec i (a + Z.of_nat m)), (Z.ltb_spec i (a + (Z.of_nat m + 1))); cbn; done || lia.
    + rewrite IH. destruct (Z.leb_spec a i), (Z.ltb_spec i (a + Z.of_nat m)), (Z.ltb_spec i (a + (Z.of_nat m + 1)));
        cbn; try done; try lia; exfalso; apply D; split; lia.
Qed.

Definition diag_wf (d : ecm_diag_t) : Prop := length (s d) = 64%nat /\ n d <= 64.

Lemma ingest_s d raw : n (ecm_diag_ingest d raw) = n d /\
  s (ecm_diag_ingest d raw) = if frame_ok raw then ingest_slaves raw (u64 (reads d + 1)) (n d) (s d) else s d.
Proof. unfold ecm_diag_ingest. cbv zeta. destruct (frame_ok raw); split; reflexivity. Qed.

Lemma ingest_slaves_length raw rd m l : length (ingest_slaves raw rd m l) = length l.
Proof.
  unfold ingest_slaves. generalize (seqZ (first raw) ((if m <? first raw + raw_count raw then m else first raw + raw_count raw) - first raw)).
  intros ks. revert l. induction ks as [|k ks IH]; intros l; cbn; [done|]. by rewrite IH, length_alter.
Qed.

(** A read changes exactly the slaves it covers, each by [ingest_slave]. *)
Lemma ingest_at d raw i : diag_wf d -> frame_ok raw = true -> 0 <= first raw -> 0 <= i < n d ->
  exists rd, s (ecm_diag_ingest d raw) !!! Z.to_nat i =
    if (first raw <=? i) && (i <? first raw + raw_count raw)
    then ingest_slave (clear_on_read raw) rd (raw_s raw !!! Z.to_nat i) (s d !!! Z.to_nat i)
    else s d !!! Z.to_nat i.
Proof.
  intros [Hl Hn] Hf Ha Hi. exists (u64 (reads d + 1)). destruct (ingest_s d raw) as [_ ->]. rewrite Hf.
  unfold ingest_slaves.
  set (w := (if _ <? _ then _ else _) - first raw).
  assert (Hw : w = Z.min (n d) (first raw + raw_count raw) - first raw).
  { subst w. destruct (Z.ltb_spec (n d) (first raw + raw_count raw)); lia. }
  clearbody w. replace (seqZ (first raw) w) with (seqZ (first raw) (Z.of_nat (Z.to_nat w))).
  2:{ destruct (Z.le_gt_cases 0 w); [f_equal; lia|]. rewrite !seqZ_nil by lia. done. }
  rewrite (foldl_alter_seqZ (fun k => ingest_slave (clear_on_read raw) (u64 (reads d + 1)) (raw_s raw !!! Z.to_nat k)))
    by (rewrite ?Hl; lia).
  destruct (Z.leb_spec (first raw) i); cbn [andb]; [|done].
  destruct (Z.ltb_spec i (first raw + Z.of_nat (Z.to_nat w))), (Z.ltb_spec i (first raw + raw_count raw)); done || lia.
Qed.

(** One diagnostic read: what [ecm_diag_ingest] got, the errors counter [j] of
    slave [i] had since the read before, and whether the counter was set back to
    zero without being shown (the frame of a clearing read lost on its way back). *)
Record read_t := mkread { rd_raw : ecm_diag_raw_t; rd_errors : Z; rd_wiped : bool }.
(** The read brings the counters of slave [i]: the frame came back, its window
    covers the slave, and the slave answered. *)
Definition shows (i : Z) (raw : ecm_diag_raw_t) : bool :=
  frame_ok raw && ((first raw <=? i) && (i <? first raw + raw_count raw)) && (0 <? wkc_err (raw_s raw !!! Z.to_nat i)).
(** Reads as an ESC with [reg] errors in counter [j] answers them: a read that
    shows the counter brings [reg], stopped at 255; a clearing one starts it again. *)
Fixpoint true_reads (clear : bool) (i j reg : Z) (rs : list read_t) : Prop :=
  match rs with
  | [] => True
  | x :: rs =>
      let reg := reg + rd_errors x in
      0 <= rd_errors x /\ 0 <= first (rd_raw x) /\
      if shows i (rd_raw x)
      then clear_on_read (rd_raw x) = clear /\ rs_err (raw_s (rd_raw x) !!! Z.to_nat i) !!! Z.to_nat j = Z.min 255 reg /\
           true_reads clear i j (if clear then 0 else reg) rs
      else (rd_wiped x = true -> clear = true) /\ true_reads clear i j (if rd_wiped x then 0 else reg) rs
  end.
Definition errors_in (rs : list read_t) : Z := foldr (fun x a => rd_errors x + a) 0 rs.
(** The errors that were in the counter at a read that showed it; [pend] are in
    it and not shown yet. *)
Fixpoint errors_shown (i pend : Z) (rs : list read_t) : Z :=
  match rs with
  | [] => 0
  | x :: rs =>
      let pend := pend + rd_errors x in
      if shows i (rd_raw x) then pend + errors_shown i 0 rs else errors_shown i (if rd_wiped x then 0 else pend) rs
  end.

Lemma true_reads_eq clear i j reg reg' rs : true_reads clear i j reg rs -> reg = reg' -> true_reads clear i j reg' rs.
Proof. by intros H <-. Qed.
Lemma errors_shown_le clear i j reg pend rs : true_reads clear i j reg rs -> 0 <= pend ->
  0 <= errors_shown i pend rs <= pend + errors_in rs.
Proof.
  revert reg pend. induction rs as [|x rs IH]; intros reg pend H Hp; [cbn; lia|].
  change (errors_in (x :: rs)) with (rd_errors x + errors_in rs). cbn [true_reads errors_shown] in *. destruct H as (He & _ & H).
  destruct (shows i (rd_raw x)).
  - destruct H as (_ & _ & H). specialize (IH _ 0 H ltac:(lia)). lia.
  - destruct H as [_ H]. assert (0 <= if rd_wiped x then 0 else pend + rd_errors x) as Hp' by (destruct (rd_wiped x); lia).
    specialize (IH _ _ H Hp'). destruct (rd_wiped x); lia.
Qed.

(** A read that does not show the counters of slave [i] leaves what is kept of them. *)
Lemma ingest_unshown d raw i : diag_wf d -> 0 <= first raw -> 0 <= i < n d -> shows i raw = false ->
  let sl' := s (ecm_diag_ingest d raw) !!! Z.to_nat i in let sl := s d !!! Z.to_nat i in
  tot sl' = tot sl /\ saturated sl' = saturated sl /\ have_prev sl' = have_prev sl /\ prev sl' = prev sl.
Proof.
  intros Hwf Hf Hi. cbv zeta. unfold shows. destruct (frame_ok raw) eqn:Ef; cbn [andb].
  2:{ intros _. destruct (ingest_s d raw) as [_ ->]. by rewrite Ef. }
  destruct (ingest_at d raw i Hwf Ef Hf Hi) as [rd ->]. destruct ((first raw <=? i) && (i <? first raw + raw_count raw)); cbn [andb]; [|done].
  intros Hw. unfold ingest_slave. cbv zeta. rewrite Hw. cbn [orb]. by destruct (0 <? wkc_al _), (0 <? wkc_dl _).
Qed.
Lemma ingest_shown d raw i : diag_wf d -> 0 <= first raw -> 0 <= i < n d -> shows i raw = true ->
  0 < wkc_err (raw_s raw !!! Z.to_nat i) /\
  exists rd, s (ecm_diag_ingest d raw) !!! Z.to_nat i = ingest_slave (clear_on_read raw) rd (raw_s raw !!! Z.to_nat i) (s d !!! Z.to_nat i).
Proof.
  intros Hwf Hf Hi. unfold shows. rewrite !andb_true_iff. intros [[Ef Ew] Hw]. apply Z.ltb_lt in Hw. split; [done|].
  destruct (ingest_at d raw i Hwf Ef Hf Hi) as [rd Ei]. exists rd. rewrite Ei, (proj1 Ew), (proj2 Ew). done.
Qed.
Lemma slave_inv_ext clear j cum k sl sl' :
  tot sl' = tot sl /\ saturated sl' = saturated sl /\ have_prev sl' = have_prev sl /\ prev sl' = prev sl ->
  slave_inv clear j cum k sl -> slave_inv clear j cum (k + 1) sl'.
Proof. intros (T & S & H & P) [I1 I2 I3 I4 I5]. split; rewrite ?T, ?S, ?H, ?P; done || lia. Qed.

Lemma ingest_wf d raw : diag_wf d -> diag_wf (ecm_diag_ingest d raw) /\ n (ecm_diag_ingest d raw) = n d.
Proof.
  intros [W1 W2]. destruct (ingest_s d raw) as [En Es]. split; [|done]. split; [|by rewrite En].
  rewrite Es. destruct (frame_ok raw); [by rewrite ingest_slaves_length|done].
Qed.

(** [cum] errors were shown, [pend] are in the counter since. *)
Lemma ingest_all clear i j cum pend k rs d : diag_wf d -> 0 <= i < n d -> 0 <= j < 20 -> is_counter j = true -> 0 <= k ->
  0 <= pend -> cum + pend + errors_in rs < 18446744073709551616 -> k + Z.of_nat (length rs) < 18446744073709551616 ->
  true_reads clear i j ((if clear then 0 else cum) + pend) rs -> slave_inv clear j cum k (s d !!! Z.to_nat i) ->
  slave_inv clear j (cum + errors_shown i pend rs) (k + Z.of_nat (length rs))
    (s (foldl ecm_diag_ingest d (rd_raw <$> rs)) !!! Z.to_nat i).
Proof.
  revert cum pend k d. induction rs as [|x rs IH]; intros cum pend k d Hwf Hi Hj Hc Hk Hp Hb Hn HT HI; [cbn; by rewrite !Z.add_0_r|].
  cbn [true_reads errors_shown] in *. destruct HT as (He & Hf & HT).
  change (errors_in (x :: rs)) with (rd_errors x + errors_in rs) in Hb.
  cbn [fmap list_fmap foldl length] in *. destruct (ingest_wf d (rd_raw x) Hwf) as [Hwf' En].
  replace (k + Z.of_nat (S (length rs))) with (k + 1 + Z.of_nat (length rs)) by lia.
  destruct (shows i (rd_raw x)) eqn:Es.
  - destruct HT as (Hcl & Hv & HT). destruct (ingest_shown d (rd_raw x) i Hwf Hf Hi Es) as (Hw & rd & Ei).
    pose proof (errors_shown_le _ _ _ _ 0 _ HT ltac:(lia)) as Hle.
    rewrite Z.add_assoc. apply IH; rewrite ?En; try done; try lia.
    + apply (true_reads_eq _ _ _ _ _ _ HT). destruct clear; lia.
    + rewrite Ei, Hcl, Z.add_assoc. rewrite <- Z.add_assoc. apply ingest_slave_inv; try done; try lia.
      unfold esc_value. rewrite Hv. destruct clear; f_equal; lia.
  - destruct HT as [Hwi HT]. apply IH; rewrite ?En; try done; try lia.
    + destruct (rd_wiped x); lia.
    + destruct (rd_wiped x); lia.
    + apply (true_reads_eq _ _ _ _ _ _ HT). destruct (rd_wiped x), clear; lia.
    + eapply slave_inv_ext; [by apply ingest_unshown|done].
Qed.

(** C35: The accumulated error counters are the true ones.  The reads of a slave
    rotate with windows, and each may not cover it, be lost, or not be answered;
    those that show its counters all clear them or all leave them.  Then the
    total of each counter equals the errors the ESC had counted up to the reads
    that showed it, as long as no 8-bit counter of the slave was seen saturated,
    and never exceeds them.  Errors after the last such read are still to come;
    those in the counter when the answer of a clearing read was lost never
    appear.  The ESC is not power-cycled between passive reads. *)
Theorem diag_counts_true clear nslaves expected i j rs :
  0 <= i < Z.min nslaves 64 -> 0 <= j < 20 -> is_counter j = true ->
  errors_in rs < 18446744073709551616 -> Z.of_nat (length rs) < 18446744073709551616 ->
  true_reads clear i j 0 rs ->
  let sl := s (foldl ecm_diag_ingest (ecm_diag_init nslaves expected) (rd_raw <$> rs)) !!! Z.to_nat i in
  count_of (tot sl) j <= errors_shown i 0 rs <= errors_in rs /\
  (saturated sl = 0 -> count_of (tot sl) j = errors_shown i 0 rs).
Proof.
  intros Hi Hj Hc Hb Hn HT. cbv zeta.
  assert (En : n (ecm_diag_init nslaves expected) = Z.min nslaves 64).
  { unfold ecm_diag_init, ECM_DIAG_MAX_SLAVES; cbn [n]. destruct (Z.ltb_spec 64 nslaves); lia. }
  assert (Hz : s (ecm_diag_init nslaves expected) !!! Z.to_nat i = slave_zero).
  { apply list_lookup_total_correct. cbn [ecm_diag_init s]. apply lookup_replicate_2. lia. }
  pose proof (errors_shown_le _ _ _ _ 0 _ HT ltac:(lia)) as Hle.
  destruct (ingest_all clear i j 0 0 0 rs (ecm_diag_init nslaves expected)) as [_ _ L E _]; rewrite ?En, ?Hz; try done; try lia.
  - split; [done|]. lia.
  - by destruct clear.
  - assert (Z0 : count_of (tot slave_zero) j = 0)
      by (apply (counter_cases j (fun j => count_of _ j = 0) Hj Hc); repeat constructor).
    split; rewrite ?Z0; try done. by destruct clear.
Qed.

(** Three slaves read one after the other, passively, counter 8 of the second
    one; the third read is lost. *)
Definition demo_read (ok : bool) (f v : Z) : ecm_diag_raw_t :=
  mkraw 1 0 ok false 3 f 1 3 0 0 0 1 [wkc_zero; wkc_zero]
    [mkraws 0x1001 1 1 1 (replicate 20 9) 0 8 0; mkraws 0x1002 1 1 1 (replicate 8 0 ++ [v] ++ replicate 11 0) 0 8 0;
     mkraws 0x1003 1 1 1 (replicate 20 9) 0 8 0].
Definition demo_reads : list read_t :=
  [mkread (demo_read true 0 77) 1 false; mkread (demo_read true 1 3) 2 false; mkread (demo_read false 1 99) 4 false;
   mkread (demo_read true 1 10) 3 false; mkread (demo_read true 2 88) 5 false].

Lemma diag_counts_true_witness :
  let sl := s (foldl ecm_diag_ingest (ecm_diag_init 3 8) (rd_raw <$> demo_reads)) !!! 1%nat in
  saturated sl = 0 /\ errors_in demo_reads = 15 /\ count_of (tot sl) 8 = 10.
Proof.
  intros sl.
  assert (Hs : saturated sl = 0) by (vm_compute; reflexivity).
  assert (He : errors_in demo_reads = 15) by reflexivity.
  assert (Hh : errors_shown 1 0 demo_reads = 10) by (vm_compute; reflexivity).
  assert (HT : true_reads false 1 8 0 demo_reads) by (vm_compute; split_and!; congruence || done).
  pose proof (diag_counts_true false 3 8 1 8 demo_reads ltac:(lia) ltac:(lia) eq_refl ltac:(rewrite He; lia) ltac:(cbn; lia) HT) as [_ H].
  rewrite Hh in H. split; [exact Hs|]. split; [exact He|]. exact (H Hs).
Defined.

(** *** Emergency messages *)

Definition add_all (d : ecm_diag_t) (l : list (Z * ecm_emcy_t)) : ecm_diag_t :=
  foldl (fun d x => ecm_diag_add_emcy d x.1 x.2) d l.
(** What slave [k] sent, oldest first. *)
Definition sent_by (k : Z) (l : list (Z * ecm_emcy_t)) : list ecm_emcy_t := (filter (fun x => x.1 = k) l).*2.

Definition emcy_inv (m : list ecm_emcy_t) (sl : ecm_diag_slave_t) : Prop :=
  length (emcy sl) = 4%nat /\ emcy_count sl = Z.of_nat (length m) /\ emcy_next sl = Z.of_nat (length m) mod 4 /\
  forall i, 0 <= i < Z.of_nat (length m) -> Z.of_nat (length m) - 4 <= i ->
    emcy sl !! Z.to_nat (i mod 4) = m !! Z.to_nat i.

Lemma emcy_put_inv m sl e : emcy_inv m sl -> Z.of_nat (length m) < 18446744073709551615 ->
  emcy_inv (m ++ [e]) (sl <| emcy := <[Z.to_nat (emcy_next sl) := e]> (emcy sl) |>
    <| emcy_next := Z.rem (emcy_next sl + 1) ECM_DIAG_EMCY_KEEP |> <| emcy_count := u64 (emcy_count sl + 1) |>).
Proof.
  intros (L & C & N & I) Hl. unfold emcy_inv. cbn [emcy emcy_count emcy_next upd eta].
  rewrite length_insert, length_app, C, N. cbn [length].
  split_and!; [done|unfold u64; rewrite Z.mod_small; lia|unfold ECM_DIAG_EMCY_KEEP; Z.to_euclidean_division_equations; lia|].
  intros i Hi Hi4. destruct (decide (i = Z.of_nat (length m))) as [->|Hne].
  - rewrite list_lookup_insert_eq by (rewrite L; Z.to_euclidean_division_equations; lia).
    rewrite Nat2Z.id, lookup_app_r, Nat.sub_diag by lia. done.
  - rewrite list_lookup_insert_ne.
    + rewrite lookup_app_l by lia. apply I; lia.
    + intros E. assert (i mod 4 = Z.of_nat (length m) mod 4) by (Z.to_euclidean_division_equations; lia).
      apply Hne. apply (mod_near_inj i _ 4); lia.
Qed.

Lemma add_all_inv l d k : diag_wf d -> 1 <= k <= n d -> Z.of_nat (length l) < 18446744073709551616 ->
  (forall i, s d !! i = Some slave_zero \/ s d !! i = None) ->
  diag_wf (add_all d l) /\ n (add_all d l) = n d /\
  exists sl, s (add_all d l) !! Z.to_nat (k - 1) = Some sl /\ emcy_inv (sent_by k l) sl.
Proof.
  intros Hwf Hk Hl Hz. induction l as [|[j e] l IH] using rev_ind.
  - split_and!; [done..|]. destruct Hwf as [W W2].
    destruct (Hz (Z.to_nat (k - 1))) as [E|E]; [|apply lookup_ge_None_1 in E; lia].
    exists slave_zero. split; [done|]. split_and!; try done. cbn. lia.
  - rewrite length_app in Hl; cbn in Hl. destruct IH as ([W1 W2] & En & sl & E & I); [lia|].
    unfold add_all, sent_by in *. rewrite foldl_app, filter_app, fmap_app. cbn [foldl fst snd].
    set (d1 := foldl _ d l) in *. unfold ecm_diag_add_emcy.
    destruct ((j <? 1) || (n d1 <? j)) eqn:B.
    + assert (j <> k) by (apply orb_true_iff in B as [B|B]; bprop; lia).
      rewrite filter_cons, decide_False, filter_nil by done. cbn [fmap list_fmap]. rewrite app_nil_r.
      split; [by split|]. split; [done|]. by exists sl.
    + set (put := fun sl : ecm_diag_slave_t => sl <| emcy := _ |> <| emcy_next := _ |> <| emcy_count := _ |>). bprop.
      split_and!; [split; cbn; [by rewrite length_alter|done]|done|].
      cbn [s upd eta]. rewrite filter_cons, filter_nil. cbn [fst].
      destruct (decide (j = k)) as [->|Nj].
      * exists (put sl). split; [by rewrite list_lookup_alter_eq, E|]. cbn [fmap list_fmap snd].
        apply emcy_put_inv; [done|]. rewrite length_fmap. pose proof (length_filter (fun x => x.1 = k) l). lia.
      * exists sl. rewrite list_lookup_alter_ne by lia. rewrite app_nil_r. auto.
Qed.

(** The last emergency messages are kept.  After any sequence of messages
    from any slaves, [ecm_diag_emcy] returns the [k]-th newest message of a slave
    for [k < 4], and nothing for a message the slave has not sent. *)
Theorem emcy_newest_first nslaves expected slave k l :
  1 <= slave <= Z.min nslaves 64 -> 0 <= k < ECM_DIAG_EMCY_KEEP -> Z.of_nat (length l) < 18446744073709551616 ->
  ecm_diag_emcy (add_all (ecm_diag_init nslaves expected) l) slave k = reverse (sent_by slave l) !! Z.to_nat k.
Proof.
  intros Hs Hk Hl. set (d0 := ecm_diag_init nslaves expected).
  assert (En : n d0 = Z.min nslaves 64).
  { unfold d0, ecm_diag_init, ECM_DIAG_MAX_SLAVES; cbn [n]. destruct (Z.ltb_spec 64 nslaves); lia. }
  destruct (add_all_inv l d0 slave) as (_ & En' & sl & E & (L & C & N & I)); try (rewrite ?En; lia).
  { split; [done|lia]. }
  { intros i. destruct (decide (i < 64)%nat); [left|right]; [by apply lookup_replicate_2|].
    apply lookup_ge_None_2. change (length (s d0)) with 64%nat. lia. }
  set (m := sent_by slave l) in *. unfold ECM_DIAG_EMCY_KEEP in Hk.
  unfold ecm_diag_emcy, ECM_DIAG_EMCY_KEEP. rewrite En', En.
  rewrite (proj2 (Z.ltb_ge slave 1)), (proj2 (Z.ltb_ge _ slave)), (proj2 (Z.ltb_ge k 0)), (proj2 (Z.leb_gt 4 k)) by lia.
  cbn [orb]. rewrite (list_lookup_total_correct _ _ _ E), C.
  assert (Eu : u64 k = k) by (unfold u64; apply Z.mod_small; lia). rewrite Eu.
  destruct (Z.leb_spec (Z.of_nat (length m)) k) as [G|G].
  - symmetry. apply lookup_ge_None_2. rewrite length_reverse. lia.
  - rewrite reverse_lookup by lia.
    replace (Z.rem (emcy_next sl - 1 - k + 2 * 4) 4) with ((Z.of_nat (length m) - 1 - k) mod 4)
      by (rewrite N; Z.to_euclidean_division_equations; lia).
    replace (length m - S (Z.to_nat k))%nat with (Z.to_nat (Z.of_nat (length m) - 1 - k)) by lia.
    rewrite <- I by lia. rewrite list_lookup_total_alt.
    destruct (emcy sl !! _) eqn:E2; [done|]. apply lookup_ge_None_1 in E2. Z.to_euclidean_division_equations; lia.
Qed.

Lemma emcy_newest_first_witness :
  let e c := mkemcy 0 0 c 0 [0; 0; 0; 0; 0] in
  let l := [(1, e 1); (2, e 2); (1, e 3); (1, e 4); (1, e 5); (1, e 6)] in
  ecm_diag_emcy (add_all (ecm_diag_init 3 8) l) 1 0 = Some (e 6) /\
  ecm_diag_emcy (add_all (ecm_diag_init 3 8) l) 1 3 = Some (e 3).
Proof.
  intros e l. split.
  - exact (emcy_newest_first 3 8 1 0 l ltac:(lia) ltac:(unfold ECM_DIAG_EMCY_KEEP; lia) ltac:(cbn; lia)).
  - exact (emcy_newest_first 3 8 1 3 l ltac:(lia) ltac:(unfold ECM_DIAG_EMCY_KEEP; lia) ltac:(cbn; lia)).
Defined.
End Model.

(** ** The analysis *)
Module Analyze.
Import Model.

Inductive ecm_find_type_t :=
| ECM_FIND_CHAIN_BROKEN | ECM_FIND_MISSING_LINK_UP | ECM_FIND_NO_ADDRESS | ECM_FIND_CABLE_FWD | ECM_FIND_CABLE_RET
| ECM_FIND_FWD_NO_ORIGIN | ECM_FIND_PU_ONLY | ECM_FIND_PDI | ECM_FIND_LOST_LINK | ECM_FIND_STATE
| ECM_FIND_SATURATED | ECM_FIND_DIAG_LOST | ECM_FIND_EMCY | ECM_FIND_EMCY_LOST.
Inductive ecm_sev_t := ECM_SEV_INFO | ECM_SEV_WARN | ECM_SEV_ERROR.
#[export] Instance ecm_sev_eq_dec : EqDecision ecm_sev_t.
Proof. solve_decision. Defined.
Definition sev_num (v : ecm_sev_t) : Z := match v with ECM_SEV_INFO => 0 | ECM_SEV_WARN => 1 | ECM_SEV_ERROR => 2 end.

Record ecm_diag_finding_t := mkfind {
  f_type : ecm_find_type_t; f_sev : ecm_sev_t; f_a : Z; f_b : Z; f_c : Z; f_count : Z; f_active : bool
}.

Definition push (max : Z) (out : list ecm_diag_finding_t) (f : ecm_diag_finding_t) : list ecm_diag_finding_t :=
  if max <=? Z.of_nat (length out) then out else out ++ [f].

Definition slave_at (d : ecm_diag_t) (i : Z) : ecm_diag_slave_t := s d !!! Z.to_nat i.
Definition slaves (d : ecm_diag_t) : list Z := seqZ 0 (n d).
Definition when (b : bool) (f : ecm_diag_finding_t) : list ecm_diag_finding_t := if b then [f] else [].
Definition nz (x : Z) : bool := negb (x =? 0).

(** 1. how far the frame gets *)
Definition topology (d : ecm_diag_t) : list ecm_diag_finding_t :=
  if (0 <=? brd_count d) && (brd_count d <? n d) then
    let m := brd_count d in
    if m =? 0 then [mkfind ECM_FIND_CHAIN_BROKEN ECM_SEV_ERROR 0 (n d) 0 0 true]
    else
      let sl := slave_at d (m - 1) in
      let known := answered sl && (seen_read sl =? reads d) in
      if known && nz (Z.land (dl_status sl) (DL_LINK_PORT 1))
      then [mkfind ECM_FIND_MISSING_LINK_UP ECM_SEV_ERROR m (n d) 0 0 true]
      else [mkfind ECM_FIND_CHAIN_BROKEN ECM_SEV_ERROR m (n d) 0 0 true]
  else [].

(** 2. on the bus but not answering its address *)
Definition on_bus (d : ecm_diag_t) : Z :=
  if brd_count d <? 0 then n d else if brd_count d <? n d then brd_count d else n d.
Definition no_address (d : ecm_diag_t) : list ecm_diag_finding_t :=
  flat_map (fun i => let sl := slave_at d i in
    when ((seen_read sl =? reads d) && negb (answered sl))
      (mkfind ECM_FIND_NO_ADDRESS ECM_SEV_ERROR (i + 1) 0 (station_addr sl) (no_answer sl) true)) (seqZ 0 (on_bus d)).

(** 3. frame errors: the port that saw them first *)
Definition worst (c : ecm_diag_counts_t) (p : Z) : Z :=
  if rx c !!! Z.to_nat p <? inv c !!! Z.to_nat p then inv c !!! Z.to_nat p else rx c !!! Z.to_nat p.
Definition now_active (c : ecm_diag_counts_t) (p : Z) : bool := 0 <? u64 (inv c !!! Z.to_nat p + rx c !!! Z.to_nat p).
Definition act_sev (b : bool) : ecm_sev_t := if b then ECM_SEV_ERROR else ECM_SEV_WARN.
Definition origin_fwd (i : Z) (sl : ecm_diag_slave_t) : list ecm_diag_finding_t :=
  let act := now_active (last sl) 0 in
  when (nz (worst (tot sl) 0)) (mkfind ECM_FIND_CABLE_FWD (act_sev act) (i + 1) 0 0 (worst (tot sl) 0) act).
Definition origin_ret (i : Z) (sl : ecm_diag_slave_t) (p : Z) : list ecm_diag_finding_t :=
  let act := now_active (last sl) p in
  when (nz (worst (tot sl) p)) (mkfind ECM_FIND_CABLE_RET (act_sev act) (i + 1) p 0 (worst (tot sl) p) act).
Definition origins (d : ecm_diag_t) : list ecm_diag_finding_t :=
  flat_map (fun i => let sl := slave_at d i in origin_fwd i sl ++ flat_map (origin_ret i sl) [1; 2; 3]) (slaves d).
Definition any_origin (d : ecm_diag_t) : bool := match origins d with [] => false | _ => true end.

(** forwarded errors without an origin: [fwd_first], [fwd_sum] *)
Definition fwd_total (sl : ecm_diag_slave_t) : Z := foldl (fun a p => u64 (a + fwd (tot sl) !!! Z.to_nat p)) 0 (seqZ 0 4).
Fixpoint fwd_loop (d : ecm_diag_t) (ks : list Z) (any so_far : bool) (fwd_first fwd_sum : Z) : Z * Z :=
  match ks with
  | [] => (fwd_first, fwd_sum)
  | i :: ks =>
      let sl := slave_at d i in
      let so_far := so_far || nz (inv (tot sl) !!! 0%nat) || nz (rx (tot sl) !!! 0%nat) in
      let fw := fwd_total sl in
      let unexplained := (nz (fwd (tot sl) !!! 0%nat) && negb so_far) || (nz fw && negb any) in
      if unexplained then fwd_loop d ks any so_far (if fwd_first =? 0 then i + 1 else fwd_first) (u64 (fwd_sum + fw))
      else fwd_loop d ks any so_far fwd_first fwd_sum
  end.
Definition fwd_no_origin (d : ecm_diag_t) : list ecm_diag_finding_t :=
  let '(fwd_first, fwd_sum) := fwd_loop d (slaves d) (any_origin d) false 0 0 in
  when (nz fwd_first) (mkfind ECM_FIND_FWD_NO_ORIGIN ECM_SEV_WARN fwd_first 0 0 fwd_sum false).

Definition port_err (sl : ecm_diag_slave_t) : bool :=
  existsb (fun p => nz (inv (tot sl) !!! Z.to_nat p) || nz (rx (tot sl) !!! Z.to_nat p) || nz (fwd (tot sl) !!! Z.to_nat p)) (seqZ 0 4).
Definition slave_counters (d : ecm_diag_t) : list ecm_diag_finding_t :=
  flat_map (fun i => let sl := slave_at d i in
    when (nz (pu (tot sl)) && negb (port_err sl))
      (mkfind ECM_FIND_PU_ONLY ECM_SEV_WARN (i + 1) 0 0 (pu (tot sl)) (0 <? pu (last sl))) ++
    when (nz (pdi (tot sl)))
      (mkfind ECM_FIND_PDI (act_sev (nz (pdi (last sl)))) (i + 1) 0 0 (pdi (tot sl)) (0 <? pdi (last sl))) ++
    flat_map (fun p => when (nz (lost (tot sl) !!! Z.to_nat p))
      (mkfind ECM_FIND_LOST_LINK ECM_SEV_WARN (i + 1) p 0 (lost (tot sl) !!! Z.to_nat p) (0 <? lost (last sl) !!! Z.to_nat p))) (seqZ 0 4) ++
    when (nz (saturated sl)) (mkfind ECM_FIND_SATURATED ECM_SEV_WARN (i + 1) 0 0 (saturated sl) false)) (slaves d).

(** 4. AL state of every slave that answered this time *)
Definition bad_state (d : ecm_diag_t) (sl : ecm_diag_slave_t) : bool :=
  nz (Z.land (al_status sl) AL_ERR) || (nz (expected_state d) && negb (Z.land (al_status sl) 15 =? expected_state d)).
Definition al_states (d : ecm_diag_t) : list ecm_diag_finding_t :=
  flat_map (fun i => let sl := slave_at d i in
    when (answered sl && (seen_read sl =? reads d) && bad_state d sl)
      (mkfind ECM_FIND_STATE ECM_SEV_ERROR (i + 1) (al_status sl) (al_code sl) 0 true)) (slaves d).

(** 5. emergency messages *)
Definition emcys (d : ecm_diag_t) : list ecm_diag_finding_t :=
  flat_map (fun i => let sl := slave_at d i in
    let e := default inhabitant (ecm_diag_emcy d (i + 1) 0) in
    when (nz (emcy_count sl))
      (mkfind ECM_FIND_EMCY (if nz (em_code e) then ECM_SEV_WARN else ECM_SEV_INFO) (i + 1) (em_reg e) (em_code e)
         (emcy_count sl) (nz (em_code e)))) (slaves d).

(** Everything pushed, in the order of the pushes. *)
Definition findings (d : ecm_diag_t) : list ecm_diag_finding_t :=
  topology d ++ no_address d ++ origins d ++ fwd_no_origin d ++ slave_counters d ++ al_states d ++
  when (nz (frames_lost d)) (mkfind ECM_FIND_DIAG_LOST ECM_SEV_INFO 0 0 0 (frames_lost d) false) ++
  emcys d ++
  when (nz (emcy_lost d)) (mkfind ECM_FIND_EMCY_LOST ECM_SEV_WARN 0 0 0 (emcy_lost d) false).

(** The inner loop of the sort: [x] moves left past the less severe ones;
    [l] is the sorted part, last element first. *)
Fixpoint sift (x : ecm_diag_finding_t) (l : list ecm_diag_finding_t) : list ecm_diag_finding_t :=
  match l with
  | [] => [x]
  | y :: l' => if sev_num (f_sev y) <? sev_num (f_sev x) then y :: sift x l' else x :: l
  end.
Definition sort_sev (l : list ecm_diag_finding_t) : list ecm_diag_finding_t :=
  reverse (foldl (fun acc x => sift x acc) [] l).

Definition ecm_diag_analyze (d : ecm_diag_t) (max : Z) : list ecm_diag_finding_t :=
  sort_sev (foldl (push max) [] (findings d)).

(** *** Order of the findings *)

Lemma push_take max l : foldl (push max) [] l = take (Z.to_nat max) l.
Proof.
  assert (H : forall out, (length out <= Z.to_nat max)%nat -> foldl (push max) out l = out ++ take (Z.to_nat max - length out) l).
  { induction l as [|f l IH]; intros out Ho; cbn; [by rewrite take_nil, app_nil_r|]. unfold push at 2.
    destruct (Z.leb_spec max (Z.of_nat (length out))) as [F|F].
    - rewrite IH by done. replace (Z.to_nat max - length out)%nat with 0%nat by lia. done.
    - rewrite IH by (rewrite length_app; cbn; lia). rewrite length_app; cbn. rewrite <- app_assoc. cbn.
      replace (Z.to_nat max - length out)%nat with (S (Z.to_nat max - (length out + 1)))%nat by lia. done. }
  rewrite H by (cbn; lia). cbn. by rewrite Nat.sub_0_r.
Qed.

Definition less_severe (f g : ecm_diag_finding_t) : Prop := sev_num (f_sev f) <= sev_num (f_sev g).

Lemma sift_sorted x l : StronglySorted less_severe l -> StronglySorted less_severe (sift x l).
Proof.
  assert (HF : forall y l, less_severe y x -> Forall (less_severe y) l -> Forall (less_severe y) (sift x l)).
  { intros y l'. induction l' as [|z l' IH]; intros Hx Hl; cbn; [by constructor|]. apply Forall_cons_1 in Hl as [Hz Hl].
    case_if; repeat constructor; auto. }
  induction 1 as [|y l Hs IH Hy]; cbn; [repeat constructor|].
  destruct (Z.ltb_spec (sev_num (f_sev y)) (sev_num (f_sev x))) as [C|C].
  - constructor; [done|]. apply HF; [unfold less_severe; lia|done].
  - constructor; [by constructor|]. constructor; [done|]. eapply Forall_impl; [exact Hy|]. unfold less_severe. lia.
Qed.
Lemma sift_filter v x l : filter (fun f => f_sev f = v) (sift x l) =
  filter (fun f => f_sev f = v) [x] ++ filter (fun f => f_sev f = v) l.
Proof.
  induction l as [|y l IH]; cbn [sift]; [by rewrite app_nil_r|].
  destruct (Z.ltb_spec (sev_num (f_sev y)) (sev_num (f_sev x))) as [C|C]; [|by rewrite filter_cons, (filter_cons _ x []); case_decide].
  rewrite filter_cons, IH, (filter_cons _ y l), (filter_cons _ x []), filter_nil.
  destruct (decide (f_sev y = v)) as [Ey|]; [|done]. rewrite decide_False; [done|]. intros Ex. rewrite Ex, Ey in C. lia.
Qed.
Lemma sort_spec l acc : StronglySorted less_severe acc ->
  StronglySorted less_severe (foldl (fun acc x => sift x acc) acc l) /\
  forall v, filter (fun f => f_sev f = v) (foldl (fun acc x => sift x acc) acc l) =
    reverse (filter (fun f => f_sev f = v) l) ++ filter (fun f => f_sev f = v) acc.
Proof.
  revert acc. induction l as [|x l IH]; intros acc Ha; cbn [foldl]; [done|].
  destruct (IH _ (sift_sorted x acc Ha)) as [I1 I2]. split; [done|]. intros v. rewrite I2, sift_filter.
  rewrite (filter_cons _ x l), (filter_cons _ x []), filter_nil. case_decide; [|done].
  by rewrite reverse_cons, <- app_assoc.
Qed.

Lemma StronglySorted_reverse {A} (R : A -> A -> Prop) l : StronglySorted R l -> StronglySorted (flip R) (reverse l).
Proof.
  assert (Hsnoc : forall (Q : A -> A -> Prop) m x, StronglySorted Q m -> Forall (fun y => Q y x) m -> StronglySorted Q (m ++ [x])).
  { intros Q m x. induction 1 as [|y m Hm IH Hy]; intros HF; cbn; [repeat constructor|].
    apply Forall_cons_1 in HF as [H1 H2]. constructor; [by apply IH|]. apply Forall_app. split; [done|]. by constructor. }
  induction 1 as [|x l Hs IH Hx]; [constructor|]. rewrite reverse_cons. apply Hsnoc; [done|]. by apply Forall_reverse.
Qed.

(** The findings come out most severe first, in the order they were found
    within a severity, and none is invented or lost: for every severity the
    output lists exactly the findings of that severity among the first [max]
    found. *)
Theorem diag_findings_sorted d max :
  let out := ecm_diag_analyze d max in
  StronglySorted (fun f g => sev_num (f_sev g) <= sev_num (f_sev f)) out /\
  (forall v, filter (fun f => f_sev f = v) out = filter (fun f => f_sev f = v) (take (Z.to_nat max) (findings d))).
Proof.
  cbv zeta. unfold ecm_diag_analyze, sort_sev. rewrite push_take.
  destruct (sort_spec (take (Z.to_nat max) (findings d)) []) as [H1 H2]; [constructor|].
  split; [exact (StronglySorted_reverse _ _ H1)|]. intros v.
  rewrite filter_reverse, H2, filter_nil, app_nil_r. apply reverse_involutive.
Qed.

(** *** No finding exactly on a clean bus *)

Record clean_slave (d : ecm_diag_t) (sl : ecm_diag_slave_t) : Prop := {
  cs_answers : seen_read sl = reads d -> answered sl = true;
  cs_counts : forall j, 0 <= j < 20 -> is_counter j = true -> count_of (tot sl) j = 0;
  cs_sat : saturated sl = 0;
  cs_state : seen_read sl = reads d -> answered sl = true ->
    Z.land (al_status sl) AL_ERR = 0 /\ (expected_state d = 0 \/ Z.land (al_status sl) 15 = expected_state d);
  cs_emcy : emcy_count sl = 0
}.
Definition clean (d : ecm_diag_t) : Prop :=
  (brd_count d < 0 \/ n d <= brd_count d) /\ frames_lost d = 0 /\ emcy_lost d = 0 /\
  forall i, 0 <= i < n d -> clean_slave d (slave_at d i).

Lemma flat_map_nil {A B} (f : A -> list B) l : flat_map f l = [] <-> forall x, x ∈ l -> f x = [].
Proof.
  induction l as [|x l IH]; cbn; [split; [set_solver|done]|]. split.
  - intros [H1 H2]%app_eq_nil y [->|Hy]%elem_of_cons; [done|]. by apply IH.
  - intros H. rewrite (H x) by set_solver. apply IH. set_solver.
Qed.
Lemma when_nil b f : when b f = [] <-> b = false.
Proof. by destruct b. Qed.
Lemma nz_false x : nz x = false <-> x = 0.
Proof. unfold nz. destruct (Z.eqb_spec x 0); cbn; split; try done. Qed.
Lemma slaves_elem d i : i ∈ slaves d <-> 0 <= i < n d.
Proof. unfold slaves. rewrite elem_of_seqZ. lia. Qed.

(** Counters that are counts: not negative and far from the end of their range. *)
Definition counts_small (c : ecm_diag_counts_t) : Prop := forall j, 0 <= j < 20 -> 0 <= count_of c j < 2 ^ 60.

Lemma port_values c p : 0 <= p < 4 ->
  inv c !!! Z.to_nat p = count_of c (2 * p) /\ rx c !!! Z.to_nat p = count_of c (2 * p + 1) /\
  fwd c !!! Z.to_nat p = count_of c (8 + p) /\ lost c !!! Z.to_nat p = count_of c (16 + p).
Proof. intros Hp. assert (p = 0 \/ p = 1 \/ p = 2 \/ p = 3) as [->|[->|[->| ->]]] by lia; done. Qed.

Lemma worst_nil c p : 0 <= p < 4 -> counts_small c ->
  nz (worst c p) = false <-> count_of c (2 * p) = 0 /\ count_of c (2 * p + 1) = 0.
Proof.
  intros Hp Hs. destruct (port_values c p Hp) as (E1 & E2 & _). rewrite nz_false. unfold worst. rewrite E1, E2.
  pose proof (Hs (2 * p) ltac:(lia)). pose proof (Hs (2 * p + 1) ltac:(lia)).
  destruct (Z.ltb_spec (count_of c (2 * p + 1)) (count_of c (2 * p))); lia.
Qed.

(** A slave has no origin: no invalid frame and no RX error on any port. *)
Definition no_port_origin (sl : ecm_diag_slave_t) : Prop :=
  forall p, 0 <= p < 4 -> count_of (tot sl) (2 * p) = 0 /\ count_of (tot sl) (2 * p + 1) = 0.

Lemma origins_nil d : (forall i, 0 <= i < n d -> counts_small (tot (slave_at d i))) ->
  origins d = [] <-> forall i, 0 <= i < n d -> no_port_origin (slave_at d i).
Proof.
  intros Hs. unfold origins. rewrite flat_map_nil. split.
  - intros H i Hi p Hp. specialize (H i (proj2 (slaves_elem d i) Hi)). cbv zeta in H. apply app_nil in H as [H1 H2].
    apply worst_nil; auto. destruct (decide (p = 0)) as [->|Hp0].
    + unfold origin_fwd in H1. by apply when_nil in H1.
    + rewrite flat_map_nil in H2. specialize (H2 p ltac:(apply list_elem_of_In; cbn; lia)).
      unfold origin_ret in H2. by apply when_nil in H2.
  - intros H i Hi. apply slaves_elem in Hi. specialize (H i Hi). specialize (Hs i Hi). cbv zeta. apply app_nil. split.
    + unfold origin_fwd. apply when_nil, worst_nil; auto; try lia. apply H. lia.
    + apply flat_map_nil. intros p Hp. apply list_elem_of_In in Hp. cbn in Hp.
      unfold origin_ret. apply when_nil, worst_nil; auto; try lia. apply H. lia.
Qed.

Lemma fwd_total_sum sl : counts_small (tot sl) ->
  fwd_total sl = count_of (tot sl) 8 + count_of (tot sl) 9 + count_of (tot sl) 10 + count_of (tot sl) 11.
Proof.
  intros Hs. change (fwd_total sl) with (u64 (u64 (u64 (u64 (0 + count_of (tot sl) 8) + count_of (tot sl) 9) + count_of (tot sl) 10) + count_of (tot sl) 11)).
  pose proof (Hs 8 ltac:(lia)). pose proof (Hs 9 ltac:(lia)). pose proof (Hs 10 ltac:(lia)). pose proof (Hs 11 ltac:(lia)).
  unfold u64. rewrite (Z.mod_small (0 + _)) by lia. rewrite (Z.mod_small (0 + _ + _)) by lia.
  rewrite (Z.mod_small (0 + _ + _ + _)) by lia. rewrite Z.mod_small by lia. lia.
Qed.

(** Without any origin a forwarded error is always unexplained. *)
Lemma fwd_loop_nil d ks f0 sm : Forall (fun i => 0 <= i < n d) ks -> 0 <= f0 ->
  (forall i, 0 <= i < n d -> counts_small (tot (slave_at d i)) /\ no_port_origin (slave_at d i)) ->
  (fwd_loop d ks false false f0 sm).1 = 0 <->
  f0 = 0 /\ Forall (fun i => forall j, 8 <= j < 12 -> count_of (tot (slave_at d i)) j = 0) ks.
Proof.
  intros Hk Hf Hs. revert f0 sm Hf. induction Hk as [|i ks Hi Hk IH]; intros f0 sm Hf; cbn [fwd_loop].
  { cbn [fst]. split; [intros ->; split; [done|constructor]|by intros [-> _]]. }
  destruct (Hs i Hi) as [Hc Ho].
  change (inv (tot (slave_at d i)) !!! 0%nat) with (count_of (tot (slave_at d i)) 0).
  change (rx (tot (slave_at d i)) !!! 0%nat) with (count_of (tot (slave_at d i)) 1).
  change (fwd (tot (slave_at d i)) !!! 0%nat) with (count_of (tot (slave_at d i)) 8).
  destruct (Ho 0 ltac:(lia)) as [O1 O2]. change (2 * 0) with 0 in O1. change (2 * 0 + 1) with 1 in O2. rewrite O1, O2.
  change (nz 0) with false. cbn [orb negb andb]. rewrite !andb_true_r, fwd_total_sum by done.
  pose proof (Hc 8 ltac:(lia)). pose proof (Hc 9 ltac:(lia)). pose proof (Hc 10 ltac:(lia)). pose proof (Hc 11 ltac:(lia)).
  assert (Hall : (forall j, 8 <= j < 12 -> count_of (tot (slave_at d i)) j = 0) <->
    count_of (tot (slave_at d i)) 8 = 0 /\ count_of (tot (slave_at d i)) 9 = 0 /\
    count_of (tot (slave_at d i)) 10 = 0 /\ count_of (tot (slave_at d i)) 11 = 0).
  { split; [intros H'; split_and!; apply H'; lia|]. intros (A & B & C & D) j Hj.
    assert (j = 8 \/ j = 9 \/ j = 10 \/ j = 11) as [->|[->|[->| ->]]] by lia; done. }
  destruct (nz (count_of (tot (slave_at d i)) 8) || nz (_ + _ + _ + _)) eqn:U.
  - rewrite IH by (destruct (f0 =? 0); lia). rewrite Forall_cons, Hall.
    apply orb_true_iff in U. unfold nz in U. rewrite !negb_true_iff, !Z.eqb_neq in U.
    destruct (Z.eqb_spec f0 0); split; intros [A B]; lia.
  - rewrite IH by done. rewrite Forall_cons, Hall. apply orb_false_iff in U as [U1 U2]. rewrite nz_false in U1, U2.
    split; intros [A B]; split; auto; [split; [lia|done]|tauto].
Qed.

Lemma fwd_no_origin_nil d : (forall i, 0 <= i < n d -> counts_small (tot (slave_at d i))) -> origins d = [] ->
  fwd_no_origin d = [] <-> forall i, 0 <= i < n d -> forall j, 8 <= j < 12 -> count_of (tot (slave_at d i)) j = 0.
Proof.
  intros Hs Ho. unfold fwd_no_origin, any_origin. rewrite Ho.
  pose proof (proj1 (origins_nil d Hs) Ho) as Hp.
  assert (Hk : Forall (fun i => 0 <= i < n d) (slaves d)) by (apply Forall_forall; intros i; apply slaves_elem).
  pose proof (fwd_loop_nil d (slaves d) 0 0 Hk ltac:(lia) (fun i Hi => conj (Hs i Hi) (Hp i Hi))) as HF.
  destruct (fwd_loop _ _ _ _ _ _) as [f sm]. cbn [fst] in HF. rewrite when_nil, nz_false, HF.
  rewrite Forall_forall. setoid_rewrite slaves_elem. intuition.
Qed.

Lemma forall_slaves (d : ecm_diag_t) (P Q : Z -> Prop) : (forall i, 0 <= i < n d -> P i <-> Q i) ->
  (forall i, 0 <= i < n d -> P i) <-> (forall i, 0 <= i < n d -> Q i).
Proof. firstorder. Qed.

Lemma slave_counters_nil d : (forall i, 0 <= i < n d -> no_port_origin (slave_at d i)) ->
  (forall i, 0 <= i < n d -> forall j, 8 <= j < 12 -> count_of (tot (slave_at d i)) j = 0) ->
  slave_counters d = [] <-> forall i, 0 <= i < n d ->
    (forall j, 12 <= j < 20 -> is_counter j = true -> count_of (tot (slave_at d i)) j = 0) /\ saturated (slave_at d i) = 0.
Proof.
  intros Ho Hf. unfold slave_counters. rewrite flat_map_nil. setoid_rewrite slaves_elem.
  apply forall_slaves. intros i Hi. cbv zeta.
  set (sl := slave_at d i).
  assert (Hp : port_err sl = false).
  { apply not_true_iff_false. intros H. apply existsb_exists in H as (p & Hp & H). apply list_elem_of_In, elem_of_seqZ in Hp.
    destruct (port_values (tot sl) p ltac:(lia)) as (E1 & E2 & E3 & _). rewrite E1, E2, E3 in H.
    destruct (Ho i Hi p ltac:(lia)) as [A B]. pose proof (Hf i Hi (8 + p) ltac:(lia)) as C. fold sl in A, B, C.
    rewrite A, B, C in H. done. }
  rewrite Hp. cbn [negb]. rewrite andb_true_r, !app_nil, flat_map_nil, !when_nil, !nz_false. split.
  - intros (A & B & C & D). split; [|done]. intros j Hj Hc. unfold is_counter in Hc. bprop.
    assert (j = 12 \/ j = 13 \/ 16 <= j) as [->|[->|Hj']] by lia; [done..|].
    destruct (port_values (tot sl) (j - 16) ltac:(lia)) as (_ & _ & _ & E). replace (16 + (j - 16)) with j in E by lia.
    rewrite <- E. apply nz_false. apply (when_nil _ (mkfind ECM_FIND_LOST_LINK ECM_SEV_WARN (i + 1) (j - 16) 0
      (lost (tot sl) !!! Z.to_nat (j - 16)) (0 <? lost (last sl) !!! Z.to_nat (j - 16)))).
    apply (C (j - 16)). apply elem_of_seqZ. lia.
  - intros [A B]. split_and!; [by apply (A 12)|by apply (A 13)| |done].
    intros p Hpp. apply elem_of_seqZ in Hpp. apply when_nil, nz_false.
    destruct (port_values (tot sl) p ltac:(lia)) as (_ & _ & _ & ->). apply A; [lia|]. unfold is_counter.
    destruct (Z.eqb_spec (16 + p) 14), (Z.eqb_spec (16 + p) 15); done || lia.
Qed.

Lemma findings_nil d : (forall i, 0 <= i < n d -> counts_small (tot (slave_at d i))) -> findings d = [] <-> clean d.
Proof.
  intros Hs. unfold findings. rewrite !app_nil, !when_nil, !nz_false.
  assert (Ht : topology d = [] <-> brd_count d < 0 \/ n d <= brd_count d).
  { unfold topology. destruct (Z.leb_spec 0 (brd_count d)), (Z.ltb_spec (brd_count d) (n d)); cbn [andb];
      [|split; [lia|done]..]. split; [|lia]. by repeat case_if. }
  assert (Ha : (brd_count d < 0 \/ n d <= brd_count d) -> no_address d = [] <->
    forall i, 0 <= i < n d -> seen_read (slave_at d i) = reads d -> answered (slave_at d i) = true).
  { intros Hb. unfold no_address, on_bus. replace (if brd_count d <? 0 then n d else _) with (n d)
      by (destruct (Z.ltb_spec (brd_count d) 0), (Z.ltb_spec (brd_count d) (n d)); lia).
    rewrite flat_map_nil. setoid_rewrite (slaves_elem d). apply forall_slaves. intros i Hi. cbv zeta. rewrite when_nil.
    destruct (Z.eqb_spec (seen_read (slave_at d i)) (reads d)), (answered (slave_at d i)); cbn; split; intros H; try done; try (intros; congruence).
    by specialize (H ltac:(done)). }
  assert (Hl : al_states d = [] <-> forall i, 0 <= i < n d -> seen_read (slave_at d i) = reads d -> answered (slave_at d i) = true ->
    Z.land (al_status (slave_at d i)) AL_ERR = 0 /\ (expected_state d = 0 \/ Z.land (al_status (slave_at d i)) 15 = expected_state d)).
  { unfold al_states. rewrite flat_map_nil. setoid_rewrite slaves_elem. apply forall_slaves. intros i Hi. cbv zeta. rewrite when_nil.
    unfold bad_state, nz.
    destruct (answered (slave_at d i)), (Z.eqb_spec (seen_read (slave_at d i)) (reads d)),
      (Z.eqb_spec (Z.land (al_status (slave_at d i)) AL_ERR) 0), (Z.eqb_spec (expected_state d) 0),
      (Z.eqb_spec (Z.land (al_status (slave_at d i)) 15) (expected_state d)); cbn; split; intros H; try done; try (intros; split; auto; congruence);
      exfalso; destruct H as [? [?|?]]; done. }
  assert (He : emcys d = [] <-> forall i, 0 <= i < n d -> emcy_count (slave_at d i) = 0).
  { unfold emcys. rewrite flat_map_nil. setoid_rewrite slaves_elem. apply forall_slaves. intros i Hi. cbv zeta.
    by rewrite when_nil, nz_false. }
  assert (Hcnt : forall i j, 0 <= i < n d -> no_port_origin (slave_at d i) -> 0 <= j < 8 -> count_of (tot (slave_at d i)) j = 0).
  { intros i j Hi Hp Hj. destruct (Hp (j / 2)) as [A B]; [Z.to_euclidean_division_equations; lia|].
    destruct (Z.even j) eqn:Ev.
    - replace (2 * (j / 2)) with j in A; [done|]. apply Z.even_spec in Ev as [k ->]. rewrite Z.mul_comm, Z.div_mul; lia.
    - replace (2 * (j / 2) + 1) with j in B; [done|]. rewrite <- Z.negb_odd in Ev. apply negb_false_iff, Z.odd_spec in Ev as [k ->].
      Z.to_euclidean_division_equations; lia. }
  split.
  - intros (T & A & O & F & C & L & FL & E & EL). apply Ht in T. rewrite (Ha T) in A.
    pose proof (proj1 (origins_nil d Hs) O) as P. pose proof (proj1 (fwd_no_origin_nil d Hs O) F) as F'.
    pose proof (proj1 (slave_counters_nil d P F') C) as C'. rewrite Hl in L. rewrite He in E.
    split_and!; auto. intros i Hi. destruct (C' i Hi) as [C1 C2].
    split; auto. intros j Hj Hc. assert (j < 8 \/ 8 <= j < 12 \/ 12 <= j) as [?|[?|?]] by lia;
      [apply Hcnt; auto; lia|apply F'; auto; lia|apply C1; auto; lia].
  - intros (T & FL & EL & HC). pose proof (proj2 Ht T) as T'.
    assert (P : forall i, 0 <= i < n d -> no_port_origin (slave_at d i)).
    { intros i Hi p Hp. destruct (HC i Hi) as [_ Hc _ _ _]. split; apply Hc; try lia; unfold is_counter;
        destruct (Z.eqb_spec (2 * p) 14), (Z.eqb_spec (2 * p) 15), (Z.eqb_spec (2 * p + 1) 14), (Z.eqb_spec (2 * p + 1) 15); done || lia. }
    assert (F : forall i, 0 <= i < n d -> forall j, 8 <= j < 12 -> count_of (tot (slave_at d i)) j = 0).
    { intros i Hi j Hj. destruct (HC i Hi) as [_ Hc _ _ _]. apply Hc; [lia|]. unfold is_counter.
      destruct (Z.eqb_spec j 14), (Z.eqb_spec j 15); done || lia. }
    pose proof (proj2 (origins_nil d Hs) P) as O. split_and!; auto.
    + apply (Ha T). intros i Hi. by destruct (HC i Hi).
    + by apply (fwd_no_origin_nil d Hs O).
    + apply (slave_counters_nil d P F). intros i Hi. destruct (HC i Hi) as [_ Hc Hsat _ _]. split; [|done].
      intros j Hj. apply Hc. lia.
    + apply Hl. intros i Hi. by destruct (HC i Hi).
    + apply He. intros i Hi. by destruct (HC i Hi).
Qed.

(** The diagnosis is complete and raises no false alarm: with room for at
    least one finding, the analysis reports none exactly when the frame reaches
    every slave, every slave read this time answers in the expected state
    without an error, no error counter ever counted or saturated, no diagnostic
    frame was lost and no emergency message was received or lost. *)
Theorem diag_no_finding_iff_clean d max : 0 < max -> (forall i, 0 <= i < n d -> counts_small (tot (slave_at d i))) ->
  ecm_diag_analyze d max = [] <-> clean d.
Proof.
  intros Hm Hs. rewrite <- (findings_nil d Hs). unfold ecm_diag_analyze, sort_sev. rewrite push_take. split; [|by intros ->; rewrite take_nil].
  destruct (findings d) as [|f l]; [done|]. intros H. exfalso.
  destruct (sort_spec (take (Z.to_nat max) (f :: l)) []) as [_ H2]; [constructor|].
  apply (f_equal reverse) in H. rewrite reverse_involutive in H. specialize (H2 (f_sev f)). rewrite H in H2.
  destruct (Z.to_nat max) as [|m] eqn:Em; [lia|]. cbn [take] in H2. rewrite filter_cons, decide_True in H2 by done.
  rewrite reverse_cons in H2. apply (f_equal length) in H2. rewrite !length_app in H2. cbn in H2. lia.
Qed.

Lemma diag_no_finding_iff_clean_witness :
  let d := ecm_diag_ingest (ecm_diag_init 2 8)
    (mkraw 1 0 true true 2 0 2 2 8 0 0 1 [Wkc.wkc_zero; Wkc.wkc_zero]
       [mkraws 0x1001 3 1 1 (replicate 20 0) 0x30 8 0; mkraws 0x1002 3 1 1 (replicate 20 0) 0x10 8 0]) in
  ecm_diag_analyze d 128 = [] /\ clean d.
Proof.
  intros d.
  assert (E : ecm_diag_analyze d 128 = []) by (vm_compute; reflexivity).
  assert (Hs : forall i, 0 <= i < n d -> counts_small (tot (slave_at d i))).
  { intros i Hi. change (n d) with 2 in Hi. assert (i = 0 \/ i = 1) as [-> | ->] by lia;
      intros j Hj; assert (H : forallb (fun j => (0 <=? count_of counts_zero j) && (count_of counts_zero j <? 2 ^ 60)) (seqZ 0 20) = true)
        by (vm_compute; reflexivity);
      rewrite forallb_forall in H; specialize (H j ltac:(apply list_elem_of_In, elem_of_seqZ; lia));
      apply andb_true_iff in H as [H1 H2]; apply Z.leb_le in H1; apply Z.ltb_lt in H2; split; assumption. }
  split; [exact E|]. apply (diag_no_finding_iff_clean d 128 ltac:(lia) Hs). exact E.
Defined.

(** The room is used in the order of the pushes, not by severity: with room
    for one finding a lost link (a warning) hides a slave in the wrong state (an
    error). *)
Example full_output_hides_error :
  let d := ecm_diag_ingest (ecm_diag_init 1 8)
    (mkraw 1 0 true true 1 0 1 1 8 0 0 1 [Wkc.wkc_zero; Wkc.wkc_zero]
       [mkraws 0x1001 3 1 1 (replicate 16 0 ++ [1; 0; 0; 0]) 0x30 4 0]) in
  f_type <$> ecm_diag_analyze d 128 = [ECM_FIND_STATE; ECM_FIND_LOST_LINK] /\
  f_type <$> ecm_diag_analyze d 1 = [ECM_FIND_LOST_LINK].
Proof. vm_compute. auto. Qed.
End Analyze.
