(* ===== verification/Sha256.v ===== *)
(** * api/ecm_sha256.c: SHA-256 of the loaded configuration

    The compression function, the incremental interface with its 64-byte
    buffer, and the hex digest of a file.  [sha256] is the one-shot definition
    of FIPS 180-4 (pad the message, compress block by block) that the
    incremental interface is proved to compute however the message is cut into
    pieces. *)
From Stdlib Require Import ZArith Lia Bool Ascii.
From S2P Require Import Prelude.
From stdpp Require Import base list numbers.
Open Scope Z_scope.

Definition K : list Z := concat [
  [0x428a2f98; 0x71374491; 0xb5c0fbcf; 0xe9b5dba5; 0x3956c25b; 0x59f111f1; 0x923f82a4; 0xab1c5ed5];
  [0xd807aa98; 0x12835b01; 0x243185be; 0x550c7dc3; 0x72be5d74; 0x80deb1fe; 0x9bdc06a7; 0xc19bf174];
  [0xe49b69c1; 0xefbe4786; 0x0fc19dc6; 0x240ca1cc; 0x2de92c6f; 0x4a7484aa; 0x5cb0a9dc; 0x76f988da];
  [0x983e5152; 0xa831c66d; 0xb00327c8; 0xbf597fc7; 0xc6e00bf3; 0xd5a79147; 0x06ca6351; 0x14292967];
  [0x27b70a85; 0x2e1b2138; 0x4d2c6dfc; 0x53380d13; 0x650a7354; 0x766a0abb; 0x81c2c92e; 0x92722c85];
  [0xa2bfe8a1; 0xa81a664b; 0xc24b8b70; 0xc76c51a3; 0xd192e819; 0xd6990624; 0xf40e3585; 0x106aa070];
  [0x19a4c116; 0x1e376c08; 0x2748774c; 0x34b0bcb5; 0x391c0cb3; 0x4ed8aa4a; 0x5b9cca4f; 0x682e6ff3];
  [0x748f82ee; 0x78a5636f; 0x84c87814; 0x8cc70208; 0x90befffa; 0xa4506ceb; 0xbef9a3f7; 0xc67178f2]].

Definition ROR (x n : Z) : Z := Z.lor (Z.shiftr x n) (u32 (Z.shiftl x (32 - n))).

(** The message schedule [w]. *)
Definition load_words (p : list Z) : list Z :=
  (fun i => let b k := p !!! Z.to_nat (4 * i + k) in
     Z.lor (Z.lor (Z.lor (u32 (Z.shiftl (b 0) 24)) (Z.shiftl (b 1) 16)) (Z.shiftl (b 2) 8)) (b 3)) <$> seqZ 0 16.
Definition extend (w : list Z) (i : Z) : list Z :=
  let at_ k := w !!! Z.to_nat k in
  let s0 := Z.lxor (Z.lxor (ROR (at_ (i - 15)) 7) (ROR (at_ (i - 15)) 18)) (Z.shiftr (at_ (i - 15)) 3) in
  let s1 := Z.lxor (Z.lxor (ROR (at_ (i - 2)) 17) (ROR (at_ (i - 2)) 19)) (Z.shiftr (at_ (i - 2)) 10) in
  w ++ [u32 (at_ (i - 16) + s0 + at_ (i - 7) + s1)].
Definition schedule (p : list Z) : list Z := foldl extend (load_words p) (seqZ 16 48).

(** One round on the working variables [a .. h]. *)
Definition round (w : list Z) (v : list Z) (i : Z) : list Z :=
  match v with
  | [a; b; cc; d; e; f; g; h] =>
      let t1 := u32 (h + Z.lxor (Z.lxor (ROR e 6) (ROR e 11)) (ROR e 25)
                       + Z.lxor (Z.land e f) (Z.land (u32 (Z.lnot e)) g) + K !!! Z.to_nat i + w !!! Z.to_nat i) in
      let t2 := u32 (Z.lxor (Z.lxor (ROR a 2) (ROR a 13)) (ROR a 22)
                       + Z.lxor (Z.lxor (Z.land a b) (Z.land a cc)) (Z.land b cc)) in
      [u32 (t1 + t2); a; b; cc; u32 (d + t1); e; f; g]
  | _ => v
  end.

Definition block (h : list Z) (p : list Z) : list Z :=
  zip_with (fun x y => u32 (x + y)) h (foldl (round (schedule p)) h (seqZ 0 64)).

Record ecm_sha256_t := mksha { sh_h : list Z; sh_bytes : Z; sh_buf : list Z; sh_nbuf : Z }.
#[export] Instance ecm_sha256_eta : Eta ecm_sha256_t := fun c => mksha (sh_h c) (sh_bytes c) (sh_buf c) (sh_nbuf c).

Definition H0 : list Z :=
  [0x6a09e667; 0xbb67ae85; 0x3c6ef372; 0xa54ff53a; 0x510e527f; 0x9b05688c; 0x1f83d9ab; 0x5be0cd19].

(** [buf] is not initialised by the source: any 64 bytes. *)
Definition ecm_sha256_init (buf : list Z) : ecm_sha256_t := mksha H0 0 buf 0.

(** [memcpy(buf + off, p, length p)] *)
Definition memcpy_at (buf : list Z) (off : Z) (p : list Z) : list Z :=
  take (Z.to_nat off) buf ++ p ++ drop (Z.to_nat off + length p) buf.

(** Each round of the loop takes at least one byte. *)
Fixpoint update_loop (fuel : nat) (c : ecm_sha256_t) (p : list Z) : ecm_sha256_t :=
  match fuel with
  | O => c
  | S fuel =>
      match p with
      | [] => c
      | _ =>
          let k := 64 - sh_nbuf c in
          let k := if Z.of_nat (length p) <? k then Z.of_nat (length p) else k in
          let c := c <| sh_buf := memcpy_at (sh_buf c) (sh_nbuf c) (take (Z.to_nat k) p) |> <| sh_nbuf := sh_nbuf c + k |> in
          let p := drop (Z.to_nat k) p in
          let c := if sh_nbuf c =? 64 then c <| sh_h := block (sh_h c) (sh_buf c) |> <| sh_nbuf := 0 |> else c in
          update_loop fuel c p
      end
  end.
Definition ecm_sha256_update (c : ecm_sha256_t) (data : list Z) : ecm_sha256_t :=
  update_loop (length data) (c <| sh_bytes := u64 (sh_bytes c + Z.of_nat (length data)) |>) data.

Fixpoint pad_loop (fuel : nat) (c : ecm_sha256_t) : ecm_sha256_t :=
  match fuel with
  | O => c
  | S fuel => if sh_nbuf c =? 56 then c else pad_loop fuel (ecm_sha256_update c [0])
  end.

Definition be64 (bits : Z) : list Z := (fun i => u8 (Z.shiftr bits (56 - 8 * i))) <$> seqZ 0 8.
Definition be32 (x : Z) : list Z := [u8 (Z.shiftr x 24); u8 (Z.shiftr x 16); u8 (Z.shiftr x 8); u8 x].

Definition ecm_sha256_final (c : ecm_sha256_t) : list Z :=
  let bits := u64 (sh_bytes c * 8) in
  let c := pad_loop 64 (ecm_sha256_update c [0x80]) in
  let c := ecm_sha256_update c (be64 bits) in
  flat_map be32 (sh_h c).

Definition hex_digit (d : Z) : ascii := ascii_of_nat (Z.to_nat (if d <? 10 then 48 + d else 87 + d)).
(** [reads] are the pieces [fread] returned, [bad] is [ferror]. *)
Definition ecm_sha256_file (buf : list Z) (reads : list (list Z)) (bad : bool) : option (list ascii) :=
  let c := foldl ecm_sha256_update (ecm_sha256_init buf) reads in
  if bad then None
  else Some (flat_map (fun b => [hex_digit (b / 16); hex_digit (b mod 16)]) (ecm_sha256_final c)).

(** ** The one-shot definition *)

Definition nth_block (m : list Z) (i : nat) : list Z := take 64 (drop (64 * i) m).
Definition compress (m : list Z) : list Z :=
  foldl (fun h i => block h (nth_block m i)) H0 (seq 0 (length m / 64)).
Definition padding (m : list Z) : list Z :=
  [0x80] ++ replicate (Z.to_nat ((55 - Z.of_nat (length m)) mod 64)) 0 ++ be64 (u64 (8 * Z.of_nat (length m))).
Definition sha256 (m : list Z) : list Z := flat_map be32 (compress (m ++ padding m)).

Example sha256_abc : sha256 [97; 98; 99] =
  flat_map be32 [0xba7816bf; 0x8f01cfea; 0x414140de; 0x5dae2223; 0xb00361a3; 0x96177a9c; 0xb410ff61; 0xf20015ad].
Proof. vm_compute. reflexivity. Qed.

(** ** The incremental interface computes it *)

Definition repr (m : list Z) (c : ecm_sha256_t) : Prop :=
  sh_h c = compress m /\ sh_nbuf c = Z.of_nat (length m mod 64) /\ length (sh_buf c) = 64%nat /\
  take (length m mod 64) (sh_buf c) = drop (64 * (length m / 64)) m.

Ltac dlia := Z.to_euclidean_division_equations; lia.

Lemma nth_block_app m d i : (i < length m / 64)%nat -> nth_block (m ++ d) i = nth_block m i.
Proof.
  intros Hi. unfold nth_block. assert (64 * i + 64 <= length m)%nat by (pose proof (Nat.div_mod_eq (length m) 64); nia).
  rewrite drop_app_le by lia. rewrite take_app_le by (rewrite length_drop; lia). done.
Qed.
Lemma compress_prefix m d k : (k <= length m / 64)%nat ->
  foldl (fun h i => block h (nth_block (m ++ d) i)) H0 (seq 0 k) = foldl (fun h i => block h (nth_block m i)) H0 (seq 0 k).
Proof.
  intros Hk. induction k as [|k IH]; [done|]. rewrite seq_S, !foldl_app. cbn [foldl Nat.add]. rewrite IH by lia.
  by rewrite nth_block_app by lia.
Qed.

Lemma compress_small m d : (length m mod 64 + length d < 64)%nat -> compress (m ++ d) = compress m.
Proof.
  intros H. unfold compress. rewrite length_app.
  replace ((length m + length d) / 64)%nat with (length m / 64)%nat; [by apply compress_prefix|].
  symmetry. rewrite (Nat.div_mod_eq (length m) 64) at 1.
  rewrite <- Nat.add_assoc, Nat.mul_comm, Nat.div_add_l, (Nat.div_small (_ + _)) by lia. lia.
Qed.
Lemma compress_full m d : (length m mod 64 + length d = 64)%nat ->
  compress (m ++ d) = block (compress m) (drop (64 * (length m / 64)) (m ++ d)).
Proof.
  intros H. unfold compress. rewrite length_app.
  pose proof (Nat.div_mod_eq (length m) 64) as Hm.
  replace ((length m + length d) / 64)%nat with (S (length m / 64)).
  2:{ replace (length m + length d)%nat with ((S (length m / 64)) * 64)%nat by lia. by rewrite Nat.div_mul by lia. }
  rewrite seq_S, foldl_app. cbn [foldl]. rewrite compress_prefix by lia. f_equal.
  unfold nth_block. apply take_ge. rewrite length_drop, length_app. cbn [Nat.add]. lia.
Qed.

Lemma memcpy_length buf off p : 0 <= off -> (Z.to_nat off + length p <= length buf)%nat ->
  length (memcpy_at buf off p) = length buf.
Proof. intros Ho H. unfold memcpy_at. rewrite !length_app, length_take, length_drop. lia. Qed.
Lemma memcpy_take buf off p : 0 <= off -> (Z.to_nat off + length p <= length buf)%nat ->
  take (Z.to_nat off + length p) (memcpy_at buf off p) = take (Z.to_nat off) buf ++ p.
Proof.
  intros Ho H. unfold memcpy_at. rewrite app_assoc, take_app_le by (rewrite length_app, length_take; lia).
  apply take_ge. rewrite length_app, length_take. lia.
Qed.

(** One round of the loop appends [d] to the message. *)
Lemma repr_step m c d : repr m c -> (length m mod 64 + length d <= 64)%nat ->
  let c1 := c <| sh_buf := memcpy_at (sh_buf c) (sh_nbuf c) d |> <| sh_nbuf := sh_nbuf c + Z.of_nat (length d) |> in
  repr (m ++ d) (if sh_nbuf c1 =? 64 then c1 <| sh_h := block (sh_h c1) (sh_buf c1) |> <| sh_nbuf := 0 |> else c1).
Proof.
  intros (Rh & Rn & Rl & Rt) Hd. cbv zeta. cbn [sh_nbuf upd eta].
  pose proof (Nat.mod_upper_bound (length m) 64 ltac:(lia)) as Hb.
  pose proof (Nat.div_mod_eq (length m) 64) as Hm.
  assert (Hfit : (Z.to_nat (sh_nbuf c) + length d <= length (sh_buf c))%nat) by lia.
  pose proof (memcpy_length (sh_buf c) (sh_nbuf c) d ltac:(lia) Hfit) as Ml.
  pose proof (memcpy_take (sh_buf c) (sh_nbuf c) d ltac:(lia) Hfit) as Mt.
  replace (Z.to_nat (sh_nbuf c)) with (length m mod 64)%nat in Mt by lia. rewrite Rt in Mt.
  rewrite <- (drop_app_le m d) in Mt by lia.
  destruct (Z.eqb_spec (sh_nbuf c + Z.of_nat (length d)) 64) as [E|E].
  - assert (E' : (length m mod 64 + length d = 64)%nat) by lia.
    assert (L : (length (m ++ d) = 64 * S (length m / 64))%nat) by (rewrite length_app; lia).
    assert (L0 : (length (m ++ d) mod 64 = 0)%nat) by (rewrite L, Nat.mul_comm; apply Nat.Div0.mod_mul).
    unfold repr; cbn [sh_h sh_nbuf sh_buf upd eta]. rewrite L0. split_and!; [|done|lia|].
    + rewrite Rh, (compress_full m d E'). f_equal. rewrite <- Mt, take_ge; [done|]. rewrite Ml. lia.
    + cbn [take]. symmetry. apply nil_length_inv. rewrite length_drop.
      rewrite L. rewrite Nat.mul_comm, Nat.div_mul by lia. lia.
  - assert (E' : (length m mod 64 + length d < 64)%nat) by lia.
    assert (L0 : (length (m ++ d) mod 64 = length m mod 64 + length d)%nat).
    { rewrite length_app. rewrite <- Nat.Div0.add_mod_idemp_l. apply Nat.mod_small. lia. }
    assert (L1 : (length (m ++ d) / 64 = length m / 64)%nat).
    { pose proof (Nat.div_mod_eq (length (m ++ d)) 64) as Hm'. rewrite L0, length_app in Hm'. rewrite length_app. lia. }
    unfold repr; cbn [sh_h sh_nbuf sh_buf upd eta]. rewrite L0, L1. split_and!; [|lia|lia|exact Mt].
    by rewrite compress_small.
Qed.

Lemma update_loop_repr fuel m c p : repr m c -> (length p <= fuel)%nat -> repr (m ++ p) (update_loop fuel c p).
Proof.
  revert m c p. induction fuel as [|fuel IH]; intros m c p R Hf.
  - destruct p; [|cbn in Hf; lia]. by rewrite app_nil_r.
  - destruct (decide (p = [])) as [->|Hne]; [by rewrite app_nil_r|]. cbn [update_loop].
    match goal with |- context [match p with [] => _ | _ :: _ => ?X end] =>
      replace (match p with [] => c | _ :: _ => X end) with X by (by destruct p) end.
    assert (Hpos : (0 < length p)%nat) by (destruct p; cbn; [done|lia]).
    pose proof R as (_ & Rn & _). pose proof (Nat.mod_upper_bound (length m) 64 ltac:(lia)) as Hb.
    set (k := if Z.of_nat (length p) <? 64 - sh_nbuf c then Z.of_nat (length p) else 64 - sh_nbuf c).
    assert (Hk : 0 < k <= Z.of_nat (length p) /\ k <= 64 - sh_nbuf c).
    { subst k. destruct (Z.ltb_spec (Z.of_nat (length p)) (64 - sh_nbuf c)); lia. }
    clearbody k.
    assert (Hlen : length (take (Z.to_nat k) p) = Z.to_nat k) by (rewrite length_take; lia).
    pose proof (repr_step m c (take (Z.to_nat k) p) R ltac:(rewrite Hlen; lia)) as R1. cbv zeta in R1.
    rewrite Hlen, Z2Nat.id in R1 by lia.
    rewrite <- (take_drop (Z.to_nat k) p) at 1. rewrite app_assoc. apply IH; [exact R1|].
    rewrite length_drop. lia.
Qed.

Lemma update_bytes c d : sh_bytes (ecm_sha256_update c d) = u64 (sh_bytes c + Z.of_nat (length d)).
Proof.
  unfold ecm_sha256_update. set (c1 := c <| sh_bytes := _ |>). change (u64 _) with (sh_bytes c1). clearbody c1. clear c.
  generalize (length d) at 1. intros fuel. revert c1 d. induction fuel as [|fuel IH]; intros c1 d; cbn [update_loop]; [done|].
  destruct d as [|b d']; [done|]. rewrite IH. repeat case_if; reflexivity.
Qed.
Lemma update_repr m c d : repr m c -> repr (m ++ d) (ecm_sha256_update c d).
Proof. intros R. apply update_loop_repr; [exact R|done]. Qed.

(** Zeros are added until 56 bytes are in the buffer: at most 63 of them. *)
Lemma pad_loop_repr fuel m c k : repr m c -> (k < fuel)%nat -> (k <= 63)%nat -> ((length m + k) mod 64 = 56)%nat ->
  repr (m ++ replicate k 0) (pad_loop fuel c).
Proof.
  revert m c k. induction fuel as [|fuel IH]; intros m c k R Hk Hk63 He; [lia|]. cbn [pad_loop].
  pose proof R as (_ & Rn & _). rewrite Rn.
  destruct k as [|k].
  - rewrite Nat.add_0_r in He. rewrite He. change (Z.of_nat 56 =? 56) with true. cbn [replicate]. by rewrite app_nil_r.
  - destruct (Z.eqb_spec (Z.of_nat (length m mod 64)) 56) as [E|E].
    + exfalso. assert (E1 : (length m mod 64 = 56)%nat) by lia.
      rewrite <- Nat.Div0.add_mod_idemp_l, E1 in He.
      assert (57 <= 56 + S k <= 119)%nat by lia.
      pose proof (Nat.div_mod_eq (56 + S k) 64) as Hd. rewrite He in Hd. lia.
    + replace (replicate (S k) 0) with ([0] ++ replicate k 0) by done. rewrite app_assoc.
      apply IH; [by apply update_repr|lia|lia|]. rewrite length_app. cbn [length]. rewrite <- He. f_equal; lia.
Qed.

Lemma concat_repr ms m c : repr m c -> sh_bytes c = u64 (Z.of_nat (length m)) ->
  repr (m ++ concat ms) (foldl ecm_sha256_update c ms) /\
  sh_bytes (foldl ecm_sha256_update c ms) = u64 (Z.of_nat (length (m ++ concat ms))).
Proof.
  revert m c. induction ms as [|d ms IH]; intros m c R B; cbn [foldl concat]; [rewrite app_nil_r; by split|].
  rewrite app_assoc. apply IH; [by apply update_repr|]. rewrite update_bytes, B, length_app.
  unfold u64. rewrite Zplus_mod_idemp_l. f_equal. lia.
Qed.

(** C36: The digest does not depend on how the data is cut into pieces: fed with
    any sequence of pieces, whatever the buffer held at the start, the
    incremental interface returns the SHA-256 (padding and block by block
    compression of FIPS 180-4) of their concatenation; and so the digest of a
    file, read in any pieces, is the hex form of the SHA-256 of its contents. *)
Theorem sha256_incremental (buf : list Z) (ms : list (list Z)) : length buf = 64%nat ->
  ecm_sha256_final (foldl ecm_sha256_update (ecm_sha256_init buf) ms) = sha256 (concat ms) /\
  ecm_sha256_file buf ms false =
    Some (flat_map (fun b => [hex_digit (b / 16); hex_digit (b mod 16)]) (sha256 (concat ms))).
Proof.
  intros Hb.
  assert (E : ecm_sha256_final (foldl ecm_sha256_update (ecm_sha256_init buf) ms) = sha256 (concat ms)).
  2:{ split; [exact E|]. unfold ecm_sha256_file. by rewrite E. }
  destruct (concat_repr ms [] (ecm_sha256_init buf)) as [R B]; [by split_and!|done|]. cbn [app] in R, B.
  set (m := concat ms) in *. unfold ecm_sha256_final, sha256. rewrite B. f_equal.
  set (k := Z.to_nat ((55 - Z.of_nat (length m)) mod 64)).
  assert (Hk : (k <= 63)%nat /\ ((length m + 1 + k) mod 64 = 56)%nat).
  { subst k. pose proof (Z.mod_pos_bound (55 - Z.of_nat (length m)) 64 ltac:(lia)). split; [lia|].
    apply Nat2Z.inj. rewrite Nat2Z.inj_mod, !Nat2Z.inj_add, Z2Nat.id by lia.
    rewrite Z.add_mod_idemp_r by lia. change (Z.of_nat 1) with 1. change (Z.of_nat 64) with 64.
    replace (Z.of_nat (length m) + 1 + (55 - Z.of_nat (length m))) with 56 by lia. done. }
  pose proof (update_repr m _ [0x80] R) as R1.
  pose proof (pad_loop_repr 64 (m ++ [0x80]) _ k R1 ltac:(lia) ltac:(lia)) as R2.
  rewrite length_app in R2. specialize (R2 (proj2 Hk)).
  pose proof (update_repr _ _ (be64 (u64 (u64 (Z.of_nat (length m)) * 8))) R2) as (Rh & _).
  rewrite Rh. f_equal. unfold padding. fold k. rewrite <- !app_assoc.
  replace (u64 (u64 (Z.of_nat (length m)) * 8)) with (u64 (8 * Z.of_nat (length m))); [done|].
  unfold u64. rewrite Z.mul_mod_idemp_l by lia. f_equal. lia.
Qed.

Lemma sha256_incremental_witness :
  let buf := replicate 64 0 in
  ecm_sha256_final (foldl ecm_sha256_update (ecm_sha256_init buf) [[97]; []; [98; 99]]) = sha256 [97; 98; 99].
Proof. intros buf. exact (proj1 (sha256_incremental buf [[97]; []; [98; 99]] eq_refl)). Defined.
