(* ===== verification/Eni.v ===== *)
(** * The network configuration reader: libecmaster/config/ecm_eni.c

    The line based .enicfg file (tokens, key/value records), the checks of
    the loaded configuration against the bus and against what the master
    supports.  An error message becomes a constructor of [eni_err] with its
    line number; an [ecm_eni_t] array with its count becomes the list of the
    filled entries, the unfilled ones being the zeros of the initial memset.
    On an error the code leaves a half-filled structure that its callers drop;
    the result carries only the error.  The log texts of the checks are
    reduced to the counts the functions return. *)
From Stdlib Require Import ZArith Lia Bool Ascii String.
From S2P Require Import Prelude CString.
From stdpp Require Import base list numbers strings.
Open Scope Z_scope.

Definition ECM_ENI_MAX_SLAVES : Z := 64.
Definition ECM_ENI_MAX_COE : Z := 256.
Definition ECM_ENI_MAX_DATA : Z := 256.
Definition ECM_ENI_NAME_LEN : Z := 64.
Definition ECM_ENI_MAX_REG : Z := 1024.
Definition ECM_ENI_REG_DATA : Z := 32.
Definition ECM_ENI_MAX_PDO : Z := 1024.
Definition ECM_ENI_T_PS : Z := 4.
Definition ECM_ENI_PD_UNKNOWN : Z := 0.
Definition ECM_ENI_PD_LRW : Z := 1.
Definition ECM_ENI_PD_LRD_LWR : Z := 2.
Definition ECM_ENI_PD_NONE : Z := 3.
Definition ECM_ENI_ST_COUNT : Z := 3.
Definition ECM_ENI_CCS_DOWNLOAD : Z := 1.
Definition ECM_ENI_CCS_UPLOAD : Z := 2.

Record ecm_eni_slave_t := mkSlave {
  sl_pos : Z; sl_name : str; vendor : Z; product : Z; sl_rev : Z; check_rev : Z; addr : Z;
  osize_bits : Z; isize_bits : Z; dc : Z; refclock : Z; sync0_ns : Z; sync1_ns : Z;
  shift_ns : Z; assign : Z; state_ms : list Z
}.
Definition zero_slave : ecm_eni_slave_t := mkSlave 0 [] 0 0 0 0 0 0 0 0 0 0 0 0 0 [0; 0; 0].

Record ecm_eni_reg_t := mkReg {
  r_pos : Z; r_trans : Z; r_cmd : Z; r_ado : Z; r_len : Z; r_data : list Z
}.
Definition nkept (r : ecm_eni_reg_t) : Z := Z.of_nat (length (r_data r)).

Record ecm_eni_coe_t := mkCoe {
  c_pos : Z; c_trans : Z; c_ccs : Z; c_index : Z; c_sub : Z; c_ca : Z; c_timeout_ms : Z; c_data : list Z
}.

Record ecm_eni_pdo_t := mkPdo { p_pos : Z; p_dir : Z; p_pdo : Z; p_index : Z; p_sub : Z; p_bits : Z }.

Record ecm_eni_t := mkEni {
  version : Z; source : str; cycle_us : Z; pd_cmd : Z;
  reg : list ecm_eni_reg_t; pdo : list ecm_eni_pdo_t; slave : list ecm_eni_slave_t; coe : list ecm_eni_coe_t
}.
#[export] Instance eta_eni : Eta ecm_eni_t := fun e =>
  mkEni (version e) (source e) (cycle_us e) (pd_cmd e) (reg e) (pdo e) (slave e) (coe e).
Definition eni_zero : ecm_eni_t := mkEni 0 [] 0 0 [] [] [] [].
Definition nslaves (e : ecm_eni_t) : Z := Z.of_nat (length (slave e)).
Definition nreg (e : ecm_eni_t) : Z := Z.of_nat (length (reg e)).
Definition npdo (e : ecm_eni_t) : Z := Z.of_nat (length (pdo e)).
Definition ncoe (e : ecm_eni_t) : Z := Z.of_nat (length (coe e)).

Record ecm_eni_found_t := mkFound { f_vendor : Z; f_product : Z; f_rev : Z; obits : Z; ibits : Z }.

(** ** Errors *)

Inductive eni_err :=
  | EPos (lineno : Z) (rec : str) | EOrder (lineno pos expected : Z)
  | ENeed (lineno : Z) (rec key : str) | EStateMs (lineno : Z) (key : str)
  | EDcNeeds (lineno pos : Z) | ERefNoDc (lineno pos : Z)
  | EMany (lineno : Z) (rec : str) | ETrans (lineno : Z) (rec : str) | EData (lineno : Z) (rec : str)
  | EDir (lineno : Z) | EBits0 (lineno : Z) | ECcs (lineno ccs : Z) | EDownload (lineno : Z)
  | ETooLong (lineno : Z) | EVersion (lineno : Z) | ENoHeader (lineno : Z) | ECycle (lineno : Z)
  | ECount (lineno : Z) | EPdCmd (lineno : Z) (arg : str) | EUnknown (lineno : Z) (rec : str)
  | EEmpty | ENoPdCmd | EPdoSum (pos out in_ : Z) | EDeclared (declared nslaves : Z) | ERefs (dcs refs : Z).

Inductive res (A : Type) := Ok (a : A) | Err (e : eni_err).
Arguments Ok {A} _.
Arguments Err {A} _.
#[export] Instance res_bind : MBind res := fun A B f m =>
  match m with Ok a => f a | Err e => Err e end.
Definition check (b : bool) (e : eni_err) : res unit := if b then Err e else Ok tt.

(** ** Transition names *)

Definition TRANS_NAMES : list str :=
  s_ <$> ["IP"; "PI"; "PS"; "SP"; "SO"; "OS"; "SI"; "OI"; "IB"; "BI"; "II"; "PP"; "SS"; "OO"; "OP"]%string.

Fixpoint index_of (i : Z) (tok : str) (names : list str) : option Z :=
  match names with
  | [] => None
  | n :: names => if streq tok n then Some i else index_of (i + 1) tok names
  end.

Fixpoint trans_loop (mask : Z) (toks : list str) : Z :=
  match toks with
  | [] => mask
  | tok :: toks =>
      match index_of 0 tok TRANS_NAMES with
      | None => 0
      | Some i => trans_loop (u16 (Z.lor mask (Z.shiftl 1 i))) toks
      end
  end.
Definition ecm_eni_trans_parse (list_ : option str) : Z :=
  match list_ with
  | None => 0
  | Some l => if (64 <=? length l)%nat then 0 else trans_loop 0 (strtok "," [] l)
  end.

Fixpoint name_loop (i : Z) (bit : Z) (names : list str) : str :=
  match names with
  | [] => s_ "?"
  | n :: names => if bit =? Z.shiftl 1 i then n else name_loop (i + 1) bit names
  end.
Definition ecm_eni_trans_name (bit : Z) : str := name_loop 0 bit TRANS_NAMES.

(** ** Tokens and numbers *)

Definition MAXTOK : nat := 48.

Inductive tmode := Outside | InQuote (cur : str) | InWord (cur : str).

(** [room] tokens can still be stored; a token takes its place when it starts. *)
Fixpoint tok_loop (room : nat) (m : tmode) (s : str) : list str :=
  match s with
  | [] => match m with Outside => [] | InQuote cur | InWord cur => [rev cur] end
  | c :: s =>
      match m with
      | Outside =>
          match room with
          | O => []
          | S room' =>
              if isspace c then tok_loop room Outside s
              else if Ascii.eqb c "034" then tok_loop room' (InQuote []) s
              else tok_loop room' (InWord [c]) s
          end
      | InQuote cur =>
          if Ascii.eqb c "034" then rev cur :: tok_loop room Outside s else tok_loop room (InQuote (c :: cur)) s
      | InWord cur =>
          if isspace c then rev cur :: tok_loop room Outside s else tok_loop room (InWord (c :: cur)) s
      end
  end.
Definition tokenize (line : str) : list str := tok_loop MAXTOK Outside line.

Definition parse_u32 (s : str) : option Z :=
  match strtoull 0 s with
  | None => None
  | Some (v, erange, rest) =>
      if erange || negb (streq rest []) || (0xFFFFFFFF <? v) then None else Some (u32 v)
  end.
Definition parse_i32 (s : str) : option Z :=
  match strtoll 0 s with
  | None => None
  | Some (v, erange, rest) =>
      if erange || negb (streq rest []) || (v <? -2147483648) || (2147483647 <? v) then None else Some (i32 v)
  end.

(** [kv(tok, n, 2, key)] on the tokens from the third on. *)
Fixpoint kv (toks : list str) (key : str) : option str :=
  match toks with
  | k :: v :: toks => if streq k key then Some v else kv toks key
  | _ => None
  end.

(** NEED_U32 *)
Definition need_u32 (lineno : Z) (tok : list str) (key : string) (maxv : Z) : res Z :=
  let bad := Err (ENeed lineno (default [] (head tok)) (s_ key)) in
  match kv (drop 2 tok) (s_ key) with
  | None => bad
  | Some v => match parse_u32 v with
              | None => bad
              | Some t => if maxv <? t then bad else Ok t
              end
  end.

Fixpoint hex_loop (s : str) : option (list Z) :=
  match s with
  | a :: b :: s =>
      if negb (isxdigit a) || negb (isxdigit b) then None
      else let v := match strtoul 16 [a; b] with Some (v, _, _) => v | None => 0 end in
           out ← hex_loop s; Some (u8 v :: out)
  | _ => Some []
  end.
Definition hexbytes (s : str) (max : Z) : option (list Z) :=
  if streq s (s_ "-") then Some []
  else let n := Z.of_nat (length s) in
       if negb (n mod 2 =? 0) || (max <? n / 2) then None else hex_loop s.

(** ** Records *)

Definition st_key : list string := ["preop_ms"; "safeop_ms"; "op_ms"]%string.
Fixpoint state_loop (lineno : Z) (tok : list str) (keys : list string) : res (list Z) :=
  match keys with
  | [] => Ok []
  | key :: keys =>
      v ← match kv (drop 2 tok) (s_ key) with
          | None => Ok 0
          | Some sv => match parse_u32 sv with
                       | None => Err (EStateMs lineno (s_ key))
                       | Some v => if 600000 <? v then Err (EStateMs lineno (s_ key)) else Ok v
                       end
          end;
      vs ← state_loop lineno tok keys; Ok (v :: vs)
  end.

Definition position (lineno : Z) (tok : list str) (bad : Z -> bool) : res Z :=
  let e := Err (EPos lineno (default [] (head tok))) in
  match tok !! 1%nat with
  | None => e
  | Some t => match parse_u32 t with None => e | Some pos => if bad pos then e else Ok pos end
  end.

Definition parse_slave (tok : list str) (lineno : Z) (eni : ecm_eni_t) : res ecm_eni_t :=
  pos ← position lineno tok (fun _ => false);
  _ ← check (negb (i32 pos =? nslaves eni + 1) || (ECM_ENI_MAX_SLAVES <? pos)) (EOrder lineno pos (nslaves eni + 1));
  let name := take 63 (default [] (kv (drop 2 tok) (s_ "name"))) in
  vendor ← need_u32 lineno tok "vendor" 0xFFFFFFFF;
  product ← need_u32 lineno tok "product" 0xFFFFFFFF;
  rev ← need_u32 lineno tok "rev" 0xFFFFFFFF;
  check_rev ← need_u32 lineno tok "check_rev" 1;
  addr ← need_u32 lineno tok "addr" 0xFFFF;
  osize ← need_u32 lineno tok "osize_bits" 0xFFFFFF;
  isize ← need_u32 lineno tok "isize_bits" 0xFFFFFF;
  dc ← need_u32 lineno tok "dc" 1;
  refclock ← need_u32 lineno tok "refclock" 1;
  sync0 ← need_u32 lineno tok "sync0_ns" 0xFFFFFFFF;
  sync1 ← need_u32 lineno tok "sync1_ns" 0xFFFFFFFF;
  assign ← need_u32 lineno tok "assign" 0xFFFF;
  shift ← match kv (drop 2 tok) (s_ "shift_ns") with
          | None => Err (ENeed lineno (s_ "slave") (s_ "shift_ns"))
          | Some sh => match parse_i32 sh with
                       | None => Err (ENeed lineno (s_ "slave") (s_ "shift_ns"))
                       | Some v => Ok v
                       end
          end;
  states ← state_loop lineno tok st_key;
  _ ← check (negb (dc =? 0) && ((sync0 =? 0) || (assign =? 0))) (EDcNeeds lineno pos);
  _ ← check ((dc =? 0) && negb (refclock =? 0)) (ERefNoDc lineno pos);
  let s := mkSlave (u16 pos) name vendor product rev (u8 check_rev) (u16 addr) osize isize (u8 dc)
             (u8 refclock) sync0 sync1 shift (u16 assign) states in
  Ok (eni <| slave ::= fun l => l ++ [s] |>).

Definition parse_reg (tok : list str) (lineno : Z) (eni : ecm_eni_t) : res ecm_eni_t :=
  pos ← position lineno tok (fun pos => nslaves eni <? i32 pos);
  _ ← check (ECM_ENI_MAX_REG <=? nreg eni) (EMany lineno (s_ "reg"));
  let trans := ecm_eni_trans_parse (kv (drop 2 tok) (s_ "trans")) in
  _ ← check (trans =? 0) (ETrans lineno (s_ "reg"));
  cmd ← need_u32 lineno tok "cmd" 14;
  ado ← need_u32 lineno tok "ado" 0xFFFF;
  len ← need_u32 lineno tok "len" 0x7FF;
  match kv (drop 2 tok) (s_ "data") with
  | None => Err (EData lineno (s_ "reg"))
  | Some d =>
      match hexbytes d ECM_ENI_REG_DATA with
      | None => Err (EData lineno (s_ "reg"))
      | Some data => Ok (eni <| reg ::= fun l => l ++ [mkReg (u16 pos) trans (u8 cmd) (u16 ado) (u16 len) data] |>)
      end
  end.

Definition parse_pdo (tok : list str) (lineno : Z) (eni : ecm_eni_t) : res ecm_eni_t :=
  pos ← position lineno tok (fun pos => (pos <? 1) || (nslaves eni <? i32 pos));
  _ ← check (ECM_ENI_MAX_PDO <=? npdo eni) (EMany lineno (s_ "pdo"));
  dir ← match kv (drop 2 tok) (s_ "dir") with
        | None => Err (EDir lineno)
        | Some d => if negb (streq d (s_ "out")) && negb (streq d (s_ "in")) then Err (EDir lineno)
                    else Ok (b2z (streq d (s_ "in")))
        end;
  pdo_ ← need_u32 lineno tok "pdo" 0xFFFF;
  index ← need_u32 lineno tok "index" 0xFFFF;
  sub ← need_u32 lineno tok "sub" 0xFF;
  bits ← need_u32 lineno tok "bits" 0xFFFF;
  _ ← check (u16 bits =? 0) (EBits0 lineno);
  Ok (eni <| pdo ::= fun l => l ++ [mkPdo (u16 pos) dir (u16 pdo_) (u16 index) (u8 sub) (u16 bits)] |>).

Definition parse_coe (tok : list str) (lineno : Z) (eni : ecm_eni_t) : res ecm_eni_t :=
  pos ← position lineno tok (fun pos => (pos <? 1) || (nslaves eni <? i32 pos));
  _ ← check (ECM_ENI_MAX_COE <=? ncoe eni) (EMany lineno (s_ "coe"));
  let trans := ecm_eni_trans_parse (kv (drop 2 tok) (s_ "trans")) in
  _ ← check (trans =? 0) (ETrans lineno (s_ "coe"));
  ccs ← need_u32 lineno tok "ccs" 2;
  _ ← check (negb (u8 ccs =? ECM_ENI_CCS_DOWNLOAD) && negb (u8 ccs =? ECM_ENI_CCS_UPLOAD)) (ECcs lineno ccs);
  index ← need_u32 lineno tok "index" 0xFFFF;
  sub ← need_u32 lineno tok "sub" 0xFF;
  ca ← need_u32 lineno tok "ca" 1;
  timeout ← need_u32 lineno tok "timeout_ms" 600000;
  match kv (drop 2 tok) (s_ "data") with
  | None => Err (EData lineno (s_ "coe"))
  | Some d =>
      match hexbytes d ECM_ENI_MAX_DATA with
      | None => Err (EData lineno (s_ "coe"))
      | Some data =>
          _ ← check ((u8 ccs =? ECM_ENI_CCS_DOWNLOAD) && (Z.of_nat (length data) =? 0)) (EDownload lineno);
          Ok (eni <| coe ::= fun l => l ++ [mkCoe (u16 pos) trans (u8 ccs) (u16 index) (u8 sub) (u8 ca) timeout data] |>)
      end
  end.

(** ** The file *)

Record pstate := mkPs { ps_eni : ecm_eni_t; declared : Z; have_version : bool }.
#[export] Instance eta_pstate : Eta pstate := fun s => mkPs (ps_eni s) (declared s) (have_version s).
Definition pstate0 : pstate := mkPs eni_zero (-1) false.
Definition with_eni (s : pstate) (r : res ecm_eni_t) : res pstate := e ← r; Ok (s <| ps_eni := e |>).

Definition first_is (tok : list str) (c : ascii) : bool :=
  match tok with (d :: _) :: _ => Ascii.eqb d c | _ => false end.

(** The record of a line that is neither empty nor a comment: its first token, the number of tokens. *)
Definition parse_record (s : pstate) (lineno : Z) (tok : list str) : res pstate :=
  let eni := ps_eni s in
  let n := Z.of_nat (length tok) in
  let tok0 := default [] (tok !! 0%nat) in
  let tok1 := default [] (tok !! 1%nat) in
  let is_rec (name : string) := streq tok0 (s_ name) in
  if is_rec "enicfg" then
    if negb (n =? 2) || (negb (streq tok1 (s_ "1")) && negb (streq tok1 (s_ "2"))) then Err (EVersion lineno)
    else Ok (s <| ps_eni ::= fun e => e <| version := match tok1 with c :: _ => code c - 48 | [] => -48 end |> |>
               <| have_version := true |>)
  else if negb (have_version s) then Err (ENoHeader lineno)
  else if is_rec "source" && (2 <=? n) then Ok (s <| ps_eni ::= fun e => e <| source := take 127 tok1 |> |>)
  else if is_rec "cycle_us" && (n =? 2) then
    match parse_u32 tok1 with
    | None => Err (ECycle lineno)
    | Some v => Ok (s <| ps_eni ::= fun e => e <| cycle_us := v |> |>)
    end
  else if is_rec "slaves" && (n =? 2) then
    match parse_u32 tok1 with
    | None => Err (ECount lineno)
    | Some v => if (v =? 0) || (ECM_ENI_MAX_SLAVES <? v) then Err (ECount lineno) else Ok (s <| declared := i32 v |>)
    end
  else if is_rec "slave" then with_eni s (parse_slave tok lineno eni)
  else if is_rec "coe" then with_eni s (parse_coe tok lineno eni)
  else if is_rec "pdo" && (2 <=? version eni) then with_eni s (parse_pdo tok lineno eni)
  else if is_rec "reg" && (2 <=? version eni) then with_eni s (parse_reg tok lineno eni)
  else if is_rec "pd_cmd" && (2 <=? version eni) && (n =? 2) then
    if streq tok1 (s_ "lrw") then Ok (s <| ps_eni ::= fun e => e <| pd_cmd := ECM_ENI_PD_LRW |> |>)
    else if streq tok1 (s_ "lrd_lwr") then Ok (s <| ps_eni ::= fun e => e <| pd_cmd := ECM_ENI_PD_LRD_LWR |> |>)
    else if streq tok1 (s_ "none") then Ok (s <| ps_eni ::= fun e => e <| pd_cmd := ECM_ENI_PD_NONE |> |>)
    else Err (EPdCmd lineno tok1)
  else Err (EUnknown lineno tok0).

Definition parse_line (s : pstate) (lineno : Z) (line : str) : res pstate :=
  if (1024 <=? length line)%nat then Err (ETooLong lineno)
  else let tok := tokenize line in
       match tok with
       | [] => Ok s
       | _ => if first_is tok "#" then Ok s else parse_record s lineno tok
       end.

(** The lines of a text; the last one may lack its line feed. *)
Fixpoint split_lines (cur s : str) : list str :=
  match s with
  | [] => match cur with [] => [] | _ => [rev cur] end
  | c :: s => if Ascii.eqb c "010" then rev cur :: split_lines [] s else split_lines (c :: cur) s
  end.

Fixpoint parse_lines (s : pstate) (lineno : Z) (lines : list str) : res pstate :=
  match lines with
  | [] => Ok s
  | line :: lines => s ← parse_line s (lineno + 1) line; parse_lines s (lineno + 1) lines
  end.

(** Bits of the entries of slave [pos] in direction [dir] (0 out, otherwise in). *)
Fixpoint pdo_bits (pos : Z) (dir : bool) (acc : Z) (l : list ecm_eni_pdo_t) : Z :=
  match l with
  | [] => acc
  | p :: l =>
      pdo_bits pos dir
        (if (p_pos p =? pos) && Bool.eqb (negb (p_dir p =? 0)) dir then u32 (acc + p_bits p) else acc) l
  end.

Fixpoint check_sums (i : Z) (pdos : list ecm_eni_pdo_t) (l : list ecm_eni_slave_t) : res unit :=
  match l with
  | [] => Ok tt
  | s :: l =>
      let o := pdo_bits (i + 1) false 0 pdos in
      let in_ := pdo_bits (i + 1) true 0 pdos in
      _ ← check (negb (o =? osize_bits s) || negb (in_ =? isize_bits s)) (EPdoSum (i + 1) o in_);
      check_sums (i + 1) pdos l
  end.

Definition total (f : ecm_eni_slave_t -> Z) (l : list ecm_eni_slave_t) : Z := foldr (fun s a => f s + a) 0 l.

Definition parse_end (s : pstate) : res ecm_eni_t :=
  let eni := ps_eni s in
  _ ← check (negb (have_version s)) EEmpty;
  _ ← check ((2 <=? version eni) && (pd_cmd eni =? ECM_ENI_PD_UNKNOWN)) ENoPdCmd;
  _ ← (if npdo eni =? 0 then Ok tt else check_sums 0 (pdo eni) (slave eni));
  _ ← check (negb (declared s =? nslaves eni)) (EDeclared (declared s) (nslaves eni));
  let refs := total refclock (slave eni) in
  let dcs := total dc (slave eni) in
  _ ← check ((1 <? refs) || (negb (dcs =? 0) && negb (refs =? 1))) (ERefs dcs refs);
  Ok eni.

Definition ecm_eni_parse_text (text : str) : res ecm_eni_t :=
  s ← parse_lines pstate0 0 (split_lines [] text); parse_end s.

(** ** Checks *)

(** Entries that disagree, over the positions both sides have. *)
Fixpoint count_bad (bad : ecm_eni_slave_t -> ecm_eni_found_t -> bool) (es : list ecm_eni_slave_t)
    (fs : list ecm_eni_found_t) : Z :=
  match es, fs with
  | e :: es, f :: fs => b2z (bad e f) + count_bad bad es fs
  | _, _ => 0
  end.

Definition identity_bad (e : ecm_eni_slave_t) (f : ecm_eni_found_t) : bool :=
  negb (f_vendor f =? vendor e) || negb (f_product f =? product e) ||
  (negb (check_rev e =? 0) && negb (f_rev f =? sl_rev e)).
Definition ecm_eni_check_identity (eni : ecm_eni_t) (found : list ecm_eni_found_t) : Z :=
  b2z (negb (Z.of_nat (length found) =? nslaves eni)) + count_bad identity_bad (slave eni) found.

Definition layout_bad (e : ecm_eni_slave_t) (f : ecm_eni_found_t) : bool :=
  negb (obits f =? osize_bits e) || negb (ibits f =? isize_bits e).
Definition ecm_eni_check_layout (eni : ecm_eni_t) (found : list ecm_eni_found_t) : Z :=
  b2z (negb (Z.of_nat (length found) =? nslaves eni)) + count_bad layout_bad (slave eni) found.

Fixpoint refclock_loop (i : Z) (l : list ecm_eni_slave_t) : Z :=
  match l with
  | [] => 0
  | s :: l => if negb (refclock s =? 0) then i + 1 else refclock_loop (i + 1) l
  end.
Definition ecm_eni_refclock (eni : ecm_eni_t) : Z := refclock_loop 0 (slave eni).

Definition cmd_names : list str :=
  s_ <$> ["NOP"; "APRD"; "APWR"; "APRW"; "FPRD"; "FPWR"; "FPRW"; "BRD"; "BWR"; "BRW"; "LRD"; "LWR"; "LRW"; "ARMW"; "FRMW"]%string.
Definition ecm_eni_cmd_name (cmd : Z) : str :=
  if cmd <? 15 then default [] (cmd_names !! Z.to_nat cmd) else s_ "?".

Definition K_RD : Z := 1.
Definition K_WR : Z := 2.
Definition cmd_kind (cmd : Z) : Z :=
  if (cmd =? 1) || (cmd =? 4) || (cmd =? 7) then K_RD
  else if (cmd =? 2) || (cmd =? 5) || (cmd =? 8) then K_WR
  else 0.

(** Register, kinds, zero_only; the text that names the code in charge is left out. *)
Definition KNOWN_REGS : list (Z * Z * bool) :=
  [ (0x0010, Z.lor K_RD K_WR, false); (0x0101, K_WR, false); (0x0103, K_WR, false); (0x0120, K_WR, false);
    (0x0130, K_RD, false); (0x0200, K_WR, false); (0x0300, K_WR, false); (0x0500, K_WR, false);
    (0x0502, Z.lor K_RD K_WR, false); (0x0508, K_RD, false); (0x0600, K_WR, false); (0x0610, K_WR, false);
    (0x0620, K_WR, false); (0x0630, K_WR, false); (0x0800, Z.lor K_RD K_WR, false); (0x0808, K_WR, false);
    (0x0810, K_WR, false); (0x0818, K_WR, false); (0x0820, K_WR, false); (0x0828, K_WR, false);
    (0x0910, K_WR, false); (0x0930, K_WR, false); (0x0934, K_WR, false); (0x0980, K_WR, false);
    (0x0981, K_WR, false); (0x0990, K_WR, false); (0x09A0, K_WR, false); (0x09A4, K_WR, false);
    (0x09A8, K_WR, true) ].

Fixpoint known_loop (r : ecm_eni_reg_t) (kind : Z) (l : list (Z * Z * bool)) : bool :=
  match l with
  | [] => false
  | (ado, kinds, zero_only) :: l =>
      if negb (ado =? r_ado r) then known_loop r kind l
      else if Z.land kind kinds =? 0 then false
      else if zero_only && (kind =? K_WR) && existsb (fun b => negb (b =? 0)) (r_data r) then false
      else true
  end.
Definition ecm_eni_reg_known (r : ecm_eni_reg_t) : bool := known_loop r (cmd_kind (r_cmd r)) KNOWN_REGS.

(** [for (b = 1; b; b <<= 1)] over the bits of a [uint16_t], appended with snprintf. *)
Fixpoint list_loop (n : nat) (b mask : Z) (outlen : nat) (out : str) : str :=
  match n with
  | O => out
  | S n =>
      if b =? 0 then out
      else list_loop n (u16 (Z.shiftl b 1)) mask outlen
             (if Z.land mask b =? 0 then out
              else take (outlen - 1) (out ++ (match out with [] => [] | _ => s_ "," end) ++ ecm_eni_trans_name b))
  end.
Definition trans_list (mask : Z) (outlen : nat) : str := list_loop 17 1 mask outlen [].

(** [slave[i]] of the array of ECM_ENI_MAX_SLAVES entries; [None] is an access outside it. *)
Definition slave_at (eni : ecm_eni_t) (i : Z) : option ecm_eni_slave_t :=
  if (i <? 0) || (ECM_ENI_MAX_SLAVES <=? i) then None else Some (default zero_slave (slave eni !! Z.to_nat i)).

Definition byte_at (r : ecm_eni_reg_t) (i : nat) : Z := default 0 (r_data r !! i).
Definition le16_at (r : ecm_eni_reg_t) (i : nat) : Z := Z.lor (byte_at r i) (Z.shiftl (byte_at r (i + 1)) 8).
Definition le32_at (r : ecm_eni_reg_t) (i : nat) : Z :=
  Z.lor (Z.lor (Z.lor (byte_at r i) (Z.shiftl (byte_at r (i + 1)) 8)) (Z.shiftl (byte_at r (i + 2)) 16))
    (Z.shiftl (byte_at r (i + 3)) 24).

(** The pairs (wanted, written) a DC register write is checked for. *)
Definition dc_pairs (r : ecm_eni_reg_t) (s : ecm_eni_slave_t) : list (Z * Z) :=
  if (r_ado r =? 0x0980) && (2 <=? nkept r) then [(assign s, le16_at r 0)]
  else if (r_ado r =? 0x09A0) && (4 <=? nkept r) then
    (sync0_ns s, le32_at r 0) :: (if 8 <=? nkept r then [(sync1_ns s, le32_at r 4)] else [])
  else if (r_ado r =? 0x09A4) && (4 <=? nkept r) then [(sync1_ns s, le32_at r 0)]
  else [].

(** Mismatches of one register record; [None] when it names a slave outside the array. *)
Definition dc_check (eni : ecm_eni_t) (r : ecm_eni_reg_t) : option Z :=
  if (r_pos r =? 0) || (Z.land (r_trans r) ECM_ENI_T_PS =? 0) || negb (cmd_kind (r_cmd r) =? K_WR) then Some 0
  else s ← slave_at eni (r_pos r - 1);
       Some (if dc s =? 0 then 0
             else foldr (fun wg a => b2z (negb (wg.1 =? wg.2)) + a) 0 (dc_pairs r s)).

Fixpoint dc_loop (eni : ecm_eni_t) (bad : Z) (l : list ecm_eni_reg_t) : option Z :=
  match l with
  | [] => Some bad
  | r :: l => k ← dc_check eni r; dc_loop eni (bad + k) l
  end.

Definition unknown_regs (eni : ecm_eni_t) : Z :=
  foldr (fun r a => b2z (negb (ecm_eni_reg_known r)) + a) 0 (reg eni).

(** Number of refusals and of warnings. *)
Definition ecm_eni_check_supported (eni : ecm_eni_t) (allow_unknown_reg : bool) : option (Z * Z) :=
  let warn := b2z (version eni <? 2) in
  let bad := b2z (pd_cmd eni =? ECM_ENI_PD_LRD_LWR) in
  let unknown := unknown_regs eni in
  let '(bad, warn) := if allow_unknown_reg then (bad, warn + unknown) else (bad + unknown, warn) in
  bad ← dc_loop eni bad (reg eni);
  Some (bad, warn).

Fixpoint timeout_loop (st : nat) (m : Z) (l : list ecm_eni_slave_t) : Z :=
  match l with
  | [] => m
  | s :: l => let v := default 0 (state_ms s !! st) in timeout_loop st (if m <? v then v else m) l
  end.
Definition ecm_eni_state_timeout_ms (eni : ecm_eni_t) (st : Z) : Z :=
  if (st <? 0) || (ECM_ENI_ST_COUNT <=? st) then 0 else timeout_loop (Z.to_nat st) 0 (slave eni).

(** ** A small configuration *)

Definition nl : string := String "010" EmptyString.
Definition demo_text : str := s_ (
  "# a drive" ++ nl ++
  "enicfg 2" ++ nl ++ "source drive.xml" ++ nl ++ "cycle_us 1000" ++ nl ++ "slaves 1" ++ nl ++ "pd_cmd lrw" ++ nl ++
  "slave 1 vendor 0x2 product 7 rev 1 check_rev 1 addr 1001 osize_bits 16 isize_bits 16 dc 1 refclock 1 sync0_ns 1000000 sync1_ns 0 assign 0x300 shift_ns -5 name d1" ++ nl ++
  "pdo 1 dir out pdo 0x1600 index 0x6040 sub 0 bits 16" ++ nl ++ "pdo 1 dir in pdo 0x1A00 index 0x6041 sub 0 bits 16" ++ nl ++
  "reg 1 trans PS cmd 5 ado 0x980 len 2 data 0003" ++ nl ++
  "coe 1 trans PS ccs 1 index 0x1C12 sub 0 ca 0 timeout_ms 100 data 00")%string.
Definition demo_eni : ecm_eni_t := Eval vm_compute in
  match ecm_eni_parse_text demo_text with Ok e => e | Err _ => eni_zero end.
Example demo_parses : ecm_eni_parse_text demo_text = Ok demo_eni.
Proof. vm_compute. reflexivity. Qed.
Example demo_supported : ecm_eni_check_supported demo_eni false = Some (0, 0).
Proof. vm_compute. reflexivity. Qed.

(** ** Well-formed configurations *)

Definition flag (z : Z) : Prop := z = 0 \/ z = 1.
Definition bytes (l : list Z) : Prop := Forall is_u8 l.

Record slave_wf (s : ecm_eni_slave_t) : Prop := {
  sw_name : (length (sl_name s) < 64)%nat;
  sw_identity : is_u32 (vendor s) /\ is_u32 (product s) /\ is_u32 (sl_rev s) /\ flag (check_rev s);
  sw_addr : is_u16 (addr s);
  sw_sizes : 0 <= osize_bits s <= 0xFFFFFF /\ 0 <= isize_bits s <= 0xFFFFFF;
  sw_dc : flag (dc s) /\ flag (refclock s);
  sw_sync : is_u32 (sync0_ns s) /\ is_u32 (sync1_ns s) /\ is_i32 (shift_ns s) /\ is_u16 (assign s);
  sw_states : length (state_ms s) = 3%nat /\ Forall (fun v => 0 <= v <= 600000) (state_ms s);
  sw_dc_needs : dc s = 1 -> sync0_ns s <> 0 /\ assign s <> 0;
  sw_ref_dc : refclock s = 1 -> dc s = 1
}.
Record reg_wf (r : ecm_eni_reg_t) : Prop := {
  rw_trans : 0 < r_trans r < 32768;
  rw_cmd : 0 <= r_cmd r <= 14;
  rw_ado : is_u16 (r_ado r);
  rw_len : 0 <= r_len r <= 0x7FF;
  rw_data : nkept r <= ECM_ENI_REG_DATA /\ bytes (r_data r)
}.
Record pdo_wf (p : ecm_eni_pdo_t) : Prop := {
  pw_dir : flag (p_dir p);
  pw_object : is_u16 (p_pdo p) /\ is_u16 (p_index p) /\ is_u8 (p_sub p);
  pw_bits : 1 <= p_bits p <= 0xFFFF
}.
Record coe_wf (c : ecm_eni_coe_t) : Prop := {
  cw_trans : 0 < c_trans c < 32768;
  cw_ccs : c_ccs c = ECM_ENI_CCS_DOWNLOAD \/ c_ccs c = ECM_ENI_CCS_UPLOAD;
  cw_object : is_u16 (c_index c) /\ is_u8 (c_sub c) /\ flag (c_ca c);
  cw_timeout : 0 <= c_timeout_ms c <= 600000;
  cw_data : Z.of_nat (length (c_data c)) <= ECM_ENI_MAX_DATA /\ bytes (c_data c);
  cw_download : c_ccs c = ECM_ENI_CCS_DOWNLOAD -> c_data c <> []
}.

(** The entries of a configuration under construction.  [big rec] says that
    some record [rec] of the text has a position of 2^31 or more, which the
    comparison with the number of slaves takes for a negative one. *)
Record eni_inv (big : string -> Prop) (e : ecm_eni_t) : Prop := {
  ei_source : (length (source e) < 128)%nat;
  ei_cycle : is_u32 (cycle_us e);
  ei_pd_cmd : 0 <= pd_cmd e <= 3;
  ei_slaves : nslaves e <= ECM_ENI_MAX_SLAVES;
  ei_slave : forall i s, slave e !! i = Some s -> sl_pos s = Z.of_nat i + 1 /\ slave_wf s;
  ei_regs : nreg e <= ECM_ENI_MAX_REG;
  ei_reg : forall r, r ∈ reg e -> reg_wf r /\ (big "reg"%string \/ 0 <= r_pos r <= nslaves e);
  ei_pdos : npdo e <= ECM_ENI_MAX_PDO;
  ei_pdo : forall p, p ∈ pdo e -> pdo_wf p /\ (big "pdo"%string \/ 1 <= p_pos p <= nslaves e);
  ei_coes : ncoe e <= ECM_ENI_MAX_COE;
  ei_coe : forall c, c ∈ coe e -> coe_wf c /\ (big "coe"%string \/ 1 <= c_pos c <= nslaves e)
}.

Definition big_position (text : str) (rec : string) : Prop :=
  exists line t v rest, line ∈ split_lines [] text /\ tokenize line = s_ rec :: t :: rest /\
    parse_u32 t = Some v /\ 2147483648 <= v.

(** Bits of all entries of a slave in one direction. *)
Definition sum_bits (pos d : Z) (l : list ecm_eni_pdo_t) : Z :=
  foldr Z.add 0 (p_bits <$> filter (fun p => p_pos p = pos /\ p_dir p = d) l).

(** What a configuration the reader accepts satisfies. *)
Record eni_wf (big : string -> Prop) (e : ecm_eni_t) : Prop := {
  ew_inv : eni_inv big e;
  ew_version : version e = 1 \/ version e = 2;
  ew_pd_cmd : version e = 2 -> pd_cmd e <> ECM_ENI_PD_UNKNOWN;
  ew_slaves : 1 <= nslaves e;
  ew_sums : pdo e <> [] -> forall i s, slave e !! i = Some s ->
    sum_bits (sl_pos s) 0 (pdo e) = osize_bits s /\ sum_bits (sl_pos s) 1 (pdo e) = isize_bits s;
  ew_refs : total refclock (slave e) <= 1;
  ew_dcs : total dc (slave e) <> 0 -> total refclock (slave e) = 1
}.

(** ** Lemmas on the readers *)

Lemma bind_ok {A B} (f : A -> res B) (m : res A) b : m ≫= f = Ok b -> exists a, m = Ok a /\ f a = Ok b.
Proof. destruct m as [a|e]; cbn; [eauto|done]. Qed.
Lemma check_ok b e u : check b e = Ok u -> b = false.
Proof. by destruct b. Qed.

(** Open every successful step of a reader. *)
Ltac inv_res :=
  repeat match goal with
  | H : check _ _ = Ok _ |- _ => apply check_ok in H
  | H : (_ ≫= _) = Ok _ |- _ =>
      let x := fresh "x" in let E := fresh "E" in apply bind_ok in H as (x & E & H); cbv beta in H
  | H : Ok _ = Ok _ |- _ => injection H as H
  | H : Err _ = Ok _ |- _ => discriminate H
  end.

Lemma parse_u32_range s v : parse_u32 s = Some v -> is_u32 v.
Proof. unfold parse_u32. repeat case_match; intros [= <-]. auto with ecm. Qed.
Lemma parse_i32_range s v : parse_i32 s = Some v -> is_i32 v.
Proof. unfold parse_i32. repeat case_match; intros [= <-]. auto with ecm. Qed.
Lemma need_u32_range lineno tok key maxv v : need_u32 lineno tok key maxv = Ok v -> 0 <= v <= maxv /\ is_u32 v.
Proof.
  unfold need_u32. destruct (kv _ _) as [t|]; [|done]. destruct (parse_u32 t) as [w|] eqn:E; [|done].
  apply parse_u32_range in E. case_if; [done|]. intros [= <-]. bprop. clia.
Qed.
Lemma position_ok lineno tok bad v :
  position lineno tok bad = Ok v -> exists t, tok !! 1%nat = Some t /\ parse_u32 t = Some v /\ bad v = false /\ is_u32 v.
Proof.
  unfold position. destruct (tok !! 1%nat) as [t|]; [|done]. destruct (parse_u32 t) as [w|] eqn:E; [|done].
  case_if; [done|]. intros [= <-]. exists t. split_and!; [done..|]. by apply parse_u32_range in E.
Qed.

(** Opens the range of every field the reader has asked for. *)
Ltac ranges :=
  repeat match goal with
  | H : need_u32 _ _ _ _ = Ok _ |- _ => apply need_u32_range in H as [? ?]
  | H : position _ _ _ = Ok _ |- _ => apply position_ok in H as (? & ? & ? & ? & ?)
  end.

Lemma index_of_range i tok names j : index_of i tok names = Some j -> i <= j < i + Z.of_nat (length names).
Proof.
  revert i. induction names as [|n names IH]; intros i; cbn [index_of length]; [done|].
  case_if; [intros [= <-]; lia|]. intros H%IH. lia.
Qed.
Lemma lor_below a b n : 0 <= n -> 0 <= a < 2 ^ n -> 0 <= b < 2 ^ n -> 0 <= Z.lor a b < 2 ^ n.
Proof.
  intros Hn Ha Hb. assert (0 <= Z.lor a b) by (apply Z.lor_nonneg; lia). split; [done|].
  destruct (Z.eq_dec (Z.lor a b) 0) as [->|E]; [lia|]. apply Z.log2_lt_pow2; [lia|]. rewrite Z.log2_lor by lia.
  destruct (Z.eq_dec a 0) as [->|]; destruct (Z.eq_dec b 0) as [->|]; [by cbn in E|..].
  - apply Z.max_lub_lt; [|apply Z.log2_lt_pow2; lia]. cbn. destruct (Z.eq_dec n 0) as [->|]; [lia|lia].
  - apply Z.max_lub_lt; [apply Z.log2_lt_pow2; lia|]. cbn. destruct (Z.eq_dec n 0) as [->|]; [lia|lia].
  - apply Z.max_lub_lt; apply Z.log2_lt_pow2; lia.
Qed.
Lemma trans_step_range m i : 0 <= m < 32768 -> 0 <= i < 15 -> 0 <= Z.lor m (Z.shiftl 1 i) < 32768.
Proof.
  intros Hm Hi. apply (lor_below _ _ 15); [lia|done|]. rewrite Z.shiftl_1_l.
  split; [apply Z.pow_nonneg; lia|apply Z.pow_lt_mono_r; lia].
Qed.
Lemma trans_loop_range toks m : 0 <= m < 32768 -> 0 <= trans_loop m toks < 32768.
Proof.
  revert m. induction toks as [|t toks IH]; intros m Hm; cbn [trans_loop]; [done|].
  destruct (index_of 0 t TRANS_NAMES) as [i|] eqn:Ei; [|lia]. apply index_of_range in Ei. change (length TRANS_NAMES) with 15%nat in Ei.
  pose proof (trans_step_range m i Hm ltac:(lia)). apply IH. unfold u16. by rewrite Z.mod_small by lia.
Qed.
Lemma trans_parse_range l : 0 <= ecm_eni_trans_parse l < 32768.
Proof.
  destruct l as [l|]; unfold ecm_eni_trans_parse; [|lia]. destruct (64 <=? length l)%nat; [lia|]. apply trans_loop_range. lia.
Qed.

Lemma hex_loop_bytes s out : hex_loop s = Some out -> bytes out /\ (2 * length out <= length s)%nat.
Proof.
  revert out. enough (H : forall n s, (length s <= n)%nat -> forall out, hex_loop s = Some out -> bytes out /\ (2 * length out <= length s)%nat)
    by (intros out; apply (H (length s)); lia). clear s.
  induction n as [|n IH]; intros [|a [|b s]] Hn out; cbn [length hex_loop] in *; try (intros [= <-]; split; [constructor|cbn; lia]); [lia|].
  case_if; [done|]. destruct (hex_loop s) as [o|] eqn:Eo; cbn; [|done]. intros [= <-].
  destruct (IH s ltac:(lia) o Eo) as [Hb Hl]. split; [|cbn; lia]. constructor; [auto with ecm|done].
Qed.
Lemma hexbytes_ok s max out : 0 <= max -> hexbytes s max = Some out -> Z.of_nat (length out) <= max /\ bytes out.
Proof.
  intros Hm. unfold hexbytes. case_if; [intros [= <-]; split; [cbn; lia|constructor]|].
  case_if; [done|]. bprop. intros [Hb Hl]%hex_loop_bytes. split; [|done]. clia.
Qed.

Lemma state_loop_ok lineno tok keys vs :
  state_loop lineno tok keys = Ok vs -> length vs = length keys /\ Forall (fun v => 0 <= v <= 600000) vs.
Proof.
  revert vs. induction keys as [|k keys IH]; intros vs H; cbn [state_loop] in H; inv_res; subst; [done|].
  apply IH in E0 as [Hl Hf]. split; [cbn; lia|]. constructor; [|done].
  destruct (kv _ _) as [t|]; [|injection E as <-; lia]. destruct (parse_u32 t) as [v|] eqn:Ev; [|done].
  apply parse_u32_range in Ev. case_if_in E; [done|]. injection E as <-. bprop. clia.
Qed.

(** A position below 2^31 that is at most the number of slaves is kept as it is. *)
Lemma position_kept v n : is_u32 v -> 0 <= n <= 64 -> n < i32 v \/ 2147483648 <= v \/ (u16 v = v /\ i32 v = v).
Proof. intros. clia. Qed.

(** ** The invariant of the file reader *)
Section inv.
Context (big : string -> Prop).

Lemma inv_add_slave e s : eni_inv big e -> nslaves e < ECM_ENI_MAX_SLAVES -> slave_wf s -> sl_pos s = nslaves e + 1 ->
  eni_inv big (e <| slave ::= fun l => l ++ [s] |>).
Proof.
  intros [] Hn Hw Hp. destruct e; cbn in *. unfold nslaves, nreg, npdo, ncoe in *. cbn in *.
  assert (Hmono : forall A k z, (A \/ k <= z <= Z.of_nat (length slave0)) -> (A \/ k <= z <= Z.of_nat (length (slave0 ++ [s])))).
  { intros A k z [?|?]; [by left|right]. rewrite length_app. cbn. lia. }
  constructor; unfold nslaves, nreg, npdo, ncoe; cbn; try done.
  - rewrite length_app. cbn. lia.
  - intros i t [H|[Hi H]]%lookup_app_Some; [by apply ei_slave0|].
    apply list_lookup_singleton_Some in H as [Hi0 <-]. split; [|done]. lia.
  - intros r [? ?]%ei_reg0. auto.
  - intros p [? ?]%ei_pdo0. auto.
  - intros c [? ?]%ei_coe0. auto.
Qed.

Lemma inv_add_reg e r : eni_inv big e -> nreg e < ECM_ENI_MAX_REG -> reg_wf r ->
  big "reg"%string \/ 0 <= r_pos r <= nslaves e -> eni_inv big (e <| reg ::= fun l => l ++ [r] |>).
Proof.
  intros [] Hn Hw Hp. destruct e; constructor; unfold nslaves, nreg, npdo, ncoe in *; cbn in *; try done.
  - rewrite length_app. cbn. lia.
  - intros r' [H| ->%list_elem_of_singleton]%elem_of_app; auto.
Qed.
Lemma inv_add_pdo e p : eni_inv big e -> npdo e < ECM_ENI_MAX_PDO -> pdo_wf p ->
  big "pdo"%string \/ 1 <= p_pos p <= nslaves e -> eni_inv big (e <| pdo ::= fun l => l ++ [p] |>).
Proof.
  intros [] Hn Hw Hp. destruct e; constructor; unfold nslaves, nreg, npdo, ncoe in *; cbn in *; try done.
  - rewrite length_app. cbn. lia.
  - intros r' [H| ->%list_elem_of_singleton]%elem_of_app; auto.
Qed.
Lemma inv_add_coe e c : eni_inv big e -> ncoe e < ECM_ENI_MAX_COE -> coe_wf c ->
  big "coe"%string \/ 1 <= c_pos c <= nslaves e -> eni_inv big (e <| coe ::= fun l => l ++ [c] |>).
Proof.
  intros [] Hn Hw Hp. destruct e; constructor; unfold nslaves, nreg, npdo, ncoe in *; cbn in *; try done.
  - rewrite length_app. cbn. lia.
  - intros r' [H| ->%list_elem_of_singleton]%elem_of_app; auto.
Qed.

Lemma flag_range z : 0 <= z <= 1 -> flag (u8 z) /\ u8 z = z.
Proof. intros. unfold flag. clia. Qed.

Lemma parse_slave_inv tok lineno e e' : eni_inv big e -> parse_slave tok lineno e = Ok e' -> eni_inv big e' /\ version e' = version e.
Proof.
  intros Hi H. unfold parse_slave in H. cbv zeta in H. inv_res. subst e'. split; [|reflexivity]. ranges.
  bprop. pose proof (ei_slaves _ _ Hi). unfold ECM_ENI_MAX_SLAVES in *.
  assert (Hps : u16 x = nslaves e + 1) by (unfold nslaves in *; clia).
  apply state_loop_ok in E14 as [Hsl Hst].
  assert (Hsh : is_i32 x13).
  { destruct (kv _ (s_ "shift_ns")) as [t|]; [|done]. destruct (parse_i32 t) eqn:Et; [|done].
    injection E13 as <-. by apply parse_i32_range in Et. }
  destruct (flag_range x8) as [F8 U8]; [done|]. destruct (flag_range x9) as [F9 U9]; [done|].
  apply inv_add_slave; [done|unfold ECM_ENI_MAX_SLAVES; clia| |done].
  constructor; cbn; rewrite ?U8, ?U9 in *; split_and?; auto with ecm; try lia.
  - rewrite length_take. lia.
  - by apply flag_range.
  - intros ->. apply andb_false_iff in E15 as [E15|E15]; bprop; [done|]. split; [done|]. clia.
Qed.

(** The position of a record that only has to be a declared one. *)
Lemma declared_position lineno tok e lo rec v :
  eni_inv big e -> 0 <= lo -> position lineno tok (fun pos => (pos <? lo) || (nslaves e <? i32 pos)) = Ok v ->
  (forall t v, tok !! 1%nat = Some t -> parse_u32 t = Some v -> 2147483648 <= v -> big rec) ->
  big rec \/ lo <= u16 v <= nslaves e.
Proof.
  intros Hi Hlo (t & Ht & Hv & Hb & Hu)%position_ok Hbig. bprop.
  pose proof (ei_slaves _ _ Hi) as Hs. unfold ECM_ENI_MAX_SLAVES, nslaves in *.
  destruct (position_kept v (Z.of_nat (length (slave e))) Hu) as [?|[Hv2|[E1 E2]]]; [lia|lia|left; eauto|right; lia].
Qed.

Lemma parse_reg_inv tok lineno e e' :
  eni_inv big e -> (forall t v, tok !! 1%nat = Some t -> parse_u32 t = Some v -> 2147483648 <= v -> big "reg"%string) ->
  parse_reg tok lineno e = Ok e' -> eni_inv big e' /\ version e' = version e.
Proof.
  intros Hi Hbig H. unfold parse_reg in H. cbv zeta in H. inv_res.
  destruct (kv _ (s_ "data")) as [d|]; [|done]. destruct (hexbytes d _) as [data|] eqn:Ed; [|done]. inv_res. subst e'. split; [|reflexivity].
  apply hexbytes_ok in Ed as [Hl Hb]; [|done].
  assert (Hp : position lineno tok (fun pos => (pos <? 0) || (nslaves e <? i32 pos)) = Ok x).
  { apply position_ok in E as (t & Ht & Hv & Hx & Hu). unfold position. rewrite Ht, Hv, Hx.
    replace (x <? 0) with false by (symmetry; apply Z.ltb_ge; clia). done. }
  apply (declared_position _ _ _ _ "reg") in Hp; [|done..]. clear E. ranges.
  pose proof (trans_parse_range (kv (drop 2 tok) (s_ "trans"))). bprop.
  apply inv_add_reg; [done|done| |done]. constructor; cbn; split_and?; auto with ecm; try lia; clia.
Qed.

Lemma parse_pdo_inv tok lineno e e' :
  eni_inv big e -> (forall t v, tok !! 1%nat = Some t -> parse_u32 t = Some v -> 2147483648 <= v -> big "pdo"%string) ->
  parse_pdo tok lineno e = Ok e' -> eni_inv big e' /\ version e' = version e.
Proof.
  intros Hi Hbig H. unfold parse_pdo in H. inv_res. subst e'. split; [|reflexivity].
  apply (declared_position _ _ _ _ "pdo") in E; [|done..]. ranges. bprop.
  apply inv_add_pdo; [done|done| |done]. constructor; cbn; split_and?; auto with ecm; try lia; [|clia..].
  destruct (kv _ (s_ "dir")) as [d|]; [|done]. case_if_in E1; [done|]. injection E1 as <-. unfold flag, b2z. case_if; auto.
Qed.

Lemma parse_coe_inv tok lineno e e' :
  eni_inv big e -> (forall t v, tok !! 1%nat = Some t -> parse_u32 t = Some v -> 2147483648 <= v -> big "coe"%string) ->
  parse_coe tok lineno e = Ok e' -> eni_inv big e' /\ version e' = version e.
Proof.
  intros Hi Hbig H. unfold parse_coe in H. cbv zeta in H. inv_res.
  destruct (kv _ (s_ "data")) as [d|]; [|done]. destruct (hexbytes d _) as [data|] eqn:Ed; [|done]. inv_res. subst e'. split; [|reflexivity].
  apply hexbytes_ok in Ed as [Hl Hb]; [|done].
  apply (declared_position _ _ _ _ "coe") in E; [|done..]. ranges.
  pose proof (trans_parse_range (kv (drop 2 tok) (s_ "trans"))). bprop.
  apply inv_add_coe; [done|done| |done]. constructor; cbn; split_and?; auto with ecm; try lia.
  - by apply flag_range.
  - intros Hd ->. rewrite Hd in E8. done.
Qed.

(** State of the reader between two lines. *)
Record pinv (s : pstate) : Prop := {
  pi_inv : eni_inv big (ps_eni s);
  pi_version : have_version s = true -> version (ps_eni s) = 1 \/ version (ps_eni s) = 2;
  pi_declared : declared s = -1 \/ 1 <= declared s <= ECM_ENI_MAX_SLAVES
}.

Lemma pinv0 : pinv pstate0.
Proof.
  constructor; [|done|by left]. constructor; unfold nslaves, nreg, npdo, ncoe; cbn; try lia;
    unfold is_u32, ECM_ENI_MAX_SLAVES, ECM_ENI_MAX_REG, ECM_ENI_MAX_PDO, ECM_ENI_MAX_COE; try lia;
    try (intros ? Hx; by apply not_elem_of_nil in Hx); done.
Qed.

(** Replacing a field the entries do not depend on. *)
Lemma inv_same_entries e e' : eni_inv big e -> reg e' = reg e -> pdo e' = pdo e -> slave e' = slave e -> coe e' = coe e ->
  (length (source e') < 128)%nat -> is_u32 (cycle_us e') -> 0 <= pd_cmd e' <= 3 -> eni_inv big e'.
Proof.
  intros [] E1 E2 E3 E4 ? ? ?. constructor; unfold nslaves, nreg, npdo, ncoe in *; rewrite ?E1, ?E2, ?E3, ?E4; done.
Qed.

Lemma with_eni_inv s r s' : pinv s ->
  (forall e, r = Ok e -> eni_inv big e /\ version e = version (ps_eni s)) -> with_eni s r = Ok s' -> pinv s'.
Proof.
  intros [] Hr H. unfold with_eni in H. inv_res. subst s'. destruct (Hr x E) as [Hi Hv].
  constructor; cbn; [done|rewrite Hv; done|done].
Qed.

Lemma streq_true a b : streq a b = true -> a = b.
Proof. apply bool_decide_eq_true_1. Qed.
Lemma declared_range v : is_u32 v -> (v =? 0) || (ECM_ENI_MAX_SLAVES <? v) = false -> 1 <= i32 v <= ECM_ENI_MAX_SLAVES.
Proof. unfold ECM_ENI_MAX_SLAVES. intros Hu Hb. bprop. clia. Qed.

Lemma parse_record_inv s lineno tok s' : pinv s ->
  (forall rec t v, tok !! 0%nat = Some (s_ rec) -> tok !! 1%nat = Some t -> parse_u32 t = Some v -> 2147483648 <= v -> big rec) ->
  tok <> [] -> parse_record s lineno tok = Ok s' -> pinv s'.
Proof.
  intros Hs Hbig Hne H. destruct tok as [|t0 tok]; [done|]. clear Hne. unfold parse_record in H. cbv zeta in H.
  change (default [] ((t0 :: tok) !! 0%nat)) with t0 in H. set (tok1 := default [] ((t0 :: tok) !! 1%nat)) in H. clearbody tok1.
  destruct (streq t0 (s_ "enicfg")).
  { case_if_in H; [done|]. inv_res. subst s'. destruct Hs. constructor; [|intros _; cbn|done].
    - cbn. eapply inv_same_entries; [done..| | |]; cbn; apply pi_inv0.
    - apply orb_false_iff in E as [_ E]. apply andb_false_iff in E as [->%negb_false_iff%streq_true| ->%negb_false_iff%streq_true]; auto. }
  destruct (negb (have_version s)); [done|].
  destruct (streq t0 (s_ "source") && _).
  { inv_res. subst s'. destruct Hs. constructor; [|done..]. cbn. eapply inv_same_entries; [done..| | |]; cbn; try apply pi_inv0.
    rewrite length_take. lia. }
  destruct (streq t0 (s_ "cycle_us") && _).
  { destruct (parse_u32 tok1) as [v|] eqn:Ev; [|done]. apply parse_u32_range in Ev. inv_res. subst s'. destruct Hs.
    constructor; [|done..]. cbn. eapply inv_same_entries; [done..| | |]; cbn; try apply pi_inv0. done. }
  destruct (streq t0 (s_ "slaves") && _).
  { destruct (parse_u32 tok1) as [v|] eqn:Ev; [|done]. apply parse_u32_range in Ev. case_if_in H; [done|]. inv_res. subst s'.
    destruct Hs. constructor; [done..|]. right. cbn. by apply declared_range. }
  destruct (streq t0 (s_ "slave")).
  { eapply with_eni_inv; [done| |done]. intros e. apply parse_slave_inv, Hs. }
  destruct (streq t0 (s_ "coe")) eqn:E0.
  { apply streq_true in E0 as ->. eapply with_eni_inv; [done| |done]. intros e. apply parse_coe_inv; [apply Hs|]. intros t v. by apply Hbig. }
  destruct (streq t0 (s_ "pdo") && _) eqn:E1.
  { bprop. apply streq_true in H0 as ->. eapply with_eni_inv; [done| |done]. intros e. apply parse_pdo_inv; [apply Hs|]. intros t v. by apply Hbig. }
  destruct (streq t0 (s_ "reg") && _) eqn:E2.
  { bprop. apply streq_true in H0 as ->. eapply with_eni_inv; [done| |done]. intros e. apply parse_reg_inv; [apply Hs|]. intros t v. by apply Hbig. }
  destruct (_ && _ && _); [|done].
  repeat case_if_in H; inv_res; subst s'; destruct Hs; (constructor; [|done..]); cbn;
    (eapply inv_same_entries; [done..| | |]; cbn; try apply pi_inv0; done).
Qed.
End inv.

Lemma parse_lines_inv text lines : (forall line, line ∈ lines -> line ∈ split_lines [] text) ->
  forall s lineno s', pinv (big_position text) s -> parse_lines s lineno lines = Ok s' -> pinv (big_position text) s'.
Proof.
  induction lines as [|line lines IH]; intros Hin s lineno s' Hs H; cbn [parse_lines] in H; inv_res; [by subst|].
  eapply IH; [intros; apply Hin; by apply list_elem_of_further| |done]. clear H. unfold parse_line in E. case_if_in E; [done|].
  destruct (tokenize line) as [|t0 tok] eqn:Et; cbv zeta in E; [inv_res; by subst|]. case_if_in E; [inv_res; by subst|].
  eapply (parse_record_inv _ _ _ (t0 :: tok)); [done| |done|done]. intros rec t v Hr Ht Hv Hb.
  cbn in Hr. injection Hr as ->. destruct tok as [|t1 tok]; [done|]. cbn in Ht. injection Ht as ->.
  exists line, t, v, tok. split_and!; [apply Hin, list_elem_of_here|done..].
Qed.

Lemma sum_bits_cons pos d p l :
  sum_bits pos d (p :: l) = (if bool_decide (p_pos p = pos /\ p_dir p = d) then p_bits p else 0) + sum_bits pos d l.
Proof. unfold sum_bits. rewrite filter_cons. case_decide as E; [rewrite bool_decide_eq_true_2 by done|rewrite bool_decide_eq_false_2 by done]; done. Qed.

(** The 32-bit sums cannot wrap: 1024 entries of at most 65535 bits. *)
Lemma pdo_bits_sum pos d l acc :
  (forall p, p ∈ l -> pdo_wf p) -> 0 <= acc -> acc + 65535 * Z.of_nat (length l) < 4294967296 ->
  pdo_bits pos d acc l = acc + sum_bits pos (b2z d) l.
Proof.
  revert acc. induction l as [|p l IH]; intros acc Hw Ha Hb; cbn [pdo_bits]; [unfold sum_bits; cbn; lia|].
  cbn [length] in Hb. destruct (Hw p) as [Hd _ Hbits]; [apply list_elem_of_here|].
  assert (Hc : (p_pos p =? pos) && Bool.eqb (negb (p_dir p =? 0)) d = bool_decide (p_pos p = pos /\ p_dir p = b2z d)).
  { destruct (bool_decide_reflect (p_pos p = pos /\ p_dir p = b2z d)) as [[-> ->]|Hn]; [rewrite Z.eqb_refl; by destruct d|].
    destruct (Z.eqb_spec (p_pos p) pos) as [Hp|]; [|done].
    destruct Hd as [E|E], d; rewrite E in *; try done; exfalso; by apply Hn. }
  rewrite sum_bits_cons, Hc. case_if.
  - assert (u32 (acc + p_bits p) = acc + p_bits p) as -> by clia. rewrite IH; [lia|intros; apply Hw; by apply list_elem_of_further|lia|lia].
  - rewrite IH; [lia|intros; apply Hw; by apply list_elem_of_further|lia|lia].
Qed.

Lemma check_sums_ok i pdos l u : check_sums i pdos l = Ok u -> forall k s, l !! k = Some s ->
  pdo_bits (i + Z.of_nat k + 1) false 0 pdos = osize_bits s /\ pdo_bits (i + Z.of_nat k + 1) true 0 pdos = isize_bits s.
Proof.
  revert i. induction l as [|s l IH]; intros i H k t Hk; [done|]. cbn [check_sums] in H. cbv zeta in H. inv_res. bprop.
  destruct k as [|k]; cbn in Hk.
  - injection Hk as <-. replace (i + Z.of_nat 0 + 1) with (i + 1) by lia. done.
  - replace (i + Z.of_nat (S k) + 1) with (i + 1 + Z.of_nat k + 1) by lia. by apply (IH (i + 1)).
Qed.

Lemma parse_end_wf big s e : pinv big s -> parse_end s = Ok e -> eni_wf big e.
Proof.
  intros [Hi Hv Hd] H. unfold parse_end in H. cbv zeta in H. inv_res. subst e. apply negb_false_iff in E.
  apply negb_false_iff, Z.eqb_eq in E2. specialize (Hv E).
  constructor; [done|done|..].
  - intros H2 Hp. rewrite H2, Hp in E0. done.
  - unfold nslaves in *. lia.
  - intros Hne i t Ht. destruct (ei_slave _ _ Hi i t Ht) as [-> _].
    assert (npdo (ps_eni s) <> 0) by (unfold npdo; destruct (pdo (ps_eni s)); cbn; [done|lia]).
    rewrite (proj2 (Z.eqb_neq _ _)) in E1 by done. destruct (check_sums_ok _ _ _ _ E1 i t Ht) as [<- <-].
    pose proof (ei_pdos _ _ Hi). unfold npdo, ECM_ENI_MAX_PDO in *.
    split; symmetry; rewrite pdo_bits_sum; try (intros p Hp; by apply (ei_pdo _ _ Hi)); try lia; cbn; f_equal; lia.
  - bprop. lia.
  - intros Hdc. apply orb_false_iff in E3 as [_ E3]. apply andb_false_iff in E3 as [E3|E3]; bprop; [done|lia].
Qed.

Lemma parse_text_wf text e : ecm_eni_parse_text text = Ok e -> eni_wf (big_position text) e.
Proof.
  unfold ecm_eni_parse_text. intros H. inv_res. eapply parse_end_wf; [|done]. eapply parse_lines_inv; [done|apply pinv0|done].
Qed.

(** C37: A text the reader accepts gives a well-formed configuration: a known
    version with its process data command, one record per slave in bus order
    with every field in its range and a complete DC setting, all capacities
    kept, PDO entries that add up to the sizes of each slave, and positions of
    the other records that name a declared slave unless the text itself has a
    position of 2^31 or more. *)
Theorem eni_parse_wf text e : ecm_eni_parse_text text = Ok e -> eni_wf (big_position text) e.
Proof. apply parse_text_wf. Qed.
Lemma eni_parse_wf_witness : ecm_eni_parse_text demo_text = Ok demo_eni /\ eni_wf (big_position demo_text) demo_eni.
Proof. split; [|apply eni_parse_wf]; vm_compute; reflexivity. Defined.

(** ** The reference clock *)

Lemma total_nonneg f l : (forall s, s ∈ l -> flag (f s)) -> 0 <= total f l.
Proof.
  induction l as [|s l IH]; intros Hf; cbn; [done|]. destruct (Hf s) as [-> | ->]; [apply list_elem_of_here|..];
    specialize (IH ltac:(intros; apply Hf; by apply list_elem_of_further)); unfold total in IH; lia.
Qed.
Lemma total_zero f l : (forall s, s ∈ l -> flag (f s)) -> total f l = 0 <-> forall s, s ∈ l -> f s = 0.
Proof.
  induction l as [|s l IH]; intros Hf; [split; [intros _ s []%not_elem_of_nil|done]|].
  assert (Hl : forall t, t ∈ l -> flag (f t)) by (intros; apply Hf; by apply list_elem_of_further).
  pose proof (total_nonneg f l Hl). specialize (IH Hl). change (total f (s :: l)) with (f s + total f l).
  pose proof (Hf s ltac:(apply list_elem_of_here)) as Hs. split.
  - intros E t [-> | Ht]%elem_of_cons; [destruct Hs; lia|]. apply IH; [destruct Hs; lia|done].
  - intros E. rewrite (E s) by apply list_elem_of_here. rewrite (proj2 IH); [done|]. intros. apply E. by apply list_elem_of_further.
Qed.

Lemma refclock_loop_spec l i : (forall s, s ∈ l -> flag (refclock s)) -> total refclock l <= 1 -> 0 <= i ->
  (refclock_loop i l = 0 <-> total refclock l = 0) /\
  (refclock_loop i l = 0 \/ i < refclock_loop i l) /\
  forall k s, l !! k = Some s -> (refclock s = 1 <-> refclock_loop i l = i + Z.of_nat k + 1).
Proof.
  revert i. induction l as [|s l IH]; intros i Hf Ht Hi; [split_and!; [done|by left|done]|].
  assert (Hl : forall t, t ∈ l -> flag (refclock t)) by (intros; apply Hf; by apply list_elem_of_further).
  change (total refclock (s :: l)) with (refclock s + total refclock l) in *.
  pose proof (total_nonneg refclock l Hl) as Hn. cbn [refclock_loop].
  destruct (Hf s ltac:(apply list_elem_of_here)) as [Es|Es]; rewrite Es in *; cbn [Z.eqb negb].
  - destruct (IH (i + 1) Hl ltac:(lia) ltac:(lia)) as (H1 & H2 & H3). split_and!; [lia|lia|].
    intros [|k] t Hk; [injection Hk as <-; lia|]. rewrite (H3 k t Hk). lia.
  - split_and!; [lia|lia|]. intros [|k] t Hk; [injection Hk as <-; lia|].
    assert (refclock t = 0); [|lia]. apply (total_zero refclock l Hl); [lia|]. exact (list_elem_of_lookup_2 l k t Hk).
Qed.

(** A configuration the reader accepts has a reference clock exactly
    when it has a DC slave, it is unique, and ecm_eni_refclock finds it. *)
Theorem eni_reference_clock text e : ecm_eni_parse_text text = Ok e ->
  (forall i s, slave e !! i = Some s -> refclock s = 1 <-> ecm_eni_refclock e = Z.of_nat i + 1) /\
  (ecm_eni_refclock e = 0 <-> forall s, s ∈ slave e -> dc s = 0).
Proof.
  intros Hw%parse_text_wf. pose proof (ew_inv _ _ Hw) as Hi.
  assert (Hs : forall s, s ∈ slave e -> slave_wf s) by (intros s [i Hk]%list_elem_of_lookup; by destruct (ei_slave _ _ Hi i s Hk)).
  destruct (refclock_loop_spec (slave e) 0) as (H1 & H2 & H3); [intros s ?; by apply (sw_dc s), Hs|apply Hw|lia|].
  split; [exact H3|]. unfold ecm_eni_refclock. rewrite H1.
  rewrite <- (total_zero dc) by (intros s ?; by apply (sw_dc s), Hs). pose proof (ew_dcs _ _ Hw) as Hd. split; [intros E; lia|].
  rewrite !total_zero by (intros s ?; by apply (sw_dc s), Hs). intros Hz s Hs'. specialize (Hz s Hs').
  destruct (proj2 (sw_dc _ (Hs s Hs'))) as [|Er]; [done|]. apply (sw_ref_dc _ (Hs s Hs')) in Er. lia.
Qed.
Lemma eni_reference_clock_witness : ecm_eni_parse_text demo_text = Ok demo_eni /\
  (ecm_eni_refclock demo_eni = 0 <-> forall s, s ∈ slave demo_eni -> dc s = 0).
Proof. split; [|apply (eni_reference_clock demo_text)]; vm_compute; reflexivity. Defined.

(** ** The checks against the bus *)

Lemma count_bad_nonneg bad es fs : 0 <= count_bad bad es fs.
Proof. revert fs. induction es as [|e es IH]; intros [|f fs]; cbn; try lia. specialize (IH fs). unfold b2z. case_if; lia. Qed.
Lemma count_bad_zero bad es fs : count_bad bad es fs = 0 <->
  forall k e f, es !! k = Some e -> fs !! k = Some f -> bad e f = false.
Proof.
  revert fs. induction es as [|e es IH]; intros [|f fs]; cbn [count_bad]; try (split; [intros _ [|k] ? ? ? ?; done|done]).
  pose proof (count_bad_nonneg bad es fs). specialize (IH fs). split.
  - intros E [|k] e' f' He Hf; cbn in He, Hf.
    + injection He as <-. injection Hf as <-. unfold b2z in E. destruct (bad e f); [lia|done].
    + eapply IH; [|done..]. unfold b2z in E. destruct (bad e f); lia.
  - intros Hb. rewrite (Hb 0%nat e f) by done. cbn. apply IH. intros k e' f'. apply (Hb (S k)).
Qed.

(** The identity and layout checks pass exactly on the bus the
    configuration describes: the same number of slaves, at every position the
    same vendor, product and, where asked, revision; after mapping the same
    process data sizes. *)
Theorem eni_bus_checks_exact e found :
  (ecm_eni_check_identity e found = 0 <->
     Z.of_nat (length found) = nslaves e /\
     forall k s f, slave e !! k = Some s -> found !! k = Some f ->
       f_vendor f = vendor s /\ f_product f = product s /\ (check_rev s <> 0 -> f_rev f = sl_rev s)) /\
  (ecm_eni_check_layout e found = 0 <->
     Z.of_nat (length found) = nslaves e /\
     forall k s f, slave e !! k = Some s -> found !! k = Some f -> obits f = osize_bits s /\ ibits f = isize_bits s).
Proof.
  assert (Hc : forall bad (P : ecm_eni_slave_t -> ecm_eni_found_t -> Prop), (forall s f, bad s f = false <-> P s f) ->
    b2z (negb (Z.of_nat (length found) =? nslaves e)) + count_bad bad (slave e) found = 0 <->
    Z.of_nat (length found) = nslaves e /\ forall k s f, slave e !! k = Some s -> found !! k = Some f -> P s f).
  { intros bad P HP. pose proof (count_bad_nonneg bad (slave e) found) as Hn. pose proof (count_bad_zero bad (slave e) found) as Hz.
    setoid_rewrite HP in Hz. rewrite <- Hz. unfold b2z. destruct (Z.eqb_spec (Z.of_nat (length found)) (nslaves e)); cbn; lia. }
  split; apply Hc; intros s f.
  - unfold identity_bad. rewrite !orb_false_iff, andb_false_iff, !negb_false_iff, !Z.eqb_eq. destruct (Z.eq_dec (check_rev s) 0); tauto.
  - unfold layout_bad. by rewrite orb_false_iff, !negb_false_iff, !Z.eqb_eq.
Qed.

(** ** What the master supports *)

Lemma known_loop_spec r kind l : NoDup (fst <$> (fst <$> l)) -> known_loop r kind l = true <->
  exists kinds zero_only, (r_ado r, kinds, zero_only) ∈ l /\ Z.land kind kinds <> 0 /\
    (zero_only = true -> kind = K_WR -> Forall (fun b => b = 0) (r_data r)).
Proof.
  assert (Hz : forall data, existsb (fun b => negb (b =? 0)) data = false <-> Forall (fun b => b = 0) data).
  { intros data. rewrite <- not_true_iff_false, existsb_exists, Forall_forall. split.
    - intros H b Hb. destruct (Z.eqb_spec b 0) as [|E]; [done|]. exfalso. apply H. exists b. split; [by apply list_elem_of_In|].
      by apply negb_true_iff, Z.eqb_neq.
    - intros H (b & Hb%list_elem_of_In & E). by rewrite (H b Hb) in E. }
  induction l as [|[[ado kinds] z] l IH]; intros Hnd; cbn [known_loop].
  { split; [done|]. intros (? & ? & []%not_elem_of_nil & _). }
  cbn in Hnd. apply NoDup_cons in Hnd as [Hni Hnd]. destruct (Z.eqb_spec ado (r_ado r)) as [->|Hne]; cbn [negb].
  - assert (Hun : forall k' z', (r_ado r, k', z') ∈ (r_ado r, kinds, z) :: l -> k' = kinds /\ z' = z).
    { intros k' z' [[= -> ->]|Hin]%elem_of_cons; [done|]. exfalso. apply Hni. apply list_elem_of_fmap. exists (r_ado r, k').
      split; [done|]. apply list_elem_of_fmap. by exists (r_ado r, k', z'). }
    destruct (Z.eqb_spec (Z.land kind kinds) 0) as [E|E].
    { split; [done|]. intros (k' & z' & [-> ->]%Hun & ? & _). done. }
    specialize (Hz (r_data r)). destruct (existsb _ (r_data r)) eqn:Eb.
    + split.
      * intros H. exists kinds, z. split_and!; [apply list_elem_of_here|done|]. intros -> ->. by cbn in H.
      * intros (k' & z' & [-> ->]%Hun & _ & Hd). destruct z; [|done]. destruct (Z.eqb_spec kind K_WR) as [->|]; [|done].
        specialize (Hd eq_refl eq_refl). by apply Hz in Hd.
    + rewrite andb_false_r. split; [|done]. intros _. exists kinds, z. split_and!; [apply list_elem_of_here|done|]. intros _ _. by apply Hz.
  - rewrite IH by done. split; intros (k' & z' & Hin & ? & ?); exists k', z'; (split; [|done]).
    + by apply list_elem_of_further.
    + apply elem_of_cons in Hin as [Hh|]; [congruence|done].
Qed.

(** A register InitCmd the master takes care of: its register is in the
    table for that kind of access, and a write to a register that must stay
    at reset is all zero. *)
Definition reg_handled (r : ecm_eni_reg_t) : Prop :=
  exists kinds zero_only, (r_ado r, kinds, zero_only) ∈ KNOWN_REGS /\ Z.land (cmd_kind (r_cmd r)) kinds <> 0 /\
    (zero_only = true -> cmd_kind (r_cmd r) = K_WR -> Forall (fun b => b = 0) (r_data r)).
Lemma reg_known_iff r : ecm_eni_reg_known r = true <-> reg_handled r.
Proof. apply known_loop_spec. apply (bool_decide_eq_true_1 _). vm_compute. reflexivity. Qed.

(** A DC register write of a PREOP -> SAFEOP InitCmd says what the DC element of its slave says. *)
Definition dc_agrees (r : ecm_eni_reg_t) (s : ecm_eni_slave_t) : Prop :=
  (r_ado r = 0x0980 -> 2 <= nkept r -> le16_at r 0 = assign s) /\
  (r_ado r = 0x09A0 -> 4 <= nkept r -> le32_at r 0 = sync0_ns s) /\
  (r_ado r = 0x09A0 -> 8 <= nkept r -> le32_at r 4 = sync1_ns s) /\
  (r_ado r = 0x09A4 -> 4 <= nkept r -> le32_at r 0 = sync1_ns s).
Lemma dc_pairs_spec r s : Forall (fun wg => wg.1 = wg.2) (dc_pairs r s) <-> dc_agrees r s.
Proof.
  unfold dc_pairs, dc_agrees.
  destruct (Z.eqb_spec (r_ado r) 0x0980) as [E|N1]; cbn [andb];
    [|destruct (Z.eqb_spec (r_ado r) 0x09A0) as [E|N2]; cbn [andb]; [|destruct (Z.eqb_spec (r_ado r) 0x09A4) as [E|N3]; cbn [andb]]].
  1-3: rewrite E; repeat case_if; bprop; rewrite ?Forall_cons, ?Forall_nil; cbn [fst snd]; split; intros; split_and?; lia.
  split; [|done]. intros _. split_and!; lia.
Qed.
Definition dc_relevant (r : ecm_eni_reg_t) : Prop :=
  r_pos r <> 0 /\ Z.land (r_trans r) ECM_ENI_T_PS <> 0 /\ cmd_kind (r_cmd r) = K_WR.

Lemma sum_flags_zero {A} (f : A -> bool) l :
  0 <= foldr (fun x a => b2z (negb (f x)) + a) 0 l /\
  (foldr (fun x a => b2z (negb (f x)) + a) 0 l = 0 <-> Forall (fun x => f x = true) l).
Proof.
  induction l as [|x l [IH1 IH2]]; cbn [foldr]; [by rewrite Forall_nil|].
  generalize dependent (foldr (fun x a => b2z (negb (f x)) + a) 0 l). intros n IH1 IH2. rewrite Forall_cons, <- IH2. unfold b2z.
  destruct (f x); cbn [negb]; (split; [lia|]); split; [intros; split; [done|lia]|intros [_ ?]; lia|lia|by intros [[=] _]].
Qed.

Lemma slave_at_declared e i s : nslaves e <= ECM_ENI_MAX_SLAVES -> 1 <= i <= nslaves e ->
  slave_at e (i - 1) = Some s <-> slave e !! Z.to_nat (i - 1) = Some s.
Proof.
  unfold slave_at, nslaves, ECM_ENI_MAX_SLAVES. intros Hn Hi.
  replace ((i - 1 <? 0) || (64 <=? i - 1)) with false by (symmetry; apply orb_false_iff; split; lia).
  destruct (lookup_lt_is_Some_2 (slave e) (Z.to_nat (i - 1))) as [x ->]; [lia|]. done.
Qed.

Lemma dc_check_spec e r : nslaves e <= ECM_ENI_MAX_SLAVES -> 0 <= r_pos r <= nslaves e ->
  exists k, dc_check e r = Some k /\ 0 <= k /\
    (k = 0 <-> forall s, dc_relevant r -> slave e !! Z.to_nat (r_pos r - 1) = Some s -> dc s <> 0 -> dc_agrees r s).
Proof.
  intros Hn Hp. unfold dc_check, dc_relevant.
  destruct (Z.eqb_spec (r_pos r) 0) as [E|N1]; cbn [orb]; [exists 0; split_and!; [done..|]; split; [|done]; intros _ s [? _]; done|].
  destruct (Z.eqb_spec (Z.land (r_trans r) ECM_ENI_T_PS) 0) as [E|N2]; cbn [orb]; [exists 0; split_and!; [done..|]; split; [|done]; intros _ s (_ & ? & _); done|].
  destruct (Z.eqb_spec (cmd_kind (r_cmd r)) K_WR) as [E|N3]; cbn [negb]; [|exists 0; split_and!; [done..|]; split; [|done]; intros _ s (_ & _ & ?); done].
  destruct (lookup_lt_is_Some_2 (slave e) (Z.to_nat (r_pos r - 1))) as [s Hs]; [unfold nslaves in *; lia|].
  rewrite (proj2 (slave_at_declared e (r_pos r) s Hn ltac:(lia)) Hs). cbn.
  destruct (sum_flags_zero (fun wg : Z * Z => wg.1 =? wg.2) (dc_pairs r s)) as [S1 S2]. rewrite Hs.
  eexists. split; [done|]. destruct (Z.eqb_spec (dc s) 0) as [Ed|Ed].
  - split; [lia|]. split; [|done]. intros _ t _ [= <-]. done.
  - split; [done|]. rewrite S2. assert (Hf : Forall (fun x : Z * Z => (x.1 =? x.2) = true) (dc_pairs r s) <-> dc_agrees r s).
    { rewrite <- dc_pairs_spec. apply Forall_iff. intros x. apply Z.eqb_eq. }
    rewrite Hf. split; [intros ? t _ [= <-]; done|]. intros H. by apply (H s).
Qed.

Lemma dc_loop_spec e l bad : nslaves e <= ECM_ENI_MAX_SLAVES -> 0 <= bad -> (forall r, r ∈ l -> 0 <= r_pos r <= nslaves e) ->
  exists k, dc_loop e bad l = Some k /\ bad <= k /\
    (k = bad <-> forall r s, r ∈ l -> dc_relevant r -> slave e !! Z.to_nat (r_pos r - 1) = Some s -> dc s <> 0 -> dc_agrees r s).
Proof.
  intros Hn. revert bad. induction l as [|r l IH]; intros bad Hb Hp; cbn [dc_loop].
  { exists bad. split_and!; [done|lia|]. split; [|done]. intros _ ? ? []%not_elem_of_nil. }
  destruct (dc_check_spec e r Hn (Hp r ltac:(apply list_elem_of_here))) as (k & -> & Hk & Hk0). cbn.
  destruct (IH (bad + k)) as (k2 & -> & Hk2 & Hk20); [lia|intros; apply Hp; by apply list_elem_of_further|].
  exists k2. split_and!; [done|lia|]. split.
  - intros -> t s [->|Ht]%elem_of_cons Hr Hs Hd; [apply Hk0; [lia|done..]|]. apply (proj1 Hk20 ltac:(lia) t s); done.
  - intros H. assert (k = 0) by (apply Hk0; intros s; apply (H r s), list_elem_of_here).
    assert (k2 = bad + k) by (apply Hk20; intros t s Ht; apply (H t s); by apply list_elem_of_further). lia.
Qed.

(** C38: On a configuration whose register records name declared slaves, the
    support check returns, and it refuses nothing exactly when the process data
    does not use LRD/LWR, every register InitCmd is one the master does itself
    (unless unknown ones are allowed), and the DC values that InitCmds write to
    a slave with a DC element on PREOP -> SAFEOP are those of the element:
    AssignActivate at 0x0980, SYNC0 at 0x09A0, SYNC1 in the second half of a
    write to 0x09A0 or at 0x09A4, each as far as the record holds all its bytes.
    Writes of other transitions (the SP write of 0 to 0x0980), other commands
    than writes, records of the master and of slaves without DC, and shorter
    records are not compared.  It warns of nothing exactly when the file has the
    records to check and no unknown InitCmd was let through. *)
Theorem eni_supported_exact e allow :
  nslaves e <= ECM_ENI_MAX_SLAVES -> (forall r, r ∈ reg e -> 0 <= r_pos r <= nslaves e) ->
  exists bad warn, ecm_eni_check_supported e allow = Some (bad, warn) /\ 0 <= bad /\ 0 <= warn /\
    (bad = 0 <-> pd_cmd e <> ECM_ENI_PD_LRD_LWR /\ (allow = false -> forall r, r ∈ reg e -> reg_handled r) /\
       forall r s, r ∈ reg e -> dc_relevant r -> slave e !! Z.to_nat (r_pos r - 1) = Some s -> dc s <> 0 -> dc_agrees r s) /\
    (warn = 0 <-> 2 <= version e /\ (allow = true -> forall r, r ∈ reg e -> reg_handled r)).
Proof.
  intros Hn Hp. destruct (sum_flags_zero ecm_eni_reg_known (reg e)) as [U1 U2].
  assert (Hu : unknown_regs e = 0 <-> forall r, r ∈ reg e -> reg_handled r).
  { unfold unknown_regs. rewrite U2, Forall_forall. by setoid_rewrite reg_known_iff. }
  fold (unknown_regs e) in U1. unfold ecm_eni_check_supported. cbv zeta.
  assert (Hb : 0 <= b2z (pd_cmd e =? ECM_ENI_PD_LRD_LWR) /\ (b2z (pd_cmd e =? ECM_ENI_PD_LRD_LWR) = 0 <-> pd_cmd e <> ECM_ENI_PD_LRD_LWR))
    by (unfold b2z; destruct (Z.eqb_spec (pd_cmd e) ECM_ENI_PD_LRD_LWR); lia).
  assert (Hv : 0 <= b2z (version e <? 2) /\ (b2z (version e <? 2) = 0 <-> 2 <= version e)) by (unfold b2z; destruct (Z.ltb_spec (version e) 2); lia).
  destruct Hb as [Hb0 Hb], Hv as [Hv0 Hv].
  destruct allow; cbv beta iota.
  - destruct (dc_loop_spec e (reg e) (b2z (pd_cmd e =? ECM_ENI_PD_LRD_LWR)) Hn Hb0 Hp) as (k & -> & Hk & Hk0).
    eexists _, _. split; [reflexivity|]. split_and!; [lia|lia| |].
    + rewrite <- Hb, <- Hk0. split; [|lia]. intros. split_and!; [lia|done|lia].
    + rewrite <- Hv, <- Hu. split; [|lia]. intros. split; [lia|]. intros _. lia.
  - destruct (dc_loop_spec e (reg e) (b2z (pd_cmd e =? ECM_ENI_PD_LRD_LWR) + unknown_regs e) Hn ltac:(lia) Hp) as (k & -> & Hk & Hk0).
    eexists _, _. split; [reflexivity|]. split_and!; [lia|lia| |].
    + rewrite <- Hb, <- Hk0, <- Hu. split; [|lia]. intros. split_and!; [lia|intros _; lia|lia].
    + rewrite <- Hv. split; [|lia]. intros. split; [lia|done].
Qed.
Lemma eni_supported_exact_witness :
  ecm_eni_check_supported demo_eni false = Some (0, 0) /\ forall r, r ∈ reg demo_eni -> reg_handled r.
Proof.
  split; [vm_compute; reflexivity|]. destruct (eni_supported_exact demo_eni false) as (b & w & H & _ & _ & Hb & _).
  - vm_compute. discriminate.
  - apply Forall_forall. vm_compute. repeat constructor; discriminate.
  - apply Hb; [|reflexivity]. vm_compute in H. by injection H.
Defined.

(** The clearing of the DC activation on SAFEOP -> PREOP is not compared; the
    same write on PREOP -> SAFEOP is refused. *)
Example eni_dc_transition :
  let check t := match ecm_eni_parse_text (demo_text ++ s_ nl ++ s_ t) with Ok e => ecm_eni_check_supported e false | _ => None end in
  check "reg 1 trans SP cmd 5 ado 0x0980 len 2 data 0000" = Some (0, 0) /\
  check "reg 1 trans PS cmd 5 ado 0x0980 len 2 data 0000" = Some (1, 0).
Proof. split; vm_compute; reflexivity. Qed.

(** A register record at position 4294967295 passes the comparison
    [(int)pos > nslaves], is stored at position 65535, and the support check
    then reads slave 65534 of an array of 64. *)
Example eni_reg_position_unchecked :
  exists e, ecm_eni_parse_text (demo_text ++ s_ nl ++ s_ "reg 4294967295 trans PS cmd 5 ado 0x980 len 2 data 0003") = Ok e /\
    (r_pos <$> reg e) = [1; 65535] /\ ecm_eni_check_supported e false = None.
Proof. eexists. split; [vm_compute; reflexivity|]. split; vm_compute; reflexivity. Qed.

(** ** State timeouts *)

Lemma timeout_loop_spec st l m : m <= timeout_loop st m l /\
  (forall s, s ∈ l -> default 0 (state_ms s !! st) <= timeout_loop st m l) /\
  (timeout_loop st m l = m \/ exists s, s ∈ l /\ timeout_loop st m l = default 0 (state_ms s !! st)).
Proof.
  revert m. induction l as [|s l IH]; intros m; cbn [timeout_loop]; [split_and!; [lia|intros ? []%not_elem_of_nil|by left]|].
  cbv zeta. set (v := default 0 (state_ms s !! st)). destruct (IH (if m <? v then v else m)) as (H1 & H2 & H3).
  destruct (Z.ltb_spec m v) as [E|E]; split_and!; try lia.
  1,3: intros t [->|Ht]%elem_of_cons; [fold v; lia|by apply H2].
  - destruct H3 as [->|(t & Ht & ->)]; right; [exists s; split; [apply list_elem_of_here|done]|exists t; split; [by apply list_elem_of_further|done]].
  - destruct H3 as [->|(t & Ht & ->)]; [by left|]. right. exists t. split; [by apply list_elem_of_further|done].
Qed.

(** The longest timeout a slave gives for a state, 0 when none does. *)
Lemma state_timeout_max e st : 0 <= st < ECM_ENI_ST_COUNT ->
  (forall s, s ∈ slave e -> default 0 (state_ms s !! Z.to_nat st) <= ecm_eni_state_timeout_ms e st) /\
  (ecm_eni_state_timeout_ms e st = 0 \/
   exists s, s ∈ slave e /\ ecm_eni_state_timeout_ms e st = default 0 (state_ms s !! Z.to_nat st)).
Proof.
  intros Hst. unfold ecm_eni_state_timeout_ms.
  replace ((st <? 0) || (ECM_ENI_ST_COUNT <=? st)) with false by (symmetry; apply orb_false_iff; split; lia).
  apply (timeout_loop_spec (Z.to_nat st) (slave e) 0).
Qed.

(** ** Transition lists: printing and parsing *)

Definition name_at (i : nat) : str := TRANS_NAMES !!! i.

Lemma strtok_app cur a b : strtok "," cur (a ++ "," :: b)%char = strtok "," cur a ++ strtok "," [] b.
Proof.
  revert cur. induction a as [|c a IH]; intros cur; cbn [app strtok].
  - rewrite Ascii.eqb_refl. by destruct cur.
  - case_if; [|apply IH]. destruct cur; rewrite IH; done.
Qed.

Definition names_ok : bool :=
  forallb (fun i => bool_decide (strtok "," [] (name_at i) = [name_at i]) && (length (name_at i) =? 2)%nat
                    && bool_decide (index_of 0 (name_at i) TRANS_NAMES = Some (Z.of_nat i))
                    && bool_decide (ecm_eni_trans_name (Z.shiftl 1 (Z.of_nat i)) = name_at i)) (seq 0 15).
Lemma name_facts i : (i < 15)%nat -> strtok "," [] (name_at i) = [name_at i] /\ length (name_at i) = 2%nat /\
  index_of 0 (name_at i) TRANS_NAMES = Some (Z.of_nat i) /\ ecm_eni_trans_name (2 ^ Z.of_nat i) = name_at i.
Proof.
  intros Hi. assert (H : names_ok = true) by (vm_compute; reflexivity).
  unfold names_ok in H. rewrite forallb_forall in H. specialize (H i). rewrite in_seq in H. specialize (H ltac:(lia)).
  bprop. rewrite <- Z.shiftl_1_l. rewrite Nat.eqb_eq in *. split_and!; try (by eapply bool_decide_eq_true_1); done.
Qed.

Definition add_bit (m : Z) (i : nat) : Z := Z.lor m (2 ^ Z.of_nat i).
Lemma add_bit_range m i : 0 <= m < 32768 -> (i < 15)%nat -> 0 <= add_bit m i < 32768.
Proof. intros Hm Hi. unfold add_bit. rewrite <- Z.shiftl_1_l. apply trans_step_range; lia. Qed.
Lemma trans_loop_names idx m : Forall (fun i => (i < 15)%nat) idx -> 0 <= m < 32768 ->
  trans_loop m (name_at <$> idx) = foldl add_bit m idx.
Proof.
  revert m. induction idx as [|i idx IH]; intros m Hf Hm; [done|]. apply Forall_cons in Hf as [Hi Hf].
  cbn [fmap list_fmap trans_loop foldl]. destruct (name_facts i Hi) as (_ & _ & -> & _).
  pose proof (add_bit_range m i Hm Hi) as Hr. rewrite Z.shiftl_1_l. fold (add_bit m i).
  assert (u16 (add_bit m i) = add_bit m i) as -> by (unfold u16; rewrite Z.mod_small; lia). by apply IH.
Qed.

Lemma mod_pow2_succ mask k : 0 <= k -> mask mod 2 ^ (k + 1) = if Z.testbit mask k then Z.lor (mask mod 2 ^ k) (2 ^ k) else mask mod 2 ^ k.
Proof.
  intros Hk. apply Z.bits_inj'. intros j Hj.
  assert (Hm : forall n, 0 <= n -> Z.testbit (mask mod 2 ^ n) j = if j <? n then Z.testbit mask j else false).
  { intros n Hn. destruct (Z.ltb_spec j n); [by apply Z.mod_pow2_bits_low|apply Z.mod_pow2_bits_high; lia]. }
  rewrite Hm by lia. destruct (Z.testbit mask k) eqn:E; rewrite ?Z.lor_spec, ?Z.pow2_bits_eqb, Hm by lia;
    destruct (Z.ltb_spec j (k + 1)), (Z.ltb_spec j k); try destruct (Z.eqb_spec k j); subst; rewrite ?E, ?orb_false_r, ?orb_true_r; try done; try lia.
Qed.

(** What the loop has written after [k] bits. *)
Definition listed (mask : Z) (k : nat) (out : str) : Prop :=
  exists idx, Forall (fun i => (i < 15)%nat) idx /\ strtok "," [] out = name_at <$> idx /\ (out = [] -> idx = []) /\
    (length out <= 3 * k)%nat /\ foldl add_bit 0 idx = mask mod 2 ^ Z.of_nat k.

Lemma listed_add mask k out : (k < 15)%nat -> Z.testbit mask (Z.of_nat k) = true -> listed mask k out ->
  listed mask (S k) (out ++ (match out with [] => [] | _ => s_ "," end) ++ name_at k).
Proof.
  intros Hk Ht (idx & Hf & Hs & Hn & Hl & Hm). destruct (name_facts k Hk) as (Hsn & Hln & _). exists (idx ++ [k]).
  split_and!.
  - apply Forall_app. split; [done|]. by apply Forall_singleton.
  - rewrite fmap_app. destruct out as [|c out]; [rewrite (Hn eq_refl); done|].
    change (s_ ",") with [","%char]. rewrite <- Hs. etrans; [apply (strtok_app [] (c :: out) (name_at k))|]. by rewrite Hsn.
  - intros [_ [_ E]%app_eq_nil]%app_eq_nil. by rewrite E in Hln.
  - rewrite !length_app, Hln. destruct out; [|change (length (s_ ",")) with 1%nat]; cbn [length] in *; lia.
  - rewrite foldl_app, Hm. cbn. unfold add_bit. rewrite Nat2Z.inj_succ. unfold Z.succ. rewrite mod_pow2_succ by lia. by rewrite Ht.
Qed.
Lemma listed_skip mask k out : Z.testbit mask (Z.of_nat k) = false -> listed mask k out -> listed mask (S k) out.
Proof.
  intros Ht (idx & Hf & Hs & Hn & Hl & Hm). exists idx. split_and!; [done..|lia|].
  rewrite Hm, Nat2Z.inj_succ. unfold Z.succ. rewrite mod_pow2_succ by lia. by rewrite Ht.
Qed.

Lemma land_pow2_zero m k : 0 <= k -> (Z.land m (2 ^ k) =? 0) = negb (Z.testbit m k).
Proof.
  intros Hk. destruct (Z.testbit m k) eqn:E; cbn.
  - apply Z.eqb_neq. intros H. assert (Z.testbit (Z.land m (2 ^ k)) k = false) by (rewrite H; apply Z.bits_0).
    rewrite Z.land_spec, E, Z.pow2_bits_true in * by lia. done.
  - apply Z.eqb_eq. apply Z.bits_inj'. intros j Hj. rewrite Z.land_spec, Z.pow2_bits_eqb, Z.bits_0 by lia.
    destruct (Z.eqb_spec k j) as [<-|]; [by rewrite E|apply andb_false_r].
Qed.

Lemma list_loop_listed mask n k out : 0 <= mask < 32768 -> (k + n = 17)%nat -> (k <= 15)%nat -> listed mask k out ->
  listed mask 15 (list_loop n (2 ^ Z.of_nat k) mask 96 out).
Proof.
  intros Hm. revert k out. induction n as [|n IH]; intros k out Hkn Hk Hl; [lia|]. cbn [list_loop].
  rewrite (proj2 (Z.eqb_neq (2 ^ Z.of_nat k) 0)) by (apply Z.pow_nonzero; lia). rewrite land_pow2_zero by lia.
  destruct (decide (k = 15%nat)) as [->|Hk15].
  - assert (Z.testbit mask (Z.of_nat 15) = false) as -> by (apply Z.bits_above_log2; [lia|]; destruct (Z.eq_dec mask 0) as [->|]; [done|]; apply Z.log2_lt_pow2; cbn; lia).
    cbn [negb]. assert (n = 1%nat) as -> by lia. exact Hl.
  - assert (Hb : u16 (Z.shiftl (2 ^ Z.of_nat k) 1) = 2 ^ Z.of_nat (S k)).
    { rewrite Z.shiftl_mul_pow2 by lia. replace (Z.of_nat (S k)) with (Z.of_nat k + 1) by lia. rewrite Z.pow_add_r by lia.
      apply Z.mod_small. split; [apply Z.mul_nonneg_nonneg; [apply Z.pow_nonneg|]; lia|].
      rewrite <- Z.pow_add_r by lia. apply (Z.pow_lt_mono_r 2 (Z.of_nat k + 1) 16); lia. }
    rewrite Hb. destruct (Z.testbit mask (Z.of_nat k)) eqn:Et; cbn [negb].
    + apply IH; [lia|lia|]. destruct (name_facts k ltac:(lia)) as (_ & Hln & _ & ->).
      rewrite take_ge; [by apply listed_add; [lia|..]|].
      destruct Hl as (_ & _ & _ & _ & Hl & _). rewrite !length_app, Hln. destruct out; [|change (length (s_ ",")) with 1%nat]; cbn [length] in *; lia.
    + apply IH; [lia|lia|]. by apply listed_skip.
Qed.

(** The transition list the support check prints for a mask is read back
    as that mask: every name, separator and buffer length fits the parser. *)
Theorem eni_trans_roundtrip mask : 0 <= mask < 32768 -> ecm_eni_trans_parse (Some (trans_list mask 96)) = mask.
Proof.
  intros Hm. destruct (list_loop_listed mask 17 0 [] Hm) as (idx & Hf & Hs & _ & Hl & Hb); [lia|lia| |].
  { exists []. split_and!; [constructor|done|done|cbn; lia|]. cbn. by rewrite Z.mod_1_r. }
  unfold ecm_eni_trans_parse. change (trans_list mask 96) with (list_loop 17 (2 ^ Z.of_nat 0) mask 96 []).
  generalize dependent (list_loop 17 (2 ^ Z.of_nat 0) mask 96 []). intros out Hs Hl.
  rewrite (proj2 (Nat.leb_gt _ _)) by lia. rewrite Hs, (trans_loop_names idx 0 Hf) by lia. rewrite Hb. apply Z.mod_small. cbn. lia.
Qed.
Lemma eni_trans_roundtrip_witness :
  trans_list 20 96 = s_ "PS,SO" /\ ecm_eni_trans_parse (Some (trans_list 20 96)) = 20.
Proof. split; [vm_compute; reflexivity|]. apply (eni_trans_roundtrip 20). lia. Defined.
