(* ===== verification/Json.v ===== *)
(** * The JSON reader of the API: libecmaster/api/ecm_json.c

    A recursive descent tokenizer over a text in memory, run by a small state
    and error monad: the state is [jp_t] (position, the text from it, the
    tokens, the error kind), [Fail] is the [return -1] of the source and
    [NoFuel] would be a call that does not return.  [value] and [members] (the
    loop of [container]) are bounded by a fuel of twice the length of the text
    and two, which is proved enough.  The grammar the reader is proved to
    implement is the relation [jvalue], which also says what tokens a value
    has. Positions are [Z]; the source keeps them in an [int], for texts
    below 2 GiB. *)
From Stdlib Require Import ZArith Lia Bool Ascii String.
From S2P Require Import Prelude CString.
From stdpp Require Import base list numbers strings sets.
Open Scope Z_scope.

(** ** Tokens and the state of the reader *)

Inductive ecm_jtype_t := ECM_J_OBJ | ECM_J_ARR | ECM_J_STR | ECM_J_NUM | ECM_J_TRUE | ECM_J_FALSE | ECM_J_NULL.
#[export] Instance jtype_eq_dec : EqDecision ecm_jtype_t.
Proof. solve_decision. Defined.

Record ecm_jtok_t := mkTok { j_type : ecm_jtype_t; j_start : Z; j_end : Z; j_size : Z; j_parent : Z }.
#[export] Instance eta_jtok : Eta ecm_jtok_t := fun k =>
  mkTok (j_type k) (j_start k) (j_end k) (j_size k) (j_parent k).
#[export] Instance jtok_eq_dec : EqDecision ecm_jtok_t.
Proof. solve_decision. Defined.

Definition ECM_JSON_MAX_DEPTH : Z := 16.

(** [rest] is the text from [pos] on. *)
Record jp_t := mkJp { pos : Z; rest : str; toks : list ecm_jtok_t; err : Z }.
#[export] Instance eta_jp : Eta jp_t := fun p => mkJp (pos p) (rest p) (toks p) (err p).

Inductive out (A : Type) := Done (a : A) | Fail | NoFuel.
Arguments Done {A} _.
Arguments Fail {A}.
Arguments NoFuel {A}.
Definition jm (A : Type) : Type := jp_t -> jp_t * out A.
#[export] Instance jm_ret : MRet jm := fun A a p => (p, Done a).
#[export] Instance jm_bind : MBind jm := fun A B f m p =>
  match m p with
  | (p, Done a) => f a p
  | (p, Fail) => (p, Fail)
  | (p, NoFuel) => (p, NoFuel)
  end.
Definition fail {A} : jm A := fun p => (p, Fail).
Definition state {A} (f : jp_t -> jm A) : jm A := fun p => f p p.
Definition modify (f : jp_t -> jp_t) : jm unit := fun p => (f p, Done tt).
Definition advance (n : nat) (p : jp_t) : jp_t := p <| pos ::= Z.add (Z.of_nat n) |> <| rest ::= drop n |>.

(** The character at [pos], if the text goes that far. *)
Definition at_char (c : ascii) (p : jp_t) : bool := match rest p with d :: _ => Ascii.eqb d c | [] => false end.

Definition DQ : ascii := "034".
Definition BS : ascii := "092".

Definition is_ws (c : ascii) : bool :=
  Ascii.eqb c " " || Ascii.eqb c "009" || Ascii.eqb c "010" || Ascii.eqb c "013".
Fixpoint ws_len (s : str) : nat := match s with c :: s => if is_ws c then S (ws_len s) else O | [] => O end.
Definition ws : jm unit := modify (fun p => advance (ws_len (rest p)) p).

Definition is_hex (c : ascii) : bool :=
  ((48 <=? code c) && (code c <=? 57)) || ((97 <=? code c) && (code c <=? 102)) || ((65 <=? code c) && (code c <=? 70)).

Definition zlen {A} (l : list A) : Z := Z.of_nat (length l).

Section reader.
Context (max : Z).

Definition tok (type : ecm_jtype_t) (start parent : Z) : jm Z := state (fun p =>
  let n := Z.of_nat (length (toks p)) in
  if max <=? n then _ ← modify (fun p => p <| err := -2 |>); fail
  else _ ← modify (fun p => p <| toks ::= fun t => t ++ [mkTok type start start 0 parent] |>); mret n).

Definition set_tok (k : Z) (f : ecm_jtok_t -> ecm_jtok_t) : jm unit :=
  modify (fun p => p <| toks ::= alter f (Z.to_nat k) |>).
Definition set_end (k : Z) : jm unit := state (fun p => set_tok k (fun x => x <| j_end := pos p |>)).
Definition grow (k : Z) : jm unit := set_tok k (fun x => x <| j_size ::= Z.add 1 |>).

(** What [strchr] finds in its list of escapes: the terminator of the list counts. *)
Definition ESCAPES : str := DQ :: BS :: s_ "/bfnrt" ++ ["000"%char].

(** The loop of [string]: characters consumed and whether it stops at the
    closing quote ([n] is the position of the error otherwise). *)
Fixpoint str_loop (n : nat) (s : str) : nat * bool :=
  match s with
  | [] => (n, false)
  | c :: s =>
      if Ascii.eqb c DQ then (n, true)
      else if code c <? 0x20 then (n, false)
      else if Ascii.eqb c BS then
        match s with
        | [] => (S n, false)
        | e :: s =>
            if Ascii.eqb e "u" then
              match s with
              | h1 :: h2 :: h3 :: h4 :: s =>
                  if is_hex h1 && is_hex h2 && is_hex h3 && is_hex h4 then str_loop (6 + n) s else (S n, false)
              | _ => (S n, false)
              end
            else if existsb (Ascii.eqb e) ESCAPES then str_loop (2 + n) s
            else (S n, false)
        end
      else str_loop (S n) s
  end.

Definition string_ (parent : Z) : jm Z := state (fun p =>
  k ← tok ECM_J_STR (pos p + 1) parent;
  _ ← modify (advance 1);
  state (fun p =>
    let '(n, ok) := str_loop 0 (rest p) in
    _ ← modify (advance n);
    if ok then _ ← set_end k; _ ← modify (advance 1); mret k else fail)).

Fixpoint digits_len (s : str) : nat := match s with c :: s => if isdigit c then S (digits_len s) else O | [] => O end.

(** Length of a number at the head of [s], [None] when there is none. *)
Definition int_len (s : str) : option nat :=
  match s with
  | c :: _ => if Ascii.eqb c "0" then Some 1%nat
              else if (49 <=? code c) && (code c <=? 57) then Some (digits_len s) else None
  | [] => None
  end.
Definition frac_len (s : str) : option nat :=
  match s with
  | c :: s => if Ascii.eqb c "." then match digits_len s with O => None | n => Some (S n) end else Some O
  | [] => Some O
  end.
Definition exp_len (s : str) : option nat :=
  match s with
  | c :: s =>
      if Ascii.eqb c "e" || Ascii.eqb c "E" then
        let sign := match s with d :: _ => if Ascii.eqb d "+" || Ascii.eqb d "-" then 1%nat else O | [] => O end in
        match digits_len (drop sign s) with O => None | n => Some (1 + sign + n)%nat end
      else Some O
  | [] => Some O
  end.
Definition num_len (s : str) : option nat :=
  let sign := match s with c :: _ => if Ascii.eqb c "-" then 1%nat else O | [] => O end in
  i ← int_len (drop sign s);
  f ← frac_len (drop (sign + i) s);
  e ← exp_len (drop (sign + i + f) s);
  Some (sign + i + f + e)%nat.

Definition number (parent : Z) : jm Z := state (fun p =>
  k ← tok ECM_J_NUM (pos p) parent;
  match num_len (rest p) with
  | None => fail
  | Some n => _ ← modify (advance n); _ ← set_end k; mret k
  end).

Definition literal (parent : Z) (w : str) (type : ecm_jtype_t) : jm Z := state (fun p =>
  if negb (streq (take (length w) (rest p)) w) then fail
  else k ← tok type (pos p) parent; _ ← modify (advance (length w)); _ ← set_end k; mret k).

Definition open_ (obj : bool) : ascii := if obj then "{" else "[".
Definition close_ (obj : bool) : ascii := if obj then "}" else "]".
Definition ctype (obj : bool) : ecm_jtype_t := if obj then ECM_J_OBJ else ECM_J_ARR.

(** [if (p->pos >= p->len || p->s[p->pos] != c) return -1;] *)
Definition expect (c : ascii) : jm unit := state (fun p => if at_char c p then mret tt else fail).

(** The key of a member of an object, its colon and the white space around it. *)
Definition member_key (obj : bool) (k : Z) : jm unit :=
  if obj then
    _ ← expect DQ; _ ← string_ k; _ ← grow k; _ ← ws;
    _ ← expect ":"; _ ← modify (advance 1); ws
  else mret tt.

(** [container]; [loop] is its [for (;;)], which reads the members. *)
Definition container (loop : Z -> jm Z) (parent depth : Z) (obj : bool) : jm Z := state (fun p =>
  if ECM_JSON_MAX_DEPTH <=? depth then _ ← modify (fun p => p <| err := -3 |>); fail
  else
    k ← tok (ctype obj) (pos p) parent;
    _ ← modify (advance 1);
    _ ← ws;
    state (fun p =>
      if at_char (close_ obj) p then _ ← modify (advance 1); _ ← set_end k; mret k
      else loop k)).

Fixpoint value (fuel : nat) (parent depth : Z) : jm Z :=
  match fuel with
  | O => fun p => (p, NoFuel)
  | S fuel =>
      _ ← ws;
      state (fun p =>
        match rest p with
        | [] => fail
        | c :: _ =>
            if Ascii.eqb c "{" then container (fun k => members fuel true k depth) parent depth true
            else if Ascii.eqb c "[" then container (fun k => members fuel false k depth) parent depth false
            else if Ascii.eqb c DQ then string_ parent
            else if Ascii.eqb c "-" || isdigit c then number parent
            else if Ascii.eqb c "t" then literal parent (s_ "true") ECM_J_TRUE
            else if Ascii.eqb c "f" then literal parent (s_ "false") ECM_J_FALSE
            else if Ascii.eqb c "n" then literal parent (s_ "null") ECM_J_NULL
            else fail
        end)
  end
with members (fuel : nat) (obj : bool) (k depth : Z) : jm Z :=
  match fuel with
  | O => fun p => (p, NoFuel)
  | S fuel =>
      _ ← ws;
      _ ← member_key obj k;
      _ ← value fuel k (depth + 1);
      _ ← grow k;
      _ ← ws;
      state (fun p =>
        if at_char "," p then _ ← modify (advance 1); members fuel obj k depth
        else if at_char (close_ obj) p then _ ← modify (advance 1); _ ← set_end k; mret k
        else fail)
  end.

End reader.

Inductive jresult := JTokens (t : list ecm_jtok_t) | JError (rc errpos : Z) | JNoFuel.

Definition ecm_json_parse (s : str) (max : Z) : jresult :=
  let '(p, r) := value max (2 + 2 * length s) (-1) 0 (mkJp 0 s [] 0) in
  let '(p, r) := match r with
                 | Done k => let p := (ws p).1 in (p, match rest p with [] => Done k | _ => Fail end)
                 | _ => (p, r)
                 end in
  match r with
  | Done _ => JTokens (toks p)
  | Fail => JError (if err p =? 0 then -1 else err p) (pos p)
  | NoFuel => JNoFuel
  end.

Definition dq (s : string) : str := (fun c => if Ascii.eqb c "'" then DQ else c) <$> s_ s.
Example json_small2 : ecm_json_parse (dq "{ 'a':[1,-2.5e3], 'b':null }") 8 =
  JTokens [mkTok ECM_J_OBJ 0 28 4 (-1); mkTok ECM_J_STR 3 4 0 0; mkTok ECM_J_ARR 6 16 2 0; mkTok ECM_J_NUM 7 8 0 2;
           mkTok ECM_J_NUM 9 15 0 2; mkTok ECM_J_STR 19 20 0 0; mkTok ECM_J_NULL 22 26 0 0].
Proof. vm_compute. reflexivity. Qed.

(** ** Access to the tokens *)

Definition tok_zero : ecm_jtok_t := mkTok ECM_J_NULL 0 0 0 0.
Definition tok_at (t : list ecm_jtok_t) (i : Z) : ecm_jtok_t := default tok_zero (t !! Z.to_nat i).

(** [while (a >= 0 && a != i) a = t[a].parent;] *)
Fixpoint anc_loop (fuel : nat) (t : list ecm_jtok_t) (i a : Z) : Z :=
  match fuel with
  | O => a
  | S fuel => if (0 <=? a) && negb (a =? i) then anc_loop fuel t i (j_parent (tok_at t a)) else a
  end.
Fixpoint skip_loop (fuel : nat) (t : list ecm_jtok_t) (n i j : Z) : Z :=
  match fuel with
  | O => j
  | S fuel =>
      if j <? n then
        let a := anc_loop (S (Z.to_nat n)) t i (j_parent (tok_at t j)) in
        if negb (a =? i) then j else skip_loop fuel t n i (j + 1)
      else j
  end.
Definition ecm_json_skip (t : list ecm_jtok_t) (n i : Z) : Z := skip_loop (S (Z.to_nat n)) t n i (i + 1).

(** [(size_t)(t[i].end - t[i].start) == kl && !memcmp(s + t[i].start, key, kl)] *)
Definition key_is (s : str) (k : ecm_jtok_t) (key : str) : bool :=
  (j_end k - j_start k =? zlen key) && streq (take (length key) (drop (Z.to_nat (j_start k)) s)) key.

Fixpoint get_loop (fuel : nat) (s : str) (t : list ecm_jtok_t) (n obj : Z) (key : str) (m i : Z) : Z :=
  match fuel with
  | O => -1
  | S fuel =>
      if (m <? Z.quot (j_size (tok_at t obj)) 2) && (i <? n) then
        let v := i + 1 in
        if n <=? v then -1
        else if bool_decide (j_type (tok_at t i) = ECM_J_STR) && key_is s (tok_at t i) key then v
        else get_loop fuel s t n obj key (m + 1) (ecm_json_skip t n v)
      else -1
  end.
Definition ecm_json_get (s : str) (t : list ecm_jtok_t) (n obj : Z) (key : str) : Z :=
  if (obj <? 0) || (n <=? obj) || negb (bool_decide (j_type (tok_at t obj) = ECM_J_OBJ)) then -1
  else get_loop (S (Z.to_nat n)) s t n obj key 0 (obj + 1).

Example json_get_small :
  let s := dq "{ 'a':[1,-2.5e3], 'b':null }" in
  match ecm_json_parse s 8 with
  | JTokens t => ecm_json_get s t (zlen t) 0 (s_ "b") = 6 /\ ecm_json_get s t (zlen t) 0 (s_ "c") = -1
  | _ => False
  end.
Proof. vm_compute. done. Qed.

(** ** The grammar

    RFC 8259, written without the reader's own character classes.  The one
    departure is [chars_nul], a backslash before a NUL byte. *)

Definition jws (c : ascii) : Prop := c ∈ [" "; "009"; "010"; "013"]%char.
Definition jhex (c : ascii) : Prop := c ∈ s_ "0123456789abcdefABCDEF".
Definition JESCAPES : str := [DQ; BS; "/"; "b"; "f"; "n"; "r"; "t"]%char.

Inductive jchars : str -> Prop :=
  | chars_nil : jchars []
  | chars_plain c s : 0x20 <= code c -> c <> DQ -> c <> BS -> jchars s -> jchars (c :: s)
  | chars_escape e s : e ∈ JESCAPES -> jchars s -> jchars (BS :: e :: s)
  | chars_unicode h1 h2 h3 h4 s : Forall jhex [h1; h2; h3; h4] -> jchars s ->
      jchars (BS :: "u"%char :: h1 :: h2 :: h3 :: h4 :: s)
  | chars_nul s : jchars s -> jchars (BS :: "000"%char :: s).

Definition all_digits (s : str) : Prop := Forall (fun c => isdigit c = true) s.
Definition jint (s : str) : Prop :=
  s = ["0"%char] \/ exists c ds, s = c :: ds /\ 49 <= code c <= 57 /\ all_digits ds.
Definition jfrac (s : str) : Prop := s = [] \/ exists ds, s = "."%char :: ds /\ ds <> [] /\ all_digits ds.
Definition jexp (s : str) : Prop :=
  s = [] \/ exists c sg ds, s = c :: sg ++ ds /\ (c = "e" \/ c = "E")%char /\ (sg = [] \/ sg = ["+"] \/ sg = ["-"])%char /\
    ds <> [] /\ all_digits ds.
Definition jnumber (s : str) : Prop :=
  exists sg i f e, s = sg ++ i ++ f ++ e /\ (sg = [] \/ sg = ["-"%char]) /\ jint i /\ jfrac f /\ jexp e.

Definition jspace (s : str) : Prop := Forall jws s.
Definition jliteral (s : str) (type : ecm_jtype_t) : Prop :=
  (s = s_ "true" /\ type = ECM_J_TRUE) \/ (s = s_ "false" /\ type = ECM_J_FALSE) \/ (s = s_ "null" /\ type = ECM_J_NULL).
Definition quoted (body : str) : str := DQ :: body ++ [DQ].

(** [jvalue d p par i s ts]: the text [s] at position [p] is a value nested at
    most [d] deep; with parent token [par] and the first free token [i] its
    tokens are [ts].  [jmembers] is the comma separated inside of an object or
    an array, [n] the number of its children, [jitem] one element with the white
    space around it. *)
Inductive jvalue : nat -> Z -> Z -> Z -> str -> list ecm_jtok_t -> Prop :=
  | V_string d p par i body : jchars body ->
      jvalue d p par i (quoted body) [mkTok ECM_J_STR (p + 1) (p + 1 + zlen body) 0 par]
  | V_number d p par i s : jnumber s -> jvalue d p par i s [mkTok ECM_J_NUM p (p + zlen s) 0 par]
  | V_literal d p par i s ty : jliteral s ty -> jvalue d p par i s [mkTok ty p (p + zlen s) 0 par]
  | V_empty d p par i obj w : jspace w ->
      jvalue (S d) p par i (open_ obj :: w ++ [close_ obj]) [mkTok (ctype obj) p (p + 2 + zlen w) 0 par]
  | V_container d p par i obj s ts n : jmembers d obj (p + 1) i (i + 1) s ts n ->
      jvalue (S d) p par i (open_ obj :: s ++ [close_ obj]) (mkTok (ctype obj) p (p + 2 + zlen s) n par :: ts)
with jmembers : nat -> bool -> Z -> Z -> Z -> str -> list ecm_jtok_t -> Z -> Prop :=
  | M_last d obj p k i s ts n : jitem d obj p k i s ts n -> jmembers d obj p k i s ts n
  | M_more d obj p k i s ts n s' ts' n' : jitem d obj p k i s ts n ->
      jmembers d obj (p + zlen s + 1) k (i + zlen ts) s' ts' n' ->
      jmembers d obj p k i (s ++ ","%char :: s') (ts ++ ts') (n + n')
with jitem : nat -> bool -> Z -> Z -> Z -> str -> list ecm_jtok_t -> Z -> Prop :=
  | I_element d p k i w s w' ts : jspace w -> jspace w' -> jvalue d (p + zlen w) k i s ts ->
      jitem d false p k i (w ++ s ++ w') ts 1
  | I_member d p k i w key w1 w2 s w' ts : jspace w -> jchars key -> jspace w1 -> jspace w2 -> jspace w' ->
      jvalue d (p + zlen w + zlen (quoted key) + zlen w1 + 1 + zlen w2) k (i + 1) s ts ->
      jitem d true p k i (w ++ quoted key ++ w1 ++ ":"%char :: w2 ++ s ++ w')
        (mkTok ECM_J_STR (p + zlen w + 1) (p + zlen w + 1 + zlen key) 0 k :: ts) 2.

(** A whole text. *)
Definition jtext (s : str) (ts : list ecm_jtok_t) : Prop :=
  exists w v w', s = w ++ v ++ w' /\ jspace w /\ jspace w' /\ jvalue 16 (zlen w) (-1) 0 v ts.

(** ** Words *)

Lemma ascii_eqb_true c d : Ascii.eqb c d = true <-> c = d.
Proof. apply Ascii.eqb_eq. Qed.
Lemma ws_spec c : is_ws c = true <-> jws c.
Proof.
  unfold is_ws, jws. rewrite !orb_true_iff, !ascii_eqb_true, !elem_of_cons, elem_of_nil. tauto.
Qed.
Lemma hex_spec c : is_hex c = true <-> jhex c.
Proof. unfold jhex. rewrite <- (bool_decide_spec (c ∈ _)). destruct c as [[] [] [] [] [] [] [] []]; vm_compute; done. Qed.
Lemma hex4_spec h1 h2 h3 h4 : is_hex h1 && is_hex h2 && is_hex h3 && is_hex h4 = true <-> Forall jhex [h1; h2; h3; h4].
Proof. rewrite !andb_true_iff, !hex_spec, !Forall_cons. split; [intros [[[? ?] ?] ?]; done|tauto]. Qed.
Lemma ws_len_split s : exists w r, s = w ++ r /\ jspace w /\ ws_len s = length w /\ ws_len r = 0%nat.
Proof.
  induction s as [|c s IH]; [exists [], []; by repeat constructor|]. cbn [ws_len]. destruct (is_ws c) eqn:E.
  - destruct IH as (w & r & -> & Hw & -> & Hr). exists (c :: w), r. split_and!; [done|constructor; [by apply ws_spec|done]|done|done].
  - exists [], (c :: s). split_and!; [done|constructor|done|cbn; by rewrite E].
Qed.
Lemma ws_len_app w r : jspace w -> ws_len (w ++ r) = (length w + ws_len r)%nat.
Proof. induction 1 as [|c w Hc _ IH]; [done|]. cbn. apply ws_spec in Hc. by rewrite Hc, IH. Qed.

Lemma escape_spec e : existsb (Ascii.eqb e) ESCAPES = true <-> e ∈ JESCAPES \/ e = "000"%char.
Proof.
  rewrite <- (bool_decide_spec (_ \/ _)). destruct e as [[] [] [] [] [] [] [] []]; vm_compute; done.
Qed.
Lemma str_loop_sound s : forall n m, str_loop n s = (m, true) ->
  exists body r, s = body ++ DQ :: r /\ jchars body /\ m = (n + length body)%nat.
Proof.
  induction (Nat.lt_wf_0_projected (@length ascii) s) as [s _ IH]. intros n m. destruct s as [|c s]; [done|]. cbn [str_loop].
  destruct (Ascii.eqb c DQ) eqn:Eq; [apply ascii_eqb_true in Eq as ->; intros [= <-]; exists [], s; split_and!; [done|constructor|cbn; lia]|].
  destruct (Z.ltb_spec (code c) 0x20); [done|]. destruct (Ascii.eqb c BS) eqn:Eb.
  - apply ascii_eqb_true in Eb as ->. destruct s as [|e s]; [done|]. destruct (Ascii.eqb e "u") eqn:Eu.
    + apply ascii_eqb_true in Eu as ->. destruct s as [|h1 [|h2 [|h3 [|h4 s]]]]; try done. destruct (is_hex h1 && is_hex h2 && is_hex h3 && is_hex h4) eqn:Eh; [|done].
      intros (body & r & -> & Hb & ->)%IH; [|cbn; lia]. exists (BS :: "u"%char :: h1 :: h2 :: h3 :: h4 :: body), r.
      split_and!; [done|by apply chars_unicode; [apply hex4_spec|]|cbn; lia].
    + destruct (existsb _ _) eqn:Ee; [|done]. apply escape_spec in Ee. intros (body & r & -> & Hb & ->)%IH; [|cbn; lia].
      exists (BS :: e :: body), r. split_and!; [done|destruct Ee as [Ee| ->]; by constructor|cbn; lia].
  - intros (body & r & -> & Hb & ->)%IH; [|cbn; lia]. exists (c :: body), r. split_and!; [done| |cbn; lia].
    constructor; try done; intros ->; by rewrite Ascii.eqb_refl in *.
Qed.
Lemma str_loop_complete body r : jchars body -> forall n, str_loop n (body ++ DQ :: r) = ((n + length body)%nat, true).
Proof.
  induction 1 as [|c s Hc Hq Hb _ IH|e s He _ IH|h1 h2 h3 h4 s Hh _ IH|s _ IH]; intros n; cbn [app str_loop].
  - rewrite Ascii.eqb_refl. cbn. f_equal. lia.
  - rewrite (proj2 (Ascii.eqb_neq c DQ) Hq), (proj2 (Z.ltb_ge _ _) Hc), (proj2 (Ascii.eqb_neq c BS) Hb), IH. cbn. f_equal. lia.
  - change (Ascii.eqb BS DQ) with false. change (code BS <? 0x20) with false. change (Ascii.eqb BS BS) with true. cbv iota.
    assert (He' := proj2 (escape_spec e) (or_introl He)). clear He. rename He' into He. destruct (Ascii.eqb e "u") eqn:Eu; [apply ascii_eqb_true in Eu as ->; vm_compute in He; done|].
    rewrite He, IH. cbn. f_equal. lia.
  - change (Ascii.eqb BS DQ) with false. change (code BS <? 0x20) with false. change (Ascii.eqb BS BS) with true.
    change (Ascii.eqb "u" "u") with true. cbv iota. apply hex4_spec in Hh. rewrite Hh, IH. cbn. f_equal. lia.
  - change (Ascii.eqb BS DQ) with false. change (code BS <? 0x20) with false. change (Ascii.eqb BS BS) with true.
    change (Ascii.eqb "000" "u") with false. change (existsb (Ascii.eqb "000") ESCAPES) with true. cbv iota. rewrite IH. cbn. f_equal. lia.
Qed.

(** ** Numbers *)

Definition no_digit (r : str) : Prop := match r with c :: _ => isdigit c = false | [] => True end.
Definition no_char (cs r : str) : Prop := match r with c :: _ => c ∉ cs | [] => True end.

Lemma digits_len_split s : exists ds r, s = ds ++ r /\ all_digits ds /\ digits_len s = length ds.
Proof.
  induction s as [|c s IH]; [exists [], []; by repeat constructor|]. cbn [digits_len]. destruct (isdigit c) eqn:E.
  - destruct IH as (w & r & -> & Hw & ->). exists (c :: w), r. split_and!; [done|by constructor|done].
  - exists [], (c :: s). split_and!; [done|constructor|done].
Qed.
Lemma digits_len_app ds r : all_digits ds -> no_digit r -> digits_len (ds ++ r) = length ds.
Proof.
  induction 1 as [|c w Hc _ IH]; intros Hr; [|cbn; by rewrite Hc, IH].
  destruct r as [|c r]; [done|]. cbn in *. by rewrite Hr.
Qed.

Lemma int_len_sound s n : int_len s = Some n -> exists i r, s = i ++ r /\ jint i /\ n = length i.
Proof.
  destruct s as [|c s]; [done|]. cbn [int_len]. destruct (Ascii.eqb c "0") eqn:E0.
  { apply ascii_eqb_true in E0 as ->. intros [= <-]. exists ["0"%char], s. split_and!; [done|by left|done]. }
  destruct (_ && _) eqn:E; [|done]. bprop. cbn [digits_len]. unfold isdigit. rewrite (proj2 (Z.leb_le 48 (code c))), (proj2 (Z.leb_le (code c) 57)) by lia.
  cbn [andb]. destruct (digits_len_split s) as (ds & r & -> & Hd & ->). intros [= <-]. exists (c :: ds), r. split_and!; [done| |done].
  right. exists c, ds. done.
Qed.
Lemma int_len_complete i r : jint i -> no_digit r -> int_len (i ++ r) = Some (length i).
Proof.
  intros [->|(c & ds & -> & Hc & Hd)] Hr; [done|]. cbn [app int_len].
  destruct (Ascii.eqb c "0") eqn:E0; [apply ascii_eqb_true in E0 as ->; change (code "0") with 48 in Hc; lia|].
  rewrite (proj2 (Z.leb_le 49 (code c))), (proj2 (Z.leb_le (code c) 57)) by lia. cbn [andb digits_len].
  unfold isdigit at 1. rewrite (proj2 (Z.leb_le 48 (code c))), (proj2 (Z.leb_le (code c) 57)) by lia. cbn [andb]. by rewrite digits_len_app.
Qed.

Lemma frac_len_sound s n : frac_len s = Some n -> exists f r, s = f ++ r /\ jfrac f /\ n = length f.
Proof.
  destruct s as [|c s]; [intros [= <-]; exists [], []; split_and!; [done|by left|done]|]. cbn [frac_len].
  destruct (Ascii.eqb c ".") eqn:E; [|intros [= <-]; exists [], (c :: s); split_and!; [done|by left|done]].
  apply ascii_eqb_true in E as ->. destruct (digits_len_split s) as (ds & r & -> & Hd & ->). destruct ds as [|d ds]; [done|].
  intros [= <-]. exists ("."%char :: d :: ds), r. split_and!; [done| |done]. right. by exists (d :: ds).
Qed.
Lemma frac_len_complete f r : jfrac f -> no_digit r -> no_char ["."%char] r -> frac_len (f ++ r) = Some (length f).
Proof.
  intros [->|(ds & -> & Hne & Hd)] Hr Hc.
  - destruct r as [|c r]; [done|]. cbn in *. destruct (Ascii.eqb c ".") eqn:E; [|done]. apply ascii_eqb_true in E as ->. by destruct Hc; left.
  - cbn [app frac_len]. rewrite Ascii.eqb_refl, digits_len_app by done. by destruct ds.
Qed.

Lemma exp_len_sound s n : exp_len s = Some n -> exists e r, s = e ++ r /\ jexp e /\ n = length e.
Proof.
  destruct s as [|c s]; [intros [= <-]; exists [], []; split_and!; [done|by left|done]|]. cbn [exp_len].
  destruct (_ || _) eqn:E; [|intros [= <-]; exists [], (c :: s); split_and!; [done|by left|done]].
  assert (Hc : (c = "e" \/ c = "E")%char) by (apply orb_true_iff in E as [E|E]; apply ascii_eqb_true in E; auto). clear E.
  assert (Hs : exists sg s', s = sg ++ s' /\ (sg = [] \/ sg = ["+"] \/ sg = ["-"])%char /\
     match s with d :: _ => if Ascii.eqb d "+" || Ascii.eqb d "-" then 1%nat else O | [] => O end = length sg).
  { destruct s as [|d s]; [by exists [], []; auto|]. destruct (_ || _) eqn:E; [|exists [], (d :: s); auto].
    exists [d], s. split_and!; [done| |done]. apply orb_true_iff in E as [E|E]; apply ascii_eqb_true in E as ->; auto. }
  destruct Hs as (sg & s' & -> & Hsg & ->). rewrite drop_app_length.
  destruct (digits_len_split s') as (ds & r & -> & Hd & ->). destruct ds as [|d ds]; [done|]. intros [= <-].
  exists (c :: sg ++ d :: ds), r. split_and!; [cbn; by rewrite <- app_assoc| |cbn; rewrite length_app; cbn; lia].
  right. by exists c, sg, (d :: ds).
Qed.
Lemma exp_len_complete e r : jexp e -> no_digit r -> no_char ["e"; "E"]%char r -> exp_len (e ++ r) = Some (length e).
Proof.
  intros [->|(c & sg & ds & -> & Hc & Hsg & Hne & Hd)] Hr Hn.
  - destruct r as [|c r]; [done|]. cbn in *. destruct (_ || _) eqn:E; [|done]. destruct Hn.
    apply orb_true_iff in E as [E|E]; apply ascii_eqb_true in E as ->; [left|right; left].
  - cbn [app exp_len]. replace (Ascii.eqb c "e" || Ascii.eqb c "E") with true by (destruct Hc as [-> | ->]; done).
    assert (Hl : match (sg ++ ds) ++ r with d :: _ => if Ascii.eqb d "+" || Ascii.eqb d "-" then 1%nat else O | [] => O end = length sg).
    { destruct Hsg as [-> |[-> | ->]]; [|done..]. cbn. destruct ds as [|d ds]; [done|]. apply Forall_cons in Hd as [Hd _]. cbn.
      destruct (_ || _) eqn:E; [|done]. apply orb_true_iff in E as [E|E]; apply ascii_eqb_true in E as ->; vm_compute in Hd; done. }
    cbv zeta. rewrite Hl, <- app_assoc, drop_app_length, digits_len_app by done. destruct ds; [done|]. cbn. f_equal. rewrite length_app. cbn. lia.
Qed.

Definition num_stop (r : str) : Prop := no_digit r /\ no_char ["."; "e"; "E"]%char r.

Lemma num_len_sound s n : num_len s = Some n -> exists t r, s = t ++ r /\ jnumber t /\ n = length t.
Proof.
  unfold num_len. cbv zeta.
  assert (Hs : exists sg s', s = sg ++ s' /\ (sg = [] \/ sg = ["-"%char]) /\
     match s with c :: _ => if Ascii.eqb c "-" then 1%nat else O | [] => O end = length sg).
  { destruct s as [|c s]; [by exists [], []; auto|]. destruct (Ascii.eqb c "-") eqn:E; [|exists [], (c :: s); auto].
    apply ascii_eqb_true in E as ->. exists ["-"%char], s. auto. }
  destruct Hs as (sg & s' & -> & Hsg & ->). rewrite drop_app_length.
  destruct (int_len s') as [ni|] eqn:Ei; cbn; [|done]. apply int_len_sound in Ei as (i & r & -> & Hi & ->).
  rewrite app_assoc. rewrite drop_app_length' by (by rewrite length_app).
  destruct (frac_len r) as [nf|] eqn:Ef; cbn; [|done]. apply frac_len_sound in Ef as (f & r' & -> & Hf & ->).
  rewrite app_assoc. rewrite drop_app_length' by (by rewrite !length_app).
  destruct (exp_len r') as [ne|] eqn:Ee; cbn; [|done]. apply exp_len_sound in Ee as (e & r'' & -> & He & ->).
  intros [= <-]. exists (sg ++ i ++ f ++ e), r''. split_and!; [by rewrite <- !app_assoc|by exists sg, i, f, e|rewrite !length_app; lia].
Qed.
Lemma num_len_complete t r : jnumber t -> num_stop r -> num_len (t ++ r) = Some (length t).
Proof.
  intros (sg & i & f & e & -> & Hsg & Hi & Hf & He) [Hr Hc]. unfold num_len. cbv zeta.
  assert (He0 : no_digit (e ++ r) /\ no_char ["."%char] (e ++ r)).
  { destruct He as [->|(c & sg' & ds & -> & [-> | ->] & _)]; [|split; [done|set_solver]..].
    split; [done|]. destruct r; [done|]. cbn in *. set_solver. }
  assert (Hf0 : no_digit (f ++ e ++ r)) by (destruct Hf as [->|(ds & -> & _)]; [apply He0|done]).
  rewrite <- !app_assoc.
  assert (match sg ++ i ++ f ++ e ++ r with c :: _ => if Ascii.eqb c "-" then 1%nat else O | [] => O end = length sg) as ->.
  { destruct Hsg as [-> | ->]; [|done]. cbn. destruct Hi as [->|(c & ds & -> & Hc' & _)]; [done|]. cbn.
    destruct (Ascii.eqb c "-") eqn:E; [|done]. apply ascii_eqb_true in E as ->. change (code "-") with 45 in Hc'. lia. }
  rewrite drop_app_length, int_len_complete by done. cbn.
  rewrite (app_assoc sg i). rewrite drop_app_length' by (by rewrite length_app). rewrite frac_len_complete by apply He0 || done. cbn.
  rewrite (app_assoc (sg ++ i) f). rewrite drop_app_length' by (by rewrite !length_app).
  rewrite exp_len_complete; [cbn; f_equal; rewrite !length_app; lia|done|done|]. destruct r; [done|]. cbn in *. set_solver.
Qed.
Lemma jnumber_head t : jnumber t -> exists c t', t = c :: t' /\ (c = "-"%char \/ isdigit c = true).
Proof.
  intros (sg & i & f & e & -> & [-> | ->] & Hi & _); [|eauto]. destruct Hi as [->|(c & ds & -> & Hc & _)]; cbn; [eauto|].
  eexists _, _. split; [done|]. right. unfold isdigit. apply andb_true_iff. split; apply Z.leb_le; lia.
Qed.

(** ** The primitive steps *)

Lemma bind_run {A B} (m : jm A) (f : A -> jm B) p p1 a : m p = (p1, Done a) -> (m ≫= f) p = f a p1.
Proof. intros H. unfold mbind, jm_bind. by rewrite H. Qed.
Lemma bind_done {A B} (m : jm A) (f : A -> jm B) p p2 b : (m ≫= f) p = (p2, Done b) ->
  exists p1 a, m p = (p1, Done a) /\ f a p1 = (p2, Done b).
Proof. unfold mbind, jm_bind. destruct (m p) as [p1 [a| |]]; [eauto|done|done]. Qed.

Lemma alter_middle {A} (f : A -> A) (t0 : list A) x l : alter f (length t0) (t0 ++ x :: l) = t0 ++ f x :: l.
Proof. induction t0 as [|y t0 IH]; [done|]. cbn. f_equal. exact IH. Qed.
Lemma set_tok_run f p r t0 x l e :
  set_tok (zlen t0) f (mkJp p r (t0 ++ x :: l) e) = (mkJp p r (t0 ++ f x :: l) e, Done tt).
Proof. unfold set_tok, modify, zlen. cbn. by rewrite Nat2Z.id, alter_middle. Qed.
Lemma set_end_run p r t0 ty st en n par l e :
  set_end (zlen t0) (mkJp p r (t0 ++ mkTok ty st en n par :: l) e) = (mkJp p r (t0 ++ mkTok ty st p n par :: l) e, Done tt).
Proof. unfold set_end, state. apply set_tok_run. Qed.
Lemma grow_run p r t0 ty st en n par l e :
  grow (zlen t0) (mkJp p r (t0 ++ mkTok ty st en n par :: l) e) = (mkJp p r (t0 ++ mkTok ty st en (n + 1) par :: l) e, Done tt).
Proof. unfold grow. rewrite set_tok_run. cbn. by rewrite Z.add_comm. Qed.
Lemma ws_run w r p ts e : jspace w -> ws_len r = 0%nat -> ws (mkJp p (w ++ r) ts e) = (mkJp (p + zlen w) r ts e, Done tt).
Proof.
  intros Hw Hr. unfold ws, modify, advance. cbn. rewrite ws_len_app, Hr, Nat.add_0_r, drop_app_length by done.
  unfold zlen. by rewrite Z.add_comm.
Qed.
Lemma ws_split r p ts e : exists w r', r = w ++ r' /\ jspace w /\ ws_len r' = 0%nat /\
  ws (mkJp p r ts e) = (mkJp (p + zlen w) r' ts e, Done tt).
Proof. destruct (ws_len_split r) as (w & r' & -> & Hw & _ & Hr). exists w, r'. split_and!; [done..|]. by apply ws_run. Qed.
Lemma advance_run s r p ts e : modify (advance (length s)) (mkJp p (s ++ r) ts e) = (mkJp (p + zlen s) r ts e, Done tt).
Proof. unfold modify, advance. cbn. by rewrite drop_app_length, Z.add_comm. Qed.
Lemma advance1_run c r p ts e : modify (advance 1) (mkJp p (c :: r) ts e) = (mkJp (p + 1) r ts e, Done tt).
Proof. apply (advance_run [c]). Qed.

Lemma zlen_app {A} (a b : list A) : zlen (a ++ b) = zlen a + zlen b.
Proof. unfold zlen. rewrite length_app. lia. Qed.
Lemma zlen_cons {A} (x : A) l : zlen (x :: l) = zlen l + 1.
Proof. unfold zlen. cbn. lia. Qed.
Lemma zlen_nil {A} : zlen (@nil A) = 0.
Proof. done. Qed.
Lemma zlen_quoted body : zlen (quoted body) = zlen body + 2.
Proof. unfold quoted. rewrite zlen_cons, zlen_app, zlen_cons, zlen_nil. lia. Qed.
Lemma zlen_nonneg {A} (l : list A) : 0 <= zlen l.
Proof. unfold zlen. lia. Qed.

(** Arithmetic on lengths. *)
Ltac zl := unfold quoted, zlen in *; repeat (rewrite length_app in * || cbn [length] in *); lia.

(** Lengths of empty lists. *)
Ltac zl0 := repeat match goal with |- context [zlen (@nil ?A)] => change (zlen (@nil A)) with 0 end.

Section exact.
Context (max : Z).

Lemma tok_run ty st par p r ts e : zlen ts < max ->
  tok max ty st par (mkJp p r ts e) = (mkJp p r (ts ++ [mkTok ty st st 0 par]) e, Done (zlen ts)).
Proof. intros H. unfold tok, state. cbn. unfold zlen in H. by rewrite (proj2 (Z.leb_gt _ _)). Qed.
Lemma tok_done ty st par p r ts e p' k : tok max ty st par (mkJp p r ts e) = (p', Done k) ->
  zlen ts < max /\ p' = mkJp p r (ts ++ [mkTok ty st st 0 par]) e /\ k = zlen ts.
Proof.
  intros H. destruct (Z.ltb_spec (zlen ts) max) as [E|E]; [rewrite tok_run in H by done; by injection H as <- <-|].
  unfold tok, state in H. cbn in H. unfold zlen in E. by rewrite (proj2 (Z.leb_le _ _)) in H.
Qed.

(** *** Strings, numbers and literals *)

Lemma string_run body r par p ts e : jchars body -> zlen ts < max ->
  string_ max par (mkJp p (quoted body ++ r) ts e) =
  (mkJp (p + zlen (quoted body)) r (ts ++ [mkTok ECM_J_STR (p + 1) (p + 1 + zlen body) 0 par]) e, Done (zlen ts)).
Proof.
  intros Hb Hm. unfold string_, state. cbn [pos]. rewrite (bind_run _ _ _ _ _ (tok_run _ _ _ _ _ _ _ Hm)).
  change (quoted body ++ r) with (DQ :: (body ++ [DQ]) ++ r). rewrite <- app_assoc. cbn [app].
  rewrite (bind_run _ _ _ _ _ (advance1_run _ _ _ _ _)). cbn [rest]. rewrite (str_loop_complete _ _ Hb), Nat.add_0_l.
  rewrite (bind_run _ _ _ _ _ (advance_run _ _ _ _ _)). cbv iota.
  rewrite (bind_run _ _ _ _ _ (set_end_run _ _ _ _ _ _ _ _ _ _)). rewrite (bind_run _ _ _ _ _ (advance1_run _ _ _ _ _)).
  rewrite zlen_quoted. replace (p + (zlen body + 2)) with (p + 1 + zlen body + 1) by lia. reflexivity.
Qed.
Lemma string_done r par p ts e p' k : string_ max par (mkJp p (DQ :: r) ts e) = (p', Done k) ->
  exists body r', DQ :: r = quoted body ++ r' /\ jchars body /\ zlen ts < max.
Proof.
  intros H. unfold string_, state in H. cbn [pos] in H. apply bind_done in H as (p1 & k1 & (Hm & -> & ->)%tok_done & H).
  rewrite (bind_run _ _ _ _ _ (advance1_run _ _ _ _ _)) in H. cbn [rest] in H. destruct (str_loop 0 r) as [n ok] eqn:E.
  destruct ok; [|apply bind_done in H as (? & ? & _ & H); done].
  apply str_loop_sound in E as (body & r' & -> & Hb & _). exists body, r'. split_and!; [|done|done].
  unfold quoted. cbn. by rewrite <- app_assoc.
Qed.
Lemma number_run s r par p ts e : jnumber s -> num_stop r -> zlen ts < max ->
  number max par (mkJp p (s ++ r) ts e) =
  (mkJp (p + zlen s) r (ts ++ [mkTok ECM_J_NUM p (p + zlen s) 0 par]) e, Done (zlen ts)).
Proof.
  intros Hs Hr Hm. unfold number, state. cbn [pos rest]. rewrite (bind_run _ _ _ _ _ (tok_run _ _ _ _ _ _ _ Hm)).
  rewrite (num_len_complete _ _ Hs Hr). rewrite (bind_run _ _ _ _ _ (advance_run _ _ _ _ _)).
  by rewrite (bind_run _ _ _ _ _ (set_end_run _ _ _ _ _ _ _ _ _ _)).
Qed.
Lemma number_done r par p ts e p' k : number max par (mkJp p r ts e) = (p', Done k) ->
  exists s r', r = s ++ r' /\ jnumber s /\ zlen ts < max /\ k = zlen ts /\
    p' = mkJp (p + zlen s) r' (ts ++ [mkTok ECM_J_NUM p (p + zlen s) 0 par]) e.
Proof.
  intros H. unfold number, state in H. cbn [pos rest] in H. apply bind_done in H as (p1 & k1 & (Hm & -> & ->)%tok_done & H).
  destruct (num_len r) as [n|] eqn:E; [|done]. apply num_len_sound in E as (s & r' & -> & Hs & ->).
  rewrite (bind_run _ _ _ _ _ (advance_run _ _ _ _ _)), (bind_run _ _ _ _ _ (set_end_run _ _ _ _ _ _ _ _ _ _)) in H.
  injection H as <- <-. exists s, r'. done.
Qed.
Lemma literal_run w ty r par p ts e : zlen ts < max ->
  literal max par w ty (mkJp p (w ++ r) ts e) =
  (mkJp (p + zlen w) r (ts ++ [mkTok ty p (p + zlen w) 0 par]) e, Done (zlen ts)).
Proof.
  intros Hm. unfold literal, state. cbn [pos rest]. rewrite take_app_length. unfold streq. rewrite bool_decide_eq_true_2 by done.
  cbn [negb]. rewrite (bind_run _ _ _ _ _ (tok_run _ _ _ _ _ _ _ Hm)), (bind_run _ _ _ _ _ (advance_run _ _ _ _ _)).
  by rewrite (bind_run _ _ _ _ _ (set_end_run _ _ _ _ _ _ _ _ _ _)).
Qed.
Lemma literal_done w ty r par p ts e p' k : literal max par w ty (mkJp p r ts e) = (p', Done k) ->
  exists r', r = w ++ r' /\ zlen ts < max.
Proof.
  intros H. unfold literal, state in H. cbn [pos rest] in H. unfold streq in H. case_bool_decide as E; [|done]. cbn [negb] in H.
  apply bind_done in H as (p1 & k1 & (Hm & _)%tok_done & _). exists (drop (length w) r). split; [|done].
  rewrite <- E at 1. by rewrite take_drop.
Qed.

(** *** Everything the reader accepts is a value of the grammar *)

Lemma jspace_app w w' : jspace w -> jspace w' -> jspace (w ++ w').
Proof. intros. by apply Forall_app. Qed.
Lemma jitem_lead d obj p k i w s ts n : jspace w -> jitem d obj (p + zlen w) k i s ts n -> jitem d obj p k i (w ++ s) ts n.
Proof.
  intros Hw Hi. inversion Hi as [? ? ? ? w1 v w' ? H1 H2 Hv|? ? ? ? w1 key w2 w3 v w' tv H1 Hk H2 H3 H4 Hv]; subst.
  - rewrite app_assoc. constructor; [by apply jspace_app|done|]. by rewrite zlen_app, Z.add_assoc.
  - rewrite app_assoc. replace (p + zlen w + zlen w1) with (p + zlen (w ++ w1)) in * by (rewrite zlen_app; lia).
    by constructor; [apply jspace_app|..].
Qed.
Lemma jmembers_lead d obj p k i w s ts n : jspace w -> jmembers d obj (p + zlen w) k i s ts n -> jmembers d obj p k i (w ++ s) ts n.
Proof.
  intros Hw Hm. inversion Hm as [? ? ? ? ? ? ? ? Hi|? ? ? ? ? s1 t1 n1 s2 t2 n2 Hi Hr]; subst.
  - apply M_last. by apply jitem_lead.
  - rewrite app_assoc. apply M_more; [by apply jitem_lead|]. by rewrite zlen_app, Z.add_assoc.
Qed.

Definition value_ok (par depth p : Z) (r : str) (ts : list ecm_jtok_t) (e : Z) (p' : jp_t) (k : Z) : Prop :=
  exists w v tv r', r = w ++ v ++ r' /\ jspace w /\ jvalue (Z.to_nat (16 - depth)) (p + zlen w) par (zlen ts) v tv /\
    p' = mkJp (p + zlen w + zlen v) r' (ts ++ tv) e /\ k = zlen ts /\ zlen (ts ++ tv) <= max.
Definition members_ok (obj : bool) (depth p : Z) (r : str) (t0 : list ecm_jtok_t) (x : ecm_jtok_t)
    (acc : list ecm_jtok_t) (e : Z) (p' : jp_t) (k : Z) : Prop :=
  exists s ts n r', r = s ++ close_ obj :: r' /\ jmembers (Z.to_nat (15 - depth)) obj p (zlen t0) (zlen t0 + 1 + zlen acc) s ts n /\
    p' = mkJp (p + zlen s + 1) r' (t0 ++ (x <| j_end := p + zlen s + 1 |> <| j_size ::= Z.add n |>) :: acc ++ ts) e /\
    k = zlen t0 /\ zlen (t0 ++ x :: acc ++ ts) <= max.

Lemma at_char_inv c p r ts e : at_char c (mkJp p r ts e) = true -> exists r', r = c :: r'.
Proof. unfold at_char. cbn. destruct r as [|d r]; [done|]. intros ->%ascii_eqb_true. eauto. Qed.
Lemma expect_done c p r ts e p' u : expect c (mkJp p r ts e) = (p', Done u) -> p' = mkJp p r ts e /\ exists r', r = c :: r'.
Proof.
  unfold expect, state. destruct (at_char c _) eqn:E; [|done]. intros [= <-]. split; [done|]. by eapply at_char_inv.
Qed.

(** The optional key of a member. *)
Lemma key_done obj k p r t0 ty st en n par acc e p' u : k = zlen t0 ->
  member_key max obj k (mkJp p r (t0 ++ mkTok ty st en n par :: acc) e) = (p', Done u) ->
  if obj then
    exists key w1 w2 r', r = quoted key ++ w1 ++ ":"%char :: w2 ++ r' /\ jchars key /\ jspace w1 /\ jspace w2 /\
      p' = mkJp (p + zlen (quoted key) + zlen w1 + 1 + zlen w2) r'
             (t0 ++ mkTok ty st en (n + 1) par :: acc ++ [mkTok ECM_J_STR (p + 1) (p + 1 + zlen key) 0 k]) e
  else p' = mkJp p r (t0 ++ mkTok ty st en n par :: acc) e.
Proof.
  intros ->. unfold member_key. destruct obj; [|by intros [= <-]]. intros H.
  apply bind_done in H as (p1 & [] & (-> & r1 & ->)%expect_done & H). apply bind_done in H as (p2 & k2 & Hs & H).
  destruct (string_done _ _ _ _ _ _ _ Hs) as (key & r2 & Er & Hk & Hm). rewrite Er in Hs. rewrite string_run in Hs by done.
  injection Hs as <- <-. rewrite <- app_assoc in H. cbn [app] in H. rewrite (bind_run _ _ _ _ _ (grow_run _ _ _ _ _ _ _ _ _ _)) in H.
  destruct (ws_split r2 (p + zlen (quoted key)) (t0 ++ mkTok ty st en (n + 1) par :: acc ++ [mkTok ECM_J_STR (p + 1) (p + 1 + zlen key) 0 (zlen t0)]) e)
    as (w1 & r3 & -> & Hw1 & _ & Ew). rewrite (bind_run _ _ _ _ _ Ew) in H.
  apply bind_done in H as (p3 & [] & (-> & r4 & ->)%expect_done & H). rewrite (bind_run _ _ _ _ _ (advance1_run _ _ _ _ _)) in H.
  destruct (ws_split r4 (p + zlen (quoted key) + zlen w1 + 1) (t0 ++ mkTok ty st en (n + 1) par :: acc ++ [mkTok ECM_J_STR (p + 1) (p + 1 + zlen key) 0 (zlen t0)]) e)
    as (w2 & r5 & -> & Hw2 & _ & Ew2). rewrite Ew2 in H. injection H as <-.
  exists key, w1, w2, r5. done.
Qed.

Lemma container_done (loop : Z -> jm Z) obj par depth p r ts e p' k :
  (forall p r t0 x acc e p' k, 0 <= depth < 16 -> loop (zlen t0) (mkJp p r (t0 ++ x :: acc) e) = (p', Done k) ->
    members_ok obj depth p r t0 x acc e p' k) ->
  0 <= depth -> container max loop par depth obj (mkJp p (open_ obj :: r) ts e) = (p', Done k) ->
  value_ok par depth p (open_ obj :: r) ts e p' k.
Proof.
  intros IH Hd H. unfold container, state in H. cbn [pos] in H. destruct (Z.leb_spec ECM_JSON_MAX_DEPTH depth) as [|Hd2]; [done|].
  unfold ECM_JSON_MAX_DEPTH in Hd2. replace (Z.to_nat (16 - depth)) with (S (Z.to_nat (15 - depth))) by lia.
  apply bind_done in H as (p1 & k1 & (Hm & -> & ->)%tok_done & H). rewrite (bind_run _ _ _ _ _ (advance1_run _ _ _ _ _)) in H.
  destruct (ws_split r (p + 1) (ts ++ [mkTok (ctype obj) p p 0 par]) e) as (w & r' & -> & Hw & _ & Ew). rewrite (bind_run _ _ _ _ _ Ew) in H.
  destruct (at_char (close_ obj) _) eqn:Ec.
  - apply at_char_inv in Ec as [r'' ->]. rewrite (bind_run _ _ _ _ _ (advance1_run _ _ _ _ _)), (bind_run _ _ _ _ _ (set_end_run _ _ _ _ _ _ _ _ _ _)) in H.
    injection H as <- <-. eexists [], (open_ obj :: w ++ [close_ obj]), _, r''. rewrite zlen_nil, Z.add_0_r. split_and!.
    + cbn. by rewrite <- app_assoc.
    + constructor.
    + replace (Z.to_nat (16 - depth)) with (S (Z.to_nat (15 - depth))) by lia. by constructor.
    + f_equal; [zl|]. do 2 f_equal. f_equal. zl.
    + done.
    + zl.
  - apply IH in H as (s & tv & n & r'' & -> & Hj & -> & -> & Hl); [|lia].
    eexists [], (open_ obj :: (w ++ s) ++ [close_ obj]), _, r''. rewrite zlen_nil, Z.add_0_r. split_and!.
    + cbn. by rewrite <- !app_assoc.
    + constructor.
    + replace (Z.to_nat (16 - depth)) with (S (Z.to_nat (15 - depth))) by lia. apply V_container. apply jmembers_lead; [done|].
      rewrite zlen_nil, Z.add_0_r in Hj. exact Hj.
    + cbn [app]. f_equal; [zl|]. do 2 f_equal. cbn. f_equal; zl.
    + done.
    + zl.
Qed.

Lemma eqb_char c d : Ascii.eqb c d = true -> c = d.
Proof. apply ascii_eqb_true. Qed.

(** A value that starts at the current character. *)
Lemma value_ok_here par depth p r ts e p' k w : jspace w -> value_ok par depth (p + zlen w) r ts e p' k ->
  value_ok par depth p (w ++ r) ts e p' k.
Proof.
  intros Hw (w' & v & tv & r' & -> & Hw' & Hv & -> & -> & Hl). exists (w ++ w'), v, tv, r'.
  rewrite zlen_app, !Z.add_assoc. split_and!; [by rewrite app_assoc|by apply jspace_app|done..].
Qed.
Lemma value_ok_one par depth p v r ts e tk : jvalue (Z.to_nat (16 - depth)) p par (zlen ts) v [tk] -> zlen ts < max ->
  value_ok par depth p (v ++ r) ts e (mkJp (p + zlen v) r (ts ++ [tk]) e) (zlen ts).
Proof. intros Hv Hm. exists [], v, [tk], r. rewrite zlen_nil, Z.add_0_r. split_and!; [done|constructor|done|done|done|zl]. Qed.

(** One element: a value, the count, white space, and what follows ([K]). *)
Lemma element_done fuel (K : jm Z) depth q r t0 ty st en n par acc e p' k :
  (forall par depth p r ts e p' k, 0 <= depth -> value max fuel par depth (mkJp p r ts e) = (p', Done k) ->
     value_ok par depth p r ts e p' k) ->
  0 <= depth < 16 ->
  (_ ← value max fuel (zlen t0) (depth + 1); _ ← grow (zlen t0); _ ← ws; K)
    (mkJp q r (t0 ++ mkTok ty st en n par :: acc) e) = (p', Done k) ->
  exists w v tv w' r', r = w ++ v ++ w' ++ r' /\ jspace w /\ jspace w' /\
    jvalue (Z.to_nat (15 - depth)) (q + zlen w) (zlen t0) (zlen t0 + 1 + zlen acc) v tv /\
    zlen (t0 ++ mkTok ty st en n par :: acc ++ tv) <= max /\
    K (mkJp (q + zlen w + zlen v + zlen w') r' (t0 ++ mkTok ty st en (n + 1) par :: acc ++ tv) e) = (p', Done k).
Proof.
  intros IHv Hd H. apply bind_done in H as (p1 & k1 & (w & v & tv & r1 & -> & Hw & Hv & -> & -> & Hl)%IHv & H); [|lia].
  rewrite <- app_assoc in H. cbn [app] in H. rewrite (bind_run _ _ _ _ _ (grow_run _ _ _ _ _ _ _ _ _ _)) in H.
  destruct (ws_split r1 (q + zlen w + zlen v) (t0 ++ mkTok ty st en (n + 1) par :: acc ++ tv) e) as (w' & r' & -> & Hw' & _ & Ew).
  rewrite (bind_run _ _ _ _ _ Ew) in H. exists w, v, tv, w', r'. split_and!; try done; [|zl].
  replace (Z.to_nat (16 - (depth + 1))) with (Z.to_nat (15 - depth)) in Hv by lia.
  by replace (zlen (t0 ++ mkTok ty st en n par :: acc)) with (zlen t0 + 1 + zlen acc) in Hv by zl.
Qed.

Lemma value_members_sound fuel :
  (forall par depth p r ts e p' k, 0 <= depth -> value max fuel par depth (mkJp p r ts e) = (p', Done k) ->
     value_ok par depth p r ts e p' k) /\
  (forall obj depth p r t0 x acc e p' k, 0 <= depth < 16 ->
     members max fuel obj (zlen t0) depth (mkJp p r (t0 ++ x :: acc) e) = (p', Done k) -> members_ok obj depth p r t0 x acc e p' k).
Proof.
  induction fuel as [|fuel [IHv IHm]]; [split; done|]. split.
  - intros par depth p r ts e p' k Hd H. cbn [value] in H.
    destruct (ws_split r p ts e) as (w & r' & -> & Hw & _ & Ew). rewrite (bind_run _ _ _ _ _ Ew) in H. clear Ew.
    apply value_ok_here; [done|]. unfold state in H. cbn [rest] in H. destruct r' as [|c r]; [done|].
    destruct (Ascii.eqb c "{") eqn:E; [apply eqb_char in E as ->; apply (container_done (fun k => members max fuel true k depth) true); [intros; by apply IHm|done|exact H]|clear E].
    destruct (Ascii.eqb c "[") eqn:E; [apply eqb_char in E as ->; apply (container_done (fun k => members max fuel false k depth) false); [intros; by apply IHm|done|exact H]|clear E].
    destruct (Ascii.eqb c DQ) eqn:E.
    { apply eqb_char in E as ->. destruct (string_done _ _ _ _ _ _ _ H) as (body & r2 & Er & Hb & Hm). rewrite Er in *.
      rewrite string_run in H by done. injection H as <- <-. apply value_ok_one; [by constructor|done]. }
    clear E. destruct (_ || isdigit c).
    { apply number_done in H as (s & r2 & -> & Hs & Hm & -> & ->). apply value_ok_one; [by constructor|done]. }
    assert (Hlit : forall word ty, jliteral word ty -> literal max par word ty (mkJp (p + zlen w) (c :: r) ts e) = (p', Done k) ->
      value_ok par depth (p + zlen w) (c :: r) ts e p' k).
    { intros word ty Hj Hl. destruct (literal_done _ _ _ _ _ _ _ _ _ Hl) as (r2 & Er & Hm). rewrite Er in *. rewrite literal_run in Hl by done.
      injection Hl as <- <-. apply value_ok_one; [by constructor|done]. }
    destruct (Ascii.eqb c "t"); [eapply Hlit; [|done]; unfold jliteral; auto|].
    destruct (Ascii.eqb c "f"); [eapply Hlit; [|done]; unfold jliteral; auto|].
    destruct (Ascii.eqb c "n"); [eapply Hlit; [|done]; unfold jliteral; auto|done].
  - intros obj depth p r t0 x acc e p' k Hd H. cbn [members] in H. destruct x as [ty st en n par].
    destruct (ws_split r p (t0 ++ mkTok ty st en n par :: acc) e) as (w & r1 & -> & Hw & _ & Ew). rewrite (bind_run _ _ _ _ _ Ew) in H. clear Ew.
    apply bind_done in H as (p1 & [] & Hk%key_done & H); [|done].
    assert (Hitem : exists it ti ni r3, w ++ r1 = it ++ r3 /\
      jitem (Z.to_nat (15 - depth)) obj p (zlen t0) (zlen t0 + 1 + zlen acc) it ti ni /\ zlen (t0 ++ mkTok ty st en n par :: acc ++ ti) <= max /\
      (state (fun p => if at_char "," p then _ ← modify (advance 1); members max fuel obj (zlen t0) depth
         else if at_char (close_ obj) p then _ ← modify (advance 1); _ ← set_end (zlen t0); mret (zlen t0) else fail) : jm Z)
        (mkJp (p + zlen it) r3 (t0 ++ mkTok ty st en (n + ni) par :: acc ++ ti) e) = (p', Done k)).
    { destruct obj.
      - destruct Hk as (key & w1 & w2 & r2 & -> & Hkey & Hw1 & Hw2 & ->).
        apply element_done in H as (w3 & v & tv & w4 & r3 & -> & Hw3 & Hw4 & Hv & Hl & H); [|done|done].
        exists (w ++ quoted key ++ w1 ++ ":"%char :: (w2 ++ w3) ++ v ++ w4), (mkTok ECM_J_STR (p + zlen w + 1) (p + zlen w + 1 + zlen key) 0 (zlen t0) :: tv), 2, r3.
        split_and!; [by rewrite <- !app_assoc; cbn; rewrite <- !app_assoc| |zl|].
        + constructor; try done; [by apply jspace_app|].
          replace (zlen t0 + 1 + zlen acc + 1) with (zlen t0 + 1 + zlen (acc ++ [mkTok ECM_J_STR (p + zlen w + 1) (p + zlen w + 1 + zlen key) 0 (zlen t0)])) by zl.
          replace (p + zlen w + zlen (quoted key) + zlen w1 + 1 + zlen (w2 ++ w3)) with (p + zlen w + zlen (quoted key) + zlen w1 + 1 + zlen w2 + zlen w3) by (rewrite zlen_app; lia). done.
        + rewrite <- H. rewrite <- !app_assoc. do 2 f_equal; [zl|]. replace (n + 2) with (n + 1 + 1) by lia. done.
      - subst p1. apply element_done in H as (w3 & v & tv & w4 & r3 & -> & Hw3 & Hw4 & Hv & Hl & H); [|done|done].
        exists ((w ++ w3) ++ v ++ w4), tv, 1, r3. split_and!; [by rewrite <- !app_assoc| |done|].
        + constructor; [by apply jspace_app|done|]. by rewrite zlen_app, Z.add_assoc.
        + rewrite <- H. do 2 f_equal. zl. }
    destruct Hitem as (it & ti & ni & r3 & -> & Hi & Hl & H3). clear H Hk. unfold state in H3.
    destruct (at_char "," _) eqn:Ec.
    + apply at_char_inv in Ec as [r4 ->]. rewrite (bind_run _ _ _ _ _ (advance1_run _ _ _ _ _)) in H3.
      apply IHm in H3 as (s & ts & n' & r5 & -> & Hj & -> & -> & Hl'); [|done].
      exists (it ++ ","%char :: s), (ti ++ ts), (ni + n'), r5. split_and!.
      * by rewrite <- app_assoc.
      * apply M_more; [done|]. by replace (zlen t0 + 1 + zlen (acc ++ ti)) with (zlen t0 + 1 + zlen acc + zlen ti) in Hj by zl.
      * f_equal; [zl|]. rewrite <- app_assoc. do 2 f_equal. cbn. f_equal; [zl|lia].
      * done.
      * zl.
    + destruct (at_char (close_ obj) _) eqn:Ec2; [|done]. apply at_char_inv in Ec2 as [r4 ->].
      rewrite (bind_run _ _ _ _ _ (advance1_run _ _ _ _ _)), (bind_run _ _ _ _ _ (set_end_run _ _ _ _ _ _ _ _ _ _)) in H3. injection H3 as <- <-.
      exists it, ti, ni, r4. split_and!; [done|by apply M_last| |done|done]. do 3 f_equal. cbn. f_equal. lia.
Qed.

(** *** Every value of the grammar is accepted *)

Definition follow (r : str) : Prop :=
  match r with c :: _ => is_ws c = true \/ c ∈ [","; "]"; "}"]%char | [] => True end.
Lemma follow_stop r : follow r -> num_stop r.
Proof.
  destruct r as [|c r]; [done|]. intros [H|H]; split; cbn.
  - unfold is_ws in H. repeat (apply orb_true_iff in H as [H|H]); apply eqb_char in H as ->; done.
  - unfold is_ws in H. repeat (apply orb_true_iff in H as [H|H]); apply eqb_char in H as ->; set_solver.
  - repeat (apply elem_of_cons in H as [-> |H]; [done|]). by apply not_elem_of_nil in H.
  - repeat (apply elem_of_cons in H as [-> |H]; [set_solver|]). by apply not_elem_of_nil in H.
Qed.
Lemma follow_space w r : jspace w -> follow r -> follow (w ++ r).
Proof. intros Hw Hr. destruct Hw as [|c w Hc _]; [done|]. left. by apply ws_spec. Qed.

Definition starts_value (s : str) : Prop := exists c s', s = c :: s' /\ is_ws c = false /\ c ∉ ["]"; "}"]%char.
Lemma jvalue_head d p par i v tv : jvalue d p par i v tv -> starts_value v.
Proof.
  destruct 1 as [? ? ? ? body _|? ? ? ? s Hs|? ? ? ? s ty Hs|? ? ? ? obj w _|? ? ? ? obj s ts n _].
  - exists DQ, (body ++ [DQ]). split_and!; [done|done|set_solver].
  - destruct (jnumber_head _ Hs) as (c & s' & -> & Hc). exists c, s'. split_and!; [done|..].
    + destruct (is_ws c) eqn:E; [|done]. unfold is_ws in E. repeat (apply orb_true_iff in E as [E|E]); apply eqb_char in E as ->; by destruct Hc.
    + intros H. repeat (apply elem_of_cons in H as [-> |H]; [by destruct Hc|]). by apply not_elem_of_nil in H.
  - destruct Hs as [[-> _]|[[-> _]|[-> _]]]; eexists _, _; (split_and!; [reflexivity|reflexivity|set_solver]).
  - exists (open_ obj), (w ++ [close_ obj]). destruct obj; (split_and!; [done|done|set_solver]).
  - exists (open_ obj), (s ++ [close_ obj]). destruct obj; (split_and!; [done|done|set_solver]).
Qed.
Lemma starts_value_ws s r : starts_value s -> ws_len (s ++ r) = 0%nat.
Proof. intros (c & s' & -> & Hc & _). cbn. by rewrite Hc. Qed.
Lemma jitem_head d obj p k i s tv n : jitem d obj p k i s tv n -> exists w s', s = w ++ s' /\ jspace w /\ starts_value s'.
Proof.
  destruct 1 as [? ? ? ? w v w' ? Hw _ Hv%jvalue_head|? ? ? ? w key w1 w2 v w' ? Hw _ _ _ _ _].
  - exists w, (v ++ w'). split_and!; [done|done|]. destruct Hv as (c & s' & -> & ? & ?). by exists c, (s' ++ w').
  - eexists w, _. split_and!; [done|done|]. eexists DQ, _. split_and!; [done|done|set_solver].
Qed.
Lemma jmembers_head d obj p k i s tv n : jmembers d obj p k i s tv n -> exists w s', s = w ++ s' /\ jspace w /\ starts_value s'.
Proof.
  destruct 1 as [? ? ? ? ? ? ? ? H%jitem_head|? ? ? ? ? ? ? ? s2 ? ? H%jitem_head _]; [done|].
  destruct H as (w & s' & -> & Hw & c & s'' & -> & ? & ?). exists w, (c :: s'' ++ ","%char :: s2).
  split_and!; [by rewrite <- app_assoc|done|]. by eexists c, _.
Qed.

Lemma at_char_here c p r ts e : at_char c (mkJp p (c :: r) ts e) = true.
Proof. unfold at_char. cbn. apply Ascii.eqb_refl. Qed.
Lemma at_char_other c d p r ts e : d <> c -> at_char c (mkJp p (d :: r) ts e) = false.
Proof. intros H. unfold at_char. cbn. by apply Ascii.eqb_neq. Qed.
Lemma key_run key w1 w2 r p t0 ty st en n par acc e : jchars key -> jspace w1 -> jspace w2 -> ws_len r = 0%nat ->
  zlen (t0 ++ mkTok ty st en n par :: acc) < max ->
  member_key max true (zlen t0) (mkJp p (quoted key ++ w1 ++ ":"%char :: w2 ++ r) (t0 ++ mkTok ty st en n par :: acc) e) =
  (mkJp (p + zlen (quoted key) + zlen w1 + 1 + zlen w2) r
     (t0 ++ mkTok ty st en (n + 1) par :: acc ++ [mkTok ECM_J_STR (p + 1) (p + 1 + zlen key) 0 (zlen t0)]) e, Done tt).
Proof.
  intros Hk H1 H2 Hr Hm. unfold member_key.
  assert (He : expect DQ (mkJp p (quoted key ++ w1 ++ ":"%char :: w2 ++ r) (t0 ++ mkTok ty st en n par :: acc) e) =
    (mkJp p (quoted key ++ w1 ++ ":"%char :: w2 ++ r) (t0 ++ mkTok ty st en n par :: acc) e, Done tt)).
  { reflexivity. }
  rewrite (bind_run _ _ _ _ _ He). rewrite (bind_run _ _ _ _ _ (string_run _ _ _ _ _ _ Hk Hm)).
  rewrite <- app_assoc. cbn [app]. rewrite (bind_run _ _ _ _ _ (grow_run _ _ _ _ _ _ _ _ _ _)).
  rewrite (bind_run _ _ _ _ _ (ws_run w1 (":"%char :: w2 ++ r) _ _ _ H1 eq_refl)).
  unfold expect at 1, state at 1. unfold mbind at 1, jm_bind at 1. rewrite at_char_here. cbv beta iota delta [mret jm_ret].
  rewrite (bind_run _ _ _ _ _ (advance1_run _ _ _ _ _)). by apply ws_run.
Qed.

End exact.

Scheme jvalue_min := Minimality for jvalue Sort Prop
  with jmembers_min := Minimality for jmembers Sort Prop
  with jitem_min := Minimality for jitem Sort Prop.
Combined Scheme jgrammar_ind from jvalue_min, jmembers_min, jitem_min.

Section complete.
Context (max : Z).

Lemma value_dispatch fuel par depth w c s q ts e : jspace w -> is_ws c = false ->
  value max (S fuel) par depth (mkJp q (w ++ c :: s) ts e) =
  (if Ascii.eqb c "{" then container max (fun k => members max fuel true k depth) par depth true
   else if Ascii.eqb c "[" then container max (fun k => members max fuel false k depth) par depth false
   else if Ascii.eqb c DQ then string_ max par
   else if Ascii.eqb c "-" || isdigit c then number max par
   else if Ascii.eqb c "t" then literal max par (s_ "true") ECM_J_TRUE
   else if Ascii.eqb c "f" then literal max par (s_ "false") ECM_J_FALSE
   else if Ascii.eqb c "n" then literal max par (s_ "null") ECM_J_NULL
   else fail) (mkJp (q + zlen w) (c :: s) ts e).
Proof.
  intros Hw Hc. cbn [value]. rewrite (bind_run _ _ _ _ _ (ws_run w (c :: s) q ts e Hw ltac:(cbn; by rewrite Hc))). reflexivity.
Qed.

Definition value_runs (d : nat) (p par i : Z) (v : str) (tv : list ecm_jtok_t) : Prop :=
  forall w r ts e fuel depth, i = zlen ts -> jspace w -> follow r -> 0 <= depth -> Z.of_nat d <= 16 - depth ->
    zlen (ts ++ tv) <= max -> (2 * length (w ++ v ++ r) < fuel)%nat ->
    value max fuel par depth (mkJp (p - zlen w) (w ++ v ++ r) ts e) = (mkJp (p + zlen v) r (ts ++ tv) e, Done (zlen ts)).
Definition members_run (d : nat) (obj : bool) (p k i : Z) (s : str) (tv : list ecm_jtok_t) (n : Z) : Prop :=
  forall r t0 ty st en m par acc e fuel depth, k = zlen t0 -> i = zlen t0 + 1 + zlen acc -> 0 <= depth -> Z.of_nat d <= 15 - depth ->
    zlen (t0 ++ mkTok ty st en m par :: acc ++ tv) <= max -> (2 * length (s ++ close_ obj :: r) + 1 < fuel)%nat ->
    members max fuel obj k depth (mkJp p (s ++ close_ obj :: r) (t0 ++ mkTok ty st en m par :: acc) e) =
    (mkJp (p + zlen s + 1) r (t0 ++ mkTok ty st (p + zlen s + 1) (m + n) par :: acc ++ tv) e, Done k).
Definition item_runs (d : nat) (obj : bool) (p k i : Z) (s : str) (tv : list ecm_jtok_t) (n : Z) : Prop :=
  forall (K : jm Z) r t0 ty st en m par acc e fuel depth, k = zlen t0 -> i = zlen t0 + 1 + zlen acc -> 0 <= depth -> Z.of_nat d <= 15 - depth ->
    zlen (t0 ++ mkTok ty st en m par :: acc ++ tv) <= max -> follow r -> ws_len r = 0%nat -> (2 * length (s ++ r) < fuel)%nat ->
    (_ ← ws; _ ← member_key max obj k; _ ← value max fuel k (depth + 1); _ ← grow k; _ ← ws; K)
      (mkJp p (s ++ r) (t0 ++ mkTok ty st en m par :: acc) e) =
    K (mkJp (p + zlen s) r (t0 ++ mkTok ty st en (m + n) par :: acc ++ tv) e).

Lemma container_runs_empty fuel par depth obj p w r ts e : jspace w -> 0 <= depth < 16 -> zlen ts < max ->
  container max (fun k => members max fuel obj k depth) par depth obj (mkJp p (open_ obj :: w ++ close_ obj :: r) ts e) =
  (mkJp (p + zlen (open_ obj :: w ++ [close_ obj])) r (ts ++ [mkTok (ctype obj) p (p + 2 + zlen w) 0 par]) e, Done (zlen ts)).
Proof.
  intros Hw Hd Hm. unfold container, state. cbn [pos]. rewrite (proj2 (Z.leb_gt _ _)) by (unfold ECM_JSON_MAX_DEPTH; lia).
  rewrite (bind_run _ _ _ _ _ (tok_run _ _ _ _ _ _ _ _ Hm)), (bind_run _ _ _ _ _ (advance1_run _ _ _ _ _)).
  rewrite (bind_run _ _ _ _ _ (ws_run w (close_ obj :: r) _ _ _ Hw ltac:(by destruct obj))). rewrite at_char_here.
  rewrite (bind_run _ _ _ _ _ (advance1_run _ _ _ _ _)), (bind_run _ _ _ _ _ (set_end_run _ _ _ _ _ _ _ _ _ _)).
  unfold mret, jm_ret. f_equal. f_equal; [zl|]. do 2 f_equal. f_equal. zl.
Qed.

(** White space the container has skipped is skipped again by the loop. *)
Lemma members_skip_ws fuel obj k depth w s p ts e : jspace w -> ws_len s = 0%nat -> (0 < fuel)%nat ->
  members max fuel obj k depth (mkJp (p + zlen w) s ts e) = members max fuel obj k depth (mkJp p (w ++ s) ts e).
Proof.
  intros Hw Hs Hf. destruct fuel as [|fuel]; [lia|]. cbn [members].
  rewrite (bind_run _ _ _ _ _ (ws_run w s p ts e Hw Hs)).
  pose proof (ws_run [] s (p + zlen w) ts e ltac:(constructor) Hs) as H. rewrite zlen_nil, Z.add_0_r in H. by rewrite (bind_run _ _ _ _ _ H).
Qed.

Lemma container_runs d fuel par depth obj p i s r ts e tv n : members_run d obj (p + 1) i (i + 1) s tv n ->
  (exists w s', s = w ++ s' /\ jspace w /\ starts_value s') ->
  i = zlen ts -> 0 <= depth -> Z.of_nat d <= 15 - depth -> zlen (ts ++ mkTok (ctype obj) p 0 0 par :: tv) <= max ->
  (2 * length (s ++ close_ obj :: r) + 1 < fuel)%nat ->
  container max (fun k => members max fuel obj k depth) par depth obj (mkJp p (open_ obj :: s ++ close_ obj :: r) ts e) =
  (mkJp (p + zlen (open_ obj :: s ++ [close_ obj])) r (ts ++ mkTok (ctype obj) p (p + 2 + zlen s) n par :: tv) e, Done (zlen ts)).
Proof.
  intros Hr (w & s' & -> & Hw & Hs) -> Hd Hd2 Hm Hf. unfold container, state. cbn [pos].
  rewrite (proj2 (Z.leb_gt _ _)) by (unfold ECM_JSON_MAX_DEPTH; lia). assert (Hm2 : zlen ts < max) by zl.
  rewrite (bind_run _ _ _ _ _ (tok_run _ _ _ _ _ _ _ _ Hm2)), (bind_run _ _ _ _ _ (advance1_run _ _ _ _ _)). rewrite <- app_assoc.
  rewrite (bind_run _ _ _ _ _ (ws_run w (s' ++ close_ obj :: r) _ _ _ Hw (starts_value_ws _ _ Hs))).
  assert (Hat : at_char (close_ obj) (mkJp (p + 1 + zlen w) (s' ++ close_ obj :: r) (ts ++ [mkTok (ctype obj) p p 0 par]) e) = false).
  { destruct Hs as (c & s'' & -> & Hc & Hn). apply at_char_other. intros ->. destruct obj; set_solver. }
  rewrite Hat, members_skip_ws by (try apply starts_value_ws; done || lia). rewrite app_assoc.
  rewrite (Hr r ts (ctype obj) p p 0 par [] e fuel depth); try done; [|zl..].
  f_equal. f_equal; [zl|]. do 2 f_equal. f_equal. zl.
Qed.

Lemma char_neq c d : Ascii.eqb c d = false \/ c = d.
Proof. destruct (Ascii.eqb c d) eqn:E; [right; by apply eqb_char|by left]. Qed.

(** A number is told apart from every other value by its first character. *)
Lemma number_dispatch {A} c (a b s n z : A) : (c = "-"%char \/ isdigit c = true) ->
  (if Ascii.eqb c "{" then a else if Ascii.eqb c "[" then b else if Ascii.eqb c DQ then s
   else if Ascii.eqb c "-" || isdigit c then n else z) = n.
Proof.
  intros Hc. destruct (char_neq c "{") as [-> | ->]; [|by destruct Hc]. destruct (char_neq c "[") as [-> | ->]; [|by destruct Hc].
  destruct (char_neq c DQ) as [-> | ->]; [|by destruct Hc]. destruct Hc as [-> | ->]; [done|]. by rewrite orb_true_r.
Qed.

Lemma no_key_run k p : member_key max false k p = (p, Done tt).
Proof. done. Qed.

Lemma grammar_runs :
  (forall d p par i v tv, jvalue d p par i v tv -> value_runs d p par i v tv) /\
  (forall d obj p k i s tv n, jmembers d obj p k i s tv n -> jmembers d obj p k i s tv n /\ members_run d obj p k i s tv n) /\
  (forall d obj p k i s tv n, jitem d obj p k i s tv n -> item_runs d obj p k i s tv n).
Proof.
  apply jgrammar_ind.
  - intros d p par i body Hb w r ts e fuel depth -> Hw Hr Hd Hd2 Hm Hf. destruct fuel as [|fuel]; [lia|].
    change (w ++ quoted body ++ r) with (w ++ DQ :: (body ++ [DQ]) ++ r). rewrite value_dispatch by done.
    rewrite Z.sub_add. apply (string_run _ body); [done|zl].
  - intros d p par i s Hs w r ts e fuel depth -> Hw Hr Hd Hd2 Hm Hf. destruct fuel as [|fuel]; [lia|].
    assert (Hst : starts_value s) by (eapply (jvalue_head 0 0 0 0); by constructor).
    destruct (jnumber_head _ Hs) as (c & s' & E & Hc). rewrite E at 1. cbn [app]. rewrite value_dispatch by (try done; destruct Hst as (? & ? & E' & ? & _); congruence).
    rewrite number_dispatch by done. rewrite Z.sub_add, app_comm_cons, <- E. apply number_run; [done|by apply follow_stop|zl].
  - intros d p par i s ty Hs w r ts e fuel depth -> Hw Hr Hd Hd2 Hm Hf. destruct fuel as [|fuel]; [lia|].
    destruct Hs as [[-> ->]|[[-> ->]|[-> ->]]].
    + etrans; [exact (value_dispatch fuel par depth w "t" (s_ "rue" ++ r) _ ts e Hw eq_refl)|]. rewrite Z.sub_add. apply (literal_run max (s_ "true") ECM_J_TRUE r par p ts e). zl.
    + etrans; [exact (value_dispatch fuel par depth w "f" (s_ "alse" ++ r) _ ts e Hw eq_refl)|]. rewrite Z.sub_add. apply (literal_run max (s_ "false") ECM_J_FALSE r par p ts e). zl.
    + etrans; [exact (value_dispatch fuel par depth w "n" (s_ "ull" ++ r) _ ts e Hw eq_refl)|]. rewrite Z.sub_add. apply (literal_run max (s_ "null") ECM_J_NULL r par p ts e). zl.
  - intros d p par i obj w0 Hw0 w r ts e fuel depth -> Hw Hr Hd Hd2 Hm Hf. destruct fuel as [|fuel]; [lia|].
    change ((open_ obj :: w0 ++ [close_ obj]) ++ r) with (open_ obj :: (w0 ++ [close_ obj]) ++ r). rewrite value_dispatch by (try done; by destruct obj).
    rewrite Z.sub_add, <- app_assoc. cbn [app]. destruct obj; apply container_runs_empty; try done; try lia; zl.
  - intros d p par i obj s ts0 n _ [Hj IH] w r ts e fuel depth -> Hw Hr Hd Hd2 Hm Hf. destruct fuel as [|fuel]; [lia|].
    change ((open_ obj :: s ++ [close_ obj]) ++ r) with (open_ obj :: (s ++ [close_ obj]) ++ r). rewrite value_dispatch by (try done; by destruct obj).
    rewrite Z.sub_add, <- app_assoc. cbn [app]. apply jmembers_head in Hj.
    destruct obj; (eapply container_runs; [exact IH|done|done|lia|lia|zl|zl]).
  - intros d obj p k i s tv n Hi IH. split; [by apply M_last|]. intros r t0 ty st en m par acc e fuel depth -> -> Hd Hd2 Hm Hf.
    destruct fuel as [|fuel]; [lia|]. cbn [members]. rewrite IH; [|try done; try lia..|lia].
    2: by right; destruct obj; set_solver. 2: by destruct obj.
    unfold state. rewrite at_char_other, at_char_here by (by destruct obj).
    by rewrite (bind_run _ _ _ _ _ (advance1_run _ _ _ _ _)), (bind_run _ _ _ _ _ (set_end_run _ _ _ _ _ _ _ _ _ _)).
  - intros d obj p k i s tv n s' tv' n' Hi IHi Hj [_ IHm]. split; [by apply M_more|].
    intros r t0 ty st en m par acc e fuel depth -> -> Hd Hd2 Hm Hf.
    destruct fuel as [|fuel]; [lia|]. cbn [members]. rewrite <- app_assoc. rewrite IHi; [|try done; try lia..|zl].
    2: zl. 2: right; set_solver.
    unfold state. rewrite <- app_comm_cons, at_char_here. rewrite (bind_run _ _ _ _ _ (advance1_run _ _ _ _ _)).
    rewrite IHm; [|done|zl|done|done|zl|zl]. rewrite <- app_assoc. f_equal. f_equal; [zl|]. do 2 f_equal. f_equal; [zl|lia].
  - intros d p k i w s w' tv Hw Hw' Hv IH K r t0 ty st en m par acc e fuel depth -> -> Hd Hd2 Hm Hr Hr0 Hf.
    rewrite <- !app_assoc. rewrite (bind_run _ _ _ _ _ (ws_run w _ _ _ _ Hw (starts_value_ws _ _ (jvalue_head _ _ _ _ _ _ Hv)))).
    rewrite (bind_run _ _ _ _ _ (no_key_run _ _)).
    pose proof (IH [] (w' ++ r) (t0 ++ mkTok ty st en m par :: acc) e fuel (depth + 1) ltac:(zl) ltac:(constructor) ltac:(by apply follow_space) ltac:(lia) ltac:(lia) ltac:(zl) ltac:(zl)) as Hrun.
    rewrite zlen_nil, Z.sub_0_r in Hrun. cbn [app] in Hrun. rewrite (bind_run _ _ _ _ _ Hrun). rewrite <- app_assoc. cbn [app].
    rewrite (bind_run _ _ _ _ _ (grow_run _ _ _ _ _ _ _ _ _ _)), (bind_run _ _ _ _ _ (ws_run w' r _ _ _ Hw' Hr0)). f_equal. f_equal. zl.
  - intros d p k i w key w1 w2 s w' tv Hw Hk Hw1 Hw2 Hw' Hv IH K r t0 ty st en m par acc e fuel depth -> -> Hd Hd2 Hm Hr Hr0 Hf.
    rewrite <- !app_assoc. cbn [app]. rewrite <- !app_assoc.
    rewrite (bind_run _ _ _ _ _ (ws_run w (quoted key ++ w1 ++ ":"%char :: w2 ++ s ++ w' ++ r) _ _ _ Hw eq_refl)).
    rewrite (bind_run _ _ _ _ _ (key_run max key w1 w2 (s ++ w' ++ r) (p + zlen w) t0 ty st en m par acc e Hk Hw1 Hw2 (starts_value_ws _ _ (jvalue_head _ _ _ _ _ _ Hv)) ltac:(zl))).
    pose proof (IH [] (w' ++ r) (t0 ++ mkTok ty st en (m + 1) par :: acc ++ [mkTok ECM_J_STR (p + zlen w + 1) (p + zlen w + 1 + zlen key) 0 (zlen t0)]) e fuel (depth + 1)
      ltac:(zl) ltac:(constructor) ltac:(by apply follow_space) ltac:(lia) ltac:(lia) ltac:(zl) ltac:(zl)) as Hrun.
    rewrite zlen_nil, Z.sub_0_r in Hrun. cbn [app] in Hrun. rewrite (bind_run _ _ _ _ _ Hrun). rewrite <- app_assoc. cbn [app]. rewrite <- app_assoc. cbn [app].
    rewrite (bind_run _ _ _ _ _ (grow_run _ _ _ _ _ _ _ _ _ _)), (bind_run _ _ _ _ _ (ws_run w' r _ _ _ Hw' Hr0)).
    replace (m + 2) with (m + 1 + 1) by lia. f_equal. f_equal. zl.
Qed.
End complete.

(** ** The reader returns *)

Definition err_ok (e : Z) : Prop := e = 0 \/ e = -2 \/ e = -3.
(** A step that always returns, never moves back and keeps the error kind known. *)
Definition calm {A} (m : jm A) : Prop := forall p p' o, m p = (p', o) ->
  o <> NoFuel /\ (length (rest p') <= length (rest p))%nat /\ (err_ok (err p) -> err_ok (err p')).

Lemma calm_bind {A B} (m : jm A) (f : A -> jm B) : calm m -> (forall a, calm (f a)) -> calm (m ≫= f).
Proof.
  intros Hm Hf p p' o. unfold mbind, jm_bind. destruct (m p) as [p1 o1] eqn:E. apply Hm in E as (H1 & H2 & H3).
  destruct o1 as [a| |]; [|intros [= <- <-]; done|done].
  intros H. apply Hf in H as (H4 & H5 & H6). split_and!; [done|lia|auto].
Qed.
Lemma calm_state {A} (f : jp_t -> jm A) : (forall p, calm (f p)) -> calm (state f).
Proof. intros Hf p. apply Hf. Qed.
Lemma calm_ret {A} (a : A) : calm (mret a).
Proof. intros p p' o [= <- <-]. done. Qed.
Lemma calm_fail {A} : calm (@fail A).
Proof. intros p p' o [= <- <-]. done. Qed.
Lemma calm_advance n : calm (modify (advance n)).
Proof. intros p p' o [= <- <-]. split_and!; [done| |done]. cbn. rewrite length_drop. lia. Qed.
Lemma calm_ws : calm ws.
Proof. intros p p' o [= <- <-]. split_and!; [done| |done]. cbn. rewrite length_drop. lia. Qed.
Lemma calm_set_tok k f : calm (set_tok k f).
Proof. intros p p' o [= <- <-]. done. Qed.
Lemma calm_err e : err_ok e -> calm (modify (fun p => p <| err := e |>)).
Proof. intros He p p' o [= <- <-]. done. Qed.
Lemma calm_push f : calm (modify (fun p => p <| toks ::= f |>)).
Proof. intros p p' o [= <- <-]. done. Qed.
Create HintDb calm.
#[export] Hint Resolve calm_ret calm_fail calm_advance calm_ws calm_set_tok calm_push : calm.
Ltac calm :=
  repeat match goal with
  | |- calm (_ ≫= _) => apply calm_bind; [|intros]
  | |- calm (state _) => apply calm_state; intros
  | |- calm (if ?b then _ else _) => destruct b
  | |- calm (match ?x with _ => _ end) => destruct x
  | |- calm (modify (fun p => p <| err := _ |>)) => apply calm_err; unfold err_ok; auto
  | |- calm (set_end _) => unfold set_end
  | |- calm (grow _) => unfold grow
  | |- calm (expect _) => unfold expect
  end; auto with calm.

Section returns.
Context (max : Z).
Lemma calm_tok ty st par : calm (tok max ty st par).
Proof. unfold tok. calm. Qed.
#[local] Hint Resolve calm_tok : calm.
Lemma calm_string par : calm (string_ max par).
Proof. unfold string_. calm. Qed.
Lemma calm_number par : calm (number max par).
Proof. unfold number. calm. Qed.
Lemma calm_literal par w ty : calm (literal max par w ty).
Proof. unfold literal. calm. Qed.
#[local] Hint Resolve calm_string calm_number calm_literal : calm.
Lemma calm_key obj k : calm (member_key max obj k).
Proof. unfold member_key. calm. Qed.

(** As [calm], for the states with fuel enough. *)
Definition calm_at {A} (m : jm A) (p : jp_t) : Prop := forall p' o, m p = (p', o) ->
  o <> NoFuel /\ (err_ok (err p) -> err_ok (err p')).
Lemma calm_here {A} (m : jm A) p : calm m -> calm_at m p.
Proof. intros Hm p' o H. by apply Hm in H as (? & _ & ?). Qed.
Lemma calm_at_bind {A B} (m : jm A) (f : A -> jm B) p : calm_at m p ->
  (forall p1 a, m p = (p1, Done a) -> calm_at (f a) p1) -> calm_at (m ≫= f) p.
Proof.
  intros Hm Hf p' o. unfold mbind, jm_bind. destruct (m p) as [p1 o1] eqn:E. pose proof (Hm _ _ E) as (H1 & H3).
  destruct o1 as [a| |]; [|intros [= <- <-]; done|done]. intros H. pose proof (Hf _ _ eq_refl _ _ H) as (H4 & H6). auto.
Qed.
(** After a calm step there is no more text than before. *)
Lemma calm_then {A B} (m : jm A) (f : A -> jm B) p : calm m ->
  (forall p1 a, (length (rest p1) <= length (rest p))%nat -> calm_at (f a) p1) -> calm_at (m ≫= f) p.
Proof. intros Hm Hf. apply calm_at_bind; [by apply calm_here|]. intros p1 a H. apply Hf. by apply Hm in H as (_ & ? & _). Qed.

Lemma calm_at_state {A} (f : jp_t -> jm A) p : calm_at (f p) p -> calm_at (state f) p.
Proof. done. Qed.
Lemma advance_then {B} (f : unit -> jm B) p :
  (forall p1, (length (rest p1) = length (rest p) - 1)%nat -> calm_at (f tt) p1) -> calm_at (modify (advance 1) ≫= f) p.
Proof.
  intros Hf. apply calm_at_bind; [apply calm_here, calm_advance|]. intros p1 [] [= <-]. apply Hf. cbn. by rewrite length_drop.
Qed.
#[local] Hint Resolve calm_key : calm.

Lemma value_members_return fuel :
  (forall par depth p, 0 <= depth -> (2 * length (rest p) < fuel)%nat -> calm_at (value max fuel par depth) p) /\
  (forall obj k depth p, 0 <= depth -> (2 * length (rest p) + 1 < fuel)%nat -> calm_at (members max fuel obj k depth) p).
Proof.
  induction fuel as [|fuel [IHv IHm]]; [split; intros; lia|]. split.
  - intros par depth p Hd Hf. cbn [value]. apply calm_then; [apply calm_ws|]. intros p1 _ Hl. apply calm_at_state.
    destruct (rest p1) as [|c r] eqn:Er; [apply calm_here, calm_fail|]. cbn [length] in Hl.
    assert (Hcont : forall obj, calm_at (container max (fun k => members max fuel obj k depth) par depth obj) p1).
    { intros obj. unfold container. apply calm_at_state. case_if; [apply calm_here; calm|].
      apply calm_then; [apply calm_tok|]. intros p2 k H2. rewrite Er in H2. cbn [length] in H2. apply advance_then. intros p3 H3.
      apply calm_then; [apply calm_ws|]. intros p4 _ H4. apply calm_at_state. case_if; [apply calm_here; calm|]. apply IHm; [done|lia]. }
    repeat (case_if; [done || (apply calm_here; calm)|]). apply calm_here, calm_fail.
  - intros obj k depth p Hd Hf. cbn [members]. apply calm_then; [apply calm_ws|]. intros p1 _ H1.
    apply calm_then; [apply calm_key|]. intros p2 _ H2. apply calm_at_bind; [apply IHv; lia|]. intros p3 k3 H3.
    destruct p2 as [q2 r2 ts2 e2]. apply value_members_sound in H3 as (w & v & tv & r' & -> & _ & Hv & -> & _); [|lia].
    destruct (jvalue_head _ _ _ _ _ _ Hv) as (c & v' & -> & _). cbn [rest] in H2. rewrite !length_app in H2. cbn [length] in H2.
    apply calm_then; [unfold grow; calm|]. intros p4 _ H4. cbn [rest] in H4. apply calm_then; [apply calm_ws|]. intros p5 _ H5. apply calm_at_state.
    case_if; [|apply calm_here; calm]. apply advance_then. intros p6 H6. apply IHm; [done|lia].
Qed.
End returns.

(** ** The theorems *)

Lemma parse_value s max : calm_at (value max (2 + 2 * length s) (-1) 0) (mkJp 0 s [] 0).
Proof. apply value_members_return; cbn [rest]; lia. Qed.

(** The JSON reader returns on every text: its recursion is bounded by
    the text, and the result is the tokens or one of the three documented
    errors. *)
Theorem json_parse_returns s max :
  (exists ts, ecm_json_parse s max = JTokens ts) \/
  (exists rc at_, ecm_json_parse s max = JError rc at_ /\ (rc = -1 \/ rc = -2 \/ rc = -3)).
Proof.
  unfold ecm_json_parse. destruct (value max (2 + 2 * length s) (-1) 0 (mkJp 0 s [] 0)) as [p o] eqn:E.
  destruct (parse_value s max _ _ E) as [Hn He]. specialize (He ltac:(by left)).
  assert (Hrc : forall e, err_ok e -> (if e =? 0 then -1 else e) = -1 \/ (if e =? 0 then -1 else e) = -2 \/ (if e =? 0 then -1 else e) = -3).
  { intros e [-> |[-> | ->]]; cbn; auto. }
  destruct o as [k| |]; [|right; eauto|done]. cbv beta iota zeta. destruct (rest (ws p).1) as [|c r]; [left; eauto|right].
  eexists _, _. split; [done|]. by apply Hrc.
Qed.

Lemma parse_tokens s max ts : ecm_json_parse s max = JTokens ts <-> jtext s ts /\ zlen ts <= max.
Proof.
  split.
  - unfold ecm_json_parse. destruct (value max (2 + 2 * length s) (-1) 0 (mkJp 0 s [] 0)) as [p o] eqn:E. destruct o as [k| |]; [|done|done].
    apply value_members_sound in E as (w & v & tv & r & -> & Hw & Hv & -> & -> & Hl); [|lia].
    destruct (ws_split r (0 + zlen w + zlen v) ([] ++ tv) 0) as (w' & r' & -> & Hw' & _ & Ew). rewrite Ew. cbn.
    destruct r' as [|]; [|done]. intros [= <-]. split; [|done]. exists w, v, w'. rewrite app_nil_r. done.
  - intros [(w & v & w' & -> & Hw & Hw' & Hv) Hm]. unfold ecm_json_parse.
    pose proof (proj1 (grammar_runs max) _ _ _ _ _ _ Hv w w' [] 0 (2 + 2 * length (w ++ v ++ w'))%nat 0 eq_refl Hw
      ltac:(rewrite <- (app_nil_r w'); by apply follow_space) ltac:(lia) ltac:(lia) Hm ltac:(lia)) as Hrun.
    rewrite Z.sub_diag in Hrun. rewrite Hrun. cbv beta iota zeta.
    pose proof (ws_run w' [] (zlen w + zlen v) ([] ++ ts) 0 Hw' eq_refl) as Ew. rewrite app_nil_r in Ew. rewrite Ew. done.
Qed.

(** C39: the JSON reader accepts exactly the grammar: it returns the tokens
    [ts] if and only if the text is one JSON value nested at most 16 deep with
    white space around it, [ts] are the tokens of that value in document order
    with their spans, numbers of children and parents, and there is room for
    them.  The grammar is that of RFC 8259 with one addition, which the reader
    really has: inside a string a backslash before a NUL byte passes for an
    escape (see [json_nul_escape]).  Bytes from 0x80 are taken as they are; that
    they form UTF-8 is not asked. *)
Theorem json_parse_exact s max ts : ecm_json_parse s max = JTokens ts <-> jtext s ts /\ zlen ts <= max.
Proof. apply parse_tokens. Qed.

(** A backslash before a NUL byte passes for an escape: strchr finds the
    terminator of its list. *)
Example json_nul_escape : ecm_json_parse [DQ; BS; "000"%char; DQ] 4 = JTokens [mkTok ECM_J_STR 1 3 0 (-1)].
Proof. vm_compute. reflexivity. Qed.

(** ** The tree of the tokens *)

(** Tokens of a value at index [i]: the first one has parent [par], the others a parent inside the value. *)
Definition value_tree (par i : Z) (ts : list ecm_jtok_t) : Prop :=
  exists t0 ts', ts = t0 :: ts' /\ j_parent t0 = par /\
    forall j t, ts' !! j = Some t -> i <= j_parent t < i + 1 + Z.of_nat j.
Definition members_tree (k i : Z) (ts : list ecm_jtok_t) : Prop :=
  exists t0 ts', ts = t0 :: ts' /\ j_parent t0 = k /\
    forall j t, ts !! j = Some t -> j_parent t = k \/ i <= j_parent t < i + Z.of_nat j.

Lemma members_tree_value k i ts : value_tree k i ts -> members_tree k i ts.
Proof.
  intros (t0 & ts' & -> & Hp & H). exists t0, ts'. split_and!; [done|done|]. intros [|j] t Ht; cbn in Ht; [injection Ht as <-; by left|].
  right. apply H in Ht. lia.
Qed.
Lemma members_tree_app k i ts ts' : members_tree k i ts -> members_tree k (i + zlen ts) ts' -> members_tree k i (ts ++ ts').
Proof.
  intros (t0 & tl & -> & Hp & H) (t1 & tl' & -> & Hp' & H'). exists t0, (tl ++ t1 :: tl'). split_and!; [done|done|].
  intros j t [Ht|[Hj Ht]]%lookup_app_Some; [by apply H|]. apply H' in Ht as [?|Ht]; [by left|right]. unfold zlen in Ht. lia.
Qed.
Lemma members_tree_cons k i t ts : j_parent t = k -> members_tree k (i + 1) ts -> members_tree k i (t :: ts).
Proof.
  intros Hp H. apply (members_tree_app k i [t]); [|done]. exists t, []. split_and!; [done|done|].
  intros [|j] t' Ht; [injection Ht as <-; by left|done].
Qed.

Lemma grammar_tree :
  (forall d p par i v ts, jvalue d p par i v ts -> value_tree par i ts) /\
  (forall d obj p k i s ts n, jmembers d obj p k i s ts n -> members_tree k i ts) /\
  (forall d obj p k i s ts n, jitem d obj p k i s ts n -> members_tree k i ts).
Proof.
  apply jgrammar_ind; intros.
  1-4: eexists _, []; (split_and!; [done|done|intros ? ? [=]]).
  - eexists _, _. split_and!; [done|done|]. intros j t Ht. destruct H0 as (t0 & ts' & -> & _ & H0). apply H0 in Ht. lia.
  - done.
  - by apply members_tree_app.
  - by apply members_tree_value.
  - apply members_tree_cons; [done|]. by apply members_tree_value.
Qed.

(** *** Skipping a subtree *)

Section skip.
Context (T : list ecm_jtok_t) (Hdec : forall j, 0 <= j < zlen T -> j_parent (tok_at T j) < j).

Lemma anc_below fuel i a : 0 <= i -> a < i -> i <= zlen T -> anc_loop fuel T i a <> i.
Proof.
  intros Hi. revert a. induction fuel as [|fuel IH]; intros a Ha Hn; cbn [anc_loop]; [lia|]. case_if; bprop; [|lia].
  apply IH; [|done]. specialize (Hdec a ltac:(lia)). lia.
Qed.
Lemma anc_inside fuel i m a : 0 <= i -> (forall j, i < j < i + m -> i <= j_parent (tok_at T j) < j) ->
  i <= a < i + m -> a - i < Z.of_nat fuel -> anc_loop fuel T i a = i.
Proof.
  intros Hi Hb. revert a. induction fuel as [|fuel IH]; intros a Ha Hf; [lia|]. cbn [anc_loop]. case_if; bprop.
  - apply IH; specialize (Hb a ltac:(lia)); lia.
  - apply andb_false_iff in E as [E|E]; bprop; lia.
Qed.
Lemma skip_block i m : 0 <= i -> 1 <= m -> i + m < zlen T -> (forall j, i < j < i + m -> i <= j_parent (tok_at T j) < j) ->
  j_parent (tok_at T (i + m)) < i -> ecm_json_skip T (zlen T) i = i + m.
Proof.
  intros Hi Hm Hn Hb Hnext. unfold ecm_json_skip.
  enough (H : forall fuel j, i < j <= i + m -> (i + m) - j < Z.of_nat fuel -> skip_loop fuel T (zlen T) i j = i + m) by (apply H; lia).
  induction fuel as [|fuel IH]; intros j Hj Hf; [lia|]. cbn [skip_loop]. rewrite (proj2 (Z.ltb_lt _ _)) by lia. cbv zeta.
  destruct (Z.eq_dec j (i + m)) as [->|Hne].
  - rewrite (proj2 (Z.eqb_neq _ _)); [done|]. apply anc_below; lia.
  - rewrite (anc_inside _ i m); [|done|done|specialize (Hb j ltac:(lia)); lia|specialize (Hb j ltac:(lia)); lia].
    rewrite Z.eqb_refl. cbn [negb]. apply IH; lia.
Qed.
End skip.

Lemma tok_at_app A ts B i j : 0 <= j < zlen ts -> i = zlen A -> tok_at (A ++ ts ++ B) (i + j) = tok_at ts j.
Proof.
  intros Hj ->. unfold tok_at, zlen in *. rewrite lookup_app_r by lia. replace (Z.to_nat (Z.of_nat (length A) + j) - length A)%nat with (Z.to_nat j) by lia.
  by rewrite lookup_app_l by lia.
Qed.

(** *** Members of an object *)

(** One member [key] of the object [k], its value being token [i + 1]; the members with their values. *)
Inductive jpair (d : nat) (k p i : Z) (key : str) : str -> list ecm_jtok_t -> Prop :=
  | Pair w w1 w2 s w' ts : jspace w -> jchars key ->
      jvalue d (p + zlen w + zlen (quoted key) + zlen w1 + 1 + zlen w2) k (i + 1) s ts ->
      jpair d k p i key (w ++ quoted key ++ w1 ++ ":"%char :: w2 ++ s ++ w')
        (mkTok ECM_J_STR (p + zlen w + 1) (p + zlen w + 1 + zlen key) 0 k :: ts).
Inductive jpairs (d : nat) (k : Z) : Z -> Z -> str -> list ecm_jtok_t -> list (str * Z) -> Prop :=
  | Pairs_last p i key s ts : jpair d k p i key s ts -> jpairs d k p i s ts [(key, i + 1)]
  | Pairs_more p i key s ts s' ts' l : jpair d k p i key s ts ->
      jpairs d k (p + zlen s + 1) (i + zlen ts) s' ts' l ->
      jpairs d k p i (s ++ ","%char :: s') (ts ++ ts') ((key, i + 1) :: l).

Lemma jitem_pair d p k i s ts n : jitem d true p k i s ts n -> exists key, jpair d k p i key s ts /\ n = 2.
Proof. inversion 1; subst. eexists. split; [|done]. by constructor. Qed.
Lemma jmembers_pairs d p k i s ts n : jmembers d true p k i s ts n -> exists l, jpairs d k p i s ts l /\ n = 2 * zlen l.
Proof.
  remember true as obj eqn:Ho. induction 1 as [? ? ? ? ? ? ? ? Hi|? ? ? ? ? ? ? ? ? ? ? Hi Hm IH]; subst obj; apply jitem_pair in Hi as (key & Hp & ->).
  - eexists. split; [by apply Pairs_last|done].
  - destruct (IH eq_refl) as (l & Hl & ->). eexists. split; [by apply Pairs_more|]. rewrite zlen_cons. lia.
Qed.

(** Token [obj] is an object with the members [l]: in the text [s] from
    position [p0] on and the tokens [T] from index [i0] on. *)
Definition object_in (p0 i0 : Z) (s : str) (T : list ecm_jtok_t) (obj : Z) (l : list (str * Z)) : Prop :=
  exists d par ms ts pre post A B,
    let p := p0 + zlen pre in
    s = pre ++ ("{"%char :: ms ++ ["}"%char]) ++ post /\
    T = A ++ (mkTok ECM_J_OBJ p (p + 2 + zlen ms) (2 * zlen l) par :: ts) ++ B /\ obj = i0 + zlen A /\
    ((l = [] /\ jspace ms) \/ jpairs d obj (p + 1) (obj + 1) ms ts l).

Lemma object_in_embed p0 i0 p1 i1 s T obj l a b A B : object_in p1 i1 s T obj l -> p1 = p0 + zlen a -> i1 = i0 + zlen A ->
  object_in p0 i0 (a ++ s ++ b) (A ++ T ++ B) obj l.
Proof.
  intros (d & par & ms & ts & pre & post & A' & B' & -> & -> & -> & Hl) -> ->.
  exists d, par, ms, ts, (a ++ pre), (post ++ b), (A ++ A'), (B' ++ B). cbv zeta. rewrite !zlen_app, !Z.add_assoc.
  split_and!; [by rewrite <- !app_assoc|by rewrite <- !app_assoc|lia|done].
Qed.

(** Every object token has its members. *)
Definition objects_ok (p i : Z) (s : str) (ts : list ecm_jtok_t) : Prop :=
  forall j t, ts !! j = Some t -> j_type t = ECM_J_OBJ -> exists l, object_in p i s ts (i + Z.of_nat j) l.
Lemma objects_ok_embed p i p0 i0 s ts a b A B : objects_ok p i s ts -> p = p0 + zlen a -> i = i0 + zlen A ->
  forall j t, ts !! j = Some t -> j_type t = ECM_J_OBJ -> exists l, object_in p0 i0 (a ++ s ++ b) (A ++ ts ++ B) (i0 + Z.of_nat (length A + j)) l.
Proof.
  intros H -> -> j t Ht Hty. destruct (H j t Ht Hty) as [l Hl]. exists l.
  replace (i0 + Z.of_nat (length A + j)) with (i0 + zlen A + Z.of_nat j) by (unfold zlen; lia). by eapply object_in_embed.
Qed.

Lemma grammar_objects :
  (forall d p par i v ts, jvalue d p par i v ts -> objects_ok p i v ts) /\
  (forall d obj p k i s ts n, jmembers d obj p k i s ts n -> jmembers d obj p k i s ts n /\ objects_ok p i s ts) /\
  (forall d obj p k i s ts n, jitem d obj p k i s ts n -> objects_ok p i s ts).
Proof.
  apply jgrammar_ind.
  - intros d p par i body _ [|j] t [= <-] [=].
  - intros d p par i s _ [|j] t [= <-] [=].
  - intros d p par i s ty [[_ ->]|[[_ ->]|[_ ->]]] [|j] t [= <-] [=].
  - intros d p par i obj w Hw [|j] t [= <-] Hty. destruct obj; [|done]. exists [], d, par, w, [], [], [], [], [].
    cbv zeta. zl0. rewrite !app_nil_r, !Z.add_0_r. split_and!; [done|done|done|by left].
  - intros d p par i obj s ts n Hj [_ IH] [|j] t Ht Hty.
    + injection Ht as <-. destruct obj; [|done]. apply jmembers_pairs in Hj as (l & Hl & ->).
      exists l, d, par, s, ts, [], [], [], []. cbv zeta. zl0. rewrite !app_nil_r, !Z.add_0_r. split_and!; [done|done|done|by right].
    + destruct (objects_ok_embed _ _ p i _ _ [open_ obj] [close_ obj] [mkTok (ctype obj) p (p + 2 + zlen s) n par] [] IH eq_refl eq_refl j t Ht Hty) as [l Hl].
      exists l. rewrite app_nil_r in Hl. exact Hl.
  - intros d obj p k i s ts n Hi IH. split; [by apply M_last|done].
  - intros d obj p k i s ts n s' ts' n' Hi IH Hm [_ IH']. split; [by apply M_more|]. intros j t [Ht|[Hj Ht]]%lookup_app_Some Hty.
    + destruct (objects_ok_embed _ _ p i _ _ [] (","%char :: s') [] ts' IH ltac:(by rewrite zlen_nil, Z.add_0_r) ltac:(by rewrite zlen_nil, Z.add_0_r) j t Ht Hty) as [l Hl].
      exists l. exact Hl.
    + destruct (objects_ok_embed _ _ p i _ _ (s ++ [","%char]) [] ts [] IH' ltac:(rewrite zlen_app; unfold zlen; cbn; lia) ltac:(done) _ t Ht Hty) as [l Hl].
      exists l. rewrite !app_nil_r, <- app_assoc in Hl. replace (length ts + (j - length ts))%nat with j in Hl by lia. exact Hl.
  - intros d p k i w s w' ts Hw Hw' Hv IH j t Ht Hty.
    destruct (objects_ok_embed _ _ p i _ _ w w' [] [] IH ltac:(done) ltac:(by rewrite zlen_nil, Z.add_0_r) j t Ht Hty) as [l Hl].
    exists l. rewrite app_nil_r in Hl. exact Hl.
  - intros d p k i w key w1 w2 s w' ts Hw Hk Hw1 Hw2 Hw' Hv IH [|j] t Ht Hty; [by injection Ht as <-|].
    destruct (objects_ok_embed _ _ p i _ _ (w ++ quoted key ++ w1 ++ ":"%char :: w2) w' [mkTok ECM_J_STR (p + zlen w + 1) (p + zlen w + 1 + zlen key) 0 k] [] IH
      ltac:(zl) ltac:(done) j t Ht Hty) as [l Hl].
    exists l. rewrite app_nil_r in Hl. rewrite <- !app_assoc in Hl. cbn [app] in Hl. exact Hl.
Qed.

(** *** Looking up a member *)

Fixpoint assoc_first (l : list (str * Z)) (key : str) : Z :=
  match l with
  | [] => -1
  | (k, v) :: l => if streq k key then v else assoc_first l key
  end.

Lemma key_is_spec pre key' post k key : j_start k = zlen pre -> j_end k = zlen pre + zlen key' ->
  key_is (pre ++ key' ++ post) k key = streq key' key.
Proof.
  intros Hs He. unfold key_is. rewrite Hs, He. replace (Z.to_nat (zlen pre)) with (length pre) by (unfold zlen; lia). rewrite drop_app_length.
  unfold streq. destruct (decide (key' = key)) as [<-|E].
  - rewrite take_app_length, !bool_decide_eq_true_2 by done. rewrite andb_true_r. apply Z.eqb_eq. lia.
  - rewrite (bool_decide_eq_false_2 (key' = key)) by done.
    destruct (Z.eqb_spec (zlen pre + zlen key' - zlen pre) (zlen key)) as [El|]; [|done]. apply bool_decide_eq_false_2.
    intros H. apply E. rewrite <- H. symmetry. apply take_app_length'. unfold zlen in El. lia.
Qed.

Section get.
Context (T : list ecm_jtok_t) (Hdec : forall j, 0 <= j < zlen T -> j_parent (tok_at T j) < j).
Context (s : str) (obj : Z) (Hobj : 0 <= obj).

Lemma get_loop_pairs key d p i ms ts l : jpairs d obj p i ms ts l ->
  forall pre post A B m fuel, s = pre ++ ms ++ post -> zlen pre = p -> T = A ++ ts ++ B -> zlen A = i -> obj < i ->
    Z.quot (j_size (tok_at T obj)) 2 = m + zlen l -> 0 <= m -> (length l < fuel)%nat ->
    get_loop fuel s T (zlen T) obj key m i = assoc_first l key.
Proof.
  assert (Hstep : forall p i key' ms ts, jpair d obj p i key' ms ts -> forall pre post A B m fuel,
    s = pre ++ ms ++ post -> zlen pre = p -> T = A ++ ts ++ B -> zlen A = i -> obj < i ->
    m < Z.quot (j_size (tok_at T obj)) 2 ->
    get_loop (S fuel) s T (zlen T) obj key m i =
    if streq key' key then i + 1 else get_loop fuel s T (zlen T) obj key (m + 1) (ecm_json_skip T (zlen T) (i + 1))).
  { intros q i0 key' ms0 ts0 Hp pre post A B m fuel Hs Hpre HT HA Ho Hm. destruct Hp as [w w1 w2 v w' tv Hw Hk Hv].
    destruct (proj1 grammar_tree _ _ _ _ _ _ Hv) as (t0 & tl & -> & _). cbn [get_loop].
    assert (Hn : i0 + 1 < zlen T) by (rewrite HT, !zlen_app, !zlen_cons; pose proof (zlen_nonneg tl); pose proof (zlen_nonneg B); lia).
    rewrite (proj2 (Z.ltb_lt m _)), (proj2 (Z.ltb_lt i0 _)) by lia. cbn [andb]. rewrite (proj2 (Z.leb_gt _ _)) by lia.
    assert (Ht : tok_at T i0 = mkTok ECM_J_STR (q + zlen w + 1) (q + zlen w + 1 + zlen key') 0 obj).
    { rewrite HT. rewrite <- (Z.add_0_r i0). rewrite tok_at_app; [done| |done]. rewrite zlen_cons. pose proof (zlen_nonneg (t0 :: tl)). lia. }
    rewrite Ht. rewrite bool_decide_eq_true_2 by done. cbn [andb].
    replace s with ((pre ++ w ++ [DQ]) ++ key' ++ DQ :: w1 ++ ":"%char :: w2 ++ v ++ w' ++ post) at 1
      by (rewrite Hs; unfold quoted; rewrite <- !app_assoc; cbn [app]; rewrite <- !app_assoc; done).
    rewrite key_is_spec by (cbn; zl). done. }
  induction 1 as [p i key' ms ts Hp|p i key' ms ts ms' ts' l Hp Hps IH]; intros pre post A B m fuel Hs Hpre HT HA Ho Hsz Hm Hf; cbn [assoc_first length] in *.
  - destruct fuel as [|[|fuel]]; [lia|lia|]. rewrite zlen_cons, zlen_nil in Hsz. rewrite (Hstep _ _ _ _ _ Hp pre post A B) by (done || lia).
    destruct (streq key' key); [done|]. cbn [get_loop]. by rewrite (proj2 (Z.ltb_ge (m + 1) _)) by lia.
  - destruct fuel as [|fuel]; [lia|]. rewrite zlen_cons in Hsz. pose proof (zlen_nonneg l).
    rewrite (Hstep _ _ _ _ _ Hp pre (","%char :: ms' ++ post) A (ts' ++ B)); [|by rewrite Hs, <- !app_assoc|done|by rewrite HT, <- !app_assoc|done|done|lia].
    destruct (streq key' key); [done|].
    destruct Hp as [w w1 w2 v w' tv Hw Hk Hv]. destruct (proj1 grammar_tree _ _ _ _ _ _ Hv) as (t0 & tl & -> & Hp0 & Htl).
    assert (Hnext : exists t1 tl', ts' = t1 :: tl' /\ j_parent t1 = obj).
    { destruct Hps as [? ? ? ? ? Hp'|? ? ? ? ? ? ? ? Hp' _]; destruct Hp'; eexists _, _; (split; [reflexivity|done]). }
    destruct Hnext as (t1 & tl' & -> & Hp1).
    set (kt := mkTok ECM_J_STR _ _ _ _) in *. rewrite (skip_block T Hdec (i + 1) (zlen (t0 :: tl))).
    + replace (i + 1 + zlen (t0 :: tl)) with (i + zlen (kt :: t0 :: tl)) by zl.
      apply (IH (pre ++ (w ++ quoted key' ++ w1 ++ ":"%char :: w2 ++ v ++ w') ++ [","%char]) post (A ++ kt :: t0 :: tl) B);
        [by rewrite Hs, <- !app_assoc|zl|by rewrite HT, <- !app_assoc|zl|zl|lia|lia|lia].
    + pose proof (zlen_nonneg A). lia.
    + rewrite zlen_cons. pose proof (zlen_nonneg tl). lia.
    + rewrite HT. zl.
    + intros j Hj. destruct (lookup_lt_is_Some_2 tl (Z.to_nat (j - (i + 1) - 1))) as [t Ht]; [zl|].
      assert (tok_at T j = t) as ->; [|apply Htl in Ht; lia]. rewrite HT.
      replace (A ++ ((kt :: t0 :: tl) ++ t1 :: tl') ++ B) with ((A ++ [kt; t0]) ++ tl ++ (t1 :: tl') ++ B) by (by rewrite <- !app_assoc).
      replace j with (i + 2 + (j - (i + 1) - 1)) by lia. rewrite tok_at_app by zl. unfold tok_at. by rewrite Ht.
    + rewrite HT. replace (A ++ ((kt :: t0 :: tl) ++ t1 :: tl') ++ B) with ((A ++ kt :: t0 :: tl) ++ (t1 :: tl') ++ B) by (by rewrite <- !app_assoc).
      rewrite <- (Z.add_0_r (i + 1 + zlen (t0 :: tl))). rewrite tok_at_app by zl. change (tok_at (t1 :: tl') 0) with t1. lia.
Qed.
End get.

Lemma tree_decreasing par ts : par < 0 -> value_tree par 0 ts -> forall j, 0 <= j < zlen ts -> j_parent (tok_at ts j) < j.
Proof.
  intros Hpar (t0 & tl & -> & Hp & H) j Hj. destruct (Z.eq_dec j 0) as [->|Hne]; [change (tok_at (t0 :: tl) 0) with t0; lia|].
  destruct (lookup_lt_is_Some_2 tl (Z.to_nat (j - 1))) as [t Ht]; [zl|].
  assert (tok_at (t0 :: tl) j = t) as ->; [|apply H in Ht; lia].
  replace (t0 :: tl) with ([t0] ++ tl ++ []) by (by rewrite app_nil_r). replace j with (1 + (j - 1)) by lia.
  rewrite tok_at_app by zl. unfold tok_at. by rewrite Ht.
Qed.

(** Looking up a key: in the tokens of an accepted text, every object
    token has a list [l] of members as written in the text (key as spelled,
    index of the value), and ecm_json_get returns the value of the first member
    with that key, or -1 when there is none. *)
Theorem json_get_first s max T obj : ecm_json_parse s max = JTokens T -> 0 <= obj < zlen T -> j_type (tok_at T obj) = ECM_J_OBJ ->
  exists l, object_in 0 0 s T obj l /\ forall key, ecm_json_get s T (zlen T) obj key = assoc_first l key.
Proof.
  intros [(w & v & w' & -> & Hw & Hw' & Hv) Hm]%parse_tokens Hobj Hty.
  pose proof (tree_decreasing (-1) T ltac:(lia) (proj1 grammar_tree _ _ _ _ _ _ Hv)) as Hdec.
  destruct (lookup_lt_is_Some_2 T (Z.to_nat obj)) as [t Ht]; [zl|].
  assert (Et : tok_at T obj = t) by (unfold tok_at; by rewrite Ht). rewrite Et in Hty.
  destruct (objects_ok_embed _ _ 0 0 _ _ w w' [] [] (proj1 grammar_objects _ _ _ _ _ _ Hv) ltac:(done) ltac:(done) _ t Ht Hty) as [l Hl].
  rewrite app_nil_r in Hl. cbn [app length] in Hl. replace (0 + Z.of_nat (0 + Z.to_nat obj)) with obj in Hl by lia.
  exists l. split; [exact Hl|]. intros key. destruct Hl as (d & par & ms & ts & pre & post & A & B & Hs & HT & Ho & Hl). rewrite Z.add_0_l in Ho.
  set (tk := mkTok ECM_J_OBJ _ _ _ _) in HT. assert (Hk : tok_at T obj = tk).
  { rewrite HT. replace obj with (zlen A + 0) by lia. apply (tok_at_app A (tk :: ts) B (zlen A) 0); [|done]. rewrite zlen_cons. pose proof (zlen_nonneg ts). lia. }
  unfold ecm_json_get. rewrite (proj2 (Z.ltb_ge _ _)), (proj2 (Z.leb_gt _ _)) by lia. rewrite Hk, bool_decide_eq_true_2 by done. cbn [orb negb].
  assert (Hq : Z.quot (j_size (tok_at T obj)) 2 = 0 + zlen l) by (rewrite Hk; cbn; rewrite Z.mul_comm, Z.quot_mul by lia; done).
  destruct Hl as [[-> _]|Hl].
  - cbn [get_loop]. rewrite Hq. done.
  - apply (get_loop_pairs T Hdec (w ++ v ++ w') obj ltac:(lia) key d (0 + zlen pre + 1) (obj + 1) ms ts l Hl
      (pre ++ ["{"%char]) (["}"%char] ++ post) (A ++ [tk]) B); try lia; [rewrite Hs, <- !app_assoc; cbn [app]; by rewrite <- !app_assoc|zl|by rewrite HT, <- !app_assoc|zl|].
    clear -Hl HT. assert (Hlen : (length l <= length ts)%nat).
    { clear HT. induction Hl as [? ? ? ? ? Hp|? ? ? ? ? ? ? ? Hp _ IH]; destruct Hp; cbn [length] in *; rewrite ?length_app; cbn [length]; lia. }
    rewrite HT. zl.
Qed.
Definition demo_text : str := dq "{ 'a':[1,-2.5e3], 'b':null, 'a':{ } }".
Definition demo_toks : list ecm_jtok_t := Eval vm_compute in
  match ecm_json_parse demo_text 16 with JTokens t => t | _ => [] end.
Lemma json_get_first_witness : exists l, object_in 0 0 demo_text demo_toks 0 l /\
  forall key, ecm_json_get demo_text demo_toks (zlen demo_toks) 0 key = assoc_first l key.
Proof.
  apply (json_get_first demo_text 16 demo_toks 0).
  - vm_compute. reflexivity.
  - vm_compute. split; [discriminate|reflexivity].
  - vm_compute. reflexivity.
Defined.

(** ** Values of tokens *)

(** [ecm_json_str]: the unescaped text; [None] when it does not fit in [cap]
    bytes with its terminator. *)
Fixpoint str_chars (n : nat) (room : Z) (s : str) : option str :=
  match n, s with
  | O, _ | _, [] => Some []
  | S n, c :: s =>
      let put (c : ascii) (n : nat) (s : str) :=
        if room <=? 1 then None else out ← str_chars n (room - 1) s; Some (c :: out) in
      if Ascii.eqb c BS then
        match s with
        | [] => None
        | e :: s =>
            if Ascii.eqb e "b" then put "008"%char (n - 1)%nat s
            else if Ascii.eqb e "f" then put "012"%char (n - 1)%nat s
            else if Ascii.eqb e "n" then put "010"%char (n - 1)%nat s
            else if Ascii.eqb e "r" then put "013"%char (n - 1)%nat s
            else if Ascii.eqb e "t" then put "009"%char (n - 1)%nat s
            else if Ascii.eqb e "u" then
              let u := match strtol 16 (take 4 s) with Some (v, _, _) => v | None => 0 end in
              put (if (0 <? u) && (u <? 0x80) then ascii_of_nat (Z.to_nat u) else "?"%char) (n - 5)%nat (drop 4 s)
            else put e (n - 1)%nat s
        end
      else put c n s
  end.
Definition ecm_json_str (s : str) (tk : ecm_jtok_t) (cap : Z) : option str :=
  if negb (bool_decide (j_type tk = ECM_J_STR)) || (cap =? 0) then None
  else str_chars (Z.to_nat (j_end tk - j_start tk)) cap (drop (Z.to_nat (j_start tk)) s).

(** [int_text]: the text of a number or string token shorter than [cap]. *)
Definition int_text (s : str) (tk : ecm_jtok_t) (cap : Z) : option str :=
  if negb (bool_decide (j_type tk = ECM_J_NUM)) && negb (bool_decide (j_type tk = ECM_J_STR)) then None
  else
    let l := j_end tk - j_start tk in
    if (l <=? 0) || (cap <=? l) then None
    else
      let b := take (Z.to_nat l) (drop (Z.to_nat (j_start tk)) s) in
      if bool_decide (j_type tk = ECM_J_NUM) && existsb (fun c => Ascii.eqb c "." || Ascii.eqb c "e" || Ascii.eqb c "E") b
      then None else Some b.

Definition octal (b : str) : bool :=
  match b with c :: d :: _ => Ascii.eqb c "0" && isdigit d | _ => false end.
Definition int_base (tk : ecm_jtok_t) : Z := if bool_decide (j_type tk = ECM_J_STR) then 0 else 10.

Definition ecm_json_i64 (s : str) (tk : ecm_jtok_t) : option Z :=
  b ← int_text s tk 40;
  '(x, erange, e) ← strtoll (int_base tk) b;
  if erange || negb (streq e []) then None
  else if bool_decide (j_type tk = ECM_J_STR) && octal b then None
  else Some x.
Definition ecm_json_u64 (s : str) (tk : ecm_jtok_t) : option Z :=
  b ← int_text s tk 40;
  if match b with c :: _ => Ascii.eqb c "-" | [] => false end then None
  else if bool_decide (j_type tk = ECM_J_STR) && octal b then None
  else
    '(x, erange, e) ← strtoull (int_base tk) b;
    if erange || negb (streq e []) then None else Some x.

(** A string without escapes comes out as it stands, if it fits. *)
Lemma json_str_plain s tk cap body post : j_type tk = ECM_J_STR -> 0 <= j_start tk -> BS ∉ body ->
  drop (Z.to_nat (j_start tk)) s = body ++ post -> j_end tk = j_start tk + zlen body ->
  ecm_json_str s tk cap = if (0 <? zlen body) && (cap <=? zlen body) || (cap =? 0) then None else Some body.
Proof.
  intros Hty Hst Hbs Hs He. unfold ecm_json_str. rewrite bool_decide_eq_true_2 by done. cbn [negb orb].
  destruct (Z.eqb_spec cap 0) as [->|Hc]; [by rewrite orb_true_r|]. rewrite orb_false_r, Hs, He.
  replace (Z.to_nat (j_start tk + zlen body - j_start tk)) with (length body) by (unfold zlen; lia). clear Hs He.
  assert (H : forall body cap, BS ∉ body -> str_chars (length body) cap (body ++ post) =
    if (0 <? zlen body) && (cap <=? zlen body) then None else Some body).
  { clear. induction body as [|c body IH]; intros cap Hb; [done|]. apply not_elem_of_cons in Hb as [Hc Hb]. cbn [length str_chars app].
    rewrite (proj2 (Ascii.eqb_neq c BS)) by congruence. rewrite IH by done. rewrite zlen_cons. pose proof (zlen_nonneg body).
    rewrite (proj2 (Z.ltb_lt 0 (zlen body + 1))) by lia. cbn [andb]. destruct (Z.leb_spec cap 1).
    - by rewrite (proj2 (Z.leb_le cap _)) by lia.
    - destruct (Z.leb_spec (cap - 1) (zlen body)), (Z.leb_spec cap (zlen body + 1)); try lia; destruct (Z.ltb_spec 0 (zlen body)); cbn; try done; lia. }
  by apply H.
Qed.

(** The sign and octal checks look at the first character only: a space in
    front lets a negative number through as a huge one, and an octal one through. *)
Example json_u64_negative :
  let s := dq "[' -1',' 010']" in
  ecm_json_parse s 4 = JTokens [mkTok ECM_J_ARR 0 14 2 (-1); mkTok ECM_J_STR 2 5 0 0; mkTok ECM_J_STR 8 12 0 0] /\
  ecm_json_u64 s (mkTok ECM_J_STR 2 5 0 0) = Some 18446744073709551615 /\ ecm_json_i64 s (mkTok ECM_J_STR 8 12 0 0) = Some 8.
Proof. vm_compute. done. Qed.
