(* ===== verification/Ctl.v ===== *)
(** * The control socket of the API: libecmaster/api/ecm_ctl.c

    Values and their types, the allowlist of objects that may be written, and
    [ecm_ctl_handle], which turns one request line into calls of the backend (the
    application: bus, PDO table, mailbox) and one reply.  The backend is a record of
    operations on a state of its own, as the C struct of function pointers is; the
    SDO writes of a request are also returned as a list, to speak about them.
    A [double] is the binary64 of [SpecFloat].  A reply is kept as a value: the
    texts of the messages, the decimals of the milliseconds and the [info] object
    are left out.  The protections are those of a real build ([ECM_CTL_BROKEN] is 0). *)
From Stdlib Require Import ZArith Lia Bool Ascii String SpecFloat.
From S2P Require Import Prelude CString Json.
From stdpp Require Import base list numbers strings.
Open Scope Z_scope.

(** ** Floating point *)

Notation double := spec_float.
Definition of_Z (z : Z) : double := binary_normalize 53 1024 z 0 false.
Definition d_add : double -> double -> double := SFadd 53 1024.
Definition d_sub : double -> double -> double := SFsub 53 1024.
Definition d_mul : double -> double -> double := SFmul 53 1024.
Definition d_finite (d : double) : bool := match d with S754_zero _ | S754_finite _ _ _ => true | _ => false end.
Definition fabs (d : double) : double := SFabs d.

(** [v * 10^k] rounded to the nearest double.  The quotient keeps 65 bits and a sticky one. *)
Definition of_decimal (neg : bool) (v k : Z) : double :=
  let sign (z : Z) := if neg then - z else z in
  if v =? 0 then S754_zero neg
  else if 0 <=? k then if 400 <? k then S754_infinity neg else binary_normalize 53 1024 (sign (v * 10 ^ k)) 0 neg
  else if Z.log2 v + 1 + 3 * k <? -1100 then S754_zero neg
  else
    let d := 10 ^ (- k) in
    let s := Z.max 0 (Z.log2 d + 66 - Z.log2 v) in
    binary_normalize 53 1024 (sign (2 * (v * 2 ^ s / d) + b2z (negb (v * 2 ^ s mod d =? 0)))) (- (s + 1)) neg.
(** Is the double exactly [v * 10^k]? *)
Definition is_decimal (d : double) (v k : Z) : bool :=
  match d with
  | S754_zero _ => v =? 0
  | S754_finite _ m e => Z.pos m * 2 ^ Z.max 0 e * 10 ^ Z.max 0 (- k) =? v * 10 ^ Z.max 0 k * 2 ^ Z.max 0 (- e)
  | _ => false
  end.
Definition subnormal (d : double) : bool :=
  match d with S754_zero _ => true | S754_finite _ m _ => Z.pos m <? 2 ^ 52 | _ => false end.

(** Decimal digits: value, number, rest. *)
Fixpoint decimals (acc n : Z) (s : str) : Z * Z * str :=
  match s with
  | c :: s' => if isdigit c then decimals (acc * 10 + digit c) (n + 1) s' else (acc, n, s)
  | [] => (acc, n, [])
  end.
(** [strtod] on a decimal number, the only form a JSON number has: value, [ERANGE]
    (infinite, or too small to be exact), rest. *)
Definition strtod (s : str) : option (double * bool * str) :=
  let '(neg, s) := match s with c :: s' => if Ascii.eqb c "-" then (true, s') else (false, s) | [] => (false, s) end in
  let '(v, n, s) := decimals 0 0 s in
  let '(v, nf, s) := match s with
                     | c :: s' => if Ascii.eqb c "." then decimals v 0 s' else (v, 0, s)
                     | [] => (v, 0, s)
                     end in
  if n + nf =? 0 then None
  else
    let '(ex, s) :=
      match s with
      | c :: s' =>
          if Ascii.eqb c "e" || Ascii.eqb c "E" then
            let '(eneg, s'') := match s' with
                                | d :: s'' => if Ascii.eqb d "-" then (true, s'') else if Ascii.eqb d "+" then (false, s'') else (false, s')
                                | [] => (false, s')
                                end in
            let '(ev, en, r) := decimals 0 0 s'' in
            if en =? 0 then (0, s) else (if eneg then - ev else ev, r)
          else (0, s)
      | [] => (0, s)
      end in
    let d := of_decimal neg v (ex - nf) in
    Some (d, negb (d_finite d) || (subnormal d && negb (v =? 0) && negb (is_decimal d v (ex - nf))), s).

Definition ecm_json_f64 (s : str) (tk : ecm_jtok_t) : option double :=
  if bool_decide (j_type tk = ECM_J_STR) then of_Z <$> ecm_json_i64 s tk
  else if negb (bool_decide (j_type tk = ECM_J_NUM)) then None
  else
    let l := j_end tk - j_start tk in
    if (l <=? 0) || (64 <=? l) then None
    else
      '(x, erange, e) ← strtod (take (Z.to_nat l) (drop (Z.to_nat (j_start tk)) s));
      if erange || negb (streq e []) || negb (d_finite x) then None else Some x.

Example f64_tenth : ecm_json_f64 (s_ "[0.1]") (mkTok ECM_J_NUM 1 4 0 0) = Some (S754_finite false 7205759403792794 (-56)).
Proof. vm_compute. reflexivity. Qed.
Example f64_small : ecm_json_f64 (s_ "-25e-3") (mkTok ECM_J_NUM 0 6 0 0) = Some (S754_finite true 7205759403792794 (-58)).
Proof. vm_compute. reflexivity. Qed.
Example f64_too_large : ecm_json_f64 (s_ "1e309") (mkTok ECM_J_NUM 0 5 0 0) = None.
Proof. vm_compute. reflexivity. Qed.

(** [(float)d] and its bits. *)
Definition to_float (d : double) : spec_float :=
  match d with S754_finite s m e => binary_normalize 24 128 (if s then Z.neg m else Z.pos m) e s | _ => d end.
Definition float_bits (f : spec_float) : Z :=
  let sgn (s : bool) := if s then 2147483648 else 0 in
  match f with
  | S754_zero s => sgn s
  | S754_infinity s => sgn s + 255 * 8388608
  | S754_nan => 255 * 8388608 + 4194304
  | S754_finite s m e => sgn s + (if Z.pos m <? 8388608 then Z.pos m else (e + 150) * 8388608 + (Z.pos m - 8388608))
  end.
Example float_bits_tenth : float_bits (to_float (of_decimal false 1 (-1))) = 0x3DCCCCCD.
Proof. vm_compute. reflexivity. Qed.

(** ** Types and values *)

Inductive ecm_ctype_t :=
  ECM_CT_U8 | ECM_CT_I8 | ECM_CT_U16 | ECM_CT_I16 | ECM_CT_U32 | ECM_CT_I32 | ECM_CT_U64 | ECM_CT_I64 | ECM_CT_F32 | ECM_CT_RAW.
#[export] Instance ctype_eq_dec : EqDecision ecm_ctype_t.
Proof. solve_decision. Defined.
Definition all_types : list ecm_ctype_t :=
  [ECM_CT_U8; ECM_CT_I8; ECM_CT_U16; ECM_CT_I16; ECM_CT_U32; ECM_CT_I32; ECM_CT_U64; ECM_CT_I64; ECM_CT_F32; ECM_CT_RAW].

Definition ecm_ctl_type_name (t : ecm_ctype_t) : string :=
  match t with
  | ECM_CT_U8 => "u8" | ECM_CT_I8 => "i8" | ECM_CT_U16 => "u16" | ECM_CT_I16 => "i16" | ECM_CT_U32 => "u32"
  | ECM_CT_I32 => "i32" | ECM_CT_U64 => "u64" | ECM_CT_I64 => "i64" | ECM_CT_F32 => "f32" | ECM_CT_RAW => "raw"
  end.
Definition ecm_ctl_type_size (t : ecm_ctype_t) : Z :=
  match t with
  | ECM_CT_U8 | ECM_CT_I8 => 1 | ECM_CT_U16 | ECM_CT_I16 => 2 | ECM_CT_U32 | ECM_CT_I32 | ECM_CT_F32 => 4
  | ECM_CT_U64 | ECM_CT_I64 => 8 | ECM_CT_RAW => 0
  end.
Definition ecm_ctl_type_parse (name : str) : option ecm_ctype_t :=
  snd <$> list_find (fun t => streq (until_nul name) (s_ (ecm_ctl_type_name t)) = true) all_types.
Definition is_signed (t : ecm_ctype_t) : bool :=
  match t with ECM_CT_I8 | ECM_CT_I16 | ECM_CT_I32 | ECM_CT_I64 => true | _ => false end.
Definition is_unsigned (t : ecm_ctype_t) : bool :=
  match t with ECM_CT_U8 | ECM_CT_U16 | ECM_CT_U32 | ECM_CT_U64 => true | _ => false end.

Record ecm_ctl_val_t := mkVal { v_kind : Z; v_i : Z; v_u : Z; v_d : double }.

Definition FLT_LIMIT : double := S754_finite false 9007198717870080 75.
Definition INT64_MAX : Z := 9223372036854775807.

Definition as_i (v : ecm_ctl_val_t) : Z := if v_kind v =? 0 then v_i v else i64 (v_u v).
Definition as_u (v : ecm_ctl_val_t) : Z := if v_kind v =? 1 then v_u v else u64 (v_i v).
Definition as_d (v : ecm_ctl_val_t) : double :=
  if v_kind v =? 2 then v_d v else if v_kind v =? 0 then of_Z (v_i v) else of_Z (v_u v).

(** [true] is the answer 0. *)
Definition ecm_ctl_val_fits (t : ecm_ctype_t) (v : ecm_ctl_val_t) : bool :=
  let bits := 8 * ecm_ctl_type_size t in
  if is_signed t then
    match (if v_kind v =? 0 then Some (v_i v) else if (v_kind v =? 1) && (v_u v <=? INT64_MAX) then Some (v_u v) else None) with
    | None => false
    | Some x => if bits =? 64 then true else (- Z.shiftl 1 (bits - 1) <=? x) && (x <=? Z.shiftl 1 (bits - 1) - 1)
    end
  else if is_unsigned t then
    match (if v_kind v =? 1 then Some (v_u v) else if (v_kind v =? 0) && (0 <=? v_i v) then Some (v_i v) else None) with
    | None => false
    | Some x => (bits =? 64) || (x <=? Z.shiftl 1 bits - 1)
    end
  else if bool_decide (t = ECM_CT_F32) then d_finite (as_d v) && SFleb (fabs (as_d v)) FLT_LIMIT
  else false.

(** [b[i] = (uint8_t)(raw >> (8 * i))] for [n] bytes. *)
Definition le_bytes (n : nat) (raw : Z) : list Z := (fun i => u8 (Z.shiftr raw (8 * Z.of_nat i))) <$> seq 0 n.
Definition ecm_ctl_encode (t : ecm_ctype_t) (v : ecm_ctl_val_t) : option (list Z) :=
  if negb (ecm_ctl_val_fits t v) then None
  else
    let raw := if bool_decide (t = ECM_CT_F32) then float_bits (to_float (as_d v))
               else if is_signed t then u64 (as_i v) else as_u v in
    Some (le_bytes (Z.to_nat (ecm_ctl_type_size t)) raw).

(** -1, 0 or 1. *)
Definition ecm_ctl_val_cmp (t : ecm_ctype_t) (v lim : ecm_ctl_val_t) : Z :=
  let three (lt gt : bool) := if lt then -1 else b2z gt in
  if is_signed t then three (as_i v <? as_i lim) (as_i lim <? as_i v)
  else if is_unsigned t then three (as_u v <? as_u lim) (as_u lim <? as_u v)
  else three (SFltb (as_d v) (as_d lim)) (SFltb (as_d lim) (as_d v)).

(** The number that [ecm_ctl_decode_json] prints; of an [f32] the bits. *)
Definition le_value (b : list Z) : Z := foldr (fun x acc => Z.lor x (Z.shiftl acc 8)) 0 b.
Definition ecm_ctl_decode_json (t : ecm_ctype_t) (b : list Z) : option Z :=
  if bool_decide (t = ECM_CT_RAW) || negb (Z.of_nat (length b) =? ecm_ctl_type_size t) then None
  else
    let raw := le_value b in
    Some (match t with
          | ECM_CT_I8 => i8 raw
          | ECM_CT_I16 => (raw + 32768) mod 65536 - 32768
          | ECM_CT_I32 => i32 raw
          | ECM_CT_I64 => i64 raw
          | _ => raw
          end).
Example ctl_encode_ex : ecm_ctl_encode ECM_CT_I16 (mkVal 0 (-2) 0 (S754_zero false)) = Some [254; 255].
Proof. reflexivity. Qed.
Example ctl_decode_ex : ecm_ctl_decode_json ECM_CT_I16 [254; 255] = Some (-2).
Proof. reflexivity. Qed.

(** ** Reply writer *)

Record rw_t := mkRw { rw_b : str; rw_cap : Z; rw_ovf : bool }.
#[export] Instance eta_rw : Eta rw_t := fun w => mkRw (rw_b w) (rw_cap w) (rw_ovf w).

Definition rput (w : rw_t) (s : str) : rw_t :=
  if rw_ovf w then w
  else if rw_cap w <? zlen (rw_b w) + zlen s + 2 then w <| rw_ovf := true |>
  else w <| rw_b ::= fun b => b ++ s |>.
(** The hexadecimal digits of a byte: [%02x] and [%02X]. *)
Definition hex_digit (upper : bool) (d : Z) : ascii :=
  ascii_of_nat (Z.to_nat (if d <? 10 then 48 + d else if upper then 55 + d else 87 + d)).
Definition hex2 (upper : bool) (b : Z) : str := [hex_digit upper (b / 16); hex_digit upper (b mod 16)].
Definition rchar (w : rw_t) (c : ascii) : rw_t :=
  if Ascii.eqb c DQ || Ascii.eqb c BS then rput w [BS; c]
  else if code c <? 0x20 then rput w (BS :: "u"%char :: "0"%char :: "0"%char :: hex2 false (code c))
  else rput w [c].
Definition rstr (w : rw_t) (s : str) : rw_t := rput (foldl rchar (rput w [DQ]) s) [DQ].
Definition rhex (w : rw_t) (b : list Z) : rw_t := rput (foldl (fun w x => rput w (hex2 true x)) (rput w [DQ]) b) [DQ].
(** The finished line; [None] is the length 0. *)
Definition rend (w : rw_t) : option str := if rw_ovf w then None else Some (rw_b w ++ ["010"%char]).

(** ** Allowlist *)

Notation ECM_CTL_ALLOW_MAX := 64%nat (only parsing).
Notation ECM_CTL_DATA_MAX := 256 (only parsing).

Record ecm_ctl_allow_t := mkAllow {
  al_vendor : Z; al_product : Z; al_index : Z; al_sub : Z; al_type : ecm_ctype_t; al_min : ecm_ctl_val_t; al_max : ecm_ctl_val_t; al_note : str
}.

Definition comm_area (index : Z) : bool := (0x1000 <=? index) && (index <=? 0x1FFF).

Definition tok_val (s : str) (tk : ecm_jtok_t) (type : ecm_ctype_t) : option ecm_ctl_val_t :=
  if bool_decide (type = ECM_CT_F32) then (fun d => mkVal 2 0 0 d) <$> ecm_json_f64 s tk
  else if is_signed type then (fun i => mkVal 0 i 0 (S754_zero false)) <$> ecm_json_i64 s tk
  else (fun u => mkVal 1 0 u (S754_zero false)) <$> ecm_json_u64 s tk.

(** The token of member [k] of object [obj]. *)
Definition member (s : str) (t : list ecm_jtok_t) (obj : Z) (k : string) : option ecm_jtok_t :=
  let v := ecm_json_get s t (zlen t) obj (s_ k) in if v <? 0 then None else Some (tok_at t v).
Definition get_u32 (s : str) (t : list ecm_jtok_t) (obj : Z) (k : string) (max : Z) : option Z :=
  tk ← member s t obj k; x ← ecm_json_u64 s tk; if max <? x then None else Some x.

Definition same_key (a b : ecm_ctl_allow_t) : bool :=
  (al_vendor a =? al_vendor b) && (al_product a =? al_product b) && (al_index a =? al_index b) && (al_sub a =? al_sub b).

(** The load fails unless [b]. *)
Definition check (b : bool) : option unit := if b then Some tt else None.

Section load.
(** [be->deny] with slave 0. *)
Context (deny0 : Z -> Z -> bool) (s : str) (t : list ecm_jtok_t).

Definition load_entry (al : list ecm_ctl_allow_t) (i : Z) : option ecm_ctl_allow_t :=
  _ ← check (bool_decide (j_type (tok_at t i) = ECM_J_OBJ));
  vendor ← get_u32 s t i "vendor" 4294967295;
  product ← get_u32 s t i "product" 4294967295;
  idx ← get_u32 s t i "index" 0xFFFF;
  sub ← get_u32 s t i "sub" 0xFF;
  tv ← member s t i "type";
  tn ← ecm_json_str s tv 16;
  type ← ecm_ctl_type_parse tn;
  _ ← check (negb (bool_decide (type = ECM_CT_RAW)));
  mn ← member s t i "min";
  mx ← member s t i "max";
  vmin ← tok_val s mn type;
  vmax ← tok_val s mx type;
  _ ← check (ecm_ctl_val_fits type vmin && ecm_ctl_val_fits type vmax && negb (0 <? ecm_ctl_val_cmp type vmin vmax));
  let note := match member s t i "note" with Some nt => default [] (ecm_json_str s nt 80) | None => [] end in
  let e := mkAllow vendor product idx sub type vmin vmax note in
  _ ← check (negb (comm_area idx) && negb (deny0 idx sub));
  if existsb (fun j => same_key j e) al then None else Some e.

Fixpoint load_loop (k : nat) (i : Z) (al : list ecm_ctl_allow_t) : option (list ecm_ctl_allow_t) :=
  match k with
  | O => Some al
  | S k =>
      _ ← check (length al <? ECM_CTL_ALLOW_MAX)%nat;
      e ← load_entry al i;
      load_loop k (ecm_json_skip t (zlen t) i) (al ++ [e])
  end.
End load.

(** The entries of the file; [None] is the answer -1. *)
Definition ecm_ctl_allow_load (deny0 : Z -> Z -> bool) (text : str) : option (list ecm_ctl_allow_t) :=
  if 65535 <=? zlen text then None
  else match ecm_json_parse text 4096 with
       | JTokens t =>
           sv ← member text t 0 "schema";
           schema ← ecm_json_u64 text sv;
           _ ← check (schema =? 1);
           let a := ecm_json_get text t (zlen t) 0 (s_ "allow") in
           _ ← check ((0 <=? a) && bool_decide (j_type (tok_at t a) = ECM_J_ARR));
           load_loop deny0 text t (Z.to_nat (j_size (tok_at t a))) (a + 1) []
       | _ => None
       end.

Definition allow_find (al : list ecm_ctl_allow_t) (vendor product index sub : Z) : option ecm_ctl_allow_t :=
  snd <$> list_find (fun e => (al_vendor e =? vendor) && (al_product e =? product) && (al_index e =? index) && (al_sub e =? sub) = true) al.

Example allow_load_ex :
  ecm_ctl_allow_load (fun i _ => i =? 0x6040)
    (dq "{'schema':1,'allow':[{'vendor':'0x1DD','product':5,'index':'0x2001','sub':1,'type':'i16','min':-5,'max':'7','note':'gain'}]}") =
  Some [mkAllow 0x1DD 5 0x2001 1 ECM_CT_I16 (mkVal 0 (-5) 0 (S754_zero false)) (mkVal 0 7 0 (S754_zero false)) (s_ "gain")].
Proof. vm_compute. reflexivity. Qed.
Example allow_load_denied :
  ecm_ctl_allow_load (fun i _ => i =? 0x6040)
    (dq "{'schema':1,'allow':[{'vendor':'0x1DD','product':5,'index':'0x6040','sub':1,'type':'i16','min':-5,'max':'7'}]}") = None.
Proof. vm_compute. reflexivity. Qed.

(** ** Requests *)

Notation ECM_CTL_RATE := 20 (only parsing).
Notation ECM_CTL_SDO_BUSY := (-1) (only parsing).
Notation ECM_CTL_SDO_TIMEOUT := (-2) (only parsing).
Notation ECM_CTL_SDO_TOO_LARGE := (-3) (only parsing).
Notation ECM_CTL_SDO_NO_MBX := (-5) (only parsing).

Record ecm_ctl_state_t := mkCtl {
  tokens : double; last_ns : Z; cmds : Z; ok : Z; errors : Z; rate_limited : Z; refused_writes : Z; sdo_reads : Z; sdo_writes : Z;
  sdo_ns_max : Z
}.
#[export] Instance eta_ctl : Eta ecm_ctl_state_t := fun s =>
  mkCtl (tokens s) (last_ns s) (cmds s) (ok s) (errors s) (rate_limited s) (refused_writes s) (sdo_reads s) (sdo_writes s) (sdo_ns_max s).
Definition ecm_ctl_state_init : ecm_ctl_state_t := mkCtl (of_Z ECM_CTL_RATE) 0 0 0 0 0 0 0 0 0.

(** The application.  Its state is [W]; a blocking SDO changes it and takes time.  A
    null [deny] is one that never refuses, a null [initcmd] one that answers 0;
    [info_fits] says whether the [info] reply fits in its buffer. *)
Record ecm_ctl_backend (W : Type) := mkBackend {
  identity : W -> Z -> option (Z * Z);
  deny : W -> Z -> Z -> Z -> bool;
  rxpdo : W -> Z -> Z -> Z -> Z;
  initcmd : W -> Z -> Z -> Z -> Z;
  ready : W -> Z -> bool;
  be_sdo_read : W -> Z -> Z -> Z -> W * (Z * list Z * Z);
  be_sdo_write : W -> Z -> Z -> Z -> list Z -> W * (Z * Z);
  mono_ns : W -> Z;
  info_fits : W -> bool;
  dump : W -> W * option str;
}.
Arguments identity {W} _ _ _.
Arguments deny {W} _ _ _ _ _.
Arguments rxpdo {W} _ _ _ _ _.
Arguments initcmd {W} _ _ _ _ _.
Arguments ready {W} _ _ _.
Arguments be_sdo_read {W} _ _ _ _ _.
Arguments be_sdo_write {W} _ _ _ _ _ _.
Arguments mono_ns {W} _ _.
Arguments info_fits {W} _ _.
Arguments dump {W} _ _.

(** What a reply says after its [id]. *)
Inductive reply_body :=
  | RFail (code : string)
  | RAbort (abort : Z)
  | RSizeMismatch (raw : list Z)
  | RRead (slave index sub : Z) (type : ecm_ctype_t) (raw : list Z) (value : option Z)
  | RWritten (slave index sub : Z) (type : ecm_ctype_t) (v : ecm_ctl_val_t) (raw : list Z) (readback : option (option Z * bool))
  | RInfo
  | RDump (m : str).
Definition reply : Type := str * reply_body.

Record sdo_call := mkCall { c_slave : Z; c_index : Z; c_sub : Z; c_data : list Z }.
(** State, application, SDO writes and reply after a request. *)
Record outcome (W : Type) := mkOut { o_st : ecm_ctl_state_t; o_w : W; o_writes : list sdo_call; o_reply : reply_body }.
Arguments mkOut {W} _ _ _ _.
Arguments o_st {W} _.
Arguments o_w {W} _.
Arguments o_writes {W} _.
Arguments o_reply {W} _.

Record req_t := mkReq { r_s : str; r_t : list ecm_jtok_t }.

Definition count_error (st : ecm_ctl_state_t) : ecm_ctl_state_t := st <| errors ::= fun n => u64 (n + 1) |>.
Definition count_ok (st : ecm_ctl_state_t) : ecm_ctl_state_t := st <| ok ::= fun n => u64 (n + 1) |>.
Definition note_time (dt : Z) (st : ecm_ctl_state_t) : ecm_ctl_state_t := if sdo_ns_max st <? dt then st <| sdo_ns_max := dt |> else st.

Record sdo_args_t := mkArgs { a_slave : Z; a_index : Z; a_sub : Z; a_type : ecm_ctype_t }.
Definition sdo_args (r : req_t) (need_type : bool) : option sdo_args_t :=
  let get k := member (r_s r) (r_t r) 0 k in
  slave ← (tk ← get "slave"; ecm_json_u64 (r_s r) tk);
  _ ← check ((1 <=? slave) && (slave <=? 0xFFFF));
  index ← get_u32 (r_s r) (r_t r) 0 "index" 0xFFFF;
  sub ← get_u32 (r_s r) (r_t r) 0 "sub" 0xFF;
  tn ← (match get "type" with
        | Some tk => ecm_json_str (r_s r) tk 16
        | None => if need_type then None else Some (s_ "raw")
        end);
  type ← ecm_ctl_type_parse tn;
  match get "ca" with Some _ => None | None => Some (mkArgs slave index sub type) end.

Section handle.
Context {W : Type} (be : ecm_ctl_backend W) (al : list ecm_ctl_allow_t).

Definition fail (st : ecm_ctl_state_t) (w : W) (code : string) : outcome W := mkOut (count_error st) w [] (RFail code).
Definition refuse (st : ecm_ctl_state_t) (w : W) (code : string) : outcome W :=
  fail (st <| refused_writes ::= fun n => u64 (n + 1) |>) w code.
Definition sdo_fail (st : ecm_ctl_state_t) (w : W) (rc abort : Z) : outcome W :=
  if rc =? ECM_CTL_SDO_BUSY then fail st w "busy"
  else if rc =? ECM_CTL_SDO_TIMEOUT then fail st w "timeout"
  else if rc =? ECM_CTL_SDO_TOO_LARGE then fail st w "too_large"
  else if rc =? ECM_CTL_SDO_NO_MBX then fail st w "no_mailbox"
  else mkOut (count_error st) w [] (RAbort abort).

Definition cmd_sdo_read (st : ecm_ctl_state_t) (w : W) (r : req_t) : outcome W :=
  match sdo_args r false with
  | None => fail st w "bad_request"
  | Some (mkArgs slave index sub type) =>
      match identity be w slave with
      | None => fail st w "no_slave"
      | Some _ =>
          if negb (ready be w slave) then fail st w "not_ready"
          else
            let '(w', (rc, b, abort)) := be_sdo_read be w slave index sub in
            let st := (note_time (u64 (mono_ns be w' - mono_ns be w)) st) <| sdo_reads ::= fun n => u64 (n + 1) |> in
            if negb (rc =? 0) then sdo_fail st w' rc abort
            else if negb (bool_decide (type = ECM_CT_RAW)) && negb (Z.of_nat (length b) =? ecm_ctl_type_size type)
            then mkOut (count_error st) w' [] (RSizeMismatch b)
            else mkOut (count_ok st) w' [] (RRead slave index sub type b (ecm_ctl_decode_json type b))
      end
  end.

(** The write itself and the reading back, after every check. *)
Definition write_back (st : ecm_ctl_state_t) (w : W) (slave index sub : Z) (type : ecm_ctype_t) (val : ecm_ctl_val_t) : outcome W :=
  let b := default [] (ecm_ctl_encode type val) in
  let '(w1, (rc, abort)) := be_sdo_write be w slave index sub b in
  let st := st <| sdo_writes ::= fun n => u64 (n + 1) |> in
  let wrote := [mkCall slave index sub b] in
  if negb (rc =? 0) then
    let o := sdo_fail (note_time (u64 (mono_ns be w1 - mono_ns be w)) st) w1 rc abort in
    mkOut (o_st o) (o_w o) wrote (o_reply o)
  else
    let '(w2, (rrc, rb, _)) := be_sdo_read be w1 slave index sub in
    let st := (note_time (u64 (mono_ns be w2 - mono_ns be w)) st) <| sdo_reads ::= fun n => u64 (n + 1) |> in
    let back := if rrc =? 0 then Some (ecm_ctl_decode_json type rb, bool_decide (rb = b)) else None in
    mkOut (count_ok st) w2 wrote (RWritten slave index sub type val b back).

Definition cmd_sdo_write (st : ecm_ctl_state_t) (w : W) (r : req_t) : outcome W :=
  match sdo_args r true with
  | None => fail st w "bad_request"
  | Some (mkArgs slave index sub type) =>
      if bool_decide (type = ECM_CT_RAW) then fail st w "bad_request"
      else match (vt ← member (r_s r) (r_t r) 0 "value"; tok_val (r_s r) vt type) with
      | None => fail st w "bad_request"
      | Some val =>
      match identity be w slave with
      | None => fail st w "no_slave"
      | Some (vendor, product) =>
          if comm_area index then refuse st w "denied_comm_area"
          else if deny be w slave index sub then refuse st w "denied_hard"
          else if rxpdo be w slave index sub <? 0 then refuse st w "denied_no_pdo_table"
          else if 0 <? rxpdo be w slave index sub then refuse st w "denied_rxpdo"
          else if 0 <? initcmd be w slave index sub then refuse st w "denied_initcmd"
          else match allow_find al vendor product index sub with
          | None => refuse st w "not_allowed"
          | Some a =>
              if negb (bool_decide (al_type a = type)) then refuse st w "type_mismatch"
              else if negb (ecm_ctl_val_fits type val) || (ecm_ctl_val_cmp type val (al_min a) <? 0) || (0 <? ecm_ctl_val_cmp type val (al_max a))
              then refuse st w "out_of_range"
              else if negb (ready be w slave) then fail st w "not_ready"
              else write_back st w slave index sub type val
          end
      end end
  end.

Definition cmd_info (st : ecm_ctl_state_t) (w : W) : outcome W :=
  if info_fits be w then mkOut (count_ok st) w [] RInfo else fail st w "too_large".
Definition cmd_dump (st : ecm_ctl_state_t) (w : W) : outcome W :=
  match dump be w with
  | (w, None) => fail st w "dump_failed"
  | (w, Some m) => mkOut (count_ok st) w [] (RDump m)
  end.

Definition NANO : double := S754_finite false 0x112e0be826d695 (-82).
(** The token bucket. *)
Definition refill (st : ecm_ctl_state_t) (now : Z) : ecm_ctl_state_t :=
  let st := if negb (last_ns st =? 0) then
              let t := d_add (tokens st) (d_mul (d_mul (of_Z (u64 (now - last_ns st))) NANO) (of_Z ECM_CTL_RATE)) in
              st <| tokens := if SFltb (of_Z ECM_CTL_RATE) t then of_Z ECM_CTL_RATE else t |>
            else st in
  st <| last_ns := now |>.

(** The text of the [id] to answer with; [None] is a bad one. *)
Definition reply_id (line : str) (t : list ecm_jtok_t) : option str :=
  if negb (bool_decide (j_type (tok_at t 0) = ECM_J_OBJ)) then Some (s_ "null")
  else match member line t 0 "id" with
       | None => Some (s_ "null")
       | Some k =>
           let is_str := bool_decide (j_type k = ECM_J_STR) in
           let a := if is_str then j_start k - 1 else j_start k in
           let b := if is_str then j_end k + 1 else j_end k in
           if (is_str || bool_decide (j_type k = ECM_J_NUM) || bool_decide (j_type k = ECM_J_NULL)) && (b - a <? 72)
           then Some (until_nul (take (Z.to_nat (b - a)) (drop (Z.to_nat a) line))) else None
       end.

Definition run_request (st : ecm_ctl_state_t) (w : W) (line : str) (t : list ecm_jtok_t) : outcome W :=
  let r := mkReq line t in
  if negb (bool_decide (j_type (tok_at t 0) = ECM_J_OBJ)) then fail st w "bad_request"
  else match (tk ← member line t 0 "cmd"; ecm_json_str line tk 24) with
       | None => fail st w "bad_request"
       | Some cmd =>
           let cmd := until_nul cmd in
           if streq cmd (s_ "info") then cmd_info st w
           else if streq cmd (s_ "sdo_read") then cmd_sdo_read st w r
           else if streq cmd (s_ "sdo_write") then cmd_sdo_write st w r
           else if streq cmd (s_ "diag_dump") then cmd_dump st w
           else fail st w "unknown_cmd"
       end.

Definition ecm_ctl_handle (st : ecm_ctl_state_t) (w : W) (line : str) (now : Z) : outcome W * str :=
  let st := refill (st <| cmds ::= fun n => u64 (n + 1) |>) now in
  let parsed := ecm_json_parse line 64 in
  let id := match parsed with JTokens t => reply_id line t | _ => Some (s_ "null") end in
  let o :=
    if SFltb (tokens st) (of_Z 1) then fail (st <| rate_limited ::= fun n => u64 (n + 1) |>) w "rate_limited"
    else
      let st := st <| tokens := d_sub (tokens st) (of_Z 1) |> in
      match id, parsed with
      | None, _ => fail st w "bad_request"
      | _, JTokens t => run_request st w line t
      | _, _ => fail st w "bad_request"
      end in
  (o, default (s_ "null") id).
End handle.
