(* ===== verification/CtlSpec.v ===== *)
(** * What the control socket guarantees

    Values keep their number on the way to the bytes of an SDO and back; the
    allowlist that is loaded is well formed; an SDO is written only when every rule
    allows it and with a value of the allowed range; the counters add up; a string in
    a reply is read back by the JSON reader as it was. *)
From Stdlib Require Import ZArith Lia Bool Ascii String SpecFloat.
From S2P Require Import Prelude CString Json Ctl.
From stdpp Require Import base list numbers strings.
Open Scope Z_scope.

(** ** Values *)

(** The number of an integer value and the range of a type. *)
Definition val_Z (v : ecm_ctl_val_t) : Z := if v_kind v =? 0 then v_i v else v_u v.
Definition type_lo (t : ecm_ctype_t) : Z := if is_signed t then - 2 ^ (8 * ecm_ctl_type_size t - 1) else 0.
Definition type_hi (t : ecm_ctype_t) : Z := if is_signed t then 2 ^ (8 * ecm_ctl_type_size t - 1) - 1 else 2 ^ (8 * ecm_ctl_type_size t) - 1.
Definition is_int (t : ecm_ctype_t) : bool := is_signed t || is_unsigned t.
Record val_wf (v : ecm_ctl_val_t) : Prop := { wf_i : is_i64 (v_i v); wf_u : is_u64 (v_u v) }.

Lemma mod_bits a n k : 0 <= n -> 0 <= k -> Z.testbit (a mod 2 ^ n) k = (k <? n) && Z.testbit a k.
Proof. intros Hn Hk. destruct (Z.ltb_spec k n); [by apply Z.mod_pow2_bits_low|apply Z.mod_pow2_bits_high; lia]. Qed.
Lemma le_bytes_S n raw : le_bytes (S n) raw = u8 raw :: le_bytes n (Z.shiftr raw 8).
Proof.
  unfold le_bytes. rewrite <- cons_seq, fmap_cons. f_equal.
  rewrite <- fmap_S_seq, <- list_fmap_compose. apply list_fmap_ext. intros i x _. cbn [compose]. rewrite Z.shiftr_shiftr by lia. do 2 f_equal. lia.
Qed.
Lemma le_bytes_length n raw : length (le_bytes n raw) = n.
Proof. unfold le_bytes. by rewrite length_fmap, length_seq. Qed.
Lemma le_value_bytes n raw : le_value (le_bytes n raw) = raw mod 2 ^ (8 * Z.of_nat n).
Proof.
  revert raw. induction n as [|n IH]; intros raw; [cbn; by rewrite Z.mod_1_r|].
  rewrite le_bytes_S. cbn [le_value foldr]. unfold le_value in IH. rewrite IH.
  apply Z.bits_inj'. intros k Hk. rewrite Z.lor_spec, Z.shiftl_spec by lia. unfold u8. change 256 with (2 ^ 8). rewrite (mod_bits raw 8), (mod_bits raw (8 * Z.of_nat (S n))) by lia.
  destruct (Z.ltb_spec k 8).
  - rewrite (Z.testbit_neg_r _ (k - 8)) by lia. rewrite orb_false_r. by rewrite (proj2 (Z.ltb_lt k (8 * Z.of_nat (S n)))) by lia.
  - rewrite mod_bits, Z.shiftr_spec by lia. replace (k - 8 + 8) with k by lia.
    destruct (Z.ltb_spec (k - 8) (8 * Z.of_nat n)), (Z.ltb_spec k (8 * Z.of_nat (S n))); done || lia.
Qed.

Ltac euclid := unfold is_i64, is_u64, u8, u64, i8, i32, i64 in *; Z.to_euclidean_division_equations; lia.
(** Closed powers and shifts as numbers. *)
Ltac ground :=
  repeat match goal with
  | |- context [2 ^ ?e] => let c := eval vm_compute in (2 ^ e) in change (2 ^ e) with c
  | H : context [2 ^ ?e] |- _ => let c := eval vm_compute in (2 ^ e) in change (2 ^ e) with c in H
  | |- context [Z.shiftl 1 ?e] => let c := eval vm_compute in (Z.shiftl 1 e) in change (Z.shiftl 1 e) with c
  | |- context [8 * ?k =? 64] => let c := eval vm_compute in (8 * k =? 64) in change (8 * k =? 64) with c
  end.
Lemma fits_int t v : is_int t = true -> val_wf v ->
  ecm_ctl_val_fits t v = true <-> (v_kind v = 0 \/ v_kind v = 1) /\ type_lo t <= val_Z v <= type_hi t.
Proof.
  intros Ht [Hi Hu]. unfold ecm_ctl_val_fits, val_Z, INT64_MAX.
  destruct t; try discriminate Ht; cbn -[Z.leb]; destruct (Z.eqb_spec (v_kind v) 0) as [K|K], (Z.eqb_spec (v_kind v) 1) as [K'|K']; try lia;
    cbn -[Z.leb]; ground; cbn [orb]; repeat (match goal with |- context [if ?b then Some _ else None] => destruct b eqn:? end); bprop; unfold is_i64, is_u64 in *; rewrite ?andb_true_iff, ?Z.leb_le; intuition (try discriminate; try lia).
Qed.
(** The word that is cut into bytes. *)
Lemma encode_word t v : is_int t = true -> val_wf v -> ecm_ctl_val_fits t v = true ->
  ecm_ctl_encode t v = Some (le_bytes (Z.to_nat (ecm_ctl_type_size t)) (u64 (val_Z v))).
Proof.
  intros Ht Hv H. unfold ecm_ctl_encode. rewrite H. cbn [negb]. apply (fits_int t v Ht Hv) in H. destruct H as [K R]. destruct Hv as [Hi Hu].
  assert (F : bool_decide (t = ECM_CT_F32) = false) by (by destruct t). rewrite F. do 2 f_equal.
  unfold val_Z, as_i, as_u, type_lo, type_hi in *.
  destruct (is_signed t) eqn:S; destruct (Z.eqb_spec (v_kind v) 0) as [E|E]; destruct (Z.eqb_spec (v_kind v) 1) as [E'|E']; try lia.
  - f_equal. assert (v_u v < 2 ^ 63) by (destruct t; try discriminate S; cbn in R; ground; lia). ground. euclid.
  - euclid.
Qed.
Lemma decode_word t x : is_int t = true -> type_lo t <= x <= type_hi t ->
  ecm_ctl_decode_json t (le_bytes (Z.to_nat (ecm_ctl_type_size t)) (u64 x)) = Some x.
Proof.
  intros Ht R. unfold ecm_ctl_decode_json. rewrite le_bytes_length, Z2Nat.id by (by destruct t). rewrite Z.eqb_refl, le_value_bytes.
  destruct t; try discriminate Ht; cbn in R |- *; f_equal; ground; euclid.
Qed.

(** An integer of the API keeps its value.  A value fits a type exactly when its
    number is in the range of the type, whichever of the signed and the unsigned
    field carries it; it is then encoded in as many bytes as the type has, and
    decoding them gives the number back.  A value that does not fit is not encoded. *)
Theorem ctl_value_roundtrip (t : ecm_ctype_t) (v : ecm_ctl_val_t) : is_int t = true -> val_wf v ->
  (ecm_ctl_val_fits t v = true <-> (v_kind v = 0 \/ v_kind v = 1) /\ type_lo t <= val_Z v <= type_hi t) /\
  match ecm_ctl_encode t v with
  | Some b => ecm_ctl_val_fits t v = true /\ Z.of_nat (length b) = ecm_ctl_type_size t /\ ecm_ctl_decode_json t b = Some (val_Z v)
  | None => ecm_ctl_val_fits t v = false
  end.
Proof.
  intros Ht Hv. split; [by apply fits_int|]. destruct (ecm_ctl_val_fits t v) eqn:F.
  - rewrite (encode_word t v Ht Hv F). split_and!; [done|by rewrite le_bytes_length, Z2Nat.id by (by destruct t)|].
    apply decode_word; [done|]. by apply (fits_int t v Ht Hv) in F as [_ F].
  - unfold ecm_ctl_encode. by rewrite F.
Qed.
Lemma ctl_value_roundtrip_witness :
  ecm_ctl_encode ECM_CT_I16 (mkVal 1 0 300 (S754_zero false)) = Some [44; 1] /\ ecm_ctl_decode_json ECM_CT_I16 [44; 1] = Some 300.
Proof.
  destruct (ctl_value_roundtrip ECM_CT_I16 (mkVal 1 0 300 (S754_zero false)) eq_refl) as [_ H]; [split; cbn; unfold is_i64, is_u64; lia|].
  assert (E : ecm_ctl_encode ECM_CT_I16 (mkVal 1 0 300 (S754_zero false)) = Some [44; 1]) by (vm_compute; reflexivity).
  rewrite E in H. exact (conj E (proj2 (proj2 H))).
Defined.

(** ** The allowlist *)

Lemma json_u64_range s tk x : ecm_json_u64 s tk = Some x -> is_u64 x.
Proof.
  unfold ecm_json_u64. destruct (int_text s tk 40) as [b|]; [|done]. cbn [mbind option_bind]. do 2 (match goal with |- (if ?c then _ else _) = _ -> _ => destruct c; [done|] end).
  destruct (strtoull (int_base tk) b) as [[[v e] r]|] eqn:E; [|done]. cbn [mbind option_bind]. destruct (_ || _); [done|]. intros [= <-].
  eapply strtoull_range; [|exact E]. unfold int_base. by destruct (bool_decide _).
Qed.
Lemma json_i64_range s tk x : ecm_json_i64 s tk = Some x -> is_i64 x.
Proof.
  unfold ecm_json_i64. destruct (int_text s tk 40) as [b|]; [|done]. cbn [mbind option_bind].
  destruct (strtoll (int_base tk) b) as [[[v e] r]|] eqn:E; [|done]. cbn [mbind option_bind]. unfold strtoll in E.
  destruct (scan_int _ b) as [[[neg m] r']|]; [|done]. revert E. cbv zeta. generalize (if neg then - m else m). intros y.
  destruct (Z.ltb_spec y (-9223372036854775808)); [intros [= <- <- <-]; cbn [orb]; done|].
  destruct (Z.ltb_spec 9223372036854775807 y); intros [= <- <- <-]; cbn [orb]; [done|]. case_match; [done|]. case_match; [done|]. intros [= <-]. unfold is_i64. lia.
Qed.
Lemma tok_val_wf s tk t v : tok_val s tk t = Some v -> val_wf v.
Proof.
  unfold tok_val. case_match; [|case_match].
  - destruct (ecm_json_f64 s tk); [|done]. intros [= <-]. by split.
  - destruct (ecm_json_i64 s tk) as [i|] eqn:E; [|done]. intros [= <-]. split; [by eapply json_i64_range|done].
  - destruct (ecm_json_u64 s tk) as [u|] eqn:E; [|done]. intros [= <-]. split; [done|by eapply json_u64_range].
Qed.
Lemma get_u32_range s t i k m x : get_u32 s t i k m = Some x -> 0 <= x <= m.
Proof.
  unfold get_u32. destruct (member s t i k) as [tk|]; [|done]. cbn [mbind option_bind]. destruct (ecm_json_u64 s tk) as [y|] eqn:E; [|done].
  cbn [mbind option_bind]. destruct (Z.ltb_spec m y); [done|]. intros [= <-]. apply json_u64_range in E. unfold is_u64 in E. lia.
Qed.

(** What an entry promises. *)
Record entry_wf (deny0 : Z -> Z -> bool) (e : ecm_ctl_allow_t) : Prop := {
  ew_ids : is_u32 (al_vendor e) /\ is_u32 (al_product e);
  ew_object : is_u16 (al_index e) /\ is_u8 (al_sub e);
  ew_type : al_type e <> ECM_CT_RAW;
  ew_area : comm_area (al_index e) = false;
  ew_deny : deny0 (al_index e) (al_sub e) = false;
  ew_values : val_wf (al_min e) /\ val_wf (al_max e);
  ew_fits : ecm_ctl_val_fits (al_type e) (al_min e) = true /\ ecm_ctl_val_fits (al_type e) (al_max e) = true;
  ew_order : ecm_ctl_val_cmp (al_type e) (al_min e) (al_max e) <= 0;
}.
Definition entry_key (e : ecm_ctl_allow_t) : Z * Z * Z * Z := (al_vendor e, al_product e, al_index e, al_sub e).
Lemma same_key_spec a b : same_key a b = true <-> entry_key a = entry_key b.
Proof. unfold same_key, entry_key. rewrite !andb_true_iff, !Z.eqb_eq. intuition congruence. Qed.

(** Takes one step of an option computation that succeeds. *)
Ltac step x E :=
  match goal with |- mbind _ ?o = Some _ -> _ => destruct o as [x|] eqn:E; [|done]; cbn [mbind option_bind] end.
Lemma check_bind {A} b (f : unit -> option A) r : (check b ≫= f) = Some r -> b = true /\ f tt = Some r.
Proof. by destruct b. Qed.
Ltac step_check := let H := fresh in intros H; apply check_bind in H as [? H]; revert H; cbv beta.
Lemma load_entry_wf deny0 s t al i e : load_entry deny0 s t al i = Some e -> entry_wf deny0 e /\ entry_key e ∉ (entry_key <$> al).
Proof.
  unfold load_entry. step_check.
  step vendor E1. step product E2. step idx E3. step sub E4. step tv E5. step tn E6. step type E7. step_check.
  step mn E8. step mx E9. step vmin E10. step vmax E11. step_check.
  step_check. destruct (existsb _ al) eqn:X; [done|]. intros [= <-].
  apply get_u32_range in E1, E2, E3, E4. apply tok_val_wf in E10, E11. bprop. rewrite bool_decide_eq_false in *. split.
  - split; cbn [al_vendor al_product al_index al_sub al_type al_min al_max]; unfold is_u32, is_u16, is_u8; intuition (done || lia).
  - intros (a & Ha & Hin)%list_elem_of_fmap. apply not_true_iff_false in X. apply X, existsb_exists. exists a.
    split; [by apply list_elem_of_In|]. by apply same_key_spec.
Qed.
Lemma load_loop_wf deny0 s t k i al al' : load_loop deny0 s t k i al = Some al' ->
  Forall (entry_wf deny0) al -> NoDup (entry_key <$> al) -> (length al <= 64)%nat ->
  Forall (entry_wf deny0) al' /\ NoDup (entry_key <$> al') /\ (length al' <= 64)%nat.
Proof.
  revert i al. induction k as [|k IH]; intros i al; cbn [load_loop]; [intros [= <-]; done|].
  step_check. step e E. match goal with H : (_ <? _)%nat = true |- _ => apply Nat.ltb_lt in H end. apply load_entry_wf in E as [W K]. intros H F N L. apply (IH _ _ H).
  - apply Forall_app. auto.
  - rewrite fmap_app. apply NoDup_app. split_and!; [done| |apply NoDup_singleton]. intros x Hx ->%list_elem_of_singleton. done.
  - rewrite length_app. cbn. lia.
Qed.
Lemma allow_list_wf deny0 text al : ecm_ctl_allow_load deny0 text = Some al ->
  Forall (entry_wf deny0) al /\ NoDup (entry_key <$> al) /\ (length al <= 64)%nat.
Proof.
  unfold ecm_ctl_allow_load. case_match; [done|]. destruct (ecm_json_parse text 4096) as [t| |]; [|done|done].
  step sv E1. step schema E2. step_check. cbv zeta. step_check.
  intros HL. apply (load_loop_wf _ _ _ _ _ _ _ HL); [constructor|constructor|cbn; lia].
Qed.

(** A list of writable objects that is loaded keeps its promises.  It has at most
    64 entries, no object of a device twice, and every entry has a numeric type,
    limits that fit the type in the right order, and an object outside the
    communication area that the application does not forbid. *)
Theorem allow_load_wf (deny0 : Z -> Z -> bool) (text : str) (al : list ecm_ctl_allow_t) :
  ecm_ctl_allow_load deny0 text = Some al ->
  (length al <= 64)%nat /\ NoDup (entry_key <$> al) /\ Forall (entry_wf deny0) al.
Proof. intros H. apply allow_list_wf in H. tauto. Qed.

Definition demo_allow : str :=
  dq "{'schema':1,'allow':[{'vendor':'0x1DD','product':5,'index':'0x2001','sub':1,'type':'i16','min':-5,'max':'7'}]}".
Definition demo_deny (index sub : Z) : bool := index =? 0x6040.
Definition demo_list : list ecm_ctl_allow_t :=
  [mkAllow 0x1DD 5 0x2001 1 ECM_CT_I16 (mkVal 0 (-5) 0 (S754_zero false)) (mkVal 0 7 0 (S754_zero false)) []].
Lemma allow_load_wf_witness : ecm_ctl_allow_load demo_deny demo_allow = Some demo_list /\ Forall (entry_wf demo_deny) demo_list.
Proof.
  assert (E : ecm_ctl_allow_load demo_deny demo_allow = Some demo_list) by (vm_compute; reflexivity).
  split; [exact E|]. exact (proj2 (proj2 (allow_load_wf demo_deny demo_allow demo_list E))).
Defined.

(** ** Which SDO is written *)

Lemma as_fits t v : val_wf v -> ecm_ctl_val_fits t v = true ->
  (is_signed t = true -> as_i v = val_Z v) /\ (is_unsigned t = true -> as_u v = val_Z v).
Proof.
  intros Hv F. split; intros S; assert (I : is_int t = true) by (unfold is_int; by rewrite S, ?orb_true_r);
    apply (fits_int t v I Hv) in F as [K R]; destruct Hv; unfold val_Z, as_i, as_u, type_lo, type_hi in *;
    destruct (Z.eqb_spec (v_kind v) 0), (Z.eqb_spec (v_kind v) 1); try lia; destruct t; try discriminate S; cbn in R; ground; euclid.
Qed.
Lemma cmp_int t v l : is_int t = true -> val_wf v -> val_wf l -> ecm_ctl_val_fits t v = true -> ecm_ctl_val_fits t l = true ->
  (ecm_ctl_val_cmp t v l <? 0) = (val_Z v <? val_Z l) /\ (0 <? ecm_ctl_val_cmp t v l) = (val_Z l <? val_Z v).
Proof.
  intros I Hv Hl Fv Fl. destruct (as_fits t v Hv Fv) as [Vi Vu], (as_fits t l Hl Fl) as [Li Lu].
  assert (T : forall x y, ((if x <? y then -1 else b2z (y <? x)) <? 0) = (x <? y) /\ (0 <? (if x <? y then -1 else b2z (y <? x))) = (y <? x)).
  { intros x y. destruct (Z.ltb_spec x y), (Z.ltb_spec y x); done || lia. }
  unfold ecm_ctl_val_cmp. cbv zeta. unfold is_int in I. destruct (is_signed t) eqn:S.
  - rewrite Vi, Li by done. apply T.
  - cbn [orb] in I. rewrite I, Vu, Lu by done. apply T.
Qed.
Lemma allow_find_spec al v p i s a : allow_find al v p i s = Some a -> a ∈ al /\ entry_key a = (v, p, i, s).
Proof.
  unfold allow_find. destruct (list_find _ al) as [[k x]|] eqn:E; [|done]. intros [= <-]. apply list_find_Some in E as (H1 & H2 & _).
  split; [by eapply list_elem_of_lookup_2|]. bprop. unfold entry_key. congruence.
Qed.

Lemma SFltb_asym a b : SFltb a b = true -> SFltb b a = false.
Proof.
  unfold SFltb. destruct a as [[]|[]| |[] m e], b as [[]|[]| |[] m' e']; cbn [SFcompare]; try done;
    rewrite (Z.compare_antisym e e'); destruct (e ?= e') eqn:E; cbn [CompOpp]; try done;
    change (PosDef.Pos.compare_cont Eq m m') with (Pos.compare m m');
    change (PosDef.Pos.compare_cont Eq m' m) with (Pos.compare m' m); rewrite (Pos.compare_antisym m m'); by destruct (Pos.compare m m').
Qed.

Section guarded.
Context {W : Type} (be : ecm_ctl_backend W).

Lemma sdo_fail_writes st w rc a : o_writes (sdo_fail (W := W) st w rc a) = [].
Proof. unfold sdo_fail. repeat case_match; done. Qed.
Lemma read_writes st w r : o_writes (cmd_sdo_read be st w r) = [].
Proof.
  unfold cmd_sdo_read. destruct (sdo_args r false) as [[]|]; [|done]. destruct (identity _ _ _); [|done]. destruct (negb _); [done|].
  destruct (be_sdo_read _ _ _ _ _) as [w' [[rc b] a]]. destruct (negb (rc =? 0)); [apply sdo_fail_writes|]. by destruct (_ && _).
Qed.
Lemma write_back_writes st w s i x t v : o_writes (write_back be st w s i x t v) = [mkCall s i x (default [] (ecm_ctl_encode t v))].
Proof.
  unfold write_back. destruct (be_sdo_write _ _ _ _ _ _) as [w1 [rc a]]. cbv zeta. destruct (negb _); [done|]. by destruct (be_sdo_read _ _ _ _ _) as [w2 [[? ?] ?]].
Qed.

(** The rules of a write, with the entry that allows it. *)
Record permitted (w : W) (c : sdo_call) (e : ecm_ctl_allow_t) : Prop := {
  pm_device : identity be w (c_slave c) = Some (al_vendor e, al_product e);
  pm_object : al_index e = c_index c /\ al_sub e = c_sub c;
  pm_comm : ~ 0x1000 <= c_index c <= 0x1FFF;
  pm_deny : deny be w (c_slave c) (c_index c) (c_sub c) = false;
  pm_rxpdo : rxpdo be w (c_slave c) (c_index c) (c_sub c) = 0;
  pm_initcmd : initcmd be w (c_slave c) (c_index c) (c_sub c) <= 0;
  pm_ready : ready be w (c_slave c) = true;
  pm_size : Z.of_nat (length (c_data c)) = ecm_ctl_type_size (al_type e);
  pm_int : al_type e <> ECM_CT_F32 -> exists x, ecm_ctl_decode_json (al_type e) (c_data c) = Some x /\ val_Z (al_min e) <= x <= val_Z (al_max e);
  pm_float : al_type e = ECM_CT_F32 -> exists d, c_data c = le_bytes 4 (float_bits (to_float d)) /\ d_finite d = true /\
    SFltb d (as_d (al_min e)) = false /\ SFltb (as_d (al_max e)) d = false;
}.

Lemma cmd_write_permitted deny0 al st w r : Forall (entry_wf deny0) al ->
  let o := cmd_sdo_write be al st w r in
  o_writes o = [] \/ exists c e, o_writes o = [c] /\ e ∈ al /\ permitted w c e.
Proof.
  intros HF. cbv zeta. unfold cmd_sdo_write. destruct (sdo_args r true) as [[slave index sub type]|]; [|by left].
  destruct (bool_decide (type = ECM_CT_RAW)) eqn:NR; [by left|].
  destruct (_ ≫= _) as [val|] eqn:EV; [|by left]. destruct (identity be w slave) as [[vendor product]|] eqn:EI; [|by left].
  destruct (comm_area index) eqn:EC; [by left|]. destruct (deny be w slave index sub) eqn:ED; [by left|].
  destruct (Z.ltb_spec (rxpdo be w slave index sub) 0); [by left|]. destruct (Z.ltb_spec 0 (rxpdo be w slave index sub)); [by left|].
  destruct (Z.ltb_spec 0 (initcmd be w slave index sub)); [by left|].
  destruct (allow_find al vendor product index sub) as [a|] eqn:EA; [|by left]. apply allow_find_spec in EA as [Ha Hk].
  destruct (bool_decide (al_type a = type)) eqn:ET; [|by left]. cbn [negb]. apply bool_decide_eq_true in ET as <-.
  destruct (negb (ecm_ctl_val_fits _ val) || _ || _) eqn:EF; [by left|]. destruct (negb (ready be w slave)) eqn:ER; [by left|].
  right. rewrite write_back_writes. eexists _, a. split; [done|]. split; [done|]. injection Hk as Hk1 Hk2 Hk3 Hk4. bprop.
  assert (Hv : val_wf val) by (destruct (member _ _ _ _); [|done]; by eapply tok_val_wf).
  pose proof (proj1 (Forall_forall _ _) HF a Ha) as [_ _ _ _ _ WV WF _].
  assert (LB : forall n x, length (le_bytes n x) = n) by apply le_bytes_length.
  destruct (decide (al_type a = ECM_CT_F32)) as [E|E].
  - unfold ecm_ctl_encode, ecm_ctl_val_fits, ecm_ctl_val_cmp in *. rewrite E in *. rewrite (bool_decide_eq_true_2 (ECM_CT_F32 = ECM_CT_F32)) in * by done.
    cbn -[le_bytes float_bits to_float SFleb Z.ltb] in *. bprop. match goal with H : d_finite _ = true, H' : SFleb _ _ = true |- _ => rewrite H, H' end. cbn [default andb negb].
    split; cbn -[le_bytes float_bits to_float]; try done; try lia.
    + congruence.
    + unfold comm_area in EC. intros [? ?]. rewrite !(proj2 (Z.leb_le _ _)) in EC by lia. done.
    + by rewrite LB, E.
    + intros _. exists (as_d val). split_and!; [done|done| |].
      * by destruct (SFltb (as_d val) (as_d (al_min a))).
      * destruct (SFltb (as_d val) (as_d (al_max a))) eqn:E1; [by apply SFltb_asym|]. by destruct (SFltb (as_d (al_max a)) (as_d val)).
  - assert (I : is_int (al_type a) = true) by (apply bool_decide_eq_false in NR; destruct (al_type a); done).
    rewrite (encode_word _ _ I Hv) by done. cbn [from_option id]. destruct WF as [F1 F2], WV as [V1 V2].
    destruct (cmp_int (al_type a) val (al_min a) I Hv V1 ltac:(done) F1) as [C1 _], (cmp_int (al_type a) val (al_max a) I Hv V2 ltac:(done) F2) as [_ C2].
    split; cbn [c_slave c_index c_sub c_data]; try done; try lia.
    + congruence.
    + unfold comm_area in EC. intros [? ?]. rewrite !(proj2 (Z.leb_le _ _)) in EC by lia. done.
    + rewrite LB, Z2Nat.id by (by destruct (al_type a)). done.
    + intros _. exists (val_Z val). split; [apply decode_word; [done|]; by apply (fits_int _ _ I Hv)|]. 
      rewrite (proj2 (Z.ltb_ge _ _)) in C1 by lia. rewrite (proj2 (Z.ltb_ge _ _)) in C2 by lia. symmetry in C1, C2. bprop. lia.
Qed.

Lemma run_permitted deny0 al st w line t : Forall (entry_wf deny0) al ->
  let o := run_request be al st w line t in
  o_writes o = [] \/ exists c e, o_writes o = [c] /\ e ∈ al /\ permitted w c e.
Proof.
  intros HF. cbv zeta. unfold run_request. cbv zeta. destruct (negb _); [by left|]. destruct (_ ≫= _) as [cmd|]; [|by left].
  destruct (streq _ _); [left; unfold cmd_info; by destruct (info_fits be w)|].
  destruct (streq _ _); [left; apply read_writes|]. destruct (streq _ _); [by apply (cmd_write_permitted deny0)|].
  destruct (streq _ _); [left; unfold cmd_dump; by destruct (dump be w) as [w' []]|by left].
Qed.

(** C17: Nothing is written to a slave through the API unless every rule allows it.
    With an allowlist that was loaded from a file, whatever line a client sends, at
    most one SDO is written, and only when the slave exists and is ready, the list has an entry
    for this object of this device, the object is outside the communication area, not
    on the hard list of the application (now or when the list was loaded), not mapped in
    the outputs of the slave, not written by the configuration; the data has the
    size of the type, and its value lies between the limits of the entry. *)
Theorem ctl_write_guarded (deny0 : Z -> Z -> bool) (text : str) (al : list ecm_ctl_allow_t) (st : ecm_ctl_state_t) (w : W) (line : str) (now : Z) :
  ecm_ctl_allow_load deny0 text = Some al ->
  let o := (ecm_ctl_handle be al st w line now).1 in
  o_writes o = [] \/
  exists c e, o_writes o = [c] /\ e ∈ al /\ permitted w c e /\ deny0 (c_index c) (c_sub c) = false.
Proof.
  intros HL. apply allow_list_wf in HL as [HF _]. cbv zeta. unfold ecm_ctl_handle. cbv zeta. cbn [fst].
  assert (R : forall o : outcome W, o_writes o = [] \/ (exists c e, o_writes o = [c] /\ e ∈ al /\ permitted w c e) ->
    o_writes o = [] \/ exists c e, o_writes o = [c] /\ e ∈ al /\ permitted w c e /\ deny0 (c_index c) (c_sub c) = false).
  { intros o [H|(c & e & H1 & H2 & H3)]; [by left|]. right. exists c, e. split_and!; [done..|]. destruct (pm_object _ _ _ H3) as [<- <-].
    by apply (proj1 (Forall_forall _ _) HF e H2). }
  apply R. clear R. destruct (SFltb _ _); [by left|]. destruct (match ecm_json_parse line 64 with JTokens t => _ | _ => _ end); [|by left].
  destruct (ecm_json_parse line 64) as [t| |]; [|by left|by left]. by apply (run_permitted deny0).
Qed.

(** ** Counters *)

(** A request is answered once, well or with an error; its writes are counted. *)
Record settled (st : ecm_ctl_state_t) (o : outcome W) : Prop := {
  sd_cmds : cmds (o_st o) = cmds st;
  sd_sum : u64 (ok (o_st o) + errors (o_st o)) = u64 (ok st + errors st + 1);
  sd_writes : u64 (sdo_writes (o_st o)) = u64 (sdo_writes st + Z.of_nat (length (o_writes o)));
}.
Lemma u64_u64 a : u64 (u64 a) = u64 a.
Proof. apply Zmod_mod. Qed.
Lemma u64_add_l a b : u64 (u64 a + b) = u64 (a + b).
Proof. unfold u64. by rewrite Zplus_mod_idemp_l. Qed.
Lemma u64_add_r a b : u64 (a + u64 b) = u64 (a + b).
Proof. unfold u64. by rewrite Zplus_mod_idemp_r. Qed.
(** States with the same counters. *)
Definition books (st : ecm_ctl_state_t) : Z * Z * Z * Z := (cmds st, ok st, errors st, sdo_writes st).
Lemma settled_error st st' w r : books st' = books st -> settled st (mkOut (count_error st') w [] r).
Proof.
  intros [= H1 H2 H3 H4]. split; cbn -[u64]; rewrite ?H1, ?H2, ?H3, ?H4; [done| |by rewrite Z.add_0_r]. rewrite u64_add_r. f_equal. lia.
Qed.
Lemma settled_ok st st' w r : books st' = books st -> settled st (mkOut (count_ok st') w [] r).
Proof.
  intros [= H1 H2 H3 H4]. split; cbn -[u64]; rewrite ?H1, ?H2, ?H3, ?H4; [done| |by rewrite Z.add_0_r]. rewrite u64_add_l. f_equal. lia.
Qed.
Lemma note_time_books dt st : books (note_time dt st) = books st.
Proof. unfold note_time. by destruct (_ <? _). Qed.
Lemma settled_sdo_fail st st' w rc a : books st' = books st -> settled st (sdo_fail st' w rc a).
Proof. intros H. unfold sdo_fail, fail. repeat (destruct (_ =? _); [by apply settled_error|]). by apply settled_error. Qed.
Lemma settled_refuse st w c : settled st (refuse st w c).
Proof. by apply settled_error. Qed.
Lemma settled_read st w r : settled st (cmd_sdo_read be st w r).
Proof.
  unfold cmd_sdo_read. destruct (sdo_args r false) as [[]|]; [|by apply settled_error]. destruct (identity _ _ _); [|by apply settled_error].
  destruct (negb _); [by apply settled_error|]. destruct (be_sdo_read _ _ _ _ _) as [w' [[rc b] a]]. cbv zeta.
  match goal with |- context [sdo_fail ?s _ _ _] => assert (B : books s = books st) by (rewrite <- (note_time_books (u64 (mono_ns be w' - mono_ns be w)) st); done) end.
  destruct (negb (rc =? 0)); [by apply settled_sdo_fail|]. destruct (_ && _); [by apply settled_error|by apply settled_ok].
Qed.
Lemma settled_write_back st w s i x t v : settled st (write_back be st w s i x t v).
Proof.
  unfold write_back. destruct (be_sdo_write _ _ _ _ _ _) as [w1 [rc a]]. cbv zeta. set (st1 := st <| sdo_writes ::= _ |>).
  assert (B1 : sdo_writes st1 = u64 (sdo_writes st + 1) /\ cmds st1 = cmds st /\ ok st1 = ok st /\ errors st1 = errors st) by done.
  clearbody st1. destruct B1 as (B1 & B2 & B3 & B4).
  destruct (negb _).
  - pose proof (settled_sdo_fail st1 (note_time (u64 (mono_ns be w1 - mono_ns be w)) st1) w1 rc a (note_time_books _ _)) as [S1 S2 S3].
    split; cbn -[u64 sdo_fail]; [congruence|by rewrite S2, B3, B4|]. rewrite S3, sdo_fail_writes, B1. cbn -[u64]. by rewrite Z.add_0_r, u64_u64.
  - destruct (be_sdo_read _ _ _ _ _) as [w2 [[rrc rb] ra]].
    match goal with |- context [count_ok ?s] => assert (B : books s = books st1) by (rewrite <- (note_time_books (u64 (mono_ns be w2 - mono_ns be w)) st1); done); generalize dependent s end.
    intros st2 [= C1 C2 C3 C4]. split; cbn -[u64]; rewrite ?C1, ?C2, ?C3, ?C4, ?B1, ?B2, ?B3, ?B4; [done| |by rewrite u64_u64]. rewrite u64_add_l. f_equal. lia.
Qed.
Lemma settled_write al st w r : settled st (cmd_sdo_write be al st w r).
Proof.
  unfold cmd_sdo_write. destruct (sdo_args r true) as [[slave index sub type]|]; [|by apply settled_error].
  destruct (bool_decide _); [by apply settled_error|]. destruct (_ ≫= _) as [val|]; [|by apply settled_error].
  destruct (identity be w slave) as [[vendor product]|]; [|by apply settled_error].
  repeat (match goal with |- settled _ (if ?b then refuse _ _ _ else _) => destruct b; [apply settled_refuse|] end).
  destruct (allow_find al vendor product index sub) as [a|]; [|apply settled_refuse].
  repeat (match goal with |- settled _ (if ?b then refuse _ _ _ else _) => destruct b; [apply settled_refuse|] end).
  destruct (negb _); [by apply settled_error|apply settled_write_back].
Qed.
Lemma settled_run al st w line t : settled st (run_request be al st w line t).
Proof.
  unfold run_request. cbv zeta. destruct (negb _); [by apply settled_error|]. destruct (_ ≫= _) as [cmd|]; [|by apply settled_error].
  destruct (streq _ _); [unfold cmd_info; destruct (info_fits be w); [by apply settled_ok|by apply settled_error]|].
  destruct (streq _ _); [apply settled_read|]. destruct (streq _ _); [apply settled_write|].
  destruct (streq _ _); [unfold cmd_dump; destruct (dump be w) as [w' []]; [by apply settled_ok|by apply settled_error]|by apply settled_error].
Qed.
Lemma refill_books st now : books (refill st now) = books st.
Proof. unfold refill. cbv zeta. by destruct (negb _). Qed.
Lemma settled_handle al st w line now : settled (st <| cmds ::= fun n => u64 (n + 1) |>) (ecm_ctl_handle be al st w line now).1.
Proof.
  unfold ecm_ctl_handle. cbv zeta. cbn [fst]. set (st0 := st <| cmds ::= _ |>). clearbody st0. pose proof (refill_books st0 now) as B.
  generalize dependent (refill st0 now). intros st1 B.
  assert (L : forall st2 o, books st2 = books st0 -> settled st2 o -> settled st0 o).
  { intros st2 o [= E1 E2 E3 E4] [S1 S2 S3]. split; congruence. }
  destruct (SFltb _ _); [by apply settled_error|]. destruct (match ecm_json_parse line 64 with JTokens t => _ | _ => _ end); [|by apply settled_error].
  destruct (ecm_json_parse line 64) as [t| |]; [|by apply settled_error|by apply settled_error]. eapply L; [|apply settled_run]. done.
Qed.

(** Requests one after the other: state, application, writes. *)
Definition ctl_run (al : list ecm_ctl_allow_t) (s : ecm_ctl_state_t * W * list sdo_call) (q : str * Z) : ecm_ctl_state_t * W * list sdo_call :=
  let '(st, w, ws) := s in let o := (ecm_ctl_handle be al st w q.1 q.2).1 in (o_st o, o_w o, ws ++ o_writes o).

(** The counters of the control socket are true.  After any requests, the number of
    commands is the number of lines, every one was answered either well or with an
    error, and the count of SDO writes is the number of writes the backend was asked
    for (all modulo 2^64). *)
Theorem ctl_books (al : list ecm_ctl_allow_t) (w : W) (qs : list (str * Z)) :
  let '(st, _, ws) := foldl (ctl_run al) (ecm_ctl_state_init, w, []) qs in
  u64 (cmds st) = u64 (Z.of_nat (length qs)) /\ u64 (ok st + errors st) = u64 (cmds st) /\
  u64 (sdo_writes st) = u64 (Z.of_nat (length ws)).
Proof.
  cut (forall st w ws n, u64 (cmds st) = u64 n -> u64 (ok st + errors st) = u64 (cmds st) -> u64 (sdo_writes st) = u64 (Z.of_nat (length ws)) ->
    let '(st', _, ws') := foldl (ctl_run al) (st, w, ws) qs in
    u64 (cmds st') = u64 (n + Z.of_nat (length qs)) /\ u64 (ok st' + errors st') = u64 (cmds st') /\ u64 (sdo_writes st') = u64 (Z.of_nat (length ws'))).
  { intros H. exact (H ecm_ctl_state_init w [] 0 eq_refl eq_refl eq_refl). }
  induction qs as [|q qs IH]; intros st w0 ws n H1 H2 H3; cbn [foldl length]; [rewrite Z.add_0_r; done|].
  unfold ctl_run at 2. pose proof (settled_handle al st w0 q.1 q.2) as [S1 S2 S3].
  generalize dependent ((ecm_ctl_handle be al st w0 q.1 q.2).1). intros o S1 S2 S3. cbn -[u64] in S1, S2, S3.
  specialize (IH (o_st o) (o_w o) (ws ++ o_writes o) (n + 1)). destruct (foldl _ _ qs) as [[st' w'] ws'].
  replace (n + Z.of_nat (S (length qs))) with (n + 1 + Z.of_nat (length qs)) by lia. apply IH.
  - rewrite S1. by rewrite u64_u64, <- (u64_add_l n), <- H1, u64_add_l.
  - rewrite S2, S1. rewrite <- (u64_add_l (ok st + errors st)), H2, u64_add_l. by rewrite u64_u64.
  - rewrite S3, length_app, Nat2Z.inj_add. by rewrite <- (u64_add_l (sdo_writes st)), H3, u64_add_l.
Qed.
End guarded.

(** An application with one slave whose object can be written. *)
Definition demo_backend : ecm_ctl_backend (list Z) :=
  mkBackend (list Z) (fun _ s => if s =? 1 then Some (0x1DD, 5) else None) (fun _ _ i x => demo_deny i x) (fun _ _ _ _ => 0)
    (fun _ _ _ _ => 0) (fun _ _ => true) (fun w _ _ _ => (w, (0, w, 0))) (fun _ _ _ _ b => (b, (0, 0))) (fun _ => 0) (fun _ => true)
    (fun w => (w, None)).
Definition demo_line : str := dq "{'id':7,'cmd':'sdo_write','slave':1,'index':'0x2001','sub':1,'type':'i16','value':-3}".
Lemma ctl_write_guarded_witness :
  let o := (ecm_ctl_handle demo_backend demo_list ecm_ctl_state_init [0; 0] demo_line 1000).1 in
  o_writes o = [mkCall 1 0x2001 1 [253; 255]] /\ exists c e, o_writes o = [c] /\ e ∈ demo_list /\ permitted demo_backend [0; 0] c e.
Proof.
  intros o. assert (E : o_writes o = [mkCall 1 0x2001 1 [253; 255]]) by (vm_compute; reflexivity). split; [exact E|].
  destruct (ctl_write_guarded demo_backend demo_deny demo_allow demo_list ecm_ctl_state_init [0; 0] demo_line 1000) as [H|(c & e & H)].
  - vm_compute. reflexivity.
  - change (o_writes o = []) in H. rewrite E in H. discriminate H.
  - exists c, e. exact (conj (proj1 H) (conj (proj1 (proj2 H)) (proj1 (proj2 (proj2 H))))).
Defined.

(** Twenty requests at one instant are served, the next is not. *)
Example ctl_rate : let qs := replicate 21 (dq "{'cmd':'info'}", 1000) in
  let st := (foldl (ctl_run demo_backend []) (ecm_ctl_state_init, [], []) qs).1.1 in
  ok st = 20 /\ rate_limited st = 1.
Proof. vm_compute. done. Qed.

(** ** Strings in replies *)

Definition escaped (c : ascii) : str :=
  if Ascii.eqb c DQ || Ascii.eqb c BS then [BS; c]
  else if code c <? 0x20 then BS :: "u"%char :: "0"%char :: "0"%char :: hex2 false (code c) else [c].
Lemma escaped_length c : zlen (escaped c) <= 6.
Proof. unfold escaped, zlen, hex2. repeat case_match; cbn; lia. Qed.
Lemma rput_fits w s : rw_ovf w = false -> zlen (rw_b w) + zlen s + 2 <= rw_cap w -> rput w s = mkRw (rw_b w ++ s) (rw_cap w) false.
Proof. intros H1 H2. unfold rput. rewrite H1, (proj2 (Z.ltb_ge _ _)) by lia. destruct w. by cbn in *; subst. Qed.
Lemma rchars_fit s w : rw_ovf w = false -> zlen (rw_b w) + 6 * zlen s + 2 <= rw_cap w ->
  foldl rchar w s = mkRw (rw_b w ++ (s ≫= escaped)) (rw_cap w) false.
Proof.
  revert w. induction s as [|c s IH]; intros w H1 H2; cbn [foldl mbind list_bind].
  - rewrite app_nil_r. destruct w. by cbn in *; subst.
  - assert (E : rchar w c = rput w (escaped c)) by (unfold rchar, escaped; by repeat case_match).
    rewrite zlen_cons in H2. pose proof (escaped_length c). pose proof (zlen_nonneg s).
    rewrite E, rput_fits by (done || lia). rewrite IH; cbn [rw_b rw_cap rw_ovf]; [by rewrite <- app_assoc|done|rewrite zlen_app; lia].
Qed.
Lemma rstr_fits s cap : 6 * zlen s + 4 <= cap -> rstr (mkRw [] cap false) s = mkRw (quoted (s ≫= escaped)) cap false.
Proof.
  intros H. pose proof (zlen_nonneg s). unfold rstr. rewrite (rput_fits (mkRw [] cap false)) by (done || (unfold zlen in *; cbn [rw_b rw_cap length]; lia)). cbn [rw_b rw_cap app].
  rewrite rchars_fit by (done || (unfold zlen in *; cbn [rw_b rw_cap length]; lia)). cbn [rw_b rw_cap].
  assert (L : zlen (s ≫= escaped) <= 6 * zlen s).
  { clear. induction s as [|c s IH]; [done|]. cbn [mbind list_bind]. rewrite zlen_app, zlen_cons. pose proof (escaped_length c). lia. }
  rewrite rput_fits; cbn [rw_b rw_cap rw_ovf]; [done|done|]. rewrite zlen_app. unfold zlen in *. cbn [length]. lia.
Qed.
(** The escape of a control character means the character. *)
Lemma control_escape c : code c < 0x20 -> code c <> 0 ->
  is_hex "0" && is_hex "0" && is_hex (hex_digit false (code c / 16)) && is_hex (hex_digit false (code c mod 16)) = true /\
  match strtol 16 ("0"%char :: "0"%char :: hex2 false (code c)) with Some (v, _, _) => v | None => 0 end = code c.
Proof. destruct c as [[] [] [] [] [] [] [] []]; vm_compute; intros H1 H2; try done; try (by contradiction H2); split; done. Qed.
Lemma escaped_jchars s : Forall (fun c => code c <> 0) s -> jchars (s ≫= escaped).
Proof.
  induction 1 as [|c s Hc _ IH]; [constructor|]. cbn [mbind list_bind]. unfold escaped at 1.
  destruct (Ascii.eqb_spec c DQ) as [->|Nd]; cbn [orb]; [apply chars_escape; [by apply (bool_decide_unpack _)|exact IH]|].
  destruct (Ascii.eqb_spec c BS) as [->|Nb]; [apply chars_escape; [by apply (bool_decide_unpack _)|exact IH]|].
  destruct (Z.ltb_spec (code c) 0x20) as [L|L].
  - destruct (control_escape c L Hc) as [H _]. by apply chars_unicode; [apply hex4_spec|].
  - by apply chars_plain.
Qed.
Lemma escaped_read s post room : Forall (fun c => code c <> 0) s -> zlen s < room ->
  str_chars (length (s ≫= escaped)) room ((s ≫= escaped) ++ post) = Some s.
Proof.
  intros H. revert room. induction H as [|c s Hc _ IH]; intros room Hr; [done|]. change ((c :: s) ≫= escaped) with (escaped c ++ (s ≫= escaped)).
  rewrite zlen_cons in Hr. pose proof (zlen_nonneg s). rewrite length_app, <- app_assoc.
  assert (P : (room <=? 1) = false) by (apply Z.leb_gt; lia). specialize (IH (room - 1) ltac:(lia)).
  generalize dependent (s ≫= escaped). intros b IH. unfold escaped.
  destruct (Ascii.eqb_spec c DQ) as [->|Nd]; cbn [orb]; [cbn [length app str_chars Nat.add]; rewrite P; cbn -[str_chars]; rewrite ?Nat.sub_0_r, IH; done|].
  destruct (Ascii.eqb_spec c BS) as [->|Nb]; [cbn [length app str_chars Nat.add]; rewrite P; cbn -[str_chars]; rewrite ?Nat.sub_0_r, IH; done|].
  destruct (Z.ltb_spec (code c) 0x20) as [L|L].
  - destruct (control_escape c L Hc) as [_ V]. assert (Hl : length (hex2 false (code c)) = 2%nat) by done.
    generalize dependent (hex2 false (code c)). intros h V Hl. destruct h as [|h1 [|h2 [|]]]; try discriminate Hl.
    cbn [length app str_chars Nat.add take drop]. change (Ascii.eqb BS BS) with true. cbv iota. cbn -[str_chars strtol Z.leb Z.ltb code].
    rewrite P, take_0, drop_0, V. rewrite (proj2 (Z.ltb_lt 0 (code c))), (proj2 (Z.ltb_lt (code c) 128)) by (unfold code in *; lia). cbn [andb].
    rewrite ?Nat.sub_0_r, IH. cbn. unfold code. by rewrite Nat2Z.id, ascii_nat_embedding.
  - cbn [length app str_chars Nat.add]. rewrite (proj2 (Ascii.eqb_neq c BS)) by done. rewrite P, IH. done.
Qed.

(** C21: A string in a reply arrives.  Whatever text without NUL is put into a reply, if
    the buffer has room for six characters for each of its own, is valid JSON: the
    reader of the same library finds one string and unescapes it to the text. *)
Theorem ctl_string_roundtrip (s : str) (cap : Z) :
  Forall (fun c => code c <> 0) s -> 6 * zlen s + 4 <= cap ->
  let w := rstr (mkRw [] cap false) s in
  rw_ovf w = false /\
  exists tk, ecm_json_parse (rw_b w) 1 = JTokens [tk] /\ ecm_json_str (rw_b w) tk (zlen s + 1) = Some s.
Proof.
  intros Hs Hc. cbv zeta. rewrite (rstr_fits s cap Hc). cbn [rw_b rw_ovf]. split; [done|].
  exists (mkTok ECM_J_STR 1 (1 + zlen (s ≫= escaped)) 0 (-1)). split.
  - apply parse_tokens. split; [|done]. exists [], (quoted (s ≫= escaped)), []. rewrite app_nil_r. split_and!; [done|constructor|constructor|].
    apply V_string. by apply escaped_jchars.
  - unfold ecm_json_str. cbn [j_type j_end j_start]. rewrite bool_decide_eq_true_2 by done. pose proof (zlen_nonneg s).
    rewrite (proj2 (Z.eqb_neq (zlen s + 1) 0)) by lia. cbn [negb orb].
    replace (Z.to_nat (1 + zlen (s ≫= escaped) - 1)) with (length (s ≫= escaped)) by (unfold zlen; lia).
    change (drop (Z.to_nat 1) (quoted (s ≫= escaped))) with ((s ≫= escaped) ++ [DQ]). apply escaped_read; [done|lia].
Qed.
Lemma ctl_string_roundtrip_witness :
  let s := [DQ; "a"; BS; "010"; "b"]%char in
  exists tk, ecm_json_parse (rw_b (rstr (mkRw [] 64 false) s)) 1 = JTokens [tk] /\ ecm_json_str (rw_b (rstr (mkRw [] 64 false) s)) tk 6 = Some s.
Proof.
  intros s. apply (ctl_string_roundtrip s 64); [repeat (constructor; [vm_compute; discriminate|]); constructor|vm_compute; discriminate].
Defined.
