(* ===== verification/CtlServer.v ===== *)
(** * The server of the control socket: libecmaster/api/ecm_ctl.c, ecm_ctl_srv_*

    Up to four clients, each with a buffer of 1024 bytes for the line it is sending
    and one for the replies it has not read yet.  The kernel is an input: [recv_t]
    and [send_t] are what [recv] and [send] answer; a chunk that does not fit in the
    room the call offers stays in the socket.  The buffers are the lists of their
    bytes ([c_out] from its start, [c_off] of them sent); what happens on the
    sockets is logged as events.  The text of a reply is a parameter.  Left out:
    creating and removing the socket file. *)
From Stdlib Require Import ZArith Lia Bool Ascii String SpecFloat.
From S2P Require Import Prelude CString Json Ctl.
From stdpp Require Import base list numbers strings.
Open Scope Z_scope.

Notation ECM_CTL_MAX_CLIENTS := 4%nat (only parsing).
Notation ECM_CTL_LINE_MAX := 1024%nat (only parsing).
Definition ECM_CTL_OUT_MAX : Z := 160 * 1024.
Definition NL : ascii := "010".

Record ecm_ctl_client_t := mkClient { c_fd : Z; c_in : str; c_out : str; c_off : nat; c_discard : bool }.
#[export] Instance eta_client : Eta ecm_ctl_client_t := fun c => mkClient (c_fd c) (c_in c) (c_out c) (c_off c) (c_discard c).

Inductive recv_t := RData (b : str) | REof | RAgain | RIntr | RErr.
Inductive send_t := SSent (n : nat) | SAgain | SIntr | SErr.
Inductive request := Line (l : str) | TooLong.
(** On one connection: it was accepted, bytes came, a request was answered, bytes were sent. *)
Inductive event := Accepted | Received (b : str) | Answered (r : request) (t : str) | Sent (b : str).

Definition client_close (c : ecm_ctl_client_t) : ecm_ctl_client_t := mkClient (-1) [] [] 0 false.
Definition newline (s : str) : option nat := fst <$> list_find (fun c => c = NL) s.
Definition full (c : ecm_ctl_client_t) : bool := (length (c_in c) =? ECM_CTL_LINE_MAX)%nat.
Definition has_line (c : ecm_ctl_client_t) : bool :=
  (0 <=? c_fd c) && (bool_decide (is_Some (newline (c_in c))) || full c).

(** ** Sending *)

Fixpoint client_send (rs : list send_t) (c : ecm_ctl_client_t) : ecm_ctl_client_t * str :=
  let done_ := if (c_off c =? length (c_out c))%nat then c <| c_off := O |> <| c_out := [] |> else c in
  if negb ((0 <=? c_fd c) && (c_off c <? length (c_out c))%nat) then (done_, [])
  else match rs with
       | [] | SAgain :: _ => (done_, [])
       | SIntr :: rs => client_send rs c
       | SErr :: _ => (client_close c, [])
       | SSent n :: rs =>
           let b := take n (drop (c_off c) (c_out c)) in
           let '(c, s) := client_send rs (c <| c_off ::= Nat.add (length b) |>) in (c, b ++ s)
       end.

(** The client and whether it was dropped. *)
Definition client_queue (c : ecm_ctl_client_t) (b : str) : ecm_ctl_client_t * bool :=
  let c := if negb (c_off c =? 0)%nat && (ECM_CTL_OUT_MAX <? zlen (c_out c) + zlen b)
           then c <| c_out ::= drop (c_off c) |> <| c_off := O |> else c in
  if ECM_CTL_OUT_MAX <? zlen (c_out c) + zlen b then (client_close c, true)
  else (c <| c_out ::= fun o => o ++ b |>, false).

(** ** Receiving *)

(** Bytes and answers that are waiting in the socket. *)
Definition weight (rs : list recv_t) : nat := sum_list_with (fun r => match r with RData b => S (length b) | _ => 1%nat end) rs.
Fixpoint read_loop (fuel : nat) (rs : list recv_t) (c : ecm_ctl_client_t) : ecm_ctl_client_t * str :=
  match fuel with
  | O => (c, [])
  | S fuel =>
      if full c then (c, [])
      else match rs with
           | [] | RAgain :: _ => (c, [])
           | RIntr :: rs => read_loop fuel rs c
           | REof :: _ | RErr :: _ | RData [] :: _ => (client_close c, [])
           | RData b :: rs =>
               let room := (ECM_CTL_LINE_MAX - length (c_in c))%nat in
               let r := take room b in
               let rs := match drop room b with [] => rs | more => RData more :: rs end in
               let c := if c_discard c then
                          match newline r with
                          | None => c
                          | Some i => c <| c_in := drop (S i) r |> <| c_discard := false |>
                          end
                        else c <| c_in ::= fun l => l ++ r |> in
               let '(c, s) := read_loop fuel rs c in (c, r ++ s)
           end
  end.
Definition client_read (rs : list recv_t) (c : ecm_ctl_client_t) : ecm_ctl_client_t * str := read_loop (S (weight rs)) rs c.

(** A line without the carriage return at its end. *)
Definition strip_cr (l : str) : str :=
  match last l with Some c => if Ascii.eqb c "013" then take (length l - 1) l else l | None => l end.
(** The next request of a client. *)
Definition client_request (c : ecm_ctl_client_t) : ecm_ctl_client_t * option request :=
  if (c_fd c <? 0) || bool_decide (c_in c = []) then (c, None)
  else match newline (c_in c) with
       | None => if full c then (c <| c_in := [] |> <| c_discard := true |>, Some TooLong) else (c, None)
       | Some l => (c <| c_in ::= drop (S l) |>, Some (Line (strip_cr (take l (c_in c)))))
       end.

(** ** The server *)

Record ecm_ctl_srv_t := mkSrv {
  lfd : Z; s_st : ecm_ctl_state_t; accepted : Z; refused_clients : Z; dropped_slow : Z; dropped_long : Z; s_c : list ecm_ctl_client_t
}.
#[export] Instance eta_srv : Eta ecm_ctl_srv_t := fun s =>
  mkSrv (lfd s) (s_st s) (accepted s) (refused_clients s) (dropped_slow s) (dropped_long s) (s_c s).
Definition ecm_ctl_srv_open (fd : Z) : ecm_ctl_srv_t :=
  mkSrv fd ecm_ctl_state_init 0 0 0 0 (replicate ECM_CTL_MAX_CLIENTS (mkClient (-1) [] [] 0 false)).
Definition ecm_ctl_srv_clients (s : ecm_ctl_srv_t) : Z := Z.of_nat (length (filter (fun c => 0 <= c_fd c) (s_c s))).
Definition ecm_ctl_srv_pending (s : ecm_ctl_srv_t) : bool := existsb has_line (s_c s).
(** Descriptor, [POLLIN], [POLLOUT]. *)
Definition ecm_ctl_srv_fds (s : ecm_ctl_srv_t) (max : nat) : list (Z * bool * bool) :=
  if (lfd s <? 0) || (max <? 1)%nat then []
  else take max ((lfd s, true, false) ::
         ((fun c => (c_fd c, negb (full c), (c_off c <? length (c_out c))%nat)) <$> filter (fun c => 0 <= c_fd c) (s_c s))).
Definition ecm_ctl_srv_close (s : ecm_ctl_srv_t) : ecm_ctl_srv_t := s <| s_c ::= fmap client_close |> <| lfd := -1 |>.

Notation log := (list (nat * event)).

(** [accept4] until it fails. *)
Fixpoint accept_loop (fds : list Z) (s : ecm_ctl_srv_t) : ecm_ctl_srv_t * log :=
  match fds with
  | [] => (s, [])
  | fd :: fds =>
      if fd <? 0 then (s, [])
      else match list_find (fun c => c_fd c < 0) (s_c s) with
           | None => accept_loop fds (s <| refused_clients ::= fun n => u64 (n + 1) |>)
           | Some (i, _) =>
               let '(s, l) := accept_loop fds (s <| s_c ::= <[i := mkClient fd [] [] 0 false]> |> <| accepted ::= fun n => u64 (n + 1) |>) in
               (s, (i, Accepted) :: l)
           end
  end.
(** What poll reported: descriptor, readable, answers of [recv]. *)
Definition read_one (p : Z * bool * list recv_t) (s : ecm_ctl_srv_t) : ecm_ctl_srv_t * log :=
  let '(fd, readable, rs) := p in
  match list_find (fun c => c_fd c = fd) (s_c s) with
  | Some (i, c) =>
      if readable then let '(c, b) := client_read rs c in (s <| s_c ::= <[i := c]> |>, [(i, Received b)]) else (s, [])
  | None => (s, [])
  end.
Fixpoint read_all (ps : list (Z * bool * list recv_t)) (s : ecm_ctl_srv_t) : ecm_ctl_srv_t * log :=
  match ps with
  | [] => (s, [])
  | p :: ps => let '(s, l) := read_one p s in let '(s, l') := read_all ps s in (s, l ++ l')
  end.

Section serve.
Context {W : Type} (be : ecm_ctl_backend W) (al : list ecm_ctl_allow_t).
(** The line of a reply and that of [line_too_long]. *)
Context (reply_text : str -> reply_body -> str) (long_text : str).

Definition queue_reply (s : ecm_ctl_srv_t) (i : nat) (c : ecm_ctl_client_t) (r : request) (t : str) : ecm_ctl_srv_t * log :=
  let '(c, slow) := match t with [] => (c, false) | _ => client_queue c t end in
  let s := s <| s_c ::= <[i := c]> |> in
  (if slow then s <| dropped_slow ::= fun n => u64 (n + 1) |> else s, [(i, Answered r t)]).
(** One request of client [i]; the number says whether there was one. *)
Definition serve_one (now : Z) (i : nat) (s : ecm_ctl_srv_t) (w : W) : ecm_ctl_srv_t * W * log * nat :=
  match s_c s !! i with
  | None => (s, w, [], O)
  | Some c =>
      match client_request c with
      | (_, None) => (s, w, [], O)
      | (c, Some TooLong) =>
          let s := s <| dropped_long ::= fun n => u64 (n + 1) |>
                     <| s_st ::= fun st => count_error (st <| cmds ::= fun n => u64 (n + 1) |>) |> in
          let '(s, l) := queue_reply s i c TooLong long_text in (s, w, l, 1%nat)
      | (c, Some (Line x)) =>
          let '(o, id) := ecm_ctl_handle be al (s_st s) w x now in
          let '(s, l) := queue_reply (s <| s_st := o_st o |>) i c (Line x) (reply_text id (o_reply o)) in (s, o_w o, l, 1%nat)
      end
  end.
Fixpoint serve_loop (now : Z) (max run : nat) (ids : list nat) (s : ecm_ctl_srv_t) (w : W) : ecm_ctl_srv_t * W * log * nat :=
  match ids with
  | [] => (s, w, [], run)
  | i :: ids =>
      if (run <? max)%nat then
        let '(s, w, l, n) := serve_one now i s w in
        let '(s, w, l', run) := serve_loop now max (run + n) ids s w in (s, w, l ++ l', run)
      else (s, w, [], run)
  end.
Fixpoint send_all (sends : nat -> list send_t) (ids : list nat) (s : ecm_ctl_srv_t) : ecm_ctl_srv_t * log :=
  match ids with
  | [] => (s, [])
  | i :: ids =>
      let '(s, l) :=
        match s_c s !! i with
        | Some c =>
            if (0 <=? c_fd c) && (c_off c <? length (c_out c))%nat
            then let '(c, b) := client_send (sends i) c in (s <| s_c ::= <[i := c]> |>, [(i, Sent b)]) else (s, [])
        | None => (s, [])
        end in
      let '(s, l') := send_all sends ids s in (s, l ++ l')
  end.

(** What the kernel does around one call, and the limit of requests. *)
Record service_in := mkIn {
  in_accept : list Z; in_polled : list (Z * bool * list recv_t); in_sends : nat -> list send_t; in_now : Z; in_max : nat
}.
Definition ecm_ctl_srv_service (x : service_in) (s : ecm_ctl_srv_t) (w : W) : ecm_ctl_srv_t * W * log * nat :=
  if lfd s <? 0 then (s, w, [], O)
  else
    let '(s, l1) := accept_loop (in_accept x) s in
    let '(s, l2) := read_all (in_polled x) s in
    let '(s, w, l3, run) := serve_loop (in_now x) (in_max x) O (seq 0 ECM_CTL_MAX_CLIENTS) s w in
    let '(s, l4) := send_all (in_sends x) (seq 0 ECM_CTL_MAX_CLIENTS) s in
    (s, w, l1 ++ l2 ++ l3 ++ l4, run).
End serve.
