(* ===== verification/CtlServerSpec.v ===== *)
(** * Streams of the control socket

    The reference is an automaton that reads a connection byte by byte ([frames]):
    a line of at most 1023 bytes is a request, of a longer one the rest is ignored.
    The server, which sees the stream in the chunks of [recv], moves buffers and
    serves one request at a time between others, refines it; its replies leave in the
    order of the requests. *)
From Stdlib Require Import ZArith Lia Bool Ascii String SpecFloat.
From S2P Require Import Prelude CString Json Ctl CtlSpec CtlServer.
From stdpp Require Import base list numbers strings.
Open Scope Z_scope.

(** ** The reference *)

(** Inside an over-long line?  The line so far. *)
Definition frame_step (s : bool * str) (c : ascii) : bool * str * list request :=
  let '(skip, cur) := s in
  if Ascii.eqb c NL then (false, [], if skip then [] else [Line (strip_cr cur)])
  else if skip then (true, [], [])
  else if (length cur =? 1023)%nat then (true, [], [TooLong])
  else (false, cur ++ [c], []).
Fixpoint frames (s : bool * str) (b : str) : bool * str * list request :=
  match b with
  | [] => (s, [])
  | c :: b => let '(s, l) := frame_step s c in let '(s, l') := frames s b in (s, l ++ l')
  end.

Lemma frames_cons s c b : frames s (c :: b) = ((frames (frame_step s c).1 b).1, (frame_step s c).2 ++ (frames (frame_step s c).1 b).2).
Proof. cbn [frames]. destruct (frame_step s c) as [s1 l]. cbn [fst snd]. by destruct (frames s1 b). Qed.
Lemma frames_app s a b : frames s (a ++ b) = ((frames (frames s a).1 b).1, (frames s a).2 ++ (frames (frames s a).1 b).2).
Proof.
  revert s. induction a as [|c a IH]; intros s; [cbn; by destruct (frames s b)|]. change ((c :: a) ++ b) with (c :: (a ++ b)).
  rewrite !frames_cons, IH. cbn [fst snd]. by rewrite app_assoc.
Qed.
Lemma frames_plain cur l : NL ∉ l -> (length cur + length l < 1024)%nat -> frames (false, cur) l = ((false, cur ++ l), []).
Proof.
  revert cur. induction l as [|c l IH]; intros cur N H; [by rewrite app_nil_r|]. apply not_elem_of_cons in N as [Nc N]. cbn [length] in H.
  rewrite frames_cons. cbn [frame_step]. rewrite (proj2 (Ascii.eqb_neq c NL)) by congruence. rewrite (proj2 (Nat.eqb_neq _ _)) by lia. cbn [fst snd].
  rewrite IH by (done || (rewrite length_app; cbn; lia)). cbn [fst snd app]. by rewrite <- app_assoc.
Qed.
Lemma frames_line l r : NL ∉ l -> (length l < 1024)%nat ->
  frames (false, []) (l ++ NL :: r) = ((frames (false, []) r).1, Line (strip_cr l) :: (frames (false, []) r).2).
Proof. intros N H. rewrite frames_app, frames_plain by done. cbn [fst snd]. by rewrite frames_cons. Qed.
Lemma frames_skip l : NL ∉ l -> frames (true, []) l = ((true, []), []).
Proof.
  induction l as [|c l IH]; intros N; [done|]. apply not_elem_of_cons in N as [Nc N]. rewrite frames_cons. cbn [frame_step].
  rewrite (proj2 (Ascii.eqb_neq c NL)) by congruence. cbn [fst snd]. by rewrite IH.
Qed.
Lemma frames_long l : NL ∉ l -> length l = 1024%nat -> frames (false, []) l = ((true, []), [TooLong]).
Proof.
  intros N H. destruct (exists_last (l := l)) as (a & c & ->); [by intros ->|]. rewrite length_app in H. cbn in H.
  apply not_elem_of_app in N as [Na Nc]. rewrite frames_app, frames_plain by (done || (cbn; lia)). cbn [fst snd app]. rewrite frames_cons. cbn [frame_step].
  rewrite (proj2 (Ascii.eqb_neq c NL)) by (intros ->; apply Nc; by left). rewrite (proj2 (Nat.eqb_eq _ _)) by lia. done.
Qed.
Lemma newline_Some s i : newline s = Some i -> s = take i s ++ NL :: drop (S i) s /\ NL ∉ take i s.
Proof.
  unfold newline. destruct (list_find _ s) as [[k x]|] eqn:E; [|done]. intros [= <-]. apply list_find_Some in E as (H1 & -> & H3).
  split; [symmetry; by apply take_drop_middle|]. intros Hin. apply list_elem_of_lookup_1 in Hin as [j Hj]. apply lookup_take_Some in Hj as [Hj Hlt].
  by apply (H3 j NL).
Qed.
Lemma newline_None s : newline s = None -> NL ∉ s.
Proof. unfold newline. destruct (list_find _ s) as [[]|] eqn:E; [done|]. apply list_find_None in E. intros _ Hin. by apply (proj1 (Forall_forall _ _) E NL Hin). Qed.
Lemma frames_skip_to r i : newline r = Some i -> frames (true, []) r = frames (false, []) (drop (S i) r).
Proof.
  intros H. apply newline_Some in H as [H N]. rewrite H at 1. rewrite frames_app, frames_skip by done. cbn [fst snd app]. rewrite frames_cons.
  cbn [frame_step fst snd app]. change (Ascii.eqb NL NL) with true. cbn [fst snd app]. by destruct (frames _ _).
Qed.

(** ** One connection *)

(** What happened on it: bytes received, requests with their replies, bytes sent. *)
Record hist := mkHist { h_rx : str; h_ans : list (request * str); h_sent : str }.
Definition hist_step (h : hist) (e : event) : hist :=
  match e with
  | Accepted => mkHist [] [] []
  | Received b => mkHist (h_rx h ++ b) (h_ans h) (h_sent h)
  | Answered r t => mkHist (h_rx h) (h_ans h ++ [(r, t)]) (h_sent h)
  | Sent b => mkHist (h_rx h) (h_ans h) (h_sent h ++ b)
  end.

Record tracks (c : ecm_ctl_client_t) (h : hist) : Prop := {
  tr_len : (length (c_in c) <= 1024)%nat;
  tr_skip : c_discard c = true -> c_in c = [];
  tr_state : (frames (false, []) (h_rx h)).1 = (frames (c_discard c, []) (c_in c)).1;
  tr_requests : (frames (false, []) (h_rx h)).2 = (fst <$> h_ans h) ++ (frames (c_discard c, []) (c_in c)).2;
  tr_off : (c_off c <= length (c_out c))%nat;
  tr_replies : h_sent h ++ drop (c_off c) (c_out c) = concat (snd <$> h_ans h);
}.
(** A connection that is closed has no promise to keep. *)
Definition ok_client (c : ecm_ctl_client_t) (h : hist) : Prop := c_fd c < 0 \/ tracks c h.

Lemma accepted_ok fd h : ok_client (mkClient fd [] [] 0 false) (hist_step h Accepted).
Proof. right. by split; cbn; try lia. Qed.

(** A chunk of the stream reaches the buffer. *)
Lemma take_chunk c h r : tracks c h -> (length (c_in c) + length r <= 1024)%nat ->
  tracks (if c_discard c then match newline r with None => c | Some i => c <| c_in := drop (S i) r |> <| c_discard := false |> end
          else c <| c_in ::= fun l => l ++ r |>) (hist_step h (Received r)).
Proof.
  intros [T1 T2 T3 T4 T5 T6] Hr. destruct (c_discard c) eqn:D.
  - rewrite (T2 eq_refl) in *. cbn [frames fst snd] in T3, T4. rewrite app_nil_r in T4. destruct (newline r) as [i|] eqn:E.
    + split; cbn -[frames drop]; try done; [rewrite length_drop; cbn in Hr; lia| |]; rewrite frames_app, T3, (frames_skip_to r i E); cbn [fst snd]; [done|by rewrite T4].
    + apply newline_None in E. split; cbn -[frames]; rewrite ?D, ?(T2 eq_refl); try done; [|]; rewrite frames_app, T3, (frames_skip r E); cbn [fst snd frames]; [done|by rewrite T4].
  - split; cbn -[frames]; rewrite ?D; try done; [by rewrite length_app| |]; rewrite !frames_app, T3; cbn [fst snd]; [done|by rewrite T4, app_assoc].
Qed.
Lemma read_loop_fd fuel rs c : c_fd (read_loop fuel rs c).1 = c_fd c \/ c_fd (read_loop fuel rs c).1 = -1.
Proof.
  revert rs c. induction fuel as [|fuel IH]; intros rs c; cbn [read_loop]; [by left|]. destruct (full c); [by left|].
  destruct rs as [|[[|x b]| | | |] rs]; try (by left); try (by right); [|apply IH]. cbv zeta.
  match goal with |- context [read_loop fuel ?r ?d] => specialize (IH r d); destruct (read_loop fuel r d) as [c' s'] end. cbn [fst] in *.
  destruct IH as [IH|IH]; [left|by right]. rewrite IH. destruct (c_discard c); [by destruct (newline _)|done].
Qed.
Lemma read_loop_ok fuel rs c h : tracks c h -> ok_client (read_loop fuel rs c).1 (hist_step h (Received (read_loop fuel rs c).2)).
Proof.
  revert rs c h. induction fuel as [|fuel IH]; intros rs c h T; cbn [read_loop].
  { right. cbn. rewrite app_nil_r. by destruct h. }
  assert (Z : ok_client c (hist_step h (Received []))) by (right; cbn; rewrite app_nil_r; by destruct h).
  destruct (full c); [done|]. destruct rs as [|[[|x b]| | | |] rs]; try done; try (by left); [|by apply IH].
  cbv zeta. set (r := take _ (x :: b)). assert (Hr : (length (c_in c) + length r <= 1024)%nat) by (pose proof (tr_len _ _ T); unfold r; rewrite length_take; lia).
  pose proof (take_chunk c h r T Hr) as T'. clearbody r. match goal with |- context [read_loop fuel ?q ?d] => specialize (IH q d _ T'); destruct (read_loop fuel q d) as [c' s'] end.
  cbn [fst snd] in *. destruct IH as [IH|IH]; [by left|right]. cbn in IH. by rewrite <- app_assoc in IH.
Qed.
Lemma client_read_ok rs c h : ok_client c h -> ok_client (client_read rs c).1 (hist_step h (Received (client_read rs c).2)).
Proof.
  intros [H|H]; [|by apply read_loop_ok]. left. unfold client_read. destruct (read_loop_fd (S (weight rs)) rs c) as [->| ->]; lia.
Qed.
(** A request is taken from the buffer; its reply is queued. *)
Lemma request_tracks c h r c' : tracks c h -> client_request c = (c', Some r) ->
  c_out c' = c_out c /\ c_off c' = c_off c /\ c_fd c' = c_fd c /\ (length (c_in c') <= 1024)%nat /\ (c_discard c' = true -> c_in c' = []) /\
  (frames (c_discard c, []) (c_in c)).1 = (frames (c_discard c', []) (c_in c')).1 /\
  (frames (c_discard c, []) (c_in c)).2 = r :: (frames (c_discard c', []) (c_in c')).2.
Proof.
  intros [T1 T2 _ _ _ _]. unfold client_request. destruct ((c_fd c <? 0) || _) eqn:E; [done|]. apply orb_false_iff in E as [_ E].
  apply bool_decide_eq_false in E. assert (D : c_discard c = false) by (destruct (c_discard c); [by specialize (T2 eq_refl)|done]). rewrite D.
  destruct (newline (c_in c)) as [l|] eqn:N.
  - intros [= <- <-]. apply newline_Some in N as [N1 N2]. cbn -[frames drop]. rewrite D. split_and!; try done; [rewrite length_drop; lia| |].
    all: rewrite N1 at 1; rewrite frames_line; [done|done|]; rewrite N1, length_app in T1; cbn in T1; lia.
  - destruct (full c) eqn:F; [|done]. intros [= <- <-]. apply newline_None in N. apply Nat.eqb_eq in F. cbn -[frames]. rewrite frames_long by done.
    split_and!; try done. cbn. lia.
Qed.
Lemma queue_tracks c c' h r t : tracks c h -> client_request c = (c', Some r) ->
  ok_client (match t with [] => (c', false) | _ => client_queue c' t end).1 (hist_step h (Answered r t)).
Proof.
  intros T R. pose proof (request_tracks c h r c' T R) as (Q1 & Q2 & Q3 & Q4 & Q5 & Q6 & Q7). destruct T as [_ _ T3 T4 T5 T6].
  assert (G : forall out off, (off <= length out)%nat -> drop off out = drop (c_off c) (c_out c) ++ t ->
    tracks (mkClient (c_fd c') (c_in c') out off (c_discard c')) (hist_step h (Answered r t))).
  { intros out off H1 H2. split; cbn -[frames]; try done.
    - by rewrite T3.
    - by rewrite T4, Q7, fmap_app, <- app_assoc.
    - rewrite H2, app_assoc, T6, fmap_app, concat_app. cbn. by rewrite app_nil_r. }
  assert (Ec : c' = mkClient (c_fd c') (c_in c') (c_out c) (c_off c) (c_discard c')) by (rewrite <- Q1, <- Q2; by destruct c').
  destruct t as [|x t]; [right; rewrite Ec; apply G; [done|by rewrite app_nil_r]|]. set (tt := x :: t) in *. clearbody tt.
  unfold client_queue. cbv zeta. rewrite Q2, Q1. destruct (negb _ && _) eqn:EC; cbn [c_out upd eta].
  - match goal with |- ok_client (if ?b then _ else _).1 _ => destruct b end; [left; cbn; lia|]. right. rewrite Ec. cbn. apply G; [rewrite length_app, length_drop; lia|by rewrite drop_0].
  - rewrite Q1. match goal with |- ok_client (if ?b then _ else _).1 _ => destruct b end; [left; cbn; lia|]. right. rewrite Ec. cbn. apply G; [rewrite length_app; lia|]. by rewrite drop_app_le.
Qed.
Lemma send_ok rs c h : ok_client c h -> ok_client (client_send rs c).1 (hist_step h (Sent (client_send rs c).2)).
Proof.
  intros [H|T].
  { left. destruct rs; cbn [client_send]; rewrite (proj2 (Z.leb_gt 0 (c_fd c))) by lia; cbn [andb negb fst]; by destruct (_ =? _)%nat. }
  revert c h T. induction rs as [|r rs IH]; intros c h T; cbn [client_send];
    set (c1 := if (c_off c =? length (c_out c))%nat then _ else c).
  all: assert (Z : ok_client c1 (hist_step h (Sent []))) by
    (right; unfold c1; destruct T as [T1 T2 T3 T4 T5 T6]; destruct (Nat.eqb_spec (c_off c) (length (c_out c))) as [E|E];
     split; cbn -[frames]; rewrite ?app_nil_r; try done; rewrite <- T6, E, drop_all, app_nil_r; done).
  all: clearbody c1; destruct (negb _); [done|]. { done. }
  destruct r as [n| | |]; [|done|by apply IH|left; cbn; lia]. cbv zeta. set (b := take n (drop (c_off c) (c_out c))).
  assert (T' : tracks (c <| c_off ::= Nat.add (length b) |>) (hist_step h (Sent b))).
  { destruct T as [T1 T2 T3 T4 T5 T6]. assert (Hb : (length b <= length (c_out c) - c_off c)%nat) by (unfold b; rewrite length_take, length_drop; lia).
    split; cbn -[frames]; try done; [lia|]. rewrite <- app_assoc, <- T6. f_equal. rewrite Nat.add_comm, <- drop_drop. unfold b at 1.
    rewrite <- (take_drop n (drop (c_off c) (c_out c))) at 3. f_equal. unfold b. rewrite length_take.
    destruct (Nat.le_ge_cases n (length (drop (c_off c) (c_out c)))); [by rewrite Nat.min_l|]. rewrite Nat.min_r by done. by rewrite !drop_ge. }
  specialize (IH _ _ T'). destruct (client_send rs _) as [c' s']. cbn [fst snd] in *. destruct IH as [IH|IH]; [by left|right]. cbn in IH. by rewrite <- app_assoc in IH.
Qed.

(** One unit of fuel for each byte and each answer is enough: more changes nothing. *)
Lemma take_len c r : (length (c_in c) + length r <= 1024)%nat ->
  (length (c_in (if c_discard c then match newline r with None => c | Some i => c <| c_in := drop (S i) r |> <| c_discard := false |> end
          else c <| c_in ::= fun l => l ++ r |>)) <= 1024)%nat.
Proof. intros H. destruct (c_discard c); [destruct (newline r)|]; cbn -[drop]; rewrite ?length_drop, ?length_app; lia. Qed.
Lemma read_fuel f1 f2 rs c : (length (c_in c) <= 1024)%nat -> (weight rs < f1)%nat -> (weight rs < f2)%nat -> read_loop f1 rs c = read_loop f2 rs c.
Proof.
  revert f2 rs c. induction f1 as [|f1 IH]; intros [|f2] rs c Hc H1 H2; try lia. cbn [read_loop]. destruct (full c) eqn:F; [done|]. apply Nat.eqb_neq in F.
  destruct rs as [|[[|x b]| | | |] rs]; try done; [|apply IH; [done|unfold weight in *; cbn in *; lia..]].
  cbv zeta. set (r := take _ (x :: b)). set (rs' := match drop _ (x :: b) with [] => rs | _ => _ end).
  assert (Hw : (weight rs' < weight (RData (x :: b) :: rs))%nat).
  { unfold rs'. destruct (drop _ (x :: b)) as [|y d] eqn:E; [unfold weight; cbn; lia|].
    assert (L : (length (y :: d) < length (x :: b))%nat) by (rewrite <- E, length_drop; cbn [length]; lia). unfold weight in *. cbn [sum_list_with] in *. lia. }
  rewrite (IH f2 rs'); [done| |lia|lia]. apply take_len. unfold r. rewrite length_take. lia.
Qed.

(** ** The server *)

Definition events_of (i : nat) (L : log) : list event := snd <$> filter (fun x => x.1 = i) L.
Definition hist_of (i : nat) (L : log) : hist := foldl hist_step (mkHist [] [] []) (events_of i L).
Definition srv_ok (s : ecm_ctl_srv_t) (L : log) : Prop := forall i c, s_c s !! i = Some c -> ok_client c (hist_of i L).

Lemma hist_of_snoc i j e L : hist_of i (L ++ [(j, e)]) = if decide (j = i) then hist_step (hist_of i L) e else hist_of i L.
Proof.
  unfold hist_of, events_of. rewrite filter_app, fmap_app, foldl_app. rewrite filter_cons. cbn [fst]. by destruct (decide (j = i)).
Qed.
Lemma srv_ok_event s s' L i c e : srv_ok s L -> s_c s' = <[i := c]> (s_c s) -> ok_client c (hist_step (hist_of i L) e) -> srv_ok s' (L ++ [(i, e)]).
Proof.
  intros H E Hc j x Hj. rewrite hist_of_snoc. rewrite E in Hj. destruct (decide (i = j)) as [<-|N].
  - apply list_lookup_insert_Some in Hj as [(_ & <- & _)|[? _]]; done.
  - rewrite list_lookup_insert_ne in Hj by done. by apply H.
Qed.
Lemma srv_ok_same s s' L : srv_ok s L -> s_c s' = s_c s -> srv_ok s' L.
Proof. intros H E i c Hi. apply H. by rewrite <- E. Qed.

Lemma accept_ok fds s L : srv_ok s L -> srv_ok (accept_loop fds s).1 (L ++ (accept_loop fds s).2).
Proof.
  revert s L. induction fds as [|fd fds IH]; intros s L H; cbn [accept_loop]; [by rewrite app_nil_r|].
  destruct (fd <? 0); [by rewrite app_nil_r|]. destruct (list_find _ (s_c s)) as [[i c]|]; [|apply IH; by eapply srv_ok_same].
  match goal with |- context [accept_loop fds ?x] => specialize (IH x (L ++ [(i, Accepted)])); destruct (accept_loop fds x) as [s' l] end.
  cbn [fst snd] in *. rewrite <- app_assoc in IH. apply IH. eapply srv_ok_event; [exact H|reflexivity|apply accepted_ok].
Qed.
Lemma read_one_ok p s L : srv_ok s L -> srv_ok (read_one p s).1 (L ++ (read_one p s).2).
Proof.
  intros H. destruct p as [[fd readable] rs]. cbn [read_one]. destruct (list_find _ (s_c s)) as [[i c]|] eqn:E; [|by rewrite app_nil_r].
  destruct readable; [|by rewrite app_nil_r]. apply list_find_Some in E as (E & _).
  pose proof (client_read_ok rs c _ (H i c E)) as R. destruct (client_read rs c) as [c' b]. cbn [fst snd] in *. by eapply srv_ok_event.
Qed.
Lemma read_all_ok ps s L : srv_ok s L -> srv_ok (read_all ps s).1 (L ++ (read_all ps s).2).
Proof.
  revert s L. induction ps as [|p ps IH]; intros s L H; cbn [read_all]; [by rewrite app_nil_r|]. apply (read_one_ok p) in H.
  destruct (read_one p s) as [s1 l1]. cbn [fst snd] in H. apply IH in H. destruct (read_all ps s1) as [s2 l2]. cbn [fst snd] in *. by rewrite app_assoc.
Qed.
Lemma send_all_ok sends ids s L : srv_ok s L -> srv_ok (send_all sends ids s).1 (L ++ (send_all sends ids s).2).
Proof.
  revert s L. induction ids as [|i ids IH]; intros s L H; cbn [send_all]; [by rewrite app_nil_r|].
  match goal with |- context [let '(_, _) := ?p in _] => assert (P : srv_ok p.1 (L ++ p.2)); [|destruct p as [s1 l1]; cbn [fst snd] in P] end.
  { destruct (s_c s !! i) as [c|] eqn:E; [|by rewrite app_nil_r]. destruct (_ && _); [|by rewrite app_nil_r].
    pose proof (send_ok (sends i) c _ (H i c E)) as R. destruct (client_send (sends i) c) as [c' b]. cbn [fst snd] in *. by eapply srv_ok_event. }
  apply IH in P. destruct (send_all sends ids s1) as [s2 l2]. cbn [fst snd] in *. by rewrite app_assoc.
Qed.

Section serve_spec.
Context {W : Type} (be : ecm_ctl_backend W) (al : list ecm_ctl_allow_t) (reply_text : str -> reply_body -> str) (long_text : str).
Notation serve_one := (serve_one be al reply_text long_text).
Notation serve_loop := (serve_loop be al reply_text long_text).
Notation service := (ecm_ctl_srv_service be al reply_text long_text).

Lemma queue_reply_ok s s0 L i c c' r t : srv_ok s L -> s_c s !! i = Some c -> client_request c = (c', Some r) -> s_c s0 = s_c s ->
  srv_ok (queue_reply s0 i c' r t).1 (L ++ (queue_reply s0 i c' r t).2).
Proof.
  intros H E R Es. unfold queue_reply. assert (T : tracks c (hist_of i L)).
  { destruct (H i c E) as [N|T]; [|done]. unfold client_request in R. rewrite (proj2 (Z.ltb_lt _ 0) N) in R. done. }
  pose proof (queue_tracks c c' _ r t T R) as Q. destruct (match t with [] => (c', false) | _ => _ end) as [c2 slow]. cbn [fst] in Q.
  eapply srv_ok_event; [exact H| |exact Q]. destruct slow; cbn; by rewrite Es.
Qed.
Lemma serve_one_ok now i s w L : srv_ok s L -> let '(s', _, l, _) := serve_one now i s w in srv_ok s' (L ++ l).
Proof.
  intros H. unfold CtlServer.serve_one. destruct (s_c s !! i) as [c|] eqn:E; [|by rewrite app_nil_r].
  destruct (client_request c) as [c' [[x|]|]] eqn:R; [| |by rewrite app_nil_r].
  - destruct (ecm_ctl_handle be al (s_st s) w x now) as [o id].
    match goal with |- context [queue_reply ?s0 _ _ _ ?t] => pose proof (queue_reply_ok s s0 L i c c' (Line x) t H E R eq_refl) as Q end.
    revert Q. match goal with |- context [queue_reply ?a ?b ?c ?d ?e] => by destruct (queue_reply a b c d e) end.
  - match goal with |- context [queue_reply ?s0 _ _ _ _] => pose proof (queue_reply_ok s s0 L i c c' TooLong long_text H E R eq_refl) as Q end.
    revert Q. match goal with |- context [queue_reply ?a ?b ?c ?d ?e] => by destruct (queue_reply a b c d e) end.
Qed.
Lemma serve_loop_ok now max run ids s w L : srv_ok s L -> let '(s', _, l, _) := serve_loop now max run ids s w in srv_ok s' (L ++ l).
Proof.
  revert run s w L. induction ids as [|i ids IH]; intros run s w L H; cbn [CtlServer.serve_loop]; [by rewrite app_nil_r|].
  destruct (run <? max)%nat; [|by rewrite app_nil_r]. pose proof (serve_one_ok now i s w L H) as H1. destruct (serve_one now i s w) as [[[s1 w1] l1] n].
  specialize (IH (run + n)%nat s1 w1 _ H1). destruct (serve_loop now max (run + n) ids s1 w1) as [[[s2 w2] l2] n2]. by rewrite app_assoc.
Qed.
Lemma service_ok x s w L : srv_ok s L -> let '(s', _, l, _) := service x s w in srv_ok s' (L ++ l).
Proof.
  intros H. unfold ecm_ctl_srv_service. destruct (lfd s <? 0); [by rewrite app_nil_r|]. apply (accept_ok (in_accept x)) in H.
  destruct (accept_loop _ s) as [s1 l1]. cbn [fst snd] in H. apply (read_all_ok (in_polled x)) in H. destruct (read_all _ s1) as [s2 l2]. cbn [fst snd] in H.
  pose proof (serve_loop_ok (in_now x) (in_max x) 0 (seq 0 4) s2 w _ H) as H3. destruct (serve_loop _ _ _ _ s2 w) as [[[s3 w3] l3] run].
  apply (send_all_ok (in_sends x) (seq 0 4)) in H3. destruct (send_all _ _ s3) as [s4 l4]. cbn [fst snd] in H3. by rewrite <- !app_assoc in *.
Qed.

Definition service_run (acc : ecm_ctl_srv_t * W * log) (x : service_in) : ecm_ctl_srv_t * W * log :=
  let '(s, w, L) := acc in let '(s, w, l, _) := service x s w in (s, w, L ++ l).
Lemma run_ok xs s w L : srv_ok s L -> let '(s', _, L') := foldl service_run (s, w, L) xs in srv_ok s' L'.
Proof.
  revert s w L. induction xs as [|x xs IH]; intros s w L H; [done|]. cbn [foldl]. unfold service_run at 2.
  pose proof (service_ok x s w L H) as H1. destruct (service x s w) as [[[s1 w1] l] n]. by apply IH.
Qed.

(** C18: The server of the control socket serves streams.  However the kernel cuts the
    bytes of a client into pieces, whenever the server is called and whatever the other
    clients do: on a connection that is open, the requests answered so far, followed by
    those complete in the buffer, are exactly the requests of the byte stream received
    since it was accepted (lines of at most 1023 bytes; one refusal for a longer one); when no
    request is pending, they are all answered; and what was sent, followed by what is
    queued, is the replies in the order of the requests. *)
Theorem ctl_server_stream (fd : Z) (w : W) (xs : list service_in) :
  let '(s, _, L) := foldl service_run (ecm_ctl_srv_open fd, w, []) xs in
  forall i c, s_c s !! i = Some c -> 0 <= c_fd c ->
    let h := hist_of i L in
    (frames (false, []) (h_rx h)).2 = (fst <$> h_ans h) ++ (frames (c_discard c, []) (c_in c)).2 /\
    (has_line c = false -> (frames (false, []) (h_rx h)).2 = fst <$> h_ans h) /\
    h_sent h ++ drop (c_off c) (c_out c) = concat (snd <$> h_ans h).
Proof.
  pose proof (run_ok xs (ecm_ctl_srv_open fd) w []) as H. destruct (foldl service_run _ xs) as [[s w'] L].
  assert (H0 : srv_ok (ecm_ctl_srv_open fd) []).
  { intros i c Hi. left. cbn in Hi. apply (lookup_replicate_1 4) in Hi as [-> _]. done. }
  intros i c Hi Hfd. destruct (H H0 i c Hi) as [?|[T1 T2 T3 T4 T5 T6]]; [lia|]. cbv zeta. split_and!; [done| |done].
  intros P. rewrite T4. unfold has_line in P. rewrite (proj2 (Z.leb_le 0 _) Hfd) in P. cbn [andb] in P. apply orb_false_iff in P as [P1 P2].
  apply bool_decide_eq_false in P1. apply Nat.eqb_neq in P2. assert (N : newline (c_in c) = None) by (destruct (newline _); [by destruct P1|done]).
  apply newline_None in N. destruct (c_discard c); [rewrite frames_skip by done|rewrite frames_plain by (done || (cbn; lia))]; cbn [snd]; by rewrite app_nil_r.
Qed.
End serve_spec.

(** A request that comes in two pieces, between them a line that is too long of another client. *)
Definition demo_text (id : str) (r : reply_body) : str := match r with RInfo => s_ "info" ++ [NL] | _ => s_ "error" ++ [NL] end.
Definition demo_calls : list service_in :=
  [mkIn [7; 8] [] (fun _ => []) 1000 4%nat;
   mkIn [] [(7, true, [RData (dq "{'cmd':'in")]); (8, true, [RData (replicate 1500 "x"%char); RAgain])] (fun _ => [SSent 3]) 2000 4%nat;
   mkIn [] [(7, true, [RIntr; RData (dq "fo'}" ++ [NL])])] (fun _ => [SSent 2; SIntr; SSent 9]) 3000 4%nat].
Lemma ctl_server_stream_witness :
  let '(s, _, L) := foldl (service_run demo_backend [] demo_text (s_ "long" ++ [NL])) (ecm_ctl_srv_open 3, [], []) demo_calls in
  (frames (false, []) (h_rx (hist_of 0 L))).2 = fst <$> h_ans (hist_of 0 L) /\
  h_ans (hist_of 0 L) = [(Line (dq "{'cmd':'info'}"), s_ "info" ++ [NL])] /\ h_sent (hist_of 0 L) = s_ "info" ++ [NL] /\
  fst <$> h_ans (hist_of 1 L) = [TooLong].
Proof.
  pose proof (ctl_server_stream demo_backend [] demo_text (s_ "long" ++ [NL]) 3 [] demo_calls) as H.
  destruct (foldl _ _ demo_calls) as [[s w] L] eqn:E. vm_compute in E. injection E as <- <- <-.
  specialize (H 0%nat _ eq_refl). destruct H as (_ & H & _); [vm_compute; discriminate|]. specialize (H eq_refl).
  split; [exact H|]. vm_compute. repeat split.
Defined.
