(* ===== verification/Api.v ===== *)
(** * The publisher of the API: libecmaster/api/ecm_api.c

    The handoff of a snapshot between two threads (begin, fill, commit, take), the
    keys of the schema, the JSON writer, the list of CPUs, the readers of /sys and the
    publication of a file.  The document itself is in [ApiDoc].

    The writer is a state transformer [jw_t -> jw_t], the state being the C struct; a
    piece of text that does not fit sets [ovf] and nothing is written any more.  A
    file system is a map from names to contents; [ecm_api_publish] also returns the
    state after every system call, since a reader may look at any of them.  The
    builds with a negative control (ECM_API_HO_BROKEN, ECM_API_PUBLISH_INPLACE) are
    left out. *)
From Stdlib Require Import ZArith Lia Bool Ascii String.
From S2P Require Import Prelude CString Json Diag.
From stdpp Require Import base list numbers strings gmap.
Open Scope Z_scope.

(** ** Handoff *)

Section handoff.
Context {A : Type}.

(** The arrays of two are functions of a bool, as in [Diag.Handoff]. *)
Record ecm_api_ho_t := mkAho {
  a_state : bool -> bool; a_seq : bool -> Z; a_puts : Z; a_drops : Z; a_next : bool; a_open : option bool; a_slot : bool -> A
}.
#[export] Instance eta_aho : Eta ecm_api_ho_t := fun h =>
  mkAho (a_state h) (a_seq h) (a_puts h) (a_drops h) (a_next h) (a_open h) (a_slot h).

Definition ecm_api_ho_init (slots : bool -> A) : ecm_api_ho_t := mkAho (fun _ => false) (fun _ => 0) 0 0 false None slots.

(** The slot to fill, [None] when both are full. *)
Definition ecm_api_ho_begin (h : ecm_api_ho_t) : ecm_api_ho_t * option bool :=
  let k := a_next h in
  if a_state h k then
    let k := negb k in
    if a_state h k then (h <| a_drops ::= fun n => u64 (n + 1) |> <| a_open := None |>, None)
    else (h <| a_open := Some k |>, Some k)
  else (h <| a_open := Some k |>, Some k).
Definition ecm_api_ho_commit (h : ecm_api_ho_t) : ecm_api_ho_t :=
  match a_open h with
  | None => h
  | Some k =>
      let h := h <| a_puts ::= fun n => u64 (n + 1) |> in
      let h := h <| a_seq := Handoff.set_at (a_seq h) k (a_puts h) |> in
      let h := h <| a_state := Handoff.set_at (a_state h) k true |> in
      h <| a_next := negb k |> <| a_open := None |>
  end.
Definition ecm_api_ho_put (h : ecm_api_ho_t) (src : A) : ecm_api_ho_t * bool :=
  match ecm_api_ho_begin h with
  | (h, None) => (h, false)
  | (h, Some k) => (ecm_api_ho_commit (h <| a_slot := Handoff.set_at (a_slot h) k src |>), true)
  end.
(** With nothing in between, the second look at a slot sees what the first saw. *)
Definition ecm_api_ho_get (h : ecm_api_ho_t) : ecm_api_ho_t * option A :=
  let f0 := a_state h false in
  let f1 := a_state h true in
  if negb f0 && negb f1 then (h, None)
  else
    let both := (f0 && f1) || (negb (Bool.eqb f0 f1) && a_state h f0) in
    let k := if both then negb (a_seq h false <? a_seq h true) else negb f0 in
    (h <| a_state := Handoff.set_at (a_state h) k false |>, Some (a_slot h k)).
End handoff.
Arguments ecm_api_ho_t : clear implicits.

(** ** Keys *)

Definition ecm_api_bus_key (s : Z) : string :=
  if (0 <=? s) && (s <? 4) then nth (Z.to_nat s) ["RUN"; "DEGRADED"; "LOST"; "RECOVER"] "UNKNOWN" else "UNKNOWN".
Definition ecm_api_dc_key (s : Z) : string :=
  if s =? 0 then "UNANCHORED" else if s =? 1 then "ACQUIRE" else if s =? 2 then "LOCKED" else "UNKNOWN".
Definition ecm_api_sact_key (a : Z) : string :=
  if a =? 0 then "none" else if a =? 1 then "ack" else if a =? 2 then "op" else if a =? 3 then "reconfig" else "unknown".
Definition FIND_KEYS : list string :=
  ["chain_broken"; "missing_link_up"; "no_address"; "cable_fwd"; "cable_ret"; "fwd_no_origin";
   "pu_only"; "pdi"; "lost_link"; "state"; "saturated"; "diag_lost"; "emcy"; "emcy_lost"]%string.
Definition ecm_api_finding_key (t : Z) : string :=
  if (0 <=? t) && (t <? Z.of_nat (length FIND_KEYS)) then nth (Z.to_nat t) FIND_KEYS "unknown" else "unknown".
Definition ecm_api_sev_key (s : Z) : string :=
  if s =? 0 then "info" else if s =? 1 then "warn" else if s =? 2 then "error" else "unknown".
Definition ecm_api_al_key (al : Z) : string :=
  match Z.land al 0x0F with 1 => "INIT" | 2 => "PREOP" | 3 => "BOOT" | 4 => "SAFEOP" | 8 => "OP" | _ => "UNKNOWN" end.
Definition ecm_emcy_class_name (code : Z) : string :=
  if code =? 0 then "error reset / no error"
  else match Z.shiftr code 8 with
       | 0x10 => "generic error"
       | 0x20 | 0x21 | 0x22 | 0x23 => "current"
       | 0x30 | 0x31 | 0x32 | 0x33 => "voltage"
       | 0x40 | 0x41 | 0x42 => "temperature"
       | 0x50 => "device hardware"
       | 0x60 | 0x61 | 0x62 | 0x63 => "device software"
       | 0x70 => "additional modules"
       | 0x80 | 0x81 | 0x82 => "monitoring / communication"
       | 0x90 => "external error"
       | 0xF0 => "additional functions"
       | 0xFF => "device specific"
       | _ => "unknown class"
       end.

(** ** JSON writer *)

Notation COMMA_MAX := 24%nat (only parsing).
Record jw_t := mkJw { jw_b : str; jw_cap : Z; jw_ovf : bool; jw_depth : nat; jw_comma : list bool }.
#[export] Instance eta_jw : Eta jw_t := fun j => mkJw (jw_b j) (jw_cap j) (jw_ovf j) (jw_depth j) (jw_comma j).
Definition jw_init (cap : Z) (depth : nat) : jw_t := mkJw [] cap false depth (replicate COMMA_MAX false).

(** [jraw] and, the text once formatted, [jputs] and [jprintf]: all or nothing. *)
Definition jraw (s : str) (j : jw_t) : jw_t :=
  if jw_ovf j then j
  else if jw_cap j <? zlen (jw_b j) + zlen s + 1 then j <| jw_ovf := true |>
  else j <| jw_b ::= fun b => b ++ s |>.
Definition hex_char (upper : bool) (d : Z) : ascii :=
  ascii_of_nat (Z.to_nat (if d <? 10 then 48 + d else (if upper then 55 else 87) + d)).
Definition jchar (c : ascii) : str :=
  if Ascii.eqb c DQ || Ascii.eqb c BS then [BS; c]
  else if code c <? 0x20 then [BS; "u"; "0"; "0"; hex_char false (code c / 16); hex_char false (code c mod 16)]%char
  else [c].
Definition jstr (s : str) (j : jw_t) : jw_t := jraw [DQ] (foldl (fun j c => jraw (jchar c) j) (jraw [DQ] j) s).
Definition comma_at (j : jw_t) : bool := default false (jw_comma j !! jw_depth j).
Definition separator (depth : nat) : str := if (depth =? 1)%nat then [","; "010"]%char else [","%char].
Definition jsep (j : jw_t) : jw_t :=
  let j := if comma_at j then jraw (separator (jw_depth j)) j else j in
  j <| jw_comma ::= <[jw_depth j := true]> |>.
Definition jkey (k : str) (j : jw_t) : jw_t := jraw [":"%char] (jstr k (jsep j)).
Definition jopen (c : ascii) (j : jw_t) : jw_t :=
  let j := jraw [c] j in
  let j := if (jw_depth j + 1 <? COMMA_MAX)%nat then j <| jw_depth ::= S |> else j in
  j <| jw_comma ::= <[jw_depth j := false]> |>.
Definition jclose (c : ascii) (j : jw_t) : jw_t := jraw [c] (j <| jw_depth ::= Nat.pred |>).

(** [%PRIu64], [%PRId64] and [%0*X]; the fuel is the number of digits of the type. *)
Fixpoint udec (fuel : nat) (n : Z) : str :=
  match fuel with
  | O => []
  | S fuel => (if n <? 10 then [] else udec fuel (n / 10)) ++ [ascii_of_nat (Z.to_nat (48 + n mod 10))]
  end.
Definition fmt_u64 (v : Z) : str := udec 20 (u64 v).
Definition fmt_i64 (v : Z) : str := let v := i64 v in if v <? 0 then "-"%char :: udec 20 (- v) else udec 20 v.
Fixpoint uhex (fuel : nat) (n : Z) : str :=
  match fuel with
  | O => []
  | S fuel => (if n <? 16 then [] else uhex fuel (n / 16)) ++ [hex_char true (n mod 16)]
  end.
Definition fmt_hex (digits : nat) (v : Z) : str :=
  let s := uhex 8 (u32 v) in replicate (digits - length s) "0"%char ++ s.

(** A sequence of calls, and the calls between an opening and a closing one. *)
Definition jdo (l : list (jw_t -> jw_t)) (j : jw_t) : jw_t := foldl (fun j f => f j) j l.
Definition enclose (op : jw_t -> jw_t) (c : ascii) (l : list (jw_t -> jw_t)) (j : jw_t) : jw_t := jclose c (jdo l (op j)).
Definition jwhen (b : bool) (l : list (jw_t -> jw_t)) : jw_t -> jw_t := if b then jdo l else jdo [].

Definition kobj (k : string) (j : jw_t) : jw_t := jopen "{" (jkey (s_ k) j).
Definition karr (k : string) (j : jw_t) : jw_t := jopen "[" (jkey (s_ k) j).
Definition aobj (j : jw_t) : jw_t := jopen "{" (jsep j).
Definition ku64 (k : string) (v : Z) (j : jw_t) : jw_t := jraw (fmt_u64 v) (jkey (s_ k) j).
Definition ki64 (k : string) (v : Z) (j : jw_t) : jw_t := jraw (fmt_i64 v) (jkey (s_ k) j).
Definition kstr (k : string) (v : str) (j : jw_t) : jw_t := jstr v (jkey (s_ k) j).
Definition kbool (k : string) (v : bool) (j : jw_t) : jw_t := jraw (if v then s_ "true" else s_ "false") (jkey (s_ k) j).
Definition knull (k : string) (j : jw_t) : jw_t := jraw (s_ "null") (jkey (s_ k) j).
Definition khex (k : string) (v : Z) (digits : nat) (j : jw_t) : jw_t :=
  jraw (quoted (s_ "0x" ++ fmt_hex digits v)) (jkey (s_ k) j).
Definition kopt (k : string) (v : Z) : jw_t -> jw_t := if v <? 0 then knull k else ki64 k v.
(** An element that is a number. *)
Definition anum (v : Z) (j : jw_t) : jw_t := jraw (fmt_u64 v) (jsep j).
Definition astr (s : str) (j : jw_t) : jw_t := jstr s (jsep j).
(** The list without its trailing zeros. *)
Fixpoint drop_zeros (l : list Z) : list Z :=
  match l with
  | [] => []
  | x :: l => match drop_zeros l with [] => if x =? 0 then [] else [x] | t => x :: t end
  end.
Definition kcounts (k : string) (b : list Z) (n : nat) : jw_t -> jw_t := enclose (karr k) "]" (anum <$> drop_zeros (take n b)).
Definition ku64x4 (k : string) (v : list Z) : jw_t -> jw_t := enclose (karr k) "]" (anum <$> take 4 v).

(** ** CPUs *)

(** [m |= 1ull << c] for [a <= c <= b]. *)
Definition cpu_range (m a b : Z) : Z := foldl (fun m c => Z.lor m (Z.shiftl 1 c)) m (seqZ a (b - a + 1)).
(** One item of the list, [a] or [a-b]. *)
Definition cpu_item (p : str) : option (Z * Z * str) :=
  '(a, _, p) ← strtol 10 p;
  if (a <? 0) || (63 <? a) then None
  else match p with
       | c :: p' =>
           if Ascii.eqb c "-" then
             '(b, _, e) ← strtol 10 p';
             if (b <? a) || (63 <? b) then None else Some (a, b, e)
           else Some (a, a, p)
       | [] => Some (a, a, p)
       end.
Fixpoint cpus_loop (fuel : nat) (p : str) (m : Z) : option Z :=
  match fuel, p with
  | _, [] => Some m
  | O, _ => None
  | S fuel, _ =>
      '(a, b, p) ← cpu_item p;
      let m := cpu_range m a b in
      match p with
      | [] => Some m
      | c :: p => if Ascii.eqb c "," then (if streq p [] then None else cpus_loop fuel p m) else None
      end
  end.
(** Every item has a character at least: [length s] rounds are enough. *)
Definition ecm_api_parse_cpus (s : str) : option Z :=
  if streq s [] then None else m ← cpus_loop (length s) s 0; if m =? 0 then None else Some m.
Example parse_cpus_ex : ecm_api_parse_cpus (s_ "1,4-6") = Some 0x72 /\ ecm_api_parse_cpus (s_ "3,") = None /\
  ecm_api_parse_cpus (s_ "6-4") = None /\ ecm_api_parse_cpus (s_ "64") = None.
Proof. vm_compute. done. Qed.

(** ** Publication *)

Notation fs := (gmap str str).
(** What the system answers: [write] takes some of the bytes, is interrupted, or fails. *)
Inductive write_t := WOk (n : nat) | WIntr | WErr (e : Z).
Record publish_env := mkPub { p_open : option Z; p_writes : list write_t; p_close : option Z; p_rename : option Z }.
Notation ENAMETOOLONG := 36 (only parsing).

(** The states after each [write], the last one and the error; [None] while the
    answers that are given do not end the loop. *)
Fixpoint write_loop (ws : list write_t) (tmp rest : str) (f : fs) : option (list fs * fs * option Z) :=
  match rest, ws with
  | [], _ => Some ([], f, None)
  | _, [] => None
  | _, WErr e :: _ => Some ([], f, Some e)
  | _, WIntr :: ws => write_loop ws tmp rest f
  | _, WOk n :: ws =>
      let f1 := <[tmp := default [] (f !! tmp) ++ take n rest]> f in
      '(l, f2, r) ← write_loop ws tmp (drop n rest) f1; Some (f1 :: l, f2, r)
  end.
Definition tmp_name (dir name : str) : str := dir ++ s_ "/." ++ name ++ s_ ".tmp".
Definition dst_name (dir name : str) : str := dir ++ s_ "/" ++ name.
Definition ecm_api_publish (e : publish_env) (dir name buf : str) (f : fs) : option (list fs * Z) :=
  let tmp := tmp_name dir name in
  let dst := dst_name dir name in
  if 512 <=? zlen tmp then Some ([f], - ENAMETOOLONG)
  else if 512 <=? zlen dst then Some ([f], - ENAMETOOLONG)
  else match p_open e with
  | Some e => Some ([f], - e)
  | None =>
      let f0 := <[tmp := []]> f in
      '(l, f1, r) ← write_loop (p_writes e) tmp buf f0;
      match r, p_close e, p_rename e with
      | Some e, _, _ | None, Some e, _ | None, None, Some e => Some (f0 :: l ++ [delete tmp f1], - e)
      | None, None, None => Some (f0 :: l ++ [<[dst := default [] (f1 !! tmp)]> (delete tmp f1)], 0)
      end
  end.
