(* ===== verification/ApiDoc.v ===== *)
(** * The published document: libecmaster/api/ecm_api.h and ecm_api.c

    The snapshots the threads hand over, what is read once from /sys and /proc, and
    [ecm_api_stats_json], which writes all of it with the writer of [Api].  A C array
    with a counter beside it is a list and the counter; a flag is a bool; a char array
    is the string in it.  [bound] gives the bounds of the histogram (see [Histogram]).
    Reading a file is a parameter: its contents, or nothing when it cannot be opened. *)
From Stdlib Require Import ZArith Lia Bool Ascii String.
From S2P Require Import Prelude CString Json Histogram Api.
From stdpp Require Import base list numbers strings.
Open Scope Z_scope.

Notation ECM_API_SCHEMA := 1 (only parsing).
Notation ECM_API_MAX_SLAVES := 64 (only parsing).
Notation ECM_API_MAX_AXES := 32 (only parsing).
Notation ECM_API_MAX_GROUPS := 2 (only parsing).
Notation ECM_API_MAX_PORTS := 2 (only parsing).
Notation ECM_API_MAX_FINDINGS := 32 (only parsing).
Notation ECM_API_EMCY_KEEP := 4 (only parsing).
Notation ECM_API_DC_BINS := 1001%nat (only parsing).
Notation ECM_API_HIST_BINS := 121%nat (only parsing).
Notation ECM_API_RT_FLAGS := 16 (only parsing).
Notation ECM_API_RT_STATES := 8 (only parsing).

(** ** Data *)

Record ecm_api_hist_t := mkAhist { ah_have : bool; ah_count : Z; ah_sum_ns : Z; ah_min_ns : Z; ah_max_ns : Z; ah_b : list Z }.
Definition ecm_api_hist_none : ecm_api_hist_t := mkAhist false 0 0 0 0 (replicate ECM_API_HIST_BINS 0).
Definition ecm_api_hist_from (h : ecm_hist_t) : ecm_api_hist_t :=
  mkAhist true (count h) (sum_ns h) (if count h =? 0 then 0 else min_ns h) (max_ns h) (buckets h).
Record ecm_api_linhist_t := mkLinh { lh_have : bool; lh_n : Z; lh_b : list Z }.

Record ecm_api_rt_group_t := mkRtg { rg_cycles : Z; rg_overrun : Z; rg_mismatch : Z; rg_wkc : list Z; rg_max_run_bad : Z }.
Record ecm_api_rt_t := mkArt {
  rt_seq : Z; rt_mono_ns : Z; rt_tick : Z; rt_bus_state : Z; rt_ngroups : Z; rt_g : list ecm_api_rt_group_t;
  rt_dc_on : bool; rt_dc_state : Z; rt_dc_locks : Z; rt_dc_unlocks : Z; rt_dc_clamps : Z; rt_dc_wraps : Z; rt_dc_stale : Z; rt_dc_err_ns : Z;
  rt_txtime_have : bool; rt_txtime_late : Z; rt_txtime_bypass : Z; rt_send_err : Z; rt_tai_steps : Z; rt_hook_calls : Z; rt_ho_drops : Z
}.
Record ecm_api_rt_dc_t := mkRtdc { rdc_seq : Z; rdc_mono_ns : Z; rdc_h : ecm_api_linhist_t }.
Record ecm_api_rt_hook_t := mkRthook { rhk_seq : Z; rhk_mono_ns : Z; rhk_h : ecm_api_hist_t }.
Record ecm_api_tel_t := mkTel {
  tl_seq : Z; tl_mono_ns : Z; tl_wake_jitter : ecm_api_hist_t; tl_prep_send : ecm_api_hist_t; tl_occupancy : ecm_api_hist_t;
  tl_turnaround : ecm_api_hist_t; tl_ring_drops : Z; tl_ho_drops : Z
}.
Record ecm_api_emcy_t := mkAemcy { em_mono_ns : Z; em_tick : Z; em_code : Z; em_reg : Z; em_data : list Z }.
Record ecm_api_mon_slave_t := mkMons {
  ms_station : Z; ms_al_status : Z; ms_al_code : Z; ms_dl_status : Z; ms_answered : bool; ms_ever_answered : bool;
  ms_inv : list Z; ms_rx : list Z; ms_fwd : list Z; ms_lost : list Z; ms_pu : Z; ms_pdi : Z; ms_emcy_count : Z; ms_nemcy : Z; ms_emcy : list ecm_api_emcy_t;
  ms_sact : Z; ms_unhealthy : bool; ms_failed : bool; ms_failed_config : bool; ms_failed_code : Z; ms_attempts : Z;
  ms_recoveries : Z; ms_initcmd_failed : Z
}.
Record ecm_api_finding_t := mkAfind {
  fi_type : str; fi_sev : str; fi_a : Z; fi_b : Z; fi_c : Z; fi_count : Z; fi_active : bool; fi_text : str
}.
Record ecm_api_mon_t := mkMon {
  mn_seq : Z; mn_mono_ns : Z; mn_diag_on : bool; mn_diag_reads : Z; mn_diag_frames_lost : Z; mn_emcy_total : Z; mn_emcy_lost : Z;
  mn_n : Z; mn_s : list ecm_api_mon_slave_t; mn_nf : Z; mn_f : list ecm_api_finding_t; mn_ho_drops : Z
}.
Record ecm_api_port_t := mkPort {
  po_name : str; po_iface : str; po_link : Z; po_tx : Z; po_noframe : Z; po_crc_err : Z; po_rx_missed : Z; po_carrier_changes : Z
}.
#[export] Instance eta_port : Eta ecm_api_port_t := fun p =>
  mkPort (po_name p) (po_iface p) (po_link p) (po_tx p) (po_noframe p) (po_crc_err p) (po_rx_missed p) (po_carrier_changes p).
Record ecm_api_group_cfg_t := mkGcfg { gc_name : str; gc_nslaves : Z; gc_slaves : list Z; gc_cycle_ns : Z }.
Record ecm_api_slave_cfg_t := mkScfg { sc_pos : Z; sc_vendor : Z; sc_product : Z; sc_revision : Z; sc_name : str }.
Record ecm_api_axis_t := mkAaxis {
  ax_name : str; ax_slave : Z; ax_n : Z; ax_state : str; ax_err : str; ax_error_src : str; ax_sw : Z; ax_cw : Z; ax_error_code : Z;
  ax_mode : Z; ax_mode_display : Z; ax_homed : bool; ax_valid : bool; ax_pos : Z; ax_vel : Z; ax_tick : Z; ax_used : Z; ax_late : Z;
  ax_underruns : Z; ax_dropped : Z; ax_step_refused : Z; ax_pp_acked : Z; ax_error_text : str
}.
Record ecm_api_rtcfg_t := mkRtcfg {
  rc_rt_cpu : Z; rc_isolated : str; rc_have_isolated : bool; rc_idle_driver : str; rc_idle_off : bool; rc_nstates : Z;
  rc_disabled : list str; rc_kernel : str; rc_flags : list str
}.
#[export] Instance eta_rtcfg : Eta ecm_api_rtcfg_t := fun r =>
  mkRtcfg (rc_rt_cpu r) (rc_isolated r) (rc_have_isolated r) (rc_idle_driver r) (rc_idle_off r) (rc_nstates r)
    (rc_disabled r) (rc_kernel r) (rc_flags r).
Record ecm_api_stats_t := mkStats {
  st_pid : Z; st_cycle_ns : Z; st_link : str; st_n_slaves : Z; st_nports : Z; st_ngroups : Z; st_path : str;
  st_ports : list ecm_api_port_t; st_gcfg : list ecm_api_group_cfg_t; st_scfg : list ecm_api_slave_cfg_t;
  st_dc_ref_pos : Z; st_dma_latency_held : bool; st_hook : str; st_api_cpus : str; st_rtcfg : ecm_api_rtcfg_t;
  st_pub_seq : Z; st_mono_ns : Z; st_final : bool; st_fsm : str;
  st_have_rt : bool; st_have_tel : bool; st_have_mon : bool; st_have_dc : bool; st_have_hook : bool;
  st_rt : ecm_api_rt_t; st_dc : ecm_api_rt_dc_t; st_hook_h : ecm_api_rt_hook_t; st_tel : ecm_api_tel_t; st_mon : ecm_api_mon_t;
  st_etf_missed : Z; st_etf_invalid : Z; st_naxes : Z; st_ax : list ecm_api_axis_t
}.

Definition ecm_api_recover_key (s : ecm_api_mon_slave_t) : string :=
  if ms_failed_config s then "failed_config" else if ms_failed s then "failed" else if ms_unhealthy s then "retrying" else "ok".

(** ** Readers of /sys and /proc *)

Section readers.
Variable file : str -> option str.      (* the contents of the file of a path, when it opens *)

(** [fgets]: up to the end of the line, [n] characters at most. *)
Fixpoint fgets (n : nat) (s : str) : str :=
  match n, s with
  | S n, c :: s => if code c =? 10 then [c] else c :: fgets n s
  | _, _ => []
  end.
Definition trimmed (c : ascii) : bool := (code c =? 10) || (code c =? 32) || (code c =? 13).
Fixpoint strip_right (s : str) : str :=
  match s with
  | [] => []
  | c :: s => match strip_right s with [] => if trimmed c then [] else [c] | t => c :: t end
  end.
Definition snprintf (n : nat) (s : str) : str := take (n - 1) s.
Definition atoi (s : str) : Z := match strtol 10 s with Some (v, _, _) => i32 v | None => 0 end.
Definition read_line (path : str) (cap : nat) : option str :=
  c ← file path; Some (strip_right (until_nul (fgets (cap - 1) c))).
Definition read_i64 (path : str) : Z :=
  match file path with
  | None => -1
  | Some c => match strtoll 10 c with Some (v, _, _) => if 0 <=? v then v else -1 | None => -1 end
  end.

Definition starts_with (p s : str) : bool := streq (take (length p) s) p.
Definition nic_path (sysroot ifname leaf : str) : str := snprintf 512 (sysroot ++ s_ "/class/net/" ++ ifname ++ leaf).
Definition operstate (s : str) : Z :=
  if starts_with (s_ "up") s then 1
  else if starts_with (s_ "down") s || starts_with (s_ "lowerlayerdown") s then 0 else -1.
Definition ecm_api_nic_read (sysroot ifname : str) (p : ecm_api_port_t) : ecm_api_port_t :=
  let p := p <| po_crc_err := read_i64 (nic_path sysroot ifname (s_ "/statistics/rx_crc_errors")) |> in
  let p := p <| po_rx_missed := read_i64 (nic_path sysroot ifname (s_ "/statistics/rx_missed_errors")) |> in
  let p := p <| po_carrier_changes := read_i64 (nic_path sysroot ifname (s_ "/carrier_changes")) |> in
  p <| po_link := match file (nic_path sysroot ifname (s_ "/operstate")) with
                  | None => -1
                  | Some c => operstate (until_nul (fgets 31 c))
                  end |>.

Definition RT_FLAGS : list str := s_ <$>
  ["isolcpus="; "nohz_full="; "nohz="; "rcu_nocbs="; "rcu_nocb_poll"; "irqaffinity="; "cpuidle.off=";
   "cpufreq.off="; "idle="; "processor.max_cstate="; "intel_idle.max_cstate="; "transparent_hugepage=";
   "threadirqs"; "nosoftlockup"; "skew_tick="; "kthread_cpus="; "preempt="; "mitigations="]%string.
Definition flag_match (w flag : str) : bool :=
  if bool_decide (last flag = Some "="%char) then starts_with flag w else streq w flag.
(** The words of [strtok_r] for blank, tab and newline. *)
Fixpoint cmdline_words (cur s : str) : list str :=
  match s with
  | [] => match cur with [] => [] | _ => [rev cur] end
  | c :: s =>
      if (code c =? 32) || (code c =? 9) || (code c =? 10) then
        match cur with [] => cmdline_words [] s | _ => rev cur :: cmdline_words [] s end
      else cmdline_words (c :: cur) s
  end.
Definition add_flag (o : ecm_api_rtcfg_t) (w : str) : ecm_api_rtcfg_t :=
  if existsb (flag_match w) RT_FLAGS && (zlen (rc_flags o) <? ECM_API_RT_FLAGS) then
    let o := o <| rc_flags ::= fun l => l ++ [snprintf 64 w] |> in
    if starts_with (s_ "cpuidle.off=") w && negb (atoi (drop 12 w) =? 0) then o <| rc_idle_off := true |> else o
  else o.
Definition cpu_dir (sysroot : str) : str := sysroot ++ s_ "/devices/system/cpu/".
Definition state_path (sysroot : str) (cpu k : Z) (leaf : string) : str :=
  snprintf 512 (cpu_dir sysroot ++ s_ "cpu" ++ fmt_i64 cpu ++ s_ "/cpuidle/state" ++ fmt_i64 k ++ s_ leaf).
(** The idle states from [k] on, [n] at most. *)
Fixpoint idle_states (n : nat) (k : Z) (sysroot : str) (cpu : Z) (o : ecm_api_rtcfg_t) : ecm_api_rtcfg_t :=
  match n with
  | O => o
  | S n =>
      match read_line (state_path sysroot cpu k "/name") 24 with
      | None => o
      | Some name =>
          let o := o <| rc_nstates ::= Z.add 1 |> in
          let off := match read_line (state_path sysroot cpu k "/disable") 64 with Some v => negb (atoi v =? 0) | None => false end in
          let o := if off && (zlen (rc_disabled o) <? ECM_API_RT_STATES) then o <| rc_disabled ::= fun l => l ++ [snprintf 24 name] |> else o in
          idle_states n (k + 1) sysroot cpu o
      end
  end.
Definition ecm_api_rtcfg_read (uname : option str) (sysroot cmdline : str) (kernel : option str) (rt_cpu : Z) : ecm_api_rtcfg_t :=
  let o := mkRtcfg rt_cpu [] false [] false 0 [] [] [] in
  let o := match read_line (snprintf 512 (cpu_dir sysroot ++ s_ "isolated")) 64 with
           | Some s => o <| rc_isolated := s |> <| rc_have_isolated := true |>
           | None => o
           end in
  let o := match read_line (snprintf 512 (cpu_dir sysroot ++ s_ "cpuidle/current_driver")) 32 with
           | Some s => if streq s (s_ "none") then o <| rc_idle_off := true |> else o <| rc_idle_driver := s |>
           | None => o <| rc_idle_off := true |>
           end in
  let o := idle_states 16 0 sysroot rt_cpu o in
  let o := match file cmdline with
           | Some c => foldl add_flag o (cmdline_words [] (until_nul (take 4095 c)))
           | None => o
           end in
  match kernel with
  | Some k => o <| rc_kernel := snprintf 96 k |>
  | None => match uname with Some k => o <| rc_kernel := snprintf 96 k |> | None => o end
  end.
End readers.

(** ** Writing the document *)

Definition khist (k : string) (h : ecm_api_hist_t) : jw_t -> jw_t :=
  if negb (ah_have h) then knull k
  else enclose (kobj k) "}" [
    kstr "unit" (s_ "ns"); kstr "buckets" (s_ "log20_100ns_v1"); ku64 "count" (ah_count h); ku64 "sum" (ah_sum_ns h);
    ki64 "min" (ah_min_ns h); ki64 "max" (ah_max_ns h); kcounts "counts" (ah_b h) ECM_API_HIST_BINS].
Definition bucket_table (bound : Z -> Z) : jw_t -> jw_t :=
  enclose (kobj "buckets") "}" [
    enclose (kobj "log20_100ns_v1") "}" [
      kstr "unit" (s_ "ns");
      enclose (karr "upper") "]" (anum <$> bucket_upper_ns (hist_init bound));
      ku64 "n" (Z.of_nat ECM_API_HIST_BINS)];
    enclose (kobj "lin1us_v1") "}" [
      kstr "unit" (s_ "us"); ku64 "width" 1; ku64 "n" (Z.of_nat ECM_API_DC_BINS)]].
Definition emcy_obj (e : ecm_api_emcy_t) : jw_t -> jw_t :=
  enclose aobj "}" [
    ku64 "mono_ns" (em_mono_ns e); ku64 "tick" (em_tick e); khex "code" (em_code e) 4; khex "reg" (em_reg e) 2;
    (fun j => jraw (quoted (take 5 (em_data e) ≫= fmt_hex 2)) (jkey (s_ "data") j));
    kstr "class" (s_ (ecm_emcy_class_name (em_code e)))].

(** [for (i = 0; i < n && i < max; i++)] over an array. *)
Definition upto {A} (n max : Z) (l : list A) : list A := take (Z.to_nat (Z.min n max)) l.
Definition wkc_of (g : ecm_api_rt_group_t) (k : nat) : Z := nth k (rg_wkc g) 0.
(** The traffic of a port: with one port every cyclic frame went through it. *)
Definition port_counts (nports : Z) (rt : option ecm_api_rt_t) (po : ecm_api_port_t) : Z * Z :=
  match rt with
  | Some rt =>
      if nports =? 1 then
        let gs := upto (rt_ngroups rt) ECM_API_MAX_GROUPS (rt_g rt) in
        (foldl (fun a g => u64 (a + rg_cycles g)) 0 gs, foldl (fun a g => u64 (a + wkc_of g 1)) 0 gs)
      else (po_tx po, po_noframe po)
  | None => (po_tx po, po_noframe po)
  end.
Definition port_obj (nports : Z) (rt : option ecm_api_rt_t) (po : ecm_api_port_t) : jw_t -> jw_t :=
  let '(tx, nf) := port_counts nports rt po in
  enclose aobj "}" [
    kstr "name" (po_name po); kstr "iface" (po_iface po);
    kstr "link" (s_ (if 0 <? po_link po then "up" else if po_link po =? 0 then "down" else "unknown"));
    jwhen (bool_decide (is_Some rt)) [ku64 "tx" tx; ku64 "noframe" nf];
    kopt "crc_err" (po_crc_err po); kopt "rx_missed" (po_rx_missed po); kopt "carrier_changes" (po_carrier_changes po)].
Definition group_obj (rt : option ecm_api_rt_t) (g : Z) (gc : ecm_api_group_cfg_t) : jw_t -> jw_t :=
  enclose aobj "}" [
    kstr "name" (gc_name gc);
    enclose (karr "slaves") "]" (anum <$> take (Z.to_nat (gc_nslaves gc)) (gc_slaves gc));
    ki64 "cycle_ns" (gc_cycle_ns gc);
    match rt ≫= fun rt => if g <? rt_ngroups rt then rt_g rt !! Z.to_nat g else None with
    | Some r => jdo [
        ku64 "cycles" (rg_cycles r); ku64 "ok" (wkc_of r 0); ku64 "noframe" (wkc_of r 1); ku64 "zero" (wkc_of r 2);
        ku64 "partial" (wkc_of r 3); ku64 "over" (wkc_of r 4); ku64 "max_run_bad" (rg_max_run_bad r); ku64 "overrun" (rg_overrun r)]
    | None => jdo []
    end].
Definition mon_slave (m : ecm_api_mon_t) (s : ecm_api_mon_slave_t) : jw_t -> jw_t :=
  jdo [
    jwhen (mn_diag_on m && ms_ever_answered s) [
      khex "station" (ms_station s) 4; kstr "al" (s_ (ecm_api_al_key (ms_al_status s)));
      kbool "al_err" (negb (Z.land (ms_al_status s) 0x10 =? 0)); khex "al_code" (ms_al_code s) 4; khex "dl_status" (ms_dl_status s) 4];
    jwhen (mn_diag_on m) [
      kbool "answered" (ms_answered s); ku64x4 "inv" (ms_inv s); ku64x4 "rx_err" (ms_rx s); ku64x4 "fwd_err" (ms_fwd s);
      ku64x4 "lost_link" (ms_lost s); ku64 "pu_err" (ms_pu s); ku64 "pdi_err" (ms_pdi s)];
    kstr "policy" (s_ (ecm_api_sact_key (ms_sact s))); kstr "recover" (s_ (ecm_api_recover_key s));
    ku64 "attempts" (ms_attempts s); ku64 "recoveries" (ms_recoveries s); ku64 "initcmd_failed" (ms_initcmd_failed s);
    ku64 "emcy_count" (ms_emcy_count s);
    enclose (karr "emcy") "]" (emcy_obj <$> upto (ms_nemcy s) ECM_API_EMCY_KEEP (ms_emcy s))].
Definition slave_obj (m : option ecm_api_mon_t) (i : Z) (sc : ecm_api_slave_cfg_t) : jw_t -> jw_t :=
  enclose aobj "}" [
    ki64 "pos" (sc_pos sc); khex "vendor" (sc_vendor sc) 8; khex "product" (sc_product sc) 8; khex "revision" (sc_revision sc) 8;
    kstr "name" (sc_name sc);
    match m with
    | Some m => match (if i <? mn_n m then mn_s m !! Z.to_nat i else None) with Some s => mon_slave m s | None => jdo [] end
    | None => jdo []
    end].
Definition axis_obj (a : ecm_api_axis_t) : jw_t -> jw_t :=
  enclose aobj "}" [
    kstr "name" (ax_name a); ki64 "slave" (ax_slave a); ki64 "n" (ax_n a);
    jwhen (ax_valid a) [
      kstr "state" (ax_state a); khex "sw" (ax_sw a) 4; khex "cw" (ax_cw a) 4; ki64 "mode" (ax_mode a);
      ki64 "mode_display" (ax_mode_display a); kstr "err" (ax_err a); khex "error_code" (ax_error_code a) 4;
      kstr "error_src" (ax_error_src a); kstr "error_text" (ax_error_text a); ki64 "pos" (ax_pos a); ki64 "vel" (ax_vel a);
      ku64 "tick" (ax_tick a); ku64 "used" (ax_used a); ku64 "late" (ax_late a); ku64 "underruns" (ax_underruns a);
      ku64 "dropped" (ax_dropped a); ku64 "step_refused" (ax_step_refused a); ku64 "pp_acked" (ax_pp_acked a);
      kbool "homed" (ax_homed a)]].
Definition finding_obj (f : ecm_api_finding_t) : jw_t -> jw_t :=
  enclose aobj "}" [
    kstr "type" (fi_type f); kstr "sev" (fi_sev f); kstr "text" (fi_text f); ki64 "a" (fi_a f); ki64 "b" (fi_b f);
    ku64 "c" (fi_c f); ku64 "count" (fi_count f); kbool "active" (fi_active f)].

(** The members of the [rt] object that come from the machine: the text, empty when it
    did not fit. *)
Definition rtcfg_members (r : ecm_api_rtcfg_t) : list (jw_t -> jw_t) := [
  ki64 "rt_cpu" (rc_rt_cpu r);
  (if rc_have_isolated r then kstr "isolated_cpus" (rc_isolated r) else knull "isolated_cpus");
  enclose (kobj "cpuidle") "}" [
    (if streq (rc_idle_driver r) [] then knull "driver" else kstr "driver" (rc_idle_driver r));
    kbool "off" (rc_idle_off r); ki64 "states" (rc_nstates r);
    enclose (karr "states_disabled") "]" (astr <$> rc_disabled r)];
  kstr "kernel" (rc_kernel r);
  enclose (karr "cmdline_flags") "]" (astr <$> rc_flags r)].
Definition text_of (j : jw_t) : str := if jw_ovf j then [] else jw_b j.
Definition ecm_api_rtcfg_json (r : ecm_api_rtcfg_t) (cap : Z) : str :=
  if cap =? 0 then [] else text_of (jdo (rtcfg_members r) (jw_init cap 2)).

Definition bus_part (st : ecm_api_stats_t) (rt : option ecm_api_rt_t) : jw_t -> jw_t :=
  enclose (kobj "bus") "}" [
    kstr "fsm" (match rt with Some _ => st_fsm st | None => s_ "STARTING" end); ki64 "cycle_ns" (st_cycle_ns st); kstr "link" (st_link st);
    ki64 "n_slaves" (st_n_slaves st);
    enclose (karr "ports") "]" (port_obj (st_nports st) rt <$> upto (st_nports st) ECM_API_MAX_PORTS (st_ports st));
    kstr "path" (st_path st)].
Definition groups_part (st : ecm_api_stats_t) (rt : option ecm_api_rt_t) : jw_t -> jw_t :=
  enclose (karr "groups") "]" (imap (fun g => group_obj rt (Z.of_nat g)) (upto (st_ngroups st) ECM_API_MAX_GROUPS (st_gcfg st))).
Definition hist_part (st : ecm_api_stats_t) (t : option ecm_api_tel_t) : jw_t -> jw_t :=
  let h (f : ecm_api_tel_t -> ecm_api_hist_t) := match t with Some t => f t | None => ecm_api_hist_none end in
  enclose (kobj "hist") "}" [
    khist "wake_jitter" (h tl_wake_jitter); khist "prep_send" (h tl_prep_send); khist "turnaround" (h tl_turnaround);
    khist "occupancy" (h tl_occupancy);
    (if st_have_dc st && lh_have (rdc_h (st_dc st)) then
       enclose (kobj "dc_err") "}" [
         kstr "unit" (s_ "us"); kstr "buckets" (s_ "lin1us_v1"); ku64 "count" (lh_n (rdc_h (st_dc st)));
         kcounts "counts" (lh_b (rdc_h (st_dc st))) ECM_API_DC_BINS]
     else knull "dc_err");
    khist "hook" (if st_have_hook st then rhk_h (st_hook_h st) else ecm_api_hist_none)].
Definition dc_part (st : ecm_api_stats_t) (rt : option ecm_api_rt_t) : jw_t -> jw_t :=
  match rt with
  | Some rt =>
      if rt_dc_on rt then
        enclose (kobj "dc") "}" [
          kstr "state" (s_ (ecm_api_dc_key (rt_dc_state rt))); ki64 "ref_pos" (st_dc_ref_pos st); ku64 "locks" (rt_dc_locks rt);
          ku64 "unlocks" (rt_dc_unlocks rt); ku64 "clamps" (rt_dc_clamps rt); ku64 "wraps" (rt_dc_wraps rt);
          ku64 "stale" (rt_dc_stale rt); ki64 "err_ns" (rt_dc_err_ns rt)]
      else knull "dc"
  | None => knull "dc"
  end.
Definition link_part (st : ecm_api_stats_t) (rt : option ecm_api_rt_t) : jw_t -> jw_t :=
  enclose (kobj "link") "}" [
    match rt with
    | Some rt => jwhen (rt_txtime_have rt) [
        ku64 "txtime_late" (rt_txtime_late rt); ku64 "txtime_bypass" (rt_txtime_bypass rt);
        ku64 "send_err" (rt_send_err rt); ku64 "tai_steps" (rt_tai_steps rt)]
    | None => jdo []
    end;
    ku64 "etf_missed" (st_etf_missed st); ku64 "etf_invalid" (st_etf_invalid st)].
Definition rt_part (st : ecm_api_stats_t) (rt : option ecm_api_rt_t) : jw_t -> jw_t :=
  enclose (kobj "rt") "}" [
    kbool "dma_latency_held" (st_dma_latency_held st);
    (if streq (st_hook st) [] then knull "hook" else kstr "hook" (st_hook st));
    match rt with Some rt => ku64 "hook_calls" (rt_hook_calls rt) | None => jdo [] end;
    (fun j =>
       let j := kstr "api_cpus" (st_api_cpus st) j in
       let m := ecm_api_rtcfg_json (st_rtcfg st) 2048 in
       if streq m [] then j else jraw m (jraw [","%char] j))].
Definition sources_part (rt : option ecm_api_rt_t) (t : option ecm_api_tel_t) (m : option ecm_api_mon_t) : jw_t -> jw_t :=
  enclose (kobj "sources") "}" [
    match rt with
    | Some rt => enclose (kobj "rt") "}" [ku64 "seq" (rt_seq rt); ku64 "mono_ns" (rt_mono_ns rt); ku64 "tick" (rt_tick rt)]
    | None => knull "rt"
    end;
    match t with
    | Some t => enclose (kobj "telemetry") "}" [ku64 "seq" (tl_seq t); ku64 "mono_ns" (tl_mono_ns t); ku64 "ring_drops" (tl_ring_drops t)]
    | None => knull "telemetry"
    end;
    match m with
    | Some m => enclose (kobj "monitor") "}" [
        ku64 "seq" (mn_seq m); ku64 "mono_ns" (mn_mono_ns m); kbool "diag" (mn_diag_on m); ku64 "diag_reads" (mn_diag_reads m);
        ku64 "diag_frames_lost" (mn_diag_frames_lost m); ku64 "emcy_total" (mn_emcy_total m); ku64 "emcy_lost" (mn_emcy_lost m)]
    | None => knull "monitor"
    end;
    ku64 "handoff_drops" (u64 (match rt with Some rt => rt_ho_drops rt | None => 0 end +
                               match t with Some t => tl_ho_drops t | None => 0 end +
                               match m with Some m => mn_ho_drops m | None => 0 end))].

(** The text, empty (the C function returns 0) when it does not fit. *)
Definition ecm_api_stats_json (bound : Z -> Z) (st : ecm_api_stats_t) (cap : Z) : str :=
  if cap =? 0 then []
  else
    let rt := if st_have_rt st then Some (st_rt st) else None in
    let t := if st_have_tel st then Some (st_tel st) else None in
    let m := if st_have_mon st then Some (st_mon st) else None in
    let j := enclose (jopen "{") "}" [
      ku64 "schema" ECM_API_SCHEMA; ku64 "pub_seq" (st_pub_seq st); ku64 "mono_ns" (st_mono_ns st); ki64 "pid" (st_pid st);
      kbool "final" (st_final st); bucket_table bound;
      bus_part st rt; groups_part st rt; hist_part st t; dc_part st rt; link_part st rt;
      enclose (karr "slaves") "]" (imap (fun i => slave_obj m (Z.of_nat i)) (upto (st_n_slaves st) ECM_API_MAX_SLAVES (st_scfg st)));
      enclose (karr "axes") "]" (axis_obj <$> upto (st_naxes st) ECM_API_MAX_AXES (st_ax st));
      rt_part st rt;
      enclose (karr "findings") "]" (match m with Some m => finding_obj <$> upto (mn_nf m) ECM_API_MAX_FINDINGS (mn_f m) | None => [] end);
      sources_part rt t m] (jw_init cap 0) in
    text_of (jraw ["010"%char] j).
