(* ===== verification/ApiSpec.v ===== *)
(** * The publisher: theorems

    The document is always well-formed JSON for the reader of the repository
    ([Json]), the handoff is the one of the diagnosis ([Diag]), a list of CPUs reads
    back as the set it names, a file is replaced at once or not at all. *)
From Stdlib Require Import ZArith Lia Bool Ascii String.
From S2P Require Import Prelude CString Json Diag Histogram Api ApiDoc.
From stdpp Require Import base list numbers strings gmap.
Open Scope Z_scope.

(** ** Well-formed pieces of JSON, wherever they stand *)

Definition wf_value (d : nat) (v : str) : Prop := forall p par i, exists ts, jvalue d p par i v ts.
Definition wf_members (d : nat) (obj : bool) (m : str) : Prop := forall p k i, exists ts n, jmembers d obj p k i m ts n.

Lemma jmembers_app d obj p k i s ts n : jmembers d obj p k i s ts n -> forall s' ts' n',
  jmembers d obj (p + zlen s + 1) k (i + zlen ts) s' ts' n' -> jmembers d obj p k i (s ++ ","%char :: s') (ts ++ ts') (n + n').
Proof.
  induction 1 as [d obj p k i s ts n Hi|d obj p k i s ts n s1 ts1 n1 Hi _ IH]; intros s' ts' n' H; [by apply M_more|].
  rewrite <- !app_assoc, <- Z.add_assoc. cbn [app]. apply M_more; [done|]. apply IH.
  rewrite !zlen_app, zlen_cons in H.
  replace (p + zlen s + 1 + zlen s1 + 1) with (p + (zlen s + (zlen s1 + 1)) + 1) by lia.
  by replace (i + zlen ts + zlen ts1) with (i + (zlen ts + zlen ts1)) by lia.
Qed.
Lemma wf_members_app d obj w m m' : wf_members d obj m -> jspace w -> wf_members d obj m' ->
  wf_members d obj (m ++ ","%char :: w ++ m').
Proof.
  intros H1 Hw H2 p k i. destruct (H1 p k i) as (ts & n & J1).
  destruct (H2 (p + zlen m + 1 + zlen w) k (i + zlen ts)) as (ts' & n' & J2).
  eexists _, _. eapply jmembers_app; [exact J1|]. by apply jmembers_lead.
Qed.
Lemma wf_member d k v : jchars k -> wf_value d v -> wf_members d true (quoted k ++ ":"%char :: v).
Proof.
  intros Hk Hv p q i. destruct (Hv (p + 0 + zlen (quoted k) + 0 + 1 + 0) q (i + 1)) as (ts & J).
  eexists _, _. apply M_last.
  pose proof (I_member d p q i [] k [] [] v [] ts) as M. cbn [app] in M. rewrite app_nil_r in M.
  apply M; (apply Forall_nil_2 || done).
Qed.
Lemma wf_element d v : wf_value d v -> wf_members d false v.
Proof.
  intros Hv p q i. destruct (Hv (p + 0) q i) as (ts & J). eexists _, _. apply M_last.
  pose proof (I_element d p q i [] v [] ts) as M. cbn [app] in M. rewrite app_nil_r in M. apply M; (apply Forall_nil_2 || done).
Qed.
Lemma wf_empty d obj : wf_value (S d) [open_ obj; close_ obj].
Proof. intros p par i. eexists. apply (V_empty d p par i obj []). apply Forall_nil_2. Qed.
Lemma wf_container d obj m : wf_members d obj m -> wf_value (S d) (open_ obj :: m ++ [close_ obj]).
Proof. intros H p par i. destruct (H (p + 1) i (i + 1)) as (ts & n & J). eexists. by apply V_container. Qed.
Lemma wf_number d s : jnumber s -> wf_value d s.
Proof. intros H p par i. eexists. by apply V_number. Qed.
Lemma wf_quoted d s : jchars s -> wf_value d (quoted s).
Proof. intros H p par i. eexists. by apply V_string. Qed.
Lemma wf_bool d (b : bool) : wf_value d (if b then s_ "true" else s_ "false").
Proof. intros p par i. eexists. apply (V_literal d p par i _ (if b then ECM_J_TRUE else ECM_J_FALSE)). unfold jliteral. destruct b; auto. Qed.
Lemma wf_null d : wf_value d (s_ "null").
Proof. intros p par i. eexists. apply (V_literal d p par i _ ECM_J_NULL). unfold jliteral. auto. Qed.

(** ** Formatted numbers and strings *)

Lemma dec_digit n : code (ascii_of_nat (Z.to_nat (48 + n mod 10))) = 48 + n mod 10.
Proof. unfold code. pose proof (Z.mod_pos_bound n 10 ltac:(lia)). rewrite nat_ascii_embedding; lia. Qed.
Lemma dec_isdigit n : isdigit (ascii_of_nat (Z.to_nat (48 + n mod 10))) = true.
Proof. unfold isdigit. rewrite dec_digit. pose proof (Z.mod_pos_bound n 10 ltac:(lia)). apply andb_true_intro. split; apply Z.leb_le; lia. Qed.
Lemma udec_pos k n : 1 <= n < 10 ^ Z.of_nat k -> exists c ds, udec k n = c :: ds /\ 49 <= code c <= 57 /\ all_digits ds.
Proof.
  revert n. induction k as [|k IH]; intros n H; [cbn in H; lia|]. cbn [udec].
  destruct (Z.ltb_spec n 10) as [L|L].
  - eexists _, []. cbn [app]. split; [reflexivity|]. rewrite dec_digit, Z.mod_small by lia. split; [lia|apply Forall_nil_2].
  - rewrite Nat2Z.inj_succ, Z.pow_succ_r in H by lia.
    destruct (IH (n / 10)) as (c & ds & E & Hc & Hd); [split; [apply Z.div_le_lower_bound; lia|apply Z.div_lt_upper_bound; lia]|].
    rewrite E. eexists c, (ds ++ _). split; [reflexivity|]. split; [done|]. apply Forall_app. split; [done|].
    apply Forall_singleton, dec_isdigit.
Qed.
Lemma udec_int k n : 0 <= n < 10 ^ Z.of_nat (S k) -> jint (udec (S k) n).
Proof.
  intros H. destruct (decide (n = 0)) as [->|N]; [by left|]. right. apply udec_pos. lia.
Qed.
Lemma fmt_u64_number v : jnumber (fmt_u64 v).
Proof.
  unfold fmt_u64. exists [], (udec 20 (u64 v)), [], []. rewrite !app_nil_r. split; [done|]. split; [by left|].
  split; [apply udec_int; pose proof (Z.mod_pos_bound v 18446744073709551616 ltac:(lia)); unfold u64; lia|]. split; by left.
Qed.
Lemma fmt_i64_number v : jnumber (fmt_i64 v).
Proof.
  unfold fmt_i64. assert (R : -9223372036854775808 <= i64 v < 9223372036854775808).
  { unfold i64. pose proof (Z.mod_pos_bound (v + 9223372036854775808) 18446744073709551616 ltac:(lia)). lia. }
  destruct (Z.ltb_spec (i64 v) 0) as [L|L].
  - exists ["-"%char], (udec 20 (- i64 v)), [], []. rewrite !app_nil_r. split; [done|]. split; [by right|].
    split; [apply udec_int; lia|]. split; by left.
  - exists [], (udec 20 (i64 v)), [], []. rewrite !app_nil_r. split; [done|]. split; [by left|].
    split; [apply udec_int; lia|]. split; by left.
Qed.
Lemma plain_chars s : Forall (fun c => 0x20 <= code c /\ c <> DQ /\ c <> BS) s -> jchars s.
Proof. induction 1 as [|c s (H1 & H2 & H3)]; [apply chars_nil|by apply chars_plain]. Qed.
Lemma jchars_app s s' : jchars s -> jchars s' -> jchars (s ++ s').
Proof.
  induction 1; intros H'; cbn [app]; [done|apply chars_plain; auto|apply chars_escape; auto|apply chars_unicode; auto|apply chars_nul; auto].
Qed.
Lemma hex_plain d : 0 <= d < 16 -> 0x20 <= code (hex_char true d) /\ hex_char true d <> DQ /\ hex_char true d <> BS.
Proof.
  intros H. assert (E : d ∈ seqZ 0 16) by (apply elem_of_seqZ; lia). clear H. revert d E. apply Forall_forall.
  by apply (bool_decide_unpack _).
Qed.
Lemma uhex_plain k n : 0 <= n -> jchars (uhex k n).
Proof.
  revert n. induction k as [|k IH]; intros n H; [constructor|]. cbn [uhex]. apply jchars_app.
  - destruct (n <? 16); [constructor|]. apply IH. apply Z.div_pos; lia.
  - apply plain_chars, Forall_singleton, hex_plain, Z.mod_pos_bound. lia.
Qed.
Lemma fmt_hex_chars n v : jchars (fmt_hex n v).
Proof.
  unfold fmt_hex. apply jchars_app; [|apply uhex_plain; unfold u32; apply Z.mod_pos_bound; lia].
  apply plain_chars, Forall_replicate. done.
Qed.
Lemma bind_chars {A} (f : A -> str) l : (forall x, jchars (f x)) -> jchars (l ≫= f).
Proof. intros H. induction l as [|x l IH]; [constructor|]. cbn [mbind list_bind]. by apply jchars_app. Qed.
Lemma jchar_chars c : jchars (jchar c).
Proof.
  unfold jchar. destruct (Ascii.eqb_spec c DQ) as [->|Nd]; cbn [orb]; [apply chars_escape; [by apply (bool_decide_unpack _)|constructor]|].
  destruct (Ascii.eqb_spec c BS) as [->|Nb]; [apply chars_escape; [by apply (bool_decide_unpack _)|constructor]|].
  destruct (Z.ltb_spec (code c) 0x20) as [L|L]; [|apply chars_plain; (done || constructor)].
  apply chars_unicode; [apply hex4_spec|constructor]. clear -L. destruct c as [[] [] [] [] [] [] [] []]; vm_compute in L |- *; done.
Qed.

(** ** What a call adds to the buffer

    [ext j s j']: from [j] to [j'] the text [s] is written, or the buffer is full. *)

Record ext (j : jw_t) (s : str) (j' : jw_t) : Prop := {
  ext_cap : jw_cap j' = jw_cap j;
  ext_ovf : jw_ovf j' = jw_ovf j || (jw_cap j <? zlen (jw_b j) + zlen s + 1);
  ext_b : jw_ovf j' = false -> jw_b j' = jw_b j ++ s
}.
Definition room (j : jw_t) : Prop := jw_ovf j = false -> zlen (jw_b j) + 1 <= jw_cap j.

Lemma ext_refl j : room j -> ext j [] j.
Proof.
  intros R. split; [done| |by rewrite app_nil_r]. unfold room in R. destruct (jw_ovf j) eqn:E; [done|]. cbn [orb].
  symmetry. apply Z.ltb_ge. rewrite zlen_nil. specialize (R eq_refl). lia.
Qed.
Lemma ext_room j s j' : ext j s j' -> room j'.
Proof.
  intros [C O B] H. rewrite (B H), C, zlen_app. rewrite O in H. apply orb_false_iff in H as [_ H]. apply Z.ltb_ge in H. lia.
Qed.
Lemma ext_trans j s j1 s' j2 : ext j s j1 -> ext j1 s' j2 -> ext j (s ++ s') j2.
Proof.
  intros [C O B] [C' O' B']. split; [congruence| |].
  - rewrite O', O, C, zlen_app. destruct (jw_ovf j); [done|]. cbn [orb] in *.
    destruct (Z.ltb_spec (jw_cap j) (zlen (jw_b j) + zlen s + 1)) as [L|L].
    + symmetry. apply Z.ltb_lt. pose proof (zlen_nonneg s'). lia.
    + rewrite (B O), zlen_app. cbn [orb]. f_equal. lia.
  - intros H. rewrite (B' H), app_assoc. f_equal. apply B. rewrite O' in H. by apply orb_false_iff in H as [H _].
Qed.
Lemma ext_jraw s j : ext j s (jraw s j).
Proof.
  unfold jraw. destruct (jw_ovf j) eqn:E; [split; cbn; rewrite ?E; done|].
  destruct (Z.ltb_spec (jw_cap j) (zlen (jw_b j) + zlen s + 1)) as [L|L]; split; cbn; rewrite ?E; try done; cbn [orb]; symmetry;
    [by apply Z.ltb_lt|by apply Z.ltb_ge].
Qed.
(** Depth and commas are not text. *)
Lemma ext_same j s j' d c : ext j s j' -> ext j s (j' <| jw_depth := d |> <| jw_comma := c |>).
Proof. intros [C O B]. by split. Qed.
Lemma jraw_depth s j : jw_depth (jraw s j) = jw_depth j /\ jw_comma (jraw s j) = jw_comma j.
Proof. unfold jraw. by repeat case_match. Qed.
Lemma jstr_effect s j : ext j (quoted (s ≫= jchar)) (jstr s j) /\ jw_depth (jstr s j) = jw_depth j /\ jw_comma (jstr s j) = jw_comma j.
Proof.
  unfold jstr.
  assert (H : forall j0, room j0 -> ext j0 (s ≫= jchar) (foldl (fun j c => jraw (jchar c) j) j0 s) /\
    jw_depth (foldl (fun j c => jraw (jchar c) j) j0 s) = jw_depth j0 /\ jw_comma (foldl (fun j c => jraw (jchar c) j) j0 s) = jw_comma j0).
  { clear. induction s as [|c s IH]; intros j0 R; cbn [foldl mbind list_bind]; [split; [by apply ext_refl|done]|].
    destruct (IH (jraw (jchar c) j0) (ext_room _ _ _ (ext_jraw _ _))) as (X & D & C).
    destruct (jraw_depth (jchar c) j0) as [D0 C0]. split; [|split; congruence]. eapply ext_trans; [apply ext_jraw|exact X]. }
  destruct (H (jraw [DQ] j) (ext_room _ _ _ (ext_jraw _ _))) as (X & D & C).
  destruct (jraw_depth [DQ] j) as [D0 C0]. destruct (jraw_depth [DQ] (foldl (fun j c => jraw (jchar c) j) (jraw [DQ] j) s)) as [D1 C1].
  split; [|split; congruence]. change (quoted (s ≫= jchar)) with ([DQ] ++ (s ≫= jchar) ++ [DQ]).
  eapply ext_trans; [apply ext_jraw|]. eapply ext_trans; [exact X|apply ext_jraw].
Qed.

(** ** What a call means

    [puts d f]: at any depth [f] writes one value nested at most [d] deep.  [adds d obj f]:
    inside an object or array [f] writes members, possibly none, with the commas due;
    [always] says that there is one at least. *)

Definition puts (d : nat) (f : jw_t -> jw_t) : Prop := forall D, (D + d < COMMA_MAX)%nat ->
  exists v, wf_value d v /\ forall j, room j -> length (jw_comma j) = COMMA_MAX -> jw_depth j = D ->
    ext j v (f j) /\ jw_depth (f j) = D /\ length (jw_comma (f j)) = COMMA_MAX /\
    forall i, (i <= D)%nat -> jw_comma (f j) !! i = jw_comma j !! i.

Definition lead (c : bool) (D : nat) : str := if c then separator D else [].
Definition adds_gen (always : bool) (d : nat) (obj : bool) (f : jw_t -> jw_t) : Prop := forall D c, (D + d < COMMA_MAX)%nat ->
  exists s c', ((always = false /\ s = [] /\ c' = c) \/ (c' = true /\ exists m, s = lead c D ++ m /\ wf_members d obj m)) /\
  forall j, room j -> length (jw_comma j) = COMMA_MAX -> jw_depth j = D -> jw_comma j !! D = Some c ->
    ext j s (f j) /\ jw_depth (f j) = D /\ length (jw_comma (f j)) = COMMA_MAX /\ jw_comma (f j) !! D = Some c' /\
    forall i, (i < D)%nat -> jw_comma (f j) !! i = jw_comma j !! i.
Notation adds := (adds_gen false).

Lemma adds_weaken a d obj f : adds_gen a d obj f -> adds d obj f.
Proof.
  intros H D c HD. destruct (H D c HD) as (s & c' & [(_ & E)|E] & R); exists s, c'; (split; [|exact R]); [by left|by right].
Qed.
Lemma adds_nil d obj : adds d obj (jdo []).
Proof.
  intros D c HD. exists [], c. split; [by left|]. intros j R L E C. cbn. split; [by apply ext_refl|]. by split_and!.
Qed.
Lemma adds_then a d obj f g : adds d obj f -> adds_gen a d obj g -> adds_gen a d obj (fun j => g (f j)).
Proof.
  intros Hf Hg D c HD. destruct (Hf D c HD) as (s & c1 & Sf & Rf). destruct (Hg D c1 HD) as (s' & c2 & Sg & Rg).
  exists (s ++ s'), c2. split.
  - destruct Sf as [(_ & -> & ->)|(-> & m & -> & M)]; [done|].
    destruct Sg as [(_ & -> & ->)|(-> & m' & -> & M')]; right; (split; [done|]).
    + exists m. by rewrite app_nil_r.
    + destruct (decide (D = 1%nat)) as [->|N].
      * exists (m ++ ","%char :: ["010"%char] ++ m'). split; [by rewrite <- app_assoc|].
        apply wf_members_app; [done|apply Forall_singleton; by apply ws_spec|done].
      * exists (m ++ ","%char :: [] ++ m'). split; [|apply wf_members_app; [done|apply Forall_nil_2|done]].
        unfold lead, separator. apply Nat.eqb_neq in N. rewrite N. by rewrite <- app_assoc.
  - intros j R L E C. destruct (Rf j R L E C) as (X & E1 & L1 & C1 & O1).
    destruct (Rg (f j) (ext_room _ _ _ X) L1 E1 C1) as (X' & E2 & L2 & C2 & O2).
    split_and!; [by eapply ext_trans|done..|]. intros i Hi. by rewrite O2, O1.
Qed.
Lemma adds_jdo d obj l : Forall (adds d obj) l -> adds d obj (jdo l).
Proof. induction 1 as [|f l Hf _ IH]; [apply adds_nil|]. exact (adds_then _ _ _ _ _ Hf IH). Qed.

Lemma puts_raw d v : wf_value d v -> puts d (jraw v).
Proof.
  intros H D HD. exists v. split; [done|]. intros j R L E. destruct (jraw_depth v j) as [E1 C1]. rewrite C1.
  split_and!; [apply ext_jraw|congruence|done|done].
Qed.
Lemma puts_str d s : puts d (jstr s).
Proof.
  intros D HD. exists (quoted (s ≫= jchar)). split; [apply wf_quoted, bind_chars, jchar_chars|].
  intros j R L E. destruct (jstr_effect s j) as (X & E1 & C1). rewrite C1. split_and!; [done|congruence|done|done].
Qed.
Lemma jsep_effect j c : room j -> (jw_depth j < length (jw_comma j))%nat -> jw_comma j !! jw_depth j = Some c ->
  ext j (lead c (jw_depth j)) (jsep j) /\ jw_depth (jsep j) = jw_depth j /\ jw_comma (jsep j) = <[jw_depth j := true]> (jw_comma j).
Proof.
  intros R L C. unfold jsep, comma_at. rewrite C. cbn [default from_option id]. destruct c; cbn [lead].
  - destruct (jraw_depth (separator (jw_depth j)) j) as [D0 C0]. cbn. rewrite D0, C0. split; [|done].
    apply (ext_same _ _ _ (jw_depth j) _), ext_jraw.
  - cbn. split; [|done]. exact (ext_same _ _ _ (jw_depth j) _ (ext_refl j R)).
Qed.
(** A value after what introduces it. *)
Lemma adds_intro d obj pre f (t : str) : puts d f ->
  (forall j, room j -> (jw_depth j < length (jw_comma j))%nat -> forall c, jw_comma j !! jw_depth j = Some c ->
     ext j (lead c (jw_depth j) ++ t) (pre j) /\ jw_depth (pre j) = jw_depth j /\ jw_comma (pre j) = <[jw_depth j := true]> (jw_comma j)) ->
  (forall v, wf_value d v -> wf_members d obj (t ++ v)) -> adds_gen true d obj (fun j => f (pre j)).
Proof.
  intros Hf Hp Hm D c HD. destruct (Hf D HD) as (v & V & Rf). exists (lead c D ++ t ++ v), true. split.
  - right. split; [done|]. exists (t ++ v). split; [done|]. by apply Hm.
  - intros j R L E C. subst D. destruct (Hp j R ltac:(lia) c C) as (X & E1 & C1).
    assert (L1 : length (jw_comma (pre j)) = COMMA_MAX) by (by rewrite C1, length_insert).
    destruct (Rf (pre j) (ext_room _ _ _ X) L1 E1) as (X' & E2 & L2 & O2). rewrite app_assoc.
    split_and!; [by eapply ext_trans|done|done| |].
    + rewrite O2, C1 by lia. apply list_lookup_insert_eq. lia.
    + intros i Hi. rewrite O2, C1 by lia. apply list_lookup_insert_ne. lia.
Qed.
Lemma adds_key d k f : puts d f -> adds_gen true d true (fun j => f (jkey k j)).
Proof.
  intros Hf. apply (adds_intro d true (jkey k) f (quoted (k ≫= jchar) ++ [":"%char])); [done| |].
  - intros j R L c C. unfold jkey. destruct (jsep_effect j c R L C) as (X & E1 & C1).
    destruct (jstr_effect k (jsep j)) as (X2 & E2 & C2). destruct (jraw_depth [":"%char] (jstr k (jsep j))) as (E3 & C3).
    split_and!; [|congruence|congruence]. eapply ext_trans; [exact X|]. eapply ext_trans; [exact X2|apply ext_jraw].
  - intros v V. rewrite <- app_assoc. apply wf_member; [apply bind_chars, jchar_chars|done].
Qed.
Lemma adds_elem d f : puts d f -> adds_gen true d false (fun j => f (jsep j)).
Proof.
  intros Hf. apply (adds_intro d false jsep f []); [done| |intros v V; by apply wf_element].
  intros j R L c C. rewrite app_nil_r. by apply jsep_effect.
Qed.
Lemma jopen_effect c j D : jw_depth j = D -> (D + 1 < COMMA_MAX)%nat ->
  ext j [c] (jopen c j) /\ jw_depth (jopen c j) = S D /\ jw_comma (jopen c j) = <[S D := false]> (jw_comma j).
Proof.
  intros E H. unfold jopen. destruct (jraw_depth [c] j) as [E1 C1]. rewrite E1, E.
  apply Nat.ltb_lt in H. rewrite H. cbn. rewrite E1, C1, E. split; [|done]. apply (ext_same _ _ _ (S D) _), ext_jraw.
Qed.
Lemma jclose_effect c j : room j -> ext j [c] (jclose c j) /\ jw_depth (jclose c j) = Nat.pred (jw_depth j) /\ jw_comma (jclose c j) = jw_comma j.
Proof.
  intros R. unfold jclose. set (j1 := j <| jw_depth ::= Nat.pred |>). destruct (jraw_depth [c] j1) as [E1 C1].
  split; [|by rewrite E1, C1]. destruct (ext_jraw [c] j1) as [C O B]. by split.
Qed.
Lemma puts_container d obj f : adds d obj f -> puts (S d) (fun j => jclose (close_ obj) (f (jopen (open_ obj) j))).
Proof.
  intros Hf D HD. destruct (Hf (S D) false ltac:(lia)) as (s & c' & S & Rf). exists (open_ obj :: s ++ [close_ obj]). split.
  - destruct S as [(_ & -> & _)|(_ & m & -> & M)]; [apply wf_empty|by apply wf_container].
  - intros j R L E. destruct (jopen_effect (open_ obj) j D E ltac:(lia)) as (X1 & E1 & C1).
    assert (L1 : length (jw_comma (jopen (open_ obj) j)) = COMMA_MAX) by (by rewrite C1, length_insert).
    destruct (Rf (jopen (open_ obj) j) (ext_room _ _ _ X1) L1 E1) as (X2 & E2 & L2 & C2 & O2).
    { rewrite C1. apply list_lookup_insert_eq. lia. }
    destruct (jclose_effect (close_ obj) (f (jopen (open_ obj) j)) (ext_room _ _ _ X2)) as (X3 & E3 & C3).
    split_and!; [|by rewrite E3, E2|by rewrite C3|].
    + change (open_ obj :: s ++ [close_ obj]) with ([open_ obj] ++ s ++ [close_ obj]).
      eapply ext_trans; [exact X1|]. by eapply ext_trans.
    + intros i Hi. rewrite C3, O2, C1 by lia. apply list_lookup_insert_ne. lia.
Qed.

(** ** The calls of the document *)

Section calls.
Context (d : nat) (k : string).
Lemma adds_ku64 v : adds_gen true d true (ku64 k v).
Proof. apply (adds_key d (s_ k)), puts_raw, wf_number, fmt_u64_number. Qed.
Lemma adds_ki64 v : adds_gen true d true (ki64 k v).
Proof. apply (adds_key d (s_ k)), puts_raw, wf_number, fmt_i64_number. Qed.
Lemma adds_kstr v : adds_gen true d true (kstr k v).
Proof. apply (adds_key d (s_ k)), puts_str. Qed.
Lemma adds_kbool v : adds_gen true d true (kbool k v).
Proof. apply (adds_key d (s_ k)), puts_raw, wf_bool. Qed.
Lemma adds_knull : adds_gen true d true (knull k).
Proof. apply (adds_key d (s_ k)), puts_raw, wf_null. Qed.
Lemma adds_kquoted t : jchars t -> adds_gen true d true (fun j => jraw (quoted t) (jkey (s_ k) j)).
Proof. intros H. by apply (adds_key d (s_ k)), puts_raw, wf_quoted. Qed.
Lemma adds_khex v n : adds_gen true d true (khex k v n).
Proof. apply adds_kquoted. apply (jchars_app (s_ "0x")); [by apply plain_chars, (bool_decide_unpack _)|apply fmt_hex_chars]. Qed.
Lemma adds_kopt v : adds_gen true d true (kopt k v).
Proof. unfold kopt. destruct (v <? 0); [apply adds_knull|apply adds_ki64]. Qed.
Lemma adds_kobj l : Forall (adds d true) l -> adds_gen true (S d) true (enclose (kobj k) "}" l).
Proof. intros H. exact (adds_key (S d) (s_ k) _ (puts_container d true _ (adds_jdo d true l H))). Qed.
Lemma adds_karr l : Forall (adds d false) l -> adds_gen true (S d) true (enclose (karr k) "]" l).
Proof. intros H. exact (adds_key (S d) (s_ k) _ (puts_container d false _ (adds_jdo d false l H))). Qed.
Lemma adds_aobj l : Forall (adds d true) l -> adds_gen true (S d) false (enclose aobj "}" l).
Proof. intros H. exact (adds_elem (S d) _ (puts_container d true _ (adds_jdo d true l H))). Qed.
Lemma adds_anum v : adds_gen true d false (anum v).
Proof. apply adds_elem, puts_raw, wf_number, fmt_u64_number. Qed.
Lemma adds_astr s : adds_gen true d false (astr s).
Proof. apply adds_elem, puts_str. Qed.
Lemma adds_jwhen b l : Forall (adds d true) l -> adds d true (jwhen b l).
Proof. intros H. unfold jwhen. destruct b; [by apply adds_jdo|apply adds_nil]. Qed.
End calls.
Lemma adds_fmap {A} d obj (f : A -> jw_t -> jw_t) l : (forall x, adds d obj (f x)) -> Forall (adds d obj) (f <$> l).
Proof. intros H. apply Forall_fmap, Forall_true. done. Qed.
Lemma adds_imap {A} d obj (f : nat -> A -> jw_t -> jw_t) l : (forall i x, adds d obj (f i x)) -> Forall (adds d obj) (imap f l).
Proof. revert f. induction l as [|x l IH]; intros f H; [constructor|]. rewrite imap_cons. constructor; [apply H|]. apply (IH (fun i => f (S i))). intros i y. apply H. Qed.
(** One step for each form of call; the parts of the document that have a lemma are in the
    database. *)
Create HintDb jw discriminated.
Ltac jw := repeat match goal with
  | |- Forall _ [] => apply Forall_nil_2
  | |- Forall _ (_ :: _) => apply Forall_cons_2
  | |- Forall _ (_ <$> _) => apply adds_fmap; intros
  | |- Forall _ (imap _ _) => apply adds_imap; intros
  | |- adds_gen _ _ _ (jwhen _ _) => apply adds_jwhen
  | |- adds_gen _ _ _ (jdo _) => apply adds_jdo
  | |- adds_gen _ _ _ (ku64 _ _) => eapply adds_weaken, adds_ku64
  | |- adds_gen _ _ _ (ki64 _ _) => eapply adds_weaken, adds_ki64
  | |- adds_gen _ _ _ (kstr _ _) => eapply adds_weaken, adds_kstr
  | |- adds_gen _ _ _ (kbool _ _) => eapply adds_weaken, adds_kbool
  | |- adds_gen _ _ _ (knull _) => eapply adds_weaken, adds_knull
  | |- adds_gen _ _ _ (khex _ _ _) => eapply adds_weaken, adds_khex
  | |- adds_gen _ _ _ (kopt _ _) => eapply adds_weaken, adds_kopt
  | |- adds_gen _ _ _ (anum _) => eapply adds_weaken, adds_anum
  | |- adds_gen _ _ _ (astr _) => eapply adds_weaken, adds_astr
  | |- adds_gen _ _ _ (enclose (kobj _) _ _) => eapply adds_weaken, adds_kobj
  | |- adds_gen _ _ _ (enclose (karr _) _ _) => eapply adds_weaken, adds_karr
  | |- adds_gen _ _ _ (enclose aobj _ _) => eapply adds_weaken, adds_aobj
  | _ => solve [auto 1 with jw nocore]
  end.

Lemma adds_khist d k h : adds (S (S d)) true (khist k h).
Proof. unfold khist, kcounts. destruct (negb (ah_have h)); jw. Qed.
#[export] Hint Resolve adds_khist : jw.
Lemma adds_emcy d e : adds (S d) false (emcy_obj e).
Proof. unfold emcy_obj. jw. eapply adds_weaken, adds_kquoted, bind_chars, fmt_hex_chars. Qed.
#[export] Hint Resolve adds_emcy : jw.
Lemma adds_bucket_table d bound : adds (S (S (S d))) true (bucket_table bound).
Proof. unfold bucket_table. jw. Qed.
#[export] Hint Resolve adds_bucket_table : jw.
Lemma adds_port d n rt po : adds (S d) false (port_obj n rt po).
Proof. unfold port_obj. destruct (port_counts n rt po). jw. Qed.
#[export] Hint Resolve adds_port : jw.
Lemma adds_group d rt g gc : adds (S (S d)) false (group_obj rt g gc).
Proof. unfold group_obj. jw. case_match; jw. Qed.
#[export] Hint Resolve adds_group : jw.
Lemma adds_mon_slave d m s : adds (S (S d)) true (mon_slave m s).
Proof. unfold mon_slave, ku64x4. jw. Qed.
#[export] Hint Resolve adds_mon_slave : jw.
Lemma adds_slave d m i sc : adds (S (S (S d))) false (slave_obj m i sc).
Proof. unfold slave_obj. jw. repeat case_match; jw. Qed.
#[export] Hint Resolve adds_slave : jw.
Lemma adds_axis d a : adds (S d) false (axis_obj a).
Proof. unfold axis_obj. jw. Qed.
#[export] Hint Resolve adds_axis : jw.
Lemma adds_finding d f : adds (S d) false (finding_obj f).
Proof. unfold finding_obj. jw. Qed.
#[export] Hint Resolve adds_finding : jw.
Lemma adds_bus d st rt : adds (S (S (S d))) true (bus_part st rt).
Proof. unfold bus_part. jw. Qed.
#[export] Hint Resolve adds_bus : jw.
Lemma adds_groups d st rt : adds (S (S (S d))) true (groups_part st rt).
Proof. unfold groups_part. jw. Qed.
#[export] Hint Resolve adds_groups : jw.
Lemma adds_hist d st t : adds (S (S (S d))) true (hist_part st t).
Proof. unfold hist_part, kcounts. jw. case_match; jw. Qed.
#[export] Hint Resolve adds_hist : jw.
Lemma adds_dc d st rt : adds (S d) true (dc_part st rt).
Proof. unfold dc_part. repeat case_match; jw. Qed.
#[export] Hint Resolve adds_dc : jw.
Lemma adds_link d st rt : adds (S d) true (link_part st rt).
Proof. unfold link_part. jw. case_match; jw. Qed.
#[export] Hint Resolve adds_link : jw.
Lemma adds_sources d rt t m : adds (S (S d)) true (sources_part rt t m).
Proof. unfold sources_part. jw; case_match; jw. Qed.
#[export] Hint Resolve adds_sources : jw.

(** The members that come ready made: a text written after a comma. *)
Lemma adds_tail d obj f m : adds_gen true d obj f -> wf_members d obj m -> adds_gen true d obj (fun j => jraw m (jraw [","%char] (f j))).
Proof.
  intros Hf M D c HD. destruct (Hf D c HD) as (s & c' & [(A & _)|(-> & m0 & -> & M0)] & R); [done|].
  exists ((lead c D ++ m0) ++ ","%char :: m), true. split.
  - right. split; [done|]. exists (m0 ++ ","%char :: [] ++ m). split; [by rewrite <- app_assoc|]. apply wf_members_app; [done|apply Forall_nil_2|done].
  - intros j Rj L E C. destruct (R j Rj L E C) as (X & E1 & L1 & C1 & O1).
    destruct (jraw_depth [","%char] (f j)) as [E2 C2]. destruct (jraw_depth m (jraw [","%char] (f j))) as [E3 C3].
    rewrite E3, C3, E2, C2. split; [|done]. eapply ext_trans; [exact X|].
    change (","%char :: m) with ([","%char] ++ m). eapply ext_trans; apply ext_jraw.
Qed.
Lemma adds_rtcfg d r : adds (S (S d)) true (jdo (rtcfg_members r)).
Proof. unfold rtcfg_members. jw; case_match; jw. Qed.
Lemma room_init cap D : 1 <= cap -> room (jw_init cap D).
Proof. intros H _. cbn. unfold zlen. cbn. lia. Qed.
Lemma rtcfg_text d r cap : (S (S d) + 2 < COMMA_MAX)%nat -> 1 <= cap ->
  ecm_api_rtcfg_json r cap = [] \/ wf_members (S (S d)) true (ecm_api_rtcfg_json r cap).
Proof.
  intros Hd Hc. unfold ecm_api_rtcfg_json. rewrite (proj2 (Z.eqb_neq cap 0)) by lia. unfold text_of.
  destruct (adds_rtcfg d r 2%nat false ltac:(lia)) as (s & c' & S & R).
  destruct (R (jw_init cap 2) (room_init cap 2%nat Hc) eq_refl eq_refl eq_refl) as ([_ _ B] & _).
  destruct (jw_ovf (jdo (rtcfg_members r) (jw_init cap 2))); [by left|]. rewrite (B eq_refl). cbn [jw_init jw_b app].
  destruct S as [(_ & -> & _)|(_ & m & -> & M)]; [by left|by right].
Qed.
Lemma adds_rt d st rt : (S (S d) + 2 < COMMA_MAX)%nat -> adds (S (S (S d))) true (rt_part st rt).
Proof.
  intros Hd. unfold rt_part. jw; [case_match; jw|case_match; jw|].
  destruct (rtcfg_text d (st_rtcfg st) 2048 Hd ltac:(lia)) as [E|M]; unfold streq; case_bool_decide; try done;
    [eapply adds_weaken, adds_kstr..|]. eapply adds_weaken, adds_tail; [apply adds_kstr|done].
Qed.

(** ** The document *)

Definition stats_body (bound : Z -> Z) (st : ecm_api_stats_t) : list (jw_t -> jw_t) :=
  let rt := if st_have_rt st then Some (st_rt st) else None in
  let t := if st_have_tel st then Some (st_tel st) else None in
  let m := if st_have_mon st then Some (st_mon st) else None in [
    ku64 "schema" ECM_API_SCHEMA; ku64 "pub_seq" (st_pub_seq st); ku64 "mono_ns" (st_mono_ns st); ki64 "pid" (st_pid st);
    kbool "final" (st_final st); bucket_table bound;
    bus_part st rt; groups_part st rt; hist_part st t; dc_part st rt; link_part st rt;
    enclose (karr "slaves") "]" (imap (fun i => slave_obj m (Z.of_nat i)) (upto (st_n_slaves st) ECM_API_MAX_SLAVES (st_scfg st)));
    enclose (karr "axes") "]" (axis_obj <$> upto (st_naxes st) ECM_API_MAX_AXES (st_ax st));
    rt_part st rt;
    enclose (karr "findings") "]" (match m with Some m => finding_obj <$> upto (mn_nf m) ECM_API_MAX_FINDINGS (mn_f m) | None => [] end);
    sources_part rt t m].
Lemma adds_stats bound st : Forall (adds 15 true) (stats_body bound st).
Proof. pose proof (fun rt => adds_rt 12 st rt ltac:(lia)) as Hrt. unfold stats_body. jw. case_match; jw. Qed.

(** C19: the document.  For every snapshot there is one JSON text, with the tokens [ts] the
    reader of the repository finds in it, such that [ecm_api_stats_json] gives that text
    for every buffer it fits in with its terminator, and nothing for a smaller one. *)
Theorem stats_json_valid (bound : Z -> Z) (st : ecm_api_stats_t) : exists text ts,
  jtext text ts /\ (forall max, zlen ts <= max -> ecm_json_parse text max = JTokens ts) /\
  forall cap, 0 <= cap -> ecm_api_stats_json bound st cap = if zlen text + 1 <=? cap then text else [].
Proof.
  destruct (puts_container 15 true _ (adds_jdo _ _ _ (adds_stats bound st)) 0%nat ltac:(lia)) as (v & V & R).
  destruct (V 0 (-1) 0) as (ts & J). set (text := v ++ ["010"%char]).
  assert (T : jtext text ts).
  { exists [], v, ["010"%char]. split_and!; [done|apply Forall_nil_2|(apply Forall_singleton; by apply ws_spec)|exact J]. }
  exists text, ts. split_and!; [done|intros max H; by apply parse_tokens|].
  intros cap Hc. unfold ecm_api_stats_json. destruct (Z.eqb_spec cap 0) as [->|N].
  { rewrite (proj2 (Z.leb_gt _ _)); [done|]. pose proof (zlen_nonneg text). lia. }
  destruct (R (jw_init cap 0) (room_init cap 0 ltac:(lia)) eq_refl eq_refl) as (X & _).
  pose proof (ext_trans _ _ _ _ _ X (ext_jraw ["010"%char] _)) as [_ O B]. cbn [jw_init jw_ovf jw_cap jw_b orb app] in O, B.
  change (text_of (jraw ["010"%char] (enclose (jopen "{") "}" (stats_body bound st) (jw_init cap 0))) = if zlen text + 1 <=? cap then text else []).
  unfold text_of. fold text in O, B. change (zlen (@nil ascii)) with 0 in O.
  unfold enclose. change "{"%char with (open_ true). change "}"%char with (close_ true). rewrite O.
  destruct (Z.leb_spec (zlen text + 1) cap) as [L|L].
  - rewrite (proj2 (Z.ltb_ge _ _)) in O |- * by lia. by apply B.
  - rewrite (proj2 (Z.ltb_lt _ _)) by lia. done.
Qed.

(** A document with every part present, and what the reader finds in it. *)
Definition demo_hist : ecm_api_hist_t := mkAhist true 3 60 10 30 ([0; 2; 1] ++ replicate 118 0).
Definition demo_rt : ecm_api_rt_t :=
  mkArt 5 1000 77 0 1 [mkRtg 100 0 0 [98; 2; 0; 0; 0] 2] true 2 1 0 0 0 0 (-12) true 1 2 3 4 9 0.
Definition demo_mon : ecm_api_mon_t :=
  mkMon 6 1001 true 10 1 1 0 1
    [mkMons 0x1001 0x14 0x1b 0x5500 true true [1; 2; 3; 4] [0; 0; 0; 0] [0; 0; 0; 0] [0; 0; 0; 0] 0 0 1 1
       [mkAemcy 900 70 0x4210 8 [1; 2; 3; 4; 0xAB]] 1 true false false 0 2 1 0]
    1 [mkAfind (s_ "cable_fwd") (s_ "warn") 1 2 3 4 true (s_ "port 1 -> 2")] 0.
Definition demo_stats : ecm_api_stats_t :=
  mkStats 4242 1000000 (s_ "etf") 1 1 1 (s_ "single") [mkPort (s_ "primary") (s_ "eth0") 1 0 0 0 (-1) 3]
    [mkGcfg (s_ "main") 1 [1] 1000000] [mkScfg 1 2 0x44C2C52 0x120000 (DQ :: s_ "EL2004")] 1 true (s_ "cia402") (s_ "1-2")
    (mkRtcfg 3 (s_ "3") true (s_ "intel_idle") false 2 [s_ "C1"] (s_ "6.1.0-rt") [s_ "isolcpus=3"])
    41 123456789 false (s_ "RUN") true true true true true demo_rt (mkRtdc 1 2 (mkLinh true 4 [4; 0])) (mkRthook 1 2 demo_hist)
    (mkTel 7 1002 demo_hist demo_hist demo_hist demo_hist 0 0) demo_mon 0 0 1
    [mkAaxis (s_ "x") 1 0 (s_ "operation enabled") (s_ "none") (s_ "none") 0x27 0xF 0 8 8 false true (-5) 6 77 1 0 0 0 0 0 []].
Definition demo_bounds (i : Z) : Z := 100 * (i + 1).
Definition demo_read (s : str) : option Z * option Z * option str * option str :=
  match ecm_json_parse s 1000 with
  | JTokens ts =>
      let field (obj : Z) (k : string) := ecm_json_get s ts (zlen ts) obj (s_ k) in
      (ecm_json_u64 s (tok_at ts (field 0 "pub_seq")), ecm_json_i64 s (tok_at ts (field (field 0 "dc") "err_ns")),
       ecm_json_str s (tok_at ts (field (field 0 "rt") "kernel")) 64, ecm_json_str s (tok_at ts (field (field 0 "slaves" + 1) "name")) 64)
  | _ => (None, None, None, None)
  end.
Example stats_demo : demo_read (ecm_api_stats_json demo_bounds demo_stats 16384) = (Some 41, Some (-12), Some (s_ "6.1.0-rt"), Some (DQ :: s_ "EL2004")).
Proof. vm_compute. reflexivity. Qed.
Lemma demo_fits : streq (ecm_api_stats_json demo_bounds demo_stats 16384) [] = false.
Proof. vm_compute. reflexivity. Qed.
Lemma stats_json_valid_witness : exists text ts,
  jtext text ts /\ ecm_json_parse text (zlen ts) = JTokens ts /\ ecm_api_stats_json demo_bounds demo_stats 16384 = text.
Proof.
  destruct (stats_json_valid demo_bounds demo_stats) as (text & ts & T & P & R). exists text, ts.
  pose proof demo_fits as N. rewrite (R 16384 ltac:(lia)) in N |- *.
  destruct (zlen text + 1 <=? 16384); [|discriminate N]. split; [exact T|]. split; [|reflexivity]. apply P. reflexivity.
Defined.

(** ** Handoff *)

Section handoff.
Context {A : Type} `{!Inhabited A}.

(** The handoff of the diagnosis with the same slots. *)
Definition as_diag (h : ecm_api_ho_t A) : Handoff.ecm_diag_handoff_t A :=
  Handoff.mkho (a_state h) (a_seq h) (a_drops h) (a_puts h) (a_next h) (a_slot h).

Lemma api_put_diag (h : ecm_api_ho_t A) x :
  (as_diag (ecm_api_ho_put h x).1, (ecm_api_ho_put h x).2) = Handoff.ecm_diag_handoff_put (as_diag h) x.
Proof.
  unfold ecm_api_ho_put, ecm_api_ho_begin, Handoff.ecm_diag_handoff_put. cbn [as_diag Handoff.h_state Handoff.next_put].
  destruct (a_state h (a_next h)); [|done]. by destruct (a_state h (negb (a_next h))).
Qed.
Lemma api_get_diag (h : ecm_api_ho_t A) :
  (as_diag (ecm_api_ho_get h).1, (ecm_api_ho_get h).2) = Handoff.ecm_diag_handoff_get (as_diag h).
Proof.
  unfold ecm_api_ho_get, Handoff.ecm_diag_handoff_get, Handoff.pick. cbn [as_diag Handoff.h_state Handoff.put_seq].
  destruct (a_state h false) eqn:E0, (a_state h true) eqn:E1; cbn [negb andb orb Bool.eqb]; rewrite ?E0, ?E1; done.
Qed.

(** A history of calls: the values put (with the answer) and those taken. *)
Inductive ho_op := HPut (x : A) | HGet.
Definition ho_step (s : ecm_api_ho_t A * list A * list A) (o : ho_op) : ecm_api_ho_t A * list A * list A :=
  let '(h, pu, go) := s in
  match o with
  | HPut x => let '(h, ok) := ecm_api_ho_put h x in (h, if ok then pu ++ [x] else pu, go)
  | HGet => let '(h, r) := ecm_api_ho_get h in (h, pu, match r with Some x => go ++ [x] | None => go end)
  end.
Definition ho_run (h : ecm_api_ho_t A) (ops : list ho_op) := foldl ho_step (h, [], []) ops.

(** Every history is a run of the interleaved system of the diagnosis. *)
Lemma rtc_reach (s s' : Handoff.sys A) : Handoff.reach s -> rtc Handoff.pstep s s' -> Handoff.reach s'.
Proof. intros R H. induction H as [|s s1 s2 H _ IH]; [done|]. apply IH. by eapply Handoff.reach_p. Qed.
Lemma rtc_reach_c (s s' : Handoff.sys A) : Handoff.reach s -> rtc Handoff.cstep s s' -> Handoff.reach s'.
Proof. intros R H. induction H as [|s s1 s2 H _ IH]; [done|]. apply IH. by eapply Handoff.reach_c. Qed.
Lemma ho_run_reach ops : let '(h, pu, go) := ho_run (ecm_api_ho_init (fun _ => inhabitant)) ops in
  exists pe, Handoff.reach (Handoff.mksys (as_diag h) Handoff.PIdle Handoff.CIdle pu go pe) /\ (length pu <= length ops)%nat.
Proof.
  induction ops as [|o ops IH] using rev_ind; [exists []; split; [apply Handoff.reach_init|done]|].
  unfold ho_run in *. rewrite foldl_app. destruct (foldl ho_step _ ops) as [[h pu] go]. destruct IH as (pe & R & L). cbn [foldl ho_step].
  rewrite length_app. cbn [length]. destruct o as [x|].
  - pose proof (api_put_diag h x) as E. destruct (ecm_api_ho_put h x) as [h' ok]. cbn [fst snd] in E.
    pose proof (Handoff.put_is_run (as_diag h) x Handoff.CIdle pu go pe) as P. rewrite <- E in P.
    destruct P as (pu' & pe' & P & ->). exists pe'. split; [by eapply rtc_reach|]. destruct ok; rewrite ?length_app; cbn; lia.
  - pose proof (api_get_diag h) as E. destruct (ecm_api_ho_get h) as [h' r]. cbn [fst snd] in E.
    pose proof (Handoff.get_is_run (as_diag h) Handoff.PIdle pu go pe) as P. rewrite <- E in P.
    destruct P as (go' & pe' & P & ->). exists pe'. split; [by eapply rtc_reach_c|lia].
Qed.
End handoff.
Arguments ho_op : clear implicits.

(** The handoff of the API is a queue of two.  After any sequence of puts and takes,
    what was put and not refused is what was taken followed by the queue that waits; a
    take gives the oldest of it, a put is refused exactly when two wait. *)
Theorem api_handoff_queue {A : Type} `{!Inhabited A} (ops : list (ho_op A)) : Z.of_nat (length ops) < 18446744073709551615 ->
  let '(h, pu, go) := ho_run (ecm_api_ho_init (fun _ => inhabitant)) ops in
  exists q, pu = go ++ q /\ (length q <= 2)%nat /\ (ecm_api_ho_get h).2 = head q /\
    forall x, (ecm_api_ho_put h x).2 = (length q <? 2)%nat.
Proof.
  intros Hn. pose proof (ho_run_reach ops) as R. destruct (ho_run _ ops) as [[h pu] go]. destruct R as (pe & R & L).
  destruct (Handoff.handoff_reach_inv _ R) as ((P & F & S & O & _) & _); [cbn; lia|]. cbn in P, F, S, O.
  exists (a_slot h <$> pe). split; [done|]. rewrite length_fmap.
  unfold ecm_api_ho_get, ecm_api_ho_put, ecm_api_ho_begin. rewrite !F.
  destruct P as [->|[[k ->]|[k ->]]]; cbn [length fmap list_fmap head Handoff.full_in existsb].
  - split; [lia|]. split; [done|]. intros x. by destruct (a_next h).
  - split; [lia|]. destruct k; cbn; rewrite ?F; (split; [done|intros x; by destruct (a_next h)]).
  - split; [lia|]. cbn in O. destruct k; cbn in *.
    + rewrite (proj2 (Z.ltb_ge _ _)) by lia. split; [done|]. intros x. by destruct (a_next h).
    + rewrite (proj2 (Z.ltb_lt _ _)) by lia. split; [done|]. intros x. by destruct (a_next h).
Qed.

Definition demo_ops : list (ho_op Z) := [HPut 5; HPut 6; HPut 7; HGet; HPut 8].
Lemma api_handoff_queue_witness : exists h, ho_run (ecm_api_ho_init (fun _ => inhabitant)) demo_ops = (h, [5; 6; 8], [5]) /\
  (ecm_api_ho_get h).2 = Some 6.
Proof.
  pose proof (api_handoff_queue demo_ops ltac:(vm_compute; reflexivity)) as H.
  assert (E1 : (ho_run (ecm_api_ho_init (fun _ => inhabitant)) demo_ops).1.2 = [5; 6; 8]) by (vm_compute; reflexivity).
  assert (E2 : (ho_run (ecm_api_ho_init (fun _ => inhabitant)) demo_ops).2 = [5]) by (vm_compute; reflexivity).
  destruct (ho_run (ecm_api_ho_init (fun _ => inhabitant)) demo_ops) as [[h pu] go]. cbn [fst snd] in E1, E2. subst pu go.
  exists h. split; [done|]. destruct H as (q & Hq & _ & Hg & _). rewrite Hg. cbn in Hq. injection Hq as <-. reflexivity.
Defined.

(** ** Publication *)

Definition write_ok (w : write_t) : Prop := match w with WErr e => 0 < e | _ => True end.
Definition env_ok (e : publish_env) : Prop :=
  Forall write_ok (p_writes e) /\ forall x, Some x = p_open e \/ Some x = p_close e \/ Some x = p_rename e -> 0 < x.
(** [write] that takes one byte at least. *)
Definition takes (w : write_t) : bool := match w with WOk n => (1 <=? n)%nat | _ => false end.

Lemma write_loop_spec (ws : list write_t) (tmp rest : str) (f : fs) (l : list fs) (f2 : fs) (r : option Z) (b : str) : Forall write_ok ws -> f !! tmp = Some b -> write_loop ws tmp rest f = Some (l, f2, r) ->
  Forall (fun g => delete tmp g = delete tmp f) l /\ delete tmp f2 = delete tmp f /\
  match r with Some e => 0 < e | None => f2 !! tmp = Some (b ++ rest) end.
Proof.
  intros Hw. revert rest f b l f2 r. induction Hw as [|w ws Hx Hw IH]; intros rest f b l f2 r Hb E.
  - destruct rest; [|done]. injection E as <- <- <-. rewrite app_nil_r. split_and!; [apply Forall_nil_2|done|done].
  - destruct rest as [|c rest]; [injection E as <- <- <-; rewrite app_nil_r; split_and!; [apply Forall_nil_2|done|done]|].
    destruct w as [n| |e]; cbn [write_loop] in E.
    + set (f1 := <[tmp:=default [] (f !! tmp) ++ take n (c :: rest)]> f) in E.
      destruct (write_loop ws tmp (drop n (c :: rest)) f1) as [[[l1 f3] r1]|] eqn:E1; [|done]. injection E as <- <- <-.
      assert (Hb1 : f1 !! tmp = Some (b ++ take n (c :: rest))) by (unfold f1; by rewrite lookup_insert_eq, Hb).
      destruct (IH _ _ _ _ _ _ Hb1 E1) as (H1 & H2 & H3).
      assert (D : delete tmp f1 = delete tmp f) by (unfold f1; by rewrite delete_insert_eq).
      rewrite D in H1, H2. split_and!; [by apply Forall_cons_2|done|]. destruct r1; [done|]. by rewrite <- app_assoc, take_drop in H3.
    + by eapply IH.
    + injection E as <- <- <-. split_and!; [apply Forall_nil_2|done|done].
Qed.
Lemma write_loop_ends (ws : list write_t) (tmp rest : str) (f : fs) : Forall (fun w => match w with WErr _ => False | _ => True end) ws ->
  (length rest <= length (filter (fun w => takes w = true) ws))%nat -> exists l f2, write_loop ws tmp rest f = Some (l, f2, None).
Proof.
  intros Hw. revert rest f. induction Hw as [|w ws Hx Hw IH]; intros rest f L.
  - destruct rest; [by eexists _, _|cbn in L; lia].
  - destruct rest as [|c rest]; [by eexists _, _|]. destruct w as [n| |e]; [|by apply IH|done]. cbn [write_loop].
    set (f1 := <[tmp:=_]> f). destruct (IH (drop n (c :: rest)) f1) as (l & f2 & E).
    + rewrite length_drop. rewrite filter_cons in L. cbn [length] in *. destruct n as [|n]; case_decide as T; unfold takes in T; cbn in T, L |- *; try done; lia.
    + rewrite E. by eexists _, _.
Qed.
Lemma tmp_dst dir name : tmp_name dir name <> dst_name dir name.
Proof. intros E. apply (f_equal length) in E. unfold tmp_name, dst_name in E. rewrite !length_app in E. change (length (s_ "/.")) with 2%nat in E. change (length (s_ "/")) with 1%nat in E. lia. Qed.
Lemma lookup_past (f g : fs) (k n : str) : delete k f = delete k g -> n <> k -> f !! n = g !! n.
Proof. intros E N. by rewrite <- (lookup_delete_ne f k n), E, lookup_delete_ne. Qed.

(** C20: publication is atomic.  In every state before the last one, whatever the system
    answers, all files but the temporary one are as before; when the call returns 0 the
    last state has the new contents under the name and no temporary file, otherwise
    every file but the temporary one is as before. *)
Theorem publish_atomic (e : publish_env) (dir name buf : str) (f : fs) (l : list fs) (rc : Z) : env_ok e ->
  ecm_api_publish e dir name buf f = Some (l, rc) ->
  rc <= 0 /\ exists l0 f', l = l0 ++ [f'] /\
  Forall (fun g => forall n, n <> tmp_name dir name -> g !! n = f !! n) l0 /\
  (rc = 0 -> f' = <[dst_name dir name := buf]> (delete (tmp_name dir name) f)) /\
  (rc <> 0 -> forall n, n <> tmp_name dir name -> f' !! n = f !! n).
Proof.
  intros [Hw He]. unfold ecm_api_publish. set (tmp := tmp_name dir name). set (dst := dst_name dir name).
  assert (Hsame : forall g : list fs * Z, forall x, 0 < x -> Some ([f], - x) = Some g -> (l, rc) = g ->
    rc <= 0 /\ exists l0 f', l = l0 ++ [f'] /\ Forall (fun g => forall n, n <> tmp -> g !! n = f !! n) l0 /\
      (rc = 0 -> f' = <[dst:=buf]> (delete tmp f)) /\ (rc <> 0 -> forall n, n <> tmp -> f' !! n = f !! n)).
  { intros g x Hx E E'. rewrite <- E' in E. injection E as <- <-. split; [lia|]. exists [], f.
    split_and!; [done|apply Forall_nil_2|lia|done]. }
  destruct (512 <=? zlen tmp); [intros E; eapply (Hsame _ 36); [lia|exact E|done]|].
  destruct (512 <=? zlen dst); [intros E; eapply (Hsame _ 36); [lia|exact E|done]|].
  destruct (p_open e) as [x|] eqn:Eo; [intros E; eapply (Hsame _ x); [apply He; by left|exact E|done]|]. clear Hsame.
  set (f0 := <[tmp:=[]]> f). intros E.
  destruct (write_loop (p_writes e) tmp buf f0) as [[[l1 f1] r]|] eqn:E1; [|done]. cbn [mbind option_bind] in E.
  destruct (write_loop_spec _ _ _ f0 _ _ _ [] Hw (lookup_insert_eq f tmp []) E1) as (H1 & H2 & H3).
  assert (D : delete tmp f0 = delete tmp f) by (unfold f0; by rewrite delete_insert_eq). rewrite D in H1, H2.
  assert (Hl : Forall (fun g => forall n, n <> tmp -> g !! n = f !! n) (f0 :: l1)).
  { apply Forall_cons_2; [intros n N; by apply (lookup_past _ _ tmp)|]. eapply Forall_impl; [exact H1|]. intros g Hg n N. by apply (lookup_past _ _ tmp). }
  assert (Hfail : forall x, 0 < x -> Some (f0 :: l1 ++ [delete tmp f1], - x) = Some (l, rc) -> rc <= 0 /\ exists l0 f', l = l0 ++ [f'] /\
    Forall (fun g => forall n, n <> tmp -> g !! n = f !! n) l0 /\ (rc = 0 -> f' = <[dst:=buf]> (delete tmp f)) /\ (rc <> 0 -> forall n, n <> tmp -> f' !! n = f !! n)).
  { intros x Hx Ex. injection Ex as <- <-. split; [lia|]. exists (f0 :: l1), (delete tmp f1). split_and!; [done|done|lia|].
    intros _ n N. rewrite H2. by apply lookup_delete_ne. }
  destruct r as [x|]; [by apply (Hfail x)|]. destruct (p_close e) as [x|] eqn:Ec; [apply (Hfail x); [apply He; auto|done]|].
  destruct (p_rename e) as [x|] eqn:Er; [apply (Hfail x); [apply He; auto|done]|].
  injection E as <- <-. split; [lia|]. exists (f0 :: l1), (<[dst:=buf]> (delete tmp f)).
  split_and!; [by rewrite H3, H2|done|done|done].
Qed.

(** A publication whose calls all succeed, with enough writes that take something, returns 0. *)
Theorem publish_succeeds (e : publish_env) (dir name buf : str) (f : fs) : zlen (tmp_name dir name) < 512 -> zlen (dst_name dir name) < 512 ->
  p_open e = None -> p_close e = None -> p_rename e = None ->
  Forall (fun w => match w with WErr _ => False | _ => True end) (p_writes e) ->
  (length buf <= length (filter (fun w => takes w = true) (p_writes e)))%nat ->
  exists l, ecm_api_publish e dir name buf f = Some (l, 0).
Proof.
  intros L1 L2 Eo Ec Er Hw Hn. unfold ecm_api_publish. rewrite !(proj2 (Z.leb_gt _ _)) by done. rewrite Eo, Ec, Er.
  destruct (write_loop_ends (p_writes e) (tmp_name dir name) buf (<[tmp_name dir name:=[]]> f) Hw Hn) as (l & f2 & ->). by eexists.
Qed.

Definition demo_env (r : option Z) : publish_env := mkPub None [WIntr; WOk 2; WOk 0; WOk 9] None r.
Definition demo_fs : fs := {[ s_ "/run/stats.json" := s_ "old"; s_ "/run/other" := s_ "x" ]}.
Lemma publish_atomic_witness : exists l, ecm_api_publish (demo_env None) (s_ "/run") (s_ "stats.json") (s_ "new one") demo_fs = Some (l, 0) /\
  exists l0 f', l = l0 ++ [f'] /\ length l0 = 4%nat /\ Forall (fun g : fs => g !! s_ "/run/stats.json" = Some (s_ "old")) l0 /\ f' !! s_ "/run/stats.json" = Some (s_ "new one").
Proof.
  assert (X : match ecm_api_publish (demo_env None) (s_ "/run") (s_ "stats.json") (s_ "new one") demo_fs with
    Some (l, rc) => (length l, rc) | None => (O, 1) end = (5%nat, 0)) by (vm_compute; reflexivity).
  destruct (ecm_api_publish (demo_env None) (s_ "/run") (s_ "stats.json") (s_ "new one") demo_fs) as [[l rc]|] eqn:E; [|discriminate X].
  injection X as Hl Hrc.
  assert (Hok : env_ok (demo_env None)).
  { split; [apply Forall_cons_2; [exact I|]; apply Forall_cons_2; [exact I|]; apply Forall_cons_2; [exact I|]; apply Forall_cons_2; [exact I|apply Forall_nil_2]|].
    intros x [H|[H|H]]; discriminate H. }
  destruct (publish_atomic (demo_env None) (s_ "/run") (s_ "stats.json") (s_ "new one") demo_fs l rc Hok E) as (_ & l0 & f' & -> & H0 & H1 & _).
  exists (l0 ++ [f']). rewrite Hrc. split; [done|]. exists l0, f'. split; [done|]. rewrite length_app in Hl. cbn in Hl.
  split; [lia|]. split.
  - eapply Forall_impl; [exact H0|]. intros g Hg. rewrite Hg; [vm_compute; reflexivity|vm_compute; discriminate].
  - rewrite (H1 Hrc). vm_compute. reflexivity.
Defined.
Lemma publish_succeeds_witness : exists l, ecm_api_publish (mkPub None [WIntr; WOk 2; WOk 0; WOk 9] None None) (s_ "/run") (s_ "s") (s_ "ab") demo_fs = Some (l, 0).
Proof.
  apply (publish_succeeds (mkPub None [WIntr; WOk 2; WOk 0; WOk 9] None None) (s_ "/run") (s_ "s") (s_ "ab") demo_fs); try reflexivity.
  apply Forall_cons_2; [exact I|]. apply Forall_cons_2; [exact I|]. apply Forall_cons_2; [exact I|]. apply Forall_cons_2; [exact I|apply Forall_nil_2].
Defined.

(** ** CPUs *)

Definition cpu_text (x : Z * Z) : str := if x.1 =? x.2 then udec 20 x.1 else udec 20 x.1 ++ "-"%char :: udec 20 x.2.
Fixpoint cpus_text (l : list (Z * Z)) : str :=
  match l with [] => [] | [x] => cpu_text x | x :: l => cpu_text x ++ ","%char :: cpus_text l end.
Definition in_cpus (l : list (Z * Z)) (c : Z) : bool := existsb (fun x => (x.1 <=? c) && (c <=? x.2)) l.
Definition range_ok (x : Z * Z) : Prop := 0 <= x.1 /\ x.1 <= x.2 /\ x.2 <= 63.

Lemma strip_prefix_10 s : CString.strip_prefix 10 s = (10, s).
Proof. destruct s as [|a [|b [|c s]]]; cbn; rewrite ?andb_false_r; done. Qed.
Definition item_end (r : str) : Prop := match r with [] => True | c :: _ => c = ","%char \/ c = "-"%char end.
Lemma strtol_dec a r : 0 <= a <= 63 -> item_end r -> strtol 10 (udec 20 a ++ r) = Some (a, false, r).
Proof.
  intros H Hr. assert (E : a ∈ seqZ 0 64) by (apply elem_of_seqZ; lia). clear H. revert a E. apply Forall_forall.
  assert (Hd : forall acc, digits 10 acc r = (acc, r)) by (intros acc; destruct r as [|c r]; [done|by destruct Hr as [->| ->]]).
  change (seqZ 0 64) with ltac:(let l := eval vm_compute in (seqZ 0 64) in exact l).
  repeat (apply Forall_cons_2 || apply Forall_nil_2); unfold strtol, strtoll, scan_int.
  all: match goal with |- context [udec 20 ?k] => let v := eval vm_compute in (udec 20 k) in change (udec 20 k) with v end.
  all: match goal with |- context [skip_space (?l ++ ?t)] => change (skip_space (l ++ t)) with (l ++ t) end.
  all: cbn -[CString.strip_prefix digits Z.ltb]; rewrite strip_prefix_10; cbn; by rewrite Hd.
Qed.
Lemma cpu_item_text x r : range_ok x -> (match r with [] => True | c :: _ => c = ","%char end) -> cpu_item (cpu_text x ++ r) = Some (x.1, x.2, r).
Proof.
  destruct x as [a b]. intros (H1 & H2 & H3) Hr. cbn [fst snd] in *. unfold cpu_item, cpu_text. cbn [fst snd].
  assert (Ra : (a <? 0) || (63 <? a) = false) by (rewrite !(proj2 (Z.ltb_ge _ _)) by lia; done).
  destruct (Z.eqb_spec a b) as [<-|N].
  - rewrite strtol_dec by (lia || (destruct r; [done|by left])). cbn [mbind option_bind]. rewrite Ra. destruct r as [|c r]; [done|]. by subst c.
  - rewrite <- app_assoc. cbn [app]. rewrite strtol_dec by (lia || by right). cbn [mbind option_bind]. rewrite Ra. change (Ascii.eqb "-" "-") with true. cbv iota.
    rewrite strtol_dec by (lia || (destruct r; [done|by left])). cbn [mbind option_bind].
    rewrite !(proj2 (Z.ltb_ge _ _)) by lia. done.
Qed.
Lemma cpu_range_bit m a b c : 0 <= a -> a <= b -> 0 <= c -> Z.testbit (cpu_range m a b) c = Z.testbit m c || ((a <=? c) && (c <=? b)).
Proof.
  intros Ha Hab Hc. unfold cpu_range.
  assert (G : forall l m, (forall x, x ∈ l -> 0 <= x) -> Z.testbit (foldl (fun m c => Z.lor m (Z.shiftl 1 c)) m l) c = Z.testbit m c || bool_decide (c ∈ l)).
  { clear - Hc. induction l as [|x l IH]; intros m Hl; cbn [foldl]; [rewrite bool_decide_eq_false_2 by apply not_elem_of_nil; by rewrite orb_false_r|].
    rewrite IH by (intros y Hy; apply Hl; by right). rewrite Z.lor_spec, <- orb_assoc. f_equal.
    rewrite Z.shiftl_1_l, Z.pow2_bits_eqb by (apply Hl; left). destruct (Z.eqb_spec x c) as [->|N]; cbn [orb].
    - symmetry. apply bool_decide_eq_true_2. left.
    - apply bool_decide_ext. rewrite elem_of_cons. naive_solver. }
  rewrite G by (intros x Hx; apply elem_of_seqZ in Hx; lia). f_equal. apply eq_true_iff_eq. rewrite bool_decide_eq_true, elem_of_seqZ, andb_true_iff, !Z.leb_le. lia.
Qed.
Lemma cpu_text_length x : range_ok x -> (1 <= length (cpu_text x))%nat.
Proof.
  intros (H1 & H2 & H3). assert (U : (1 <= length (udec 20 x.1))%nat) by (cbn [udec]; rewrite length_app; cbn [length]; lia).
  unfold cpu_text. destruct (x.1 =? x.2); rewrite ?length_app; lia.
Qed.
Lemma cpus_loop_text l : Forall range_ok l -> l <> [] -> forall fuel m, (length (cpus_text l) <= fuel)%nat ->
  cpus_loop fuel (cpus_text l) m = Some (foldl (fun m x => cpu_range m x.1 x.2) m l).
Proof.
  induction 1 as [|x l Hx Hl IH]; intros N fuel m F; [done|]. pose proof (cpu_text_length x Hx) as Lx.
  destruct l as [|y l].
  - cbn [cpus_text] in *. destruct fuel as [|fuel]; [lia|]. pose proof (cpu_item_text x [] Hx I) as E. rewrite app_nil_r in E.
    cbn [cpus_loop foldl]. destruct (cpu_text x) as [|c t] eqn:Et; [cbn in Lx; lia|]. by rewrite E.
  - change (cpus_text (x :: y :: l)) with (cpu_text x ++ ","%char :: cpus_text (y :: l)) in F |- *. set (t := cpus_text (y :: l)) in *.
    assert (Lt : (1 <= length t)%nat).
    { subst t. inversion Hl as [|? ? Hy]. pose proof (cpu_text_length y Hy). cbn [cpus_text]. destruct l; rewrite ?length_app; lia. }
    rewrite length_app in F. cbn [length] in F. destruct fuel as [|fuel]; [lia|].
    cbn [cpus_loop]. rewrite (cpu_item_text x (","%char :: t) Hx eq_refl). cbn [mbind option_bind].
    destruct (cpu_text x ++ ","%char :: t) as [|c u] eqn:Eu; [by destruct (cpu_text x)|].
    change (Ascii.eqb "," ",") with true. cbv iota beta zeta. unfold streq. rewrite bool_decide_eq_false_2 by (intros ->; cbn in Lt; lia). rewrite IH by (done || lia). done.
Qed.
Lemma cpus_bits l : Forall range_ok l -> forall m c, 0 <= c ->
  Z.testbit (foldl (fun m x => cpu_range m x.1 x.2) m l) c = Z.testbit m c || in_cpus l c.
Proof.
  induction 1 as [|x l (H1 & H2 & H3) _ IH]; intros m c Hc; cbn [foldl in_cpus existsb]; [by rewrite orb_false_r|].
  rewrite IH, cpu_range_bit by lia. by rewrite orb_assoc.
Qed.

(** A list of CPUs reads back.  The text of a list of ranges of CPUs 0 to 63 is accepted
    and the mask has the bit of a CPU exactly when a range holds it. *)
Theorem parse_cpus_roundtrip (l : list (Z * Z)) : l <> [] -> Forall range_ok l ->
  exists m, ecm_api_parse_cpus (cpus_text l) = Some m /\ forall c, 0 <= c -> Z.testbit m c = in_cpus l c.
Proof.
  intros N Hl. set (m := foldl (fun m x => cpu_range m x.1 x.2) 0 l). exists m.
  assert (B : forall c, 0 <= c -> Z.testbit m c = in_cpus l c) by (intros c Hc; unfold m; rewrite cpus_bits by done; by rewrite Z.bits_0).
  split; [|done]. unfold ecm_api_parse_cpus. destruct Hl as [|x l Hx Hl]; [done|]. pose proof (cpu_text_length x Hx) as Lx.
  assert (Le : (1 <= length (cpus_text (x :: l)))%nat) by (cbn [cpus_text]; destruct l; rewrite ?length_app; lia).
  unfold streq. rewrite bool_decide_eq_false_2 by (intros E; rewrite E in Le; cbn in Le; lia).
  rewrite cpus_loop_text by (try done; by apply Forall_cons_2). cbn [mbind option_bind]. fold m.
  destruct (Z.eqb_spec m 0) as [E0|]; [|done]. exfalso. destruct Hx as (H1 & H2 & H3). specialize (B x.1 H1). rewrite E0, Z.bits_0 in B.
  unfold in_cpus in B. cbn [existsb] in B. rewrite Z.leb_refl, (proj2 (Z.leb_le _ _)) in B by done. done.
Qed.

Lemma parse_cpus_roundtrip_witness : cpus_text [(1, 1); (4, 6)] = s_ "1,4-6" /\
  exists m, ecm_api_parse_cpus (s_ "1,4-6") = Some m /\ Z.testbit m 5 = true /\ Z.testbit m 3 = false.
Proof.
  split; [vm_compute; reflexivity|].
  destruct (parse_cpus_roundtrip [(1, 1); (4, 6)]) as (m & E & B); [discriminate| |].
  - apply Forall_cons_2; [cbv; split_and!; discriminate|]. apply Forall_cons_2; [cbv; split_and!; discriminate|apply Forall_nil_2].
  - exists m. split; [exact E|]. rewrite !B by lia. split; vm_compute; reflexivity.
Defined.

(** ** What is read from the machine fits the arrays *)

Definition rtcfg_wf (o : ecm_api_rtcfg_t) : Prop :=
  zlen (rc_flags o) <= ECM_API_RT_FLAGS /\ Forall (fun s => zlen s <= 63) (rc_flags o) /\
  zlen (rc_disabled o) <= ECM_API_RT_STATES /\ Forall (fun s => zlen s <= 23) (rc_disabled o) /\
  zlen (rc_isolated o) <= 63 /\ zlen (rc_idle_driver o) <= 31 /\ zlen (rc_kernel o) <= 95 /\ (rc_idle_driver o <> [] -> rc_idle_driver o <> s_ "none").
Lemma snprintf_len n s : (1 <= n)%nat -> zlen (snprintf n s) <= Z.of_nat n - 1.
Proof. intros H. unfold zlen, snprintf. rewrite length_take. lia. Qed.
Lemma fgets_len n s : zlen (fgets n s) <= Z.of_nat n.
Proof.
  revert s. induction n as [|n IH]; intros s; [unfold zlen; cbn; lia|]. destruct s as [|c s]; [unfold zlen; cbn; lia|]. cbn [fgets].
  destruct (code c =? 10); [unfold zlen; cbn; lia|]. rewrite zlen_cons. specialize (IH s). lia.
Qed.
Lemma until_nul_len s : zlen (until_nul s) <= zlen s.
Proof. induction s as [|c s IH]; [done|]. cbn [until_nul]. case_match; rewrite ?zlen_cons; pose proof (zlen_nonneg s); unfold zlen in *; cbn in *; lia. Qed.
Lemma strip_right_len s : zlen (strip_right s) <= zlen s.
Proof.
  induction s as [|c s IH]; [done|]. cbn [strip_right]. rewrite (zlen_cons c s). pose proof (zlen_nonneg s).
  destruct (strip_right s) as [|d t]; [destruct (trimmed c); unfold zlen in *; cbn [length]; lia|]. rewrite (zlen_cons c). lia.
Qed.
Lemma read_line_len file path cap s : (1 <= cap)%nat -> read_line file path cap = Some s -> zlen s <= Z.of_nat cap - 1.
Proof.
  intros Hc. unfold read_line. destruct (file path) as [c|]; [|done]. intros [= <-].
  pose proof (strip_right_len (until_nul (fgets (cap - 1) c))). pose proof (until_nul_len (fgets (cap - 1) c)). pose proof (fgets_len (cap - 1) c). lia.
Qed.
Lemma add_flag_wf o w : rtcfg_wf o -> rtcfg_wf (add_flag o w).
Proof.
  intros H. unfold add_flag. destruct (existsb (flag_match w) RT_FLAGS); [|done]. cbn [andb].
  destruct (Z.ltb_spec (zlen (rc_flags o)) ECM_API_RT_FLAGS) as [L|L]; [|done].
  assert (H' : rtcfg_wf (o <| rc_flags ::= fun l => l ++ [snprintf 64 w] |>)).
  { destruct H as (_ & H2 & H3). split; [change (zlen (rc_flags o ++ [snprintf 64 w]) <= 16); rewrite zlen_app, zlen_cons, zlen_nil; lia|].
    split; [|exact H3]. cbn. apply Forall_app. split; [done|]. apply Forall_singleton. apply (snprintf_len 64). lia. }
  case_match; [exact H'|done].
Qed.
Lemma idle_states_wf file n k sysroot cpu o : rtcfg_wf o -> rtcfg_wf (idle_states file n k sysroot cpu o).
Proof.
  revert k o. induction n as [|n IH]; intros k o H; [done|]. cbn [idle_states].
  destruct (read_line file (state_path sysroot cpu k "/name") 24) as [name|]; [|done]. apply IH.
  set (o1 := o <| rc_nstates ::= Z.add 1 |>). assert (H1 : rtcfg_wf o1) by exact H. clearbody o1. clear H o.
  destruct (_ && _) eqn:E; [|done]. apply andb_true_iff in E as [_ E]. apply Z.ltb_lt in E.
  destruct H1 as (A & B & C & D & R). split; [done|]. split; [done|]. split; [|split; [|exact R]].
  - change (zlen (rc_disabled o1 ++ [snprintf 24 name]) <= 8). rewrite zlen_app, zlen_cons, zlen_nil. lia.
  - cbn. apply Forall_app. split; [done|]. apply Forall_singleton, (snprintf_len 24). lia.
Qed.
Theorem rtcfg_read_wf (file : str -> option str) (uname : option str) (sysroot cmdline : str) (kernel : option str) (rt_cpu : Z) :
  rtcfg_wf (ecm_api_rtcfg_read file uname sysroot cmdline kernel rt_cpu).
Proof.
  unfold ecm_api_rtcfg_read. set (o0 := mkRtcfg rt_cpu [] false [] false 0 [] [] []).
  assert (H0 : rtcfg_wf o0) by (unfold rtcfg_wf, zlen; cbn; split_and!; (lia || done || apply Forall_nil_2)).
  assert (Hk : forall o k, rtcfg_wf o -> rtcfg_wf (o <| rc_kernel := snprintf 96 k |>)).
  { intros o k (A & B & C & D & E & F & _ & G). split_and!; try done. apply (snprintf_len 96). lia. }
  assert (Hf : forall o l, rtcfg_wf o -> rtcfg_wf (foldl add_flag o l)).
  { intros o l. revert o. induction l as [|w l IH]; intros o H; [done|]. by apply IH, add_flag_wf. }
  set (o1 := match read_line _ _ 64 with Some s => _ | None => _ end).
  assert (H1 : rtcfg_wf o1).
  { unfold o1. destruct (read_line _ _ 64) as [s|] eqn:E1; [|done]. apply read_line_len in E1; [|lia].
    destruct H0 as (A & B & C & D & E & F). split_and!; try done. }
  clearbody o1. set (o2 := match read_line _ _ 32 with Some s => _ | None => _ end).
  assert (H2 : rtcfg_wf o2).
  { unfold o2. destruct (read_line _ _ 32) as [s|] eqn:E1; [|exact H1]. apply read_line_len in E1; [|lia].
    unfold streq. case_bool_decide as N; [exact H1|]. destruct H1 as (A & B & C & D & E & F & G & _). split_and!; try done. }
  clearbody o2. pose proof (idle_states_wf file 16 0 sysroot rt_cpu o2 H2) as H3. set (o3 := idle_states _ _ _ _ _ _) in *. clearbody o3.
  assert (H4 : rtcfg_wf (match file cmdline with Some c => foldl add_flag o3 (cmdline_words [] (until_nul (take 4095 c))) | None => o3 end))
    by (destruct (file cmdline); [by apply Hf|done]).
  destruct kernel; [by apply Hk|]. destruct uname; [by apply Hk|done].
Qed.
