(* ===== verification/Mailbox.v ===== *)
(** * Mailbox jobs: libecmaster/mailbox/ecm_mailbox.c

    Callers put SDO jobs into a bounded queue and wait; one worker thread
    takes them and runs the SDO transfer.  A job lives in the stack frame of its
    caller: [jobs] maps the address of every live frame to its job, and a queue
    slot or the worker holds only the address.  [mstep] interleaves callers and
    worker, one step per section under a mutex; the worker tests the stop flag
    before every job, and whoever owns the thread may set it at any time.  The
    SDO transfers of SOEM are parameters.  Left out: the set-up of the cyclic mailbox in SOEM and the
    allocation of the structure. *)
From Stdlib Require Import ZArith Lia Bool.
From S2P Require Import Prelude.
From stdpp Require Import base list numbers gmap sets.
Open Scope Z_scope.

Definition ECM_MBX_MAX_DATA : Z := 256.
Definition ECM_MBX_JOB_QUEUE_LEN : Z := 32.

Inductive job_op_t := JOB_SDO_READ | JOB_SDO_WRITE.
Record ecm_mbx_job_t := mkJob {
  op : job_op_t; slave : Z; index : Z; subindex : Z; complete_access : bool; timeout_us : Z;
  data : list Z; size : Z; wkc : Z; failed : bool; done : bool
}.
#[export] Instance eta_job : Eta ecm_mbx_job_t := fun j =>
  mkJob (op j) (slave j) (index j) (subindex j) (complete_access j) (timeout_us j) (data j) (size j) (wkc j) (failed j) (done j).

(** ** The queue of job addresses *)

Record ecm_mbx_queue_t := mkQ { slots : list Z; head : Z; tail : Z; count : Z }.
Definition queue_init : ecm_mbx_queue_t := mkQ (replicate 32 0) 0 0 0.
Definition queue_push (q : ecm_mbx_queue_t) (job : Z) : ecm_mbx_queue_t * Z :=
  if ECM_MBX_JOB_QUEUE_LEN <=? count q then (q, -1)
  else (mkQ (<[Z.to_nat (tail q) := job]> (slots q)) (head q) (Z.rem (tail q + 1) ECM_MBX_JOB_QUEUE_LEN) (count q + 1), 0).
(** What it does under the mutex after the wait of at most 200 ms; the stop flag
    only decides whether it waits. *)
Definition queue_pop (q : ecm_mbx_queue_t) : ecm_mbx_queue_t * option Z :=
  if 0 <? count q
  then (mkQ (slots q) (Z.rem (head q + 1) ECM_MBX_JOB_QUEUE_LEN) (tail q) (count q - 1), Some (slots q !!! Z.to_nat (head q)))
  else (q, None).

Record queue_wf (q : ecm_mbx_queue_t) : Prop := {
  qw_slots : length (slots q) = 32%nat;
  qw_count : 0 <= count q <= 32;
  qw_head : 0 <= head q < 32;
  qw_tail : tail q = (head q + count q) mod 32
}.
Definition queue_list (q : ecm_mbx_queue_t) : list Z :=
  (fun i => slots q !!! Z.to_nat ((head q + i) mod 32)) <$> seqZ 0 (count q).

Lemma queue_push_list q a q' : queue_wf q -> queue_push q a = (q', 0) -> queue_wf q' /\ queue_list q' = queue_list q ++ [a].
Proof.
  intros [Hs Hc Hh Ht]. unfold queue_push, ECM_MBX_JOB_QUEUE_LEN. destruct (Z.leb_spec 32 (count q)); [done|]. intros [= <-].
  rewrite Z.rem_mod_nonneg by (rewrite ?Ht; clia). split.
  - constructor; cbn; [by rewrite length_insert|lia|done|]. rewrite Ht. clia.
  - unfold queue_list. cbn. rewrite seqZ_app by lia. rewrite fmap_app. f_equal.
    + apply list_fmap_ext. intros i x Hx. apply lookup_seqZ in Hx as [-> Hi]. rewrite list_lookup_total_insert_ne; [done|]. rewrite Ht. clia.
    + rewrite Z.add_0_l, seqZ_cons, seqZ_nil by lia. cbn. f_equal. rewrite <- Ht, list_lookup_total_insert_eq; [done|]. rewrite Hs, Ht. clia.
Qed.
Lemma queue_pop_list q q' a : queue_wf q -> queue_pop q = (q', Some a) -> queue_wf q' /\ queue_list q = a :: queue_list q'.
Proof.
  intros [Hs Hc Hh Ht]. unfold queue_pop, ECM_MBX_JOB_QUEUE_LEN. destruct (Z.ltb_spec 0 (count q)); [|done]. intros [= <- <-].
  rewrite Z.rem_mod_nonneg by lia. split.
  - constructor; cbn; [done|lia|clia|]. rewrite Ht. clia.
  - unfold queue_list. cbn. rewrite (seqZ_cons 0) by lia. cbn. f_equal; [f_equal; rewrite Z.add_0_r, Z.mod_small by lia; done|].
    change (Z.succ 0) with 1. replace (Z.pred (count q)) with (count q - 1) by lia. rewrite <- (fmap_add_seqZ 1 0), <- list_fmap_compose.
    apply list_fmap_ext. intros i x Hx. apply lookup_seqZ in Hx as [-> Hi]. cbn. do 2 f_equal. clia.
Qed.

(** ** Jobs *)

Section mailbox.
Context {ctx : Type}.
Context (ecx_SDOread : ctx -> Z -> Z -> Z -> bool -> Z -> list Z -> Z -> ctx * Z * Z * list Z).
Context (ecx_SDOwrite : ctx -> Z -> Z -> Z -> bool -> Z -> list Z -> Z -> ctx * Z).

Definition execute_job (c : ctx) (job : ecm_mbx_job_t) : ctx * ecm_mbx_job_t :=
  let '(c, job) :=
    match op job with
    | JOB_SDO_READ =>
        let '(c, w, sz, d) := ecx_SDOread c (slave job) (index job) (subindex job) (complete_access job) (size job) (data job) (timeout_us job) in
        (c, job <| wkc := w |> <| data := d |> <| size := sz |>)
    | JOB_SDO_WRITE =>
        let '(c, w) := ecx_SDOwrite c (slave job) (index job) (subindex job) (complete_access job) (size job) (data job) (timeout_us job) in
        (c, job <| wkc := w |>)
    end in
  (c, job <| failed := wkc job <=? 0 |>).
Definition job_signal_done (job : ecm_mbx_job_t) : ecm_mbx_job_t := job <| done := true |>.

(** The request part of the two public calls: [inl] an error code, [inr] the
    job to submit; [None] for a [memcpy] that would read outside its source. *)
Definition read_job (slave index subindex : Z) (ca : bool) (inout_size timeout_us : Z) : Z + ecm_mbx_job_t :=
  if ECM_MBX_MAX_DATA <? inout_size then inl (-3)
  else inr (mkJob JOB_SDO_READ slave index subindex ca timeout_us (replicate 256 0) inout_size 0 false false).
Definition write_job (slave index subindex : Z) (ca : bool) (d : list Z) (size timeout_us : Z) : option (Z + ecm_mbx_job_t) :=
  if ECM_MBX_MAX_DATA <? size then Some (inl (-3))
  else if (size <? 0) || (Z.of_nat (length d) <? size) then None
  else Some (inr (mkJob JOB_SDO_WRITE slave index subindex ca timeout_us
              (take (Z.to_nat size) d ++ replicate (256 - Z.to_nat size) 0) size 0 false false)).
(** What the call returns once the job is done: 0 and the bytes read, or -4. *)
Definition job_result (job : ecm_mbx_job_t) : Z * list Z :=
  if failed job then (-4, [])
  else (0, match op job with JOB_SDO_READ => take (Z.to_nat (size job)) (data job) | JOB_SDO_WRITE => [] end).

(** ** Callers and worker

    A call is the steps of its caller: [M_submit] or [M_full] for the push,
    then [M_return] when [done] was seen or [M_timeout] when the wait gave up
    first.  The wait can also give up in the moment the worker signals, so
    [M_timeout] does not look at [done]. *)

(** Where the worker is in [ecm_mailbox_run]: at the test of the loop, in
    [queue_pop], before [execute_job], before [job_signal_done], or gone. *)
Inductive worker := WIdle | WPop | WExec (job : Z) | WSignal (job : Z) | WStopped.
(** [sub] is ghost: the job each live frame submitted; [acc] and [ran] are the
    addresses accepted and executed so far, in order. *)
Record sys := mkSys {
  q : ecm_mbx_queue_t; jobs : gmap Z ecm_mbx_job_t; w : worker; cx : ctx;
  sub : gmap Z ecm_mbx_job_t; acc : list Z; ran : list Z;
  stop : bool
}.
Definition sys0 (c : ctx) : sys := mkSys queue_init ∅ WIdle c ∅ [] [] false.

Inductive event := EStop | ELoop | ESubmit (a : Z) | EFull (a : Z) | EWork (a : Z) | EReturn (a : Z) (job : ecm_mbx_job_t) | ETimeout (a : Z) (job : ecm_mbx_job_t).

(** The return value (and bytes) of the call that an event ends. *)
Definition call_result (e : event) : option (Z * list Z) :=
  match e with
  | EFull _ => Some (-1, [])
  | ETimeout _ _ => Some (-2, [])
  | EReturn _ job => Some (job_result job)
  | _ => None
  end.

Inductive mstep : sys -> event -> sys -> Prop :=
  | M_submit s a j q' : jobs s !! a = None -> done j = false -> queue_push (q s) a = (q', 0) ->
      mstep s (ESubmit a) (mkSys q' (<[a := j]> (jobs s)) (w s) (cx s) (<[a := j]> (sub s)) (acc s ++ [a]) (ran s) (stop s))
  | M_full s a j : jobs s !! a = None -> done j = false -> queue_push (q s) a = (q s, -1) -> mstep s (EFull a) s
  | M_stop s : mstep s EStop (mkSys (q s) (jobs s) (w s) (cx s) (sub s) (acc s) (ran s) true)
  | M_test s : w s = WIdle ->
      mstep s ELoop (mkSys (q s) (jobs s) (if stop s then WStopped else WPop) (cx s) (sub s) (acc s) (ran s) (stop s))
  | M_poll s q' : w s = WPop -> queue_pop (q s) = (q', None) ->
      mstep s ELoop (mkSys q' (jobs s) WIdle (cx s) (sub s) (acc s) (ran s) (stop s))
  | M_pop s a q' : w s = WPop -> queue_pop (q s) = (q', Some a) ->
      mstep s (EWork a) (mkSys q' (jobs s) (WExec a) (cx s) (sub s) (acc s) (ran s) (stop s))
  | M_execute s a j j' c' : w s = WExec a -> jobs s !! a = Some j -> execute_job (cx s) j = (c', j') ->
      mstep s (EWork a) (mkSys (q s) (<[a := j']> (jobs s)) (WSignal a) c' (sub s) (acc s) (ran s ++ [a]) (stop s))
  | M_signal s a j : w s = WSignal a -> jobs s !! a = Some j ->
      mstep s (EWork a) (mkSys (q s) (<[a := job_signal_done j]> (jobs s)) WIdle (cx s) (sub s) (acc s) (ran s) (stop s))
  | M_return s a j : jobs s !! a = Some j -> done j = true ->
      mstep s (EReturn a j) (mkSys (q s) (delete a (jobs s)) (w s) (cx s) (delete a (sub s)) (acc s) (ran s) (stop s))
  | M_timeout s a j : jobs s !! a = Some j ->
      mstep s (ETimeout a j) (mkSys (q s) (delete a (jobs s)) (w s) (cx s) (delete a (sub s)) (acc s) (ran s) (stop s)).

Inductive run : sys -> list event -> sys -> Prop :=
  | run_nil s : run s [] s
  | run_snoc s es s1 e s2 : run s es s1 -> mstep s1 e s2 -> run s (es ++ [e]) s2.

(** The worker is about to use a frame that is gone. *)
Definition dangling (s : sys) : Prop :=
  exists a, (w s = WExec a \/ w s = WSignal a) /\ jobs s !! a = None.
(** A caller gave up although its job was not done. *)
Definition early_timeout (e : event) : bool := match e with ETimeout _ j => negb (done j) | _ => false end.

(** ** The invariant of runs without early time-outs *)

Definition held (x : worker) : list Z := match x with WExec a | WSignal a => [a] | _ => [] end.
Definition waiting (x : worker) : list Z := match x with WExec a => [a] | _ => [] end.
Definition pending (s : sys) : list Z := held (w s) ++ queue_list (q s).

(** [j] is the outcome of executing [j0]. *)
Definition outcome (j0 j : ecm_mbx_job_t) : Prop := exists c c', execute_job c j0 = (c', j).
(** Where a frame with job [j], submitted as [j0], is on its way. *)
Inductive stage (s : sys) (a : Z) (j0 j : ecm_mbx_job_t) : Prop :=
  | St_waiting : a ∈ waiting (w s) ++ queue_list (q s) -> j = j0 -> stage s a j0 j
  | St_executed : w s = WSignal a -> outcome j0 j -> stage s a j0 j
  | St_done j1 : a ∉ pending s -> outcome j0 j1 -> j = job_signal_done j1 -> stage s a j0 j.

Record inv (s : sys) : Prop := {
  i_q : queue_wf (q s);
  i_nodup : NoDup (pending s);
  i_live : forall a, a ∈ pending s -> is_Some (jobs s !! a);
  i_job : forall a j, jobs s !! a = Some j -> exists j0, sub s !! a = Some j0 /\ done j0 = false /\ stage s a j0 j;
  i_acc : acc s = ran s ++ waiting (w s) ++ queue_list (q s);
  i_stop : w s = WStopped -> stop s = true
}.

Lemma execute_done c j c' j' : execute_job c j = (c', j') -> done j' = done j.
Proof. unfold execute_job. destruct (op j); [destruct ecx_SDOread as [[[? ?] ?] ?]|destruct ecx_SDOwrite]; intros [= _ <-]; done. Qed.
Lemma stage_done s a j0 j : done j0 = false -> done j = true -> stage s a j0 j -> a ∉ pending s /\ exists j1, outcome j0 j1 /\ j = job_signal_done j1.
Proof.
  intros H0 Hj [? ->|_ (c & c' & E)|j1 ? ? ->]; [congruence|apply execute_done in E; congruence|eauto].
Qed.

Lemma inv_init c : inv (sys0 c).
Proof. constructor; cbn; [by constructor|constructor|set_solver|set_solver|done|done]. Qed.

(** A frame that nobody refers to may go. *)
Lemma inv_drop s a : inv s -> a ∉ pending s ->
  inv (mkSys (q s) (delete a (jobs s)) (w s) (cx s) (delete a (sub s)) (acc s) (ran s) (stop s)).
Proof.
  intros [Hq Hn Hl Hj Ha Hst] Hp. constructor; cbn; [done..| | |done|done].
  - intros b Hb. rewrite lookup_delete_ne by (intros ->; done). by apply Hl.
  - intros b j. rewrite lookup_delete_Some. intros [Hne Hb]. destruct (Hj _ _ Hb) as (j0 & Hs & Hd & St).
    exists j0. rewrite lookup_delete_ne by done. split_and!; [done..|]. destruct St; [eapply St_waiting|eapply St_executed|eapply St_done]; eauto.
Qed.
Lemma inv_submit s a j q' : inv s -> jobs s !! a = None -> done j = false -> queue_push (q s) a = (q', 0) ->
  inv (mkSys q' (<[a := j]> (jobs s)) (w s) (cx s) (<[a := j]> (sub s)) (acc s ++ [a]) (ran s) (stop s)).
Proof.
  intros [Hq Hn Hl Hj Ha Hst] Hf Hd Hpush. destruct (queue_push_list _ _ _ Hq Hpush) as [Hq' Hql].
  assert (Hnp : a ∉ pending s) by (intros Hp; destruct (Hl _ Hp); congruence).
  constructor; unfold pending; cbn; rewrite ?Hql; [done|..].
  - rewrite app_assoc. apply NoDup_app. split_and!; [done| |apply NoDup_singleton]. intros b Hb ->%list_elem_of_singleton. done.
  - intros b Hb. destruct (decide (b = a)) as [->|]; [rewrite lookup_insert_eq; eauto|]. rewrite lookup_insert_ne by done.
    apply Hl. unfold pending. set_solver.
  - intros b jb. destruct (decide (b = a)) as [->|Hne].
    + rewrite !lookup_insert_eq. intros [= <-]. exists j. split_and!; [done..|]. apply St_waiting; cbn; [rewrite Hql; set_solver|done].
    + rewrite !lookup_insert_ne by done. intros Hb. destruct (Hj _ _ Hb) as (j0 & Hs & Hd0 & St). exists j0. split_and!; [done..|].
      destruct St as [Hw ->|Hw Ho|j1 Hp Ho ->]; [apply St_waiting|apply St_executed|eapply St_done]; unfold pending in *; cbn; rewrite ?Hql; try done; set_solver.
  - by rewrite Ha, !app_assoc.
  - done.
Qed.
Lemma inv_pop s a q' : inv s -> w s = WPop -> queue_pop (q s) = (q', Some a) ->
  inv (mkSys q' (jobs s) (WExec a) (cx s) (sub s) (acc s) (ran s) (stop s)).
Proof.
  intros [Hq Hn Hl Hj Ha Hst] Hw Hpop. destruct (queue_pop_list _ _ _ Hq Hpop) as [Hq' Hql].
  unfold pending in *. rewrite Hw, Hql in *. cbn in *.
  constructor; unfold pending; cbn; [done..| |by rewrite Ha|done].
  intros b jb Hb. destruct (Hj _ _ Hb) as (j0 & Hs & Hd0 & St). exists j0. split_and!; [done..|].
  destruct St as [Hw' ->|Hw' Ho|j1 Hp Ho ->]; [apply St_waiting|congruence|eapply St_done]; unfold pending in *; rewrite ?Hw, ?Hql in *; cbn in *; done.
Qed.
Lemma inv_execute s a j c' j' : inv s -> w s = WExec a -> jobs s !! a = Some j -> execute_job (cx s) j = (c', j') ->
  inv (mkSys (q s) (<[a := j']> (jobs s)) (WSignal a) c' (sub s) (acc s) (ran s ++ [a]) (stop s)).
Proof.
  intros [Hq Hn Hl Hj Ha Hst] Hw Hf He. unfold pending in *. rewrite Hw in *. cbn in *.
  constructor; unfold pending; cbn; [done..| | |by rewrite Ha, <- app_assoc|done].
  - intros b Hb. apply lookup_insert_is_Some. destruct (decide (a = b)); [by left|right; auto].
  - intros b jb. destruct (decide (b = a)) as [->|Hne].
    + rewrite lookup_insert_eq. intros [= <-]. destruct (Hj _ _ Hf) as (j0 & Hs & Hd & St). exists j0. split_and!; [done..|].
      apply St_executed; [done|]. destruct St as [_ ->|Hw' _|j1 Hp _ _]; [by eexists _, _|congruence|].
      exfalso. unfold pending in Hp. rewrite Hw in Hp. cbn in Hp. set_solver.
    + rewrite lookup_insert_ne by done. intros Hb. destruct (Hj _ _ Hb) as (j0 & Hs & Hd0 & St). exists j0. split_and!; [done..|].
      destruct St as [Hw' ->|Hw' Ho|j1 Hp Ho ->]; [apply St_waiting|congruence|eapply St_done]; unfold pending in *; rewrite ?Hw in *; cbn in *; set_solver.
Qed.
Lemma inv_signal s a j : inv s -> w s = WSignal a -> jobs s !! a = Some j ->
  inv (mkSys (q s) (<[a := job_signal_done j]> (jobs s)) WIdle (cx s) (sub s) (acc s) (ran s) (stop s)).
Proof.
  intros [Hq Hn Hl Hj Ha Hst] Hw Hf. unfold pending in *. rewrite Hw in *. cbn in *. apply NoDup_cons in Hn as [Hna Hn].
  constructor; unfold pending; cbn; [done..| | |done|done].
  - intros b Hb. apply lookup_insert_is_Some. destruct (decide (a = b)); [by left|right; set_solver].
  - intros b jb. destruct (decide (b = a)) as [->|Hne].
    + rewrite lookup_insert_eq. intros [= <-]. destruct (Hj _ _ Hf) as (j0 & Hs & Hd & St). exists j0. split_and!; [done..|].
      destruct St as [Hw' ->|_ Ho|j1 Hp _ _]; [rewrite Hw in Hw'; set_solver|by eapply St_done|].
      exfalso. unfold pending in Hp. rewrite Hw in Hp. cbn in Hp. set_solver.
    + rewrite lookup_insert_ne by done. intros Hb. destruct (Hj _ _ Hb) as (j0 & Hs & Hd0 & St). exists j0. split_and!; [done..|].
      destruct St as [Hw' ->|Hw' Ho|j1 Hp Ho ->]; [apply St_waiting|congruence|eapply St_done]; unfold pending in *; rewrite ?Hw in *; cbn in *; set_solver.
Qed.

(** Moving an empty-handed worker, and setting the stop flag. *)
Lemma inv_move s x b : inv s -> held (w s) = [] -> held x = [] -> (x = WStopped -> b = true) ->
  inv (mkSys (q s) (jobs s) x (cx s) (sub s) (acc s) (ran s) b).
Proof.
  intros [Hq Hn Hl Hj Ha Hst] Hw Hx Hb. assert (waiting x = [] /\ waiting (w s) = []) as [Hx' Hw'].
  { by destruct x, (w s). }
  unfold pending in *. rewrite Hw, ?Hw' in *. constructor; unfold pending; cbn; rewrite ?Hx, ?Hx'; [done..| | |done]; [|done].
  intros a j Hf. destruct (Hj _ _ Hf) as (j0 & Hs & Hd & St). exists j0. split_and!; [done..|].
  destruct St as [Hp ->|Hp Ho|j1 Hp Ho ->]; [apply St_waiting|rewrite Hp in Hw; done|eapply St_done]; unfold pending in *; cbn in *;
    rewrite ?Hx, ?Hx', ?Hw, ?Hw' in *; done.
Qed.
Lemma inv_stop s : inv s -> inv (mkSys (q s) (jobs s) (w s) (cx s) (sub s) (acc s) (ran s) true).
Proof.
  intros [Hq Hn Hl Hj Ha Hst]. constructor; try done. intros a j Hf. destruct (Hj _ _ Hf) as (j0 & Hs & Hd & St).
  exists j0. split_and!; [done..|]. destruct St; [eapply St_waiting|eapply St_executed|eapply St_done]; eauto.
Qed.
Lemma queue_pop_none q q' : queue_pop q = (q', None) -> q' = q /\ count q <= 0.
Proof. unfold queue_pop. destruct (Z.ltb_spec 0 (count q)); [done|]. by intros [= <-]. Qed.

Lemma inv_step s e s' : inv s -> mstep s e s' -> early_timeout e = false -> inv s'.
Proof.
  intros Hi Hs He. destruct Hs; eauto using inv_submit, inv_pop, inv_execute, inv_signal, inv_stop.
  - apply inv_move; rewrite ?H; [done|done|by destruct (stop s)|by destruct (stop s)].
  - apply queue_pop_none in H0 as [-> _]. apply inv_move; rewrite ?H; done.
  - destruct (i_job _ Hi _ _ H) as (j0 & _ & Hd & St). apply inv_drop; [done|]. by eapply stage_done.
  - destruct (i_job _ Hi _ _ H) as (j0 & _ & Hd & St). apply inv_drop; [done|].
    eapply stage_done; [done| |done]. cbn in He. by destruct (done j).
Qed.
Lemma inv_run c es s : run (sys0 c) es s -> forallb (fun e => negb (early_timeout e)) es = true -> inv s.
Proof.
  remember (sys0 c) as s0 eqn:E0. induction 1 as [|s0 es s1 e s2 Hr IH Hs]; intros Hf; subst; [apply inv_init|].
  rewrite forallb_app in Hf. apply andb_prop in Hf as [Hf He]. cbn in He. rewrite andb_true_r in He. apply negb_true_iff in He.
  eapply inv_step; eauto.
Qed.

(** ** Progress of the worker *)

Definition worker_event (e : event) : bool := match e with ELoop | EWork _ => true | _ => false end.
Definition wstep (s s' : sys) : Prop := exists e, worker_event e = true /\ mstep s e s'.
(** The worker is past its last look at the stop flag, or will find it clear. *)
Definition may_work (s : sys) : bool := match w s with WIdle => negb (stop s) | WStopped => false | _ => true end.
Definition is_done (s : sys) (a : Z) : Prop := exists j, jobs s !! a = Some j /\ done j = true.
(** Steps until the job at hand, or the next one, is signalled. *)
Definition steps_left (x : worker) : nat := match x with WIdle => 4 | WPop => 3 | WExec _ => 2 | WSignal _ => 1 | WStopped => 0 end.

Lemma work_step s a l : inv s -> pending s = a :: l -> may_work s = true ->
  exists s', wstep s s' /\ inv s' /\ stop s' = stop s /\
    (is_done s' a /\ pending s' = l \/ pending s' = a :: l /\ may_work s' = true /\ (steps_left (w s') < steps_left (w s))%nat).
Proof.
  intros Hi Hp Hm. assert (Hl : is_Some (jobs s !! a)) by (apply (i_live _ Hi); rewrite Hp; set_solver).
  assert (Hgo : forall e s', worker_event e = true -> mstep s e s' -> wstep s s' /\ inv s').
  { intros e s' He Hs. split; [by exists e|]. eapply inv_step; [done..|]. by destruct e. }
  unfold pending, may_work in *. destruct (w s) as [| |b|b|] eqn:Hw; cbn in Hp; [| | | |done].
  - apply negb_true_iff in Hm. destruct (Hgo ELoop _ eq_refl (M_test s Hw)) as [H1 H2]. rewrite Hm in *.
    eexists. split_and!; [exact H1|exact H2|done|]. right. cbn. split_and!; [done..|lia].
  - destruct (queue_pop (q s)) as [q' [b|]] eqn:E.
    + destruct (Hgo (EWork b) _ eq_refl (M_pop s b q' Hw E)) as [H1 H2]. destruct (queue_pop_list _ _ _ (i_q _ Hi) E) as [_ El].
      eexists. split_and!; [exact H1|exact H2|done|]. right. cbn. rewrite <- El. split_and!; [done..|lia].
    + apply queue_pop_none in E as [_ Hc]. exfalso. unfold queue_list in Hp. by rewrite seqZ_nil in Hp by lia.
  - injection Hp as -> Hp. destruct Hl as [j Hj]. destruct (execute_job (cx s) j) as [c' j'] eqn:E.
    destruct (Hgo (EWork a) _ eq_refl (M_execute s a j j' c' Hw Hj E)) as [H1 H2].
    eexists. split_and!; [exact H1|exact H2|done|]. right. cbn. rewrite Hp. split_and!; [done..|lia].
  - injection Hp as -> Hp. destruct Hl as [j Hj].
    destruct (Hgo (EWork a) _ eq_refl (M_signal s a j Hw Hj)) as [H1 H2].
    eexists. split_and!; [exact H1|exact H2|done|]. left. cbn. split; [|done].
    exists (job_signal_done j). cbn. by rewrite lookup_insert_eq.
Qed.
Lemma work_served m s a l : (steps_left (w s) <= m)%nat -> inv s -> pending s = a :: l -> may_work s = true ->
  exists k s', (k <= m)%nat /\ nsteps wstep k s s' /\ is_done s' a /\ pending s' = l.
Proof.
  revert s. induction m as [|m IH]; intros s Hm Hi Hp Hw; destruct (work_step s a l Hi Hp Hw) as (s1 & Hs & Hi1 & _ & [[Hd Hl]|(Hl & Hw1 & Hr)]).
  1: { exfalso. unfold may_work in Hw. destruct (w s); cbn in *; done || lia. }
  1: lia.
  - exists 1%nat, s1. split_and!; [lia|by apply nsteps_once|done..].
  - destruct (IH s1) as (k & s' & Hk & Hn & H); [lia|done..|]. exists (S k), s'. split_and!; [lia|by eapply nsteps_l|apply H..].
Qed.
(** Once the flag is set, a worker at the test of its loop starts nothing more. *)
Lemma stopped_run s es s' : run s es s' -> may_work s = false -> stop s = true -> ran s' = ran s /\ may_work s' = false /\ stop s' = true.
Proof.
  induction 1 as [|s0 es s1 e s2 Hr IH Hs]; intros Hm Hst; [done|]. destruct (IH Hm Hst) as (E & Hm1 & Hs1). rewrite <- E.
  unfold may_work in *. destruct Hs; cbn; rewrite ?Hs1; try rewrite H in Hm1; try done.
  all: destruct (w s); done.
Qed.

(** C40: In every interleaving of callers, worker and whoever sets the stop
    flag, in which no caller gives up on a job that is not done: the worker never
    touches a stack frame that is gone; jobs run in the order their pushes
    succeeded, each once; a call that returns gives the outcome of executing
    exactly the job it submitted; as long as the stop flag has not reached the
    worker, the oldest pending job is done after at most four steps of the
    worker; and once the worker finds the flag set (or is about to) it runs no
    job any more, whatever the callers do, giving up included. *)
Theorem mailbox_calls_safe c es s :
  run (sys0 c) es s -> forallb (fun e => negb (early_timeout e)) es = true ->
  ~ dangling s
  /\ acc s = ran s ++ waiting (w s) ++ queue_list (q s)
  /\ (forall a j s', mstep s (EReturn a j) s' ->
        exists j0 c0 c1 j1, sub s !! a = Some j0 /\ execute_job c0 j0 = (c1, j1) /\ call_result (EReturn a j) = Some (job_result j1))
  /\ (forall a l, pending s = a :: l -> may_work s = true ->
        exists k s', (k <= 4)%nat /\ nsteps wstep k s s' /\ is_done s' a /\ pending s' = l)
  /\ (may_work s = false -> stop s = true /\ forall es' s', run s es' s' -> ran s' = ran s).
Proof.
  intros Hr Hf. pose proof (inv_run _ _ _ Hr Hf) as Hi. split_and!.
  - intros (a & Hw & Hn). destruct (i_live _ Hi a) as [j Hj]; [|congruence]. unfold pending. destruct Hw as [-> | ->]; set_solver.
  - apply i_acc, Hi.
  - intros a j s' Hs. inversion Hs as [| | | | | | | |? ? ? Hj Hd|]; subst. destruct (i_job _ Hi _ _ Hj) as (j0 & H0 & Hd0 & St).
    destruct (stage_done _ _ _ _ Hd0 Hd St) as (_ & j1 & (c0 & c1 & E) & ->). by exists j0, c0, c1, j1.
  - intros a l Hp Hm. apply work_served; try done. destruct (w s); cbn; lia.
  - intros Hm. assert (Hst : stop s = true).
    { unfold may_work in Hm. destruct (w s) eqn:Hw; try done; [by destruct (stop s)|by apply (i_stop _ Hi)]. }
    split; [done|]. intros es' s' Hr'. by apply (stopped_run s es').
Qed.

(** A time-out leaves a dangling job: [submit_and_wait] returns -2 and the
    frame of its caller ends, but the queue still holds the address of the job
    in that frame, and the worker later executes it. *)
Theorem mailbox_timeout_dangling c : exists es s, run (sys0 c) es s /\ dangling s.
Proof.
  set (j := mkJob JOB_SDO_READ 1 24641 0 false 1000 (replicate 256 0) 2 0 false false).
  eexists (((([] ++ [ESubmit 1]) ++ [ETimeout 1 j]) ++ [ELoop]) ++ [EWork 1]), _. split.
  - eapply run_snoc; [eapply run_snoc; [eapply run_snoc; [eapply run_snoc; [apply run_nil|]|]|]|].
    + apply (M_submit _ _ j); reflexivity.
    + apply M_timeout. reflexivity.
    + apply M_test. reflexivity.
    + apply M_pop; reflexivity.
  - exists 1. split; [by left|reflexivity].
Qed.
End mailbox.

(** A read of two bytes of object 0x6041 through a bus that answers 0x37 0x02. *)
Definition demo_read (_ : unit) (_ _ _ : Z) (_ : bool) (_ : Z) (d : list Z) (_ : Z) : unit * Z * Z * list Z :=
  (tt, 1, 2, [55; 2] ++ drop 2 d).
Definition demo_write (_ : unit) (_ _ _ : Z) (_ : bool) (_ : Z) (_ : list Z) (_ : Z) : unit * Z := (tt, 1).
Definition demo_job : ecm_mbx_job_t :=
  match read_job 1 24641 0 false 2 1000 with inr j => j | inl _ => mkJob JOB_SDO_READ 0 0 0 false 0 [] 0 0 true true end.
Lemma demo_run : exists s, run demo_read demo_write (sys0 tt) [ESubmit 1; ELoop; EWork 1; EWork 1; EWork 1] s
  /\ exists j s', mstep demo_read demo_write s (EReturn 1 j) s' /\ job_result j = (0, [55; 2]).
Proof.
  eexists. split.
  - change [ESubmit 1; ELoop; EWork 1; EWork 1; EWork 1] with ((((([] ++ [ESubmit 1]) ++ [ELoop]) ++ [EWork 1]) ++ [EWork 1]) ++ [EWork 1]).
    eapply run_snoc; [eapply run_snoc; [eapply run_snoc; [eapply run_snoc; [eapply run_snoc; [apply run_nil|]|]|]|]|].
    + apply (M_submit _ _ _ _ demo_job); reflexivity.
    + apply M_test; reflexivity.
    + apply M_pop; reflexivity.
    + eapply M_execute; reflexivity.
    + eapply M_signal; reflexivity.
  - eexists _, _. split; [apply M_return; reflexivity|reflexivity].
Qed.
Lemma mailbox_calls_safe_witness : exists s, run demo_read demo_write (sys0 tt) [ESubmit 1; ELoop; EWork 1; EWork 1; EWork 1] s /\ ~ dangling s.
Proof.
  destruct demo_run as (s & Hr & _). exists s. split; [exact Hr|].
  exact (proj1 (mailbox_calls_safe demo_read demo_write tt _ s Hr eq_refl)).
Defined.
