(* ===== verification/EscMem.v ===== *)
(** * Byte memory of the virtual slaves

    The register space of an ESC, a mailbox buffer and a frame are byte arrays.
    A byte array is a list of [Z]; [rd] and [wr] access one byte, [memcpy] and
    [memset] a range, [slice] reads a range.  The lemmas are the read-over-write
    laws the components of the soft bus share; [mem_simp] applies them where the
    addresses decide. *)
From Stdlib Require Import ZArith Lia Bool.
From S2P Require Import Prelude.
From stdpp Require Import base list numbers.
Open Scope Z_scope.

Definition rd (m : list Z) (a : Z) : Z := default 0 (m !! Z.to_nat a).
Definition wr (m : list Z) (a v : Z) : list Z := <[Z.to_nat a := v]> m.
Definition memcpy (m : list Z) (a : Z) (d : list Z) : list Z := list_inserts (Z.to_nat a) d m.
Definition memset (m : list Z) (a v n : Z) : list Z := memcpy m a (replicate (Z.to_nat n) v).
Definition slice (m : list Z) (a n : Z) : list Z := take (Z.to_nat n) (drop (Z.to_nat a) m).
Definition len (m : list Z) : Z := Z.of_nat (length m).

(** Little-endian helpers (esc_core.c, esc_coe.c and esc_dc.c each have their own copy). *)
Definition rd_le16 (m : list Z) (a : Z) : Z := Z.lor (rd m a) (Z.shiftl (rd m (a + 1)) 8).
Definition wr_le16 (m : list Z) (a v : Z) : list Z :=
  wr (wr m a (Z.land v 255)) (a + 1) (Z.land (Z.shiftr v 8) 255).
Definition rd_le32 (m : list Z) (a : Z) : Z :=
  Z.lor (Z.lor (Z.lor (rd m a) (Z.shiftl (rd m (a + 1)) 8)) (Z.shiftl (rd m (a + 2)) 16)) (Z.shiftl (rd m (a + 3)) 24).
Definition wr_le32 (m : list Z) (a v : Z) : list Z :=
  wr (wr (wr (wr m a (Z.land v 255)) (a + 1) (Z.land (Z.shiftr v 8) 255)) (a + 2) (Z.land (Z.shiftr v 16) 255))
    (a + 3) (Z.land (Z.shiftr v 24) 255).
Definition rd_le64 (m : list Z) (a : Z) : Z := Z.lor (rd_le32 m a) (Z.shiftl (rd_le32 m (a + 4)) 32).
Definition wr_le64 (m : list Z) (a v : Z) : list Z := wr_le32 (wr_le32 m a v) (a + 4) (Z.shiftr v 32).

Definition bytes (m : list Z) : Prop := Forall is_u8 m.

(** ** Lengths *)

Lemma len_nonneg m : 0 <= len m.
Proof. unfold len. lia. Qed.
Lemma len_wr m a v : len (wr m a v) = len m.
Proof. unfold len, wr. by rewrite length_insert. Qed.
Lemma len_memcpy m a d : len (memcpy m a d) = len m.
Proof. unfold len, memcpy. by rewrite length_inserts. Qed.
Lemma len_memset m a v n : len (memset m a v n) = len m.
Proof. apply len_memcpy. Qed.
Lemma len_wr_le16 m a v : len (wr_le16 m a v) = len m.
Proof. unfold wr_le16. by rewrite !len_wr. Qed.
Lemma len_wr_le32 m a v : len (wr_le32 m a v) = len m.
Proof. unfold wr_le32. by rewrite !len_wr. Qed.
Lemma len_wr_le64 m a v : len (wr_le64 m a v) = len m.
Proof. unfold wr_le64. by rewrite !len_wr_le32. Qed.
Lemma len_slice m a n : 0 <= a -> 0 <= n -> a + n <= len m -> len (slice m a n) = n.
Proof. unfold len, slice. intros. rewrite length_take, length_drop. lia. Qed.
Lemma len_replicate n (v : Z) : len (replicate n v) = Z.of_nat n.
Proof. unfold len. by rewrite length_replicate. Qed.
Lemma len_app a b : len (a ++ b) = len a + len b.
Proof. unfold len. rewrite length_app. lia. Qed.

(** ** Read over write *)

Lemma rd_wr_ne m a b v : 0 <= a -> 0 <= b -> a <> b -> rd (wr m a v) b = rd m b.
Proof. unfold rd, wr. intros. rewrite list_lookup_insert_ne; [done|lia]. Qed.
Lemma rd_wr_eq m a v : 0 <= a < len m -> rd (wr m a v) a = v.
Proof. unfold rd, wr, len. intros. rewrite list_lookup_insert_eq; [done|lia]. Qed.
Lemma rd_memcpy_out m a d b : 0 <= a -> 0 <= b -> b < a \/ a + len d <= b -> rd (memcpy m a d) b = rd m b.
Proof.
  unfold rd, memcpy, len. intros Ha Hb [H|H].
  - rewrite list_lookup_inserts_lt; [done|lia].
  - rewrite list_lookup_inserts_ge; [done|lia].
Qed.
Lemma rd_memcpy_in m a d b : 0 <= a <= b -> b < a + len d -> b < len m -> rd (memcpy m a d) b = rd d (b - a).
Proof.
  unfold rd, memcpy, len. intros. rewrite list_lookup_inserts by lia. do 2 f_equal. lia.
Qed.
Lemma rd_replicate n (v : Z) i : 0 <= i < Z.of_nat n -> rd (replicate n v) i = v.
Proof. unfold rd. intros. rewrite lookup_replicate_2; [done|lia]. Qed.
Lemma rd_slice m a n i : 0 <= a -> 0 <= i < n -> rd (slice m a n) i = rd m (a + i).
Proof.
  unfold rd, slice. intros. rewrite lookup_take_lt by lia. rewrite lookup_drop. do 2 f_equal. lia.
Qed.
Lemma rd_app_l a b i : 0 <= i < len a -> rd (a ++ b) i = rd a i.
Proof. unfold rd, len. intros. rewrite lookup_app_l; [done|lia]. Qed.
Lemma rd_app_r a b i : len a <= i -> rd (a ++ b) i = rd b (i - len a).
Proof. unfold rd, len. intros. rewrite lookup_app_r by lia. do 2 f_equal. lia. Qed.
Lemma rd_beyond m a : len m <= a -> rd m a = 0.
Proof. unfold rd, len. intros. rewrite lookup_ge_None_2; [done|lia]. Qed.

(** Two arrays with the same bytes are equal. *)
Lemma rd_ext m m' : len m = len m' -> (forall i, 0 <= i < len m -> rd m i = rd m' i) -> m = m'.
Proof.
  unfold len, rd. intros Hl H. apply list_eq_same_length with (length m'); [done|lia|].
  intros i x y Hi Hx Hy. specialize (H (Z.of_nat i) ltac:(lia)). rewrite Nat2Z.id, Hx, Hy in H. done.
Qed.

(** ** Bytes stay bytes *)

Lemma bytes_rd m a : bytes m -> is_u8 (rd m a).
Proof.
  unfold bytes, rd. intros H. destruct (m !! Z.to_nat a) eqn:E; cbn; [by eapply Forall_lookup_1|clia].
Qed.
Lemma bytes_wr m a v : bytes m -> is_u8 v -> bytes (wr m a v).
Proof. intros. by apply Forall_insert. Qed.
Lemma bytes_memcpy m a d : bytes m -> bytes d -> bytes (memcpy m a d).
Proof.
  unfold bytes, memcpy. intros Hm Hd. revert m Hm. generalize (Z.to_nat a). induction Hd as [|x d Hx Hd IH]; intros n m Hm; cbn; [done|].
  apply Forall_insert; [|done]. by apply IH.
Qed.
Lemma bytes_replicate n v : is_u8 v -> bytes (replicate n v).
Proof. intros. by apply Forall_replicate. Qed.
Lemma bytes_memset m a v n : bytes m -> is_u8 v -> bytes (memset m a v n).
Proof. intros. apply bytes_memcpy; [done|]. by apply bytes_replicate. Qed.
Lemma bytes_slice m a n : bytes m -> bytes (slice m a n).
Proof. intros. unfold slice, bytes. by apply Forall_take, Forall_drop. Qed.
Lemma bytes_nil : bytes [].
Proof. apply List.Forall_nil. Qed.
Lemma bytes_app a b : bytes a -> bytes b -> bytes (a ++ b).
Proof. apply Forall_app_2. Qed.
Lemma land_255 z : Z.land z 255 = u8 z.
Proof. change 255 with (Z.ones 8). by rewrite Z.land_ones by lia. Qed.
Lemma is_u8_land z : is_u8 (Z.land z 255).
Proof. rewrite land_255. apply u8_range. Qed.
Lemma bytes_wr_le16 m a v : bytes m -> bytes (wr_le16 m a v).
Proof. intros. unfold wr_le16. auto using bytes_wr, is_u8_land. Qed.
Lemma bytes_wr_le32 m a v : bytes m -> bytes (wr_le32 m a v).
Proof. intros. unfold wr_le32. auto 10 using bytes_wr, is_u8_land. Qed.
Lemma bytes_wr_le64 m a v : bytes m -> bytes (wr_le64 m a v).
Proof. intros. unfold wr_le64. auto using bytes_wr_le32. Qed.
#[export] Hint Resolve bytes_nil bytes_wr bytes_memcpy bytes_memset bytes_replicate bytes_slice bytes_app bytes_wr_le16 bytes_wr_le32
  bytes_wr_le64 bytes_rd is_u8_land : ecm.
#[export] Hint Extern 3 (is_u8 _) => (unfold is_u8; lia) : ecm.
Hint Rewrite len_wr len_memcpy len_memset len_wr_le16 len_wr_le32 len_wr_le64 : memlen.

(** ** Words *)

Lemma lor_shift_add a b k : 0 <= k -> 0 <= a < 2 ^ k -> Z.lor a (Z.shiftl b k) = a + b * 2 ^ k.
Proof.
  intros Hk Ha. rewrite Z.shiftl_mul_pow2 by lia. pose proof (Z.add_lor_land a (b * 2 ^ k)) as E.
  assert (L : Z.land a (b * 2 ^ k) = 0); [|lia].
  apply Z.bits_inj'. intros i Hi. rewrite Z.land_spec, Z.bits_0. destruct (Z.ltb_spec i k).
  - rewrite Z.mul_pow2_bits_low by lia. apply andb_false_r.
  - rewrite <- (Z.mod_small a (2 ^ k)) by lia. by rewrite Z.mod_pow2_bits_high by lia.
Qed.
Lemma rd_le16_add m a : bytes m -> rd_le16 m a = rd m a + rd m (a + 1) * 256.
Proof. intros. unfold rd_le16. pose proof (bytes_rd m a H). rewrite lor_shift_add by (unfold_c; lia). lia. Qed.
Lemma rd_le32_add m a : bytes m ->
  rd_le32 m a = rd m a + rd m (a + 1) * 256 + rd m (a + 2) * 65536 + rd m (a + 3) * 16777216.
Proof.
  intros H. unfold rd_le32. pose proof (bytes_rd m a H). pose proof (bytes_rd m (a + 1) H). pose proof (bytes_rd m (a + 2) H).
  unfold_c. rewrite (lor_shift_add (rd m a)) by lia. rewrite (lor_shift_add (_ + _)) by lia. rewrite lor_shift_add by lia. lia.
Qed.
Lemma rd_le16_range m a : bytes m -> is_u16 (rd_le16 m a).
Proof. intros H. rewrite rd_le16_add by done. pose proof (bytes_rd m a H). pose proof (bytes_rd m (a + 1) H). unfold_c. lia. Qed.
Lemma rd_le32_range m a : bytes m -> is_u32 (rd_le32 m a).
Proof.
  intros H. rewrite rd_le32_add by done. pose proof (bytes_rd m a H). pose proof (bytes_rd m (a + 1) H).
  pose proof (bytes_rd m (a + 2) H). pose proof (bytes_rd m (a + 3) H). unfold_c. lia.
Qed.
#[export] Hint Resolve rd_le16_range rd_le32_range : ecm.

Lemma rd_wr_le16_ne m a v b : 0 <= a -> 0 <= b -> b < a \/ a + 2 <= b -> rd (wr_le16 m a v) b = rd m b.
Proof. intros. unfold wr_le16. rewrite !rd_wr_ne by lia. done. Qed.
Lemma rd_wr_le32_ne m a v b : 0 <= a -> 0 <= b -> b < a \/ a + 4 <= b -> rd (wr_le32 m a v) b = rd m b.
Proof. intros. unfold wr_le32. rewrite !rd_wr_ne by lia. done. Qed.
Lemma rd_wr_le64_ne m a v b : 0 <= a -> 0 <= b -> b < a \/ a + 8 <= b -> rd (wr_le64 m a v) b = rd m b.
Proof. intros. unfold wr_le64. rewrite !rd_wr_le32_ne by lia. done. Qed.
Lemma rd_wr_le16_lo m a v : 0 <= a < len m -> rd (wr_le16 m a v) a = u8 v.
Proof. intros. unfold wr_le16. rewrite rd_wr_ne by lia. rewrite rd_wr_eq by done. apply land_255. Qed.
Lemma rd_wr_le16_hi m a v : 0 <= a -> a + 1 < len m -> rd (wr_le16 m a v) (a + 1) = u8 (v / 256).
Proof. intros. unfold wr_le16. rewrite rd_wr_eq by (rewrite len_wr; lia). rewrite land_255. by rewrite Z.shiftr_div_pow2 by lia. Qed.

(** A word that was written is read back. *)
Lemma rd_le16_wr_le16 m a v : bytes m -> 0 <= a -> a + 1 < len m -> rd_le16 (wr_le16 m a v) a = u16 v.
Proof.
  intros. rewrite rd_le16_add by (by apply bytes_wr_le16). rewrite rd_wr_le16_lo, rd_wr_le16_hi by lia. clia.
Qed.
Lemma rd_le16_ext m m' a : rd m a = rd m' a -> rd m (a + 1) = rd m' (a + 1) -> rd_le16 m a = rd_le16 m' a.
Proof. unfold rd_le16. by intros -> ->. Qed.
Lemma rd_le32_ext m m' a : (forall i, a <= i < a + 4 -> rd m i = rd m' i) -> rd_le32 m a = rd_le32 m' a.
Proof. unfold rd_le32. intros H. rewrite !H by lia. done. Qed.

(** Decide reads over writes whose addresses are known. *)
Ltac mem_len := autorewrite with memlen in *; lia.
Ltac mem_simp :=
  repeat first
    [ rewrite rd_wr_ne by lia | rewrite rd_wr_eq by mem_len
    | rewrite rd_wr_le16_ne by lia | rewrite rd_wr_le32_ne by lia | rewrite rd_wr_le64_ne by lia
    | rewrite rd_memcpy_out by (rewrite ?len_replicate; lia) ].
