(* ===== verification/EscTypes.v ===== *)
(** * The virtual slave: register map and state (tools/soft_bus/esc_types.h)

    A soft bus node is one [esc_t]: 8 KB of registers and DPRAM at the offsets of
    the datasheet, caches of the addresses, the generated EEPROM image and the
    states of its parts (CoE dictionary and transfer, distributed clock, fault
    injection, watchdog, profile).  Register addresses and codes are notations
    for the numbers of esc_types.h and esc_sii.h.  Flags that the source keeps
    in a [uint8_t] and only sets to 0 or 1 are [bool].  The virtual drive of
    esc_cia402.c and the fields that exist for log lines are left out. *)
From Stdlib Require Import ZArith Lia Bool.
From S2P Require Import Prelude EscMem.
From stdpp Require Import base list numbers.
Open Scope Z_scope.

Notation ESC_REG_SPACE_SIZE := 8192 (only parsing).
Notation ESC_SII_IMAGE_MAX_WORDS := 1024 (only parsing).
Notation COE_SEGTEST_BLOB_SIZE := 200 (only parsing).
Notation COE_OCTET_RW_MAX := 400 (only parsing).
Notation COE_XFER_BUF_MAX := 512 (only parsing).

Notation REG_TYPE := 0 (only parsing).
Notation REG_REVISION := 1 (only parsing).
Notation REG_FMMU_SUPPORTED := 4 (only parsing).
Notation REG_SM_SUPPORTED := 5 (only parsing).
Notation REG_RAM_SIZE := 6 (only parsing).
Notation REG_PORT_DESCRIPTOR := 7 (only parsing).
Notation REG_ESC_FEATURES := 8 (only parsing).
Notation REG_STATION_ADDR := 16 (only parsing).
Notation REG_STATION_ALIAS := 18 (only parsing).
Notation REG_DL_CONTROL_ALIAS_BYTE := 259 (only parsing).
Notation REG_DL_STATUS := 272 (only parsing).
Notation REG_AL_CONTROL := 288 (only parsing).
Notation REG_AL_STATUS := 304 (only parsing).
Notation REG_AL_STATUS_CODE := 308 (only parsing).
Notation REG_ERR_ECAT_PU := 780 (only parsing).
Notation REG_ERR_PDI := 781 (only parsing).
Notation REG_WD_DIVIDER := 1024 (only parsing).
Notation REG_WD_TIME_PDI0 := 1040 (only parsing).
Notation REG_WD_TIME_PROCDATA := 1056 (only parsing).
Notation REG_WD_STATUS_PD := 1088 (only parsing).
Notation REG_WD_COUNTER_PD := 1090 (only parsing).
Notation WD_DIVIDER_RESET := 2498 (only parsing).
Notation WD_TIME_RESET := 1000 (only parsing).
Notation REG_SII_CONTROL_STATUS := 1282 (only parsing).
Notation REG_SII_ADDRESS := 1284 (only parsing).
Notation REG_SII_DATA := 1288 (only parsing).
Notation REG_FMMU_BASE := 1536 (only parsing).
Notation REG_FMMU_ENTRY_SIZE := 16 (only parsing).
Notation REG_FMMU_COUNT := 3 (only parsing).
Notation REG_SM_BASE := 2048 (only parsing).
Notation REG_SM_ENTRY_SIZE := 8 (only parsing).
Notation REG_SM_COUNT := 4 (only parsing).
Notation REG_SM1_STATUS := 2061 (only parsing).
Notation SM_OFF_LENGTH := 2 (only parsing).
Notation SM_OFF_CONTROL := 4 (only parsing).
Notation SM_OFF_STATUS := 5 (only parsing).
Notation SM_OFF_ACTIVATE := 6 (only parsing).
Notation SM_OFF_PDI_CONTROL := 7 (only parsing).
Notation SM_STATUS_MAILBOX_FULL := 8 (only parsing).

Notation ESM_INIT := 1 (only parsing).
Notation ESM_PREOP := 2 (only parsing).
Notation ESM_SAFEOP := 4 (only parsing).
Notation ESM_OP := 8 (only parsing).
Notation ALSTATUSCODE_NOERROR := 0 (only parsing).
Notation ALSTATUSCODE_INVALIDALCONTROL := 17 (only parsing).
Notation ALSTATUSCODE_UNKNOWNALCONTROL := 18 (only parsing).
Notation ALSTATUSCODE_NOVALIDOUTPUTS := 25 (only parsing).
Notation ALSTATUSCODE_SYNCMANWATCHDOG := 27 (only parsing).

Notation SII_SM0_OFFSET := 4096 (only parsing).
Notation SII_SM0_SIZE := 128 (only parsing).
Notation SII_SM1_OFFSET := 4224 (only parsing).
Notation SII_SM1_SIZE := 128 (only parsing).
Notation SII_SM2_OFFSET := 4352 (only parsing).
Notation SII_PDO_ENTRY_MAX_BYTES := 31 (only parsing).

(** ** CoE dictionary and transfer *)

Record coe_od_t := mkOd {
  kp : Z; ki : Z; kd : Z; segtest_blob : list Z; octet_rw : list Z; octet_rw_len : Z;
  pdo_assign_n : list Z; pdo_assign_idx : list Z; resp_cnt : Z
}.
#[export] Instance eta_od : Eta coe_od_t := fun r =>
  mkOd (kp r) (ki r) (kd r) (segtest_blob r) (octet_rw r) (octet_rw_len r) (pdo_assign_n r) (pdo_assign_idx r) (resp_cnt r).

Record coe_session_t := mkSess {
  s_active : bool; is_upload : bool; s_index : Z; s_subindex : Z; total_size : Z; s_done : Z; expected_toggle : Z;
  is_ca : bool; xfer : list Z
}.
#[export] Instance eta_sess : Eta coe_session_t := fun r =>
  mkSess (s_active r) (is_upload r) (s_index r) (s_subindex r) (total_size r) (s_done r) (expected_toggle r) (is_ca r) (xfer r).
Definition coe_session_zero : coe_session_t := mkSess false false 0 0 0 0 0 false (replicate 512 0).

(** ** Fault injection and watchdog *)

Record esc_node_fault_t := mkFault {
  powered_off : bool; wkc_short_left : Z; stale_left : Z; skip_logical : bool; stale_frame : bool; sm1_consumed : bool;
  mbx_lose_armed : bool; mbx_dup_armed : bool; mbx_dup_pending : bool; app_seq : Z; mbx_repeats_served : Z;
  coe_delay_ms : Z; op_delay_ms : Z; emcy_left : Z; emcy_code : Z; emcy_reg : Z; emcy_seq : Z; emcy_posted : Z;
  mbx_held : bool; mbx_release_ns : Z; reject_al_code : Z; reject_al_state : Z; reject_al_sticky : bool
}.
#[export] Instance eta_fault : Eta esc_node_fault_t := fun r =>
  mkFault (powered_off r) (wkc_short_left r) (stale_left r) (skip_logical r) (stale_frame r) (sm1_consumed r)
    (mbx_lose_armed r) (mbx_dup_armed r) (mbx_dup_pending r) (app_seq r) (mbx_repeats_served r)
    (coe_delay_ms r) (op_delay_ms r) (emcy_left r) (emcy_code r) (emcy_reg r) (emcy_seq r) (emcy_posted r)
    (mbx_held r) (mbx_release_ns r) (reject_al_code r) (reject_al_state r) (reject_al_sticky r).
Definition fault_zero : esc_node_fault_t :=
  mkFault false 0 0 false false false false false false 0 0 0 0 0 0 0 0 0 false 0 0 0 false.

Record esc_wd_state_t := mkWd { now_ns : Z; last_trigger_ns : Z; running : bool; react : bool; expire_events : Z }.
#[export] Instance eta_wd : Eta esc_wd_state_t := fun r =>
  mkWd (now_ns r) (last_trigger_ns r) (running r) (react r) (expire_events r).

(** ** Distributed clock (esc_dc_state.h) *)

Record esc_dc_state_t := mkDc {
  clock_started : bool; last_host_ns : Z; local_ns : Z; frac_e9 : Z; drift_ppb : Z; trim_ppb : Z; tcl_i_x16 : Z; frame_local_ns : Z;
  last_dt_ns : Z; dt_filt_x16 : Z; dt_writes : Z;
  sync0_active : bool; sync0_start : Z; sync0_cycle : Z; sync0_k_last : Z; pd_since_event : bool; start_in_past : Z;
  read_systime : bool; w_off0_min : Z; w_off0_max : Z; w_events : Z; w_no_frame : Z; w_pd : Z;
  w_phase_min : Z; w_phase_max : Z; w_phase_sum : Z; tot_events : Z; tot_no_frame : Z; tot_pd : Z
}.
#[export] Instance eta_dc : Eta esc_dc_state_t := fun r =>
  mkDc (clock_started r) (last_host_ns r) (local_ns r) (frac_e9 r) (drift_ppb r) (trim_ppb r) (tcl_i_x16 r) (frame_local_ns r)
    (last_dt_ns r) (dt_filt_x16 r) (dt_writes r)
    (sync0_active r) (sync0_start r) (sync0_cycle r) (sync0_k_last r) (pd_since_event r) (start_in_past r)
    (read_systime r) (w_off0_min r) (w_off0_max r) (w_events r) (w_no_frame r) (w_pd r)
    (w_phase_min r) (w_phase_max r) (w_phase_sum r) (tot_events r) (tot_no_frame r) (tot_pd r).
Definition dc_zero : esc_dc_state_t :=
  mkDc false 0 0 0 0 0 0 0 0 0 0 false 0 0 0 false 0 false 0 0 0 0 0 0 0 0 0 0 0.

(** ** Profile: the dictionary of another slave (esc_profile.h) *)

Record esc_prof_sub_t := mkPsub { ps_index : Z; ps_sub : Z; ps_bits : Z; ps_access : Z; ps_len : Z; ps_dflt : list Z }.
Record esc_prof_obj_t := mkPobj { po_index : Z; po_code : Z; po_max_sub : Z; po_first : Z; po_n : Z }.
Record esc_prof_pdo_t := mkPpdo { pp_index : Z; pp_dir : Z; pp_sm : Z; pp_fixed : bool; pp_entry : list Z; pp_ex : list Z }.
Record prof_sm_t := mkPsm { sm_start : Z; sm_len : Z; sm_ctrl : Z; sm_en : bool }.
Record esc_profile_t := mkProf {
  p_name : list Z; p_vendor : Z; p_product : Z; p_rev : Z; p_serial : Z; p_config : option (list Z);
  p_mbx_out : Z; p_mbx_out_len : Z; p_mbx_in : Z; p_mbx_in_len : Z;
  p_coe : bool; p_sdoinfo : bool; p_pdoassign : bool; p_pdoconfig : bool; p_ca : bool;
  p_sm : list prof_sm_t; p_pdo : list esc_prof_pdo_t; p_obj : list esc_prof_obj_t; p_sub : list esc_prof_sub_t
}.
Record esc_prof_state := mkPst { val : list (list Z); ca_bypass : bool }.
#[export] Instance eta_pst : Eta esc_prof_state := fun r => mkPst (val r) (ca_bypass r).

(** ** The node *)

Record esc_t := mkEsc {
  regs : list Z; station_address : Z; station_alias : Z; alias_enabled : bool; position_in_chain : Z; pdo_size_bytes : Z;
  got_valid_outputs : bool; force_reject_al : bool; sii_image_buf : list Z; sii_image_words : Z;
  coe_od : coe_od_t; coe_session : coe_session_t; dc : esc_dc_state_t; fault : esc_node_fault_t; wd : esc_wd_state_t;
  sii_cmd_reads : Z; coe_pdo_od : bool; coe_ca : bool; mbx_out : Z; mbx_out_len : Z; mbx_in : Z; mbx_in_len : Z;
  prof : option esc_profile_t; prof_st : esc_prof_state;
  undef : bool  (** not in the source: see [no_result] *)
}.
#[export] Instance eta_esc : Eta esc_t := fun r =>
  mkEsc (regs r) (station_address r) (station_alias r) (alias_enabled r) (position_in_chain r) (pdo_size_bytes r)
    (got_valid_outputs r) (force_reject_al r) (sii_image_buf r) (sii_image_words r)
    (coe_od r) (coe_session r) (dc r) (fault r) (wd r)
    (sii_cmd_reads r) (coe_pdo_od r) (coe_ca r) (mbx_out r) (mbx_out_len r) (mbx_in r) (mbx_in_len r)
    (prof r) (prof_st r) (undef r).

(** The source gives no result here: it reads an uninitialised variable or through a
    null pointer, writes past a variable, or loops for ever.  The node is marked, and what
    the model does with it afterwards means nothing. *)
Definition no_result (e : esc_t) : esc_t := e <| undef := true |>.

(** [e->regs[a]], [e->regs[a] = v] and the bit operations on one register. *)
Definition reg (e : esc_t) (a : Z) : Z := rd (regs e) a.
Definition set_reg (e : esc_t) (a v : Z) : esc_t := e <| regs ::= fun r => wr r a v |>.
Definition bits_set (v mask : Z) : Z := Z.lor v mask.
Definition bits_clear (v mask : Z) : Z := Z.land v (Z.lnot mask).
Definition has_bit (v mask : Z) : bool := negb (Z.land v mask =? 0).
Definition al_state (e : esc_t) : Z := Z.land (reg e 304) 15.

Lemma bits_clear_u8 v m : is_u8 v -> is_u8 (bits_clear v m).
Proof.
  unfold bits_clear, is_u8. intros Hv. assert (E : Z.land v (Z.lnot m) = Z.land (Z.land v (Z.lnot m)) 255).
  { rewrite <- Z.land_assoc, (Z.land_comm (Z.lnot m)), Z.land_assoc, land_255. unfold u8. by rewrite Z.mod_small by lia. }
  rewrite E, land_255. apply u8_range.
Qed.
Lemma bits_set_u8 v m : is_u8 v -> is_u8 m -> is_u8 (bits_set v m).
Proof.
  unfold bits_set, is_u8. intros Hv Hm. assert (E : Z.lor v m = Z.land (Z.lor v m) 255).
  { rewrite Z.land_lor_distr_l, !land_255. unfold u8. by rewrite !Z.mod_small by lia. }
  rewrite E, land_255. apply u8_range.
Qed.
#[export] Hint Resolve bits_clear_u8 bits_set_u8 : ecm.
