(* ===== verification/EscProfile.v ===== *)
(** * Profile nodes: dictionary and PDO assignment (tools/soft_bus/esc_profile.c)

    A profile node stands in for another slave.  Its dictionary is the list of
    objects and entries of that slave's ESI with one value per entry.  The module
    holds the look-ups, the checks of the PDO assignment objects 0x1C12/0x1C13,
    the comparison of the sync managers with the assigned PDOs, and the EEPROM
    image of a profile.  Left out: [esc_prof_load], the reader of the profile
    file. *)
From Stdlib Require Import ZArith Lia Bool.
From S2P Require Import Prelude EscMem EscTypes.
From stdpp Require Import base list numbers.
Open Scope Z_scope.

Notation ESC_PROF_VAL_MAX := 64 (only parsing).
Notation ABORT_VALUE_RANGE := 101253168 (only parsing).
Notation ABORT_WRONG_STATE := 134217762 (only parsing).

(** ** Dictionary *)

Definition esc_prof_obj (p : esc_profile_t) (index : Z) : option esc_prof_obj_t :=
  snd <$> list_find (fun o => po_index o = index) (p_obj p).
Definition psub_at (p : esc_profile_t) (k : Z) : esc_prof_sub_t :=
  default (mkPsub 0 0 0 0 0 []) (p_sub p !! Z.to_nat k).
(** Global number of [index:sub]; [None] for -1. *)
Definition esc_prof_sub (p : esc_profile_t) (index sub : Z) : option Z :=
  match esc_prof_obj p index with
  | None => None
  | Some o => snd <$> list_find (fun k => ps_sub (psub_at p k) = sub) (seqZ (po_first o) (po_n o))
  end.
Definition esc_prof_value (st : esc_prof_state) (gsub : Z) : list Z := default [] (val st !! Z.to_nat gsub).
Definition find_pdo (p : esc_profile_t) (index : Z) : option esc_prof_pdo_t :=
  snd <$> list_find (fun q => pp_index q = index) (p_pdo p).

(** ** PDO assignment *)

Section assign.
Context (p : esc_profile_t) (st : esc_prof_state).

Definition assigned (obj k : Z) : Z :=
  match esc_prof_sub p obj (u8 k) with None => 0 | Some g => rd_le16 (esc_prof_value st g) 0 end.
Definition assigned_n (obj : Z) : Z :=
  match esc_prof_sub p obj 0 with None => 0 | Some g => rd (esc_prof_value st g) 0 end.

(** Every PDO of the set exists with this direction, none twice, none excluded by another one. *)
Definition pair_ok (pa : esc_prof_pdo_t) (a : nat) (list_ : list Z) (b : nat) : bool :=
  bool_decide (a = b)
  || (negb (rd list_ (Z.of_nat b) =? pp_index pa) && forallb (fun x => negb (x =? rd list_ (Z.of_nat b))) (pp_ex pa)).
Definition member_ok (dir : Z) (list_ : list Z) (a : nat) : bool :=
  match find_pdo p (rd list_ (Z.of_nat a)) with
  | None => false
  | Some pa => (pp_dir pa =? dir) && forallb (pair_ok pa a list_) (seq 0 (length list_))
  end.
Definition check_set (dir : Z) (list_ : list Z) : Z :=
  if forallb (member_ok dir list_) (seq 0 (length list_)) then 0 else ABORT_VALUE_RANGE.

Definition dir_of (index : Z) : Z := b2z (index =? 7187).
Definition is_assign (index : Z) : bool := (index =? 7186) || (index =? 7187).
Definition max_sub_of (index : Z) : Z := match esc_prof_obj p index with Some o => po_max_sub o | None => 0 end.

Definition esc_prof_check_value (index sub : Z) (data : list Z) (len : Z) : Z :=
  if negb (is_assign index) then 0
  else if ca_bypass st then 0
  else if sub =? 0 then
    if (len <? 1) || (max_sub_of index <? rd data 0) then ABORT_VALUE_RANGE
    else check_set (dir_of index) ((fun a => assigned index a) <$> seqZ 1 (rd data 0))
  else if len <? 2 then ABORT_VALUE_RANGE
  else
    let v := rd_le16 data 0 in
    if negb (assigned_n index =? 0) then ABORT_WRONG_STATE
    else if v =? 0 then 0
    else match find_pdo p v with
         | None => ABORT_VALUE_RANGE
         | Some q => if pp_dir q =? dir_of index then 0 else ABORT_VALUE_RANGE
         end.

(** The set that a Complete Access download makes active. *)
Definition ca_member (index pos0 : Z) (data : list Z) (len a : Z) : Z :=
  let pos := pos0 + 2 * (a - 1) in
  if pos + 2 <=? len then rd_le16 data pos else assigned index a.
(** [None]: the profile has no such object and the source reads through the null pointer. *)
Definition esc_prof_check_ca (index start : Z) (data : list Z) (len : Z) : option Z :=
  if negb (is_assign index) then Some 0
  else if (start =? 0) && (len <? 2) then Some 0
  else
    let n := if start =? 0 then rd data 0 else assigned_n index in
    let pos := if start =? 0 then 2 else 0 in
    match esc_prof_obj p index with
    | None => None
    | Some o =>
        Some (if po_max_sub o <? n then ABORT_VALUE_RANGE
              else check_set (dir_of index) (ca_member index pos data len <$> seqZ 1 n))
    end.

(** ** Process data sizes *)

Definition entry_bits (pdo e : Z) : Z :=
  match esc_prof_sub p pdo (u8 e) with Some g => rd (esc_prof_value st g) 0 | None => 0 end.
Definition pdo_bits (pdo : Z) : Z :=
  match esc_prof_sub p pdo 0 with
  | None => 0
  | Some g0 => foldr (fun e acc => entry_bits pdo e + acc) 0 (seqZ 1 (rd (esc_prof_value st g0) 0))
  end.
Definition esc_prof_assigned_bits (dir : Z) : Z :=
  let obj := if dir =? 0 then 7186 else 7187 in
  foldr (fun a acc => pdo_bits (assigned obj a) + acc) 0 (seqZ 1 (assigned_n obj)).

Definition sm_bytes (r : list Z) (dir : Z) : Z :=
  let sm := REG_SM_BASE + (2 + dir) * REG_SM_ENTRY_SIZE in
  if has_bit (rd r (sm + SM_OFF_ACTIVATE)) 1 then rd_le16 r (sm + SM_OFF_LENGTH) else 0.
Definition want_bytes (dir : Z) : Z :=
  let want := esc_prof_assigned_bits dir in
  (if want mod 8 =? 0 then want else want + 8) / 8.
(** AL status code to refuse SAFEOP with, or 0. *)
Definition esc_prof_check_pd (r : list Z) : Z :=
  if negb (sm_bytes r 0 =? want_bytes 0) then 29
  else if negb (sm_bytes r 1 =? want_bytes 1) then 30
  else 0.
End assign.

(** ** EEPROM image *)

Fixpoint crc8_bits (n : nat) (crc : Z) : Z :=
  match n with
  | O => crc
  | S n => crc8_bits n (if has_bit crc 128 then u8 (Z.lxor (Z.shiftl crc 1) 7) else u8 (Z.shiftl crc 1))
  end.
Definition word_byte (w : list Z) (i : Z) : Z :=
  if Z.odd i then Z.shiftr (rd w (i / 2)) 8 else Z.land (rd w (i / 2)) 255.
Definition crc8 (w : list Z) : Z :=
  foldl (fun crc i => crc8_bits 8 (Z.lxor crc (word_byte w i))) 255 (seqZ 0 14).

Definition low16 (v : Z) : Z := u16 v.
Definition high16 (v : Z) : Z := u16 (Z.shiftr v 16).
Definition prof_prefix (p : esc_profile_t) : list Z :=
  let conf := match p_config p with Some c => c | None => [128; 0; 0; 0; 0; 0; 0] end in
  conf ++ [crc8 conf; low16 (p_vendor p); high16 (p_vendor p); low16 (p_product p); high16 (p_product p);
    low16 (p_rev p); high16 (p_rev p); low16 (p_serial p); high16 (p_serial p)]
  ++ replicate 8 0 ++ [p_mbx_out p; p_mbx_out_len p; p_mbx_in p; p_mbx_in_len p; if p_coe p then 4 else 0]
  ++ replicate 35 0.

Fixpoint pack_words (b : list Z) : list Z :=
  match b with
  | lo :: hi :: b => Z.lor lo (Z.shiftl hi 8) :: pack_words b
  | [lo] => [lo]
  | [] => []
  end.
Definition cat (type : Z) (body : list Z) : list Z := type :: Z.of_nat (length body) :: body.
Definition prof_strings (p : esc_profile_t) : list Z :=
  let name := take 63 (p_name p) in
  match name with [] => [] | _ => cat 10 (pack_words (1 :: Z.of_nat (length name) :: name)) end.
Definition prof_general (p : esc_profile_t) : list Z :=
  let bit (b : bool) (v : Z) := if b then v else 0 in
  let det := if p_coe p
    then Z.lor (Z.lor (Z.lor (Z.lor 1 (bit (p_sdoinfo p) 2)) (bit (p_pdoassign p) 4)) (bit (p_pdoconfig p) 8)) (bit (p_ca p) 32)
    else 0 in
  cat 30 [0; match p_name p with [] => 0 | _ => 256 end; Z.shiftl det 8; 0; 0; 0; 0; 0; 17; 0; 0; 0; 0; 0; 0; 0].
Definition prof_syncm (p : esc_profile_t) : list Z :=
  cat 41 (concat (imap (fun i s => [sm_start s; sm_len s; sm_ctrl s;
    b2z (sm_en s && (bool_decide (i < 2)%nat || negb (sm_len s =? 0)))]) (p_sm p))).
Definition pdo_words (q : esc_prof_pdo_t) : list Z :=
  [pp_index q; Z.lor (Z.of_nat (length (pp_entry q))) (Z.shiftl (pp_sm q) 8); 0; if pp_fixed q then 16 else 0]
  ++ concat ((fun en => [u16 (Z.shiftr en 16); Z.land (Z.shiftr en 8) 255; Z.shiftl (Z.land en 255) 8; 0]) <$> pp_entry q).
Definition prof_pdos (p : esc_profile_t) (type dir : Z) : list Z :=
  match concat (pdo_words <$> filter (fun q => pp_dir q = dir) (p_pdo p)) with [] => [] | ws => cat type ws end.
(** [None]: the image does not fit. *)
Definition build_sii (p : esc_profile_t) : option (list Z * Z) :=
  let w := prof_prefix p ++ prof_strings p ++ prof_general p ++ prof_syncm p ++ prof_pdos p 50 1 ++ prof_pdos p 51 0 ++ [65535] in
  let n := Z.of_nat (length w) in
  if ESC_SII_IMAGE_MAX_WORDS <? n then None
  else Some (w ++ replicate (Z.to_nat (ESC_SII_IMAGE_MAX_WORDS - n)) 0, n).

Definition pad64 (v : list Z) : list Z := take 64 (v ++ replicate 64 0).
Definition sm_len_at (p : esc_profile_t) (i : nat) : Z := match p_sm p !! i with Some s => sm_len s | None => 0 end.
Definition esc_prof_attach (e : esc_t) (p : esc_profile_t) : option esc_t :=
  match build_sii p with
  | None => None
  | Some (img, n) =>
      Some (e <| prof_st := mkPst ((fun s => pad64 (ps_dflt s)) <$> p_sub p) (ca_bypass (prof_st e)) |>
              <| prof := Some p |> <| mbx_out := p_mbx_out p |> <| mbx_out_len := p_mbx_out_len p |>
              <| mbx_in := p_mbx_in p |> <| mbx_in_len := p_mbx_in_len p |> <| coe_pdo_od := false |> <| coe_ca := p_ca p |>
              <| pdo_size_bytes := Z.max (sm_len_at p 2) (sm_len_at p 3) |>
              <| sii_image_buf := img |> <| sii_image_words := n |>)
  end.

(** ** What the assignment checks guarantee *)

(** An active assignment: known PDOs of the right direction, pairwise different and not excluded. *)
Definition set_valid (p : esc_profile_t) (dir : Z) (l : list Z) : Prop :=
  forall a, (a < length l)%nat -> exists pa, find_pdo p (rd l (Z.of_nat a)) = Some pa /\ pp_dir pa = dir
    /\ forall b, (b < length l)%nat -> a <> b -> rd l (Z.of_nat b) <> pp_index pa /\ rd l (Z.of_nat b) ∉ pp_ex pa.

Lemma find_pdo_index p i q : find_pdo p i = Some q -> pp_index q = i.
Proof.
  unfold find_pdo. intros H. apply fmap_Some in H as ([k x] & H & ->). by apply list_find_Some in H as (_ & ? & _).
Qed.
Lemma pair_ok_iff pa a l b : pair_ok pa a l b = true <->
  (a <> b -> rd l (Z.of_nat b) <> pp_index pa /\ rd l (Z.of_nat b) ∉ pp_ex pa).
Proof.
  unfold pair_ok. rewrite orb_true_iff, bool_decide_eq_true, andb_true_iff, negb_true_iff, Z.eqb_neq, forallb_forall. split.
  - intros [->|[H1 H2]] Hne; [done|]. split; [done|]. intros Hin%list_elem_of_In. apply H2 in Hin. rewrite Z.eqb_refl in Hin. done.
  - intros H. destruct (decide (a = b)); [by left|]. destruct (H n) as [H1 H2]. right. split; [done|].
    intros x Hx%list_elem_of_In. apply negb_true_iff, Z.eqb_neq. intros ->. done.
Qed.
Lemma check_set_iff p dir l : check_set p dir l = 0 <-> set_valid p dir l.
Proof.
  unfold check_set. destruct (forallb _ _) eqn:E.
  - split; [intros _|done]. rewrite forallb_forall in E. intros a Ha. specialize (E a ltac:(apply in_seq; lia)).
    unfold member_ok in E. destruct (find_pdo p _) as [pa|]; [|done]. apply andb_true_iff in E as [Hd Hp]. exists pa.
    split_and!; [done|by apply Z.eqb_eq|]. intros b Hb. rewrite forallb_forall in Hp. apply pair_ok_iff, Hp, in_seq. lia.
  - split; [done|]. intros Hv. exfalso. apply not_true_iff_false in E. apply E, forallb_forall. intros a Ha%in_seq.
    destruct (Hv a ltac:(lia)) as (pa & Hf & Hd & Hb). unfold member_ok. rewrite Hf. apply andb_true_iff. split; [by apply Z.eqb_eq|].
    apply forallb_forall. intros b Hb'%in_seq. apply pair_ok_iff. intros Hne. apply Hb; [lia|done].
Qed.
Lemma check_set_values p dir l : check_set p dir l = 0 \/ check_set p dir l = ABORT_VALUE_RANGE.
Proof. unfold check_set. destruct forallb; auto. Qed.
