(* ===== verification/EscCoe.v ===== *)
(** * CoE SDO server of a virtual slave (tools/soft_bus/esc_coe.c)

    The object dictionary of a node (built-in or of a profile), Complete Access,
    the response builders and the mailbox dispatcher, as functions on [esc_t].
    A request lies in the registers at [mbx_out], the response is written at
    [mbx_in].  A buffer argument with its length is one list.  The [uint8_t] loop
    counters over subindices do not end for an object whose last subindex is
    255; the model is of dictionaries without such objects. *)
From Stdlib Require Import ZArith Lia Bool.
From S2P Require Import Prelude EscMem EscTypes EscProfile.
From stdpp Require Import base list numbers.
Open Scope Z_scope.

Notation OBJ_VAR := 7 (only parsing).
Notation OBJ_ARRAY := 8 (only parsing).
Notation OBJ_RECORD := 9 (only parsing).
Notation DT_U8 := 5 (only parsing).
Notation DT_U16 := 6 (only parsing).
Notation DT_U32 := 7 (only parsing).
Notation DT_OCTET_STRING := 10 (only parsing).
Notation ACC_RO := 0 (only parsing).
Notation ACC_RW := 1 (only parsing).
Notation ACC_RW_PREOP := 2 (only parsing).

Notation ABORT_TOGGLE := 84082688 (only parsing).
Notation ABORT_CMD_SPECIFIER_INVALID := 84148225 (only parsing).
Notation ABORT_UNSUPPORTED_ACCESS := 100728832 (only parsing).
Notation ABORT_READ_ONLY := 100728834 (only parsing).
Notation ABORT_CA_UNSUPPORTED := 100728836 (only parsing).
Notation ABORT_OBJECT_DOES_NOT_EXIST := 100794368 (only parsing).
Notation ABORT_TYPE_MISMATCH := 101122064 (only parsing).
Notation ABORT_LENGTH_TOO_HIGH := 101122066 (only parsing).
Notation ABORT_LENGTH_TOO_LOW := 101122067 (only parsing).
Notation ABORT_SUBINDEX_DOES_NOT_EXIST := 101253137 (only parsing).

Notation OFF_MBX_TYPE := 5 (only parsing).
Notation OFF_CANOPEN := 6 (only parsing).
Notation OFF_COMMAND := 8 (only parsing).
Notation OFF_INDEX := 9 (only parsing).
Notation OFF_SUBINDEX := 11 (only parsing).
Notation OFF_DATA_INIT := 12 (only parsing).
Notation OFF_DATA_SEG := 9 (only parsing).
Notation COE_MAX_INIT_CHUNK := 112 (only parsing).
Notation COE_MAX_SEG_CHUNK := 119 (only parsing).
Notation COES_SDOREQ := 2 (only parsing).
Notation COES_SDORES := 3 (only parsing).

(** ** Object dictionary *)

Record od_entry_t := mkEntry { dtype : Z; bits : Z; access : Z }.

Definition coe_od_init (cnt : Z) : coe_od_t :=
  mkOd 0 0 0 ((fun i => Z.land i 255) <$> seqZ 0 200) (replicate 400 0) 16 [1; 1] [5632; 6656] cnt.

Definition pdo_entry_count (e : esc_t) : Z := u8 ((pdo_size_bytes e + SII_PDO_ENTRY_MAX_BYTES - 1) / SII_PDO_ENTRY_MAX_BYTES).
Definition pdo_entry_value (e : esc_t) (entry_index sub : Z) : Z :=
  let before := (sub - 1) * SII_PDO_ENTRY_MAX_BYTES in
  let chunk := u32 (pdo_size_bytes e - before) in
  let chunk := if SII_PDO_ENTRY_MAX_BYTES <? chunk then SII_PDO_ENTRY_MAX_BYTES else chunk in
  Z.lor (Z.lor (Z.shiftl entry_index 16) (Z.shiftl sub 8)) (chunk * 8).

Definition is_pdo_od_index (index : Z) : bool :=
  (index =? 7168) || (index =? 7186) || (index =? 7187) || (index =? 5632) || (index =? 6656).
Definition prof_dtype (bits : Z) : Z :=
  if bits <=? 8 then DT_U8 else if bits <=? 16 then DT_U16 else if bits <=? 32 then DT_U32 else DT_OCTET_STRING.

(** Object code and highest subindex. *)
Definition od_object (e : esc_t) (index : Z) : option (Z * Z) :=
  match prof e with
  | Some p => match esc_prof_obj p index with
              | None => None
              | Some o => Some (po_code o, if po_code o =? OBJ_VAR then 0 else po_max_sub o)
              end
  | None =>
      if is_pdo_od_index index && negb (coe_pdo_od e) then None
      else if index =? 4096 then Some (OBJ_VAR, 0)
      else if index =? 4120 then Some (OBJ_RECORD, 4)
      else if index =? 7168 then Some (OBJ_ARRAY, 4)
      else if (index =? 7186) || (index =? 7187) then Some (OBJ_ARRAY, 1)
      else if (index =? 5632) || (index =? 6656) then Some (OBJ_RECORD, pdo_entry_count e)
      else if index =? 32768 then Some (OBJ_RECORD, 3)
      else if (index =? 32769) || (index =? 32770) then Some (OBJ_VAR, 0)
      else None
  end.

Definition od_entry (e : esc_t) (index sub : Z) : option od_entry_t :=
  match prof e with
  | Some p => match esc_prof_sub p index sub with
              | None => None
              | Some g => let ps := psub_at p g in Some (mkEntry (prof_dtype (ps_bits ps)) (ps_bits ps) (ps_access ps))
              end
  | None =>
      match od_object e index with
      | None => None
      | Some (objcode, max_sub) =>
          if max_sub <? sub then None
          else if negb (objcode =? OBJ_VAR) && (sub =? 0)
          then Some (mkEntry DT_U8 8 (if (index =? 7186) || (index =? 7187) then ACC_RW_PREOP else ACC_RO))
          else if (index =? 4096) || (index =? 4120) || (index =? 5632) || (index =? 6656) then Some (mkEntry DT_U32 32 ACC_RO)
          else if index =? 7168 then Some (mkEntry DT_U8 8 ACC_RO)
          else if (index =? 7186) || (index =? 7187) then Some (mkEntry DT_U16 16 ACC_RW_PREOP)
          else if index =? 32768 then Some (mkEntry DT_U32 32 ACC_RW)
          else if index =? 32769 then Some (mkEntry DT_OCTET_STRING 1600 ACC_RO)
          else if index =? 32770 then Some (mkEntry DT_OCTET_STRING (u16 (octet_rw_len (coe_od e) * 8)) ACC_RW)
          else None
      end
  end.

Definition le16 (v : Z) : list Z := [Z.land v 255; Z.land (Z.shiftr v 8) 255].
Definition le32 (v : Z) : list Z := [Z.land v 255; Z.land (Z.shiftr v 8) 255; Z.land (Z.shiftr v 16) 255; Z.land (Z.shiftr v 24) 255].

(** Current value of an entry, little endian. *)
Definition od_read (e : esc_t) (index sub : Z) : list Z :=
  let od := coe_od e in
  match prof e with
  | Some p => match esc_prof_sub p index sub with
              | None => []
              | Some g => slice (esc_prof_value (prof_st e) g) 0 (ps_len (psub_at p g))
              end
  | None =>
      if index =? 4096 then le32 0
      else if index =? 4120 then
        if sub =? 0 then [4]
        else le32 (if sub =? 1 then 1177 else if sub =? 2 then 1 else if sub =? 3 then 1 else 0)
      else if index =? 7168 then [if sub =? 0 then 4 else sub]
      else if (index =? 7186) || (index =? 7187) then
        let k := b2z (index =? 7187) in
        if sub =? 0 then [rd (pdo_assign_n od) k] else le16 (rd (pdo_assign_idx od) k)
      else if (index =? 5632) || (index =? 6656) then
        if sub =? 0 then [pdo_entry_count e]
        else le32 (pdo_entry_value e (if index =? 6656 then 24576 else 28672) sub)
      else if index =? 32768 then
        if sub =? 0 then [3] else le32 (if sub =? 1 then kp od else if sub =? 2 then ki od else kd od)
      else if index =? 32769 then slice (segtest_blob od) 0 200
      else if index =? 32770 then slice (octet_rw od) 0 (octet_rw_len od)
      else []
  end.

(** [data = None] is the structural check with the declared length only. *)
Definition od_check_write (e : esc_t) (index sub : Z) (data : option (list Z)) (length : Z) : Z :=
  match od_object e index with
  | None => ABORT_OBJECT_DOES_NOT_EXIST
  | Some _ =>
    match od_entry e index sub with
    | None => ABORT_SUBINDEX_DOES_NOT_EXIST
    | Some en =>
      if access en =? ACC_RO then ABORT_READ_ONLY
      else if (access en =? ACC_RW_PREOP) && negb (al_state e =? ESM_PREOP) then ABORT_WRONG_STATE
      else match prof e with
      | Some p =>
          let full := (bits en + 7) / 8 in
          if full <? length then ABORT_LENGTH_TOO_HIGH
          else if (length <? full) && (negb (dtype en =? DT_OCTET_STRING) || (length =? 0)) then ABORT_LENGTH_TOO_LOW
          else match data with None => 0 | Some d => esc_prof_check_value p (prof_st e) index sub d length end
      | None =>
          if (dtype en =? DT_OCTET_STRING) && (length =? 0) then ABORT_LENGTH_TOO_LOW
          else if (dtype en =? DT_OCTET_STRING) && (COE_OCTET_RW_MAX <? length) then ABORT_LENGTH_TOO_HIGH
          else if negb (dtype en =? DT_OCTET_STRING) && negb (length =? bits en / 8) then ABORT_TYPE_MISMATCH
          else match data with
          | None => 0
          | Some d =>
              if (index =? 7186) || (index =? 7187) then
                if (sub =? 0) && (1 <? rd d 0) then ABORT_VALUE_RANGE
                else if (sub =? 1) && negb (rd_le16 d 0 =? (if index =? 7186 then 5632 else 6656)) then ABORT_VALUE_RANGE
                else 0
              else 0
          end
      end
    end
  end.

Definition od_commit (e : esc_t) (index sub : Z) (d : list Z) : esc_t :=
  match prof e with
  | Some p => match esc_prof_sub p index sub with
              | None => e
              | Some g => e <| prof_st ::= fun st => st <| val ::= fun l =>
                            <[Z.to_nat g := memcpy (replicate 64 0) 0 (take 64 d)]> l |> |>
              end
  | None =>
      if (index =? 7186) || (index =? 7187) then
        let k := b2z (index =? 7187) in
        if sub =? 0 then e <| coe_od ::= fun od => od <| pdo_assign_n ::= fun l => wr l k (rd d 0) |> |>
        else e <| coe_od ::= fun od => od <| pdo_assign_idx ::= fun l => wr l k (rd_le16 d 0) |> |>
      else if index =? 32768 then
        let v := rd_le32 d 0 in
        e <| coe_od ::= fun od => if sub =? 1 then od <| kp := v |> else if sub =? 2 then od <| ki := v |> else od <| kd := v |> |>
      else if index =? 32770 then
        e <| coe_od ::= fun od => od <| octet_rw ::= fun o => memcpy o 0 d |> <| octet_rw_len := u16 (len d) |> |>
      else e
  end.

(** ** Complete Access *)

Definition entry_bytes (en : od_entry_t) : Z := (bits en + 7) / 8.

Fixpoint ca_read_loop (e : esc_t) (index : Z) (subs : list Z) (out : list Z) : Z + list Z :=
  match subs with
  | [] => inr out
  | s :: subs =>
      match od_entry e index s with
      | None => ca_read_loop e index subs out
      | Some en => if COE_XFER_BUF_MAX <? len out + entry_bytes en then inl ABORT_LENGTH_TOO_HIGH
                   else ca_read_loop e index subs (out ++ od_read e index s)
      end
  end.
(** What [for (uint8_t s = 1; s <= 255; s++)] runs through: the counter wraps and the
    condition never fails.  Every round passes SI0, so that after [COE_XFER_BUF_MAX] rounds and
    a few more the buffer is full. *)
Definition u8_rounds : list Z := concat (replicate 515 (seqZ 1 255 ++ [0])).
(** [None]: an entry or the number of entries is used that was never set (no SI0), or
    SI0 does not fit the one byte variable it is read into. *)
Definition od_ca_read (e : esc_t) (index start : Z) : option (Z + list Z) :=
  match od_object e index with
  | None => Some (inl ABORT_OBJECT_DOES_NOT_EXIST)
  | Some (objcode, max_sub) =>
      if 1 <? start then Some (inl ABORT_UNSUPPORTED_ACCESS)
      else if objcode =? OBJ_VAR then
        if negb (start =? 0) then Some (inl ABORT_SUBINDEX_DOES_NOT_EXIST)
        else match od_entry e index 0 with
             | Some en => Some (if dtype en =? DT_OCTET_STRING then inl ABORT_CA_UNSUPPORTED else inr (od_read e index 0))
             | None => None
             end
      else
        match od_read e index 0 with
        | [n] =>
            let n := if max_sub <? n then max_sub else n in
            let out := if start =? 0 then [n; 0] else [] in
            if n <? 255 then Some (ca_read_loop e index (seqZ 1 n) out)
            else match ca_read_loop e index u8_rounds out with inl a => Some (inl a) | inr _ => None end
        | _ => None
        end
  end.

Fixpoint ca_full (e : esc_t) (index : Z) (subs : list Z) (full : Z) : Z :=
  match subs with
  | [] => full
  | s :: subs => ca_full e index subs (match od_entry e index s with None => full | Some en => full + entry_bytes en end)
  end.
(** One entry: checked, stored when [commit]. *)
Definition ca_store (e : esc_t) (index s : Z) (d : list Z) (commit : bool) : esc_t * Z :=
  let a := od_check_write e index s (Some d) (len d) in
  if negb (a =? 0) then (e, a) else (if commit then od_commit e index s d else e, 0).
Fixpoint ca_write_loop (e : esc_t) (index : Z) (subs : list Z) (data : list Z) (pos : Z) (writable commit : bool) : esc_t * Z :=
  match subs with
  | [] => (e, if writable then 0 else ABORT_READ_ONLY)
  | s :: subs =>
      if len data <=? pos then (e, if writable then 0 else ABORT_READ_ONLY)
      else match od_entry e index s with
      | None => ca_write_loop e index subs data pos writable commit
      | Some en =>
          let b := entry_bytes en in
          if len data <? pos + b then (e, ABORT_TYPE_MISMATCH)
          else if access en =? ACC_RO then ca_write_loop e index subs data (pos + b) writable commit
          else let '(e, a) := ca_store e index s (slice data pos b) commit in
               if negb (a =? 0) then (e, a) else ca_write_loop e index subs data (pos + b) true commit
      end
  end.
(** The entry the variable still holds after [subs] were looked up. *)
Definition last_entry (e : esc_t) (index : Z) (subs : list Z) : option od_entry_t :=
  foldl (fun last s => match od_entry e index s with Some en => Some en | None => last end) None subs.
Definition od_ca_write (e : esc_t) (index start : Z) (data : list Z) (commit : bool) : esc_t * Z :=
  match od_object e index with
  | None => (e, ABORT_OBJECT_DOES_NOT_EXIST)
  | Some (objcode, max_sub) =>
      if 1 <? start then (e, ABORT_UNSUPPORTED_ACCESS)
      else if objcode =? OBJ_VAR then
        if negb (start =? 0) then (e, ABORT_SUBINDEX_DOES_NOT_EXIST)
        else match od_entry e index 0 with
             | None => (no_result e, 0)
             | Some en => if dtype en =? DT_OCTET_STRING then (e, ABORT_CA_UNSUPPORTED) else ca_store e index 0 data commit
             end
      else if 255 <=? max_sub then (no_result e, 0)
      else if ca_full e index (seqZ 1 max_sub) (if start =? 0 then 2 else 0) <? len data then (e, ABORT_LENGTH_TOO_HIGH)
      else if start =? 0 then
        if len data <? 2 then (e, ABORT_TYPE_MISMATCH)
        else
          match (match od_entry e index 0 with Some en => Some en | None => last_entry e index (seqZ 1 max_sub) end) with
          | None => (no_result e, 0)
          | Some en =>
              if access en =? ACC_RO then ca_write_loop e index (seqZ 1 max_sub) data 2 false commit
              else let '(e, a) := ca_store e index 0 (slice data 0 1) commit in
                   if negb (a =? 0) then (e, a) else ca_write_loop e index (seqZ 1 max_sub) data 2 true commit
          end
      else ca_write_loop e index (seqZ 1 max_sub) data 0 false commit
  end.

Definition set_bypass (e : esc_t) (b : bool) : esc_t :=
  match prof e with Some _ => e <| prof_st ::= fun st => st <| ca_bypass := b |> |> | None => e end.
(** One download, checked as a whole before it is applied. *)
Definition od_download (e : esc_t) (index sub : Z) (ca : bool) (data : list Z) : esc_t * Z :=
  if ca then
    match (match prof e with Some p => esc_prof_check_ca p (prof_st e) index sub data (len data) | None => Some 0 end) with
    | None => (no_result e, 0)
    | Some a =>
        if negb (a =? 0) then (e, a)
        else
          let e := set_bypass e true in
          let '(e, a) := od_ca_write e index sub data false in
          let e := if a =? 0 then fst (od_ca_write e index sub data true) else e in
          (set_bypass e false, a)
    end
  else
    let a := od_check_write e index sub (Some data) (len data) in
    (if a =? 0 then od_commit e index sub data else e, a).
Definition od_upload_value (e : esc_t) (index sub : Z) (ca : bool) : option (Z + list Z) :=
  if ca then od_ca_read e index sub
  else Some match od_object e index with
            | None => inl ABORT_OBJECT_DOES_NOT_EXIST
            | Some _ => match od_entry e index sub with
                        | None => inl ABORT_SUBINDEX_DOES_NOT_EXIST
                        | Some _ => inr (od_read e index sub)
                        end
            end.

(** ** Responses

    [o] is the offset of the response buffer in the registers. *)

Definition resp_header (r : list Z) (o length service : Z) : list Z :=
  let r := wr_le16 r o length in
  let r := wr_le16 r (o + 2) 0 in
  let r := wr r (o + 4) 0 in
  let r := wr r (o + OFF_MBX_TYPE) 3 in
  wr_le16 r (o + OFF_CANOPEN) (u16 (Z.shiftl service 12)).
Definition coe_send_abort (r : list Z) (o index subindex abort_code : Z) : list Z :=
  let r := resp_header r o 10 COES_SDOREQ in
  let r := wr r (o + OFF_COMMAND) 128 in
  let r := wr_le16 r (o + OFF_INDEX) index in
  let r := wr r (o + OFF_SUBINDEX) subindex in
  wr_le32 r (o + OFF_DATA_INIT) abort_code.
Definition coe_send_upload_expedited (r : list Z) (o index subindex : Z) (ca : bool) (data : list Z) : list Z :=
  let n := 4 - len data in
  let r := resp_header r o 10 COES_SDORES in
  let r := wr r (o + OFF_COMMAND) (Z.lor (Z.lor 67 (Z.shiftl n 2)) (if ca then 16 else 0)) in
  let r := wr_le16 r (o + OFF_INDEX) index in
  let r := wr r (o + OFF_SUBINDEX) subindex in
  let r := memset r (o + OFF_DATA_INIT) 0 4 in
  memcpy r (o + OFF_DATA_INIT) data.
Definition coe_start_upload_normal (e : esc_t) (o index subindex : Z) (ca : bool) (data : list Z) : esc_t :=
  let total_len := len data in
  let more := COE_MAX_INIT_CHUNK <? total_len in
  let first_chunk := if more then COE_MAX_INIT_CHUNK else total_len in
  let r := resp_header (regs e) o (u16 (10 + first_chunk)) COES_SDORES in
  let r := wr r (o + OFF_COMMAND) (Z.lor 65 (if ca then 16 else 0)) in
  let r := wr_le16 r (o + OFF_INDEX) index in
  let r := wr r (o + OFF_SUBINDEX) subindex in
  let r := wr_le32 r (o + OFF_DATA_INIT) total_len in
  let r := memcpy r (o + OFF_DATA_INIT + 4) (slice data 0 first_chunk) in
  e <| regs := r |>
    <| coe_session := if more then mkSess true true index subindex total_len first_chunk 0 ca (replicate 512 0)
                      else coe_session_zero |>.
Definition end_session (e : esc_t) : esc_t := e <| coe_session ::= fun s => s <| s_active := false |> |>.
Definition abort_with (e : esc_t) (o index subindex code : Z) : esc_t :=
  e <| regs ::= fun r => coe_send_abort r o index subindex code |>.

Definition coe_handle_upload_request (e : esc_t) (o index subindex : Z) (ca : bool) : esc_t :=
  match od_upload_value e index subindex ca with
  | None => no_result e
  | Some (inl a) => end_session (abort_with e o index subindex a)
  | Some (inr d) =>
      if (1 <=? len d) && (len d <=? 4)
      then end_session (e <| regs ::= fun r => coe_send_upload_expedited r o index subindex ca d |>)
      else coe_start_upload_normal e o index subindex ca d
  end.

(** Command byte and declared length of an upload segment. *)
Definition seg_command (chunk : Z) (is_last : bool) (toggle : Z) : Z :=
  u8 ((if is_last then if chunk <? 7 then 1 + Z.shiftl (7 - chunk) 1 else 1 else 0) + toggle).
Definition coe_handle_upload_segment (e : esc_t) (o command : Z) : esc_t :=
  let s := coe_session e in
  let toggle := Z.land command 16 in
  if negb (s_active s) || negb (is_upload s)
  then end_session (abort_with e o (s_index s) (s_subindex s) ABORT_CMD_SPECIFIER_INVALID)
  else if negb (toggle =? expected_toggle s)
  then end_session (abort_with e o (s_index s) (s_subindex s) ABORT_TOGGLE)
  else
    let fail := end_session (abort_with e o (s_index s) (s_subindex s) ABORT_OBJECT_DOES_NOT_EXIST) in
    match od_upload_value e (s_index s) (s_subindex s) (is_ca s) with
    | None => no_result e
    | Some (inl _) => fail
    | Some (inr d) =>
        if negb (len d =? total_size s) || (len d <? s_done s) then fail
        else
          let remaining := len d - s_done s in
          let is_last := negb (COE_MAX_SEG_CHUNK <? remaining) in
          let chunk := if is_last then remaining else COE_MAX_SEG_CHUNK in
          let short := is_last && (chunk <? 7) in
          let frame_len := if short then 10 else u16 (chunk + 3) in
          let declared_len := if short then 7 else chunk in
          let r := resp_header (regs e) o frame_len COES_SDORES in
          let r := wr r (o + OFF_COMMAND) (seg_command chunk is_last toggle) in
          let r := memset r (o + OFF_DATA_SEG) 0 declared_len in
          let r := memcpy r (o + OFF_DATA_SEG) (slice d (s_done s) chunk) in
          e <| regs := r |>
            <| coe_session ::= fun s => s <| s_done ::= fun d => d + chunk |>
                 <| s_active := negb is_last |>
                 <| expected_toggle ::= fun t => if is_last then t else Z.lxor t 16 |> |>
    end.

Definition coe_send_download_response (r : list Z) (o index subindex : Z) (ca : bool) : list Z :=
  let r := resp_header r o 10 COES_SDORES in
  let r := wr r (o + OFF_COMMAND) (Z.lor 96 (if ca then 16 else 0)) in
  let r := wr_le16 r (o + OFF_INDEX) index in
  let r := wr r (o + OFF_SUBINDEX) subindex in
  memset r (o + OFF_DATA_INIT) 0 4.
(** Abort or acknowledge the download [res] of a finished request. *)
Definition answer_download (res : esc_t * Z) (o index subindex : Z) (ca : bool) : esc_t :=
  let '(e, a) := res in
  if negb (a =? 0) then abort_with e o index subindex a
  else e <| regs ::= fun r => coe_send_download_response r o index subindex ca |>.

Definition coe_handle_download_init (e : esc_t) (o q index subindex command : Z) : esc_t :=
  let ca := has_bit command 16 in
  let e := end_session e in
  let req := regs e in
  if ca && negb (coe_ca e) then abort_with e o index subindex ABORT_UNSUPPORTED_ACCESS
  else if has_bit command 2 then
    let l := if has_bit command 1 then 4 - Z.land (Z.shiftr command 2) 3 else 4 in
    answer_download (od_download e index subindex ca (slice req (q + OFF_DATA_INIT) l)) o index subindex ca
  else if negb (has_bit command 1) then abort_with e o index subindex ABORT_CMD_SPECIFIER_INVALID
  else
    let total := rd_le32 req (q + OFF_DATA_INIT) in
    let mbx_len := rd_le16 req q in
    let in_frame := if 10 <? mbx_len then mbx_len - 10 else 0 in
    let in_frame := if 112 <? in_frame then 112 else in_frame in
    let in_frame := if total <? in_frame then total else in_frame in
    if COE_XFER_BUF_MAX <? total then abort_with e o index subindex ABORT_LENGTH_TOO_HIGH
    else
      let a := if ca then match od_object e index with
                          | None => ABORT_OBJECT_DOES_NOT_EXIST
                          | Some _ => if 1 <? subindex then ABORT_UNSUPPORTED_ACCESS else 0
                          end
               else od_check_write e index subindex None total in
      if negb (a =? 0) then abort_with e o index subindex a
      else if in_frame =? total
      then answer_download (od_download e index subindex ca (slice req (q + OFF_DATA_INIT + 4) total)) o index subindex ca
      else
        e <| coe_session := mkSess true false index subindex total in_frame 0 ca
               (memcpy (replicate 512 0) 0 (slice req (q + OFF_DATA_INIT + 4) in_frame)) |>
          <| regs ::= fun r => coe_send_download_response r o index subindex ca |>.

Definition seg_acknowledge (r : list Z) (o toggle : Z) : list Z :=
  let r := resp_header r o 10 COES_SDORES in
  let r := wr r (o + OFF_COMMAND) (Z.lor 32 toggle) in
  memset r (o + OFF_INDEX) 0 7.
Definition coe_handle_download_segment (e : esc_t) (o q command : Z) : esc_t :=
  let s := coe_session e in
  let req := regs e in
  let toggle := Z.land command 16 in
  let last := has_bit command 1 in
  if negb (s_active s) || is_upload s
  then end_session (abort_with e o (s_index s) (s_subindex s) ABORT_CMD_SPECIFIER_INVALID)
  else if negb (toggle =? expected_toggle s)
  then end_session (abort_with e o (s_index s) (s_subindex s) ABORT_TOGGLE)
  else
    let mbx_len := rd_le16 req q in
    let seg := if 3 <? mbx_len then mbx_len - 3 else 0 in
    let seg := if 119 <? seg then 119 else seg in
    let seg := if last && (seg =? 7) then seg - Z.land (Z.shiftr command 1) 7 else seg in
    if total_size s <? s_done s + seg
    then end_session (abort_with e o (s_index s) (s_subindex s) ABORT_LENGTH_TOO_HIGH)
    else
      let e := e <| coe_session ::= fun s => s <| xfer ::= fun x => memcpy x (s_done s) (slice req (q + OFF_DATA_SEG) seg) |>
                                               <| s_done ::= fun d => d + seg |> |> in
      if last then
        let e := end_session e in
        let s := coe_session e in
        let '(e, a) := if negb (s_done s =? total_size s) then (e, ABORT_LENGTH_TOO_LOW)
                       else od_download e (s_index s) (s_subindex s) (is_ca s) (slice (xfer s) 0 (total_size s)) in
        if negb (a =? 0) then abort_with e o (s_index s) (s_subindex s) a
        else e <| regs ::= fun r => seg_acknowledge r o toggle |>
      else
        e <| coe_session ::= fun s => s <| expected_toggle ::= fun t => Z.lxor t 16 |> |>
          <| regs ::= fun r => seg_acknowledge r o toggle |>.

(** ** The mailbox *)

Definition next_cnt (c : Z) : Z := u8 (c mod 7 + 1).
Definition stamp_cnt (e : esc_t) : esc_t :=
  let c := next_cnt (resp_cnt (coe_od e)) in
  e <| coe_od ::= fun od => od <| resp_cnt := c |> |>
    <| regs ::= fun r => wr r (mbx_in e + OFF_MBX_TYPE) (u8 (Z.lor (Z.land (rd r (mbx_in e + OFF_MBX_TYPE)) 15) (Z.shiftl c 4))) |>.
Definition mailbox_full (e : esc_t) : esc_t :=
  e <| regs ::= fun r => wr r REG_SM1_STATUS (bits_set (rd r REG_SM1_STATUS) SM_STATUS_MAILBOX_FULL) |>.

(** The response to a request, before the counter and the mailbox flag; [None]: no response. *)
Definition coe_dispatch (e : esc_t) : option esc_t :=
  let q := mbx_out e in
  let o := mbx_in e in
  let req := regs e in
  if negb (Z.land (rd req (q + OFF_MBX_TYPE)) 15 =? 3) then None
  else if negb (Z.shiftr (rd_le16 req (q + OFF_CANOPEN)) 12 =? COES_SDOREQ) then None
  else
    let command := rd req (q + OFF_COMMAND) in
    let index := rd_le16 req (q + OFF_INDEX) in
    let subindex := rd req (q + OFF_SUBINDEX) in
    if command =? 128 then None
    else Some (
      if command =? 80 then
        if negb (coe_ca e) then abort_with e o index subindex ABORT_UNSUPPORTED_ACCESS
        else coe_handle_upload_request e o index subindex true
      else if command =? 64 then coe_handle_upload_request e o index subindex false
      else if Z.land command 239 =? 96 then coe_handle_upload_segment e o command
      else if Z.land command 224 =? 32 then coe_handle_download_init e o q index subindex command
      else if Z.land command 224 =? 0 then coe_handle_download_segment e o q command
      else abort_with e o index subindex ABORT_CMD_SPECIFIER_INVALID).

(** Is the request an SDO abort of the master? *)
Definition is_master_abort (e : esc_t) : bool :=
  let q := mbx_out e in
  (Z.land (rd (regs e) (q + OFF_MBX_TYPE)) 15 =? 3) && (Z.shiftr (rd_le16 (regs e) (q + OFF_CANOPEN)) 12 =? COES_SDOREQ)
  && (rd (regs e) (q + OFF_COMMAND) =? 128).

Definition coe_on_mailbox_out_write (e : esc_t) : esc_t :=
  match coe_dispatch e with
  | None => if is_master_abort e then end_session e else e
  | Some e' =>
      let command := rd (regs e) (mbx_out e + OFF_COMMAND) in
      let e' := stamp_cnt e' in
      let is_download := (Z.land command 224 =? 32) || (Z.land command 224 =? 0) in
      if negb (coe_delay_ms (fault e') =? 0) && is_download
      then e' <| fault ::= fun f => f <| mbx_held := true |>
                   <| mbx_release_ns := u64 (now_ns (wd e') + coe_delay_ms f * 1000000) |> |>
      else mailbox_full e'
  end.

(** Emergency message: the state and whether it was posted. *)
Definition coe_post_emcy (e : esc_t) (code reg_ : Z) (data : list Z) : esc_t * bool :=
  if has_bit (reg e REG_SM1_STATUS) SM_STATUS_MAILBOX_FULL || mbx_held (fault e) then (e, false)
  else
    let o := mbx_in e in
    let r := memset (regs e) o 0 16 in
    let r := resp_header r o 10 1 in
    let r := wr_le16 r (o + 8) code in
    let r := wr r (o + 10) reg_ in
    let r := memcpy r (o + 11) (take 5 data) in
    (mailbox_full (stamp_cnt (e <| regs := r |>)), true).
