(* ===== verification/EscCoeSpec.v ===== *)
(** * SDO transfers: what a client gets from the CoE server

    The specification of [EscCoe]: an SDO upload or download, segmented or not,
    is one atomic read or write of the object dictionary.  The client follows
    ETG.1000.6: it posts requests into the mailbox, alternates the toggle bit,
    and takes the bytes each response declares. *)
From Stdlib Require Import ZArith Lia Bool.
From S2P Require Import Prelude EscMem EscTypes EscProfile EscCoe.
From stdpp Require Import base list numbers.
Open Scope Z_scope.

(** ** Nodes *)

(** Registers are bytes of the right number; both mailboxes lie in the DPRAM and do not overlap. *)
Record node_wf (e : esc_t) : Prop := {
  nw_len : len (regs e) = 8192;
  nw_bytes : bytes (regs e);
  nw_in : 4096 <= mbx_in e /\ mbx_in e + 128 <= 8192;
  nw_out : 4096 <= mbx_out e /\ mbx_out e + 128 <= 8192;
  nw_sep : mbx_in e + 128 <= mbx_out e \/ mbx_out e + 128 <= mbx_in e
}.

(** The dictionary: everything an SDO access depends on, without the response counter. *)
Definition dict (e : esc_t) : option esc_profile_t * esc_prof_state * bool * Z * coe_od_t :=
  (prof e, prof_st e, coe_pdo_od e, pdo_size_bytes e, (coe_od e) <| resp_cnt := 0 |>).

Section congruence.
Context (e e' : esc_t) (Hd : dict e = dict e').

Lemma dict_od : kp (coe_od e) = kp (coe_od e') /\ ki (coe_od e) = ki (coe_od e') /\ kd (coe_od e) = kd (coe_od e')
  /\ segtest_blob (coe_od e) = segtest_blob (coe_od e') /\ octet_rw (coe_od e) = octet_rw (coe_od e')
  /\ octet_rw_len (coe_od e) = octet_rw_len (coe_od e') /\ pdo_assign_n (coe_od e) = pdo_assign_n (coe_od e')
  /\ pdo_assign_idx (coe_od e) = pdo_assign_idx (coe_od e').
Proof. unfold dict in Hd. cbn in Hd. injection Hd. intros. tauto. Qed.
Lemma dict_rest : prof e = prof e' /\ prof_st e = prof_st e' /\ coe_pdo_od e = coe_pdo_od e' /\ pdo_size_bytes e = pdo_size_bytes e'.
Proof. unfold dict in Hd. cbn in Hd. injection Hd. intros. tauto. Qed.
Lemma pdo_entry_count_dict : pdo_entry_count e = pdo_entry_count e'.
Proof. unfold pdo_entry_count. by destruct dict_rest as (_ & _ & _ & ->). Qed.
Lemma od_object_dict i : od_object e i = od_object e' i.
Proof. unfold od_object. rewrite pdo_entry_count_dict. by destruct dict_rest as (-> & _ & -> & _). Qed.
Lemma od_entry_dict i s : od_entry e i s = od_entry e' i s.
Proof.
  unfold od_entry. rewrite od_object_dict. destruct dict_rest as (-> & _). destruct dict_od as (_ & _ & _ & _ & _ & -> & _). done.
Qed.
Lemma od_read_dict i s : od_read e i s = od_read e' i s.
Proof.
  unfold od_read, pdo_entry_value. rewrite pdo_entry_count_dict. destruct dict_rest as (-> & -> & _ & ->).
  destruct dict_od as (-> & -> & -> & -> & -> & -> & -> & ->). done.
Qed.
Lemma ca_read_loop_dict i subs out : ca_read_loop e i subs out = ca_read_loop e' i subs out.
Proof.
  revert out. induction subs as [|s subs IH]; intros out; [done|]. cbn [ca_read_loop].
  rewrite od_entry_dict, od_read_dict. destruct (od_entry e' i s); [case_if; [done|]|]; apply IH.
Qed.
Lemma od_upload_value_dict i s ca : od_upload_value e i s ca = od_upload_value e' i s ca.
Proof.
  unfold od_upload_value, od_ca_read. rewrite !od_object_dict, !od_entry_dict, !od_read_dict.
  destruct ca; [|done]. destruct (od_object e' i) as [[c m]|]; [|done]. destruct (od_read e' i 0) as [|b [|b' l]]; try done.
  by rewrite !ca_read_loop_dict.
Qed.
Lemma od_check_write_dict i s d n : al_state e = al_state e' -> od_check_write e i s d n = od_check_write e' i s d n.
Proof.
  intros Ha. unfold od_check_write. rewrite od_object_dict, od_entry_dict, Ha. destruct dict_rest as (-> & -> & _). done.
Qed.
End congruence.

(** ** Posting a request *)

Definition load (e : esc_t) (req : list Z) : esc_t := e <| regs ::= fun r => memcpy r (mbx_out e) req |>.
Definition post (e : esc_t) (req : list Z) : esc_t := coe_on_mailbox_out_write (load e req).
Definition rbyte (e : esc_t) (i : Z) : Z := rd (regs e) (mbx_in e + i).
Definition rword (e : esc_t) (i : Z) : Z := rd_le16 (regs e) (mbx_in e + i).
Definition rdata (e : esc_t) (i n : Z) : list Z := slice (regs e) (mbx_in e + i) n.

Lemma load_wf e req : node_wf e -> bytes req -> node_wf (load e req).
Proof. intros [] H. constructor; cbn; [by rewrite len_memcpy|by apply bytes_memcpy|done..]. Qed.
Lemma load_rd e req i : node_wf e -> len req <= 128 -> 0 <= i < len req -> rd (regs (load e req)) (mbx_out e + i) = rd req i.
Proof. intros [Hl _ _ Ho _] Hr Hi. cbn. rewrite rd_memcpy_in by lia. f_equal. lia. Qed.
Lemma load_rd16 e req i : node_wf e -> len req <= 128 -> 0 <= i -> i + 1 < len req ->
  rd_le16 (regs (load e req)) (mbx_out e + i) = rd_le16 req i.
Proof. intros. unfold rd_le16. rewrite <- Z.add_assoc, !load_rd by (done || lia). done. Qed.
Lemma load_rd32 e req i : node_wf e -> len req <= 128 -> 0 <= i -> i + 3 < len req ->
  rd_le32 (regs (load e req)) (mbx_out e + i) = rd_le32 req i.
Proof. intros. unfold rd_le32. rewrite <- !Z.add_assoc, !load_rd by (done || lia). done. Qed.
Lemma load_slice e req i n : node_wf e -> len req <= 128 -> 0 <= i -> 0 <= n -> i + n <= len req ->
  slice (regs (load e req)) (mbx_out e + i) n = slice req i n.
Proof.
  intros Hw ? ? ? ?. pose proof Hw as [Hl _ _ Ho _]. assert (HL : len (regs (load e req)) = 8192) by (cbn; by rewrite len_memcpy).
  apply rd_ext; rewrite !len_slice by lia; [done|]. intros k Hk. rewrite !rd_slice by lia.
  rewrite <- Z.add_assoc. apply load_rd; [done|lia..].
Qed.


(** The handler a well-formed SDO request reaches. *)
Definition handler (x : esc_t) (req : list Z) : esc_t :=
  let o := mbx_in x in
  let q := mbx_out x in
  let index := rd_le16 req 9 in
  let subindex := rd req 11 in
  if rd req 8 =? 80 then
    if negb (coe_ca x) then abort_with x o index subindex ABORT_UNSUPPORTED_ACCESS
    else coe_handle_upload_request x o index subindex true
  else if rd req 8 =? 64 then coe_handle_upload_request x o index subindex false
  else if Z.land (rd req 8) 239 =? 96 then coe_handle_upload_segment x o (rd req 8)
  else if Z.land (rd req 8) 224 =? 32 then coe_handle_download_init x o q index subindex (rd req 8)
  else if Z.land (rd req 8) 224 =? 0 then coe_handle_download_segment x o q (rd req 8)
  else abort_with x o index subindex ABORT_CMD_SPECIFIER_INVALID.
Definition sdo_request (req : list Z) : Prop :=
  12 <= len req <= 128 /\ bytes req /\ Z.land (rd req 5) 15 = 3 /\ Z.shiftr (rd_le16 req 6) 12 = 2 /\ rd req 8 <> 128.

Definition finish (command : Z) (e : esc_t) : esc_t :=
  let e := stamp_cnt e in
  if negb (coe_delay_ms (fault e) =? 0) && ((Z.land command 224 =? 32) || (Z.land command 224 =? 0))
  then e <| fault ::= fun f => f <| mbx_held := true |> <| mbx_release_ns := u64 (now_ns (wd e) + coe_delay_ms f * 1000000) |> |>
  else mailbox_full e.

Lemma post_handler e req : node_wf e -> sdo_request req -> post e req = finish (rd req 8) (handler (load e req) req).
Proof.
  intros Hw (Hl & _ & H5 & H6 & H8). unfold post, coe_on_mailbox_out_write, coe_dispatch.
  change (mbx_out (load e req)) with (mbx_out e). rewrite !load_rd16, !load_rd by (done || lia).
  rewrite H5, H6. cbn [negb Z.eqb Pos.eqb]. destruct (Z.eqb_spec (rd req 8) 128); [done|]. reflexivity.
Qed.

Lemma finish_dict c e : dict (finish c e) = dict e.
Proof. unfold finish. case_if; done. Qed.
Lemma finish_session c e : coe_session (finish c e) = coe_session e.
Proof. unfold finish. case_if; done. Qed.
Lemma finish_undef c e : undef (finish c e) = undef e.
Proof. unfold finish. case_if; done. Qed.
Lemma finish_mbx c e : mbx_in (finish c e) = mbx_in e /\ mbx_out (finish c e) = mbx_out e /\ coe_ca (finish c e) = coe_ca e.
Proof. unfold finish. case_if; done. Qed.
Lemma finish_rd c e a : 4096 <= mbx_in e -> 0 <= a -> a <> 2061 -> a <> mbx_in e + 5 -> rd (regs (finish c e)) a = rd (regs e) a.
Proof. intros. unfold finish. case_if; cbn; mem_simp; done. Qed.
Lemma finish_wf c e : node_wf e -> node_wf (finish c e).
Proof.
  intros [Hl Hb Hi Ho Hs]. unfold finish. case_if; constructor; cbn; rewrite ?len_wr; try done; eauto 8 with ecm.
Qed.
#[export] Hint Resolve finish_wf load_wf : ecm.

(** ** Response fields *)

Definition resp_ok (o : Z) (r : list Z) : Prop := 4096 <= o /\ o + 128 <= 8192 /\ len r = 8192.

Ltac resp_tac :=
  intros; unfold resp_header, coe_send_abort, coe_send_upload_expedited, coe_send_download_response, seg_acknowledge;
  autorewrite with memlen; auto 20 with ecm.

Lemma len_resp_header r o l s : len (resp_header r o l s) = len r.
Proof. resp_tac. Qed.
Lemma bytes_resp_header r o l s : bytes r -> bytes (resp_header r o l s).
Proof. intros. unfold resp_header. repeat first [apply bytes_wr_le16|apply bytes_wr]; done. Qed.
Hint Rewrite len_resp_header : memlen.
#[export] Hint Resolve bytes_resp_header : ecm.

Lemma resp_header_out r o l s a : 0 <= o -> 0 <= a -> a < o \/ o + 8 <= a -> rd (resp_header r o l s) a = rd r a.
Proof. intros. unfold resp_header. mem_simp. done. Qed.
Lemma resp_header_length r o l s : bytes r -> resp_ok o r -> rd_le16 (resp_header r o l s) o = u16 l.
Proof.
  intros Hb (Ho1 & Ho2 & Hl). unfold resp_header.
  transitivity (rd_le16 (wr_le16 r o l) o); [apply rd_le16_ext; mem_simp; done|]. by rewrite rd_le16_wr_le16 by (done || lia).
Qed.
Lemma resp_header_service r o l s : bytes r -> resp_ok o r -> rd_le16 (resp_header r o l s) (o + 6) = u16 (Z.shiftl s 12).
Proof.
  intros Hb (Ho1 & Ho2 & Hl). unfold resp_header. rewrite rd_le16_wr_le16; [clia| |lia|autorewrite with memlen; lia].
  repeat first [apply bytes_wr_le16|apply bytes_wr]; done.
Qed.

(** ** Upload *)

Definition up_req (index sub : Z) (ca : bool) : list Z :=
  [10; 0; 0; 0; 0; 3; 0; 32; if ca then 80 else 64] ++ le16 index ++ [sub; 0; 0; 0; 0].
Definition seg_req (toggle : Z) : list Z := [10; 0; 0; 0; 0; 3; 0; 32; 96 + toggle; 0; 0; 0; 0; 0; 0; 0].

(** The service of a response: 3 for data, 2 for an abort. *)
Definition rservice (e : esc_t) : Z := Z.shiftr (rword e 6) 12.
(** First response: its data and the size of the whole value. *)
Definition up_first (e : esc_t) : option (list Z * Z) :=
  if negb (rservice e =? 3) then None
  else if has_bit (rbyte e 8) 2
  then let n := 4 - Z.land (Z.shiftr (rbyte e 8) 2) 3 in Some (rdata e 12 n, n)
  else Some (rdata e 16 (rword e 0 - 10), rd_le32 (regs e) (mbx_in e + 12)).
(** Segment: its data and whether it is the last one. *)
Definition up_seg (e : esc_t) : option (list Z * bool) :=
  if negb (rservice e =? 3) then None
  else
    let last := has_bit (rbyte e 8) 1 in
    let n := rword e 0 - 3 in
    Some (rdata e 9 (if last && (n =? 7) then 7 - Z.land (Z.shiftr (rbyte e 8) 1) 7 else n), last).
Fixpoint up_loop (fuel : nat) (e : esc_t) (toggle : Z) (acc : list Z) : option (esc_t * list Z) :=
  match fuel with
  | O => None
  | S fuel =>
      let e := post e (seg_req toggle) in
      match up_seg e with
      | None => None
      | Some (d, last) => if last then Some (e, acc ++ d) else up_loop fuel e (Z.lxor toggle 16) (acc ++ d)
      end
  end.
(** The whole upload; four segments are enough for the 512 bytes of a transfer buffer. *)
Definition sdo_upload (e : esc_t) (index sub : Z) (ca : bool) : option (esc_t * list Z) :=
  let e := post e (up_req index sub ca) in
  match up_first e with
  | None => None
  | Some (d, total) => if len d =? total then Some (e, d) else up_loop 4 e 0 d
  end.

Lemma up_req_sdo index sub ca : is_u8 sub -> sdo_request (up_req index sub ca).
Proof.
  intros. unfold sdo_request, up_req, le16. split_and!; try (destruct ca; done || (cbn; lia)).
  repeat (constructor; [destruct ca; auto with ecm|]). constructor.
Qed.
Lemma seg_req_sdo t : t = 0 \/ t = 16 -> sdo_request (seg_req t).
Proof.
  intros [-> | ->]; (split_and!; [done|done| |done..]); repeat (constructor; [auto with ecm|]); constructor.
Qed.
Lemma le16_rd index l : is_u16 index -> rd_le16 (le16 index ++ l) 0 = index.
Proof.
  intros H. unfold rd_le16, le16. change (rd _ 0) with (Z.land index 255). change (rd _ (0 + 1)) with (Z.land (Z.shiftr index 8) 255).
  rewrite !land_255, Z.shiftr_div_pow2 by lia. rewrite lor_shift_add by clia. clia.
Qed.
Lemma up_req_index index sub ca : is_u16 index -> rd_le16 (up_req index sub ca) 9 = index.
Proof. intros. by rewrite <- (le16_rd index [sub; 0; 0; 0; 0]) at 2 by done. Qed.

(** A response: what the client sees of the registers [r] a handler wrote. *)
Lemma slice_memcpy_in r a d : 0 <= a -> a + len d <= len r -> slice (memcpy r a d) a (len d) = d.
Proof.
  intros. pose proof (len_nonneg d). apply rd_ext; rewrite len_slice by (rewrite ?len_memcpy; lia); [done|].
  intros i Hi. rewrite rd_slice by lia. rewrite rd_memcpy_in by lia. f_equal. lia.
Qed.
Lemma slice_ext r r' a n : len r = len r' -> 0 <= a -> 0 <= n -> a + n <= len r ->
  (forall i, a <= i < a + n -> rd r i = rd r' i) -> slice r a n = slice r' a n.
Proof.
  intros Hl ? ? ? H. apply rd_ext; rewrite !len_slice by lia; [done|]. intros i Hi. rewrite !rd_slice by lia. apply H. lia.
Qed.

Section view.
Context (c : Z) (e : esc_t) (Hw : node_wf e).

Lemma view_mbx : mbx_in (finish c e) = mbx_in e.
Proof. apply finish_mbx. Qed.
Lemma view_byte i : 0 <= i < 128 -> i <> 5 -> rbyte (finish c e) i = rd (regs e) (mbx_in e + i).
Proof. intros. destruct Hw as [_ _ ? _ _]. unfold rbyte. rewrite view_mbx. apply finish_rd; lia. Qed.
Lemma view_word i : 0 <= i < 127 -> i <> 5 -> i <> 4 -> rword (finish c e) i = rd_le16 (regs e) (mbx_in e + i).
Proof.
  intros. destruct Hw as [_ _ ? _ _]. unfold rword. rewrite view_mbx. apply rd_le16_ext; apply finish_rd; lia.
Qed.
Lemma view_data i n : 6 <= i -> 0 <= n -> i + n <= 128 -> rdata (finish c e) i n = slice (regs e) (mbx_in e + i) n.
Proof.
  intros. destruct Hw as [Hl _ ? _ _]. unfold rdata. rewrite view_mbx.
  apply slice_ext; try lia; [unfold finish; case_if; cbn; by rewrite !len_wr|unfold finish; case_if; cbn; rewrite !len_wr; lia|].
  intros k Hk. apply finish_rd; lia.
Qed.
Lemma view_dword i : 6 <= i -> i + 4 <= 128 -> rd_le32 (regs (finish c e)) (mbx_in (finish c e) + i) = rd_le32 (regs e) (mbx_in e + i).
Proof.
  intros. destruct Hw as [_ _ ? _ _]. rewrite view_mbx. apply rd_le32_ext. intros k Hk. apply finish_rd; lia.
Qed.
End view.

(** The registers of a response stay well-formed and keep what is outside its 128 bytes. *)
Lemma node_wf_regs e r s : node_wf e -> len r = 8192 -> bytes r -> node_wf (e <| regs := r |> <| coe_session := s |>).
Proof. intros [] ? ?. by constructor. Qed.
Lemma node_wf_regs_only e r : node_wf e -> len r = 8192 -> bytes r -> node_wf (e <| regs := r |>).
Proof. intros [] ? ?. by constructor. Qed.

Lemma wr_le32_rd m a v : 0 <= a -> a + 4 <= len m -> bytes m -> rd_le32 (wr_le32 m a v) a = u32 v.
Proof.
  intros Ha Hl Hb. rewrite rd_le32_add by (by apply bytes_wr_le32). unfold wr_le32.
  mem_simp. rewrite !land_255, !Z.shiftr_div_pow2 by lia. clia.
Qed.

Ltac bytes_tac := repeat first [apply bytes_wr_le32|apply bytes_wr_le16|apply bytes_memcpy|apply bytes_memset|apply bytes_wr|apply bytes_resp_header]; auto with ecm.
Ltac len_tac := autorewrite with memlen; lia.

Section responses.
Context (r : list Z) (o : Z) (Hb : bytes r) (Ho : resp_ok o r).

(** Reading the length and service of a header under later writes. *)
Lemma word_under r' a v : (forall i, a <= i < a + 2 -> rd r' i = rd r i) -> rd_le16 r a = v -> rd_le16 r' a = v.
Proof. intros H <-. apply rd_le16_ext; apply H; lia. Qed.

Lemma abort_resp index sub code : is_u8 sub ->
  let R := coe_send_abort r o index sub code in
  len R = 8192 /\ bytes R /\ rd_le16 R (o + 6) = 8192 /\ rd R (o + 8) = 128 /\ rd_le32 R (o + 12) = u32 code.
Proof.
  intros Hs. destruct Ho as (Ho1 & Ho2 & Hl). cbn zeta. unfold coe_send_abort. split_and!.
  - len_tac.
  - bytes_tac.
  - refine (eq_trans (rd_le16_ext _ _ _ _ _) (resp_header_service r o 10 2 Hb Ho)); mem_simp; done.
  - mem_simp. done.
  - apply wr_le32_rd; [lia|len_tac|bytes_tac].
Qed.
Lemma expedited_resp index sub ca d : is_u8 sub -> bytes d -> 1 <= len d <= 4 ->
  let R := coe_send_upload_expedited r o index sub ca d in
  len R = 8192 /\ bytes R /\ rd_le16 R (o + 6) = 12288
  /\ rd R (o + 8) = Z.lor (Z.lor 67 (Z.shiftl (4 - len d) 2)) (if ca then 16 else 0) /\ slice R (o + 12) (len d) = d.
Proof.
  intros Hs Hd Hn. destruct Ho as (Ho1 & Ho2 & Hl). cbn zeta. unfold coe_send_upload_expedited, memset.
  assert (Hc : is_u8 (Z.lor (Z.lor 67 (Z.shiftl (4 - len d) 2)) (if ca then 16 else 0))).
  { assert (E : len d = 1 \/ len d = 2 \/ len d = 3 \/ len d = 4) by lia. destruct E as [-> | [-> | [-> | ->]]]; destruct ca; split; vm_compute; congruence. }
  split_and!.
  - len_tac.
  - bytes_tac.
  - refine (eq_trans (rd_le16_ext _ _ _ _ _) (resp_header_service r o 10 3 Hb Ho)); mem_simp; done.
  - mem_simp. done.
  - apply slice_memcpy_in; [lia|len_tac].
Qed.
Lemma ack_resp index sub ca : is_u8 sub ->
  let R := coe_send_download_response r o index sub ca in
  len R = 8192 /\ bytes R /\ rd_le16 R (o + 6) = 12288 /\ rd R (o + 8) = Z.lor 96 (if ca then 16 else 0).
Proof.
  intros Hs. destruct Ho as (Ho1 & Ho2 & Hl). cbn zeta. unfold coe_send_download_response, memset. split_and!.
  - len_tac.
  - bytes_tac; destruct ca; auto with ecm.
  - refine (eq_trans (rd_le16_ext _ _ _ _ _) (resp_header_service r o 10 3 Hb Ho)); mem_simp; done.
  - mem_simp. done.
Qed.
Lemma seg_ack_resp toggle : toggle = 0 \/ toggle = 16 ->
  let R := seg_acknowledge r o toggle in
  len R = 8192 /\ bytes R /\ rd_le16 R (o + 6) = 12288 /\ rd R (o + 8) = Z.lor 32 toggle.
Proof.
  intros Ht. destruct Ho as (Ho1 & Ho2 & Hl). cbn zeta. unfold seg_acknowledge, memset. split_and!.
  - len_tac.
  - bytes_tac; destruct Ht as [-> | ->]; auto with ecm.
  - refine (eq_trans (rd_le16_ext _ _ _ _ _) (resp_header_service r o 10 3 Hb Ho)); mem_simp; done.
  - mem_simp. done.
Qed.
(** Headers followed by the data of a normal upload or of a segment. *)
Lemma normal_resp index sub (ca : bool) total d : is_u8 sub -> bytes d -> len d <= 112 ->
  let R := memcpy (wr_le32 (wr (wr_le16 (wr (resp_header r o (u16 (10 + len d)) 3) (o + 8) (Z.lor 65 (if ca then 16 else 0)))
                    (o + 9) index) (o + 11) sub) (o + 12) total) (o + 12 + 4) d in
  len R = 8192 /\ bytes R /\ rd_le16 R (o + 6) = 12288 /\ rd_le16 R o = 10 + len d /\ rd R (o + 8) = Z.lor 65 (if ca then 16 else 0)
  /\ rd_le32 R (o + 12) = u32 total /\ slice R (o + 16) (len d) = d.
Proof.
  intros Hs Hd Hn. destruct Ho as (Ho1 & Ho2 & Hl). pose proof (len_nonneg d). cbn zeta. split_and!.
  - len_tac.
  - bytes_tac; destruct ca; auto with ecm.
  - refine (eq_trans (rd_le16_ext _ _ _ _ _) (resp_header_service r o (u16 (10 + len d)) 3 Hb Ho)); mem_simp; done.
  - transitivity (u16 (u16 (10 + len d))); [|clia]. refine (eq_trans (rd_le16_ext _ _ _ _ _) (resp_header_length r o (u16 (10 + len d)) 3 Hb Ho)); mem_simp; done.
  - mem_simp. done.
  - rewrite <- (wr_le32_rd (wr (wr_le16 (wr (resp_header r o (u16 (10 + len d)) 3) (o + 8) (Z.lor 65 (if ca then 16 else 0))) (o + 9) index) (o + 11) sub) (o + 12) total);
      [|lia|len_tac|bytes_tac; destruct ca; auto with ecm].
    apply rd_le32_ext. intros i Hi. mem_simp. done.
  - replace (o + 16) with (o + 12 + 4) by lia. apply slice_memcpy_in; [lia|len_tac].
Qed.
Lemma segment_resp l cmd pad d : is_u8 cmd -> bytes d -> 0 <= pad <= 119 -> len d <= 119 -> is_u16 l ->
  let R := memcpy (memset (wr (resp_header r o l 3) (o + 8) cmd) (o + 9) 0 pad) (o + 9) d in
  len R = 8192 /\ bytes R /\ rd_le16 R (o + 6) = 12288 /\ rd_le16 R o = l /\ rd R (o + 8) = cmd /\ slice R (o + 9) (len d) = d.
Proof.
  intros Hc Hd Hp Hn Hl16. destruct Ho as (Ho1 & Ho2 & Hl). pose proof (len_nonneg d). cbn zeta. unfold memset. split_and!.
  - len_tac.
  - bytes_tac.
  - refine (eq_trans (rd_le16_ext _ _ _ _ _) (resp_header_service r o l 3 Hb Ho)); mem_simp; done.
  - transitivity (u16 l); [|clia]. refine (eq_trans (rd_le16_ext _ _ _ _ _) (resp_header_length r o l 3 Hb Ho)); mem_simp; done.
  - mem_simp. done.
  - apply slice_memcpy_in; [lia|len_tac].
Qed.
End responses.

(** *** The two steps of an upload *)

Lemma mbx_resp_ok e : node_wf e -> resp_ok (mbx_in e) (regs e).
Proof. by intros [? ? [? ?] _ _]. Qed.
Lemma cmd_expedited (n : Z) (ca : bool) : 1 <= n <= 4 ->
  let c := Z.lor (Z.lor 67 (Z.shiftl (4 - n) 2)) (if ca then 16 else 0) in
  has_bit c 2 = true /\ 4 - Z.land (Z.shiftr c 2) 3 = n.
Proof. intros Hn. assert (E : n = 1 \/ n = 2 \/ n = 3 \/ n = 4) by lia. destruct E as [-> | [-> | [-> | ->]]]; by destruct ca. Qed.
Lemma slice_all d : slice d 0 (len d) = d.
Proof. unfold slice, len. rewrite drop_0, Nat2Z.id. by apply take_ge. Qed.

(** What the client reads from the response a handler left in [y]. *)
Lemma see_expedited c y (ca : bool) d : node_wf y -> 1 <= len d <= 4 -> rd_le16 (regs y) (mbx_in y + 6) = 12288 ->
  rd (regs y) (mbx_in y + 8) = Z.lor (Z.lor 67 (Z.shiftl (4 - len d) 2)) (if ca then 16 else 0) ->
  slice (regs y) (mbx_in y + 12) (len d) = d -> up_first (finish c y) = Some (d, len d).
Proof.
  intros Hw Hn Hs Hc Hd. destruct (cmd_expedited (len d) ca Hn) as [H1 H2].
  unfold up_first, rservice. rewrite view_word, view_byte by (done || lia). rewrite Hs, Hc, H1, H2. cbn [negb Z.eqb].
  change (Z.shiftr 12288 12 =? 3) with true. cbn [negb]. by rewrite view_data, Hd by (done || lia).
Qed.
Lemma see_normal c y (ca : bool) total d : node_wf y -> len d <= 112 -> is_u32 total -> rd_le16 (regs y) (mbx_in y + 6) = 12288 ->
  rd_le16 (regs y) (mbx_in y) = 10 + len d -> rd (regs y) (mbx_in y + 8) = Z.lor 65 (if ca then 16 else 0) ->
  rd_le32 (regs y) (mbx_in y + 12) = u32 total -> slice (regs y) (mbx_in y + 16) (len d) = d ->
  up_first (finish c y) = Some (d, total).
Proof.
  intros Hw Hn Ht Hs Hl Hc Htot Hd. pose proof (len_nonneg d). unfold up_first, rservice.
  rewrite !view_word, view_byte, view_dword by (done || lia). rewrite Hs, Hc, Z.add_0_r, Hl, Htot.
  change (Z.shiftr 12288 12 =? 3) with true. replace (has_bit (Z.lor 65 (if ca then 16 else 0)) 2) with false by (by destruct ca).
  cbn [negb]. replace (10 + len d - 10) with (len d) by lia. rewrite view_data, Hd by (done || lia). do 2 f_equal. clia.
Qed.
(** Length and command byte of a segment of [n] bytes. *)
Definition seg_length (n : Z) (last : bool) : Z := if last && (n <? 7) then 10 else u16 (n + 3).
Lemma seg_bytes n last t : 0 <= n <= 119 -> t = 0 \/ t = 16 ->
  has_bit (seg_command n last t) 1 = last /\ is_u8 (seg_command n last t)
  /\ (if last && (seg_length n last - 3 =? 7) then 7 - Z.land (Z.shiftr (seg_command n last t) 1) 7 else seg_length n last - 3) = n.
Proof.
  intros Hn Ht. unfold seg_command, seg_length. destruct last; cbn [andb].
  - destruct (Z.ltb_spec n 7).
    + assert (E : n = 0 \/ n = 1 \/ n = 2 \/ n = 3 \/ n = 4 \/ n = 5 \/ n = 6) by lia.
      destruct E as [-> | [-> | [-> | [-> | [-> | [-> | ->]]]]]]; destruct Ht as [-> | ->]; done.
    + replace (u16 (n + 3)) with (n + 3) by clia. destruct (Z.eqb_spec (n + 3 - 3) 7).
      * assert (n = 7) as -> by lia. by destruct Ht as [-> | ->].
      * split_and!; [by destruct Ht as [-> | ->]|apply u8_range|lia].
  - replace (u16 (n + 3)) with (n + 3) by clia. split_and!; [by destruct Ht as [-> | ->]|apply u8_range|lia].
Qed.
Lemma see_segment c y last t d : node_wf y -> t = 0 \/ t = 16 -> len d <= 119 -> rd_le16 (regs y) (mbx_in y + 6) = 12288 ->
  rd_le16 (regs y) (mbx_in y) = seg_length (len d) last -> rd (regs y) (mbx_in y + 8) = seg_command (len d) last t ->
  slice (regs y) (mbx_in y + 9) (len d) = d -> up_seg (finish c y) = Some (d, last).
Proof.
  intros Hw Ht Hn Hs Hl Hc Hd. pose proof (len_nonneg d). destruct (seg_bytes (len d) last t ltac:(lia) Ht) as (H1 & _ & H3).
  unfold up_seg, rservice. rewrite !view_word, view_byte by (done || lia). rewrite Hs, Hc, Z.add_0_r, Hl, H1, H3.
  change (Z.shiftr 12288 12 =? 3) with true. cbn [negb]. by rewrite view_data, Hd by (done || lia).
Qed.

Section upload.
Context (index sub : Z) (ca : bool) (d : list Z).
Context (Hi : is_u16 index) (Hs : is_u8 sub) (Hd : bytes d) (Hdl : len d <= 512).

Definition upload_session (s : coe_session_t) (k t : Z) : Prop :=
  s_active s = true /\ is_upload s = true /\ s_index s = index /\ s_subindex s = sub /\ total_size s = len d /\ s_done s = k
  /\ expected_toggle s = t /\ is_ca s = ca.

Lemma start_upload_view c x : node_wf x ->
  let e1 := finish c (coe_start_upload_normal x (mbx_in x) index sub ca d) in
  node_wf e1 /\ dict e1 = dict x /\ up_first e1 = Some (if 112 <? len d then slice d 0 112 else d, len d)
  /\ (112 < len d -> upload_session (coe_session e1) 112 0).
Proof.
  intros Hx. pose proof (len_nonneg d). set (n := if 112 <? len d then 112 else len d).
  assert (Hn : 0 <= n <= 112) by (unfold n; case_if; bprop; lia).
  assert (Hpart : slice d 0 n = if 112 <? len d then slice d 0 112 else d) by (unfold n; case_if; [done|apply slice_all]).
  assert (Hnn : n = Z.min 112 (len d)) by (unfold n; case_if; bprop; lia).
  assert (Hnl : len (slice d 0 n) = n) by (apply len_slice; lia).
  pose proof (normal_resp (regs x) (mbx_in x) (nw_bytes _ Hx) (mbx_resp_ok _ Hx) index sub ca (len d) (slice d 0 n) Hs
    (bytes_slice _ _ _ Hd) ltac:(lia)) as Hr. cbn zeta in Hr. rewrite Hnl in Hr. destruct Hr as (Hl & Hb & Hsv & Hln & Hc & Ht & Hda).
  assert (Hw1 : node_wf (coe_start_upload_normal x (mbx_in x) index sub ca d)) by (apply node_wf_regs; [done|exact Hl|exact Hb]).
  cbn zeta. rewrite finish_dict, finish_session. split_and!; [by apply finish_wf|done| |].
  - rewrite <- Hpart. apply (see_normal c _ ca); rewrite ?Hnl; [done|lia|unfold_c; lia|exact Hsv|exact Hln|exact Hc|exact Ht|exact Hda].
  - intros Hlong. unfold coe_start_upload_normal, upload_session. cbn. destruct (Z.ltb_spec 112 (len d)); [done|lia].
Qed.
Lemma upload_first e : node_wf e -> (ca = true -> coe_ca e = true) -> od_upload_value e index sub ca = Some (inr d) ->
  let e1 := post e (up_req index sub ca) in
  node_wf e1 /\ dict e1 = dict e /\ up_first e1 = Some (if 112 <? len d then slice d 0 112 else d, len d)
  /\ (112 < len d -> upload_session (coe_session e1) 112 0).
Proof.
  intros Hw Hca Hv. cbn zeta. rewrite post_handler by auto using up_req_sdo.
  set (x := load e (up_req index sub ca)). assert (Hx : node_wf x) by (apply load_wf; [done|apply up_req_sdo, Hs]).
  assert (Hh : handler x (up_req index sub ca) = coe_handle_upload_request x (mbx_in x) index sub ca).
  { unfold handler. rewrite up_req_index by done. change (rd (up_req index sub ca) 8) with (if ca then 80 else 64).
    change (rd (up_req index sub ca) 11) with sub. change (coe_ca x) with (coe_ca e). destruct ca; [by rewrite Hca|done]. }
  rewrite Hh. unfold coe_handle_upload_request. rewrite (od_upload_value_dict x e eq_refl), Hv.
  change (dict e) with (dict x).
  destruct (Z.leb_spec 1 (len d)); [destruct (Z.leb_spec (len d) 4)|]; cbn [andb]; [|by apply start_upload_view..].
  destruct (expedited_resp (regs x) (mbx_in x) (nw_bytes _ Hx) (mbx_resp_ok _ Hx) index sub ca d Hs Hd ltac:(lia)) as (Hl & Hb & Hsv & Hc & Hda).
  assert (Hw1 : node_wf (end_session (x <| regs ::= fun r => coe_send_upload_expedited r (mbx_in x) index sub ca d |>)))
    by (destruct Hx; by constructor).
  split_and!; [by apply finish_wf|by rewrite finish_dict| |lia].
  destruct (Z.ltb_spec 112 (len d)); [lia|]. apply (see_expedited _ _ ca); [done|lia|exact Hsv|exact Hc|exact Hda].
Qed.
Lemma upload_next e k t : node_wf e -> t = 0 \/ t = 16 -> upload_session (coe_session e) k t -> 0 <= k <= len d ->
  od_upload_value e index sub ca = Some (inr d) ->
  let e1 := post e (seg_req t) in
  let last := negb (119 <? len d - k) in
  node_wf e1 /\ dict e1 = dict e /\ up_seg e1 = Some (slice d k (if last then len d - k else 119), last)
  /\ (last = false -> upload_session (coe_session e1) (k + 119) (Z.lxor t 16)).
Proof.
  intros Hw Ht (S1 & S2 & S3 & S4 & S5 & S6 & S7 & S8) Hk Hv. cbn zeta. rewrite post_handler by auto using seg_req_sdo.
  set (x := load e (seg_req t)). assert (Hx : node_wf x) by (apply load_wf; [done|apply seg_req_sdo, Ht]).
  assert (Hh : handler x (seg_req t) = coe_handle_upload_segment x (mbx_in x) (96 + t)) by (by destruct Ht as [-> | ->]).
  rewrite Hh. unfold coe_handle_upload_segment. change (coe_session x) with (coe_session e).
  rewrite S1, S2, S3, S4, S5, S6, S7, S8, (od_upload_value_dict x e eq_refl), Hv.
  replace (Z.land (96 + t) 16) with t by (by destruct Ht as [-> | ->]). rewrite !Z.eqb_refl. cbn [negb orb].
  destruct (Z.ltb_spec (len d) k); [lia|]. set (last := negb (119 <? len d - k)).
  set (n := if last then len d - k else 119).
  assert (Hn : 0 <= n <= 119 /\ k + n <= len d) by (unfold n, last; destruct (Z.ltb_spec 119 (len d - k)); cbn; lia).
  assert (Hnl : len (slice d k n) = n) by (apply len_slice; lia).
  destruct (seg_bytes n last t ltac:(lia) Ht) as (_ & Hcu & _).
  pose proof (segment_resp (regs x) (mbx_in x) (nw_bytes _ Hx) (mbx_resp_ok _ Hx) (seg_length n last) (seg_command n last t)
    (if last && (n <? 7) then 7 else n) (slice d k n) Hcu (bytes_slice _ _ _ Hd)
    ltac:(destruct (last && (n <? 7)); lia) ltac:(lia) ltac:(unfold seg_length; case_if; [unfold_c; lia|apply u16_range])) as Hr.
  cbn zeta in Hr. rewrite Hnl in Hr. destruct Hr as (Hl & Hb & Hsv & Hln & Hc & Hda).
  rewrite finish_dict, finish_session. split_and!; [apply finish_wf, node_wf_regs; [done|exact Hl|exact Hb]|done| |].
  - apply (see_segment _ _ _ t); rewrite ?Hnl; [apply node_wf_regs; [done|exact Hl|exact Hb]|done|lia|exact Hsv|exact Hln|exact Hc|exact Hda].
  - intros Hlast. unfold upload_session. cbn. unfold n. rewrite Hlast, S2, S3, S4, S5, S6, S7, S8. done.
Qed.
Lemma slice_extend k n : 0 <= k -> 0 <= n -> slice d 0 k ++ slice d k n = slice d 0 (k + n).
Proof.
  intros. unfold slice. rewrite !drop_0, Z2Nat.inj_add by lia. apply take_take_drop.
Qed.
Lemma upload_rest fuel e k t : node_wf e -> t = 0 \/ t = 16 -> upload_session (coe_session e) k t -> 0 <= k <= len d ->
  od_upload_value e index sub ca = Some (inr d) -> len d - k <= 119 * Z.of_nat fuel -> (0 < fuel)%nat ->
  exists e', up_loop fuel e t (slice d 0 k) = Some (e', d) /\ node_wf e' /\ dict e' = dict e.
Proof.
  revert e k t. induction fuel as [|fuel IH]; intros e k t Hw Ht Hse Hk Hv Hf H0; [lia|].
  destruct (upload_next e k t Hw Ht Hse Hk Hv) as (Hw1 & Hd1 & Hup & Hn). cbn [up_loop]. rewrite Hup.
  destruct (Z.ltb_spec 119 (len d - k)); cbn [negb].
  - assert (Ht' : Z.lxor t 16 = 0 \/ Z.lxor t 16 = 16) by (destruct Ht as [-> | ->]; auto). rewrite slice_extend by lia.
    destruct (IH (post e (seg_req t)) (k + 119) (Z.lxor t 16)) as (e' & Hr & Hw' & Hd'); auto; try lia.
    + by rewrite (od_upload_value_dict _ e).
    + exists e'. split_and!; [done|done|congruence].
  - rewrite slice_extend by lia. replace (k + (len d - k)) with (len d) by lia. rewrite slice_all. eauto.
Qed.
End upload.

(** ** Well-formed dictionaries *)

Record prof_wf (p : esc_profile_t) (st : esc_prof_state) : Prop := {
  pw_val : Forall (fun v => bytes v /\ len v = 64) (val st);
  pw_n : length (val st) = length (p_sub p);
  pw_bits : Forall (fun s => 1 <= ps_bits s <= 512 /\ ps_len s = (ps_bits s + 7) / 8) (p_sub p);
  pw_obj : Forall (fun o => 0 <= po_first o /\ po_first o + po_n o <= Z.of_nat (length (p_sub p)) /\ 0 <= po_max_sub o < 255) (p_obj p)
}.
Record dict_wf (e : esc_t) : Prop := {
  dw_octet : bytes (octet_rw (coe_od e)) /\ len (octet_rw (coe_od e)) = 400;
  dw_olen : 1 <= octet_rw_len (coe_od e) <= 400;
  dw_blob : bytes (segtest_blob (coe_od e)) /\ len (segtest_blob (coe_od e)) = 200;
  dw_assign : bytes (pdo_assign_n (coe_od e));
  dw_nlen : len (pdo_assign_n (coe_od e)) = 2;
  dw_ilen : len (pdo_assign_idx (coe_od e)) = 2;
  dw_prof : forall p, prof e = Some p -> prof_wf p (prof_st e)
}.

Lemma prof_sub_range p st index sub g : prof_wf p st -> esc_prof_sub p index sub = Some g -> 0 <= g < Z.of_nat (length (p_sub p)).
Proof.
  intros [_ _ _ Ho] H. unfold esc_prof_sub in H. destruct (esc_prof_obj p index) as [o|] eqn:E; [|done].
  unfold esc_prof_obj in E. apply fmap_Some in E as ([i x] & E & ->). apply list_find_Some in E as (E & _ & _). cbn in H.
  apply fmap_Some in H as ([j k] & H & ->). apply list_find_Some in H as (H & _ & _). apply lookup_seqZ in H as [Hg Hj]. cbn in *.
  pose proof (Forall_lookup_1 _ _ _ _ Ho E). cbn in *. lia.
Qed.
Lemma prof_value_wf p st g : prof_wf p st -> 0 <= g < Z.of_nat (length (p_sub p)) ->
  bytes (esc_prof_value st g) /\ len (esc_prof_value st g) = 64
  /\ 1 <= ps_bits (psub_at p g) <= 512 /\ ps_len (psub_at p g) = (ps_bits (psub_at p g) + 7) / 8.
Proof.
  intros [Hv Hn Hb _] Hg. unfold esc_prof_value, psub_at.
  destruct (lookup_lt_is_Some_2 (val st) (Z.to_nat g) ltac:(lia)) as [v E]. destruct (lookup_lt_is_Some_2 (p_sub p) (Z.to_nat g) ltac:(lia)) as [s E'].
  rewrite E, E'. cbn. pose proof (Forall_lookup_1 _ _ _ _ Hv E) as [? ?]. pose proof (Forall_lookup_1 _ _ _ _ Hb E') as [? ?]. done.
Qed.
Lemma bytes_le32 v : bytes (le32 v).
Proof. repeat (constructor; [apply is_u8_land|]). constructor. Qed.
Lemma bytes_le16 v : bytes (le16 v).
Proof. repeat (constructor; [apply is_u8_land|]). constructor. Qed.
Lemma bytes_single v : is_u8 v -> bytes [v].
Proof. intros. by constructor. Qed.
#[export] Hint Resolve bytes_le32 bytes_le16 bytes_single : ecm.

(** The value of an entry: bytes, of the size the entry declares. *)
Lemma od_read_bytes e i s : dict_wf e -> is_u8 s -> bytes (od_read e i s) /\ len (od_read e i s) <= 400.
Proof.
  intros [[Ho1 Ho2] Ho3 [Hb1 Hb2] Ha _ _ Hp] Hs. unfold od_read. destruct (prof e) as [p|] eqn:E.
  - destruct (esc_prof_sub p i s) as [g|] eqn:Eg; [|split; [apply List.Forall_nil|done]]. specialize (Hp p eq_refl).
    destruct (prof_value_wf p _ g Hp (prof_sub_range _ _ _ _ _ Hp Eg)) as (V1 & V2 & V3 & V4).
    split; [by apply bytes_slice|]. rewrite len_slice by (rewrite ?V4; Z.to_euclidean_division_equations; lia).
    rewrite V4. Z.to_euclidean_division_equations; lia.
  - assert (Hc : is_u8 (pdo_entry_count e)) by apply u8_range.
    repeat case_if; (split; [auto using bytes_slice with ecm|]); try (unfold le16, le32, len; cbn [length]; lia); rewrite len_slice; lia.
Qed.
Lemma od_read_len e i s en : dict_wf e -> od_entry e i s = Some en -> len (od_read e i s) = entry_bytes en.
Proof.
  intros [[Ho1 Ho2] Ho3 [Hb1 Hb2] Ha _ _ Hp]. unfold od_read, od_entry, entry_bytes. destruct (prof e) as [p|] eqn:E.
  - destruct (esc_prof_sub p i s) as [g|] eqn:Eg; [|done]. intros [= <-]. cbn. specialize (Hp p eq_refl).
    destruct (prof_value_wf p _ g Hp (prof_sub_range _ _ _ _ _ Hp Eg)) as (V1 & V2 & V3 & V4).
    rewrite len_slice by (rewrite ?V4; Z.to_euclidean_division_equations; lia). done.
  - destruct (od_object e i) as [[c m]|] eqn:Eo; [|done]. destruct (m <? s); [done|]. unfold od_object in Eo. rewrite E in Eo.
    intros H. repeat case_if_in Eo; try discriminate Eo; injection Eo as <- <-; bprop; subst; cbn in H.
    all: try (destruct (Z.eqb_spec s 0) as [->|]; cbn in *).
    all: repeat match type of H with context [if ?b then _ else _] => destruct b eqn:?; bprop; try lia end.
    all: try discriminate H; injection H as <-; cbn. all: try done.
    all: rewrite len_slice by lia; clia.
Qed.

(** Complete Access never exceeds the transfer buffer. *)
Lemma ca_read_loop_bytes e i subs out d : dict_wf e -> Forall is_u8 subs -> bytes out -> len out <= 512 ->
  ca_read_loop e i subs out = inr d -> bytes d /\ len d <= 512.
Proof.
  intros Hw. revert out. induction subs as [|s subs IH]; intros out Hs Hb Hl; cbn [ca_read_loop]; [by intros [= <-]|].
  apply Forall_cons_1 in Hs as [Hs Hs']. destruct (od_entry e i s) as [en|] eqn:E; [|by apply IH].
  destruct (Z.ltb_spec 512 (len out + entry_bytes en)); [done|]. apply IH; [done|apply bytes_app; [done|by apply od_read_bytes]|].
  rewrite len_app, (od_read_len _ _ _ _ Hw E). lia.
Qed.
Lemma od_object_max e i c m : dict_wf e -> od_object e i = Some (c, m) -> 0 <= m <= 255.
Proof.
  intros [_ _ _ _ _ _ Hp]. unfold od_object. destruct (prof e) as [p|].
  - destruct (esc_prof_obj p i) as [o|] eqn:E; [|done]. intros [= <- <-]. case_if; [lia|]. unfold esc_prof_obj in E.
    apply fmap_Some in E as ([k x] & E & ->). apply list_find_Some in E as (E & _ & _).
    pose proof (Forall_lookup_1 _ _ _ _ (pw_obj _ _ (Hp p eq_refl)) E). cbn in *. lia.
  - intros H. assert (Hc : is_u8 (pdo_entry_count e)) by apply u8_range. unfold is_u8 in Hc.
    repeat case_if_in H; try discriminate H; injection H as _ <-; lia.
Qed.
Lemma upload_value_bytes e i s ca d : dict_wf e -> is_u8 s -> od_upload_value e i s ca = Some (inr d) -> bytes d /\ len d <= 512.
Proof.
  intros Hw Hs. unfold od_upload_value, od_ca_read.
  assert (Hr : forall k x, is_u8 k -> Some (inr (od_read e i k)) = Some (inr x) :> option (Z + list Z) -> bytes x /\ len x <= 512).
  { intros k x Hk [= <-]. destruct (od_read_bytes e i k Hw Hk). split; [done|lia]. }
  destruct ca; destruct (od_object e i) as [[c m]|] eqn:Eo; try done.
  - case_if; [done|]. case_if.
    + case_if; [done|]. destruct (od_entry e i 0); [case_if; [done|]|done]; apply Hr; auto with ecm.
    + pose proof (od_object_max _ _ _ _ Hw Eo). destruct (od_read_bytes e i 0 Hw ltac:(auto with ecm)) as [Hb _].
      destruct (od_read e i 0) as [|b [|b' l]]; try done. apply Forall_cons_1 in Hb as [Hb _]. unfold is_u8 in Hb.
      set (n := if m <? b then m else b). assert (Hn : 0 <= n <= 255) by (unfold n; case_if; lia). cbv zeta.
      case_if; [|destruct (ca_read_loop e i u8_rounds _); done]. intros [= H']. revert H'. apply ca_read_loop_bytes; [done| | |].
      * apply Forall_forall. intros x Hx%list_elem_of_In%elem_of_seqZ. unfold is_u8. lia.
      * case_if; auto with ecm. repeat (constructor; [unfold is_u8; lia|]). constructor.
      * case_if; unfold len; cbn [length]; lia.
  - destruct (od_entry e i s); [|done]. by apply Hr.
Qed.
Lemma upload_abort_code e i s ca a : od_upload_value e i s ca = Some (inl a) -> is_u32 a.
Proof.
  assert (Hc : forall subs out, ca_read_loop e i subs out = inl a -> is_u32 a).
  { induction subs as [|x subs IH]; intros out; cbn [ca_read_loop]; [done|]. destruct (od_entry e i x); [|apply IH].
    case_if; [|apply IH]. intros [= <-]. unfold is_u32. lia. }
  unfold od_upload_value, od_ca_read. intros H.
  assert (Hk : forall k, Some (inl k) = Some (inl a) :> option (Z + list Z) -> is_u32 k -> is_u32 a) by congruence.
  destruct (od_object e i) as [[c m]|]; [|destruct ca; apply (Hk _ H); unfold is_u32; lia].
  destruct ca; [|destruct (od_entry e i s); [done|apply (Hk _ H); unfold is_u32; lia]].
  case_if_in H; [apply (Hk _ H); unfold is_u32; lia|]. case_if_in H.
  - case_if_in H; [apply (Hk _ H); unfold is_u32; lia|].
    destruct (od_entry e i 0); [case_if_in H; [apply (Hk _ H); unfold is_u32; lia|]|]; done.
  - destruct (od_read e i 0) as [|b [|b' l]]; try done. cbv zeta in H. destruct (_ <? 255).
    + injection H as H. by eapply Hc.
    + destruct (ca_read_loop e i u8_rounds _) eqn:El; [|done]. injection H as ->. by eapply Hc.
Qed.

(** ** Uploads are reads of the dictionary *)

(** The server answered with an SDO abort. *)
Definition aborted (e : esc_t) (code : Z) : Prop :=
  rservice e = 2 /\ rbyte e 8 = 128 /\ rd_le32 (regs e) (mbx_in e + 12) = code.
Lemma see_abort c y : node_wf y -> forall index sub code, is_u8 sub -> is_u32 code ->
  aborted (finish c (abort_with y (mbx_in y) index sub code)) code /\ node_wf (finish c (abort_with y (mbx_in y) index sub code)).
Proof.
  intros Hy index sub code Hs Hc.
  destruct (abort_resp (regs y) (mbx_in y) (nw_bytes _ Hy) (mbx_resp_ok _ Hy) index sub code Hs) as (Hl & Hb & Hsv & H8 & H12).
  assert (Hw : node_wf (abort_with y (mbx_in y) index sub code)) by (apply node_wf_regs_only; [done|exact Hl|exact Hb]).
  split; [|by apply finish_wf]. unfold aborted, rservice. rewrite view_word, view_byte, view_dword by (done || lia). split_and!.
  - refine (eq_trans (f_equal (fun v => Z.shiftr v 12) Hsv) _). done.
  - exact H8.
  - refine (eq_trans H12 _). clia.
Qed.

Lemma upload_exact e index sub ca :
  node_wf e -> dict_wf e -> is_u16 index -> is_u8 sub -> (ca = true -> coe_ca e = true) ->
  match od_upload_value e index sub ca with
  | Some (inr d) => exists e', sdo_upload e index sub ca = Some (e', d) /\ node_wf e' /\ dict e' = dict e
  | Some (inl code) => sdo_upload e index sub ca = None /\ aborted (post e (up_req index sub ca)) code
                /\ dict (post e (up_req index sub ca)) = dict e
  | None => undef (post e (up_req index sub ca)) = true
  end.
Proof.
  intros Hw Hd Hi Hs Hca. set (x := load e (up_req index sub ca)). assert (Hx : node_wf x) by (apply load_wf; [done|apply up_req_sdo, Hs]).
  assert (Hh' : handler x (up_req index sub ca) = coe_handle_upload_request x (mbx_in x) index sub ca).
  { unfold handler. rewrite up_req_index by done. change (rd (up_req index sub ca) 8) with (if ca then 80 else 64).
    change (rd (up_req index sub ca) 11) with sub. change (coe_ca x) with (coe_ca e). destruct ca; [by rewrite Hca|done]. }
  destruct (od_upload_value e index sub ca) as [[code|d]|] eqn:Hv.
  - pose proof (upload_abort_code _ _ _ _ _ Hv) as Hc. rewrite post_handler by auto using up_req_sdo. unfold sdo_upload.
    rewrite post_handler by auto using up_req_sdo. fold x.
    assert (Hh : handler x (up_req index sub ca) = end_session (abort_with x (mbx_in x) index sub code)).
    { rewrite Hh'. unfold coe_handle_upload_request. by rewrite (od_upload_value_dict x e eq_refl), Hv. }
    rewrite Hh. change (end_session (abort_with x (mbx_in x) index sub code))
      with (abort_with (end_session x) (mbx_in (end_session x)) index sub code).
    assert (Hx' : node_wf (end_session x)) by (destruct Hx; by constructor).
    destruct (see_abort (rd (up_req index sub ca) 8) _ Hx' index sub code Hs Hc) as [Ha _].
    split_and!; [|done|by rewrite finish_dict]. unfold up_first. destruct Ha as (-> & _). done.
  - destruct (upload_value_bytes _ _ _ _ _ Hd Hs Hv) as [Hb Hl].
    destruct (upload_first index sub ca d Hi Hs Hb Hl e Hw Hca Hv) as (Hw1 & Hd1 & Hf & Hse). unfold sdo_upload. rewrite Hf.
    destruct (Z.ltb_spec 112 (len d)).
    + rewrite len_slice by lia. destruct (Z.eqb_spec 112 (len d)); [lia|].
      destruct (upload_rest index sub ca d Hb 4 (post e (up_req index sub ca)) 112 0) as (e' & Hr & Hw' & Hd'); auto; try lia.
      { by rewrite (od_upload_value_dict _ e). }
      exists e'. split_and!; [done|done|congruence].
    + rewrite Z.eqb_refl. eauto.
  - rewrite post_handler by auto using up_req_sdo. fold x. rewrite Hh'. unfold coe_handle_upload_request.
    rewrite (od_upload_value_dict x e eq_refl), Hv. apply finish_undef.
Qed.

(** ** Downloads do not depend on the mailbox *)

(** What a download may depend on and change. *)
Definition dview (e : esc_t) := (dict e, al_state e).

Lemma dview_dict e e' : dview e = dview e' -> dict e = dict e' /\ al_state e = al_state e'.
Proof. intros H. split; [exact (f_equal fst H)|exact (f_equal snd H)]. Qed.
Lemma od_commit_view e e' i s d : dview e = dview e' -> dview (od_commit e i s d) = dview (od_commit e' i s d).
Proof.
  intros [Hd Ha]%dview_dict. unfold dview, od_commit. destruct (dict_rest e e' Hd) as (Hp & Hst & Hpo & Hsz).
  destruct (dict_od e e' Hd) as (Hkp & Hki & Hkd & Hsb & Hor & Hol & Han & Hai). rewrite <- Hp. destruct (prof e) as [p|] eqn:Ep.
  - destruct (esc_prof_sub p i s) as [g|]; [|by rewrite Hd, Ha]. unfold dict, al_state, reg in *. cbn in *. by rewrite Ep, <- Hp, Hst, Hpo, Hsz, Hkp, Hki, Hkd, Hsb, Hor, Hol, Han, Hai, Ha.
  - repeat case_if; unfold dict, al_state, reg in *; cbn in *; by rewrite ?Ep, <- ?Hp, ?Hst, ?Hpo, ?Hsz, ?Hkp, ?Hki, ?Hkd, ?Hsb, ?Hor, ?Hol, ?Han, ?Hai, ?Ha.
Qed.
(** Results of two runs agree: same code, same view. *)
Definition agree (x y : esc_t * Z) : Prop := dview x.1 = dview y.1 /\ x.2 = y.2.
Lemma ca_store_view e e' i s d c : dview e = dview e' -> agree (ca_store e i s d c) (ca_store e' i s d c).
Proof.
  intros H. pose proof H as [Hd Ha]%dview_dict. unfold ca_store. rewrite (od_check_write_dict e e' Hd) by done.
  case_if; [done|]. destruct c; [split; [by apply od_commit_view|done]|done].
Qed.
Lemma ca_full_dict e e' i subs n : dict e = dict e' -> ca_full e i subs n = ca_full e' i subs n.
Proof.
  intros H. revert n. induction subs as [|s subs IH]; intros n; cbn [ca_full]; [done|]. by rewrite (od_entry_dict e e' H), IH.
Qed.
Lemma ca_write_loop_view e e' i subs d pos wr_ c : dview e = dview e' ->
  agree (ca_write_loop e i subs d pos wr_ c) (ca_write_loop e' i subs d pos wr_ c).
Proof.
  revert e e' pos wr_. induction subs as [|s subs IH]; intros e e' pos wr_ H; cbn [ca_write_loop]; [done|].
  pose proof H as [Hd Ha]%dview_dict. rewrite (od_entry_dict e e' Hd). case_if; [done|]. destruct (od_entry e' i s) as [en|]; [|by apply IH].
  case_if; [done|]. case_if; [by apply IH|]. pose proof (ca_store_view e e' i s (slice d pos (entry_bytes en)) c H) as [V1 V2].
  destruct (ca_store e _ _ _ _) as [x a], (ca_store e' _ _ _ _) as [y b]. cbn in V1, V2. subst b. case_if; [done|by apply IH].
Qed.
Lemma last_entry_dict e e' i subs : dict e = dict e' -> last_entry e i subs = last_entry e' i subs.
Proof.
  intros H. unfold last_entry. generalize (None : option od_entry_t). induction subs as [|s subs IH]; intros o; cbn [foldl]; [done|].
  by rewrite (od_entry_dict e e' H), IH.
Qed.
Lemma no_result_agree e e' : dview e = dview e' -> agree (no_result e, 0) (no_result e', 0).
Proof. done. Qed.
Lemma od_ca_write_view e e' i s d c : dview e = dview e' -> agree (od_ca_write e i s d c) (od_ca_write e' i s d c).
Proof.
  intros H. pose proof H as [Hd Ha]%dview_dict. unfold od_ca_write. rewrite (od_object_dict e e' Hd).
  destruct (od_object e' i) as [[oc m]|]; [|done]. rewrite (od_entry_dict e e' Hd), (ca_full_dict e e' _ _ _ Hd), (last_entry_dict e e' _ _ Hd).
  case_if; [done|]. case_if.
  { case_if; [done|]. destruct (od_entry e' i 0); [|by apply no_result_agree]. case_if; [done|by apply ca_store_view]. }
  case_if; [by apply no_result_agree|]. destruct (_ <? len d); [done|]. case_if; [|by apply ca_write_loop_view]. case_if; [done|].
  destruct (match od_entry e' i 0 with Some en => _ | None => _ end); [|by apply no_result_agree]. case_if; [by apply ca_write_loop_view|].
  pose proof (ca_store_view e e' i 0 (slice d 0 1) c H) as [V1 V2].
  destruct (ca_store e _ _ _ _) as [x a], (ca_store e' _ _ _ _) as [y b]; cbn in V1, V2; subst b.
  case_if; [done|by apply ca_write_loop_view].
Qed.
Lemma set_bypass_view e e' b : dview e = dview e' -> dview (set_bypass e b) = dview (set_bypass e' b).
Proof.
  intros [Hd Ha]%dview_dict. destruct (dict_rest e e' Hd) as (Hp & Hst & Hpo & Hsz). unfold set_bypass. rewrite <- Hp.
  destruct (prof e) eqn:Ep; [|unfold dview; congruence]. unfold dview, dict, al_state, reg in *. cbn in *. rewrite Ep, <- Hp, Hst, Hpo, Hsz, Ha.
  by injection Hd as _ _ _ _ -> -> -> -> -> -> -> ->.
Qed.
Lemma od_download_view e e' i s ca d : dview e = dview e' -> agree (od_download e i s ca d) (od_download e' i s ca d).
Proof.
  intros H. pose proof H as [Hd Ha]%dview_dict. destruct (dict_rest e e' Hd) as (Hp & Hst & Hpo & Hsz). unfold od_download. destruct ca.
  - rewrite <- Hp, Hst. match goal with |- context [match ?o with Some a => _ | None => _ end] => destruct o as [a0|] end; [|by apply no_result_agree].
    case_if; [done|]. pose proof (od_ca_write_view _ _ i s d false (set_bypass_view e e' true H)) as [V1 V2].
    destruct (od_ca_write (set_bypass e true) _ _ _ _) as [x a], (od_ca_write (set_bypass e' true) _ _ _ _) as [y b]. cbn in V1, V2. subst b.
    split; [|done]. cbn. apply set_bypass_view. case_if; [|done]. by apply od_ca_write_view.
  - rewrite (od_check_write_dict e e' Hd) by done. split; [|done]. cbn. case_if; [by apply od_commit_view|done].
Qed.

(** ** A refused download changes nothing *)

Lemma ca_store_dry e i s d : (ca_store e i s d false).1 = e.
Proof. unfold ca_store. by case_if. Qed.
Lemma ca_write_loop_dry e i subs d pos wr_ : (ca_write_loop e i subs d pos wr_ false).1 = e.
Proof.
  revert pos wr_. induction subs as [|s subs IH]; intros pos wr_; cbn [ca_write_loop]; [done|]. case_if; [done|].
  destruct (od_entry e i s) as [en|]; [|apply IH]. case_if; [done|]. case_if; [apply IH|].
  pose proof (ca_store_dry e i s (slice d pos (entry_bytes en))) as Hs. destruct (ca_store _ _ _ _ _) as [x a]. cbn in Hs. subst x. by case_if.
Qed.
(** The dictionary gives every Complete Access a result: every object has an SI0, of one
    byte in an ARRAY or RECORD, no subindex 255, and a profile has both assignment objects. *)
Record ca_wf (e : esc_t) : Prop := {
  cw_obj : forall i c m, od_object e i = Some (c, m) -> m < 255 /\ exists en, od_entry e i 0 = Some en /\ (c <> OBJ_VAR -> len (od_read e i 0) = 1);
  cw_assign : forall p i, prof e = Some p -> is_assign i = true -> esc_prof_obj p i <> None
}.
Lemma od_ca_write_dry e i s d : ca_wf e -> (od_ca_write e i s d false).1 = e.
Proof.
  intros W. unfold od_ca_write. destruct (od_object e i) as [[oc m]|] eqn:Eo; [|done]. destruct (cw_obj _ W _ _ _ Eo) as (Hm & en & -> & _).
  rewrite (proj2 (Z.leb_gt 255 m)) by done.
  repeat case_if; try first [done|apply ca_store_dry|apply ca_write_loop_dry].
  all: pose proof (ca_store_dry e i 0 (slice d 0 1)) as Hs; destruct (ca_store _ _ _ _ _) as [x a]; cbn in Hs; subst x.
  all: case_if; [done|apply ca_write_loop_dry].
Qed.
(** Setting the bypass flag changes none of this. *)
Lemma set_bypass_ca_wf e b : ca_wf e -> ca_wf (set_bypass e b).
Proof.
  intros [W1 W2]. unfold set_bypass. destruct (prof e) as [p|] eqn:E; [|by constructor; rewrite ?E]. constructor.
  - intros i c m. assert (X : od_object (e <| prof_st ::= fun st => st <| ca_bypass := b |> |>) i = od_object e i /\
      od_entry (e <| prof_st ::= fun st => st <| ca_bypass := b |> |>) i 0 = od_entry e i 0 /\
      od_read (e <| prof_st ::= fun st => st <| ca_bypass := b |> |>) i 0 = od_read e i 0).
    { unfold od_object, od_entry, od_read. cbn. by rewrite E. }
    destruct X as (-> & -> & ->). apply W1.
  - cbn. rewrite E. exact W2.
Qed.
(** The whole-set check always answers. *)
Lemma check_ca_some e i s d : ca_wf e ->
  exists a, (match prof e with Some p => esc_prof_check_ca p (prof_st e) i s d (len d) | None => Some 0 end) = Some a.
Proof.
  intros [_ W]. destruct (prof e) as [p|]; [|by eexists]. unfold esc_prof_check_ca. destruct (is_assign i) eqn:A; cbn [negb]; [|by eexists].
  case_if; [by eexists|]. cbv zeta. pose proof (W p i eq_refl A). destruct (esc_prof_obj p i); [by eexists|done].
Qed.
Lemma set_bypass_twice e b b' : set_bypass (set_bypass e b) b' = set_bypass e b'.
Proof. unfold set_bypass. destruct (prof e) eqn:E; cbn; by rewrite E. Qed.
Lemma set_bypass_same e : ca_bypass (prof_st e) = false -> dview (set_bypass e false) = dview e.
Proof.
  intros H. unfold set_bypass. destruct (prof e) eqn:E; [|done]. unfold dview, dict, al_state, reg. cbn. rewrite E.
  destruct (prof_st e); cbn in *; by subst.
Qed.
Lemma od_download_refused e i s ca d : ca_bypass (prof_st e) = false -> (ca = true -> ca_wf e) -> (od_download e i s ca d).2 <> 0 ->
  dview (od_download e i s ca d).1 = dview e.
Proof.
  intros Hb Hwf. unfold od_download. destruct ca.
  - destruct (check_ca_some e i s d (Hwf eq_refl)) as [a0 ->].
    case_if; [done|]. pose proof (od_ca_write_dry (set_bypass e true) i s d (set_bypass_ca_wf e true (Hwf eq_refl))) as Hd. destruct (od_ca_write _ _ _ _ _) as [x a]. cbn in Hd. subst x.
    cbn. intros Ha. apply Z.eqb_neq in Ha. rewrite Ha, set_bypass_twice. by apply set_bypass_same.
  - cbn. intros Ha. apply Z.eqb_neq in Ha. by rewrite Ha.
Qed.

(** ** Download requests *)

Definition req_head (l cmd : Z) : list Z := le16 l ++ [0; 0; 0; 3; 0; 32; cmd].
Definition dl_expedited (index sub : Z) (ca : bool) (d : list Z) : list Z :=
  req_head 10 (35 + 4 * (4 - len d) + if ca then 16 else 0) ++ le16 index ++ [sub] ++ d ++ replicate (4 - length d) 0.
Definition dl_init (index sub : Z) (ca : bool) (total : Z) (d : list Z) : list Z :=
  req_head (10 + len d) (33 + if ca then 16 else 0) ++ le16 index ++ [sub] ++ le32 total ++ d.
Definition dl_seg (t : Z) (last : bool) (d : list Z) : list Z :=
  req_head (seg_length (len d) last) (seg_command (len d) last t) ++ d ++ replicate (7 - length d) 0.

(** How a client sends its data: expedited, or a first part with the initiate request
    and the rest in segments of the given sizes. *)
Inductive dl_plan := Expedited | Normal (first : nat) (segs : list nat).
Definition plan_ok (n : Z) (pl : dl_plan) : Prop :=
  match pl with
  | Expedited => n <= 4
  | Normal k ks => Z.of_nat k <= 112 /\ Forall (fun m => 1 <= m <= 119)%nat ks /\ Z.of_nat (k + sum_list ks) = n
  end.
Fixpoint dl_loop (e : esc_t) (t : Z) (d : list Z) (segs : list nat) : esc_t * bool :=
  match segs with
  | [] => (e, true)
  | m :: segs =>
      let e := post e (dl_seg t (match segs with [] => true | _ => false end) (take m d)) in
      if negb (rservice e =? 3) then (e, false) else dl_loop e (Z.lxor t 16) (drop m d) segs
  end.
(** The whole download of [d]: the node after it and whether it was acknowledged. *)
Definition sdo_download (e : esc_t) (index sub : Z) (ca : bool) (d : list Z) (pl : dl_plan) : esc_t * bool :=
  match pl with
  | Expedited => let e := post e (dl_expedited index sub ca d) in (e, rservice e =? 3)
  | Normal k ks =>
      let e := post e (dl_init index sub ca (len d) (take k d)) in
      if negb (rservice e =? 3) then (e, false) else dl_loop e 0 (drop k d) ks
  end.

Section request.
Context (l cmd : Z) (b : list Z).
Let q := req_head l cmd ++ b.

Lemma req_5 : rd q 5 = 3.
Proof. done. Qed.
Lemma req_6 : rd_le16 q 6 = 8192.
Proof. done. Qed.
Lemma req_cmd : rd q 8 = cmd.
Proof. done. Qed.
Lemma req_len : is_u16 l -> rd_le16 q 0 = l.
Proof. apply (le16_rd l ([0; 0; 0; 3; 0; 32; cmd] ++ b)). Qed.
Lemma req_rd i : 0 <= i -> rd q (9 + i) = rd b i.
Proof. intros. unfold q. rewrite rd_app_r by (unfold len; cbn [length req_head le16 app]; lia). f_equal. unfold len. cbn [length req_head le16 app]. lia. Qed.
Lemma req_slice i n : 0 <= i -> 0 <= n -> i + n <= len b -> slice q (9 + i) n = slice b i n.
Proof.
  intros. unfold q, slice. replace (Z.to_nat (9 + i)) with (9 + Z.to_nat i)%nat by lia. done.
Qed.
Lemma req_total : len q = 9 + len b.
Proof. unfold q. rewrite len_app. done. Qed.
Lemma req_sdo : is_u8 cmd -> cmd <> 128 -> bytes b -> 3 <= len b <= 119 -> sdo_request q.
Proof.
  intros Hc Hn Hb Hl. split_and!; [rewrite req_total; lia|rewrite req_total; lia| |done|done|done].
  apply bytes_app; [|done]. apply bytes_app; [apply bytes_le16|]. repeat (constructor; [auto with ecm|]). constructor.
Qed.
End request.

(** ** A download touches only the dictionary *)

Definition chassis (e : esc_t) := (regs e, mbx_in e, mbx_out e, coe_session e, coe_ca e, fault e, wd e).
Lemma od_commit_chassis e i s d : chassis (od_commit e i s d) = chassis e.
Proof. unfold od_commit. destruct (prof e); [by destruct esc_prof_sub|]. repeat case_if; done. Qed.
Lemma ca_store_chassis e i s d c : chassis (ca_store e i s d c).1 = chassis e.
Proof. unfold ca_store. case_if; [done|]. destruct c; [apply od_commit_chassis|done]. Qed.
Lemma ca_write_loop_chassis e i subs d pos wr_ c : chassis (ca_write_loop e i subs d pos wr_ c).1 = chassis e.
Proof.
  revert e pos wr_. induction subs as [|s subs IH]; intros e pos wr_; cbn [ca_write_loop]; [done|]. case_if; [done|].
  destruct (od_entry e i s) as [en|]; [|apply IH]. case_if; [done|]. case_if; [apply IH|].
  pose proof (ca_store_chassis e i s (slice d pos (entry_bytes en)) c) as Hs. destruct (ca_store _ _ _ _ _) as [x a]. cbn in Hs.
  case_if; [done|]. by rewrite IH.
Qed.
Lemma od_ca_write_chassis e i s d c : chassis (od_ca_write e i s d c).1 = chassis e.
Proof.
  unfold od_ca_write. destruct (od_object e i) as [[oc m]|]; [|done]. case_if; [done|]. case_if.
  { case_if; [done|]. destruct (od_entry e i 0); [|done]. case_if; [done|apply ca_store_chassis]. }
  case_if; [done|]. destruct (_ <? len d); [done|]. case_if; [|apply ca_write_loop_chassis]. case_if; [done|].
  destruct (match od_entry e i 0 with Some en => _ | None => _ end); [|done]. case_if; [apply ca_write_loop_chassis|].
  pose proof (ca_store_chassis e i 0 (slice d 0 1) c) as Hs; destruct (ca_store _ _ _ _ _) as [x a]; cbn in Hs.
  case_if; [done|]. cbn. by rewrite ca_write_loop_chassis.
Qed.
Lemma set_bypass_chassis e b : chassis (set_bypass e b) = chassis e.
Proof. unfold set_bypass. by destruct (prof e). Qed.
Lemma od_download_chassis e i s ca d : chassis (od_download e i s ca d).1 = chassis e.
Proof.
  unfold od_download. destruct ca; [|cbn; case_if; [apply od_commit_chassis|done]].
  match goal with |- context [match ?o with Some a => _ | None => _ end] => destruct o as [a0|] end; [|done]. case_if; [done|].
  pose proof (od_ca_write_chassis (set_bypass e true) i s d false) as Hc. destruct (od_ca_write _ _ _ _ _) as [x a]. cbn in Hc |- *.
  rewrite set_bypass_chassis. case_if; [rewrite od_ca_write_chassis|]; by rewrite Hc, set_bypass_chassis.
Qed.
Lemma chassis_wf e e' : chassis e = chassis e' -> node_wf e' -> node_wf e.
Proof. intros H []. injection H as H1 H2 H3 _ _ _ _. constructor; by rewrite ?H1, ?H2, ?H3. Qed.

(** ** Responses keep the view *)

Lemma view_regs e r : rd r 304 = rd (regs e) 304 -> dview (e <| regs := r |>) = dview e.
Proof. intros H. unfold dview, al_state, reg. cbn. by rewrite H. Qed.
Lemma load_view e req : node_wf e -> dview (load e req) = dview e.
Proof. intros [? ? ? ? ?]. apply view_regs. apply rd_memcpy_out; lia. Qed.
Lemma finish_view c e : node_wf e -> dview (finish c e) = dview e.
Proof.
  intros [? ? ? ? ?]. unfold dview. rewrite finish_dict. unfold al_state, reg. by rewrite finish_rd by lia.
Qed.
Lemma session_view e s : dview (e <| coe_session := s |>) = dview e.
Proof. done. Qed.

(** The answer to a finished download. *)
Definition dl_answer (y x : esc_t) (a : Z) : Prop :=
  node_wf y /\ dview y = dview x /\ if a =? 0 then rservice y = 3 else aborted y (u32 a).
Lemma abort_answer c x index sub a : node_wf x -> is_u8 sub -> a <> 0 ->
  dl_answer (finish c (abort_with x (mbx_in x) index sub a)) x a.
Proof.
  intros Hx Hs Ha. pose proof Hx as [Hl _ Hm _ _].
  destruct (abort_resp (regs x) (mbx_in x) (nw_bytes _ Hx) (mbx_resp_ok _ Hx) index sub a Hs) as (Rl & Rb & Rsv & R8 & R12).
  assert (Hw : node_wf (abort_with x (mbx_in x) index sub a)) by (apply node_wf_regs_only; [done|exact Rl|exact Rb]).
  unfold dl_answer. rewrite (proj2 (Z.eqb_neq a 0) Ha), finish_view by done. split_and!; [by apply finish_wf| |].
  - apply view_regs. unfold coe_send_abort. rewrite rd_wr_le32_ne by lia. rewrite rd_wr_ne, rd_wr_le16_ne, rd_wr_ne, resp_header_out by lia. done.
  - unfold aborted, rservice. rewrite view_word, view_byte, view_dword by (done || lia). split_and!; [|exact R8|exact R12].
    exact (f_equal (fun v => Z.shiftr v 12) Rsv).
Qed.
Lemma ok_answer c x R : node_wf x -> len R = 8192 -> bytes R -> rd_le16 R (mbx_in x + 6) = 12288 -> rd R 304 = rd (regs x) 304 ->
  dl_answer (finish c (x <| regs := R |>)) x 0.
Proof.
  intros Hx Hl Hb Hsv Hal. assert (Hw : node_wf (x <| regs := R |>)) by by apply node_wf_regs_only.
  unfold dl_answer. rewrite finish_view by done. split_and!; [by apply finish_wf|by apply view_regs|].
  cbn [Z.eqb]. unfold rservice. rewrite view_word by (done || lia). exact (f_equal (fun v => Z.shiftr v 12) Hsv).
Qed.
Lemma answer_answer c x index sub ca a : node_wf x -> is_u8 sub ->
  dl_answer (finish c (answer_download (x, a) (mbx_in x) index sub ca)) x a.
Proof.
  intros Hx Hs. unfold answer_download. destruct (Z.eqb_spec a 0) as [->|Ha]; cbn [negb]; [|by apply abort_answer].
  pose proof Hx as [Hl _ Hm _ _].
  destruct (ack_resp (regs x) (mbx_in x) (nw_bytes _ Hx) (mbx_resp_ok _ Hx) index sub ca Hs) as (Rl & Rb & Rsv & _).
  apply ok_answer; [done|exact Rl|exact Rb|exact Rsv|]. unfold coe_send_download_response, memset.
  rewrite rd_memcpy_out by (rewrite ?len_replicate; lia). rewrite rd_wr_ne, rd_wr_le16_ne, rd_wr_ne, resp_header_out by lia. done.
Qed.

(** ** The steps of a download *)

Lemma check_none_some e i s d n : od_check_write e i s None n <> 0 -> od_check_write e i s (Some d) n = od_check_write e i s None n.
Proof.
  unfold od_check_write. destruct (od_object e i) as [[c m]|]; [|done]. destruct (od_entry e i s) as [en|]; [|done].
  case_if; [done|]. case_if; [done|]. destruct (prof e); repeat (case_if; [done|]); done.
Qed.

Section download.
Context (index sub : Z) (ca : bool) (d : list Z).
Context (Hi : is_u16 index) (Hs : is_u8 sub) (Hd : bytes d) (Hdl : 1 <= len d <= 512).

(** [y] is what an atomic download of [d] to [e] leaves. *)
Definition dl_result (e y : esc_t) : Prop :=
  let '(e', a) := od_download e index sub ca d in
  node_wf y
  /\ (a = 0 -> dview y = dview e' /\ rservice y = 3)
  /\ (a <> 0 -> dview y = dview e /\ exists code, code <> 0 /\ aborted y (u32 code) /\ (ca = false -> code = a)).

Lemma dl_result_refused e y x code : dview x = dview e -> dl_answer y x code -> code <> 0 ->
  (od_download e index sub ca d).2 <> 0 -> (ca = false -> code = (od_download e index sub ca d).2) -> dl_result e y.
Proof.
  intros Hx (Hw & Hv & Ha) Hc Hr Hcode. unfold dl_result. destruct (od_download e index sub ca d) as [e' a]. cbn [fst snd] in *.
  split_and!; [done|done|]. intros _. split; [congruence|]. exists code. rewrite (proj2 (Z.eqb_neq code 0) Hc) in Ha. done.
Qed.
Lemma dl_result_done c e x : ca_bypass (prof_st e) = false -> (ca = true -> ca_wf e) -> node_wf x -> dview x = dview e ->
  dl_result e (finish c (answer_download (od_download x index sub ca d) (mbx_in x) index sub ca)).
Proof.
  intros Hb Hcw Hx Hv. pose proof (od_download_view x e index sub ca d Hv) as [Hv1 Hv2].
  pose proof (od_download_chassis x index sub ca d) as Hch. pose proof (od_download_refused e index sub ca d Hb Hcw) as Href. unfold dl_result.
  destruct (od_download x index sub ca d) as [x' a], (od_download e index sub ca d) as [e' a']. cbn [fst snd] in *. subst a'.
  assert (Hx' : node_wf x') by by apply (chassis_wf _ x). assert (Hm : mbx_in x' = mbx_in x) by (unfold chassis in Hch; congruence). rewrite <- Hm.
  destruct (answer_answer c x' index sub ca a Hx' Hs) as (Hw & Hvy & Ha). split_and!; [done| |].
  - intros ->. split; [rewrite Hvy; exact Hv1|exact Ha].
  - intros Hne. rewrite (proj2 (Z.eqb_neq a 0) Hne) in Ha. split; [rewrite Hvy; exact (eq_trans Hv1 (Href Hne))|]. by exists a.
Qed.

Lemma dl_cmd n : 1 <= n <= 4 ->
  let c := 35 + 4 * (4 - n) + (if ca then 16 else 0) in
  is_u8 c /\ c <> 128 /\ Z.land c 239 =? 96 = false /\ Z.land c 224 =? 32 = true /\ c =? 80 = false /\ c =? 64 = false
  /\ has_bit c 16 = ca /\ has_bit c 2 = true /\ has_bit c 1 = true /\ 4 - Z.land (Z.shiftr c 2) 3 = n.
Proof.
  intros Hn. assert (E : n = 1 \/ n = 2 \/ n = 3 \/ n = 4) by lia. destruct E as [-> | [-> | [-> | ->]]]; by destruct ca.
Qed.

Lemma download_expedited e : node_wf e -> ca_bypass (prof_st e) = false -> (ca = true -> ca_wf e) -> (ca = true -> coe_ca e = true) -> len d <= 4 ->
  dl_result e (post e (dl_expedited index sub ca d)).
Proof.
  intros Hw Hb Hcw Hca Hl. destruct (dl_cmd (len d) ltac:(lia)) as (C1 & C2 & C3 & C4 & C5 & C6 & C7 & C8 & C9 & C10).
  set (c := 35 + 4 * (4 - len d) + (if ca then 16 else 0)) in *.
  set (body := le16 index ++ [sub] ++ d ++ replicate (4 - length d) 0).
  assert (Hbl : len body = 7) by (unfold body, len in *; rewrite !length_app, length_replicate; cbn [length le16]; lia).
  assert (Hreq : sdo_request (dl_expedited index sub ca d)).
  { apply req_sdo; [done|done| |fold body; lia]. unfold body. auto 6 with ecm. }
  rewrite post_handler by done. set (x := load e _). assert (Hx : node_wf x) by (apply load_wf; [done|apply Hreq]).
  assert (Hdata : slice (regs x) (mbx_out x + 12) (len d) = d).
  { change (mbx_out x) with (mbx_out e). unfold x. rewrite load_slice; [|done|apply Hreq|lia|lia|unfold dl_expedited; rewrite req_total; fold body; lia].
    unfold dl_expedited. change 12 with (9 + 3). rewrite req_slice by (fold body; lia). change (slice _ 3 (len d)) with (slice (d ++ replicate (4 - length d) 0) 0 (len d)).
    unfold slice, len. rewrite Nat2Z.id, drop_0. apply take_app_length. }
  assert (Hh : handler x (dl_expedited index sub ca d)
    = answer_download (od_download (end_session x) index sub ca d) (mbx_in (end_session x)) index sub ca).
  { unfold handler. change (rd (dl_expedited index sub ca d) 8) with c. change (rd (dl_expedited index sub ca d) 11) with sub.
    replace (rd_le16 (dl_expedited index sub ca d) 9) with index by (symmetry; apply (le16_rd index ([sub] ++ d ++ replicate (4 - length d) 0) Hi)).
    rewrite C3, C4, C5, C6. unfold coe_handle_download_init. rewrite C7, C8, C9, C10. change (coe_ca (end_session x)) with (coe_ca e).
    change (regs (end_session x)) with (regs x). rewrite Hdata. destruct ca; [by rewrite Hca|done]. }
  rewrite Hh. apply dl_result_done; [done|done|destruct Hx; by constructor|]. by apply load_view.
Qed.

(** A normal initiate request that carries the first [k] bytes. *)
Definition init_cmd : Z := 33 + if ca then 16 else 0.
Lemma init_cmd_facts : is_u8 init_cmd /\ init_cmd <> 128 /\ Z.land init_cmd 239 =? 96 = false /\ Z.land init_cmd 224 =? 32 = true
  /\ init_cmd =? 80 = false /\ init_cmd =? 64 = false /\ has_bit init_cmd 16 = ca /\ has_bit init_cmd 2 = false /\ has_bit init_cmd 1 = true.
Proof. unfold init_cmd. by destruct ca. Qed.

Definition pre_check (e : esc_t) : Z :=
  if ca then match od_object e index with
             | None => ABORT_OBJECT_DOES_NOT_EXIST
             | Some _ => if 1 <? sub then ABORT_UNSUPPORTED_ACCESS else 0
             end
  else od_check_write e index sub None (len d).
Lemma pre_check_refuses e : (ca = true -> ca_wf e) -> pre_check e <> 0 ->
  (od_download e index sub ca d).2 <> 0 /\ (ca = false -> pre_check e = (od_download e index sub ca d).2).
Proof.
  intros Hcw. unfold pre_check, od_download. destruct ca.
  - intros H. split; [|done]. destruct (check_ca_some e index sub d (Hcw eq_refl)) as [a0 ->]. match goal with |- context [negb (?z =? 0)] => destruct (Z.eqb_spec z 0) as [_|Hz] end; cbn [negb]; [|exact Hz].
    assert (Ho : od_object (set_bypass e true) index = od_object e index).
    { unfold set_bypass. destruct (prof e) eqn:E; [|done]. unfold od_object. cbn. by rewrite E. }
    unfold od_ca_write. rewrite Ho. destruct (od_object e index) as [[oc m]|]; [|done]. destruct (1 <? sub); done.
  - intros H. rewrite (check_none_some _ _ _ _ _ H). done.
Qed.
Lemma pre_check_view e e' : dview e = dview e' -> pre_check e = pre_check e'.
Proof.
  intros [H1 H2]%dview_dict. unfold pre_check. by rewrite (od_object_dict e e' H1), (od_check_write_dict e e' H1) by done.
Qed.

Definition dsession (s : coe_session_t) (k t : Z) : Prop :=
  s_active s = true /\ is_upload s = false /\ s_index s = index /\ s_subindex s = sub /\ total_size s = len d /\ s_done s = k
  /\ expected_toggle s = t /\ is_ca s = ca /\ len (xfer s) = 512 /\ slice (xfer s) 0 k = slice d 0 k.

Lemma le32_rd v l : is_u32 v -> rd_le32 (le32 v ++ l) 0 = v.
Proof.
  intros Hv. unfold rd_le32. change (rd (le32 v ++ l) 0) with (Z.land v 255). change (rd (le32 v ++ l) (0 + 1)) with (Z.land (Z.shiftr v 8) 255).
  change (rd (le32 v ++ l) (0 + 2)) with (Z.land (Z.shiftr v 16) 255). change (rd (le32 v ++ l) (0 + 3)) with (Z.land (Z.shiftr v 24) 255).
  rewrite !land_255, !Z.shiftr_div_pow2 by lia. rewrite (lor_shift_add (u8 v)) by clia. rewrite (lor_shift_add (_ + _)) by clia. rewrite lor_shift_add by clia. clia.
Qed.

Lemma download_init e k : node_wf e -> ca_bypass (prof_st e) = false -> (ca = true -> ca_wf e) -> (ca = true -> coe_ca e = true) -> 0 <= k <= 112 -> k <= len d ->
  let y := post e (dl_init index sub ca (len d) (slice d 0 k)) in
  if negb (pre_check e =? 0) || (k =? len d) then dl_result e y
  else node_wf y /\ dview y = dview e /\ rservice y = 3 /\ dsession (coe_session y) k 0.
Proof.
  intros Hw Hb Hcw Hca Hk Hkd. destruct init_cmd_facts as (C1 & C2 & C3 & C4 & C5 & C6 & C7 & C8 & C9).
  assert (Hkl : len (slice d 0 k) = k) by (apply len_slice; lia).
  set (body := le16 index ++ [sub] ++ le32 (len d) ++ slice d 0 k). set (req := dl_init index sub ca (len d) (slice d 0 k)).
  assert (Hbl : len body = 7 + k) by (unfold body; rewrite !len_app, Hkl; unfold len; cbn [length le16 le32]; lia).
  assert (Hrl : len req = 16 + k) by (unfold req, dl_init; rewrite req_total; fold body; lia).
  assert (Hreq : sdo_request req).
  { apply req_sdo; [exact C1|exact C2| |fold body; lia]. unfold body. auto 7 with ecm. }
  rewrite post_handler by done. set (x := load e req). assert (Hx : node_wf x) by (apply load_wf; [done|apply Hreq]).
  assert (Hvx : dview (end_session x) = dview e) by by apply load_view.
  assert (Hxe : node_wf (end_session x)) by (destruct Hx; by constructor).
  assert (Htot : rd_le32 (regs x) (mbx_out x + 12) = len d).
  { change (mbx_out x) with (mbx_out e). unfold x. rewrite load_rd32 by (done || lia). exact (le32_rd (len d) (slice d 0 k) ltac:(unfold_c; lia)). }
  assert (Hml : rd_le16 (regs x) (mbx_out x) = 10 + k).
  { change (mbx_out x) with (mbx_out e). rewrite <- (Z.add_0_r (mbx_out e)). unfold x. rewrite load_rd16 by (done || lia).
    unfold req, dl_init. rewrite req_len; [lia|unfold_c; lia]. }
  assert (Hdata : slice (regs x) (mbx_out x + 12 + 4) k = slice d 0 k).
  { rewrite <- Z.add_assoc. change (mbx_out x) with (mbx_out e). unfold x. rewrite load_slice by (done || lia).
    unfold req, dl_init. change (12 + 4) with (9 + 7). rewrite req_slice by (fold body; lia).
    change (slice _ 7 k) with (slice (slice d 0 k) 0 k). rewrite <- Hkl at 2. apply slice_all. }
  assert (Hh : handler x req = coe_handle_download_init x (mbx_in x) (mbx_out x) index sub init_cmd).
  { unfold handler. change (rd req 8) with init_cmd. change (rd req 11) with sub.
    replace (rd_le16 req 9) with index by (symmetry; apply (le16_rd index ([sub] ++ le32 (len d) ++ slice d 0 k) Hi)).
    by rewrite C3, C4, C5, C6. }
  rewrite Hh. unfold coe_handle_download_init. rewrite C7, C8, C9. change (regs (end_session x)) with (regs x).
  change (coe_ca (end_session x)) with (coe_ca e). replace (ca && negb (coe_ca e)) with false by (destruct ca; [by rewrite Hca|done]).
  rewrite Htot, Hml. cbn [negb]. fold (pre_check (end_session x)). rewrite (pre_check_view _ e Hvx).
  replace (if 10 <? 10 + k then 10 + k - 10 else 0) with k by (destruct (Z.ltb_spec 10 (10 + k)); lia).
  replace (112 <? k) with false by (symmetry; apply Z.ltb_ge; lia). replace (len d <? k) with false by (symmetry; apply Z.ltb_ge; lia).
  replace (512 <? len d) with false by (symmetry; apply Z.ltb_ge; lia). cbn zeta.
  destruct (Z.eqb_spec (pre_check e) 0) as [Hp|Hp]; cbn [negb orb].
  - destruct (Z.eqb_spec k (len d)) as [Hke|Hke].
    + rewrite Hke in Hdata. rewrite slice_all in Hdata. rewrite Hdata. change (mbx_in x) with (mbx_in (end_session x)). by apply dl_result_done.
    + rewrite Hdata. set (s := mkSess _ _ _ _ _ _ _ _ _). pose proof Hx as [Hl _ Hm _ _].
      destruct (ack_resp (regs x) (mbx_in x) (nw_bytes _ Hx) (mbx_resp_ok _ Hx) index sub ca Hs) as (Rl & Rb & Rsv & _).
      assert (Hxs : node_wf (x <| coe_session := s |>)) by (destruct Hx; by constructor).
      destruct (ok_answer (rd req 8) (x <| coe_session := s |>) _ Hxs Rl Rb Rsv) as (Y1 & Y2 & Y3).
      { unfold coe_send_download_response, memset. rewrite rd_memcpy_out by (rewrite ?len_replicate; lia).
        rewrite rd_wr_ne, rd_wr_le16_ne, rd_wr_ne, resp_header_out by lia. done. }
      split_and!; [exact Y1|exact (eq_trans Y2 Hvx)|exact Y3|]. rewrite finish_session. change (dsession s k 0). unfold dsession, s. cbn [s_active is_upload s_index s_subindex total_size s_done expected_toggle is_ca xfer].
      split_and!; try done; [by rewrite len_memcpy|].
      pose proof (slice_memcpy_in (replicate 512 0) 0 (slice d 0 k)) as Hsm. rewrite Hkl in Hsm. apply Hsm; [lia|]. change (len (replicate 512 0)) with 512. lia.
  - destruct (pre_check_refuses e Hcw Hp) as [R1 R2].
    apply (dl_result_refused e _ (end_session x) (pre_check e)); [done| |done|done|done].
    change (mbx_in x) with (mbx_in (end_session x)). by apply abort_answer.
Qed.

Lemma seg_cmd_facts n (last : bool) t : 1 <= n <= 119 -> t = 0 \/ t = 16 ->
  let c := seg_command n last t in
  c <> 128 /\ Z.land c 239 =? 96 = false /\ Z.land c 224 =? 32 = false /\ Z.land c 224 =? 0 = true /\ c =? 80 = false /\ c =? 64 = false
  /\ Z.land c 16 = t.
Proof.
  intros Hn Ht. unfold seg_command. destruct last; [destruct (Z.ltb_spec n 7)|].
  - assert (E : n = 1 \/ n = 2 \/ n = 3 \/ n = 4 \/ n = 5 \/ n = 6) by lia.
    destruct E as [-> | [-> | [-> | [-> | [-> | ->]]]]]; by destruct Ht as [-> | ->].
  - by destruct Ht as [-> | ->].
  - by destruct Ht as [-> | ->].
Qed.
(** The number of bytes the server takes from a segment. *)
Lemma seg_taken n (last : bool) t : 1 <= n <= 119 -> t = 0 \/ t = 16 ->
  let l := seg_length n last in
  let g := if 3 <? l then l - 3 else 0 in
  let g := if 119 <? g then 119 else g in
  (if last && (g =? 7) then g - Z.land (Z.shiftr (seg_command n last t) 1) 7 else g) = n.
Proof.
  intros Hn Ht. destruct (seg_bytes n last t ltac:(lia) Ht) as (_ & _ & H). cbn zeta.
  assert (Hl : 3 < seg_length n last <= 122) by (unfold seg_length; case_if; [lia|clia]).
  replace (3 <? seg_length n last) with true by (symmetry; apply Z.ltb_lt; lia).
  replace (119 <? seg_length n last - 3) with false by (symmetry; apply Z.ltb_ge; lia).
  revert H. destruct (last && (seg_length n last - 3 =? 7)) eqn:E; [|done]. apply andb_true_iff in E as [_ E%Z.eqb_eq]. by rewrite E.
Qed.

Lemma dl_result_seg c e x t : ca_bypass (prof_st e) = false -> (ca = true -> ca_wf e) -> node_wf x -> dview x = dview e -> t = 0 \/ t = 16 ->
  dl_result e (finish c (let '(x', a) := od_download x index sub ca d in
    if negb (a =? 0) then abort_with x' (mbx_in x) index sub a else x' <| regs ::= fun r => seg_acknowledge r (mbx_in x) t |>)).
Proof.
  intros Hb Hcw Hx Hv Ht. pose proof (od_download_view x e index sub ca d Hv) as [Hv1 Hv2].
  pose proof (od_download_chassis x index sub ca d) as Hch. pose proof (od_download_refused e index sub ca d Hb Hcw) as Href. unfold dl_result.
  destruct (od_download x index sub ca d) as [x' a], (od_download e index sub ca d) as [e' a']. cbn [fst snd] in *. subst a'.
  assert (Hx' : node_wf x') by by apply (chassis_wf _ x). assert (Hm : mbx_in x' = mbx_in x) by (unfold chassis in Hch; congruence). rewrite <- Hm.
  destruct (Z.eqb_spec a 0) as [->|Ha]; cbn [negb].
  - destruct (seg_ack_resp (regs x') (mbx_in x') (nw_bytes _ Hx') (mbx_resp_ok _ Hx') t Ht) as (Rl & Rb & Rsv & _). pose proof Hx' as [Hl _ Hmm _ _].
    destruct (ok_answer c x' _ Hx' Rl Rb Rsv) as (Hw & Hvy & Hsv).
    { unfold seg_acknowledge, memset. rewrite rd_memcpy_out by (rewrite ?len_replicate; lia). rewrite rd_wr_ne, resp_header_out by lia. done. }
    split_and!; [exact Hw| |done]. intros _. split; [exact (eq_trans Hvy Hv1)|exact Hsv].
  - destruct (abort_answer c x' index sub a Hx' Hs Ha) as (Hw & Hvy & Hab). rewrite (proj2 (Z.eqb_neq a 0) Ha) in Hab.
    split_and!; [done|done|]. intros _. split; [exact (eq_trans Hvy (eq_trans Hv1 (Href Ha)))|]. by exists a.
Qed.

Lemma download_next e0 e k t n : ca_bypass (prof_st e0) = false -> (ca = true -> ca_wf e0) -> dview e = dview e0 -> node_wf e -> t = 0 \/ t = 16 ->
  dsession (coe_session e) k t -> 0 <= k -> 1 <= n <= 119 -> k + n <= len d ->
  let last := k + n =? len d in
  let y := post e (dl_seg t last (slice d k n)) in
  if last then dl_result e0 y
  else node_wf y /\ dview y = dview e0 /\ rservice y = 3 /\ dsession (coe_session y) (k + n) (Z.lxor t 16).
Proof.
  intros Hb Hcw Hv0 Hw Ht (S1 & S2 & S3 & S4 & S5 & S6 & S7 & S8 & S9 & S10) Hk Hn0 Hkn. cbn zeta. set (last := k + n =? len d).
  assert (Hn : 1 <= n <= 119 /\ k + n <= len d) by lia.
  assert (Hnl : len (slice d k n) = n) by (apply len_slice; lia).
  set (pad := replicate (7 - length (slice d k n)) 0). set (body := slice d k n ++ pad). set (req := dl_seg t last (slice d k n)).
  assert (Hbl : n <= len body <= 119 /\ 3 <= len body).
  { unfold body, pad. rewrite len_app, Hnl, len_replicate. unfold len in Hnl. lia. }
  destruct (seg_cmd_facts n last t ltac:(lia) Ht) as (C2 & C3 & C4 & C5 & C6 & C7 & C8). destruct (seg_bytes n last t ltac:(lia) Ht) as (C9 & C1 & _).
  assert (Hrl : len req = 9 + len body) by (unfold req, dl_seg; by rewrite req_total).
  assert (Hreq : sdo_request req).
  { unfold req, dl_seg. rewrite Hnl. apply req_sdo; [exact C1|exact C2| |fold pad; fold body; lia]. unfold pad. auto with ecm. }
  rewrite post_handler by done. set (x := load e req). assert (Hx : node_wf x) by (apply load_wf; [done|apply Hreq]).
  assert (Hml : rd_le16 (regs x) (mbx_out x) = seg_length n last).
  { change (mbx_out x) with (mbx_out e). rewrite <- (Z.add_0_r (mbx_out e)). unfold x. rewrite load_rd16 by (done || lia).
    unfold req, dl_seg. rewrite req_len; [by rewrite Hnl|]. rewrite Hnl. unfold seg_length. case_if; [unfold_c; lia|apply u16_range]. }
  assert (Hdata : slice (regs x) (mbx_out x + 9) n = slice d k n).
  { change (mbx_out x) with (mbx_out e). unfold x. rewrite load_slice by (done || lia). unfold req, dl_seg. change (slice (req_head (seg_length (len (slice d k n)) last) (seg_command (len (slice d k n)) last t) ++ body) (9 + 0) n = slice d k n).
    rewrite req_slice by lia. unfold body. set (dk := slice d k n) in *. rewrite <- Hnl. unfold slice, len. rewrite Nat2Z.id, drop_0. apply take_app_length. }
  assert (Hh : handler x req = coe_handle_download_segment x (mbx_in x) (mbx_out x) (seg_command n last t)).
  { unfold handler. replace (rd req 8) with (seg_command n last t) by (unfold req, dl_seg; rewrite Hnl; done). by rewrite C3, C4, C5, C6, C7. }
  assert (Hc8 : rd req 8 = seg_command n last t) by (unfold req, dl_seg; rewrite Hnl; done).
  rewrite Hh. unfold coe_handle_download_segment. change (coe_session x) with (coe_session e).
  rewrite S1, S2, C8, S7, Z.eqb_refl, C9. cbn [negb orb]. rewrite Hml, (seg_taken n last t ltac:(lia) Ht), S5, S6.
  replace (len d <? k + n) with false by (symmetry; apply Z.ltb_ge; lia). rewrite Hdata.
  set (s' := (coe_session e) <| xfer ::= fun z => memcpy z (s_done (coe_session e)) (slice d k n) |> <| s_done ::= fun z => z + n |>).
  assert (Hxf : len (xfer s') = 512 /\ slice (xfer s') 0 (k + n) = slice d 0 (k + n)).
  { unfold s'. cbn [xfer upd]. cbn. rewrite len_memcpy, S6. split; [done|]. rewrite <- (slice_extend d k n), <- S10 by lia. rewrite <- slice_extend by lia. f_equal.
    - apply slice_ext; rewrite ?len_memcpy; try lia. intros i Hi'. apply rd_memcpy_out; lia.
    - rewrite <- Hnl at 2. apply slice_memcpy_in; lia. }
  pose proof Hx as [Hl _ Hm _ _].
  assert (Hvx : dview (x <| coe_session := s' |>) = dview e0) by (rewrite <- Hv0; by apply load_view).
  destruct (seg_ack_resp (regs x) (mbx_in x) (nw_bytes _ Hx) (mbx_resp_ok _ Hx) t Ht) as (Rl & Rb & Rsv & _).
  assert (R304 : rd (seg_acknowledge (regs x) (mbx_in x) t) 304 = rd (regs x) 304).
  { unfold seg_acknowledge, memset. rewrite rd_memcpy_out by (rewrite ?len_replicate; lia). rewrite rd_wr_ne, resp_header_out by lia. done. }
  destruct last eqn:El.
  - change (coe_session (end_session (x <| coe_session ::= _ |>))) with (s' <| s_active := false |>). cbn [s_done total_size s_index s_subindex is_ca xfer upd].
    assert (Hn2 : k + n = len d) by (by apply Z.eqb_eq).
    assert (Hds : s_done s' = len d) by (unfold s'; cbn; lia). assert (Hts : total_size s' = len d) by exact S5.
    assert (Hxs : slice (xfer s') 0 (len d) = d) by (rewrite <- Hn2, (proj2 Hxf), Hn2; apply slice_all).
    match goal with |- dl_result _ (finish _ ?g) =>
      replace g with (let '(x', a) := od_download (end_session (x <| coe_session := s' |>)) index sub ca d in
        if negb (a =? 0) then abort_with x' (mbx_in (end_session (x <| coe_session := s' |>))) index sub a
        else x' <| regs ::= fun r => seg_acknowledge r (mbx_in (end_session (x <| coe_session := s' |>))) t |>) end.
    + apply dl_result_seg; [done|done|destruct Hx; by constructor|exact Hvx|done].
    + change (s_done (s' <| s_active := false |>)) with (s_done s'). change (total_size (s' <| s_active := false |>)) with (total_size s').
      change (xfer (s' <| s_active := false |>)) with (xfer s'). rewrite Hds, Hts, Z.eqb_refl, Hxs. cbn [negb].
 
      replace (s_index s') with index by (symmetry; exact S3).
      replace (s_subindex s') with sub by (symmetry; exact S4). replace (is_ca s') with ca by (symmetry; exact S8). reflexivity.
  - assert (Hxs : node_wf (x <| coe_session := s' <| expected_toggle ::= fun z => Z.lxor z 16 |> |>)) by (destruct Hx; by constructor).
    destruct (ok_answer (rd req 8) _ _ Hxs Rl Rb Rsv R304) as (Y1 & Y2 & Y3).
    split_and!; [exact Y1|exact (eq_trans Y2 Hvx)|exact Y3|]. rewrite finish_session.
    change (dsession (s' <| expected_toggle ::= fun z => Z.lxor z 16 |>) (k + n) (Z.lxor t 16)). unfold dsession.
    destruct Hxf as [X1 X2]. split_and!; [exact S1|exact S2|exact S3|exact S4|exact S5|unfold s'; cbn; lia|unfold s'; cbn; by rewrite S7|exact S8|exact X1|exact X2].
Qed.

Lemma take_slice l n : take n l = slice l 0 (Z.of_nat n).
Proof. unfold slice. by rewrite Nat2Z.id. Qed.
Lemma take_drop_slice l k n : 0 <= k -> take n (drop (Z.to_nat k) l) = slice l k (Z.of_nat n).
Proof. intros. unfold slice. by rewrite Nat2Z.id. Qed.
Lemma download_rest e0 ks e k t : ca_bypass (prof_st e0) = false -> (ca = true -> ca_wf e0) -> dview e = dview e0 -> node_wf e -> t = 0 \/ t = 16 ->
  dsession (coe_session e) k t -> 0 <= k < len d -> Forall (fun m => 1 <= m <= 119)%nat ks -> k + Z.of_nat (sum_list ks) = len d ->
  let '(y, b) := dl_loop e t (drop (Z.to_nat k) d) ks in dl_result e0 y /\ b = (rservice y =? 3).
Proof.
  intros Hb Hcw. revert e k t. induction ks as [|m ks IH]; intros e k t Hv Hw Ht Hse Hk Hks Hsum; [cbn in Hsum; lia|].
  apply Forall_cons_1 in Hks as [Hm Hks]. cbv beta in Hm. change (sum_list (m :: ks)) with (m + sum_list ks)%nat in Hsum.
  pose proof (download_next e0 e k t (Z.of_nat m) Hb Hcw Hv Hw Ht Hse ltac:(lia) ltac:(lia) ltac:(lia)) as Hnx. cbn [dl_loop]. cbv zeta in Hnx |- *.
  rewrite take_drop_slice by lia.
  assert (El : (k + Z.of_nat m =? len d) = match ks with [] => true | _ => false end).
  { destruct ks as [|m' ks']; [apply Z.eqb_eq; cbn in Hsum; lia|]. apply Z.eqb_neq. apply Forall_cons_1 in Hks as [Hm' _].
    change (sum_list (m' :: ks')) with (m' + sum_list ks')%nat in Hsum. lia. }
  rewrite El in Hnx. destruct ks as [|m' ks'].
  - match type of Hnx with dl_result _ ?p => set (y := p) in * end. clearbody y. cbn [dl_loop].
    destruct (Z.eqb_spec (rservice y) 3) as [E|E]; cbn [negb];
      (split; [exact Hnx|]); [rewrite E; reflexivity|symmetry; apply Z.eqb_neq; exact E].
  - destruct Hnx as (Hw1 & Hv1 & Hsv & Hse1). rewrite Hsv. cbn [Z.eqb Pos.eqb negb]. rewrite drop_drop.
    replace (Z.to_nat k + m)%nat with (Z.to_nat (k + Z.of_nat m)) by lia.
    apply (IH _ (k + Z.of_nat m) (Z.lxor t 16) Hv1 Hw1); [destruct Ht as [-> | ->]; auto|exact Hse1| |exact Hks|lia].
    apply Forall_cons_1 in Hks as [Hm' _]. cbv beta in Hm'. change (sum_list (m' :: ks')) with (m' + sum_list ks')%nat in Hsum. lia.
Qed.
Lemma download_exact e pl : node_wf e -> ca_bypass (prof_st e) = false -> (ca = true -> ca_wf e) -> (ca = true -> coe_ca e = true) -> plan_ok (len d) pl ->
  let '(y, b) := sdo_download e index sub ca d pl in dl_result e y /\ b = (rservice y =? 3).
Proof.
  intros Hw Hb Hcw Hca Hpl. destruct pl as [|k ks]; cbn [sdo_download plan_ok] in *; cbv zeta.
  - split; [by apply download_expedited|done].
  - destruct Hpl as (Hk & Hks & Hsum). rewrite take_slice.
    pose proof (download_init e (Z.of_nat k) Hw Hb Hcw Hca ltac:(lia) ltac:(lia)) as Hin. cbn zeta in Hin.
    set (y := post e _) in *. destruct (negb (pre_check e =? 0) || (Z.of_nat k =? len d)) eqn:Ec.
    + destruct (Z.eqb_spec (rservice y) 3) as [E|E]; cbn [negb]; [|split; [exact Hin|symmetry; apply Z.eqb_neq; exact E]].
      apply orb_true_iff in Ec as [Ec|Ec].
      * exfalso. apply negb_true_iff, Z.eqb_neq in Ec.
        destruct (pre_check_refuses e Hcw Ec) as [R1 _]. unfold dl_result in Hin. destruct (od_download e index sub ca d) as [e' a].
        destruct Hin as (_ & _ & Hin). destruct (Hin R1) as (_ & code & _ & (Hsv & _) & _). congruence.
      * apply Z.eqb_eq in Ec. assert (ks = []) as ->; [|cbn [dl_loop]; split; [exact Hin|rewrite E; reflexivity]].
        destruct Hks as [|m ks Hm _]; [done|]. change (sum_list (m :: ks)) with (m + sum_list ks)%nat in Hsum. lia.
    + apply orb_false_iff in Ec as [_ Ec]. apply Z.eqb_neq in Ec. destruct Hin as (Hw1 & Hv1 & Hsv & Hse). rewrite Hsv. cbn [Z.eqb Pos.eqb negb].
      pose proof (download_rest e ks y (Z.of_nat k) 0 Hb Hcw Hv1 Hw1 ltac:(auto) Hse ltac:(lia) Hks ltac:(lia)) as Hr.
      rewrite Nat2Z.id in Hr. exact Hr.
Qed.
End download.

(** ** Downloads keep the dictionary well-formed and are read back *)

Lemma dict_wf_dict e e' : dict e = dict e' -> dict_wf e -> dict_wf e'.
Proof.
  intros H [W1 W2 W3 W4 W5 W6 W7]. destruct (dict_rest e e' H) as (Hp & Hst & _). destruct (dict_od e e' H) as (_ & _ & _ & Hb & Ho & Hl & Hn & Hx).
  constructor; rewrite <- ?Hb, <- ?Ho, <- ?Hl, <- ?Hn, <- ?Hx, <- ?Hp, <- ?Hst; done.
Qed.
(** What an accepted write says about the entry. *)
Lemma check_write_ok e i s d n : od_check_write e i s d n = 0 ->
  exists c m en, od_object e i = Some (c, m) /\ od_entry e i s = Some en /\ access en <> 0
    /\ match prof e with
       | Some _ => n <= (bits en + 7) / 8
       | None => if dtype en =? DT_OCTET_STRING then 1 <= n <= 400 \/ n < 0 else n = bits en / 8
       end.
Proof.
  unfold od_check_write. destruct (od_object e i) as [[c m]|]; [|done]. destruct (od_entry e i s) as [en|]; [|done]. intros H. exists c, m, en.
  destruct (Z.eqb_spec (access en) 0); [done|]. case_if_in H; [done|]. split_and!; [done..|]. destruct (prof e) as [p|].
  - destruct (Z.ltb_spec ((bits en + 7) / 8) n); [done|]. lia.
  - destruct (Z.eqb_spec (dtype en) 10); cbn [andb negb] in H.
    + destruct (Z.eqb_spec n 0); [done|]. destruct (Z.ltb_spec 400 n); [done|]. lia.
    + destruct (Z.eqb_spec n (bits en / 8)); done.
Qed.
Lemma pad_value_wf d : bytes d -> bytes (memcpy (replicate 64 0) 0 (take 64 d)) /\ len (memcpy (replicate 64 0) 0 (take 64 d)) = 64.
Proof. intros H. rewrite len_memcpy. split; [|done]. apply bytes_memcpy; [auto with ecm|by apply Forall_take]. Qed.
Lemma od_commit_wf e i s d : dict_wf e -> bytes d -> od_check_write e i s (Some d) (len d) = 0 -> dict_wf (od_commit e i s d).
Proof.
  intros Hw Hd Hc. pose proof Hw as [[O1 O2] O3 B A N1 N2 P]. unfold od_commit. destruct (prof e) as [p|] eqn:Ep.
  - destruct (esc_prof_sub p i s) as [g|]; [|done]. constructor; cbn; try done. rewrite Ep. intros p' [= <-]. destruct (P p eq_refl) as [V1 V2 V3 V4].
    constructor; cbn; [|by rewrite length_insert|done|done]. apply Forall_insert; [done|by apply pad_value_wf].
  - destruct (check_write_ok _ _ _ _ _ Hc) as (c & m & en & Ho & He & Ha & Hn). rewrite Ep in Hn. repeat case_if; try done; constructor; cbn; try done.
    all: try (rewrite Ep; done).
    + apply bytes_wr; [done|by apply bytes_rd].
    + by rewrite len_wr.
    + by rewrite len_wr.
    + split; [by apply bytes_memcpy|by rewrite len_memcpy].
    + bprop. subst i. unfold od_entry in He. rewrite Ep, Ho in He. unfold od_object in Ho. rewrite Ep in Ho. cbn in Ho. injection Ho as <- <-.
      destruct (0 <? s); [done|]. cbn in He. injection He as <-. cbn in Hn. pose proof (len_nonneg d). clia.
Qed.
Lemma ca_store_wf e i s d c : dict_wf e -> bytes d -> dict_wf (ca_store e i s d c).1.
Proof.
  intros Hw Hd. unfold ca_store. destruct (Z.eqb_spec (od_check_write e i s (Some d) (len d)) 0); cbn; [|done].
  destruct c; [by apply od_commit_wf|done].
Qed.
Lemma ca_write_loop_wf e i subs d pos wr_ c : dict_wf e -> bytes d -> dict_wf (ca_write_loop e i subs d pos wr_ c).1.
Proof.
  intros Hw Hd. revert e pos wr_ Hw. induction subs as [|s subs IH]; intros e pos wr_ Hw; cbn [ca_write_loop]; [done|]. case_if; [done|].
  destruct (od_entry e i s) as [en|]; [|by apply IH]. case_if; [done|]. case_if; [by apply IH|].
  pose proof (ca_store_wf e i s (slice d pos (entry_bytes en)) c Hw (bytes_slice _ _ _ Hd)) as Hs. destruct (ca_store _ _ _ _ _) as [x a]. cbn in Hs.
  case_if; [done|]. by apply IH.
Qed.
Lemma no_result_wf e : dict_wf e -> dict_wf (no_result e).
Proof. intros []. by constructor. Qed.
Lemma od_ca_write_wf e i s d c : dict_wf e -> bytes d -> dict_wf (od_ca_write e i s d c).1.
Proof.
  intros Hw Hd. pose proof (no_result_wf e Hw) as Hu. unfold od_ca_write. destruct (od_object e i) as [[oc m]|]; [|done]. case_if; [done|]. case_if.
  { case_if; [done|]. destruct (od_entry e i 0); [|done]. case_if; [done|by apply ca_store_wf]. }
  case_if; [done|]. destruct (_ <? len d); [done|]. case_if; [|by apply ca_write_loop_wf]. case_if; [done|].
  destruct (match od_entry e i 0 with Some en => _ | None => _ end); [|done]. case_if; [by apply ca_write_loop_wf|].
  pose proof (ca_store_wf e i 0 (slice d 0 1) c Hw (bytes_slice _ _ _ Hd)) as Hs; destruct (ca_store _ _ _ _ _) as [x a]; cbn in Hs.
  case_if; [done|by apply ca_write_loop_wf].
Qed.
Lemma set_bypass_wf e b : dict_wf e -> dict_wf (set_bypass e b).
Proof.
  intros [W1 W2 W3 W4 W6 W7 W5]. unfold set_bypass. destruct (prof e) as [p|] eqn:Ep; [|by constructor; rewrite ?Ep]. constructor; cbn; try done. rewrite Ep.
  intros p' [= <-]. destruct (W5 p eq_refl). by constructor.
Qed.
Lemma od_download_wf e i s ca d : dict_wf e -> bytes d -> dict_wf (od_download e i s ca d).1.
Proof.
  intros Hw Hd. unfold od_download. destruct ca.
  - match goal with |- context [match ?o with Some a => _ | None => _ end] => destruct o as [a0|] end; [|by apply no_result_wf].
    case_if; [done|]. pose proof (od_ca_write_wf (set_bypass e true) i s d false (set_bypass_wf _ _ Hw) Hd) as Hc.
    destruct (od_ca_write _ _ _ _ _) as [x a]. cbn in Hc |- *. apply set_bypass_wf. case_if; [by apply od_ca_write_wf|done].
  - cbn. destruct (Z.eqb_spec (od_check_write e i s (Some d) (len d)) 0); [by apply od_commit_wf|done].
Qed.

Lemma le32_of_bytes d : bytes d -> len d = 4 -> le32 (rd_le32 d 0) = d.
Proof.
  intros Hb Hl. rewrite rd_le32_add by done. unfold len in Hl. destruct d as [|a [|b [|c [|x [|y d]]]]]; cbn [length] in Hl; try lia.
  repeat (apply Forall_cons_1 in Hb as [? Hb]). unfold le32. rewrite !land_255, !Z.shiftr_div_pow2 by lia.
  change (rd [a; b; c; x] 0) with a. change (rd [a; b; c; x] (0 + 1)) with b. change (rd [a; b; c; x] (0 + 2)) with c. change (rd [a; b; c; x] (0 + 3)) with x.
  change (2 ^ 8) with 256. change (2 ^ 16) with 65536. change (2 ^ 24) with 16777216. repeat (apply (f_equal2 cons); [clia|]). done.
Qed.
Lemma le16_of_bytes d : bytes d -> len d = 2 -> le16 (rd_le16 d 0) = d.
Proof.
  intros Hb Hl. rewrite rd_le16_add by done. unfold len in Hl. destruct d as [|a [|b [|c d]]]; cbn [length] in Hl; try lia.
  repeat (apply Forall_cons_1 in Hb as [? Hb]). unfold le16. rewrite !land_255, !Z.shiftr_div_pow2 by lia.
  change (rd [a; b] 0) with a. change (rd [a; b] (0 + 1)) with b. change (2 ^ 8) with 256. repeat (apply (f_equal2 cons); [clia|]). done.
Qed.
Lemma slice_padded d n : len d <= n <= 64 -> slice (memcpy (replicate 64 0) 0 (take 64 d)) 0 n = d ++ replicate (Z.to_nat (n - len d)) 0.
Proof.
  intros Hn. pose proof (len_nonneg d). assert (Ht : take 64 d = d) by (apply take_ge; unfold len in *; lia). rewrite Ht.
  set (z := replicate 64 0). assert (Hz : len z = 64) by done. apply rd_ext.
  - rewrite len_slice by (rewrite ?len_memcpy; lia). rewrite len_app, len_replicate. lia.
  - intros i. rewrite len_slice by (rewrite ?len_memcpy; lia). intros Hi. rewrite rd_slice by lia. destruct (Z.lt_ge_cases i (len d)).
    + rewrite rd_memcpy_in by lia. rewrite rd_app_l by lia. f_equal. lia.
    + rewrite rd_memcpy_out by lia. rewrite rd_app_r by lia. unfold z. rewrite !rd_replicate by lia. done.
Qed.

(** The entry after an accepted write holds the bytes written, zero-filled to its size. *)
Lemma download_read_back e i s d : dict_wf e -> is_u8 s -> bytes d -> (od_download e i s false d).2 = 0 ->
  exists en, od_entry (od_download e i s false d).1 i s = Some en
    /\ (prof e = None -> entry_bytes en = len d)
    /\ od_upload_value (od_download e i s false d).1 i s false = Some (inr (d ++ replicate (Z.to_nat (entry_bytes en - len d)) 0)).
Proof.
  intros Hw Hs Hd. unfold od_download. cbn. intros Hc. rewrite Hc. cbn. destruct (check_write_ok _ _ _ _ _ Hc) as (c & m & en & Ho & He & Ha & Hn).
  pose proof Hw as [[O1 O2] O3 B A N1 N2 P]. unfold od_commit, entry_bytes. destruct (prof e) as [p|] eqn:Ep.
  - pose proof He as He'. unfold od_entry in He. rewrite Ep in He. destruct (esc_prof_sub p i s) as [g|] eqn:Eg; [|done]. injection He as <-. cbn in Hn.
    exists (mkEntry (prof_dtype (ps_bits (psub_at p g))) (ps_bits (psub_at p g)) (ps_access (psub_at p g))).
    specialize (P p eq_refl). pose proof (prof_sub_range _ _ _ _ _ P Eg) as Hg. destruct (prof_value_wf p _ g P Hg) as (V1 & V2 & V3 & V4).
    unfold od_entry, od_upload_value, od_object, od_read. unfold od_object in Ho. rewrite Ep in Ho. cbn. rewrite Ep, Eg. split; [done|]. split; [done|].
    destruct (esc_prof_obj p i); [|done]. f_equal. unfold esc_prof_value. cbn.
    rewrite list_lookup_insert_eq by (destruct P as [_ -> _ _]; lia). cbn. rewrite slice_padded; [|rewrite V4; Z.to_euclidean_division_equations; lia]. by rewrite V4.
  - unfold od_entry in He. rewrite Ep, Ho in He. unfold od_object in Ho. rewrite Ep in Ho. destruct (Z.ltb_spec m s); [done|].
    unfold is_u8 in Hs.
    assert (Hcase : (i = 7186 \/ i = 7187) /\ (s = 0 /\ en = mkEntry 5 8 2 \/ s = 1 /\ en = mkEntry 6 16 2)
      \/ i = 32768 /\ 1 <= s <= 3 /\ en = mkEntry 7 32 1 \/ i = 32770 /\ s = 0 /\ dtype en = 10).
    { repeat case_if_in Ho; try discriminate Ho; injection Ho as <- <-; bprop; subst; cbn in He.
      all: repeat match type of He with context [if ?b then _ else _] => destruct b eqn:?; bprop; try lia end.
      all: try discriminate He; injection He as <-; try (cbn in Ha; lia).
      all: repeat match goal with H : (_ || _) = true |- _ => apply orb_true_iff in H as [H|H] end; bprop; try lia.
      all: first [left; split; [lia|left; split; [lia|done]] | left; split; [lia|right; split; [lia|done]]
        | right; left; split_and!; [lia|lia|lia|done] | right; right; split_and!; [lia|lia|done]]. }
    destruct Hcase as [[Hix [[-> ->] | [-> ->]]] | [(-> & Hs3 & ->) | (-> & -> & Hdt)]]; cbn in Hn.
    + exists (mkEntry 5 8 2). assert (Hl : len d = 1) by exact Hn. unfold len in Hl. destruct d as [|a [|b d]]; cbn [length] in Hl; try lia.
      assert (Hpo : coe_pdo_od e = true) by (destruct Hix as [-> | ->]; cbn in Ho; by destruct (coe_pdo_od e)).
      unfold od_upload_value, od_entry, od_object, od_read. destruct Hix as [-> | ->]; cbn; rewrite Ep, Hpo; cbn; (split_and!; [done|done|]); by rewrite rd_wr_eq by lia.
    + exists (mkEntry 6 16 2). assert (Hl : len d = 2) by exact Hn. change ((16 + 7) / 8) with 2. rewrite Hl. cbn [replicate Z.sub Z.to_nat]. rewrite app_nil_r.
      assert (Hpo : coe_pdo_od e = true) by (destruct Hix as [-> | ->]; cbn in Ho; by destruct (coe_pdo_od e)).
      unfold od_upload_value, od_entry, od_object, od_read. destruct Hix as [-> | ->]; cbn; rewrite Ep, Hpo; cbn; (split_and!; [done|done|]);
        rewrite rd_wr_eq by lia; do 2 f_equal; by apply le16_of_bytes.
    + exists (mkEntry 7 32 1). assert (Hl : len d = 4) by exact Hn. change ((32 + 7) / 8) with 4. rewrite Hl. cbn [replicate Z.sub Z.to_nat]. rewrite app_nil_r.
      assert (E : s = 1 \/ s = 2 \/ s = 3) by lia. unfold od_upload_value, od_entry, od_object, od_read.
      destruct E as [-> | [-> | ->]]; cbn; rewrite Ep; cbn; (split_and!; [done|done|]); do 2 f_equal; by apply le32_of_bytes.
    + assert (Hl : 1 <= len d <= 400) by (rewrite Hdt in Hn; cbn in Hn; pose proof (len_nonneg d); lia).
      exists (mkEntry 10 (u16 (u16 (len d) * 8)) 1). unfold od_upload_value, od_entry, od_object, od_read. cbn. rewrite Ep. cbn. split; [done|]. split; [intros _; clia|].
      replace (u16 (len d)) with (len d) by clia. replace (u16 (len d * 8)) with (len d * 8) by clia.
      replace ((len d * 8 + 7) / 8 - len d) with 0 by (Z.to_euclidean_division_equations; lia). cbn [Z.to_nat replicate]. rewrite app_nil_r.
      do 2 f_equal. apply slice_memcpy_in; lia.
Qed.

(** ** A Complete Access download cannot stop halfway *)

Definition bypassed (e : esc_t) : Prop := match prof e with Some _ => ca_bypass (prof_st e) = true | None => True end.
(** The same entries and the same verdicts for every write to object [i]. *)
Definition same_checks (i : Z) (e e' : esc_t) : Prop :=
  bypassed e' /\ od_object e' i = od_object e i
  /\ forall s d n, od_entry e' i s = od_entry e i s /\ od_check_write e' i s (Some d) n = od_check_write e i s (Some d) n.

Lemma od_commit_prof e i s d : prof (od_commit e i s d) = prof e.
Proof.
  unfold od_commit. destruct (prof e) as [p|] eqn:E; [destruct (esc_prof_sub p i s); cbn; by rewrite E|].
  destruct ((i =? 7186) || (i =? 7187)); [destruct (s =? 0); cbn; by rewrite E|].
  destruct (i =? 32768); [cbn; by rewrite E|]. destruct (i =? 32770); cbn; by rewrite E.
Qed.
Lemma od_commit_bypassed e i s d : bypassed e -> bypassed (od_commit e i s d).
Proof.
  unfold bypassed. rewrite od_commit_prof. unfold od_commit. destruct (prof e) as [p|] eqn:E; [|done]. by destruct (esc_prof_sub p i s).
Qed.
Lemma od_commit_object e i s d j : od_object (od_commit e i s d) j = od_object e j.
Proof.
  unfold od_object, od_commit, pdo_entry_count. destruct (prof e) eqn:E; [destruct esc_prof_sub; cbn; by rewrite E|].
  destruct ((i =? 7186) || (i =? 7187)); [destruct (s =? 0); cbn; by rewrite E|].
  destruct (i =? 32768); [cbn; by rewrite E|]. destruct (i =? 32770); cbn; by rewrite E.
Qed.
Lemma od_commit_entry e i s d s' : i <> 32770 -> od_entry (od_commit e i s d) i s' = od_entry e i s'.
Proof.
  intros Hi. unfold od_entry. rewrite od_commit_object. unfold od_commit. destruct (prof e) as [p|] eqn:E.
  - destruct (esc_prof_sub p i s); cbn; by rewrite E.
  - destruct ((i =? 7186) || (i =? 7187)); [case_if; cbn; by rewrite E|]. destruct (i =? 32768); [destruct (s =? 1), (s =? 2); cbn; by rewrite E|].
    destruct (Z.eqb_spec i 32770); [done|]. by rewrite E.
Qed.
Lemma check_value_bypassed e p i s d n : prof e = Some p -> bypassed e -> esc_prof_check_value p (prof_st e) i s d n = 0.
Proof. unfold bypassed, esc_prof_check_value. intros -> ->. by case_if. Qed.
Lemma od_commit_checks e i s d : i <> 32770 \/ prof e <> None -> bypassed e -> same_checks i e (od_commit e i s d).
Proof.
  intros Hi Hb. pose proof (od_commit_bypassed e i s d Hb) as Hb'. split_and!; [done|apply od_commit_object|]. intros s' d' n.
  assert (He : od_entry (od_commit e i s d) i s' = od_entry e i s').
  { destruct (decide (i = 32770)); [|by apply od_commit_entry]. destruct Hi as [Hi|Hi]; [done|]. unfold od_entry, od_commit.
    destruct (prof e) as [p|] eqn:E; [|done]. destruct (esc_prof_sub p i s); cbn; by rewrite E. }
  split; [done|]. unfold od_check_write. rewrite od_commit_object, He. destruct (od_object e i); [|done]. destruct (od_entry e i s') as [en|]; [|done].
  assert (Hal : al_state (od_commit e i s d) = al_state e).
  { unfold al_state, reg. pose proof (od_commit_chassis e i s d) as Hc. unfold chassis in Hc. congruence. }
  pose proof (od_commit_prof e i s d) as Hp.
  rewrite Hal, Hp. destruct (prof e) as [p0|] eqn:E; [|done].
  by rewrite !check_value_bypassed by (done || by rewrite Hp).
Qed.
Lemma same_checks_trans i e e' e'' : same_checks i e e' -> same_checks i e' e'' -> same_checks i e e''.
Proof.
  intros (_ & O1 & H1) (B & O2 & H2). split_and!; [done|congruence|]. intros s d n. destruct (H1 s d n), (H2 s d n). split; congruence.
Qed.
Lemma same_checks_refl i e : bypassed e -> same_checks i e e.
Proof. done. Qed.
Lemma ca_store_same e e' i s d : same_checks i e e' -> (ca_store e' i s d true).2 = (ca_store e i s d false).2.
Proof. intros (_ & _ & H). unfold ca_store. destruct (H s d (len d)) as [_ ->]. by case_if. Qed.
Lemma ca_store_keeps e e' i s d : i <> 32770 \/ prof e' <> None -> same_checks i e e' ->
  same_checks i e (ca_store e' i s d true).1 /\ prof (ca_store e' i s d true).1 = prof e'.
Proof.
  intros Hi H. unfold ca_store. case_if; [done|]. cbn. split; [|apply od_commit_prof].
  eapply same_checks_trans; [done|]. apply od_commit_checks; [done|apply H].
Qed.
Lemma ca_write_loop_same e e' i subs d pos wr_ : i <> 32770 \/ prof e' <> None -> same_checks i e e' ->
  (ca_write_loop e' i subs d pos wr_ true).2 = (ca_write_loop e i subs d pos wr_ false).2.
Proof.
  revert e' pos wr_. induction subs as [|s subs IH]; intros e' pos wr_ Hi H; cbn [ca_write_loop]; [done|]. case_if; [done|].
  destruct (proj2 (proj2 H) s [] 0) as [-> _]. destruct (od_entry e i s) as [en|]; [|by apply IH]. case_if; [done|]. case_if; [by apply IH|].
  set (dd := slice d pos (entry_bytes en)). pose proof (ca_store_same e e' i s dd H) as Hs. pose proof (ca_store_keeps e e' i s dd Hi H) as [Hk Hp].
  pose proof (ca_store_dry e i s dd) as Hd. destruct (ca_store e' i s dd true) as [x a], (ca_store e i s dd false) as [y b]. cbn in *. subst y b.
  case_if; [done|]. apply IH; [by rewrite Hp|done].
Qed.
Lemma od_ca_write_same e i s d : ca_wf e -> bypassed e -> (od_ca_write e i s d true).2 = (od_ca_write e i s d false).2.
Proof.
  intros W Hb. pose proof (same_checks_refl i e Hb) as Hr. unfold od_ca_write. destruct (od_object e i) as [[oc m]|] eqn:Eo; [|done].
  destruct (cw_obj _ W _ _ _ Eo) as (Hm & en & -> & _). rewrite (proj2 (Z.leb_gt 255 m)) by done.
  case_if; [done|]. case_if; [case_if; [done|]; case_if; [done|by apply ca_store_same]|].
  assert (Hi : i <> 32770 \/ prof e <> None).
  { destruct (prof e) eqn:Ep; [by right|left]. intros ->. unfold od_object in Eo. rewrite Ep in Eo. cbn in Eo. by injection Eo as <- <-. }
  assert (Hl : forall subs pos wr_, (ca_write_loop e i subs d pos wr_ true).2 = (ca_write_loop e i subs d pos wr_ false).2)
    by (intros; by apply ca_write_loop_same).
  repeat case_if; try first [done|apply Hl].
  all: set (dd := slice d 0 1); pose proof (ca_store_same e e i 0 dd Hr) as Hs; pose proof (ca_store_keeps e e i 0 dd Hi Hr) as [Hk Hp].
  all: pose proof (ca_store_dry e i 0 dd) as Hd; destruct (ca_store e i 0 dd true) as [x a], (ca_store e i 0 dd false) as [y b]; cbn in *; subst y b.
  all: case_if; [done|]. all: apply ca_write_loop_same; [by rewrite Hp|done].
Qed.
(** With such a dictionary nothing is ever marked as without a result. *)
Lemma od_commit_undef e i s d : undef (od_commit e i s d) = undef e.
Proof. unfold od_commit. destruct (prof e); [by destruct esc_prof_sub|]. repeat case_if; done. Qed.
Lemma ca_store_undef e i s d c : undef (ca_store e i s d c).1 = undef e.
Proof. unfold ca_store. case_if; [done|]. destruct c; [apply od_commit_undef|done]. Qed.
Lemma ca_write_loop_undef e i subs d pos wr_ c : undef (ca_write_loop e i subs d pos wr_ c).1 = undef e.
Proof.
  revert e pos wr_. induction subs as [|s subs IH]; intros e pos wr_; cbn [ca_write_loop]; [done|]. case_if; [done|].
  destruct (od_entry e i s) as [en|]; [|apply IH]. case_if; [done|]. case_if; [apply IH|].
  pose proof (ca_store_undef e i s (slice d pos (entry_bytes en)) c) as Hs. destruct (ca_store _ _ _ _ _) as [x a]. cbn in Hs.
  case_if; [done|]. by rewrite IH.
Qed.
Lemma od_ca_write_undef e i s d c : ca_wf e -> undef (od_ca_write e i s d c).1 = undef e.
Proof.
  intros W. unfold od_ca_write. destruct (od_object e i) as [[oc m]|] eqn:Eo; [|done].
  destruct (cw_obj _ W _ _ _ Eo) as (Hm & en & -> & _). rewrite (proj2 (Z.leb_gt 255 m)) by done.
  repeat case_if; try first [done|apply ca_store_undef|apply ca_write_loop_undef].
  all: pose proof (ca_store_undef e i 0 (slice d 0 1) c) as Hs; destruct (ca_store _ _ _ _ _) as [x a]; cbn in Hs.
  all: case_if; [done|]. all: cbn; by rewrite ca_write_loop_undef.
Qed.

(** ** Theorems *)

(** C11: An SDO upload, expedited, in one frame or segmented, normal or with
    Complete Access, is one read of the dictionary: the client collects
    exactly the bytes of the entry (or the Complete Access image) and the
    dictionary does not change; an access the dictionary refuses is answered by
    an abort with the code of the refusal, and an access that the source gives no
    result (a Complete Access to an object without an SI0 of one byte) marks the node. *)
Theorem sdo_upload_exact e index sub ca :
  node_wf e -> dict_wf e -> is_u16 index -> is_u8 sub -> (ca = true -> coe_ca e = true) ->
  match od_upload_value e index sub ca with
  | Some (inr d) => exists e', sdo_upload e index sub ca = Some (e', d) /\ node_wf e' /\ dict e' = dict e
  | Some (inl code) => sdo_upload e index sub ca = None /\ aborted (post e (up_req index sub ca)) code
                /\ dict (post e (up_req index sub ca)) = dict e
  | None => undef (post e (up_req index sub ca)) = true
  end.
Proof. apply upload_exact. Qed.

(** C10: An SDO download of 1 to 512 bytes is one atomic write, however the client
    splits it: expedited for up to 4 bytes, or with any first part of at most 112
    bytes in the initiate request and the rest in segments of any sizes from 1 to
    119 bytes.  When [od_download] accepts the whole data every part is acknowledged
    and the dictionary afterwards is the one it makes; otherwise the client
    sees an abort at some part and the dictionary is unchanged.  A Complete Access
    must be enabled on the node and meet a dictionary that gives it a result. *)
Theorem sdo_download_atomic e index sub ca d pl :
  node_wf e -> ca_bypass (prof_st e) = false -> is_u16 index -> is_u8 sub -> (ca = true -> coe_ca e = true) -> (ca = true -> ca_wf e) ->
  bytes d -> 1 <= len d <= 512 -> plan_ok (len d) pl ->
  let '(y, b) := sdo_download e index sub ca d pl in
  node_wf y /\
  let '(e', a) := od_download e index sub ca d in
  if a =? 0 then b = true /\ dict y = dict e'
  else b = false /\ dict y = dict e /\ exists code, code <> 0 /\ aborted y (u32 code) /\ (ca = false -> code = a).
Proof.
  intros Hw Hb Hi Hs Hca Hcw Hd Hl Hpl. pose proof (download_exact index sub ca d Hi Hs Hd Hl e pl Hw Hb Hcw Hca Hpl) as H.
  destruct (sdo_download e index sub ca d pl) as [y b]. destruct H as [Hres ->]. unfold dl_result in Hres. destruct (od_download e index sub ca d) as [e' a].
  destruct Hres as (Hwy & H0 & H1). split; [done|]. destruct (Z.eqb_spec a 0) as [E|E].
  - destruct (H0 E) as [[Hdv _]%dview_dict ->]. done.
  - destruct (H1 E) as [[Hdv _]%dview_dict (code & Hc & (Hsv & Ha) & Hcode)]. rewrite Hsv. split_and!; [done|done|]. by exists code.
Qed.

(** What an acknowledged download wrote, an upload of the same entry returns:
    exactly the bytes on a built-in node, on a profile node filled with zero bytes
    to the size of the entry. *)
Theorem sdo_roundtrip e index sub d pl :
  node_wf e -> dict_wf e -> ca_bypass (prof_st e) = false -> is_u16 index -> is_u8 sub -> bytes d -> 1 <= len d <= 512 -> plan_ok (len d) pl ->
  forall y, sdo_download e index sub false d pl = (y, true) ->
  exists y' n, sdo_upload y index sub false = Some (y', d ++ replicate n 0) /\ (prof e = None -> n = 0%nat).
Proof.
  intros Hw Hdw Hb Hi Hs Hd Hl Hpl y Hr. pose proof (download_exact index sub false d Hi Hs Hd Hl e pl Hw Hb ltac:(done) ltac:(done) Hpl) as H.
  rewrite Hr in H. destruct H as [Hres Hb0]. unfold dl_result in Hres. pose proof (download_read_back e index sub d Hdw Hs Hd) as Hrb.
  pose proof (od_download_wf e index sub false d Hdw Hd) as Hdw'. destruct (od_download e index sub false d) as [e' a]. cbn [fst snd] in *.
  destruct Hres as (Hwy & H0 & H1). destruct (Z.eq_dec a 0) as [->|E].
  - destruct (H0 eq_refl) as [[Hdv _]%dview_dict _]. destruct (Hrb eq_refl) as (en & _ & Hn & Hv).
    pose proof (upload_exact y index sub false Hwy (dict_wf_dict _ _ (eq_sym Hdv) Hdw') Hi Hs ltac:(done)) as Hu.
    rewrite (od_upload_value_dict y e' Hdv), Hv in Hu. destruct Hu as (y' & Hu & _). eexists y', _. split; [done|]. intros Hp. rewrite (Hn Hp). lia.
  - destruct (H1 E) as [_ (code & _ & (Hsv & _) & _)]. rewrite Hsv in Hb0. done.
Qed.

(** C12: A Complete Access download is all or nothing, in a dictionary that gives it
    a result (every object with an SI0, of one byte in an ARRAY or RECORD, no
    subindex 255, both assignment objects in a profile): when its check pass finds a fault nothing is stored,
    when it finds none the pass that stores the entries runs to the end as well, and
    no step is without a result in the source. *)
Theorem coe_ca_all_or_nothing e index start d : ca_bypass (prof_st e) = false -> ca_wf e ->
  let '(e', a) := od_download e index start true d in
  undef e' = undef e /\
  if a =? 0 then (od_ca_write (set_bypass e true) index start d true).2 = 0
                 /\ e' = set_bypass (od_ca_write (set_bypass e true) index start d true).1 false
  else dict e' = dict e.
Proof.
  intros Hb W. pose proof (od_download_refused e index start true d Hb (fun _ => W)) as Hr. unfold od_download in *.
  destruct (check_ca_some e index start d W) as [a0 E]. rewrite E in *. destruct (negb (a0 =? 0)) eqn:E0.
  { apply negb_true_iff in E0. by rewrite E0. }
  pose proof (set_bypass_ca_wf e true W) as Wb. assert (Ub : forall x b, undef (set_bypass x b) = undef x) by (intros x b; unfold set_bypass; by destruct (prof x)).
  pose proof (od_ca_write_dry (set_bypass e true) index start d Wb) as Hd. pose proof (od_ca_write_undef (set_bypass e true) index start d true Wb) as Hu.
  pose proof (od_ca_write_same (set_bypass e true) index start d Wb) as Hs. destruct (od_ca_write _ _ _ _ false) as [x a]. cbn [fst snd] in *. subst x.
  rewrite Ub in Hu |- *. destruct (Z.eqb_spec a 0) as [Ea|Ha].
  - split; [exact Hu|]. split; [|done]. rewrite <- Ea. apply Hs. unfold bypassed, set_bypass. destruct (prof e) eqn:Ep; cbn; by rewrite Ep.
  - split; [apply Ub|]. exact (proj1 (dview_dict _ _ (Hr Ha))).
Qed.

(** ** A concrete node *)

(** A built-in node in PREOP with the PDO objects and Complete Access. *)
Definition demo_node : esc_t :=
  mkEsc (wr (replicate 8192 0) 304 2) 0 0 false 0 8 false false [] 0 (coe_od_init 0) coe_session_zero dc_zero fault_zero
    (mkWd 0 0 false true 0) 0 true true 4096 128 4224 128 None (mkPst [] false) false.
Lemma demo_node_wf : node_wf demo_node.
Proof. constructor; cbn [regs mbx_in mbx_out demo_node]; [by rewrite len_wr|auto with ecm|lia..]. Qed.
Lemma demo_dict_wf : dict_wf demo_node.
Proof.
  constructor; cbn [coe_od prof demo_node coe_od_init octet_rw octet_rw_len segtest_blob pdo_assign_n pdo_assign_idx]; try done.
  - split; [auto with ecm|done].
  - split; [|done]. apply Forall_fmap, Forall_true. intros x. apply is_u8_land.
  - repeat (constructor; [auto with ecm|]). constructor.
Qed.
Definition demo_bytes : list Z := (fun i => 255 - Z.land i 255) <$> seqZ 0 250.
Lemma demo_bytes_ok : bytes demo_bytes.
Proof. apply Forall_fmap, Forall_true. intros x. cbn. pose proof (is_u8_land x). unfold is_u8 in *. lia. Qed.

Lemma sdo_upload_exact_witness : exists e', sdo_upload demo_node 32769 0 false = Some (e', (fun i => Z.land i 255) <$> seqZ 0 200).
Proof.
  pose proof (sdo_upload_exact demo_node 32769 0 false demo_node_wf demo_dict_wf ltac:(unfold is_u16; lia) ltac:(unfold is_u8; lia) ltac:(done)) as H.
  change (od_upload_value demo_node 32769 0 false) with (Some (inr ((fun i => Z.land i 255) <$> seqZ 0 200)) : option (Z + list Z)) in H.
  destruct H as (e' & H & _). exists e'. exact H.
Defined.
(** 100 bytes in the first frame, then segments of 119, 1, 2 and 28 bytes. *)
Lemma sdo_download_atomic_witness :
  let '(y, b) := sdo_download demo_node 32770 0 false demo_bytes (Normal 100 [119; 1; 2; 28]%nat) in b = true /\ octet_rw_len (coe_od y) = 250.
Proof.
  assert (Hpl : plan_ok (len demo_bytes) (Normal 100 [119; 1; 2; 28]%nat)).
  { split_and!; [lia|repeat (constructor; [lia|]); constructor|reflexivity]. }
  pose proof (sdo_download_atomic demo_node 32770 0 false demo_bytes (Normal 100 [119; 1; 2; 28]%nat) demo_node_wf eq_refl ltac:(unfold is_u16; lia)
    ltac:(unfold is_u8; lia) ltac:(done) ltac:(done) demo_bytes_ok ltac:(vm_compute; split; discriminate) Hpl) as H.
  destruct (sdo_download demo_node 32770 0 false demo_bytes (Normal 100 [119; 1; 2; 28]%nat)) as [y b].
  destruct (od_download demo_node 32770 0 false demo_bytes) as [e' a] eqn:E. assert (Ha : a = 0) by (vm_compute in E; congruence). subst a.
  destruct H as (_ & -> & Hd). split; [reflexivity|]. transitivity (octet_rw_len (coe_od e')); [exact (f_equal (fun t => octet_rw_len t.2) Hd)|].
  transitivity (octet_rw_len (coe_od (od_download demo_node 32770 0 false demo_bytes).1)); [by rewrite E|]. vm_compute. reflexivity.
Defined.
Lemma sdo_roundtrip_witness : exists y y', sdo_download demo_node 32768 2 false [1; 2; 3; 4] Expedited = (y, true) /\ sdo_upload y 32768 2 false = Some (y', [1; 2; 3; 4]).
Proof.
  destruct (sdo_download demo_node 32768 2 false [1; 2; 3; 4] Expedited) as [y b] eqn:E.
  assert (Hb : b = true) by (pose proof (f_equal snd E) as E'; vm_compute in E'; congruence).
  subst b. destruct (sdo_roundtrip demo_node 32768 2 [1; 2; 3; 4] Expedited demo_node_wf demo_dict_wf eq_refl ltac:(unfold is_u16; lia) ltac:(unfold is_u8; lia)
    ltac:(repeat (constructor; [unfold is_u8; lia|]); constructor) ltac:(vm_compute; split; discriminate) ltac:(vm_compute; discriminate) y E) as (y' & n & Hu & Hn).
  rewrite (Hn eq_refl) in Hu. exists y, y'. split; [reflexivity|exact Hu].
Defined.
Lemma demo_ca_wf : ca_wf demo_node.
Proof.
  constructor; [|done]. intros i c m. unfold od_object, od_entry, od_read. cbn [prof demo_node]. change (pdo_entry_count demo_node) with 1.
  unfold od_object. cbn [prof demo_node]. change (pdo_entry_count demo_node) with 1. change (coe_pdo_od demo_node) with true.
  rewrite andb_false_r. intros H. repeat case_if_in H; try discriminate H; injection H as <- <-; split; try lia;
    repeat match goal with H : (_ || _) = true |- _ => apply orb_true_iff in H as [H|H] end; bprop; subst; cbn;
    (eexists; split; [reflexivity|]); intros Hc; try done; by destruct Hc.
Qed.
Lemma coe_ca_all_or_nothing_witness : pdo_assign_n (coe_od (od_download demo_node 7186 0 true [0; 0]).1) = [0; 1].
Proof.
  pose proof (coe_ca_all_or_nothing demo_node 7186 0 [0; 0] eq_refl demo_ca_wf) as H.
  destruct (od_download demo_node 7186 0 true [0; 0]) as [e' a] eqn:E.
  assert (Ha : a = 0) by (pose proof (f_equal snd E) as E'; vm_compute in E'; congruence). subst a. destruct H as (_ & _ & ->). vm_compute. reflexivity.
Defined.
(** A profile without the assignment objects: the whole-set check reads through a null pointer. *)
Definition bare_profile : esc_profile_t := mkProf [] 0 0 0 0 None 4096 128 4224 128 true false false false true [] [] [] [].
Example ca_null_object : undef (od_download (demo_node <| prof := Some bare_profile |>) 7186 0 true [0; 0]).1 = true.
Proof. vm_compute. reflexivity. Qed.
