(* ===== verification/EscDc.v ===== *)
(** * Distributed clock of a virtual slave (tools/soft_bus/esc_dc.c)

    Every node has a local clock with its own drift, the registers of the DC
    unit, a time control loop that trims the rate of the clock, and a SYNC0 unit
    whose pulses are accounted against the frames that arrive.  The settings of
    the whole chain ([g_cfg], [g_n]) are arguments.  Times are 64-bit signed in the
    source and far from the ends of that range, so they are plain integers here;
    values that are cut to a register are wrapped.  Left out: the reports and the
    log lines. *)
From Stdlib Require Import ZArith Lia Bool.
From S2P Require Import Prelude EscMem EscTypes.
From stdpp Require Import base list numbers sorting.
Open Scope Z_scope.

Notation DC_RECV_PORT0 := 2304 (only parsing).
Notation DC_RECV_PORT1 := 2308 (only parsing).
Notation DC_RECV_PORT2 := 2312 (only parsing).
Notation DC_RECV_PORT3 := 2316 (only parsing).
Notation DC_SYSTIME := 2320 (only parsing).
Notation DC_RECV_EPU := 2328 (only parsing).
Notation DC_SYSOFFSET := 2336 (only parsing).
Notation DC_SYSDELAY := 2344 (only parsing).
Notation DC_SYSDIFF := 2348 (only parsing).
Notation DC_SPEEDSTART := 2352 (only parsing).
Notation DC_ACTIVATION := 2433 (only parsing).
Notation DC_START0 := 2448 (only parsing).
Notation DC_CYCLE0 := 2464 (only parsing).
Notation TCL_TRIM_MAX_PPB := 500000 (only parsing).
Notation INT64_MAX := 9223372036854775807 (only parsing).
Notation INT64_MIN := (-9223372036854775808) (only parsing).

Record esc_dc_cfg_t := mkDcCfg { width : Z; hop_ns : Z; ref_drift_ppb : Z; other_drift_ppb : Z; no_dc_mask : Z }.

Definition overlaps (off l reg_ reg_len : Z) : bool := (off <? reg_ + reg_len) && (reg_ <? off + l).
Definition floor_div (a b : Z) : Z :=
  let q := Z.quot a b in
  if negb (Z.rem a b =? 0) && negb (Bool.eqb (a <? 0) (b <? 0)) then q - 1 else q.
Definition pos_mod (a b : Z) : Z := let r := Z.rem a b in if r <? 0 then r + b else r.

Section dc.
Context (g_cfg : esc_dc_cfg_t) (g_n : Z).

(** ** Register views *)

Definition offset_internal (e : esc_t) : Z :=
  if width g_cfg =? 64 then i64 (rd_le64 (regs e) DC_SYSOFFSET) else rd_le32 (regs e) DC_SYSOFFSET.
Definition esc_dc_frame_sys (e : esc_t) : Z := i64 (frame_local_ns (dc e) + offset_internal e).
Definition wr_time_view (r : list Z) (p t : Z) : list Z :=
  if width g_cfg =? 64 then wr_le64 r p t else wr_le32 (wr_le32 r p t) (p + 4) 0.

(** ** Clock

    Host time is a [uint64_t], the local time an [int64_t]; the 128-bit product is cut to 64 bits
    when it is added. *)

Definition clock_advance (d : esc_dc_state_t) (host_ns : Z) : esc_dc_state_t :=
  if negb (clock_started d) then d <| clock_started := true |> <| last_host_ns := host_ns |>
  else if host_ns <=? last_host_ns d then d
  else
    let dt := u64 (host_ns - last_host_ns d) in
    let num := dt * (1000000000 + drift_ppb d + trim_ppb d) + frac_e9 d in
    d <| local_ns ::= fun l => i64 (l + i64 (Z.quot num 1000000000)) |> <| frac_e9 := Z.rem num 1000000000 |> <| last_host_ns := host_ns |>.
Definition node_begin (i t_host_ns : Z) (e : esc_t) : esc_t :=
  e <| dc ::= fun d => let d := clock_advance d t_host_ns in d <| frame_local_ns := i64 (local_ns d + i * hop_ns g_cfg) |> |>.
Definition esc_dc_frame_begin (chain : list esc_t) (t_host_ns : Z) : list esc_t :=
  if width g_cfg =? 0 then chain else imap (fun i e => node_begin (Z.of_nat i) t_host_ns e) chain.

Definition esc_dc_node_reset (e : esc_t) (i : Z) : esc_t :=
  if width g_cfg =? 0 then e
  else
    let feat := Z.lor (reg e 8) (Z.shiftl (reg e 9) 8) in
    let feat := if (i <? 64) && Z.testbit (no_dc_mask g_cfg) i then bits_clear feat 12
                else let f := Z.lor feat 4 in if width g_cfg =? 64 then Z.lor f 8 else f in
    e <| regs ::= fun r => wr (wr r 8 (u8 feat)) 9 (u8 (Z.shiftr feat 8)) |>
      <| dc := dc_zero <| drift_ppb := if i =? 0 then ref_drift_ppb g_cfg else Z.quot ((i mod 5 - 2) * other_drift_ppb g_cfg) 2 |>
                       <| local_ns := (i + 1) * 987654321 + i * 123457 |>
                       <| w_phase_min := INT64_MAX |> <| w_off0_min := INT64_MAX |> <| w_off0_max := INT64_MIN |> <| w_phase_max := INT64_MIN |> |>.
(** The settings in use: a width other than 32 or 64 turns the model off. *)
Definition setup_cfg (cfg : esc_dc_cfg_t) : esc_dc_cfg_t :=
  if (width cfg =? 32) || (width cfg =? 64) then cfg
  else mkDcCfg 0 (hop_ns cfg) (ref_drift_ppb cfg) (other_drift_ppb cfg) (no_dc_mask cfg).

(** ** Read side *)

Definition next_sync0 (d : esc_dc_state_t) (sys : Z) : Z :=
  if sync0_start d <=? sys
  then sync0_start d + (floor_div (sys - sync0_start d) (sync0_cycle d) + 1) * sync0_cycle d
  else sync0_start d.
Definition esc_dc_before_read (e : esc_t) (off l : Z) : esc_t :=
  if width g_cfg =? 0 then e
  else
    let e := if overlaps off l DC_SYSTIME 8
             then e <| regs ::= fun r => wr_time_view r DC_SYSTIME (esc_dc_frame_sys e) |> <| dc ::= fun d => d <| read_systime := true |> |>
             else e in
    let e := if overlaps off l DC_SYSDIFF 4
             then let f := Z.quot (dt_filt_x16 (dc e)) 16 in
                  let mag := Z.land (if f <? 0 then - f else f) 2147483647 in
                  e <| regs ::= fun r => wr_le32 r DC_SYSDIFF (Z.lor mag (if 0 <=? f then 2147483648 else 0)) |>
             else e in
    if sync0_active (dc e) && (0 <? sync0_cycle (dc e)) && overlaps off l DC_START0 8
    then e <| regs ::= fun r => wr_time_view r DC_START0 (next_sync0 (dc e) (esc_dc_frame_sys e)) |>
    else e.

(** ** Write side *)

Definition latch_receive_times (e : esc_t) : esc_t :=
  let pos := position_in_chain e in
  let t0 := frame_local_ns (dc e) in
  let t1 := if pos <? g_n - 1 then t0 + 2 * hop_ns g_cfg * (g_n - 1 - pos) else 0 in
  e <| regs ::= fun r => wr_time_view (wr_le32 (wr_le32 (wr_le32 (wr_le32 r DC_RECV_PORT0 t0) DC_RECV_PORT1 t1) DC_RECV_PORT2 0) DC_RECV_PORT3 0) DC_RECV_EPU t0 |>.

Definition clamp (m v : Z) : Z := let v := if m <? v then m else v in if v <? - m then - m else v.
(** The new state of the loop for one measured difference. *)
Definition tcl_update (d : esc_dc_state_t) (dt : Z) : esc_dc_state_t :=
  let f := dt_filt_x16 d + (dt - Z.quot (dt_filt_x16 d) 16) in
  let e := Z.quot f 16 in
  let i := clamp (TCL_TRIM_MAX_PPB * 16) (tcl_i_x16 d - Z.quot f 32) in
  d <| last_dt_ns := dt |> <| dt_writes ::= fun n => u64 (n + 1) |> <| dt_filt_x16 := f |> <| tcl_i_x16 := i |>
    <| trim_ppb := clamp TCL_TRIM_MAX_PPB (Z.quot i 16 - e * 5) |>.
Definition time_control_loop (e : esc_t) (received_lo : Z) : esc_t :=
  let delay := rd_le32 (regs e) DC_SYSDELAY in
  let dt := i32 (u32 (u32 (esc_dc_frame_sys e) - delay - received_lo)) in
  e <| dc ::= fun d => tcl_update d dt |>.

Definition sync0_activation (e : esc_t) : esc_t :=
  let act := reg e DC_ACTIVATION in
  if negb (Z.land act 3 =? 3) then e <| dc ::= fun d => d <| sync0_active := false |> |>
  else
    let now := esc_dc_frame_sys e in
    let cycle := rd_le32 (regs e) DC_CYCLE0 in
    let run start d := d <| sync0_start := start |> <| sync0_cycle := cycle |> <| sync0_k_last := -1 |>
                         <| pd_since_event := true |> <| sync0_active := true |> in
    if width g_cfg =? 64 then
      let start := i64 (rd_le64 (regs e) DC_START0) in
      if start <=? now then e <| dc ::= fun d => d <| start_in_past ::= fun n => u64 (n + 1) |> <| sync0_active := false |> |>
      else e <| dc ::= run start |>
    else
      let start := now + i32 (u32 (rd_le32 (regs e) DC_START0 - u32 now)) in
      if start <=? now then e <| dc ::= fun d => run (start + 4294967296) (d <| start_in_past ::= fun n => u64 (n + 1) |>) |>
      else e <| dc ::= run start |>.

Definition esc_dc_after_write (e : esc_t) (off : Z) (data : list Z) : esc_t :=
  let l := len data in
  if width g_cfg =? 0 then e
  else
    let e := if overlaps off l DC_RECV_PORT0 1 then latch_receive_times e else e in
    let e := if overlaps off l DC_SYSTIME 1 && (off <=? DC_SYSTIME) && (DC_SYSTIME + 4 <=? off + l)
             then time_control_loop e (rd_le32 data (DC_SYSTIME - off)) else e in
    let e := if overlaps off l DC_SYSTIME 8 then e <| regs ::= fun r => wr_time_view r DC_SYSTIME (esc_dc_frame_sys e) |> else e in
    let e := if (width g_cfg =? 32) && overlaps off l (DC_SYSOFFSET + 4) 4 then e <| regs ::= fun r => wr_le32 r (DC_SYSOFFSET + 4) 0 |> else e in
    let e := if overlaps off l DC_SPEEDSTART 2
             then e <| dc ::= fun d => d <| dt_filt_x16 := 0 |> <| trim_ppb := 0 |> <| tcl_i_x16 := 0 |> <| last_dt_ns := 0 |> |> else e in
    if overlaps off l DC_ACTIVATION 1 then sync0_activation e else e.

(** ** SYNC0 accounting *)

(** The pulses that passed since the last frame, at system time [sys]. *)
Definition account_pulses (d : esc_dc_state_t) (sys : Z) : esc_dc_state_t :=
  let k := Z.quot (sys - sync0_start d) (sync0_cycle d) in
  if (sync0_start d <=? sys) && (sync0_k_last d <? k)
  then
    let new_ev := k - sync0_k_last d in
    let nofr := (if pd_since_event d then 0 else 1) + (new_ev - 1) in
    d <| w_events ::= fun n => n + new_ev |> <| tot_events ::= fun n => n + new_ev |>
      <| w_no_frame ::= fun n => n + nofr |> <| tot_no_frame ::= fun n => n + nofr |>
      <| sync0_k_last := k |> <| pd_since_event := false |>
  else d.
(** One frame at system time [sys]; [has_pd]: it carries process data. *)
Definition sync0_account (d : esc_dc_state_t) (sys : Z) (has_pd : bool) : esc_dc_state_t :=
  if negb (sync0_active d) || (sync0_cycle d <=? 0) then d
  else
    let d := account_pulses d sys in
    if has_pd
    then
      let d := d <| pd_since_event := true |> <| w_pd ::= fun n => n + 1 |> <| tot_pd ::= fun n => n + 1 |> in
      if sync0_start d <=? sys
      then
        let ph := pos_mod (sys - sync0_start d) (sync0_cycle d) in
        d <| w_phase_min ::= fun m => if ph <? m then ph else m |> <| w_phase_max ::= fun m => if m <? ph then ph else m |>
          <| w_phase_sum ::= fun m => m + ph |>
      else d
    else d.

(** Statistics of the chain: [g_sp_max], [g_up_max], [g_sp_sum], [g_sp_n], [g_ref_idx], [g_ref_changes]. *)
Record dc_stats := mkStats { sp_max : Z; up_max : Z; sp_sum : Z; sp_n : Z; ref_idx : Z; ref_changes : Z }.
Definition stats0 : dc_stats := mkStats INT64_MIN 0 0 0 (-1) 0.

Definition off_to (chain : list esc_t) (i r : nat) : Z :=
  match chain !! i, chain !! r with
  | Some a, Some b =>
      let o := esc_dc_frame_sys a - Z.of_nat i * hop_ns g_cfg - (esc_dc_frame_sys b - Z.of_nat r * hop_ns g_cfg) in
      if width g_cfg =? 32 then i32 (u32 o) else o
  | _, _ => 0
  end.
(** Spread of the nodes from the reference on, largest offset of those before it. *)
Definition spread (chain : list esc_t) (ref : nat) : Z * Z * Z :=
  foldl (fun '(mn, mx, up) i =>
           let o := off_to chain i ref in
           if (ref <=? i)%nat then (Z.min o mn, Z.max o mx, up) else (mn, mx, Z.max (Z.abs o) up)) (0, 0, 0) (seq 0 (length chain)).
Definition note_offset (chain : list esc_t) (ref i : nat) (e : esc_t) : esc_t :=
  let o := off_to chain i ref in
  e <| dc ::= fun d => d <| w_off0_min ::= fun m => if o <? m then o else m |> <| w_off0_max ::= fun m => if m <? o then o else m |> |>.
Definition update_stats (st : dc_stats) (ref mn mx up : Z) : dc_stats :=
  mkStats (Z.max (sp_max st) (mx - mn)) (Z.max (up_max st) up) (sp_sum st + (mx - mn)) (sp_n st + 1) ref
    (if (0 <=? ref_idx st) && negb (ref =? ref_idx st) then ref_changes st + 1 else ref_changes st).
Definition esc_dc_frame_end (chain : list esc_t) (st : dc_stats) (has_pd : bool) : list esc_t * dc_stats :=
  if width g_cfg =? 0 then (chain, st)
  else
    let ref := fst <$> list_find (fun e => read_systime (dc e) = true) chain in
    let chain := (fun e => e <| dc ::= fun d => d <| read_systime := false |> |>) <$> chain in
    let '(chain, st) :=
      match ref with
      | Some r =>
          if has_pd && match chain !! r with Some e => sync0_active (dc e) | None => false end
          then let '(mn, mx, up) := spread chain r in
               (imap (note_offset chain r) chain, update_stats st (Z.of_nat r) mn mx up)
          else (chain, st)
      | None => (chain, st)
      end in
    ((fun e => e <| dc ::= fun d => sync0_account d (esc_dc_frame_sys e) has_pd |>) <$> chain, st).

(** What a report resets: the windows of the chain and of every node. *)
Definition window_reset (d : esc_dc_state_t) : esc_dc_state_t :=
  d <| w_off0_min := INT64_MAX |> <| w_off0_max := INT64_MIN |> <| w_events := 0 |> <| w_no_frame := 0 |> <| w_pd := 0 |>
    <| w_phase_sum := 0 |> <| w_phase_min := INT64_MAX |> <| w_phase_max := INT64_MIN |>.
Definition esc_dc_report (chain : list esc_t) (st : dc_stats) : list esc_t * dc_stats :=
  if width g_cfg =? 0 then (chain, st)
  else ((fun e => e <| dc ::= window_reset |>) <$> chain, mkStats INT64_MIN 0 0 0 (ref_idx st) (ref_changes st)).
End dc.

(** Power-on of the whole chain with the settings [cfg]; gives the settings in use. *)
Definition esc_dc_setup (chain : list esc_t) (cfg : esc_dc_cfg_t) : list esc_t * esc_dc_cfg_t :=
  let g_cfg := setup_cfg cfg in
  (imap (fun i e => esc_dc_node_reset g_cfg e (Z.of_nat i)) chain, g_cfg).

(** Does the frame carry an LRD, LWR or LRW datagram? *)
Fixpoint has_pd_loop (fuel : nat) (buf : list Z) (off end_ : Z) : bool :=
  match fuel with
  | O => false
  | S fuel =>
      if off + 10 + 2 <=? end_ then
        let cmd := rd buf off in
        let dlen := Z.land (Z.lor (rd buf (off + 6)) (Z.shiftl (rd buf (off + 7)) 8)) 2047 in
        if (cmd =? 10) || (cmd =? 11) || (cmd =? 12) then true else has_pd_loop fuel buf (off + 10 + dlen + 2) end_
      else false
  end.
Definition esc_dc_frame_has_pd (buf : list Z) : bool :=
  let l := len buf in
  if l <? 16 then false
  else
    let ec_len := Z.land (Z.lor (rd buf 14) (Z.shiftl (rd buf 15) 8)) 2047 in
    has_pd_loop 171 buf 16 (Z.min (16 + ec_len) l).

(** ** The clock *)

(** Time of the clock in units of 10^-9 ns, and the invariant of the rate. *)
Definition clock_fine (d : esc_dc_state_t) : Z := local_ns d * 1000000000 + frac_e9 d.
Record clock_wf (d : esc_dc_state_t) : Prop := {
  cw_frac : 0 <= frac_e9 d < 1000000000;
  cw_trim : Z.abs (trim_ppb d) <= TCL_TRIM_MAX_PPB;
  cw_int : Z.abs (tcl_i_x16 d) <= TCL_TRIM_MAX_PPB * 16;
  cw_filt : Z.abs (dt_filt_x16 d) <= 16 * 2147483648;
}.

Lemma clamp_abs m v : 0 <= m -> Z.abs (clamp m v) <= m.
Proof. unfold clamp. intros. repeat case_if; bprop; lia. Qed.
Lemma tcl_update_wf d dt : clock_wf d -> - 2147483648 <= dt < 2147483648 -> clock_wf (tcl_update d dt).
Proof.
  intros [F T I G] Hdt. split; cbn; [done|apply clamp_abs; lia|apply clamp_abs; lia|].
  clear -G Hdt. Z.to_euclidean_division_equations. lia.
Qed.

(** What happens to one node between power-on and now: a frame reaches it, a
    datagram reads or writes registers, the rest of the node stores registers, a frame ends. *)
Inductive dc_op :=
| OpBegin (t_host_ns : Z) | OpRead (off l : Z) | OpWrite (off : Z) (data : list Z) | OpRegs (r : list Z) | OpEnd (has_pd : bool).
Definition dc_op_run (g_cfg : esc_dc_cfg_t) (g_n i : Z) (e : esc_t) (o : dc_op) : esc_t :=
  match o with
  | OpBegin t => node_begin g_cfg i t e
  | OpRead off l => esc_dc_before_read g_cfg e off l
  | OpWrite off data => esc_dc_after_write g_cfg g_n (e <| regs ::= fun r => memcpy r off data |>) off data
  | OpRegs r => e <| regs := r |>
  | OpEnd pd => e <| dc ::= fun d => sync0_account d (esc_dc_frame_sys g_cfg e) pd |>
  end.

(** The part of the clock that only a frame start moves. *)
Definition clock_part (d : esc_dc_state_t) : bool * Z * Z * Z * Z :=
  (clock_started d, last_host_ns d, local_ns d, frac_e9 d, drift_ppb d).
(** The part of the time control loop. *)
Definition tcl_part (d : esc_dc_state_t) : Z * Z * Z := (trim_ppb d, tcl_i_x16 d, dt_filt_x16 d).

Lemma clock_wf_parts d d' : clock_part d' = clock_part d -> tcl_part d' = tcl_part d -> clock_wf d -> clock_wf d'.
Proof. unfold clock_part, tcl_part. intros [=] [=] [F T I G]. split; congruence. Qed.
Lemma account_parts d sys pd :
  clock_part (sync0_account d sys pd) = clock_part d /\ tcl_part (sync0_account d sys pd) = tcl_part d.
Proof. unfold sync0_account, account_pulses. cbv zeta. repeat case_if; done. Qed.
Lemma before_read_parts g e off l :
  clock_part (dc (esc_dc_before_read g e off l)) = clock_part (dc e) /\ tcl_part (dc (esc_dc_before_read g e off l)) = tcl_part (dc e).
Proof. unfold esc_dc_before_read. repeat case_if; done. Qed.
Lemma activation_parts g e :
  clock_part (dc (sync0_activation g e)) = clock_part (dc e) /\ tcl_part (dc (sync0_activation g e)) = tcl_part (dc e).
Proof. unfold sync0_activation. cbv zeta. repeat case_if; done. Qed.

(** A write keeps the clock where it is and the loop in its bounds. *)
Lemma after_write_step g n e off data :
  clock_part (dc (esc_dc_after_write g n e off data)) = clock_part (dc e) /\
  (clock_wf (dc e) -> clock_wf (dc (esc_dc_after_write g n e off data))).
Proof.
  unfold esc_dc_after_write. case_if; [done|].
  set (P := fun e' => clock_part (dc e') = clock_part (dc e) /\ (clock_wf (dc e) -> clock_wf (dc e'))).
  match goal with |- clock_part (dc ?x) = _ /\ _ => change (P x) end.
  assert (S1 : P (if overlaps off (len data) DC_RECV_PORT0 1 then latch_receive_times g n e else e)) by (case_if; split; done).
  revert S1. generalize (if overlaps off (len data) DC_RECV_PORT0 1 then latch_receive_times g n e else e). intros e1 S1.
  match goal with |- context [time_control_loop g e1 ?v] => assert (S2 : P (if overlaps off (len data) DC_SYSTIME 1 && (off <=? DC_SYSTIME) && (DC_SYSTIME + 4 <=? off + len data) then time_control_loop g e1 v else e1)) end.
  { case_if; [|done]. destruct S1 as [C W]. split; [done|]. intros Hw. apply tcl_update_wf; [by apply W|].
    match goal with |- context [i32 ?v] => pose proof (i32_range v) end. unfold_c. lia. }
  revert S2. match goal with |- P ?x -> _ => generalize x end. intros e2 S2. cbv zeta.
  match goal with |- P (if _ then sync0_activation g ?x else _) => assert (S3 : P x) end.
  { destruct (overlaps off (len data) DC_SYSTIME 8), (_ && _), (overlaps off (len data) DC_SPEEDSTART 2);
      first [exact S2|destruct S2 as [C W]; split; [exact C|intros Hw; specialize (W Hw); destruct W; split; cbn; lia]]. }
  case_if; [|done].
  match goal with |- P (sync0_activation g ?x) => destruct (activation_parts g x) as [A B] end.
  destruct S3 as [C W]. split; [by rewrite A|]. intros Hw. eapply clock_wf_parts; eauto.
Qed.

(** How far a frame start moves the clock, while host and local time stay in range: the
    rate is below 2. *)
Lemma clock_advance_step d t :
  clock_wf d -> Z.abs (drift_ppb d) <= 999500000 -> clock_started d = true ->
  0 <= last_host_ns d -> t < 18446744073709551616 -> 0 <= local_ns d ->
  local_ns d + 2 * Z.max 0 (t - last_host_ns d) + 1 < 9223372036854775808 ->
  let d' := clock_advance d t in
  clock_wf d' /\ clock_started d' = true /\ drift_ppb d' = drift_ppb d /\ last_host_ns d' = Z.max (last_host_ns d) t /\
  clock_fine d' = clock_fine d + (last_host_ns d' - last_host_ns d) * (1000000000 + drift_ppb d + trim_ppb d).
Proof.
  intros W D S H0 Ht Hl0 Hl. unfold clock_advance. rewrite S. cbn [negb]. case_if; bprop; [split_and!; try done; lia|].
  destruct W as [F T I G]. unfold clock_fine. cbn -[Z.quot Z.rem Z.mul u64 i64].
  replace (u64 (t - last_host_ns d)) with (t - last_host_ns d) by clia.
  set (num := (t - last_host_ns d) * (1000000000 + drift_ppb d + trim_ppb d) + frac_e9 d).
  assert (0 <= num) by (unfold num; nia). assert (num <= (t - last_host_ns d) * 2000000000 + 1000000000) by (unfold num; nia).
  pose proof (Z.quot_rem' num 1000000000). pose proof (Z.rem_bound_pos num 1000000000 ltac:(lia) ltac:(lia)).
  assert (Q : 0 <= Z.quot num 1000000000 <= 2 * (t - last_host_ns d) + 1) by lia.
  assert (Ii : forall v, is_i64 v -> i64 v = v) by (intros v Hv; clia).
  rewrite (Ii (Z.quot num 1000000000)), Ii by (unfold is_i64; lia).
  split_and!; try done; lia.
Qed.

(** Bounds on the clock that every step of the history keeps. *)
Definition clock_between (d d' : esc_dc_state_t) : Prop :=
  clock_wf d' /\ clock_started d' = true /\ drift_ppb d' = drift_ppb d /\ last_host_ns d <= last_host_ns d' /\
  clock_fine d <= clock_fine d' /\
  Z.abs (clock_fine d' - clock_fine d - (last_host_ns d' - last_host_ns d) * (1000000000 + drift_ppb d)) <=
    (last_host_ns d' - last_host_ns d) * TCL_TRIM_MAX_PPB.
Lemma clock_between_refl d : clock_wf d -> clock_started d = true -> clock_between d d.
Proof. unfold clock_between. intros. split_and!; try done; lia. Qed.
Lemma clock_between_trans a b c : clock_between a b -> clock_between b c -> clock_between a c.
Proof. unfold clock_between. intros (? & ? & E & ? & ? & ?) (? & ? & E' & ? & ? & ?). rewrite E in *. split_and!; try done; nia. Qed.
(** [t_max] bounds the host times of the frames. *)
Definition host_until (t_max : Z) (o : dc_op) : Prop := match o with OpBegin t => t <= t_max | _ => True end.
(** Room for the local time until the host time [t_max]. *)
Definition room (t_max : Z) (d : esc_dc_state_t) : Prop :=
  0 <= last_host_ns d <= t_max /\ 0 <= local_ns d /\ clock_fine d + 2000000000 * (t_max - last_host_ns d) < 9223372036854775807 * 1000000000.
Lemma dc_op_run_between t_max g n i e o :
  Z.abs (drift_ppb (dc e)) <= 999500000 -> clock_wf (dc e) -> clock_started (dc e) = true ->
  t_max < 18446744073709551616 -> room t_max (dc e) -> host_until t_max o ->
  clock_between (dc e) (dc (dc_op_run g n i e o)) /\ room t_max (dc (dc_op_run g n i e o)).
Proof.
  intros D W S Tm Rm Ho. cut (clock_between (dc e) (dc (dc_op_run g n i e o)) /\ last_host_ns (dc (dc_op_run g n i e o)) <= t_max).
  { intros [B L]. split; [done|]. destruct B as (W' & S' & D' & L' & M & R). destruct Rm as (R1 & R2 & R3).
    pose proof (cw_frac _ W). pose proof (cw_frac _ W'). unfold room, clock_fine in *. split_and!; [lia|lia|lia|nia]. }
  destruct Rm as (R1 & R2 & R3). pose proof (cw_frac _ W) as Fr.
  assert (K : forall d', clock_part d' = clock_part (dc e) -> clock_wf d' -> clock_between (dc e) d' /\ last_host_ns d' <= t_max).
  { unfold clock_part, clock_between, clock_fine. intros d' [=] W'. split_and!; try done; try lia; congruence. }
  destruct o as [t|off l|off data|r|pd]; cbn [dc_op_run].
  - cbn [host_until] in Ho. pose proof (clock_advance_step (dc e) t W D S) as (W' & S' & D' & L & E); [lia|lia|done|unfold clock_fine in R3; lia|].
    unfold clock_between, node_begin. cbn -[clock_advance i64]. unfold clock_fine in *. cbn -[clock_advance i64].
    pose proof (cw_trim _ W). assert (0 <= 1000000000 + drift_ppb (dc e) + trim_ppb (dc e)) by lia.
    assert (Hh : 0 <= last_host_ns (clock_advance (dc e) t) - last_host_ns (dc e)) by lia. assert (Lm : last_host_ns (dc e) <= last_host_ns (clock_advance (dc e) t) <= t_max) by lia.
    clear L R3. revert Hh E. generalize (last_host_ns (clock_advance (dc e) t) - last_host_ns (dc e)). intros h Hh E.
    split_and!; try done; [|lia|nia|rewrite E; nia|lia].
    revert W'. apply clock_wf_parts; done.
  - destruct (before_read_parts g e off l). apply K; [done|]. by eapply clock_wf_parts.
  - destruct (after_write_step g n (e <| regs ::= fun r => memcpy r off data |>) off data) as [A B]. apply K; [done|]. by apply B.
  - by apply K.
  - destruct (account_parts (dc e) (esc_dc_frame_sys g e) pd). apply K; [done|]. by eapply clock_wf_parts.
Qed.

(** C33: The clock of a node.  Whatever frames, register reads and register
    writes reach a node whose clock runs, in any order, at any host times up to a
    bound that leaves the 64-bit local time (not negative at the start) room at twice the
    host rate, and for a drift of at most 999500000 ppb either way: its local
    time never goes back, and between two instants it differs from the elapsed
    host time, scaled by the node's drift, by at most 500 ppm and one
    nanosecond; the trim, the integral and the filter of the time control loop
    stay inside the ranges the 64-bit arithmetic needs. *)
Theorem dc_clock_bounded (g : esc_dc_cfg_t) (n i t_max : Z) (e : esc_t) (ops : list dc_op) :
  Z.abs (drift_ppb (dc e)) <= 999500000 -> clock_wf (dc e) -> clock_started (dc e) = true ->
  Forall (host_until t_max) ops -> t_max < 18446744073709551616 -> 0 <= last_host_ns (dc e) <= t_max ->
  0 <= local_ns (dc e) -> local_ns (dc e) + 2 * (t_max - last_host_ns (dc e)) < 9223372036854775806 ->
  let e' := foldl (dc_op_run g n i) e ops in
  let h := last_host_ns (dc e') - last_host_ns (dc e) in
  let l := local_ns (dc e') - local_ns (dc e) in
  clock_wf (dc e') /\ 0 <= h /\ 0 <= l /\
  Z.abs (l * 1000000000 - h * (1000000000 + drift_ppb (dc e))) <= h * 500000 + 1000000000.
Proof.
  intros D W S Ho Tm Hh Hl Hr e' h l. assert (Rm : room t_max (dc e)).
  { pose proof (cw_frac _ W). unfold room, clock_fine. split_and!; [lia|lia|lia|lia]. }
  assert (B : clock_between (dc e) (dc e')).
  { subst e'. clear h l Hh Hl Hr. revert e D W S Rm. induction Ho as [|o ops Ho _ IH]; intros e D W S Rm; [by apply clock_between_refl|].
    cbn [foldl]. destruct (dc_op_run_between t_max g n i e o D W S Tm Rm Ho) as [B Rm']. eapply clock_between_trans; [exact B|].
    destruct B as (W' & S' & D' & _). apply IH; [by rewrite D'|done|done|done]. }
  destruct B as (W' & S' & D' & L & M & R). pose proof (cw_frac _ W). pose proof (cw_frac _ W'). unfold clock_fine in *.
  split_and!; [done|unfold h; lia|unfold l; lia|unfold h, l; lia].
Qed.

(** ** SYNC0 *)

(** A 32-bit and a 64-bit value read back from the time registers. *)
Lemma rd_wr_le32_byte m a v i : 0 <= a -> a + 3 < len m -> 0 <= i < 4 -> rd (wr_le32 m a v) (a + i) = u8 (Z.shiftr v (8 * i)).
Proof.
  intros. unfold wr_le32.
  assert (i = 0 \/ i = 1 \/ i = 2 \/ i = 3) as [-> | [-> | [-> | ->]]] by lia; rewrite ?Z.add_0_r; mem_simp; apply land_255.
Qed.
Lemma rd_le32_wr_le32 m a v : bytes m -> 0 <= a -> a + 3 < len m -> rd_le32 (wr_le32 m a v) a = u32 v.
Proof.
  intros. rewrite rd_le32_add by (by apply bytes_wr_le32).
  pose proof (rd_wr_le32_byte m a v) as B. rewrite <- (Z.add_0_r a) at 2. rewrite !B by lia.
  rewrite !Z.shiftr_div_pow2 by lia. clia.
Qed.
Lemma rd_le32_wr_le32_ne m a b v : 0 <= a -> 0 <= b -> b + 4 <= a \/ a + 4 <= b -> rd_le32 (wr_le32 m a v) b = rd_le32 m b.
Proof. intros. apply rd_le32_ext. intros. apply rd_wr_le32_ne; lia. Qed.
Lemma rd_le64_wr_le64 m a v : bytes m -> 0 <= a -> a + 7 < len m -> rd_le64 (wr_le64 m a v) a = u64 v.
Proof.
  intros. unfold rd_le64, wr_le64. rewrite rd_le32_wr_le32_ne by lia.
  rewrite rd_le32_wr_le32 by (rewrite ?len_wr_le32; auto with ecm; lia).
  rewrite rd_le32_wr_le32 by (rewrite ?len_wr_le32; auto with ecm; lia).
  rewrite lor_shift_add by (pose proof (u32_range v); unfold_c; lia). rewrite Z.shiftr_div_pow2 by lia. clia.
Qed.

Lemma floor_div_nonneg a b : 0 <= a -> 0 < b -> floor_div a b = a / b.
Proof.
  intros. unfold floor_div. rewrite (proj2 (Z.ltb_ge a 0)), (proj2 (Z.ltb_ge b 0)) by lia. cbn [Bool.eqb negb]. rewrite andb_false_r.
  by rewrite Z.quot_div_nonneg by lia.
Qed.
Lemma next_sync0_spec d sys :
  0 < sync0_cycle d ->
  let p := next_sync0 d sys in
  sys < p /\ sync0_start d <= p /\ (sync0_cycle d | p - sync0_start d) /\ (p = sync0_start d \/ p <= sys + sync0_cycle d).
Proof.
  intros Hc. cbv zeta. unfold next_sync0. case_if; bprop.
  - rewrite floor_div_nonneg by lia. set (q := (sys - sync0_start d) / sync0_cycle d).
    pose proof (Z.div_mod (sys - sync0_start d) (sync0_cycle d) ltac:(lia)).
    pose proof (Z.mod_pos_bound (sys - sync0_start d) (sync0_cycle d) Hc). fold q in H.
    assert (0 <= q) by (apply Z.div_pos; lia).
    split_and!; [nia|nia|exists (q + 1); lia|right; nia].
  - split_and!; [lia|lia|exists 0; lia|by left].
Qed.

(** The offset register is all the system time depends on. *)
Lemma offset_internal_ext g e e' :
  (forall i, DC_SYSOFFSET <= i < DC_SYSOFFSET + 8 -> rd (regs e') i = rd (regs e) i) -> offset_internal g e' = offset_internal g e.
Proof.
  intros H. unfold offset_internal, rd_le64. rewrite (rd_le32_ext (regs e') (regs e) DC_SYSOFFSET) by (intros; apply H; lia).
  by rewrite (rd_le32_ext (regs e') (regs e) (DC_SYSOFFSET + 4)) by (intros; apply H; lia).
Qed.
Lemma rd_wr_time_view_ne g m a v b : 0 <= a -> 0 <= b -> b < a \/ a + 8 <= b -> rd (wr_time_view g m a v) b = rd m b.
Proof. intros. unfold wr_time_view. case_if; mem_simp; done. Qed.
Lemma len_wr_time_view g m a v : len (wr_time_view g m a v) = len m.
Proof. unfold wr_time_view. case_if; by autorewrite with memlen. Qed.
Lemma bytes_wr_time_view g m a v : bytes m -> bytes (wr_time_view g m a v).
Proof. intros. unfold wr_time_view. case_if; auto with ecm. Qed.
Hint Rewrite len_wr_time_view : memlen.
#[export] Hint Resolve bytes_wr_time_view : ecm.

(** A read of 0x0990 while SYNC0 runs returns the next pulse.  The value in
    the register is the low 32 or all 64 bits of an instant after the system
    time the frame met, on the pulse grid of the start time, and the earliest
    such instant: one cycle earlier is not after the system time, or is before
    the first pulse. *)
Theorem sync0_next_pulse (g : esc_dc_cfg_t) (e : esc_t) (off l : Z) :
  width g = 32 \/ width g = 64 -> bytes (regs e) -> len (regs e) = ESC_REG_SPACE_SIZE ->
  sync0_active (dc e) = true -> 0 < sync0_cycle (dc e) -> overlaps off l DC_START0 8 = true ->
  exists p, let e' := esc_dc_before_read g e off l in
    rd_le64 (regs e') DC_START0 = (if width g =? 64 then u64 p else u32 p) /\
    esc_dc_frame_sys g e < p /\ sync0_start (dc e) <= p /\ (sync0_cycle (dc e) | p - sync0_start (dc e)) /\
    (p = sync0_start (dc e) \/ p - sync0_cycle (dc e) <= esc_dc_frame_sys g e).
Proof.
  intros Hw Hb Hl Ha Hc Ho. exists (next_sync0 (dc e) (esc_dc_frame_sys g e)). cbv zeta.
  pose proof (next_sync0_spec (dc e) (esc_dc_frame_sys g e) Hc) as (P1 & P2 & P3 & P4).
  split; [|split_and!; try done; lia].
  unfold esc_dc_before_read. rewrite (proj2 (Z.eqb_neq (width g) 0)) by lia. cbv zeta.
  match goal with |- context [if sync0_active (dc ?x) && _ && _ then _ else _] =>
    assert (I : bytes (regs x) /\ len (regs x) = 8192 /\ sync0_active (dc x) = true /\ sync0_cycle (dc x) = sync0_cycle (dc e) /\
                esc_dc_frame_sys g x = esc_dc_frame_sys g e /\ next_sync0 (dc x) = next_sync0 (dc e)); [|revert I; generalize x] end.
  { destruct (overlaps off l DC_SYSTIME 8), (overlaps off l DC_SYSDIFF 4);
      (split_and!; [cbn -[wr_time_view wr_le32]; auto with ecm|cbn -[wr_time_view wr_le32]; by autorewrite with memlen|done|done| |done]);
      (unfold esc_dc_frame_sys; f_equal; f_equal; apply offset_internal_ext; intros; cbn -[wr_time_view wr_le32];
       rewrite ?rd_wr_le32_ne, ?rd_wr_time_view_ne by lia; done). }
  intros x (Xb & Xl & Xa & Xc & Xs & Xn). rewrite Xa, Xc, Ho, (proj2 (Z.ltb_lt 0 _) Hc). cbn -[rd_le64 wr_time_view].
  rewrite Xs, Xn. unfold wr_time_view. destruct Hw as [-> | ->]; cbn -[rd_le64 wr_le64 wr_le32].
  - unfold rd_le64. rewrite rd_le32_wr_le32_ne by lia.
    rewrite !rd_le32_wr_le32 by (rewrite ?len_wr_le32; auto with ecm; lia). cbn. by rewrite Z.lor_0_r.
  - rewrite rd_le64_wr_le64 by (done || lia). done.
Qed.

(** ** SYNC0 accounting against the frames *)

(** The pulse interval an instant lies in: pulse [k] is at [start + k * cycle]. *)
Definition interval (d : esc_dc_state_t) (sys : Z) : Z := (sys - sync0_start d) / sync0_cycle d.
Definition pd_in (d : esc_dc_state_t) (fs : list (Z * bool)) (j : Z) : bool :=
  existsb (fun '(s, pd) => pd && (interval d s =? j)) fs.
(** Number of the first [n] pulse intervals without a process data frame. *)
Fixpoint empty_intervals (d : esc_dc_state_t) (fs : list (Z * bool)) (n : nat) : Z :=
  match n with
  | O => 0
  | S n => empty_intervals d fs n + if pd_in d fs (Z.of_nat n) then 0 else 1
  end.
Definition pulses_seen (d : esc_dc_state_t) (fs : list (Z * bool)) : Z :=
  foldr (fun '(s, _) k => Z.max k (interval d s)) (-1) fs + 1.
Definition account_all (d : esc_dc_state_t) (fs : list (Z * bool)) : esc_dc_state_t :=
  foldl (fun d '(s, pd) => sync0_account d s pd) d fs.

Lemma pd_in_app d fs f j : pd_in d (fs ++ [f]) j = pd_in d fs j || pd_in d [f] j.
Proof. unfold pd_in. by rewrite existsb_app. Qed.
Lemma empty_app_later d fs f n :
  Z.of_nat n <= interval d f.1 -> empty_intervals d (fs ++ [f]) n = empty_intervals d fs n.
Proof.
  induction n as [|n IH]; intros H; [done|]. cbn [empty_intervals]. rewrite IH by lia. rewrite pd_in_app.
  destruct f as [s pd]. unfold pd_in at 2. cbn in H |- *. rewrite (proj2 (Z.eqb_neq _ _)) by lia. by rewrite andb_false_r, orb_false_r.
Qed.
Lemma empty_beyond d fs (k n : nat) :
  (forall f, f ∈ fs -> interval d f.1 < Z.of_nat k) -> (k <= n)%nat ->
  empty_intervals d fs n = empty_intervals d fs k + Z.of_nat (n - k).
Proof.
  intros H. induction n as [|n IH]; intros Hn; [replace k with 0%nat by lia; cbn; lia|].
  destruct (decide (k = S n)) as [->|]; [rewrite Nat.sub_diag; lia|]. cbn [empty_intervals]. rewrite IH by lia.
  assert (pd_in d fs (Z.of_nat n) = false) as ->; [|lia].
  apply not_true_is_false. intros E. apply existsb_exists in E as ([s pd] & Hin & E). apply list_elem_of_In in Hin.
  specialize (H _ Hin). cbn in H. bprop. lia.
Qed.
Lemma pulses_app d fs f : pulses_seen d (fs ++ [f]) = Z.max (pulses_seen d fs) (interval d f.1 + 1).
Proof. unfold pulses_seen. destruct f as [s pd]. rewrite foldr_app. cbn. induction fs as [|[s' pd'] fs IH]; cbn; lia. Qed.
Lemma pulses_max d fs f : f ∈ fs -> interval d f.1 < pulses_seen d fs.
Proof. unfold pulses_seen. induction 1 as [[s pd] fs|f [s pd] fs Hin IH]; cbn in *; lia. Qed.
Lemma pulses_nonneg d fs : 0 <= pulses_seen d fs.
Proof. unfold pulses_seen. induction fs as [|[s pd] fs IH]; cbn; lia. Qed.

(** State of the accounting of [d0]'s pulses after the frames [fs]. *)
Record accounted (d0 : esc_dc_state_t) (fs : list (Z * bool)) (d : esc_dc_state_t) : Prop := {
  ac_cfg : sync0_active d = true /\ sync0_start d = sync0_start d0 /\ sync0_cycle d = sync0_cycle d0;
  ac_k : sync0_k_last d = pulses_seen d0 fs - 1;
  ac_since : pd_since_event d = if sync0_k_last d =? -1 then true else pd_in d0 fs (sync0_k_last d);
  ac_events : tot_events d = tot_events d0 + pulses_seen d0 fs;
  ac_pd : tot_pd d = tot_pd d0 + Z.of_nat (length (filter (fun f => f.2 = true) fs));
  ac_none : tot_no_frame d = tot_no_frame d0 + empty_intervals d0 fs (Z.to_nat (sync0_k_last d));
}.

Lemma pd_count_app (fs : list (Z * bool)) s pd :
  Z.of_nat (length (filter (fun f => f.2 = true) (fs ++ [(s, pd)]))) =
  Z.of_nat (length (filter (fun f => f.2 = true) fs)) + if pd then 1 else 0.
Proof. rewrite list.filter_app, length_app, filter_cons. destruct pd; cbn; [rewrite decide_True by done|rewrite decide_False by done]; cbn; lia. Qed.
Lemma pulses_le d fs s : 0 < sync0_cycle d -> (forall f, f ∈ fs -> f.1 <= s) -> pulses_seen d fs <= Z.max 0 (interval d s + 1).
Proof.
  intros Hc. unfold pulses_seen. induction fs as [|[t pd] fs IH]; intros H; cbn; [lia|].
  specialize (IH ltac:(intros; apply H; by constructor)).
  pose proof (H (t, pd) ltac:(constructor)) as Ht. cbn in Ht.
  assert (interval d t <= interval d s) by (unfold interval; apply Z.div_le_mono; lia). lia.
Qed.
Lemma empty_app_none d fs s n : empty_intervals d (fs ++ [(s, false)]) n = empty_intervals d fs n.
Proof. induction n as [|n IH]; [done|]. cbn. rewrite IH, pd_in_app. cbn. by rewrite orb_false_r. Qed.
Lemma account_pulses_ok d0 fs d s :
  0 < sync0_cycle d0 -> (forall f, f ∈ fs -> f.1 <= s) -> accounted d0 fs d -> accounted d0 (fs ++ [(s, false)]) (account_pulses d s).
Proof.
  intros Hc Hm [(Ca & Cs & Cc) K Si Ev Pd No].
  pose proof (pulses_le d0 fs s Hc Hm) as Hp. pose proof (pulses_nonneg d0 fs) as Hn. pose proof (pulses_app d0 fs (s, false)) as Ha. cbn in Ha.
  unfold account_pulses. rewrite Cs, Cc.
  assert (Q : sync0_start d0 <= s -> Z.quot (s - sync0_start d0) (sync0_cycle d0) = interval d0 s)
    by (intros; unfold interval; rewrite Z.quot_div_nonneg by lia; done).
  assert (Neg : s < sync0_start d0 -> interval d0 s < 0) by (intros; unfold interval; apply Z.div_lt_upper_bound; lia).
  case_if; bprop.
  - rewrite Q in * by lia. set (k := interval d0 s) in *.
    split; cbn; [done|lia|rewrite (proj2 (Z.eqb_neq k (-1))) by lia|lia| |].
    + symmetry. apply not_true_is_false. rewrite pd_in_app. cbn. rewrite orb_false_r. intros E.
      apply existsb_exists in E as ([t pd] & Hin & E). apply list_elem_of_In in Hin. pose proof (pulses_max d0 fs _ Hin). cbn in *. bprop. lia.
    + rewrite pd_count_app, Pd. lia.
    + rewrite No, empty_app_none, Si.
      rewrite (empty_beyond d0 fs (Z.to_nat (sync0_k_last d + 1)) (Z.to_nat k))
        by first [lia|intros f Hf; pose proof (pulses_max d0 fs f Hf); lia].
      destruct (sync0_k_last d =? -1) eqn:E; bprop; 
        [rewrite E in *; change (Z.to_nat (-1)) with 0%nat; change (Z.to_nat (-1 + 1)) with 0%nat; cbn [empty_intervals]; lia|].
      assert (0 <= sync0_k_last d) by lia.
      replace (Z.to_nat (sync0_k_last d + 1)) with (S (Z.to_nat (sync0_k_last d))) by lia. cbn [empty_intervals].
      rewrite Z2Nat.id by lia. case_if; lia.
  - assert (pulses_seen d0 (fs ++ [(s, false)]) = pulses_seen d0 fs) as E'.
    { rewrite Ha. apply andb_false_iff in E as [E|E]; bprop; [specialize (Neg ltac:(lia)); lia|].
      destruct (Z.leb_spec (sync0_start d0) s); [rewrite Q in E by lia; lia|specialize (Neg ltac:(lia)); lia]. }
    split; try done; [by rewrite E'| |by rewrite E'| |by rewrite empty_app_none].
    + rewrite Si. case_if; [done|]. rewrite pd_in_app. cbn. by rewrite orb_false_r.
    + rewrite pd_count_app, Pd. lia.
Qed.
Lemma accounted_step d0 fs d s pd :
  0 < sync0_cycle d0 -> (forall f, f ∈ fs -> f.1 <= s) -> accounted d0 fs d -> accounted d0 (fs ++ [(s, pd)]) (sync0_account d s pd).
Proof.
  intros Hc Hm A. pose proof (account_pulses_ok d0 fs d s Hc Hm A) as A1. destruct A as [(Ca & Cs & Cc) _ _ _ _ _].
  unfold sync0_account. rewrite Ca, (proj2 (Z.leb_gt _ 0)) by lia. cbn [negb orb]. cbv zeta.
  generalize dependent (account_pulses d s). clear d Ca Cs Cc. intros d [(Ca & Cs & Cc) K Si Ev Pd No].
  destruct pd; [|by split].
  pose proof (pulses_le d0 fs s Hc Hm) as Hp. pose proof (pulses_nonneg d0 fs) as Hn.
  rewrite pulses_app in *. cbn [fst] in *.
  match goal with |- accounted _ _ ?x => assert (E : sync0_active x = true /\ sync0_start x = sync0_start d /\ sync0_cycle x = sync0_cycle d /\
     sync0_k_last x = sync0_k_last d /\ pd_since_event x = true /\ tot_events x = tot_events d /\ tot_pd x = tot_pd d + 1 /\ tot_no_frame x = tot_no_frame d)
     by (case_if; done); revert E; generalize x end.
  intros x (Ea & Es & Ec & Ek & Ep & Ee & Et & En).
  split; rewrite ?pulses_app; cbn [fst]; [split_and!; congruence|lia| |lia| |].
  - rewrite Ep, Ek. case_if; [done|]. bprop. rewrite pd_in_app. cbn. rewrite (proj2 (Z.eqb_eq _ _)) by lia. by rewrite orb_true_r.
  - rewrite Et, Pd, !pd_count_app. lia.
  - rewrite En, No, Ek, empty_app_none. f_equal. destruct (Z.leb_spec 0 (sync0_k_last d)).
    + rewrite empty_app_later; [done|]. cbn. lia.
    + by rewrite (Z2Nat.nonpos (sync0_k_last d)) by lia.
Qed.

(** What the SYNC0 accounting counts.  For frames with non-decreasing system
    times that reach a node whose SYNC0 has just been started, the event count is
    the number of pulses up to the last frame, the process data count is the
    number of process data frames, and the no-frame count is exactly the number
    of completed pulse intervals (after the first pulse, before the last one
    seen) in which no process data frame arrived. *)
Theorem sync0_accounting_exact (d : esc_dc_state_t) (fs : list (Z * bool)) :
  sync0_active d = true -> 0 < sync0_cycle d -> sync0_k_last d = -1 -> pd_since_event d = true ->
  StronglySorted Z.le fs.*1 ->
  let d' := account_all d fs in
  tot_events d' - tot_events d = pulses_seen d fs /\
  tot_pd d' - tot_pd d = Z.of_nat (length (filter (fun f => f.2 = true) fs)) /\
  tot_no_frame d' - tot_no_frame d = empty_intervals d fs (Z.to_nat (pulses_seen d fs - 1)).
Proof.
  intros Ha Hc Hk Hp Hs. cbv zeta.
  assert (A : accounted d fs (account_all d fs)).
  { unfold account_all. revert Hs. induction fs as [|[s pd] fs IH] using rev_ind; intros Hs.
    - split; unfold pulses_seen; cbn; rewrite ?Hk, ?filter_nil; cbn; [done|done|by rewrite Hp|lia|lia|change (Z.to_nat (-1)) with 0%nat; cbn; lia].
    - rewrite foldl_app. cbn [foldl]. rewrite fmap_app in Hs. apply StronglySorted_app in Hs as (Hlt & Hs1 & _).
      apply accounted_step; [done| |by apply IH]. intros f Hf.
      apply Hlt; [by apply list_elem_of_fmap_2|constructor]. }
  destruct A as [_ K _ Ev Pd No]. rewrite K in No. lia.
Qed.

(** ** Witnesses *)

Definition dc_demo_cfg : esc_dc_cfg_t := mkDcCfg 64 640 70000 100000 0.
Definition dc_demo_node : esc_t :=
  esc_dc_node_reset dc_demo_cfg
    (mkEsc (replicate 8192 0) 0 0 false 1 8 false false [] 0 (mkOd 0 0 0 [] [] 0 [] [] 0) coe_session_zero dc_zero fault_zero
       (mkWd 0 0 false true 0) 0 true true 4096 128 4224 128 None (mkPst [] false) false) 1.
(** The first frame starts the clock; SYNC0 pulses every millisecond from 2 s on. *)
Definition dc_demo_running : esc_t :=
  node_begin dc_demo_cfg 1 1000 dc_demo_node <| dc ::= fun d =>
    d <| sync0_active := true |> <| sync0_start := 2000000000 |> <| sync0_cycle := 1000000 |> <| sync0_k_last := -1 |> <| pd_since_event := true |> |>.
Lemma dc_demo_wf : clock_wf (dc dc_demo_running).
Proof. by split; vm_compute. Qed.
Lemma dc_clock_bounded_witness :
  Z.abs ((local_ns (dc (foldl (dc_op_run dc_demo_cfg 3 1) dc_demo_running [OpBegin 2001000; OpWrite 2320 [0; 0; 0; 0]; OpBegin 4001000]))
          - local_ns (dc dc_demo_running)) * 1000000000 - 4000000 * 999950000) <= 4000000 * 500000 + 1000000000.
Proof.
  destruct (dc_clock_bounded dc_demo_cfg 3 1 4001000 dc_demo_running [OpBegin 2001000; OpWrite 2320 [0; 0; 0; 0]; OpBegin 4001000]
    ltac:(vm_compute; discriminate) dc_demo_wf eq_refl ltac:(repeat (constructor; [cbn; lia|]); constructor) eq_refl
    ltac:(vm_compute; split; discriminate) ltac:(vm_compute; discriminate) ltac:(vm_compute; reflexivity)) as (_ & _ & _ & H).
  vm_compute in H |- *. exact H.
Defined.
Lemma sync0_next_pulse_witness : exists p, rd_le64 (regs (esc_dc_before_read dc_demo_cfg dc_demo_running 2448 8)) 2448 = u64 p /\ p = 2000000000.
Proof.
  destruct (sync0_next_pulse dc_demo_cfg dc_demo_running 2448 8 ltac:(by right)) as (p & E & L1 & L2 & D & R);
    [apply bytes_wr; [apply bytes_wr; [apply bytes_replicate; done|done]|done]|vm_compute; reflexivity|reflexivity|reflexivity|reflexivity|].
  exists p. split; [exact E|]. destruct R as [->|R]; [reflexivity|].
  assert (esc_dc_frame_sys dc_demo_cfg dc_demo_running < 2000000000 - 1000000) by (vm_compute; reflexivity).
  change (sync0_cycle (dc dc_demo_running)) with 1000000 in *. change (sync0_start (dc dc_demo_running)) with 2000000000 in *. lia.
Defined.
(** Pulses at 100, 200, ...; no process data in [100,200), and [300,400) is passed over. *)
Definition dc_demo_sync : esc_dc_state_t :=
  dc_zero <| sync0_active := true |> <| sync0_start := 100 |> <| sync0_cycle := 100 |> <| sync0_k_last := -1 |> <| pd_since_event := true |>.
Lemma sync0_accounting_exact_witness : tot_no_frame (account_all dc_demo_sync [(50, true); (150, false); (250, true); (420, true)]) = 2.
Proof.
  destruct (sync0_accounting_exact dc_demo_sync [(50, true); (150, false); (250, true); (420, true)]) as (_ & _ & H);
    [reflexivity|reflexivity|reflexivity|reflexivity| |].
  - cbn. repeat (constructor; [|repeat (constructor; [lia|]); constructor]). constructor.
  - change (tot_no_frame dc_demo_sync) with 0 in H. rewrite Z.sub_0_r in H. rewrite H. reflexivity.
Defined.
