(* ===== verification/EscCore.v ===== *)
(** * The ESC logic of a virtual slave (tools/soft_bus/esc_core.c)

    A frame is a byte list; [process_frame] walks its datagrams and passes each
    through the chain of nodes, which read and write their registers and count
    the working counter.  The parts: the generated EEPROM image ([esc_build_sii]),
    power-on state, physical register access with its side effects, the process
    data watchdog, the FMMUs (byte and bit mapping), the AL state machine, and the
    datagram and frame loops.  The DC settings of the chain are arguments, as in
    the DC unit.  An allocation is taken to succeed. *)
From Stdlib Require Import ZArith Lia Bool.
From S2P Require Import Prelude EscMem EscTypes EscProfile EscCoe EscDc.
From stdpp Require Import base list numbers.
Open Scope Z_scope.

Notation SM_OFF_PHYS_START := 0 (only parsing).
Notation CMD_NOP := 0 (only parsing).
Notation CMD_APRD := 1 (only parsing).
Notation CMD_APWR := 2 (only parsing).
Notation CMD_APRW := 3 (only parsing).
Notation CMD_FPRD := 4 (only parsing).
Notation CMD_FPWR := 5 (only parsing).
Notation CMD_FPRW := 6 (only parsing).
Notation CMD_BRD := 7 (only parsing).
Notation CMD_BWR := 8 (only parsing).
Notation CMD_BRW := 9 (only parsing).
Notation CMD_LRD := 10 (only parsing).
Notation CMD_LWR := 11 (only parsing).
Notation CMD_LRW := 12 (only parsing).
Notation CMD_ARMW := 13 (only parsing).
Notation CMD_FRMW := 14 (only parsing).
Notation SII_CAT_GENERAL := 30 (only parsing).
Notation SII_CAT_SYNCM := 41 (only parsing).
Notation SII_CAT_TXPDO := 50 (only parsing).
Notation SII_CAT_RXPDO := 51 (only parsing).
Notation SII_CAT_END := 65535 (only parsing).

(** ** EEPROM image *)

(** The image under construction is the list of the words written so far. *)
Fixpoint pdo_chunks (fuel : nat) (remaining : Z) : list Z :=
  match fuel with
  | O => []
  | S fuel =>
      if 0 <? remaining
      then let chunk := if SII_PDO_ENTRY_MAX_BYTES <? remaining then SII_PDO_ENTRY_MAX_BYTES else u8 remaining in
           chunk :: pdo_chunks fuel (u16 (remaining - chunk))
      else []
  end.
Definition pdo_entry_body (entry_index : Z) (i : nat) (chunk : Z) : list Z :=
  [Z.land entry_index 255; Z.shiftr entry_index 8; u8 (Z.of_nat i + 1); 0; 5; u8 (chunk * 8); 0; 0].
Definition append_pdo_category (out : list Z) (cap cat_type pdo_index sm_index total_bytes : Z) : list Z :=
  if total_bytes =? 0 then out
  else
    let chunks := pdo_chunks 64 total_bytes in
    let n_entries := Z.of_nat (length chunks) in
    let size_words := (8 + 8 * n_entries) / 2 in
    if cap <? Z.of_nat (length out) + (2 + size_words) then out
    else
      let entry_index := if cat_type =? SII_CAT_TXPDO then 24576 else 28672 in
      let body := [Z.land pdo_index 255; Z.shiftr pdo_index 8; u8 n_entries; sm_index; 0; 0; 0; 0]
                  ++ concat (imap (pdo_entry_body entry_index) chunks) in
      out ++ [cat_type; size_words] ++ pack_words body.
Definition append_sm_category (out : list Z) (cap pdo_size : Z) : list Z :=
  let sm3_start := u16 (SII_SM2_OFFSET + ((pdo_size + 8 - 1) / 8) * 8) in
  let act := if pdo_size =? 0 then 0 else 1 in
  if cap <? Z.of_nat (length out) + 2 + 16 then out
  else out ++ [SII_CAT_SYNCM; 16; SII_SM0_OFFSET; SII_SM0_SIZE; 38; 1; SII_SM1_OFFSET; SII_SM1_SIZE; 34; 1;
               SII_SM2_OFFSET; pdo_size; 100; act; sm3_start; pdo_size; 32; act].
Definition append_general_category (out : list Z) (cap coe_details : Z) : list Z :=
  if cap <? Z.of_nat (length out) + 2 + 16 then out
  else out ++ [SII_CAT_GENERAL; 16; 0; 0; u16 (Z.shiftl coe_details 8); 0; 0; 0; 0; 0; 17; 0; 0; 0; 0; 0; 0; 0].
Definition sii_config_crc8 (w : list Z) : Z := crc8 w.
Definition g_sii_image_default : list Z :=
  [128; 0; 0; 0; 0; 0; 0; 0; 1177; 0; 1; 0; 1; 0; 0; 0; 0; 0; 0; 0; 0; 0; 0; 0;
   SII_SM0_OFFSET; SII_SM0_SIZE; SII_SM1_OFFSET; SII_SM1_SIZE; 4; 0; 0; 0].
Definition sii_words (ca : bool) (pdo_size : Z) : list Z :=
  let w := wr g_sii_image_default 7 (sii_config_crc8 g_sii_image_default) ++ replicate 32 0 in
  let w := if ca then append_general_category w ESC_SII_IMAGE_MAX_WORDS 37 else w in
  let w := append_sm_category w ESC_SII_IMAGE_MAX_WORDS pdo_size in
  let w := append_pdo_category w ESC_SII_IMAGE_MAX_WORDS SII_CAT_TXPDO 6656 3 pdo_size in
  let w := append_pdo_category w ESC_SII_IMAGE_MAX_WORDS SII_CAT_RXPDO 5632 2 pdo_size in
  if Z.of_nat (length w) <? ESC_SII_IMAGE_MAX_WORDS then w ++ [SII_CAT_END] else w.
Definition esc_build_sii (e : esc_t) (pdo_size : Z) : esc_t :=
  let w := sii_words (coe_ca e) pdo_size in
  e <| sii_image_buf ::= fun b => memcpy b 0 w |> <| sii_image_words := Z.of_nat (length w) |>.
Definition esc_set_coe_features (e : esc_t) (pdo_od ca : bool) : esc_t :=
  match prof e with
  | Some _ => e
  | None => esc_build_sii (e <| coe_ca := ca |> <| coe_pdo_od := pdo_od || ca |>) (pdo_size_bytes e)
  end.

(** ** Power-on *)

Definition power_on_regs : list Z :=
  let r := replicate 8192 0 in
  let r := wr (wr (wr (wr (wr (wr r REG_TYPE 4) REG_REVISION 0) REG_FMMU_SUPPORTED REG_FMMU_COUNT) REG_SM_SUPPORTED REG_SM_COUNT)
    REG_RAM_SIZE 4) REG_PORT_DESCRIPTOR 15 in
  let r := wr_le16 r REG_ESC_FEATURES 0 in
  let r := wr_le16 (wr_le16 r REG_AL_CONTROL ESM_INIT) REG_AL_STATUS ESM_INIT in
  wr_le16 (wr_le16 (wr_le16 r REG_WD_DIVIDER WD_DIVIDER_RESET) REG_WD_TIME_PDI0 WD_TIME_RESET) REG_WD_TIME_PROCDATA WD_TIME_RESET.
Definition esc_init (e : esc_t) (pos pdo_size : Z) : esc_t :=
  let e := e <| regs := power_on_regs |> <| position_in_chain := pos |> <| pdo_size_bytes := pdo_size |>
             <| station_address := 0 |> <| station_alias := 0 |> <| alias_enabled := false |>
             <| wd := mkWd 0 0 false true 0 |> <| fault := fault_zero |>
             <| mbx_out := SII_SM0_OFFSET |> <| mbx_out_len := SII_SM0_SIZE |> <| mbx_in := SII_SM1_OFFSET |> <| mbx_in_len := SII_SM1_SIZE |>
             <| prof := None |> <| prof_st := mkPst [] false |> <| coe_pdo_od := false |> <| coe_ca := false |> in
  let e := esc_build_sii e pdo_size in
  e <| coe_od := coe_od_init (resp_cnt (coe_od e)) |> <| coe_session := coe_session_zero |>.

Definition off_at (chain : list esc_t) (i : Z) : bool :=
  match chain !! Z.to_nat i with Some e => powered_off (fault e) | None => false end.
Definition dl_status (chain : list esc_t) (i : Z) : Z :=
  let n := Z.of_nat (length chain) in
  let link0 := (i =? 0) || negb (off_at chain (i - 1)) in
  let link1 := (i <? n - 1) && negb (off_at chain (i + 1)) in
  Z.lor (Z.lor (Z.lor 3 (if link0 then 528 else 256)) (if link1 then 2080 else 1024)) 20480.
Definition esc_chain_wire (chain : list esc_t) : list esc_t :=
  imap (fun i e => e <| regs ::= fun r => wr_le16 r REG_DL_STATUS (dl_status chain (Z.of_nat i)) |>) chain.

(** ** Physical register access *)

Definition esc_sii_refresh_data (e : esc_t) : esc_t :=
  let word_addr := rd_le16 (regs e) REG_SII_ADDRESS in
  let v0 := if word_addr <? sii_image_words e then rd (sii_image_buf e) word_addr else 0 in
  let v1 := if word_addr + 1 <? sii_image_words e then rd (sii_image_buf e) (word_addr + 1) else 0 in
  e <| regs ::= fun r => wr_le16 (wr_le16 r REG_SII_DATA v0) (REG_SII_DATA + 2) v1 |>.

Definition esc_sm1_sync_irq_write (e : esc_t) : esc_t :=
  let s := reg e REG_SM1_STATUS in
  set_reg e REG_SM1_STATUS (if has_bit s SM_STATUS_MAILBOX_FULL then bits_set s 1 else bits_clear s 1).

Definition range_hits (off l lo hi : Z) : bool := (off <=? hi) && (lo <? off + l).
Definition esc_cnt_inc (e : esc_t) (r : Z) : esc_t := if reg e r <? 255 then set_reg e r (reg e r + 1) else e.

(** A read that touches the mailbox-in buffer empties it. *)
Definition mailbox_fetched (e : esc_t) (off l : Z) : esc_t :=
  if (off <? mbx_in e + mbx_in_len e) && (mbx_in e <? off + l)
  then
    let e := if has_bit (reg e REG_SM1_STATUS) SM_STATUS_MAILBOX_FULL
             then e <| fault ::= fun f => f <| sm1_consumed := true |> |> else e in
    set_reg e REG_SM1_STATUS (bits_clear (reg e REG_SM1_STATUS) SM_STATUS_MAILBOX_FULL)
  else e.

Section bus.
Context (g_cfg : esc_dc_cfg_t) (g_n : Z).

(** The state of the node when its bytes go into the frame. *)
Definition before_read (e : esc_t) (off l : Z) : esc_t := esc_sm1_sync_irq_write (esc_dc_before_read g_cfg e off l).
Definition esc_phys_read (e : esc_t) (off : Z) (data : list Z) : esc_t * list Z :=
  if ESC_REG_SPACE_SIZE <? off + len data then (e, data)
  else let e := before_read e off (len data) in (mailbox_fetched e off (len data), slice (regs e) off (len data)).
Definition esc_phys_read_or (e : esc_t) (off : Z) (data : list Z) : esc_t * list Z :=
  if ESC_REG_SPACE_SIZE <? off + len data then (e, data)
  else let e := before_read e off (len data) in (mailbox_fetched e off (len data), zip_with Z.lor data (slice (regs e) off (len data))).

(** ** Watchdog *)

Definition sm_at (k : Z) : Z := REG_SM_BASE + k * REG_SM_ENTRY_SIZE.
Definition wd_trigger_sm (r : list Z) (k : Z) : bool :=
  has_bit (rd r (sm_at k + SM_OFF_ACTIVATE)) 1 && has_bit (rd r (sm_at k + SM_OFF_CONTROL)) 64
  && (Z.land (rd r (sm_at k + SM_OFF_CONTROL)) 12 =? 4) && (0 <? rd_le16 r (sm_at k + SM_OFF_LENGTH)).
Definition esc_has_wd_trigger_sm (e : esc_t) : bool := existsb (wd_trigger_sm (regs e)) [0; 1; 2; 3].
Definition wd_on_write_sm (off l : Z) (e : esc_t) (k : Z) : esc_t :=
  if negb (wd_trigger_sm (regs e) k) then e
  else
    let last := u16 (rd_le16 (regs e) (sm_at k + SM_OFF_PHYS_START) + rd_le16 (regs e) (sm_at k + SM_OFF_LENGTH) - 1) in
    if range_hits off l last last
    then set_reg (e <| wd ::= fun w => w <| last_trigger_ns := now_ns w |> <| running := true |> |>)
           REG_WD_STATUS_PD (bits_set (reg e REG_WD_STATUS_PD) 1)
    else e.
Definition esc_wd_on_write (e : esc_t) (off l : Z) : esc_t := foldl (wd_on_write_sm off l) e [0; 1; 2; 3].

Definition wd_timeout (e : esc_t) : Z := (rd_le16 (regs e) REG_WD_DIVIDER + 2) * 40 * rd_le16 (regs e) REG_WD_TIME_PROCDATA.
Definition wd_expire (e : esc_t) (now : Z) : esc_t :=
  if running (wd e) && (wd_timeout e <? u64 (now - last_trigger_ns (wd e)))
  then
    let e := e <| wd ::= fun w => w <| running := false |> |> in
    let e := set_reg e REG_WD_STATUS_PD (bits_clear (reg e REG_WD_STATUS_PD) 1) in
    let e := esc_cnt_inc e REG_WD_COUNTER_PD in
    e <| wd ::= fun w => w <| expire_events ::= fun n => u64 (n + 1) |> |>
  else e.
(** The node and whether it just dropped from OP to SAFEOP with an error. *)
Definition esc_wd_check (e : esc_t) (now : Z) : esc_t * bool :=
  let e := e <| wd ::= fun w => w <| now_ns := now |> |> in
  if rd_le16 (regs e) REG_WD_TIME_PROCDATA =? 0
  then (set_reg e REG_WD_STATUS_PD (bits_set (reg e REG_WD_STATUS_PD) 1), false)
  else
    let e := wd_expire e now in
    if react (wd e) && (al_state e =? ESM_OP) && negb (has_bit (reg e REG_WD_STATUS_PD) 1) && esc_has_wd_trigger_sm e
    then (e <| regs ::= fun r => wr_le16 (wr_le16 r REG_AL_STATUS 20) REG_AL_STATUS_CODE ALSTATUSCODE_SYNCMANWATCHDOG |>
            <| got_valid_outputs := false |>, true)
    else (e, false).

(** ** Physical write *)

(** Registers the master cannot write: status and PDI control of every SM, watchdog status. *)
Definition ro_regs : list Z := [2053; 2055; 2061; 2063; 2069; 2071; 2077; 2079; REG_WD_STATUS_PD; REG_WD_STATUS_PD + 1].
Definition restore_ro (old : list Z) (r : list Z) : list Z := foldl (fun r a => wr r a (rd old a)) r ro_regs.

Definition clear_counters (r : list Z) (off l : Z) : list Z :=
  let r := if range_hits off l 768 779 then memset (memset (memset r 768 0 12) 788 0 4) 800 0 8 else r in
  let r := if range_hits off l REG_ERR_ECAT_PU REG_ERR_ECAT_PU then wr r REG_ERR_ECAT_PU 0 else r in
  let r := if range_hits off l REG_ERR_PDI REG_ERR_PDI then memset r REG_ERR_PDI 0 3 else r in
  let r := if range_hits off l 784 787 then memset r 784 0 4 else r in
  if range_hits off l 1090 1092 then memset r 1090 0 3 else r.

(** The master toggles SM1 activate bit 1 to get the last response again. *)
Definition mailbox_repeat (e : esc_t) (off l sm1_act_old : Z) : esc_t :=
  if range_hits off l 2062 2062 && has_bit (Z.lxor (reg e 2062) sm1_act_old) 2
  then
    let e := set_reg e REG_SM1_STATUS (bits_set (reg e REG_SM1_STATUS) SM_STATUS_MAILBOX_FULL) in
    let e := set_reg e 2063 (u8 (Z.lor (bits_clear (reg e 2063) 2) (Z.land (reg e 2062) 2))) in
    e <| fault ::= fun f => f <| mbx_repeats_served ::= fun n => u64 (n + 1) |> |>
  else e.

Definition sii_command (e : esc_t) (off l : Z) : esc_t :=
  if range_hits off l (REG_SII_CONTROL_STATUS + 1) (REG_SII_CONTROL_STATUS + 1)
  then
    let hi := REG_SII_CONTROL_STATUS + 1 in
    let cmd := Z.land (reg e hi) 7 in
    let e :=
      if cmd =? 0 then set_reg e hi (bits_clear (reg e hi) 96)
      else if (cmd =? 1) || (cmd =? 4)
      then esc_sii_refresh_data (set_reg e hi (bits_clear (reg e hi) 96)) <| sii_cmd_reads ::= fun n => u32 (n + 1) |>
      else set_reg e hi (bits_set (reg e hi) 32) in
    let e := set_reg e hi (bits_clear (reg e hi) 135) in
    set_reg e REG_SII_CONTROL_STATUS (bits_clear (reg e REG_SII_CONTROL_STATUS) 1)
  else e.

(** The cached addresses follow their registers. *)
Definition update_addresses (e : esc_t) (off l : Z) : esc_t :=
  let e := if (off <=? REG_STATION_ADDR) && (REG_STATION_ADDR + 2 <=? off + l)
           then e <| station_address := rd_le16 (regs e) REG_STATION_ADDR |> else e in
  let e := if (off <=? REG_STATION_ALIAS) && (REG_STATION_ALIAS + 2 <=? off + l)
           then e <| station_alias := rd_le16 (regs e) REG_STATION_ALIAS |> else e in
  if (off <=? REG_DL_CONTROL_ALIAS_BYTE) && (REG_DL_CONTROL_ALIAS_BYTE <? off + l)
  then e <| alias_enabled := has_bit (reg e REG_DL_CONTROL_ALIAS_BYTE) 1 |> else e.

Definition esc_phys_write (e : esc_t) (off : Z) (data : list Z) : esc_t :=
  let l := len data in
  if ESC_REG_SPACE_SIZE <? off + l then e
  else
    let old := regs e in
    let e := esc_dc_after_write g_cfg g_n (e <| regs ::= fun r => memcpy r off data |>) off data in
    let e := e <| regs ::= fun r => clear_counters (restore_ro old r) off l |> in
    let e := mailbox_repeat e off l (rd old 2062) in
    let e := esc_wd_on_write e off l in
    let e := sii_command e off l in
    let e := update_addresses e off l in
    if (off <? mbx_out e + mbx_out_len e) && (mbx_out e <? off + l) then coe_on_mailbox_out_write e else e.

Definition esc_addr_match (e : esc_t) (adp : Z) : bool :=
  (adp =? station_address e) || (alias_enabled e && (adp =? station_alias e)).

(** ** FMMU *)

Definition bit_get (b : list Z) (i : Z) : Z := Z.land (Z.shiftr (rd b (Z.shiftr i 3)) (Z.land i 7)) 1.
Definition bit_put (b : list Z) (i v : Z) : list Z :=
  let a := Z.shiftr i 3 in
  let m := u8 (Z.shiftl 1 (Z.land i 7)) in
  if v =? 0 then wr b a (bits_clear (rd b a) m) else wr b a (bits_set (rd b a) m).
(** [nbits] bits of [src] from [s0] on to [dst] from [d0] on. *)
Definition bits_copy (dst : list Z) (d0 : Z) (src : list Z) (s0 nbits : Z) : list Z :=
  foldl (fun b k => bit_put b (d0 + k) (bit_get src (s0 + k))) dst (seqZ 0 nbits).

(** One mapping in bits: the node, the data, whether it read and whether it wrote. *)
Definition fmmu_apply_bits (e : esc_t) (log_addr : Z) (data : list Z) (lbit0 lbit_end pbit0 : Z) (seg_read seg_write : bool)
  : esc_t * list Z * (bool * bool) :=
  let d0 := log_addr * 8 in
  let d1 := d0 + len data * 8 in
  let o0 := if d0 <? lbit0 then lbit0 else d0 in
  let o1 := if lbit_end <? d1 then lbit_end else d1 in
  if (o1 <=? o0) || (negb seg_read && negb seg_write) then (e, data, (false, false))
  else
    let nbits := o1 - o0 in
    let dbit := o0 - d0 in
    let pb := pbit0 + (o0 - lbit0) in
    let pbyte := Z.shiftr pb 3 in
    let plen := Z.shiftr (pb + nbits + 7) 3 - pbyte in
    let pbit_in := Z.land pb 7 in
    if ESC_REG_SPACE_SIZE <? pbyte + plen then (e, data, (false, false))
    else
      let dbyte := Z.shiftr dbit 3 in
      let dlen_b := Z.shiftr (dbit + nbits + 7) 3 - dbyte in
      let wsrc := slice data dbyte dlen_b in
      let '(e, data) :=
        if seg_read
        then let '(e, phys) := esc_phys_read e pbyte (replicate (Z.to_nat plen) 0) in (e, bits_copy data dbit phys pbit_in nbits)
        else (e, data) in
      let e :=
        if seg_write
        then esc_phys_write e pbyte (bits_copy (slice (regs e) pbyte plen) pbit_in wsrc (dbit - dbyte * 8) nbits)
        else e in
      (e, data, (seg_read, seg_write)).

(** One mapping in bytes. *)
Definition fmmu_apply_bytes (e : esc_t) (log_addr : Z) (data : list Z) (log_start length phys_start : Z) (seg_read seg_write : bool)
  : esc_t * list Z * (bool * bool) :=
  let dg_end := u32 (log_addr + len data) in
  let fmmu_end := u32 (log_start + length) in
  let ov_start := if log_start <? log_addr then log_addr else log_start in
  let ov_end := if dg_end <? fmmu_end then dg_end else fmmu_end in
  if ov_end <=? ov_start then (e, data, (false, false))
  else
    let ov_len := u16 (ov_end - ov_start) in
    let data_offset := u16 (ov_start - log_addr) in
    let phys_offset := u16 (phys_start + (ov_start - log_start)) in
    let seg := slice data data_offset ov_len in
    if seg_read && seg_write then
      let '(e, seg') := esc_phys_read e phys_offset seg in
      (esc_phys_write e phys_offset seg, memcpy data data_offset seg', (true, true))
    else if seg_read then
      let '(e, seg') := esc_phys_read e phys_offset seg in (e, memcpy data data_offset seg', (true, false))
    else if seg_write then
      ((esc_phys_write e phys_offset seg) <| got_valid_outputs := true |>, data, (false, true))
    else (e, data, (false, false)).

Definition fmmu_entry (cmd log_addr : Z) (e : esc_t) (data : list Z) (f : Z) : esc_t * list Z * (bool * bool) :=
  let a := REG_FMMU_BASE + f * REG_FMMU_ENTRY_SIZE in
  let r := regs e in
  let log_start := rd_le32 r a in
  let length := rd_le16 r (a + 4) in
  let lstart_bit := Z.land (rd r (a + 6)) 7 in
  let lstop_bit := Z.land (rd r (a + 7)) 7 in
  let phys_start := rd_le16 r (a + 8) in
  let pstart_bit := Z.land (rd r (a + 10)) 7 in
  let type_op := rd r (a + 11) in
  let seg_read := has_bit type_op 1 && ((cmd =? CMD_LRD) || (cmd =? CMD_LRW)) in
  let seg_write := has_bit type_op 2 && ((cmd =? CMD_LWR) || (cmd =? CMD_LRW)) in
  if negb (has_bit (rd r (a + 12)) 1) then (e, data, (false, false))
  else if length =? 0 then (e, data, (false, false))
  else if negb (lstart_bit =? 0) || negb (lstop_bit =? 7) || negb (pstart_bit =? 0) then
    let lbit0 := log_start * 8 + lstart_bit in
    let lbit_end := (log_start + length - 1) * 8 + lstop_bit + 1 in
    if lbit_end <=? lbit0 then (e, data, (false, false))
    else
      let '(e, data, (rdone, wdone)) :=
        fmmu_apply_bits e log_addr data lbit0 lbit_end (phys_start * 8 + pstart_bit) seg_read seg_write in
      (if wdone : bool then e <| got_valid_outputs := true |> else e, data, (rdone, wdone))
  else fmmu_apply_bytes e log_addr data log_start length phys_start seg_read seg_write.
Definition fmmu_step (cmd log_addr : Z) (s : esc_t * list Z * (bool * bool)) (f : Z) : esc_t * list Z * (bool * bool) :=
  let '(e, data, (r, w)) := s in
  let '(e, data, (r', w')) := fmmu_entry cmd log_addr e data f in (e, data, (r || r', w || w')).
Definition fmmu_count (e : esc_t) : Z := if reg e REG_FMMU_SUPPORTED <? REG_FMMU_COUNT then reg e REG_FMMU_SUPPORTED else REG_FMMU_COUNT.
Definition fmmu_wkc (cmd : Z) (any_read any_write : bool) : Z :=
  if cmd =? CMD_LRD then b2z any_read
  else if cmd =? CMD_LWR then b2z any_write
  else b2z any_read + 2 * b2z any_write.
Definition fmmu_apply (e : esc_t) (log_addr : Z) (data : list Z) (cmd wkc : Z) : esc_t * list Z * Z :=
  let '(e, data, (any_read, any_write)) := foldl (fmmu_step cmd log_addr) (e, data, (false, false)) (seqZ 0 (fmmu_count e)) in
  (e, data, u16 (wkc + fmmu_wkc cmd any_read any_write)).

(** ** AL state machine *)

Definition set_al (e : esc_t) (status code : Z) : esc_t :=
  e <| regs ::= fun r => wr_le16 (wr_le16 r REG_AL_STATUS status) REG_AL_STATUS_CODE code |>.
Definition refuse_al (e : esc_t) (current code : Z) : esc_t := set_al e (Z.lor current 16) code.
Definition valid_transition (current requested : Z) : bool :=
  if current =? ESM_INIT then requested =? ESM_PREOP
  else if current =? ESM_PREOP then (requested =? ESM_INIT) || (requested =? ESM_SAFEOP)
  else if current =? ESM_SAFEOP then (requested =? ESM_PREOP) || (requested =? ESM_INIT) || (requested =? ESM_OP)
  else if current =? ESM_OP then (requested =? ESM_SAFEOP) || (requested =? ESM_PREOP) || (requested =? ESM_INIT)
  else false.
Definition prof_code (e : esc_t) : Z :=
  match prof e with Some p => esc_prof_check_pd p (prof_st e) (regs e) | None => 0 end.
Definition esc_al_control_write (e : esc_t) : esc_t :=
  let al_control := rd_le16 (regs e) REG_AL_CONTROL in
  let requested := Z.land al_control 15 in
  let error_ack := Z.testbit al_control 4 in
  let al_status := rd_le16 (regs e) REG_AL_STATUS in
  let current := Z.land al_status 15 in
  let had_error := Z.testbit al_status 4 in
  if requested =? current then
    if error_ack && had_error then set_al e current ALSTATUSCODE_NOERROR else e
  else if force_reject_al e && ((reject_al_state (fault e) =? 0) || (requested =? reject_al_state (fault e))) then
    let code := if reject_al_code (fault e) =? 0 then ALSTATUSCODE_UNKNOWNALCONTROL else reject_al_code (fault e) in
    let e := if reject_al_sticky (fault e) then e
             else e <| force_reject_al := false |> <| fault ::= fun f => f <| reject_al_code := 0 |> <| reject_al_state := 0 |> |> in
    refuse_al e current code
  else if negb (valid_transition current requested) then refuse_al e current ALSTATUSCODE_INVALIDALCONTROL
  else if (current =? ESM_PREOP) && (requested =? ESM_SAFEOP) && negb (prof_code e =? 0) then refuse_al e current (prof_code e)
  else if (current =? ESM_SAFEOP) && (requested =? ESM_OP) && negb (got_valid_outputs e)
  then refuse_al e current ALSTATUSCODE_NOVALIDOUTPUTS
  else if (current =? ESM_SAFEOP) && (requested =? ESM_OP) && negb (op_delay_ms (fault e) =? 0) && negb (powered_off (fault e)) then e
  else
    let e := set_al e requested ALSTATUSCODE_NOERROR in
    if requested =? ESM_SAFEOP then e <| got_valid_outputs := false |> else e.

(** ** Datagrams and frames *)

(** What a command asks of one node: matched, read, write. *)
Definition node_access (cmd adp local_adp : Z) (e : esc_t) : bool * bool * bool :=
  if cmd =? CMD_APRD then (local_adp =? 0, true, false)
  else if cmd =? CMD_APWR then (local_adp =? 0, false, true)
  else if cmd =? CMD_APRW then (local_adp =? 0, true, true)
  else if cmd =? CMD_FPRD then (esc_addr_match e adp, true, false)
  else if cmd =? CMD_FPWR then (esc_addr_match e adp, false, true)
  else if cmd =? CMD_FPRW then (esc_addr_match e adp, true, true)
  else if cmd =? CMD_BRD then (true, true, false)
  else if cmd =? CMD_BWR then (true, false, true)
  else if cmd =? CMD_BRW then (true, true, true)
  else if cmd =? CMD_ARMW then (true, local_adp =? 0, negb (local_adp =? 0))
  else if cmd =? CMD_FRMW then (true, esc_addr_match e adp, negb (esc_addr_match e adp))
  else (false, false, false).
Definition is_logical (cmd : Z) : bool := (cmd =? CMD_LRD) || (cmd =? CMD_LWR) || (cmd =? CMD_LRW).
Definition is_auto_inc (cmd : Z) : bool := (cmd =? CMD_APRD) || (cmd =? CMD_APWR) || (cmd =? CMD_APRW) || (cmd =? CMD_ARMW).
Definition read_for (cmd : Z) (e : esc_t) (ado : Z) (data : list Z) : esc_t * list Z :=
  if (cmd =? CMD_BRD) || (cmd =? CMD_BRW) then esc_phys_read_or e ado data else esc_phys_read e ado data.
Definition write_for (e : esc_t) (ado : Z) (data : list Z) : esc_t :=
  let e := esc_phys_write e ado data in
  if ado =? REG_AL_CONTROL then esc_al_control_write e else e.
Definition access_node (cmd : Z) (acc : bool * bool * bool) (ado : Z) (e : esc_t) (data : list Z) (wkc : Z) : esc_t * list Z * Z :=
  let '(matched, do_read, do_write) := acc in
  if negb matched then (e, data, wkc)
  else if do_read && do_write then
    let '(e', data') := read_for cmd e ado data in (write_for e' ado data, data', u16 (wkc + 3))
  else if do_read then let '(e', data') := read_for cmd e ado data in (e', data', u16 (wkc + 1))
  else if do_write then (write_for e ado data, data, u16 (wkc + 1))
  else (e, data, wkc).
Definition node_datagram (cmd adp ado local_adp : Z) (e : esc_t) (data : list Z) (wkc : Z) : esc_t * list Z * Z :=
  if is_logical cmd then
    if skip_logical (fault e) then (e, data, wkc)
    else fmmu_apply e (Z.lor adp (Z.shiftl ado 16)) data cmd wkc
  else access_node cmd (node_access cmd adp local_adp e) ado e data wkc.
Fixpoint datagram_loop (cmd adp ado local_adp : Z) (chain : list esc_t) (data : list Z) (wkc : Z) : list esc_t * list Z * Z :=
  match chain with
  | [] => ([], data, wkc)
  | e :: chain =>
      let '(e, data, wkc) := node_datagram cmd adp ado local_adp e data wkc in
      let local_adp := if is_auto_inc cmd then u16 (local_adp + 1) else local_adp in
      let '(chain, data, wkc) := datagram_loop cmd adp ado local_adp chain data wkc in
      (e :: chain, data, wkc)
  end.
Definition process_datagram (chain : list esc_t) (cmd adp ado : Z) (data : list Z) (wkc : Z) : list esc_t * list Z * Z :=
  datagram_loop cmd adp ado adp chain data wkc.

(** Position of the next datagram from [off] on, or where the frame ends. *)
Definition dg_len (buf : list Z) (off : Z) : Z := Z.land (rd_le16 buf (off + 6)) 2047.
Fixpoint frame_loop (fuel : nat) (chain : list esc_t) (buf : list Z) (off end_ : Z) : list esc_t * list Z :=
  match fuel with
  | O => (chain, buf)
  | S fuel =>
      if off + 12 <=? end_ then
        let dlen := dg_len buf off in
        if end_ <? off + 10 + dlen + 2 then (chain, buf)
        else
          let '(chain, data, wkc) :=
            process_datagram chain (rd buf off) (rd_le16 buf (off + 2)) (rd_le16 buf (off + 4))
              (slice buf (off + 10) dlen) (rd_le16 buf (off + 10 + dlen)) in
          frame_loop fuel chain (wr_le16 (memcpy buf (off + 10) data) (off + 10 + dlen) wkc) (off + 10 + dlen + 2) end_
      else (chain, buf)
  end.
Definition process_frame (chain : list esc_t) (buf : list Z) : list esc_t * list Z :=
  if len buf <? 16 then (chain, buf)
  else if negb (rd buf 12 * 256 + rd buf 13 =? 34980) then (chain, buf)
  else
    let ec_len := Z.land (rd_le16 buf 14) 2047 in
    frame_loop 171 chain buf 16 (Z.min (16 + ec_len) (len buf)).
End bus.
