(* ===== verification/EscCoreSpec.v ===== *)
(** * What the ESC logic guarantees

    Effect of a register access on the rest of the node ([keeps]), the working
    counter of a datagram, the AL state machine as a refinement of an abstract
    one, the process data watchdog, frames as lists of datagrams, and the
    equivalence of the bit and byte mapping of an FMMU. *)
From Stdlib Require Import ZArith Lia Bool.
From S2P Require Import Prelude EscMem EscTypes EscProfile EscCoe EscCoeSpec EscDc EscCore.
From stdpp Require Import base list numbers relations.
Open Scope Z_scope.

(** ** What an operation leaves alone *)

(** [keeps S e e']: the step from [e] to [e'] changes no register outside [S],
    not the size of the register space, and neither the output flag nor the mailboxes. *)
Record keeps (S : Z -> Prop) (e e' : esc_t) : Prop := {
  k_len : len (regs e') = len (regs e);
  k_rd : forall a, 0 <= a -> ~ S a -> rd (regs e') a = rd (regs e) a;
  k_out : got_valid_outputs e' = got_valid_outputs e /\ reject_al_code (fault e') = reject_al_code (fault e);
  k_mbx : mbx_in e' = mbx_in e /\ mbx_in_len e' = mbx_in_len e /\ mbx_out e' = mbx_out e /\ mbx_out_len e' = mbx_out_len e;
}.
Lemma keeps_refl S e : keeps S e e.
Proof. by split. Qed.
Lemma keeps_trans S a b c : keeps S a b -> keeps S b c -> keeps S a c.
Proof.
  intros [l1 r1 o1 m1] [l2 r2 o2 m2]. split; [congruence| |destruct o1, o2; split; congruence|].
  - intros x Hx Hs. rewrite r2, r1 by done. done.
  - destruct m1 as (?&?&?&?), m2 as (?&?&?&?). split_and!; congruence.
Qed.
Lemma keeps_weaken (S T : Z -> Prop) e e' : (forall a, S a -> T a) -> keeps S e e' -> keeps T e e'.
Proof. intros H [l r o m]. split; [done| |done|done]. intros a Ha Ht. apply r; [done|]. intros Hs. by apply Ht, H. Qed.
(** Only other fields change. *)
Lemma keeps_same S e e' :
  regs e' = regs e -> got_valid_outputs e' = got_valid_outputs e -> reject_al_code (fault e') = reject_al_code (fault e) ->
  mbx_in e' = mbx_in e -> mbx_in_len e' = mbx_in_len e ->
  mbx_out e' = mbx_out e -> mbx_out_len e' = mbx_out_len e -> keeps S e e'.
Proof. intros Hr **. split; [by rewrite Hr| |done|done]. intros. by rewrite Hr. Qed.
Lemma keeps_regs (S : Z -> Prop) e r' :
  len r' = len (regs e) -> (forall a, 0 <= a -> ~ S a -> rd r' a = rd (regs e) a) -> keeps S e (e <| regs := r' |>).
Proof. by split. Qed.
Lemma keeps_set_reg (S : Z -> Prop) e a v : 0 <= a -> S a -> keeps S e (set_reg e a v).
Proof.
  intros Ha Hs. split; cbn; [apply len_wr| |done|done]. intros b Hb Hn. apply rd_wr_ne; try lia. by intros ->.
Qed.
Lemma keeps_set_reg_r (S : Z -> Prop) e e' a v : 0 <= a -> S a -> keeps S e e' -> keeps S e (set_reg e' a v).
Proof. intros. eapply keeps_trans; [done|]. by apply keeps_set_reg. Qed.
Create HintDb keeps.
#[export] Hint Resolve keeps_refl keeps_set_reg : keeps.

(** ** The mailbox changes the response buffer and the status of SM1 *)

Definition mbx_area (e : esc_t) (a : Z) : Prop := mbx_in e <= a < mbx_in e + 128 \/ a = REG_SM1_STATUS.

Definition hw (e : esc_t) := (regs e, got_valid_outputs e, reject_al_code (fault e), (mbx_in e, mbx_in_len e, mbx_out e, mbx_out_len e)).
Lemma keeps_hw S e e' : hw e' = hw e -> keeps S e e'.
Proof. unfold hw. intros [=]. by apply keeps_same. Qed.
Lemma od_commit_hw e i s d : hw (od_commit e i s d) = hw e.
Proof. unfold od_commit. repeat case_match; done. Qed.
Lemma ca_store_hw e i s d c : hw (ca_store e i s d c).1 = hw e.
Proof. unfold ca_store. repeat case_if; cbn; auto using od_commit_hw. Qed.
Lemma ca_write_loop_hw e i subs d pos w c : hw (ca_write_loop e i subs d pos w c).1 = hw e.
Proof.
  revert e pos w. induction subs as [|s subs IH]; intros e pos w; cbn; [done|].
  case_if; [done|]. destruct (od_entry e i s) as [en|]; [|apply IH]. repeat case_if; [done|apply IH|].
  pose proof (ca_store_hw e i s (slice d pos (entry_bytes en)) c) as H. destruct (ca_store _ _ _ _ _) as [e' a].
  cbn in H. case_if; [done|]. by rewrite IH.
Qed.
Lemma od_ca_write_hw e i s d c : hw (od_ca_write e i s d c).1 = hw e.
Proof.
  unfold od_ca_write. destruct (od_object e i) as [[o m]|]; [|done]. case_if; [done|]. case_if.
  { case_if; [done|]. destruct (od_entry e i 0); [|done]. case_if; [done|apply ca_store_hw]. }
  case_if; [done|]. destruct (_ <? len d); [done|]. case_if; [|apply ca_write_loop_hw]. case_if; [done|].
  destruct (match od_entry e i 0 with Some en => _ | None => _ end); [|done]. case_if; [apply ca_write_loop_hw|].
  pose proof (ca_store_hw e i 0 (slice d 0 1) c) as H. destruct (ca_store _ _ _ _ _) as [e' a]. cbn in H.
  case_if; [done|]. by rewrite ca_write_loop_hw.
Qed.
Lemma set_bypass_hw e b : hw (set_bypass e b) = hw e.
Proof. unfold set_bypass. by destruct (prof e). Qed.
Lemma od_download_hw e i s ca d : hw (od_download e i s ca d).1 = hw e.
Proof.
  unfold od_download. destruct ca.
  - match goal with |- context [match ?o with Some a => _ | None => _ end] => destruct o as [a0|] end; [|done]. destruct (negb _); [done|].
    pose proof (od_ca_write_hw (set_bypass e true) i s d false) as H. destruct (od_ca_write _ _ _ _ false) as [e1 a]. cbn in H |- *.
    rewrite set_bypass_hw. case_if; [rewrite od_ca_write_hw|]; by rewrite H, set_bypass_hw.
  - cbn. case_if; auto using od_commit_hw.
Qed.

(** The response builders write inside the buffer of 128 bytes at [o]. *)
Lemma len_builders r o a b c (f : bool) d :
  len (coe_send_abort r o a b c) = len r /\ len (coe_send_upload_expedited r o a b f d) = len r
  /\ len (coe_send_download_response r o a b f) = len r /\ len (seg_acknowledge r o a) = len r.
Proof.
  unfold coe_send_abort, coe_send_upload_expedited, coe_send_download_response, seg_acknowledge.
  split_and!; by autorewrite with memlen.
Qed.
Lemma rd_builders r o i s c (f : bool) d x : 4096 <= o -> 0 <= x -> x < o \/ o + 128 <= x -> len d <= 100 ->
  rd (coe_send_abort r o i s c) x = rd r x /\ rd (coe_send_upload_expedited r o i s f d) x = rd r x
  /\ rd (coe_send_download_response r o i s f) x = rd r x /\ rd (seg_acknowledge r o i) x = rd r x.
Proof.
  intros. unfold coe_send_abort, coe_send_upload_expedited, coe_send_download_response, seg_acknowledge, memset.
  split_and!; mem_simp; rewrite ?resp_header_out by lia; mem_simp; by rewrite ?resp_header_out by lia.
Qed.
Lemma len_slice_le m a n : 0 <= n -> len (slice m a n) <= n.
Proof. unfold len, slice. intros. rewrite length_take. lia. Qed.

Section mailbox.
Context (e0 : esc_t) (Hin : 4096 <= mbx_in e0).
Notation K := (keeps (mbx_area e0) e0).

Lemma keeps_resp e (r' : list Z) : K e -> len r' = len (regs e) ->
  (forall a, 0 <= a -> a < mbx_in e0 \/ mbx_in e0 + 128 <= a -> rd r' a = rd (regs e) a) -> K (e <| regs := r' |>).
Proof.
  intros Ke Hl Hr. eapply keeps_trans; [exact Ke|]. apply keeps_regs; [done|]. intros a Ha Hs. apply Hr; [done|].
  unfold mbx_area in Hs. lia.
Qed.
Lemma keeps_hw_r e e' : K e -> hw e' = hw e -> K e'.
Proof. intros Ke H. eapply keeps_trans; [exact Ke|]. by apply keeps_hw. Qed.
Lemma keeps_abort e i s c : K e -> K (abort_with e (mbx_in e0) i s c).
Proof.
  intros Ke. apply keeps_resp; [done|apply (len_builders _ _ _ _ _ false [])|]. intros a Ha Hr.
  by apply (rd_builders _ _ _ _ _ false []).
Qed.
Lemma keeps_end e : K e -> K (end_session e).
Proof. intros Ke. by apply (keeps_hw_r e). Qed.
Lemma keeps_ack e i s ca : K e -> K (e <| regs ::= fun r => coe_send_download_response r (mbx_in e0) i s ca |>).
Proof.
  intros Ke. apply keeps_resp; [done|apply (len_builders _ _ _ _ 0 ca [])|]. intros a Ha Hr. by apply (rd_builders _ _ _ _ 0 ca []).
Qed.
Lemma keeps_seg_ack e t : K e -> K (e <| regs ::= fun r => seg_acknowledge r (mbx_in e0) t |>).
Proof.
  intros Ke. apply keeps_resp; [done|apply (len_builders _ _ _ 0 0 false [])|]. intros a Ha Hr. by apply (rd_builders _ _ _ 0 0 false []).
Qed.
Lemma keeps_download e i s ca d : K e -> K (od_download e i s ca d).1.
Proof. intros Ke. apply (keeps_hw_r e); [done|]. apply od_download_hw. Qed.
Lemma keeps_answer e i s ca d : K e -> K (answer_download (od_download e i s ca d) (mbx_in e0) i s ca).
Proof.
  intros Ke. pose proof (keeps_download e i s ca d Ke) as H. unfold answer_download. destruct (od_download e i s ca d) as [e' a]. cbn in H.
  case_if; auto using keeps_abort, keeps_ack.
Qed.
Hint Resolve keeps_abort keeps_end keeps_ack keeps_seg_ack keeps_answer : keeps.

Lemma keeps_upload_request e i s ca : K e -> K (coe_handle_upload_request e (mbx_in e0) i s ca).
Proof.
  intros Ke. unfold coe_handle_upload_request. destruct (od_upload_value e i s ca) as [[a|d]|]; [auto with keeps| |by apply (keeps_hw_r e)].
  case_if; bprop.
  - apply keeps_end, keeps_resp; [done|apply (len_builders _ _ _ _ 0 ca d)|]. intros a Ha Hr. apply (rd_builders _ _ _ _ 0 ca d); lia.
  - unfold coe_start_upload_normal. match goal with |- K (?x <| coe_session := _ |>) => apply (keeps_hw_r x); [|done] end.
    pose proof (len_nonneg d).
    apply keeps_resp; [done|by autorewrite with memlen|]. intros a Ha Hr.
    set (n := if 112 <? len d then 112 else len d). assert (0 <= n <= 112) by (unfold n; case_if; bprop; lia).
    pose proof (len_slice_le d 0 n ltac:(lia)). rewrite rd_memcpy_out by lia. mem_simp. by rewrite resp_header_out by lia.
Qed.
Lemma keeps_upload_segment e c : K e -> K (coe_handle_upload_segment e (mbx_in e0) c).
Proof.
  intros Ke. unfold coe_handle_upload_segment. cbv zeta. repeat case_if; auto with keeps.
  destruct (od_upload_value _ _ _ _) as [[a|d]|]; [auto with keeps| |by apply (keeps_hw_r e)]. case_if; auto with keeps. bprop.
  match goal with |- K (?x <| coe_session ::= _ |>) => apply (keeps_hw_r x); [|done] end.
  set (rem := len d - s_done (coe_session e)). set (n := if negb (119 <? rem) then rem else 119).
  assert (0 <= n <= 119) by (unfold n, rem; case_if; bprop; lia).
  apply keeps_resp; [done|by autorewrite with memlen|]. intros a Ha Hr.
  pose proof (len_slice_le d (s_done (coe_session e)) n ltac:(lia)). rewrite rd_memcpy_out by lia. unfold memset.
  rewrite rd_memcpy_out by (rewrite ?len_replicate; repeat case_if; lia). mem_simp. by rewrite resp_header_out by lia.
Qed.
Lemma keeps_download_init e q i s c : K e -> K (coe_handle_download_init e (mbx_in e0) q i s c).
Proof.
  intros Ke. unfold coe_handle_download_init. cbv zeta. repeat case_if; auto with keeps.
  all: match goal with |- K (?x <| regs ::= _ |>) => apply (keeps_ack x), (keeps_hw_r e); done end.
Qed.
Lemma keeps_download_segment e q c : K e -> K (coe_handle_download_segment e (mbx_in e0) q c).
Proof.
  intros Ke. unfold coe_handle_download_segment. cbv zeta.
  do 2 (case_if; [auto with keeps|]).
  match goal with |- K (if _ <? _ + ?seg then _ else _) => generalize seg; intros n end.
  case_if; [auto with keeps|]. case_if.
  - match goal with |- context [od_download ?x ?i ?s ?ca ?d] => pose proof (keeps_download x i s ca d (keeps_hw_r e x Ke eq_refl)) as H;
      destruct (od_download x i s ca d) as [e' a] end. cbn [fst] in H.
    match goal with |- K (let '(_, _) := if ?b then (?x, _) else _ in _) => assert (Kx : K x) by (by apply (keeps_hw_r e)); destruct b end;
      case_if; auto with keeps.
  - match goal with |- K (?x <| regs ::= _ |>) => apply (keeps_seg_ack x), (keeps_hw_r e); done end.
Qed.
Lemma keeps_stamp e : K e -> K (stamp_cnt e).
Proof.
  intros Ke. pose proof (k_mbx _ _ _ Ke) as (M & _). eapply keeps_trans; [exact Ke|]. split; cbn; [apply len_wr| |done|done].
  intros a Ha Hs. apply rd_wr_ne; unfold mbx_area in Hs; lia.
Qed.
Lemma keeps_mailbox_out : K (coe_on_mailbox_out_write e0).
Proof.
  unfold coe_on_mailbox_out_write, coe_dispatch. pose proof (keeps_refl (mbx_area e0) e0) as K0.
  case_if; [case_if; auto with keeps|]. case_if; [case_if; auto with keeps|]. case_if; [case_if; auto with keeps|].
  cbv zeta. match goal with |- context [stamp_cnt ?x] => assert (H : K x) end.
  { repeat case_if; auto using keeps_upload_request, keeps_upload_segment, keeps_download_init, keeps_download_segment with keeps. }
  apply keeps_stamp in H. match goal with |- K (if ?b then _ else _) => destruct b end; [by apply (keeps_hw_r _ _ H)|].
  apply keeps_set_reg_r; [lia|by right|done].
Qed.
End mailbox.

(** ** Physical access *)

(** Registers with side effects: error counters, watchdog status and counter,
    EEPROM interface, sync managers, DC unit, and the mailbox memory. *)
Definition special (a : Z) : Prop := 768 <= a < 808 \/ 1088 <= a < 1093 \/ 1282 <= a < 1292 \/ 2048 <= a.

Section access.
Context (g : esc_dc_cfg_t) (n : Z).
Notation Kp := (keeps special).

Lemma keeps_wr_regs e (r' : list Z) : len r' = len (regs e) -> (forall a, 0 <= a -> ~ special a -> rd r' a = rd (regs e) a) ->
  Kp e (e <| regs := r' |>).
Proof. apply keeps_regs. Qed.
Lemma keeps_dc_read e off l : Kp e (esc_dc_before_read g e off l).
Proof.
  unfold esc_dc_before_read. case_if; [apply keeps_refl|]. cbv zeta.
  assert (T : forall x p v, 2304 <= p -> Kp e x -> Kp e (x <| regs ::= fun r => wr_time_view g r p v |>)).
  { intros x p v Hp Kx. eapply keeps_trans; [exact Kx|]. apply keeps_wr_regs; [apply len_wr_time_view|].
    intros a Ha Hs. apply rd_wr_time_view_ne; unfold special in Hs; lia. }
  match goal with |- Kp e (if sync0_active (dc ?x) && _ && _ then _ else _) => assert (Kx : Kp e x) end.
  { assert (Ky : Kp e (if overlaps off l 2320 8 then e <| regs ::= fun r => wr_time_view g r 2320 (esc_dc_frame_sys g e) |> <| dc ::= fun d => d <| read_systime := true |> |> else e)).
    { case_if; [|apply keeps_refl]. eapply keeps_trans; [apply (T e 2320 (esc_dc_frame_sys g e)); [lia|apply keeps_refl]|]. by apply keeps_hw. }
    revert Ky. generalize (if overlaps off l 2320 8 then e <| regs ::= fun r => wr_time_view g r 2320 (esc_dc_frame_sys g e) |> <| dc ::= fun d => d <| read_systime := true |> |> else e).
    intros y Ky. case_if; [|done]. eapply keeps_trans; [exact Ky|]. apply keeps_wr_regs; [by autorewrite with memlen|].
    intros a Ha Hs. apply rd_wr_le32_ne; unfold special in Hs; lia. }
  revert Kx. match goal with |- Kp e ?x -> _ => generalize x end. intros x Kx. case_if; [|done]. apply T; [lia|done].
Qed.
Lemma keeps_sync_irq e : Kp e (esc_sm1_sync_irq_write e).
Proof. apply keeps_set_reg; [lia|unfold special; lia]. Qed.
Lemma keeps_fetched e off l : Kp e (mailbox_fetched e off l).
Proof.
  unfold mailbox_fetched. case_if; [|apply keeps_refl]. cbv zeta. apply keeps_set_reg_r; [lia|unfold special; lia|].
  match goal with |- context [if ?b then _ else e] => destruct b end; [by apply keeps_hw|apply keeps_refl].
Qed.
Lemma keeps_before_read e off l : Kp e (before_read g e off l).
Proof. eapply keeps_trans; [apply keeps_dc_read|apply keeps_sync_irq]. Qed.
Lemma keeps_phys_read e off data : Kp e (esc_phys_read g e off data).1.
Proof.
  unfold esc_phys_read. case_if; [apply keeps_refl|]. eapply keeps_trans; [apply keeps_before_read|apply keeps_fetched].
Qed.
Lemma keeps_phys_read_or e off data : Kp e (esc_phys_read_or g e off data).1.
Proof.
  unfold esc_phys_read_or. case_if; [apply keeps_refl|]. eapply keeps_trans; [apply keeps_before_read|apply keeps_fetched].
Qed.

Lemma keeps_latch e : Kp e (latch_receive_times g n e).
Proof.
  unfold latch_receive_times. apply keeps_wr_regs; [by autorewrite with memlen|]. intros a Ha Hs. unfold special in Hs.
  rewrite rd_wr_time_view_ne by lia. by mem_simp.
Qed.
Lemma keeps_activation e : Kp e (sync0_activation g e).
Proof. unfold sync0_activation. cbv zeta. repeat case_if; by apply keeps_hw. Qed.
Lemma keeps_dc_write e off data : Kp e (esc_dc_after_write g n e off data).
Proof.
  unfold esc_dc_after_write. cbv zeta. case_if; [apply keeps_refl|].
  assert (C : forall (b : bool) x y, Kp e x -> (Kp e x -> Kp e y) -> Kp e (if b then y else x)) by (intros [|]; auto).
  assert (H : forall x y, Kp e x -> Kp x y -> Kp e y) by (intros; eapply keeps_trans; eauto).
  repeat match goal with
  | |- Kp e (if ?b then ?y else ?x) => apply (C b x y); [|intros Kx; apply (H x); [exact Kx|clear Kx]]
  end; try apply keeps_refl; try apply keeps_latch; try apply keeps_activation; try (by apply keeps_hw).
  - apply keeps_wr_regs; [by autorewrite with memlen|]. intros a Ha Hs. apply rd_wr_time_view_ne; unfold special in Hs; lia.
  - apply keeps_wr_regs; [by autorewrite with memlen|]. intros a Ha Hs. apply rd_wr_le32_ne; unfold special in Hs; lia.
Qed.
Lemma len_restore_ro old r : len (restore_ro old r) = len r.
Proof. unfold restore_ro, ro_regs. cbn [foldl]. by autorewrite with memlen. Qed.
Lemma len_clear_counters r off l : len (clear_counters r off l) = len r.
Proof. unfold clear_counters. cbv zeta. repeat case_if; by autorewrite with memlen. Qed.
Lemma keeps_clear e old off l : Kp e (e <| regs ::= fun r => clear_counters (restore_ro old r) off l |>).
Proof.
  apply keeps_wr_regs; [by rewrite len_clear_counters, len_restore_ro|]. intros a Ha Hs. unfold special in Hs.
  transitivity (rd (restore_ro old (regs e)) a).
  - unfold clear_counters, memset. cbv zeta. repeat case_if; mem_simp; done.
  - unfold restore_ro, ro_regs. cbn [foldl]. by mem_simp.
Qed.
Lemma keeps_repeat e off l v : Kp e (mailbox_repeat e off l v).
Proof.
  unfold mailbox_repeat. case_if; [|apply keeps_refl]. cbv zeta.
  match goal with |- Kp e (?x <| fault ::= _ |>) => apply keeps_trans with x; [|by apply keeps_hw] end.
  repeat (apply keeps_set_reg_r; [lia|unfold special; lia|]). apply keeps_refl.
Qed.
Lemma keeps_wd_sm off l e k : Kp e (wd_on_write_sm off l e k).
Proof.
  unfold wd_on_write_sm. case_if; [apply keeps_refl|]. case_if; [|apply keeps_refl].
  apply keeps_set_reg_r; [lia|unfold special; lia|]. by apply keeps_hw.
Qed.
Lemma keeps_wd_write e off l : Kp e (esc_wd_on_write e off l).
Proof. unfold esc_wd_on_write. cbn [foldl]. repeat (eapply keeps_trans; [|apply keeps_wd_sm]). apply keeps_refl. Qed.
Lemma keeps_sii e off l : Kp e (sii_command e off l).
Proof.
  unfold sii_command. case_if; [|apply keeps_refl]. cbv zeta.
  do 2 (apply keeps_set_reg_r; [lia|unfold special; lia|]).
  assert (R : Kp e (set_reg e (REG_SII_CONTROL_STATUS + 1) (bits_clear (reg e (REG_SII_CONTROL_STATUS + 1)) 96)))
    by (apply keeps_set_reg; [lia|unfold special; lia]).
  repeat case_if; [exact R| |apply keeps_set_reg; [lia|unfold special; lia]].
  eapply keeps_trans; [exact R|]. split; cbn; [by autorewrite with memlen| |done|done].
  intros a Ha Hs. unfold special in Hs. by mem_simp.
Qed.
Lemma keeps_addresses e off l : Kp e (update_addresses e off l).
Proof.
  unfold update_addresses. cbv zeta. apply keeps_hw. repeat case_if; done.
Qed.

(** A write stores its bytes; besides, only registers with side effects change. *)
Lemma keeps_phys_write e off data : 4096 <= mbx_in e -> off + len data <= 8192 ->
  Kp (e <| regs ::= fun r => memcpy r off data |>) (esc_phys_write g n e off data).
Proof.
  intros Hm Hl. unfold esc_phys_write. rewrite (proj2 (Z.ltb_ge _ _)) by lia. cbv zeta.
  match goal with |- Kp _ (if (_ <? mbx_out ?x + _) && _ then _ else _) =>
    assert (Kx : Kp (e <| regs ::= fun r => memcpy r off data |>) x) end.
  { repeat first [eapply keeps_trans; [|first [apply keeps_addresses|apply keeps_sii|apply keeps_wd_write|apply keeps_repeat|apply keeps_clear]]
                 |apply keeps_dc_write]. }
  revert Kx. match goal with |- Kp _ ?x -> _ => generalize x end. intros x Kx. case_if; [|exact Kx].
  eapply keeps_trans; [exact Kx|]. pose proof (k_mbx _ _ _ Kx) as (M & _). cbn in M.
  apply keeps_weaken with (mbx_area x); [unfold mbx_area, special; intros; lia|]. apply keeps_mailbox_out. lia.
Qed.
End access.

(** ** Working counter and addressing *)

Definition is_ap (cmd : Z) : bool := (cmd =? CMD_APRD) || (cmd =? CMD_APWR) || (cmd =? CMD_APRW).
Definition is_fp (cmd : Z) : bool := (cmd =? CMD_FPRD) || (cmd =? CMD_FPWR) || (cmd =? CMD_FPRW).
Definition is_b (cmd : Z) : bool := (cmd =? CMD_BRD) || (cmd =? CMD_BWR) || (cmd =? CMD_BRW).
Definition is_rmw (cmd : Z) : bool := (cmd =? CMD_ARMW) || (cmd =? CMD_FRMW).
(** What one addressed slave adds: 1 for a read or a write, 3 for both. *)
Definition cmd_weight (cmd : Z) : Z := if (cmd =? CMD_APRW) || (cmd =? CMD_FPRW) || (cmd =? CMD_BRW) || (cmd =? CMD_LRW) then 3 else 1.
Definition expected_wkc (chain : list esc_t) (cmd adp : Z) : Z :=
  let n := Z.of_nat (length chain) in
  if is_ap cmd then if u16 (- adp) <? n then cmd_weight cmd else 0
  else if is_fp cmd then cmd_weight cmd * Z.of_nat (length (filter (fun e => esc_addr_match e adp = true) chain))
  else if is_b cmd then cmd_weight cmd * n
  else if is_rmw cmd then n
  else 0.

Section wkc.
Context (g : esc_dc_cfg_t) (n : Z).

Definition acc_wkc (acc : bool * bool * bool) : Z :=
  let '(m, r, w) := acc in if m then if r && w then 3 else if r || w then 1 else 0 else 0.
Lemma access_node_wkc cmd acc ado e data wkc : is_u16 wkc ->
  (access_node g n cmd acc ado e data wkc).2 = u16 (wkc + acc_wkc acc).
Proof.
  intros. destruct acc as [[[] []] []]; cbn; try destruct (read_for g cmd e ado data); cbn; rewrite ?Z.add_0_r; clia.
Qed.
Lemma cmd_cases cmd : is_logical cmd = false ->
  is_ap cmd = true \/ is_fp cmd = true \/ is_b cmd = true \/ cmd = CMD_ARMW \/ cmd = CMD_FRMW \/
  (forall adp l e, node_access cmd adp l e = (false, false, false)) /\ is_ap cmd = false /\ is_fp cmd = false /\ is_b cmd = false /\ is_rmw cmd = false.
Proof.
  unfold is_logical, is_ap, is_fp, is_b, is_rmw, node_access. intros L.
  destruct (cmd =? 1), (cmd =? 2), (cmd =? 3), (cmd =? 4), (cmd =? 5), (cmd =? 6), (cmd =? 7), (cmd =? 8), (cmd =? 9); auto.
  destruct (cmd =? 13) eqn:E1, (cmd =? 14) eqn:E2; bprop; subst; auto; try lia.
  do 5 right. auto.
Qed.
(** The weight of the access of one node, for each kind of command. *)
Lemma acc_ap cmd adp l e : is_ap cmd = true -> acc_wkc (node_access cmd adp l e) = if l =? 0 then cmd_weight cmd else 0.
Proof. unfold is_ap, node_access. intros H. destruct (cmd =? 1) eqn:?, (cmd =? 2) eqn:?, (cmd =? 3) eqn:?; bprop; subst; try discriminate; cbn; by destruct (l =? 0). Qed.
Lemma acc_fp cmd adp l e : is_fp cmd = true -> acc_wkc (node_access cmd adp l e) = if esc_addr_match e adp then cmd_weight cmd else 0.
Proof.
  unfold is_fp, node_access. intros H. destruct (cmd =? 4) eqn:?, (cmd =? 5) eqn:?, (cmd =? 6) eqn:?; bprop; subst; try discriminate; cbn; by destruct (esc_addr_match e adp).
Qed.
Lemma acc_b cmd adp l e : is_b cmd = true -> acc_wkc (node_access cmd adp l e) = cmd_weight cmd.
Proof. unfold is_b, node_access. intros H. destruct (cmd =? 7) eqn:?, (cmd =? 8) eqn:?, (cmd =? 9) eqn:?; bprop; subst; try discriminate; done. Qed.

(** The counter of the loop is the sum over the nodes, each with the auto-increment address it sees. *)
Fixpoint sum_wkc (cmd adp local_adp : Z) (chain : list esc_t) : Z :=
  match chain with
  | [] => 0
  | e :: chain => acc_wkc (node_access cmd adp local_adp e)
                  + sum_wkc cmd adp (if is_auto_inc cmd then u16 (local_adp + 1) else local_adp) chain
  end.
Lemma loop_wkc cmd adp ado l chain data wkc : is_logical cmd = false -> is_u16 wkc ->
  (datagram_loop g n cmd adp ado l chain data wkc).2 = u16 (wkc + sum_wkc cmd adp l chain).
Proof.
  intros L. revert l data wkc. induction chain as [|e chain IH]; intros l data wkc Hw; cbn [datagram_loop sum_wkc].
  { cbn. rewrite Z.add_0_r. clia. }
  unfold node_datagram. rewrite L. pose proof (access_node_wkc cmd (node_access cmd adp l e) ado e data wkc Hw) as A.
  destruct (access_node _ _ _ _ _ _ _ _) as [[e' d'] w']. cbn [snd] in A. subst w'.
  specialize (IH (if is_auto_inc cmd then u16 (l + 1) else l) d' (u16 (wkc + acc_wkc (node_access cmd adp l e))) (u16_range _)).
  destruct (datagram_loop _ _ _ _ _ _ _ _ _) as [[c' d''] w'']. cbn [snd] in *. rewrite IH.
  generalize (sum_wkc cmd adp (if is_auto_inc cmd then u16 (l + 1) else l) chain). intros s. clia.
Qed.
Lemma sum_ap cmd adp l chain : is_ap cmd = true -> is_u16 l -> Z.of_nat (length chain) <= 65536 ->
  sum_wkc cmd adp l chain = if u16 (- l) <? Z.of_nat (length chain) then cmd_weight cmd else 0.
Proof.
  intros C. assert (I : is_auto_inc cmd = true) by (unfold is_ap in C; unfold is_auto_inc; by rewrite C).
  revert l. induction chain as [|e chain IH]; intros l Hl Hn; cbn [sum_wkc length].
  { rewrite (proj2 (Z.ltb_ge _ _)); [done|]. apply u16_range. }
  cbn [length] in Hn. rewrite acc_ap, I, IH by (done || lia || apply u16_range). revert Hl Hn. generalize (length chain). intros m Hl Hn.
  case_if; case_if; case_if; bprop; subst; try lia; exfalso; clia.
Qed.
Lemma sum_fp cmd adp l chain : is_fp cmd = true ->
  sum_wkc cmd adp l chain = cmd_weight cmd * Z.of_nat (length (filter (fun e => esc_addr_match e adp = true) chain)).
Proof.
  intros C. revert l. induction chain as [|e chain IH]; intros l; cbn [sum_wkc]; [cbn; lia|].
  rewrite acc_fp, IH by done. rewrite filter_cons. case_if; [rewrite decide_True by done|rewrite decide_False by congruence]; cbn [length]; lia.
Qed.
Lemma sum_const cmd adp l chain c : (forall l e, acc_wkc (node_access cmd adp l e) = c) ->
  sum_wkc cmd adp l chain = c * Z.of_nat (length chain).
Proof. intros H. revert l. induction chain as [|e chain IH]; intros l; cbn [sum_wkc length]; [lia|]. rewrite H, IH. lia. Qed.

(** C8: The working counter.  For every command that is not logical, a datagram
    that passed the chain has its counter raised by exactly what the standard
    counts: position addressing by the weight of the command if the position is in
    the chain, station addressing by the weight for every node with that address or
    enabled alias, broadcast by the weight per node, read-multiple-write by one per
    node, anything else by nothing. *)
Theorem wkc_exact (chain : list esc_t) (cmd adp ado : Z) (data : list Z) (wkc : Z) :
  is_logical cmd = false -> is_u16 adp -> is_u16 wkc -> Z.of_nat (length chain) <= 65536 ->
  (process_datagram g n chain cmd adp ado data wkc).2 = u16 (wkc + expected_wkc chain cmd adp).
Proof.
  intros L Ha Hw Hn. unfold process_datagram. rewrite loop_wkc by done. f_equal. f_equal. unfold expected_wkc. cbv zeta.
  assert (D : forall c, is_ap c = true -> is_fp c = false /\ is_b c = false) by
    (unfold is_ap, is_fp, is_b; intros c; repeat match goal with |- context [c =? ?k] => destruct (Z.eqb_spec c k); subst end; auto).
  destruct (cmd_cases cmd L) as [C|[C|[C|[->|[->|(N & -> & -> & -> & ->)]]]]].
  - rewrite C. by apply sum_ap.
  - assert (is_ap cmd = false) as -> by (destruct (is_ap cmd) eqn:E; [destruct (D _ E); congruence|done]). rewrite C. by apply sum_fp.
  - assert (is_ap cmd = false) as -> by (destruct (is_ap cmd) eqn:E; [destruct (D _ E); congruence|done]).
    assert (is_fp cmd = false) as ->.
    { clear D. unfold is_fp, is_b in *. repeat match goal with |- context [cmd =? ?k] => destruct (Z.eqb_spec cmd k); subst end; done. }
    rewrite C. apply sum_const. intros. by apply acc_b.
  - cbn. rewrite (sum_const 13 adp adp chain 1); [lia|]. intros. cbn. by destruct (l =? 0).
  - cbn. rewrite (sum_const 14 adp adp chain 1); [lia|]. intros. cbn. by destruct (esc_addr_match e adp).
  - rewrite (sum_const cmd adp adp chain 0); [lia|]. intros. by rewrite N.
Qed.
End wkc.

(** ** AL state machine *)

(** The application layer state machine of the standard: state, error flag,
    status code, and whether outputs were received since SAFEOP was entered. *)
Record esm := mkEsm { es_state : Z; es_err : bool; es_code : Z; es_out : bool }.
Inductive esm_edge : Z -> Z -> Prop :=
| edge_ip : esm_edge ESM_INIT ESM_PREOP
| edge_pi : esm_edge ESM_PREOP ESM_INIT
| edge_ps : esm_edge ESM_PREOP ESM_SAFEOP
| edge_sp : esm_edge ESM_SAFEOP ESM_PREOP
| edge_si : esm_edge ESM_SAFEOP ESM_INIT
| edge_so : esm_edge ESM_SAFEOP ESM_OP
| edge_os : esm_edge ESM_OP ESM_SAFEOP
| edge_op : esm_edge ESM_OP ESM_PREOP
| edge_oi : esm_edge ESM_OP ESM_INIT.
(** What the node brings to a request: a rejection to inject with its code, the
    verdict of the profile on the process data (0: fine), a delayed entry to OP. *)
Record al_env := mkAlEnv { env_forced : option Z; env_pd : Z; env_delay : bool }.
(** What happens to the machine: nothing, process data for the outputs, the
    reaction of the watchdog, one request for state [r] with the acknowledge bit. *)
Inductive esm_event := EvNone | EvOutputs | EvWatchdog | EvRequest (r : Z) (ack : bool) (env : al_env).
(** One event, one step. *)
Inductive esm_step : esm_event -> esm -> esm -> Prop :=
| es_none s : esm_step EvNone s s
| es_outputs s er c o : esm_step EvOutputs (mkEsm s er c o) (mkEsm s er c true)
| es_watchdog er c o : esm_step EvWatchdog (mkEsm ESM_OP er c o) (mkEsm ESM_SAFEOP true ALSTATUSCODE_SYNCMANWATCHDOG false)
| es_ack s c o env : esm_step (EvRequest s true env) (mkEsm s true c o) (mkEsm s false ALSTATUSCODE_NOERROR o)
| es_same s ack er c o env : ack && er = false -> esm_step (EvRequest s ack env) (mkEsm s er c o) (mkEsm s er c o)
| es_forced s r ack er c o env c' : r <> s -> env_forced env = Some c' ->
    esm_step (EvRequest r ack env) (mkEsm s er c o) (mkEsm s true c' o)
| es_invalid s r ack er c o env : r <> s -> env_forced env = None -> ~ esm_edge s r ->
    esm_step (EvRequest r ack env) (mkEsm s er c o) (mkEsm s true ALSTATUSCODE_INVALIDALCONTROL o)
| es_bad_pd ack er c o env : env_forced env = None -> env_pd env <> 0 ->
    esm_step (EvRequest ESM_SAFEOP ack env) (mkEsm ESM_PREOP er c o) (mkEsm ESM_PREOP true (env_pd env) o)
| es_no_outputs ack er c env : env_forced env = None ->
    esm_step (EvRequest ESM_OP ack env) (mkEsm ESM_SAFEOP er c false) (mkEsm ESM_SAFEOP true ALSTATUSCODE_NOVALIDOUTPUTS false)
| es_deferred ack er c env : env_forced env = None -> env_delay env = true ->
    esm_step (EvRequest ESM_OP ack env) (mkEsm ESM_SAFEOP er c true) (mkEsm ESM_SAFEOP er c true)
| es_operate ack er c env : env_forced env = None -> env_delay env = false ->
    esm_step (EvRequest ESM_OP ack env) (mkEsm ESM_SAFEOP er c true) (mkEsm ESM_OP false ALSTATUSCODE_NOERROR true)
| es_move s r ack er c o env : env_forced env = None -> esm_edge s r -> r <> ESM_OP ->
    (s = ESM_PREOP -> r = ESM_SAFEOP -> env_pd env = 0) ->
    esm_step (EvRequest r ack env) (mkEsm s er c o) (mkEsm r false ALSTATUSCODE_NOERROR (if r =? ESM_SAFEOP then false else o)).
Inductive esm_run : list esm_event -> esm -> esm -> Prop :=
| run_nil s : esm_run [] s s
| run_cons ev evs s1 s2 s3 : esm_step ev s1 s2 -> esm_run evs s2 s3 -> esm_run (ev :: evs) s1 s3.

Lemma esm_edge_ne s : ~ esm_edge s s.
Proof. inversion 1; discriminate. Qed.
(** The events determine the run. *)
Lemma esm_step_det ev s s1 s2 : esm_step ev s s1 -> esm_step ev s s2 -> s1 = s2.
Proof.
  destruct 1; inversion 1; subst; try done; try congruence; try (by exfalso; eauto using esm_edge, esm_edge_ne);
    try match goal with H : esm_edge ?x ?x |- _ => by destruct (esm_edge_ne _ H) end;
    try match goal with H : ?x = ?x -> _ |- _ => specialize (H eq_refl) end; try match goal with H : ?x = ?x -> _ |- _ => specialize (H eq_refl) end; congruence.
Qed.
Lemma esm_none_inv s s' : esm_step EvNone s s' -> s' = s.
Proof. by inversion 1. Qed.
Lemma esm_run_det evs s s1 s2 : esm_run evs s s1 -> esm_run evs s s2 -> s1 = s2.
Proof.
  intros R. revert s2. induction R as [|ev evs a b c S R IH]; intros s2 R2; inversion R2; subst; [done|].
  apply IH. match goal with H : esm_step ev a ?x |- _ => by rewrite (esm_step_det ev a b x S H) end.
Qed.

(** What every run of the abstract machine keeps. *)
Definition esm_inv (s : esm) : Prop :=
  (es_state s = ESM_INIT \/ es_state s = ESM_PREOP \/ es_state s = ESM_SAFEOP \/ es_state s = ESM_OP) /\
  (es_state s = ESM_OP -> es_out s = true).
Lemma esm_step_inv ev s s' : esm_step ev s s' -> esm_inv s -> esm_inv s'.
Proof.
  destruct 1 as [| | | | | | | | | | |s r ack er c o env F E]; unfold esm_inv; cbn; try (intros [? ?]; split; auto; lia).
  destruct E; cbn; intros [? ?]; split; auto; lia.
Qed.
Lemma esm_run_inv evs s s' : esm_run evs s s' -> esm_inv s -> esm_inv s'.
Proof. induction 1; eauto using esm_step_inv. Qed.

Definition esm_of (e : esc_t) : esm :=
  mkEsm (Z.land (rd_le16 (regs e) REG_AL_STATUS) 15) (Z.testbit (rd_le16 (regs e) REG_AL_STATUS) 4)
    (rd_le16 (regs e) REG_AL_STATUS_CODE) (got_valid_outputs e).
Record node_al (e : esc_t) : Prop := {
  na_len : len (regs e) = 8192;
  na_mbx : 4096 <= mbx_in e;
  na_rej : is_u16 (reject_al_code (fault e));
}.

Lemma rd_le16_put m a v : 0 <= a -> a + 1 < len m -> rd_le16 (wr_le16 m a v) a = u16 v.
Proof.
  intros. unfold rd_le16. rewrite rd_wr_le16_lo, rd_wr_le16_hi by lia. rewrite lor_shift_add by (pose proof (u8_range v); unfold_c; lia). clia.
Qed.
Lemma rd_le16_put_ne m a b v : 0 <= a -> 0 <= b -> b + 2 <= a \/ a + 2 <= b -> rd_le16 (wr_le16 m a v) b = rd_le16 m b.
Proof. intros. apply rd_le16_ext; apply rd_wr_le16_ne; lia. Qed.
Lemma set_al_esm e st code : len (regs e) = 8192 -> is_u16 st -> is_u16 code ->
  esm_of (set_al e st code) = mkEsm (Z.land st 15) (Z.testbit st 4) code (got_valid_outputs e).
Proof.
  intros Hl Hs Hc. unfold esm_of, set_al. cbn -[rd_le16 wr_le16]. rewrite !(rd_le16_put_ne _ 308 304), !rd_le16_put by (rewrite ?len_wr_le16; lia).
  unfold_c. by rewrite !Z.mod_small by lia.
Qed.
Lemma keeps_set_al e st code : keeps (fun a => 304 <= a < 310) e (set_al e st code).
Proof. split; cbn; [by rewrite !len_wr_le16| |done|done]. intros a Ha Hs. rewrite !rd_wr_le16_ne by lia. done. Qed.

(** The low four bits and the error bit of a status word. *)
Lemma nibble_facts w : let c := Z.land w 15 in
  0 <= c < 16 /\ Z.land c 15 = c /\ Z.testbit c 4 = false /\ Z.land (Z.lor c 16) 15 = c /\ Z.testbit (Z.lor c 16) 4 = true /\ 0 <= Z.lor c 16 < 65536.
Proof.
  cbv zeta. assert (B : 0 <= Z.land w 15 < 16) by (change 15 with (Z.ones 4); rewrite Z.land_ones by lia; apply Z.mod_pos_bound; lia).
  revert B. generalize (Z.land w 15). intros c B.
  assert (c = 0 \/ c = 1 \/ c = 2 \/ c = 3 \/ c = 4 \/ c = 5 \/ c = 6 \/ c = 7 \/ c = 8 \/ c = 9 \/ c = 10 \/ c = 11 \/ c = 12 \/ c = 13 \/ c = 14 \/ c = 15) as H by lia.
  repeat destruct H as [->|H]; [..|subst c]; split_and!; first [reflexivity|lia|vm_compute; discriminate].
Qed.
Lemma esm_eta e : esm_of e = mkEsm (es_state (esm_of e)) (es_err (esm_of e)) (es_code (esm_of e)) (got_valid_outputs e).
Proof. done. Qed.
Lemma refuse_esm e e1 code : node_al e -> regs e1 = regs e -> got_valid_outputs e1 = got_valid_outputs e -> is_u16 code ->
  esm_of (refuse_al e1 (es_state (esm_of e)) code) = mkEsm (es_state (esm_of e)) true code (es_out (esm_of e)).
Proof.
  intros [Hl _ _] Hr Ho Hc. unfold refuse_al. destruct (nibble_facts (rd_le16 (regs e) 304)) as (_ & _ & _ & L & T & R).
  rewrite set_al_esm by (rewrite ?Hr; done). cbn [esm_of es_state es_out]. by rewrite L, T, Ho.
Qed.
Lemma valid_edge c r : valid_transition c r = true <-> esm_edge c r.
Proof.
  split; [|by destruct 1]. unfold valid_transition. intros H.
  repeat match type of H with context [c =? ?k] => destruct (Z.eqb_spec c k); [subst|] end; try discriminate;
    repeat match type of H with context [r =? ?k] => destruct (Z.eqb_spec r k); [subst|] end; try discriminate; auto using esm_edge.
Qed.
Lemma prof_code_u16 e : is_u16 (prof_code e).
Proof. unfold prof_code, esc_prof_check_pd. destruct (prof e); repeat case_if; clia. Qed.

(** The request in a value of the AL control register, and what the node brings to it. *)
Definition al_env_of (e : esc_t) (r : Z) : al_env :=
  mkAlEnv (if force_reject_al e && ((reject_al_state (fault e) =? 0) || (r =? reject_al_state (fault e)))
           then Some (if reject_al_code (fault e) =? 0 then ALSTATUSCODE_UNKNOWNALCONTROL else reject_al_code (fault e)) else None)
    (prof_code e) (negb (op_delay_ms (fault e) =? 0) && negb (powered_off (fault e))).
Definition al_request (e : esc_t) (ctl : Z) : esm_event :=
  EvRequest (Z.land ctl 15) (Z.testbit ctl 4) (al_env_of e (Z.land ctl 15)).

Lemma al_control_node e : node_al e -> node_al (esc_al_control_write e).
Proof.
  intros N. assert (Ns : forall x st c, node_al x -> node_al (set_al x st c)).
  { intros x st c [Hl Hm Hr]. pose proof (keeps_set_al x st c) as [L _ [_ O] (M & _)]. split; rewrite ?L, ?M, ?O; done. }
  unfold esc_al_control_write, refuse_al. cbv zeta. repeat (case_if; auto); try apply Ns; try (destruct N; split; cbn; by rewrite ?len_wr_le16); destruct N; split; cbn; done.
Qed.
(** A granted request. *)
Lemma grant_esm e req : node_al e -> 0 <= req < 16 ->
  esm_of (if req =? ESM_SAFEOP then (set_al e req ALSTATUSCODE_NOERROR) <| got_valid_outputs := false |> else set_al e req ALSTATUSCODE_NOERROR) =
  mkEsm req false ALSTATUSCODE_NOERROR (if req =? ESM_SAFEOP then false else es_out (esm_of e)).
Proof.
  intros N R. destruct (nibble_facts req) as (_ & R2 & R3 & _).
  assert (Er : Z.land req 15 = req) by (change 15 with (Z.ones 4); rewrite Z.land_ones by lia; apply Z.mod_small; lia). rewrite Er in R3.
  assert (S : esm_of (set_al e req 0) = mkEsm req false 0 (got_valid_outputs e)) by (rewrite set_al_esm by (apply N || clia); by rewrite Er, R3).
  case_if; [|exact S]. unfold esm_of in S |- *. cbn in S |- *. by injection S as -> -> ->.
Qed.
(** The handler of AL control makes exactly the step of the request. *)
Lemma al_control_step e : node_al e ->
  esm_step (al_request e (rd_le16 (regs e) REG_AL_CONTROL)) (esm_of e) (esm_of (esc_al_control_write e)).
Proof.
  intros N. unfold al_request. destruct (nibble_facts (rd_le16 (regs e) 288)) as (R1 & _).
  unfold esc_al_control_write. cbv zeta. change (Z.land (rd_le16 (regs e) 304) 15) with (es_state (esm_of e)).
  change (Z.testbit (rd_le16 (regs e) 304) 4) with (es_err (esm_of e)). change (got_valid_outputs e) with (es_out (esm_of e)).
  set (req := Z.land (rd_le16 (regs e) 288) 15) in *. set (ack := Z.testbit _ 4).
  pose proof (fun c => refuse_esm e e c N eq_refl eq_refl) as Rf.
  destruct (nibble_facts (rd_le16 (regs e) 304)) as (C1 & C2 & C3 & _).
  change (Z.land (rd_le16 (regs e) 304) 15) with (es_state (esm_of e)) in *. rewrite (esm_eta e) at 1.
  destruct (Z.eqb_spec req (es_state (esm_of e))) as [Eq|Ne].
  { rewrite Eq. destruct (ack && es_err (esm_of e)) eqn:A; [|by apply es_same].
    apply andb_true_iff in A as [-> ->]. rewrite set_al_esm by (apply N || clia). rewrite C2, C3. apply es_ack. }
  unfold al_env_of. destruct (force_reject_al e && _) eqn:Fj.
  { match goal with |- context [refuse_al ?x _ _] => rewrite (refuse_esm e x) end; [by apply es_forced|done|by case_if|by case_if|].
    pose proof (na_rej _ N). case_if; [clia|done]. }
  destruct (valid_transition (es_state (esm_of e)) req) eqn:V; cbn [negb].
  2: { rewrite Rf by clia. apply es_invalid; [done|done|]. intros Ed%valid_edge. congruence. }
  apply valid_edge in V. destruct ((_ =? ESM_PREOP) && _ && _) eqn:B.
  { bprop. rewrite Rf by apply prof_code_u16. match goal with H : es_state (esm_of e) = _, H' : req = _ |- _ => rewrite H, H' end.
    by apply (es_bad_pd _ _ _ _ (mkAlEnv None (prof_code e) _)). }
  destruct ((_ =? ESM_SAFEOP) && _ && negb (es_out (esm_of e))) eqn:O.
  { bprop. rewrite Rf by clia. match goal with H : es_state (esm_of e) = _, H' : req = _ |- _ => rewrite H, H' end.
    match goal with H : es_out (esm_of e) = false |- _ => change (got_valid_outputs e) with (es_out (esm_of e)); rewrite H end. by apply es_no_outputs. }
  destruct (decide (es_state (esm_of e) = ESM_SAFEOP /\ req = ESM_OP)) as [[Es Er]|Nop].
  - rewrite Es, Er in *. cbn [Z.eqb Pos.eqb andb] in *. apply negb_false_iff in O. change (got_valid_outputs e) with (es_out (esm_of e)). rewrite O.
    destruct (negb (op_delay_ms (fault e) =? 0) && negb (powered_off (fault e))) eqn:D.
    + rewrite (esm_eta e), Es. change (got_valid_outputs e) with (es_out (esm_of e)). rewrite O. by apply es_deferred.
    + pose proof (grant_esm e 8 N ltac:(lia)) as Gr. cbn [Z.eqb Pos.eqb] in Gr. rewrite Gr, O. by apply es_operate.
  - assert ((es_state (esm_of e) =? 4) && (req =? 8) = false) as ->.
    { apply andb_false_iff. rewrite !Z.eqb_neq. destruct (Z.eq_dec (es_state (esm_of e)) 4); [right; intros ->; by apply Nop|by left]. }
    cbn [andb]. rewrite (grant_esm e req N R1). apply es_move; [done|done| |].
    + intros Eq. rewrite Eq in V. inversion V. by apply Nop.
    + intros Ep Eq. rewrite Ep, Eq in B. cbn in B. by apply negb_false_iff, Z.eqb_eq in B.
Qed.

(** The step from [e] to [e'] leaves the AL registers and the FMMUs alone; [b]: outputs arrived. *)
Record al_kept (b : bool) (e e' : esc_t) : Prop := {
  ak_node : node_al e -> node_al e';
  ak_rd : forall a, 0 <= a -> ~ special a -> rd (regs e') a = rd (regs e) a;
  ak_out : got_valid_outputs e' = got_valid_outputs e || b;
}.
Lemma al_kept_trans x y a b c : al_kept x a b -> al_kept y b c -> al_kept (x || y) a c.
Proof.
  intros [n1 r1 o1] [n2 r2 o2]. split; [auto|intros; rewrite r2, r1 by done; done|]. by rewrite o2, o1, orb_assoc.
Qed.
Lemma keeps_al e e' : keeps special e e' -> al_kept false e e'.
Proof.
  intros [L R [O Rj] (M & _)]. split; [|done|by rewrite orb_false_r]. intros [Hl Hm Hr]. split; congruence.
Qed.
Lemma al_kept_refl e : al_kept false e e.
Proof. apply keeps_al, keeps_refl. Qed.
Lemma al_kept_outputs b e e' : al_kept b e e' -> al_kept true e (e' <| got_valid_outputs := true |>).
Proof. intros [N R O]. split; [|done|by rewrite orb_true_r]. intros H. destruct (N H). by split. Qed.
Lemma al_kept_esm b e e' : (forall a, 304 <= a < 310 -> rd (regs e') a = rd (regs e) a) ->
  got_valid_outputs e' = got_valid_outputs e || b -> esm_step (if b then EvOutputs else EvNone) (esm_of e) (esm_of e').
Proof.
  intros R O. assert (E : esm_of e' = mkEsm (es_state (esm_of e)) (es_err (esm_of e)) (es_code (esm_of e)) (got_valid_outputs e')).
  { unfold esm_of. cbn [es_state es_err es_code]. rewrite !(rd_le16_ext (regs e') (regs e)) by (apply R; lia). done. }
  rewrite E, O. destruct b; [rewrite orb_true_r, (esm_eta e) at 1; apply es_outputs|rewrite orb_false_r, <- esm_eta; apply es_none].
Qed.
Lemma al_kept_step b e e' : al_kept b e e' -> esm_step (if b then EvOutputs else EvNone) (esm_of e) (esm_of e').
Proof. intros K. apply al_kept_esm; [|apply K]. intros a Ha. apply (ak_rd _ _ _ K); unfold special; lia. Qed.
Lemma al_kept_same b e e' : al_kept false e e' -> b = false -> al_kept b e e'.
Proof. by intros ? ->. Qed.

(** A logical datagram of [l] bytes at [la] brings outputs through FMMU [f]: the
    entry is active and write enabled, the command writes and the two ranges meet.  A byte
    mapping that is also read by the same command does not count. *)
Definition bytes_meet (la l ls n : Z) : bool := Z.max la ls <? Z.min (u32 (la + l)) (u32 (ls + n)).
Definition bits_meet (la l b0 b1 pb : Z) : bool :=
  let o0 := Z.max (la * 8) b0 in let o1 := Z.min (la * 8 + l * 8) b1 in
  (o0 <? o1) && (Z.shiftr (pb + (o0 - b0) + (o1 - o0) + 7) 3 <=? ESC_REG_SPACE_SIZE).
Definition fmmu_takes (cmd la l : Z) (r : list Z) (f : Z) : bool :=
  let a := REG_FMMU_BASE + f * REG_FMMU_ENTRY_SIZE in
  let ls := rd_le32 r a in let n := rd_le16 r (a + 4) in let ps := rd_le16 r (a + 8) in
  let sb := Z.land (rd r (a + 6)) 7 in let eb := Z.land (rd r (a + 7)) 7 in let pb := Z.land (rd r (a + 10)) 7 in
  has_bit (rd r (a + 12)) 1 && negb (n =? 0) &&
  (has_bit (rd r (a + 11)) 2 && ((cmd =? CMD_LWR) || (cmd =? CMD_LRW))) &&
  (if (sb =? 0) && (eb =? 7) && (pb =? 0)
   then bytes_meet la l ls n && negb (has_bit (rd r (a + 11)) 1 && ((cmd =? CMD_LRD) || (cmd =? CMD_LRW)))
   else (ls * 8 + sb <? (ls + n - 1) * 8 + eb + 1) && bits_meet la l (ls * 8 + sb) ((ls + n - 1) * 8 + eb + 1) (ps * 8 + pb)).
Lemma fmmu_takes_ext cmd la l r r' f : 0 <= f < 3 -> (forall a, 1536 <= a < 1584 -> rd r' a = rd r a) ->
  fmmu_takes cmd la l r' f = fmmu_takes cmd la l r f.
Proof.
  intros Hf E. unfold fmmu_takes. cbv zeta. rewrite (rd_le32_ext r' r) by (intros; apply E; lia).
  rewrite !(rd_le16_ext r' r) by (apply E; lia). by rewrite !E by lia.
Qed.

Section esm.
Context (g : esc_dc_cfg_t) (n : Z).

Lemma phys_write_high e off data : node_al e -> 4096 <= off -> keeps special e (esc_phys_write g n e off data).
Proof.
  intros [Hl Hm _] Ho. destruct (decide (off + len data <= 8192)) as [L|L].
  - eapply keeps_trans; [|apply keeps_phys_write; [done|done]]. apply keeps_wr_regs; [apply len_memcpy|].
    intros a Ha Hs. unfold special in Hs. apply rd_memcpy_out; lia.
  - unfold esc_phys_write. rewrite (proj2 (Z.ltb_lt _ _)) by lia. apply keeps_refl.
Qed.

(** The write-enabled FMMUs map into the process data and mailbox memory. *)
Definition fmmu_safe (e : esc_t) : Prop :=
  forall f, 0 <= f < 3 -> let a := REG_FMMU_BASE + f * REG_FMMU_ENTRY_SIZE in
  has_bit (rd (regs e) (a + 11)) 2 = true ->
  is_u32 (rd_le32 (regs e) a) /\ 4096 <= rd_le16 (regs e) (a + 8) /\ 0 <= rd_le16 (regs e) (a + 4) <= 8192 - rd_le16 (regs e) (a + 8).
Lemma fmmu_safe_kept b e e' : al_kept b e e' -> fmmu_safe e -> fmmu_safe e'.
Proof.
  intros [_ R _] F f Hf a. specialize (F f Hf). subst a. cbv zeta in F.
  rewrite (rd_le32_ext (regs e') (regs e)) by (intros; apply R; unfold special; lia).
  rewrite !(rd_le16_ext (regs e') (regs e)) by (apply R; unfold special; lia).
  rewrite R by (unfold special; lia). exact F.
Qed.

Lemma apply_bytes_kept e la data ls l ps (r w : bool) : node_al e ->
  (w = true -> is_u32 ls /\ 4096 <= ps /\ 0 <= l <= 8192 - ps) ->
  al_kept (w && (bytes_meet la (len data) ls l && negb r)) e (fmmu_apply_bytes g n e la data ls l ps r w).1.1.
Proof.
  intros N S. unfold fmmu_apply_bytes, bytes_meet. cbv zeta.
  set (os := if ls <? la then la else ls). set (oe := if u32 (la + len data) <? u32 (ls + l) then u32 (la + len data) else u32 (ls + l)).
  assert (Eo : Z.max la ls = os) by (unfold os; destruct (Z.ltb_spec ls la); lia).
  assert (Ee : Z.min (u32 (la + len data)) (u32 (ls + l)) = oe) by (unfold oe; destruct (Z.ltb_spec (u32 (la + len data)) (u32 (ls + l))); lia).
  rewrite Eo, Ee. destruct (Z.leb_spec oe os) as [E|E].
  { rewrite (proj2 (Z.ltb_ge _ _)), andb_false_r by done. apply al_kept_refl. }
  rewrite (proj2 (Z.ltb_lt _ _)) by done. cbn [andb].
  assert (W : w = true -> 4096 <= u16 (ps + (os - ls))).
  { intros Hw. destruct (S Hw) as (U & P1 & P2). assert (oe <= ls + l).
    { assert (u32 (ls + l) <= ls + l) by (unfold_c; apply Z.mod_le; lia). lia. }
    unfold_c. rewrite Z.mod_small by lia. lia. }
  destruct r, w; cbn [andb negb].
  - match goal with |- context [esc_phys_read g e ?o ?d] => pose proof (keeps_phys_read g e o d) as K; destruct (esc_phys_read g e o d) as [e1 d1] end.
    cbn [fst] in *. apply keeps_al in K. apply (al_kept_trans _ _ _ _ _ K). apply keeps_al, phys_write_high; [by apply K|by apply W].
  - match goal with |- context [esc_phys_read g e ?o ?d] => pose proof (keeps_phys_read g e o d) as K; destruct (esc_phys_read g e o d) as [e1 d1] end.
    cbn [fst] in *. by apply keeps_al.
  - cbn [fst]. eapply al_kept_outputs, keeps_al, phys_write_high; [done|by apply W].
  - apply al_kept_refl.
Qed.
Lemma apply_bits_kept e la data b0 b1 pb (r w : bool) : node_al e -> (w = true -> 32768 <= pb) ->
  let y := fmmu_apply_bits g n e la data b0 b1 pb r w in al_kept false e y.1.1 /\ y.2.2 = w && bits_meet la (len data) b0 b1 pb.
Proof.
  intros N S. unfold fmmu_apply_bits, bits_meet. cbv zeta.
  set (o0 := if la * 8 <? b0 then b0 else la * 8). set (o1 := if b1 <? _ then b1 else _).
  assert (E0 : Z.max (la * 8) b0 = o0) by (unfold o0; destruct (Z.ltb_spec (la * 8) b0); lia).
  assert (E1 : Z.min (la * 8 + len data * 8) b1 = o1) by (unfold o1; destruct (Z.ltb_spec b1 (la * 8 + len data * 8)); lia).
  rewrite E0, E1. destruct (Z.leb_spec o1 o0) as [L|L]; cbn [orb].
  { rewrite (proj2 (Z.ltb_ge _ _)), andb_false_r by done. split; [apply al_kept_refl|done]. }
  rewrite (proj2 (Z.ltb_lt o0 o1)) by done. cbn [andb].
  destruct (negb r && negb w) eqn:Nr; [destruct w; [by rewrite andb_false_r in Nr|]; split; [apply al_kept_refl|done]|].
  set (p := Z.shiftr (pb + (o0 - b0)) 3). set (q := Z.shiftr _ 3).
  replace (p + (q - p)) with q by lia. destruct (Z.ltb_spec 8192 q) as [Lq|Lq].
  { rewrite (proj2 (Z.leb_gt _ _)), andb_false_r by done. split; [apply al_kept_refl|done]. }
  rewrite (proj2 (Z.leb_le q _)), andb_true_r by done.
  assert (W : w = true -> 4096 <= p).
  { intros Hw. specialize (S Hw). unfold p. rewrite Z.shiftr_div_pow2 by lia. apply Z.div_le_lower_bound; lia. }
  match goal with |- context [let '(_, _) := ?x in _] => assert (K : al_kept false e x.1) end.
  { destruct r; [|apply al_kept_refl].
    match goal with |- context [esc_phys_read g e ?o ?d] => pose proof (keeps_phys_read g e o d) as K; destruct (esc_phys_read g e o d) as [e1 d1] end.
    by apply keeps_al. }
  revert K. match goal with |- al_kept false e (?x).1 -> _ => destruct x as [e1 d1] end. cbn [fst snd]. intros K. split; [|done].
  destruct w; [|exact K]. apply (al_kept_trans _ _ _ _ _ K). apply keeps_al, phys_write_high; [by apply K|by apply W].
Qed.
Lemma fmmu_entry_kept cmd la e data f : node_al e -> fmmu_safe e -> 0 <= f < 3 ->
  al_kept (fmmu_takes cmd la (len data) (regs e) f) e (fmmu_entry g n cmd la e data f).1.1.
Proof.
  intros N F Hf. specialize (F f Hf). cbv zeta in F. unfold fmmu_entry, fmmu_takes. cbv zeta. set (a := 1536 + f * 16) in *.
  destruct (has_bit (rd (regs e) (a + 12)) 1); cbn [negb andb]; [|apply al_kept_refl].
  destruct (rd_le16 (regs e) (a + 4) =? 0); cbn [negb andb]; [apply al_kept_refl|].
  set (w := has_bit _ 2 && _). set (r := has_bit _ 1 && _).
  assert (Fw : w = true -> is_u32 (rd_le32 (regs e) a) /\ 4096 <= rd_le16 (regs e) (a + 8) /\ 0 <= rd_le16 (regs e) (a + 4) <= 8192 - rd_le16 (regs e) (a + 8)).
  { intros Hw. apply andb_true_iff in Hw as [Hw _]. by apply F. }
  rewrite <- !negb_andb. destruct (_ && (_ =? 7) && _); cbn [negb].
  - by apply apply_bytes_kept.
  - rewrite (Z.leb_antisym _ (_ * 8 + _ + 1)). destruct (_ <? _); cbn [negb andb]; [|rewrite andb_false_r; apply al_kept_refl].
    match goal with |- context [fmmu_apply_bits g n e la data ?x ?y ?p r w] => pose proof (apply_bits_kept e la data x y p r w N) as K end.
    match goal with |- context [fmmu_apply_bits g n e la data ?x ?y ?p r w] => destruct (fmmu_apply_bits g n e la data x y p r w) as [[e1 d1] [r1 w1]] end.
    cbn [fst snd] in *. destruct K as [K ->].
    { intros Hw. destruct (Fw Hw) as (_ & P & _). match goal with |- context [Z.land ?v 7] => pose proof (Z.land_nonneg v 7) end. lia. }
    match goal with |- al_kept ?b _ _ => destruct b end; [by eapply al_kept_outputs|done].
Qed.
Lemma len_bits_copy dst d0 src s0 k : len (bits_copy dst d0 src s0 k) = len dst.
Proof.
  unfold bits_copy. generalize (seqZ 0 k). intros l. revert dst. induction l as [|x l IH]; intros dst; [done|]. cbn [foldl]. rewrite IH.
  unfold bit_put. case_if; apply len_wr.
Qed.
Lemma fmmu_entry_len cmd la e data f : len (fmmu_entry g n cmd la e data f).1.2 = len data.
Proof.
  unfold fmmu_entry, fmmu_apply_bytes, fmmu_apply_bits. cbv zeta. set (sr := has_bit _ 1 && _). set (sw := has_bit _ 2 && _).
  repeat case_if; cbn [fst snd]; try done;
  repeat match goal with |- context [esc_phys_read g e ?o ?d] => destruct (esc_phys_read g e o d) as [? ?] end; cbn [fst snd]; rewrite ?len_memcpy, ?len_bits_copy; try done.
Qed.
Lemma fmmu_apply_kept e la data cmd wkc : node_al e -> fmmu_safe e ->
  al_kept (existsb (fmmu_takes cmd la (len data) (regs e)) (seqZ 0 (fmmu_count e))) e (fmmu_apply g n e la data cmd wkc).1.1.
Proof.
  intros N F. unfold fmmu_apply.
  assert (C : forall f, f ∈ seqZ 0 (fmmu_count e) -> 0 <= f < 3).
  { intros f Hf. apply elem_of_seqZ in Hf. unfold fmmu_count in Hf. case_if_in Hf; bprop; lia. }
  assert (G : forall fs s b, (forall f, f ∈ fs -> 0 <= f < 3) -> al_kept b e s.1.1 -> len s.1.2 = len data ->
    al_kept (b || existsb (fmmu_takes cmd la (len data) (regs e)) fs) e (foldl (fmmu_step g n cmd la) s fs).1.1).
  { induction fs as [|f fs IH]; intros s b Hf K Hl; cbn [existsb foldl]; [by rewrite orb_false_r|]. rewrite orb_assoc.
    assert (Hf0 : 0 <= f < 3) by (apply Hf; constructor). destruct s as [[x d] [r w]]. cbn [fst snd] in K, Hl.
    apply IH; [intros; apply Hf; by constructor| |].
    - unfold fmmu_step. pose proof (fmmu_entry_kept cmd la x d f ltac:(by apply K) (fmmu_safe_kept b e x K F) Hf0) as Ke.
      rewrite Hl, (fmmu_takes_ext cmd la (len data) (regs e) (regs x) f Hf0) in Ke by (intros; apply (ak_rd _ _ _ K); unfold special; lia).
      destruct (fmmu_entry g n cmd la x d f) as [[x1 d1] [r1 w1]]. cbn [fst] in *. by eapply al_kept_trans.
    - unfold fmmu_step. pose proof (fmmu_entry_len cmd la x d f) as Le. destruct (fmmu_entry g n cmd la x d f) as [[x1 d1] [r1 w1]].
      cbn [fst snd] in *. congruence. }
  specialize (G (seqZ 0 (fmmu_count e)) (e, data, (false, false)) false C (al_kept_refl e) eq_refl).
  destruct (foldl _ _ _) as [[e1 d1] [r1 w1]]. exact G.
Qed.

(** What reaches one node: a datagram, or the check of its watchdog at a frame start. *)
Inductive bus_op := BDatagram (cmd adp ado local_adp : Z) (data : list Z) (wkc : Z) | BWatchdog (now : Z).
Definition run_op (e : esc_t) (o : bus_op) : esc_t :=
  match o with
  | BDatagram cmd adp ado l data wkc => (node_datagram g n cmd adp ado l e data wkc).1.1
  | BWatchdog now => (esc_wd_check e now).1
  end.
(** No direct write into the AL status registers, no FMMU that writes below the memory. *)
Definition op_safe (e : esc_t) (o : bus_op) : Prop :=
  match o with
  | BDatagram cmd adp ado l data _ =>
      if is_logical cmd then fmmu_safe e
      else (node_access cmd adp l e).2 = true -> 0 <= ado /\ (ado + len data <= 304 \/ 310 <= ado)
  | BWatchdog _ => True
  end.
Fixpoint run_safe (e : esc_t) (ops : list bus_op) : Prop :=
  match ops with
  | [] => True
  | o :: ops => op_safe e o /\ run_safe (run_op e o) ops
  end.

(** The event an operation means for the AL state machine of the node. *)
Definition writes_ctl (acc : bool * bool * bool) (ado : Z) : bool := acc.1.1 && acc.2 && (ado =? REG_AL_CONTROL).
(** The node when it evaluates a request: after the read of a read-write command and the store. *)
Definition at_request (cmd : Z) (acc : bool * bool * bool) (ado : Z) (e : esc_t) (data : list Z) : esc_t :=
  esc_phys_write g n (if acc.1.2 then (read_for g cmd e ado data).1 else e) ado data.
Definition event_of (e : esc_t) (o : bus_op) : esm_event :=
  match o with
  | BDatagram cmd adp ado l data _ =>
      let acc := node_access cmd adp l e in
      if is_logical cmd
      then if negb (skip_logical (fault e)) &&
              existsb (fmmu_takes cmd (Z.lor adp (Z.shiftl ado 16)) (len data) (regs e)) (seqZ 0 (fmmu_count e)) then EvOutputs else EvNone
      else if writes_ctl acc ado
      then al_request (at_request cmd acc ado e data) (rd (memcpy (regs e) REG_AL_CONTROL data) REG_AL_CONTROL)
      else EvNone
  | BWatchdog now => if (esc_wd_check e now).2 then EvWatchdog else EvNone
  end.
Fixpoint events (e : esc_t) (ops : list bus_op) : list esm_event :=
  match ops with
  | [] => []
  | o :: ops => event_of e o :: events (run_op e o) ops
  end.

Lemma read_for_kept cmd e ado data : al_kept false e (read_for g cmd e ado data).1.
Proof. unfold read_for. case_if; apply keeps_al; [apply keeps_phys_read_or|apply keeps_phys_read]. Qed.
(** The low byte of AL control holds the request. *)
Lemma ctl_low m a : al_request m (rd_le16 (regs a) REG_AL_CONTROL) = al_request m (rd (regs a) REG_AL_CONTROL).
Proof.
  unfold al_request, rd_le16.
  assert (L : forall h, Z.land (Z.lor (rd (regs a) 288) (Z.shiftl h 8)) 15 = Z.land (rd (regs a) 288) 15).
  { intros h. rewrite Z.land_lor_distr_l. assert (Z.land (Z.shiftl h 8) 15 = 0) as ->; [|by rewrite Z.lor_0_r].
    apply Z.bits_inj'. intros i Hi. rewrite Z.land_spec, Z.bits_0. destruct (Z.ltb_spec i 8); [by rewrite Z.shiftl_spec_low|].
    change 15 with (Z.ones 4). by rewrite Z.ones_spec_high, andb_false_r by lia. }
  by rewrite !L, Z.lor_spec, (Z.shiftl_spec_low _ 8 4), orb_false_r by lia.
Qed.
Lemma phys_write_esm e ado data : node_al e -> 0 <= ado -> ado + len data <= 304 \/ 310 <= ado ->
  let e' := esc_phys_write g n e ado data in
  node_al e' /\ esm_of e' = esm_of e /\
  (ado = REG_AL_CONTROL -> rd (regs e') REG_AL_CONTROL = rd (memcpy (regs e) REG_AL_CONTROL data) REG_AL_CONTROL).
Proof.
  intros N Ha Hr. cbv zeta. destruct (decide (ado + len data <= 8192)) as [L|L].
  - pose proof (keeps_phys_write g n e ado data (na_mbx _ N) L) as K.
    assert (N1 : node_al (e <| regs ::= fun r => memcpy r ado data |>)) by (destruct N; split; cbn; rewrite ?len_memcpy; done).
    apply keeps_al in K. split; [by apply K|]. split.
    + assert (S : esm_step EvNone (esm_of e) (esm_of (esc_phys_write g n e ado data))); [|by apply esm_none_inv in S].
      apply (al_kept_esm false); [|exact (ak_out _ _ _ K)].
      intros a Hx. rewrite (ak_rd _ _ _ K) by (unfold special; lia). cbn. apply rd_memcpy_out; lia.
    + intros ->. rewrite (ak_rd _ _ _ K) by (unfold special; lia). done.
  - unfold esc_phys_write. rewrite (proj2 (Z.ltb_lt _ _)) by lia. split_and!; [done|done|]. intros ->. lia.
Qed.
Lemma write_for_esm e ado data : node_al e -> 0 <= ado -> ado + len data <= 304 \/ 310 <= ado ->
  node_al (write_for g n e ado data) /\
  esm_step (if ado =? REG_AL_CONTROL then al_request (esc_phys_write g n e ado data) (rd (memcpy (regs e) REG_AL_CONTROL data) REG_AL_CONTROL) else EvNone)
    (esm_of e) (esm_of (write_for g n e ado data)).
Proof.
  intros N Ha Hr. destruct (phys_write_esm e ado data N Ha Hr) as (N1 & R1 & C1). unfold write_for.
  destruct (Z.eqb_spec ado REG_AL_CONTROL) as [E|E]; [|split; [done|rewrite R1; apply es_none]].
  split; [by apply al_control_node|]. rewrite <- (C1 E), <- R1, <- ctl_low. by apply al_control_step.
Qed.
Lemma access_esm cmd acc ado e data wkc : node_al e -> (acc.2 = true -> 0 <= ado /\ (ado + len data <= 304 \/ 310 <= ado)) ->
  let e' := (access_node g n cmd acc ado e data wkc).1.1 in
  node_al e' /\
  esm_step (if writes_ctl acc ado then al_request (at_request cmd acc ado e data) (rd (memcpy (regs e) REG_AL_CONTROL data) REG_AL_CONTROL) else EvNone)
    (esm_of e) (esm_of e').
Proof.
  intros N S. cbv zeta. unfold access_node, writes_ctl, at_request. destruct acc as [[[] []] []]; cbn [negb andb fst snd]; try (split; [done|apply es_none]).
  - pose proof (read_for_kept cmd e ado data) as K. destruct (read_for g cmd e ado data) as [e1 d1]. cbn [fst] in *.
    destruct (S eq_refl) as [Ha Hr]. destruct (write_for_esm e1 ado data ltac:(by apply K) Ha Hr) as [N2 R2]. split; [done|].
    assert (E1 : esm_of e1 = esm_of e) by (apply esm_none_inv, (al_kept_step _ _ _ K)). rewrite E1 in R2.
    assert (M : rd (memcpy (regs e1) 288 data) 288 = rd (memcpy (regs e) 288 data) 288); [|by rewrite <- M].
    pose proof (na_len _ N). pose proof (na_len e1 (ak_node _ _ _ K N)). destruct (decide (1 <= len data)).
    + by rewrite !rd_memcpy_in by lia.
    + rewrite !rd_memcpy_out by lia. apply (ak_rd _ _ _ K); unfold special; lia.
  - pose proof (read_for_kept cmd e ado data) as K. destruct (read_for g cmd e ado data) as [e1 d1]. cbn [fst] in *.
    split; [by apply K|]. apply (al_kept_step _ _ _ K).
  - cbn [fst]. destruct (S eq_refl). by apply write_for_esm.
Qed.
Lemma keeps_expire e now : keeps special e (wd_expire e now).
Proof.
  unfold wd_expire. case_if; [|apply keeps_refl]. cbv zeta.
  match goal with |- keeps special e (?x <| wd ::= _ |>) => apply keeps_trans with x; [|by apply keeps_hw] end.
  assert (K : keeps special e (set_reg (e <| wd ::= fun w => w <| running := false |> |>) 1088 (bits_clear (reg (e <| wd ::= fun w => w <| running := false |> |>) 1088) 1))).
  { apply keeps_set_reg_r; [lia|unfold special; lia|by apply keeps_hw]. }
  unfold esc_cnt_inc. case_if; [|exact K]. apply keeps_set_reg_r; [lia|unfold special; lia|exact K].
Qed.
Lemma al_state_nibble e : al_state e = Z.land (rd_le16 (regs e) 304) 15.
Proof.
  unfold al_state, reg, rd_le16. rewrite Z.land_lor_distr_l.
  assert (Z.land (Z.shiftl (rd (regs e) (304 + 1)) 8) 15 = 0) as ->; [|by rewrite Z.lor_0_r].
  apply Z.bits_inj'. intros i Hi. rewrite Z.land_spec, Z.bits_0. destruct (Z.ltb_spec i 8); [by rewrite Z.shiftl_spec_low|].
  change 15 with (Z.ones 4). by rewrite Z.ones_spec_high, andb_false_r by lia.
Qed.
Lemma wd_check_esm e now : node_al e ->
  let e' := (esc_wd_check e now).1 in node_al e' /\ esm_step (event_of e (BWatchdog now)) (esm_of e) (esm_of e').
Proof.
  intros N. cbv zeta. cbn [event_of]. unfold esc_wd_check. cbv zeta. set (e0 := e <| wd ::= fun w => w <| now_ns := now |> |>).
  assert (K0 : keeps special e e0) by (by apply keeps_hw).
  case_if.
  { cbn [fst snd]. assert (K : al_kept false e (set_reg e0 1088 (bits_set (reg e0 1088) 1))).
    { apply keeps_al, keeps_set_reg_r; [lia|unfold special; lia|exact K0]. }
    split; [by apply K|]. apply (al_kept_step _ _ _ K). }
  assert (K : al_kept false e (wd_expire e0 now)) by (apply keeps_al; eapply keeps_trans; [exact K0|apply keeps_expire]).
  pose proof (al_kept_step _ _ _ K) as R. pose proof (ak_node _ _ _ K N) as N1. revert K R N1. generalize (wd_expire e0 now). intros x K R N1.
  case_if; [|done]. cbn [fst snd]. bprop. split.
  { destruct N1. split; cbn; by rewrite ?len_wr_le16. }
  assert (E' : esm_of (x <| regs ::= fun r => wr_le16 (wr_le16 r 304 20) 308 27 |> <| got_valid_outputs := false |>) = mkEsm 4 true 27 false).
  { pose proof (set_al_esm x 20 27 (na_len _ N1) ltac:(clia) ltac:(clia)) as S. unfold esm_of, set_al in S |- *. cbn in S |- *. by injection S as -> -> ->. }
  assert (Ex : esm_of x = esm_of e) by (by apply esm_none_inv).
  rewrite E', <- Ex, (esm_eta x). replace (es_state (esm_of x)) with 8; [apply es_watchdog|]. cbn [es_state esm_of]. by rewrite <- al_state_nibble.
Qed.
Lemma run_op_esm e o : node_al e -> op_safe e o -> node_al (run_op e o) /\ esm_step (event_of e o) (esm_of e) (esm_of (run_op e o)).
Proof.
  intros N S. destruct o as [cmd adp ado l data wkc|now]; cbn [run_op op_safe] in *; [|by apply wd_check_esm].
  cbn [event_of]. unfold node_datagram. revert S. destruct (is_logical cmd); intros S; [|by apply access_esm].
  destruct (skip_logical (fault e)); cbn [negb andb]; [split; [done|apply es_none]|].
  pose proof (fmmu_apply_kept e (Z.lor adp (Z.shiftl ado 16)) data cmd wkc N S) as K. split; [by apply K|]. apply (al_kept_step _ _ _ K).
Qed.

(** C7: The AL state machine.  Whatever datagrams and watchdog checks reach a
    node (none of them storing directly into the AL status registers, no active FMMU
    writing below the process data memory), every one of them is at most one event
    of the state machine of the standard, and the AL status makes exactly the step
    of that event.  A write to AL control is one request: the current state again
    only acknowledges an error; a rejection to inject answers with its code; a
    state that is not a neighbour is refused with 0x0011; PREOP to SAFEOP is
    refused with the code of the process data check; SAFEOP to OP is refused with
    0x0019 unless outputs arrived since SAFEOP was entered, and put off when a delay
    is injected; else the request is granted, the error cleared and, on entering
    SAFEOP, the outputs forgotten.  Outputs arrive only with a logical write that
    meets an active write-enabled FMMU, and a watchdog that reacts takes OP to SAFEOP with
    0x001B.  The events determine the result; the state stays one of the four, and in OP
    outputs have arrived. *)
Theorem esm_refined (e : esc_t) (ops : list bus_op) :
  node_al e -> run_safe e ops ->
  let e' := foldl run_op e ops in
  esm_run (events e ops) (esm_of e) (esm_of e') /\
  (forall s, esm_run (events e ops) (esm_of e) s -> s = esm_of e') /\
  (esm_inv (esm_of e) -> esm_inv (esm_of e')).
Proof.
  intros N S. cbv zeta. cut (esm_run (events e ops) (esm_of e) (esm_of (foldl run_op e ops))).
  { intros R. split_and!; [exact R|intros s Rs; by apply (esm_run_det _ _ _ _ Rs)|by apply (esm_run_inv _ _ _ R)]. }
  revert e N S. induction ops as [|o ops IH]; intros e N S; [apply run_nil|]. cbn [run_safe events foldl] in S |- *. destruct S as [S1 S2].
  destruct (run_op_esm e o N S1) as [N1 R1]. eapply run_cons; [exact R1|by apply IH].
Qed.
End esm.

(** ** Process data watchdog *)

(** A node in OP whose watchdog was last triggered at [t0]. *)
Record watching (t0 : Z) (e : esc_t) : Prop := {
  wt_len : len (regs e) = 8192;
  wt_run : running (wd e) = true /\ react (wd e) = true /\ last_trigger_ns (wd e) = t0;
  wt_time : rd_le16 (regs e) REG_WD_TIME_PROCDATA <> 0;
  wt_op : al_state e = ESM_OP;
  wt_status : has_bit (reg e REG_WD_STATUS_PD) 1 = true;
  wt_sm : esc_has_wd_trigger_sm e = true;
}.
(** The node after the watchdog took it out of OP, with the expiration counter at [c]. *)
Record expired (c : Z) (e : esc_t) : Prop := {
  xp_run : running (wd e) = false;
  xp_time : rd_le16 (regs e) REG_WD_TIME_PROCDATA <> 0;
  xp_op : al_state e = ESM_SAFEOP;
  xp_esm : esm_of e = mkEsm ESM_SAFEOP true ALSTATUSCODE_SYNCMANWATCHDOG false;
  xp_cnt : reg e REG_WD_COUNTER_PD = c;
}.
Definition wd_checks (e : esc_t) (ts : list Z) : esc_t * Z :=
  foldl (fun '(e, k) t => let '(e', b) := esc_wd_check e t in (e', k + b2z b)) (e, 0) ts.

Lemma bit0_cleared v : has_bit (bits_clear v 1) 1 = false.
Proof.
  unfold has_bit, bits_clear. rewrite <- Z.land_assoc. replace (Z.land (Z.lnot 1) 1) with 0 by done. by rewrite Z.land_0_r.
Qed.
Lemma trigger_sm_ext r r' : (forall a, 2048 <= a < 2080 -> rd r' a = rd r a) ->
  existsb (wd_trigger_sm r') [0; 1; 2; 3] = existsb (wd_trigger_sm r) [0; 1; 2; 3].
Proof.
  intros H. cbn [existsb]. assert (E : forall k, 0 <= k < 4 -> wd_trigger_sm r' k = wd_trigger_sm r k).
  { intros k Hk. unfold wd_trigger_sm, sm_at. rewrite !(rd_le16_ext r' r) by (apply H; lia). by rewrite !H by lia. }
  by rewrite !E by lia.
Qed.
Lemma check_in_time t0 e t : watching t0 e -> t0 <= t <= t0 + wd_timeout e -> wd_timeout e < 18446744073709551616 ->
  esc_wd_check e t = (e <| wd ::= fun w => w <| now_ns := t |> |>, false).
Proof.
  intros [Hl (R & Re & L) T O S M] Ht Hw. unfold esc_wd_check. cbv zeta. set (e0 := e <| wd ::= fun w => w <| now_ns := t |> |>).
  change (rd_le16 (regs e0) 1056) with (rd_le16 (regs e) 1056). rewrite (proj2 (Z.eqb_neq _ _) T).
  assert (X : wd_expire e0 t = e0).
  { unfold wd_expire. change (wd_timeout e0) with (wd_timeout e). change (running (wd e0)) with (running (wd e)).
    change (last_trigger_ns (wd e0)) with (last_trigger_ns (wd e)). rewrite R, L.
    rewrite (proj2 (Z.ltb_ge _ _)); [done|]. unfold_c. rewrite Z.mod_small by lia. lia. }
  rewrite X. change (reg e0 1088) with (reg e 1088). rewrite S. cbn [negb]. by rewrite andb_false_r.
Qed.
Lemma check_too_late t0 e t : watching t0 e -> t0 + wd_timeout e < t < t0 + 18446744073709551616 -> 0 <= wd_timeout e ->
  exists e', esc_wd_check e t = (e', true) /\
    expired (if reg e REG_WD_COUNTER_PD <? 255 then reg e REG_WD_COUNTER_PD + 1 else reg e REG_WD_COUNTER_PD) e'.
Proof.
  intros [Hl (R & Re & L) T O S M] Ht Hw. unfold esc_wd_check. cbv zeta. set (e0 := e <| wd ::= fun w => w <| now_ns := t |> |>).
  change (rd_le16 (regs e0) 1056) with (rd_le16 (regs e) 1056). rewrite (proj2 (Z.eqb_neq _ _) T).
  set (x := wd_expire e0 t).
  set (c := if reg e 1090 <? 255 then reg e 1090 + 1 else reg e 1090).
  assert (X : len (regs x) = 8192 /\ running (wd x) = false /\ react (wd x) = true /\ reg x 1090 = c /\ has_bit (reg x 1088) 1 = false
              /\ (forall a, 0 <= a -> a <> 1088 -> a <> 1090 -> rd (regs x) a = rd (regs e) a)).
  { subst x. unfold wd_expire. change (wd_timeout e0) with (wd_timeout e). change (running (wd e0)) with (running (wd e)). rewrite R.
    change (last_trigger_ns (wd e0)) with (last_trigger_ns (wd e)). rewrite L.
    rewrite (proj2 (Z.ltb_lt _ _)) by (unfold_c; rewrite Z.mod_small by lia; lia). cbn [andb]. cbv zeta.
    unfold esc_cnt_inc, set_reg, reg. cbn -[has_bit bits_clear]. rewrite rd_wr_ne by lia. unfold c, reg.
    case_if; cbn -[has_bit bits_clear]; autorewrite with memlen;
      (split_and!; try done; [by mem_simp|by (mem_simp; apply bit0_cleared)|intros; by mem_simp]). }
  destruct X as (Xl & Xr & Xe & Xc & Xs & Xd).
  assert (Xo : al_state x = 8) by (unfold al_state, reg; rewrite Xd by lia; exact O).
  assert (Xm : esc_has_wd_trigger_sm x = true) by (unfold esc_has_wd_trigger_sm; rewrite (trigger_sm_ext (regs e)); [exact M|intros; apply Xd; lia]).
  rewrite Xe, Xo, Xs, Xm. eexists. split; [reflexivity|].
  pose proof (set_al_esm x 20 27 Xl ltac:(clia) ltac:(clia)) as Sa.
  split; cbn -[rd_le16 wr_le16 al_state esm_of].
  - done.
  - rewrite !rd_le16_put_ne by lia. rewrite (rd_le16_ext (regs x) (regs e)) by (apply Xd; lia). done.
  - rewrite al_state_nibble. exact (f_equal es_state Sa).
  - unfold esm_of, set_al in Sa |- *. cbn in Sa |- *. by injection Sa as -> -> ->.
  - unfold reg. cbn -[wr_le16]. mem_simp. exact Xc.
Qed.
Lemma check_expired c e t : expired c e -> exists e', esc_wd_check e t = (e', false) /\ expired c e'.
Proof.
  intros [R T O E C]. unfold esc_wd_check. cbv zeta. set (e0 := e <| wd ::= fun w => w <| now_ns := t |> |>).
  change (rd_le16 (regs e0) 1056) with (rd_le16 (regs e) 1056). rewrite (proj2 (Z.eqb_neq _ _) T).
  unfold wd_expire. change (running (wd e0)) with (running (wd e)). rewrite R. cbn [andb].
  change (al_state e0) with (al_state e). rewrite O. rewrite andb_false_r. cbn [andb]. eexists. split; [reflexivity|]. by split.
Qed.
Lemma watching_now t0 e t : watching t0 e -> watching t0 (e <| wd ::= fun w => w <| now_ns := t |> |>).
Proof. intros [Hl (R & Re & L) T O S M]. by split. Qed.

(** C9: The process data watchdog.  For a node in OP that was last triggered at
    [t0], whatever times its watchdog is checked at: if every check is within the
    timeout the node stays in OP and no drop is reported; otherwise exactly one
    drop is reported, the node is in SAFEOP with the error flag and 0x001B, its
    outputs are invalid, and the expiration counter rose by one (up to 255). *)
Theorem watchdog_deadline (t0 : Z) (e : esc_t) (ts : list Z) :
  watching t0 e -> 0 <= wd_timeout e < 18446744073709551616 ->
  Forall (fun t => t0 <= t < t0 + 18446744073709551616) ts ->
  let '(e', drops) := wd_checks e ts in
  if forallb (fun t => t <=? t0 + wd_timeout e) ts
  then drops = 0 /\ al_state e' = ESM_OP /\ reg e' REG_WD_COUNTER_PD = reg e REG_WD_COUNTER_PD
  else drops = 1 /\ esm_of e' = mkEsm ESM_SAFEOP true ALSTATUSCODE_SYNCMANWATCHDOG false
       /\ reg e' REG_WD_COUNTER_PD = if reg e REG_WD_COUNTER_PD <? 255 then reg e REG_WD_COUNTER_PD + 1 else reg e REG_WD_COUNTER_PD.
Proof.
  intros W Hw Ht. remember (wd_timeout e) as T eqn:E1. remember (reg e 1090) as c eqn:E2.
  assert (X : forall c' ts x k, expired c' x ->
    exists e', foldl (fun '(e, k) t => let '(e', b) := esc_wd_check e t in (e', k + b2z b)) (x, k) ts = (e', k) /\ expired c' e').
  { intros c' ts'. induction ts' as [|t ts' IH]; intros x k Hx; [by exists x|]. cbn [foldl].
    destruct (check_expired c' x t Hx) as (x' & -> & Hx'). cbn [b2z]. rewrite Z.add_0_r. by apply IH. }
  unfold wd_checks.
  cut (forall e, watching t0 e -> wd_timeout e = T /\ reg e 1090 = c ->
    let '(e', drops) := foldl (fun '(e, k) t => let '(e', b) := esc_wd_check e t in (e', k + b2z b)) (e, 0) ts in
    if forallb (fun t => t <=? t0 + T) ts then drops = 0 /\ al_state e' = 8 /\ reg e' 1090 = c
    else drops = 1 /\ esm_of e' = mkEsm 4 true 27 false /\ reg e' 1090 = if c <? 255 then c + 1 else c); [intros H; by apply H|].
  clear e W E1 E2. induction Ht as [|t ts Ht Hts IH]; intros e W [E1 E2]; cbn [foldl forallb]; [split_and!; [done|apply W|done]|].
  destruct (Z.leb_spec t (t0 + T)) as [Hl|Hl]; cbn [andb].
  - rewrite (check_in_time t0 e t W) by lia. cbn [b2z]. rewrite Z.add_0_r. apply IH; [by apply watching_now|done].
  - destruct (check_too_late t0 e t W ltac:(lia) ltac:(lia)) as (x & -> & Hx). cbn [b2z]. rewrite Z.add_0_l.
    destruct (X _ ts x 1 Hx) as (x' & -> & Hx'). destruct Hx' as [_ _ _ Em Cn]. rewrite E2 in Cn. done.
Qed.

(** ** Witnesses *)

Definition demo_dc : esc_dc_cfg_t := mkDcCfg 0 640 0 0 0.
Lemma wkc_exact_witness : (process_datagram demo_dc 2 [demo_node; demo_node] CMD_BRW 0 304 [0; 0] 0).2 = 6.
Proof. rewrite (wkc_exact demo_dc 2 [demo_node; demo_node] 9 0 304 [0; 0] 0) by (reflexivity || clia || (cbn [length]; lia)). reflexivity. Defined.

Definition power_on_node : esc_t := demo_node <| regs := power_on_regs |>.
Lemma power_on_al : node_al power_on_node.
Proof. split; [cbn -[wr_le16]; by autorewrite with memlen|done|by split]. Qed.
(** To PREOP and SAFEOP, OP refused for want of outputs, then asked for PREOP. *)
Lemma esm_refined_witness :
  let ops := [BDatagram CMD_APWR 0 288 0 [2; 0] 0; BWatchdog 5; BDatagram CMD_APWR 0 288 0 [4; 0] 0; BDatagram CMD_BRD 0 304 0 [0; 0] 0;
              BDatagram CMD_APWR 0 288 0 [8; 0] 0] in
  esm_of (foldl (run_op demo_dc 1) power_on_node ops) = mkEsm ESM_SAFEOP true ALSTATUSCODE_NOVALIDOUTPUTS false.
Proof.
  intros ops. destruct (esm_refined demo_dc 1 power_on_node ops power_on_al) as (_ & H & _).
  { repeat (split; [first [exact I|cbn [op_safe is_logical Z.eqb Pos.eqb orb]; intros H; first [discriminate H|unfold len; cbn [length]; lia]]|]). exact I. }
  symmetry. apply H.
  assert (E : events demo_dc 1 power_on_node ops = [EvRequest 2 false (mkAlEnv None 0 false); EvNone; EvRequest 4 false (mkAlEnv None 0 false); EvNone;
    EvRequest 8 false (mkAlEnv None 0 false)]) by (vm_compute; reflexivity).
  assert (E0 : esm_of power_on_node = mkEsm ESM_INIT false 0 false) by (vm_compute; reflexivity). rewrite E, E0.
  eapply run_cons; [apply es_move; [done|constructor|lia|lia]|]. eapply run_cons; [apply es_none|].
  eapply run_cons; [apply es_move; [done|constructor|lia|done]|]. eapply run_cons; [apply es_none|].
  eapply run_cons; [by apply es_no_outputs|apply run_nil].
Defined.

Definition running_node : esc_t :=
  power_on_node <| regs ::= fun r => wr (wr (wr_le16 (wr (wr_le16 r 304 8) 1088 1) 2066 8) 2068 100) 2070 1 |> <| wd := mkWd 1000 1000 true true 0 |>.
Lemma running_watching : watching 1000 running_node.
Proof.
  split; [cbn -[wr_le16]; by autorewrite with memlen|done|vm_compute; discriminate|vm_compute; reflexivity|vm_compute; reflexivity|vm_compute; reflexivity].
Qed.
Lemma watchdog_deadline_witness : (wd_checks running_node [50000; 100001000; 100001001; 300000000]).2 = 1.
Proof.
  pose proof (watchdog_deadline 1000 running_node [50000; 100001000; 100001001; 300000000] running_watching) as H.
  assert (T : wd_timeout running_node = 100000000) by (vm_compute; reflexivity). rewrite T in H.
  specialize (H ltac:(lia) ltac:(repeat (constructor; [lia|]); constructor)). destruct (wd_checks _ _) as [e' k]. apply H.
Defined.
