(* ===== verification/EscFrame.v ===== *)
(** * Frames and process data of the soft bus

    [process_frame] on bytes refines the processing of a list of datagrams, and
    the bit mapping of an FMMU agrees with the byte mapping where both apply. *)
From Stdlib Require Import ZArith Lia Bool.
From S2P Require Import Prelude EscMem EscTypes EscProfile EscCoe EscCoeSpec EscDc EscCore EscCoreSpec.
From stdpp Require Import base list numbers relations.
Open Scope Z_scope.

(** ** Arrays as concatenations *)

Lemma insert_head (x y : Z) m : <[0%nat := x]> (y :: m) = x :: m.
Proof. done. Qed.
Lemma memcpy_at a b c b' : len b' = len b -> memcpy (a ++ b ++ c) (len a) b' = a ++ b' ++ c.
Proof.
  unfold memcpy, len. intros H. rewrite Nat2Z.id. apply Nat2Z.inj in H. induction a as [|x a IH]; cbn [app length].
  - revert b H. induction b' as [|y b' IH]; intros [|z b] H; try done. cbn in H |- *.
    assert (E : forall l (m : list Z) i z, list_inserts (S i) l (z :: m) = z :: list_inserts i l m)
      by (induction l as [|w l IHl]; intros m i z'; [done|]; cbn; rewrite IHl; done).
    rewrite E, IH by lia. done.
  - assert (E : forall l (m : list Z) i z, list_inserts (S i) l (z :: m) = z :: list_inserts i l m)
      by (induction l as [|w l IHl]; intros m i z; [done|]; cbn; rewrite IHl; done).
    rewrite E, IH. done.
Qed.
Lemma wr_le16_memcpy m a v : 0 <= a -> wr_le16 m a v = memcpy m a (le16 v).
Proof.
  intros. unfold wr_le16, memcpy, wr, le16. cbn [list_inserts]. rewrite list_insert_insert_ne by lia. do 2 f_equal. lia.
Qed.
Lemma len_le16 v : len (le16 v) = 2.
Proof. done. Qed.
Lemma wr_le16_at a b c v : len b = 2 -> wr_le16 (a ++ b ++ c) (len a) v = a ++ le16 v ++ c.
Proof. intros H. rewrite wr_le16_memcpy by apply len_nonneg. by apply memcpy_at. Qed.
Lemma slice_at a b c : slice (a ++ b ++ c) (len a) (len b) = b.
Proof. unfold slice, len. rewrite !Nat2Z.id, drop_app_length. apply take_app_length. Qed.
Lemma rd_at a b c i : 0 <= i < len b -> rd (a ++ b ++ c) (len a + i) = rd b i.
Proof.
  intros. rewrite rd_app_r by lia. replace (len a + i - len a) with i by lia. by apply rd_app_l.
Qed.
Lemma rd_le16_at a b c i : 0 <= i -> i + 1 < len b -> rd_le16 (a ++ b ++ c) (len a + i) = rd_le16 b i.
Proof. intros. unfold rd_le16. rewrite <- Z.add_assoc, !rd_at by lia. done. Qed.

(** ** A datagram keeps the nodes and the size of its data *)

Section keep.
Context (g : esc_dc_cfg_t) (n : Z).

Lemma keeps_node S e e' : keeps S e e' -> node_al e -> node_al e'.
Proof. intros [L _ [_ O] (M & _)] [Hl Hm Hr]. split; congruence. Qed.
Lemma phys_write_node e off data : node_al e -> node_al (esc_phys_write g n e off data).
Proof.
  intros N. destruct (decide (off + len data <= 8192)).
  - eapply keeps_node; [apply keeps_phys_write; [apply N|done]|]. destruct N. split; cbn; by rewrite ?len_memcpy.
  - unfold esc_phys_write. by rewrite (proj2 (Z.ltb_lt _ _)) by lia.
Qed.
Lemma phys_read_node e off data : node_al e -> node_al (esc_phys_read g e off data).1.
Proof. apply keeps_node with special, keeps_phys_read. Qed.
Lemma phys_read_len e off data : node_al e -> 0 <= off -> len (esc_phys_read g e off data).2 = len data.
Proof.
  intros N Ho. unfold esc_phys_read. case_if; [done|]. bprop. cbn [snd]. pose proof (len_nonneg data). apply len_slice; try lia.
  rewrite (k_len _ _ _ (keeps_before_read g e off (len data))), (na_len _ N). lia.
Qed.
Lemma phys_read_or_len e off data : node_al e -> 0 <= off -> len (esc_phys_read_or g e off data).2 = len data.
Proof.
  intros N Ho. pose proof (phys_read_len e off data N Ho) as H. unfold esc_phys_read_or, esc_phys_read in *. case_if; [done|].
  cbn [snd] in *. unfold len in *. rewrite length_zip_with. lia.
Qed.
Lemma write_for_node e ado data : node_al e -> node_al (write_for g n e ado data).
Proof. intros N. unfold write_for. case_if; [apply al_control_node|]; by apply phys_write_node. Qed.
Lemma read_for_ok cmd e ado data : node_al e -> 0 <= ado ->
  node_al (read_for g cmd e ado data).1 /\ len (read_for g cmd e ado data).2 = len data.
Proof.
  intros N Ha. split; [by apply (read_for_kept g cmd e ado data)|]. unfold read_for. case_if; [by apply phys_read_or_len|by apply phys_read_len].
Qed.
Lemma node_outputs e b : node_al e -> node_al (e <| got_valid_outputs := b |>).
Proof. intros []; by split. Qed.
(** [(e, data)] becomes a node and data of the same size. *)
Definition good (data : list Z) (r : esc_t * list Z * (bool * bool)) : Prop := node_al r.1.1 /\ len r.1.2 = len data.
Lemma apply_bytes_good e la data ls l ps r w : node_al e -> good data (fmmu_apply_bytes g n e la data ls l ps r w).
Proof.
  intros N. unfold fmmu_apply_bytes, good. cbv zeta. destruct (_ <=? _); [done|].
  match goal with |- context [esc_phys_read g e ?o ?d] => pose proof (phys_read_node e o d N) as Nr; destruct (esc_phys_read g e o d) as [e1 d1] end.
  cbn [fst] in Nr. destruct r, w; cbn [andb fst snd]; rewrite ?len_memcpy; split; try done; [|apply node_outputs]; by apply phys_write_node.
Qed.
Lemma apply_bits_good e la data b0 b1 pb r w : node_al e -> good data (fmmu_apply_bits g n e la data b0 b1 pb r w).
Proof.
  intros N. unfold fmmu_apply_bits, good. cbv zeta. destruct (_ || _); [done|].
  match goal with |- context [if 8192 <? ?x then _ else _] => destruct (8192 <? x) end; [done|].
  match goal with |- context [esc_phys_read g e ?o ?d] => pose proof (phys_read_node e o d N) as Nr; destruct (esc_phys_read g e o d) as [e1 d1] end.
  cbn [fst] in Nr. destruct r, w; cbn [fst snd]; rewrite ?len_bits_copy; split; try done; by apply phys_write_node.
Qed.
Lemma fmmu_entry_good cmd la e data f : node_al e -> good data (fmmu_entry g n cmd la e data f).
Proof.
  intros N. unfold fmmu_entry. cbv zeta. case_if; [done|]. case_if; [done|].
  destruct (_ || _ || _); [|by apply apply_bytes_good]. destruct (_ <=? _); [done|].
  match goal with |- context [fmmu_apply_bits g n e la data ?x ?y ?p ?r ?w] => pose proof (apply_bits_good e la data x y p r w N) as K;
    destruct (fmmu_apply_bits g n e la data x y p r w) as [[e1 d1] [r1 w1]] end.
  destruct K as [K1 K2]. cbn in K1, K2. destruct w1; split; cbn [fst snd]; try done. by apply node_outputs.
Qed.
Lemma fmmu_apply_good e la data cmd wkc : node_al e ->
  node_al (fmmu_apply g n e la data cmd wkc).1.1 /\ len (fmmu_apply g n e la data cmd wkc).1.2 = len data.
Proof.
  intros N. unfold fmmu_apply.
  assert (G : forall fs s, good data s -> good data (foldl (fmmu_step g n cmd la) s fs)).
  { induction fs as [|f fs IH]; intros s K; [done|]. cbn [foldl]. apply IH. destruct s as [[x d] [r w]]. destruct K as [K1 K2]. cbn in K1, K2.
    unfold fmmu_step. destruct (fmmu_entry_good cmd la x d f K1) as [G1 G2]. destruct (fmmu_entry g n cmd la x d f) as [[x1 d1] [r1 w1]].
    cbn in G1, G2. split; cbn; [done|congruence]. }
  specialize (G (seqZ 0 (fmmu_count e)) (e, data, (false, false)) (conj N eq_refl)). destruct (foldl _ _ _) as [[e1 d1] [r1 w1]]. exact G.
Qed.
Lemma node_datagram_good cmd adp ado l e data wkc : node_al e -> 0 <= ado ->
  node_al (node_datagram g n cmd adp ado l e data wkc).1.1 /\ len (node_datagram g n cmd adp ado l e data wkc).1.2 = len data.
Proof.
  intros N Ha. unfold node_datagram. case_if; [case_if; [done|by apply fmmu_apply_good]|].
  unfold access_node. destruct (node_access cmd adp l e) as [[m r] w]. destruct (read_for_ok cmd e ado data N Ha) as [R1 R2].
  destruct (read_for g cmd e ado data) as [e1 d1]. cbn in R1, R2.
  destruct m, r, w; cbn; split; try done; by apply write_for_node.
Qed.
Lemma datagram_good cmd adp ado l chain data wkc : Forall node_al chain -> 0 <= ado ->
  let r := datagram_loop g n cmd adp ado l chain data wkc in
  Forall node_al r.1.1 /\ length r.1.1 = length chain /\ len r.1.2 = len data.
Proof.
  intros N Ha. cbv zeta. revert l data wkc. induction N as [|e chain Ne N IH]; intros l data wkc; cbn [datagram_loop]; [done|].
  destruct (node_datagram_good cmd adp ado l e data wkc Ne Ha) as [G1 G2].
  destruct (node_datagram g n cmd adp ado l e data wkc) as [[e1 d1] w1]. cbn in G1, G2.
  specialize (IH (if is_auto_inc cmd then u16 (l + 1) else l) d1 w1).
  destruct (datagram_loop g n cmd adp ado _ chain d1 w1) as [[c2 d2] w2]. cbn in *. destruct IH as (I1 & I2 & I3).
  split_and!; [by constructor|by rewrite I2|congruence].
Qed.
End keep.

(** ** Frames as lists of datagrams *)

Record dgram := mkDg { dg_cmd : Z; dg_idx : Z; dg_adp : Z; dg_ado : Z; dg_flags : Z; dg_irq : Z; dg_data : list Z; dg_wkc : Z }.
(** Length field of a datagram: 11 bits of length, 5 bits of flags. *)
Definition dg_len_field (d : dgram) : Z := len (dg_data d) + 2048 * dg_flags d.
Definition dg_head (d : dgram) : list Z :=
  [dg_cmd d; dg_idx d] ++ le16 (dg_adp d) ++ le16 (dg_ado d) ++ le16 (dg_len_field d) ++ le16 (dg_irq d).
Definition enc_dg (d : dgram) : list Z := dg_head d ++ dg_data d ++ le16 (dg_wkc d).
Definition enc_dgs (ds : list dgram) : list Z := concat (enc_dg <$> ds).
Definition dg_wf (d : dgram) : Prop :=
  is_u16 (dg_adp d) /\ is_u16 (dg_ado d) /\ is_u16 (dg_wkc d) /\ 0 <= dg_flags d < 32 /\ len (dg_data d) <= 2047.
(** Ethernet header, EtherCAT header with its 5 flag bits, datagrams, padding. *)
Definition enc_frame (macs : list Z) (fl : Z) (ds : list dgram) (pad : list Z) : list Z :=
  macs ++ [136; 164] ++ le16 (len (enc_dgs ds) + 2048 * fl) ++ enc_dgs ds ++ pad.

Section frames.
Context (g : esc_dc_cfg_t) (n : Z).

(** The reference: each datagram passes the whole chain, one after the other. *)
Definition run_dg (chain : list esc_t) (d : dgram) : list esc_t * dgram :=
  let '(chain, data, wkc) := process_datagram g n chain (dg_cmd d) (dg_adp d) (dg_ado d) (dg_data d) (dg_wkc d) in
  (chain, mkDg (dg_cmd d) (dg_idx d) (dg_adp d) (dg_ado d) (dg_flags d) (dg_irq d) data wkc).
Fixpoint run_dgs (chain : list esc_t) (ds : list dgram) : list esc_t * list dgram :=
  match ds with
  | [] => (chain, [])
  | d :: ds => let '(chain, d) := run_dg chain d in let '(chain, ds) := run_dgs chain ds in (chain, d :: ds)
  end.

Lemma le16_range v : bytes (le16 v).
Proof. unfold le16. repeat constructor; apply is_u8_land. Qed.
Lemma rd_le16_le16 v l : is_u16 v -> rd_le16 (le16 v ++ l) 0 = v.
Proof. apply le16_rd. Qed.
Lemma rd_le16_shift a v c k : len a = k -> is_u16 v -> rd_le16 (a ++ le16 v ++ c) k = v.
Proof. intros <- Hv. rewrite <- (Z.add_0_r (len a)) at 1. rewrite rd_le16_at by (rewrite ?len_le16; lia). rewrite <- (app_nil_r (le16 v)). by apply rd_le16_le16. Qed.
Lemma len_head d : len (dg_head d) = 10.
Proof. done. Qed.
Lemma len_enc d : len (enc_dg d) = 12 + len (dg_data d).
Proof. unfold enc_dg. rewrite !len_app, len_head, len_le16. lia. Qed.
Lemma land_2047 a f : 0 <= a < 2048 -> 0 <= f < 32 -> Z.land (a + 2048 * f) 2047 = a.
Proof. intros. change 2047 with (Z.ones 11). rewrite Z.land_ones by lia. change (2 ^ 11) with 2048. clia. Qed.

(** The fields of a datagram at its place in the frame. *)
Lemma dg_fields pre d post : dg_wf d ->
  let b := pre ++ enc_dg d ++ post in let off := len pre in
  rd b off = dg_cmd d /\ rd_le16 b (off + 2) = dg_adp d /\ rd_le16 b (off + 4) = dg_ado d /\ dg_len b off = len (dg_data d)
  /\ slice b (off + 10) (len (dg_data d)) = dg_data d /\ rd_le16 b (off + 10 + len (dg_data d)) = dg_wkc d.
Proof.
  intros (Wa & Wo & Ww & Wf & Wl). cbv zeta. pose proof (len_enc d). pose proof (len_nonneg (dg_data d)).
  split_and!.
  - rewrite <- (Z.add_0_r (len pre)). rewrite rd_at by lia. done.
  - rewrite rd_le16_at by lia. unfold enc_dg, dg_head. rewrite <- !app_assoc. by apply rd_le16_shift.
  - rewrite rd_le16_at by lia. unfold enc_dg, dg_head. rewrite <- !app_assoc. rewrite app_assoc. by apply rd_le16_shift.
  - unfold dg_len. rewrite rd_le16_at by lia. unfold enc_dg, dg_head. rewrite <- !app_assoc. rewrite (app_assoc _ (le16 (dg_adp d))), (app_assoc _ (le16 (dg_ado d))).
    rewrite rd_le16_shift; [|done|unfold dg_len_field; clia]. unfold dg_len_field. apply land_2047; lia.
  - unfold enc_dg. rewrite <- !app_assoc, app_assoc. replace (len pre + 10) with (len (pre ++ dg_head d)) by (rewrite len_app, len_head; lia).
    apply slice_at.
  - unfold enc_dg. rewrite <- !app_assoc, app_assoc, (app_assoc _ (dg_data d)). apply rd_le16_shift; [|done]. rewrite !len_app, len_head. lia.
Qed.
(** Writing the data and the counter of a datagram back. *)
Lemma dg_store pre d post data wkc : len data = len (dg_data d) ->
  wr_le16 (memcpy (pre ++ enc_dg d ++ post) (len pre + 10) data) (len pre + 10 + len (dg_data d)) wkc =
  pre ++ enc_dg (mkDg (dg_cmd d) (dg_idx d) (dg_adp d) (dg_ado d) (dg_flags d) (dg_irq d) data wkc) ++ post.
Proof.
  intros H. unfold enc_dg at 1. rewrite <- !app_assoc, app_assoc.
  replace (len pre + 10) with (len (pre ++ dg_head d)) by (rewrite len_app, len_head; lia). rewrite memcpy_at by done.
  rewrite (app_assoc _ data). rewrite <- H. replace (len (pre ++ dg_head d) + len data) with (len ((pre ++ dg_head d) ++ data)) by (rewrite len_app; lia).
  rewrite wr_le16_at by done. unfold enc_dg, dg_head, dg_len_field. cbn [dg_cmd dg_idx dg_adp dg_ado dg_flags dg_irq dg_data dg_wkc].
  rewrite <- H, <- !app_assoc. done.
Qed.

Lemma frame_loop_refines ds : forall fuel chain pre post,
  (length ds < fuel)%nat -> Forall node_al chain -> Forall dg_wf ds ->
  frame_loop g n fuel chain (pre ++ enc_dgs ds ++ post) (len pre) (len pre + len (enc_dgs ds)) =
  ((run_dgs chain ds).1, pre ++ enc_dgs (run_dgs chain ds).2 ++ post).
Proof.
  induction ds as [|d ds IH]; intros fuel chain pre post Hf Hc Hd; (destruct fuel as [|fuel]; [cbn in Hf; lia|]); cbn [frame_loop].
  { rewrite (proj2 (Z.leb_gt _ _)); [done|]. change (len (enc_dgs [])) with 0. lia. }
  apply Forall_cons in Hd as [Hd Hds].
  change (enc_dgs (d :: ds)) with (enc_dg d ++ enc_dgs ds). rewrite !len_app, len_enc, <- app_assoc.
  pose proof (len_nonneg (dg_data d)). pose proof (len_nonneg (enc_dgs ds)).
  destruct (dg_fields pre d (enc_dgs ds ++ post) Hd) as (F1 & F2 & F3 & F4 & F5 & F6). destruct Hd as (Wa & Wo & Ww & Wf & Wl).
  rewrite (proj2 (Z.leb_le _ _)) by lia. cbv zeta. rewrite F4, F1, F2, F3, F5, F6. rewrite (proj2 (Z.ltb_ge _ _)) by lia.
  cbn [run_dgs]. unfold run_dg.
  destruct (datagram_good g n (dg_cmd d) (dg_adp d) (dg_ado d) (dg_adp d) chain (dg_data d) (dg_wkc d) Hc ltac:(unfold_c; lia)) as (G1 & _ & G3).
  change (datagram_loop g n (dg_cmd d) (dg_adp d) (dg_ado d) (dg_adp d) chain (dg_data d) (dg_wkc d))
    with (process_datagram g n chain (dg_cmd d) (dg_adp d) (dg_ado d) (dg_data d) (dg_wkc d)) in *.
  destruct (process_datagram _ _ _ _ _ _ _ _) as [[c1 data1] w1]. cbn [fst snd] in G1, G3. rewrite dg_store by done.
  set (d' := mkDg _ _ _ _ _ _ data1 w1). cbn in Hf.
  assert (L' : len (pre ++ enc_dg d') = len pre + 10 + len (dg_data d) + 2).
  { rewrite len_app, len_enc. cbn [dg_data d']. lia. }
  specialize (IH fuel c1 (pre ++ enc_dg d') post ltac:(lia) G1 Hds). rewrite L', <- app_assoc in IH.
  replace (len pre + (12 + len (dg_data d) + len (enc_dgs ds))) with (len pre + 10 + len (dg_data d) + 2 + len (enc_dgs ds)) by lia.
  rewrite IH. destruct (run_dgs c1 ds) as [c2 ds2]. cbn [fst snd]. f_equal. change (enc_dgs (d' :: ds2)) with (enc_dg d' ++ enc_dgs ds2).
  by rewrite <- !app_assoc.
Qed.
Lemma enc_dgs_count ds : 12 * Z.of_nat (length ds) <= len (enc_dgs ds).
Proof.
  induction ds as [|d ds IH]; [done|]. change (enc_dgs (d :: ds)) with (enc_dg d ++ enc_dgs ds). rewrite len_app, len_enc.
  pose proof (len_nonneg (dg_data d)). cbn [length]. lia.
Qed.
Lemma run_dgs_len chain ds : Forall node_al chain -> Forall dg_wf ds -> len (enc_dgs (run_dgs chain ds).2) = len (enc_dgs ds).
Proof.
  intros Hc Hd. revert chain Hc. induction Hd as [|d ds (Wa & Wo & _) Hds IH]; intros chain Hc; [done|]. cbn [run_dgs]. unfold run_dg.
  destruct (datagram_good g n (dg_cmd d) (dg_adp d) (dg_ado d) (dg_adp d) chain (dg_data d) (dg_wkc d) Hc ltac:(unfold_c; lia)) as (G1 & _ & G3).
  change (datagram_loop g n (dg_cmd d) (dg_adp d) (dg_ado d) (dg_adp d) chain (dg_data d) (dg_wkc d))
    with (process_datagram g n chain (dg_cmd d) (dg_adp d) (dg_ado d) (dg_data d) (dg_wkc d)) in *.
  destruct (process_datagram _ _ _ _ _ _ _ _) as [[c1 data1] w1]. cbn [fst snd] in G1, G3. specialize (IH c1 G1).
  destruct (run_dgs c1 ds) as [c2 ds2]. cbn [fst snd] in IH |- *. unfold enc_dgs in *. cbn [fmap list_fmap concat]. rewrite !len_app, !len_enc, IH.
  cbn [dg_data]. lia.
Qed.

(** C6: Frame processing refines datagram processing.  For a frame with any
    Ethernet addresses, any datagrams that fit (2047 bytes in all) and any
    padding, [process_frame] on the bytes gives the frame of the datagrams that
    passed the chain one after the other: the nodes are those of the reference,
    headers, lengths, flags and padding are unchanged, and only data and working
    counters are replaced. *)
Theorem process_frame_refines (chain : list esc_t) (macs pad : list Z) (fl : Z) (ds : list dgram) :
  Forall node_al chain -> len macs = 12 -> 0 <= fl < 32 -> Forall dg_wf ds -> len (enc_dgs ds) <= 2047 ->
  process_frame g n chain (enc_frame macs fl ds pad) = ((run_dgs chain ds).1, enc_frame macs fl (run_dgs chain ds).2 pad).
Proof.
  intros Hc Hm Hf Hd Hl. pose proof (len_nonneg (enc_dgs ds)). pose proof (len_nonneg pad). pose proof (enc_dgs_count ds).
  unfold enc_frame, process_frame. set (L := len (enc_dgs ds) + 2048 * fl).
  rewrite !len_app, Hm, len_le16. change (len [136; 164]) with 2. rewrite (proj2 (Z.ltb_ge _ _)) by lia.
  assert (R : forall i, 0 <= i < 2 -> rd (macs ++ [136; 164] ++ le16 L ++ enc_dgs ds ++ pad) (12 + i) = rd [136; 164] i).
  { intros i Hi. rewrite <- Hm. by apply rd_at. }
  pose proof (R 0 ltac:(lia)) as R0. pose proof (R 1 ltac:(lia)) as R1. change (12 + 0) with 12 in R0. change (12 + 1) with 13 in R1.
  rewrite R0, R1. change (rd [136; 164] 0 * 256 + rd [136; 164] 1 =? 34980) with true. cbn [negb].
  assert (E : rd_le16 (macs ++ [136; 164] ++ le16 L ++ enc_dgs ds ++ pad) 14 = L).
  { rewrite app_assoc. apply rd_le16_shift; [rewrite len_app, Hm; done|]. unfold L. clia. }
  rewrite E. unfold L at 2. rewrite land_2047 by lia. rewrite Z.min_l by lia.
  pose proof (frame_loop_refines ds 171 chain (macs ++ [136; 164] ++ le16 L) pad ltac:(lia) Hc Hd) as F.
  assert (Lp : len (macs ++ [136; 164] ++ le16 L) = 16) by (rewrite !len_app, Hm; done). rewrite Lp, <- !app_assoc in F. rewrite F.
  f_equal. by rewrite run_dgs_len by done.
Qed.
End frames.

(** ** Bit mapping and byte mapping *)

(** One bit of a byte. *)
Definition put1 (v j b : Z) : Z := if b =? 0 then bits_clear v (u8 (Z.shiftl 1 j)) else bits_set v (u8 (Z.shiftl 1 j)).
Lemma pow2_u8 j : 0 <= j < 8 -> u8 (Z.shiftl 1 j) = 2 ^ j.
Proof. intros. assert (j = 0 \/ j = 1 \/ j = 2 \/ j = 3 \/ j = 4 \/ j = 5 \/ j = 6 \/ j = 7) as H' by lia. repeat destruct H' as [->|H']; [..|subst]; done. Qed.
Lemma put1_bit v j b i : 0 <= j < 8 -> 0 <= i -> Z.testbit (put1 v j b) i = if i =? j then negb (b =? 0) else Z.testbit v i.
Proof.
  intros Hj Hi. unfold put1, bits_clear, bits_set. rewrite pow2_u8 by done. destruct (b =? 0); cbn [negb].
  - rewrite Z.land_spec, Z.lnot_spec, Z.pow2_bits_eqb by lia. rewrite (Z.eqb_sym j). destruct (i =? j); [apply andb_false_r|apply andb_true_r].
  - rewrite Z.lor_spec, Z.pow2_bits_eqb by lia. rewrite (Z.eqb_sym j). destruct (i =? j); [apply orb_true_r|apply orb_false_r].
Qed.
Lemma put1_u8 v j b : 0 <= j < 8 -> is_u8 v -> is_u8 (put1 v j b).
Proof. intros. unfold put1. case_if; [by apply bits_clear_u8|apply bits_set_u8; [done|apply u8_range]]. Qed.
Definition puts (v s : Z) (m : nat) : Z := foldl (fun v j => put1 v j (Z.land (Z.shiftr s j) 1)) v (seqZ 0 (Z.of_nat m)).
Lemma seqZ_snoc k : seqZ 0 (Z.of_nat (S k)) = seqZ 0 (Z.of_nat k) ++ [Z.of_nat k].
Proof. apply (seqZ_S 0). Qed.
Lemma bit_of s j : 0 <= j -> negb (Z.land (Z.shiftr s j) 1 =? 0) = Z.testbit s j.
Proof.
  intros. change 1 with (Z.ones 1) at 1. rewrite Z.land_ones by lia.
  rewrite <- (Z.add_0_l j) at 2. rewrite <- Z.shiftr_spec by lia. rewrite Z.bit0_odd. change (2 ^ 1) with 2. rewrite Zmod_odd. by destruct (Z.odd _).
Qed.
Lemma puts_bit v s m i : (m <= 8)%nat -> 0 <= i -> Z.testbit (puts v s m) i = if i <? Z.of_nat m then Z.testbit s i else Z.testbit v i.
Proof.
  intros Hm Hi. unfold puts. induction m as [|m IH]; [cbn; by rewrite (proj2 (Z.ltb_ge _ _)) by lia|].
  rewrite seqZ_snoc, foldl_app. cbn [foldl]. rewrite put1_bit by lia. rewrite bit_of by lia.
  destruct (Z.eqb_spec i (Z.of_nat m)) as [->|]; [by rewrite (proj2 (Z.ltb_lt _ _)) by lia|]. rewrite IH by lia.
  destruct (Z.ltb_spec i (Z.of_nat m)), (Z.ltb_spec i (Z.of_nat (S m))); done || lia.
Qed.
Lemma puts_u8 v s m : (m <= 8)%nat -> is_u8 v -> is_u8 (puts v s m).
Proof.
  intros Hm Hv. unfold puts. induction m as [|m IH]; [done|]. rewrite seqZ_snoc, foldl_app. cbn [foldl]. apply put1_u8; [lia|]. apply IH. lia.
Qed.
Lemma u8_bit_high v i : is_u8 v -> 8 <= i -> Z.testbit v i = false.
Proof. intros [H1 H2] Hi. rewrite <- (Z.mod_small v 256) by lia. change 256 with (2 ^ 8). by apply Z.mod_pow2_bits_high. Qed.
Lemma puts_all v s : is_u8 v -> is_u8 s -> puts v s 8 = s.
Proof.
  intros Hv Hs. apply Z.bits_inj'. intros i Hi. rewrite puts_bit by lia. destruct (Z.ltb_spec i (Z.of_nat 8)); [done|]. rewrite !u8_bit_high by (done || lia). done.
Qed.

Lemma wr_wr m a v w : wr (wr m a v) a w = wr m a w.
Proof. apply list_insert_insert_eq. Qed.
Lemma wr_same m a : 0 <= a < len m -> wr m a (rd m a) = m.
Proof.
  intros H. apply rd_ext; [apply len_wr|]. intros i Hi. rewrite len_wr in Hi. destruct (decide (i = a)) as [->|]; [by rewrite rd_wr_eq|by rewrite rd_wr_ne by lia].
Qed.
Lemma bit_index a j : 0 <= j < 8 -> Z.shiftr (8 * a + j) 3 = a /\ Z.land (8 * a + j) 7 = j.
Proof. intros. rewrite Z.shiftr_div_pow2 by lia. change 7 with (Z.ones 3). rewrite Z.land_ones by lia. change (2 ^ 3) with 8. clia. Qed.
Lemma byte_copy b a src c m : (m <= 8)%nat -> 0 <= a < len b ->
  foldl (fun b j => bit_put b (8 * a + j) (bit_get src (8 * c + j))) b (seqZ 0 (Z.of_nat m)) = wr b a (puts (rd b a) (rd src c) m).
Proof.
  intros Hm Ha. induction m as [|m IH]; [cbn; by rewrite wr_same|].
  rewrite seqZ_snoc, foldl_app. cbn [foldl]. rewrite IH by lia. unfold puts. rewrite seqZ_snoc, foldl_app. cbn [foldl]. fold (puts (rd b a) (rd src c) m).
  unfold bit_put, bit_get, put1. destruct (bit_index a (Z.of_nat m) ltac:(lia)) as [-> ->]. destruct (bit_index c (Z.of_nat m) ltac:(lia)) as [-> ->].
  rewrite rd_wr_eq, !wr_wr by done. case_if; done.
Qed.
Lemma memcpy_snoc dst a src b k : 0 <= a -> 0 <= b -> a + Z.of_nat k < len dst -> b + Z.of_nat k < len src ->
  memcpy dst a (slice src b (Z.of_nat (S k))) = wr (memcpy dst a (slice src b (Z.of_nat k))) (a + Z.of_nat k) (rd src (b + Z.of_nat k)).
Proof.
  intros. apply rd_ext; [by autorewrite with memlen|]. intros i Hi. autorewrite with memlen in Hi.
  assert (L1 : len (slice src b (Z.of_nat (S k))) = Z.of_nat (S k)) by (apply len_slice; lia).
  assert (L2 : len (slice src b (Z.of_nat k)) = Z.of_nat k) by (apply len_slice; lia).
  destruct (decide (i = a + Z.of_nat k)) as [->|Hne].
  - rewrite rd_wr_eq by (autorewrite with memlen; lia). rewrite rd_memcpy_in by lia. rewrite rd_slice by lia. f_equal. lia.
  - rewrite rd_wr_ne by lia. destruct (decide (a <= i < a + Z.of_nat k)).
    + rewrite !rd_memcpy_in by lia. rewrite !rd_slice by lia. done.
    + rewrite !rd_memcpy_out by lia. done.
Qed.
(** Whole bytes copied bit by bit are copied. *)
Lemma bits_copy_bytes dst a src b k : bytes dst -> bytes src -> 0 <= a -> 0 <= b -> a + Z.of_nat k <= len dst -> b + Z.of_nat k <= len src ->
  bits_copy dst (8 * a) src (8 * b) (8 * Z.of_nat k) = memcpy dst a (slice src b (Z.of_nat k)).
Proof.
  intros Hd Hs Ha Hb. induction k as [|k IH]; intros H1 H2; [done|].
  unfold bits_copy in *. replace (8 * Z.of_nat (S k)) with (8 * Z.of_nat k + 8) by lia. rewrite seqZ_app by lia. rewrite foldl_app, IH by lia.
  rewrite memcpy_snoc by lia. set (m := memcpy dst a (slice src b (Z.of_nat k))).
  assert (Hm : bytes m) by (apply bytes_memcpy; [done|by apply bytes_slice]).
  assert (Lm : len m = len dst) by apply len_memcpy.
  pose proof (byte_copy m (a + Z.of_nat k) src (b + Z.of_nat k) 8 ltac:(lia) ltac:(lia)) as B.
  rewrite puts_all in B by (by apply bytes_rd). rewrite <- B. rewrite Z.add_0_l. rewrite <- (Z.add_0_r (8 * Z.of_nat k)) at 1. rewrite <- fmap_add_seqZ.
  change (Z.of_nat 8) with 8. generalize (seqZ 0 8) m. clear. intros l. induction l as [|j l IH]; intros m; [done|]. cbn [fmap list_fmap foldl].
  rewrite IH. do 2 f_equal; [|f_equal]; lia.
Qed.

Section mapping.
Context (g : esc_dc_cfg_t) (n : Z).

Lemma bytes_set_reg e a v : bytes (regs e) -> is_u8 v -> bytes (regs (set_reg e a v)).
Proof. intros. cbn. by apply bytes_wr. Qed.
Lemma bytes_before_read e off l : bytes (regs e) -> bytes (regs (before_read g e off l)).
Proof.
  intros Hb. unfold before_read. assert (D : bytes (regs (esc_dc_before_read g e off l))).
  { unfold esc_dc_before_read. repeat case_if; cbn -[wr_time_view wr_le32]; auto 10 with ecm. }
  apply bytes_set_reg; [done|]. pose proof (bytes_rd _ REG_SM1_STATUS D). unfold reg. case_if; [apply bits_set_u8|apply bits_clear_u8]; done || clia.
Qed.
Lemma bytes_fetched e off l : bytes (regs e) -> bytes (regs (mailbox_fetched e off l)).
Proof.
  intros Hb. unfold mailbox_fetched. case_if; [|done]. cbv zeta. apply bytes_set_reg; [by destruct (has_bit _ _)|].
  apply bits_clear_u8. unfold reg. apply bytes_rd. by destruct (has_bit _ _).
Qed.
(** What a read returns depends only on how much is read. *)
Lemma phys_read_in_range e off data : off + len data <= 8192 ->
  esc_phys_read g e off data = (mailbox_fetched (before_read g e off (len data)) off (len data), slice (regs (before_read g e off (len data))) off (len data)).
Proof. intros. unfold esc_phys_read. by rewrite (proj2 (Z.ltb_ge _ _)) by lia. Qed.
Lemma memcpy_full m d : len d = len m -> memcpy m 0 d = d.
Proof. intros H. rewrite <- (app_nil_r m), <- (app_nil_l (m ++ [])). change 0 with (len []). rewrite memcpy_at by done. apply app_nil_r. Qed.
Lemma slice_full m k : k = len m -> slice m 0 k = m.
Proof. intros ->. apply slice_all. Qed.

(** A segment written bit by bit over whole bytes is the segment. *)
Lemma write_back x po k seg : node_al x -> bytes (regs x) -> bytes seg -> len seg = k -> 0 <= po -> po + k <= 8192 ->
  bits_copy (slice (regs x) po k) 0 seg 0 (8 * k) = seg.
Proof.
  intros Nx Bx Bs <- Hp Hk. pose proof (na_len _ Nx). pose proof (len_nonneg seg).
  assert (L : len (slice (regs x) po (len seg)) = len seg) by (apply len_slice; lia).
  pose proof (bits_copy_bytes (slice (regs x) po (len seg)) 0 seg 0 (length seg) ltac:(by apply bytes_slice) Bs ltac:(lia) ltac:(lia)) as B.
  change (Z.of_nat (length seg)) with (len seg) in B. rewrite !Z.mul_0_r in B. rewrite B, slice_full by lia. by apply memcpy_full.
Qed.
(** Whole bytes read bit by bit into the datagram are copied. *)
Lemma read_over data a phys k : bytes data -> bytes phys -> len phys = k -> 0 <= a -> a + k <= len data ->
  bits_copy data (8 * a) phys 0 (8 * k) = memcpy data a phys.
Proof.
  intros Hd Hp <- Ha Hk. pose proof (bits_copy_bytes data a phys 0 (length phys) Hd Hp ltac:(lia) ltac:(lia)) as B.
  change (Z.of_nat (length phys)) with (len phys) in B. rewrite Z.mul_0_r in B. by rewrite B, slice_full by lia.
Qed.

(** C13: Bit mapping equals byte mapping.  An FMMU entry on byte boundaries (start
    bit 0, stop bit 7, physical bit 0) whose physical range lies in the register
    space, in a logical address range that ends below 2^32, does the same through
    the bit-oriented path as through the byte path for every datagram of at most
    2047 bytes that also ends below 2^32: the same data in the datagram, the same
    registers and side effects in the node, the same read and write indication,
    whether the ranges meet in part, in whole or not at all.  (The flag for valid
    outputs is left out: the byte path does not set it for a mapping that is read and
    written.  At the top of the address space the byte path wraps and the bit path
    does not, see [fmmu_paths_differ_at_top].) *)
Theorem fmmu_paths_agree (e : esc_t) (log_addr : Z) (data : list Z) (log_start length phys_start : Z) (r w : bool) :
  node_al e -> bytes (regs e) -> bytes data -> len data <= 2047 ->
  0 <= log_addr -> log_addr + len data < 4294967296 -> 0 <= log_start -> 0 < length -> log_start + length < 4294967296 ->
  0 <= phys_start -> phys_start + length <= 8192 ->
  let '(e1, d1, f1) := fmmu_apply_bits g n e log_addr data (log_start * 8) ((log_start + length - 1) * 8 + 7 + 1) (phys_start * 8) r w in
  let '(e2, d2, f2) := fmmu_apply_bytes g n e log_addr data log_start length phys_start r w in
  e1 <| got_valid_outputs := true |> = e2 <| got_valid_outputs := true |> /\ d1 = d2 /\ f1 = f2.
Proof.
  intros N Hb Hd Hdl Hla Hla' Hls Hlen Hls' Hps Hps'. unfold fmmu_apply_bits, fmmu_apply_bytes. cbv zeta.
  pose proof (len_nonneg data) as Hn.
  replace (u32 (log_addr + len data)) with (log_addr + len data) by (unfold_c; rewrite Z.mod_small by lia; done).
  replace (u32 (log_start + length)) with (log_start + length) by (unfold_c; rewrite Z.mod_small by lia; done).
  set (os := if log_start <? log_addr then log_addr else log_start).
  set (oe := if log_addr + len data <? log_start + length then log_addr + len data else log_start + length).
  assert (Os : log_start <= os /\ log_addr <= os) by (unfold os; case_if; bprop; lia).
  assert (Oe : oe <= log_start + length /\ oe <= log_addr + len data) by (unfold oe; case_if; bprop; lia).
  replace (if log_addr * 8 <? log_start * 8 then log_start * 8 else log_addr * 8) with (8 * os)
    by (unfold os; repeat case_if; bprop; lia).
  replace (if (log_start + length - 1) * 8 + 7 + 1 <? log_addr * 8 + len data * 8 then (log_start + length - 1) * 8 + 7 + 1 else log_addr * 8 + len data * 8)
    with (8 * oe) by (unfold oe; repeat case_if; bprop; lia).
  destruct (Z.leb_spec oe os) as [Hv|Hv].
  { by rewrite (proj2 (Z.leb_le (8 * oe) (8 * os))) by lia. }
  rewrite (proj2 (Z.leb_gt (8 * oe) (8 * os))) by lia. cbn [orb].
  clearbody os oe. set (po := phys_start + (os - log_start)). set (k := oe - os).
  assert (Hk : 0 < k /\ 0 <= po /\ po + k <= 8192 /\ 0 <= os - log_addr /\ os - log_addr + k <= len data) by (unfold k, po; lia).
  replace (u16 k) with k by (unfold_c; rewrite Z.mod_small by lia; done).
  replace (u16 (os - log_addr)) with (os - log_addr) by (unfold_c; rewrite Z.mod_small by lia; done).
  replace (u16 po) with po by (unfold_c; rewrite Z.mod_small by lia; done).
  replace (phys_start * 8 + (8 * os - log_start * 8)) with (8 * po + 0) by (unfold po; lia).
  replace (8 * oe - 8 * os) with (8 * k) by (unfold k; lia). replace (8 * os - log_addr * 8) with (8 * (os - log_addr) + 0) by lia.
  destruct (bit_index po 0 ltac:(lia)) as [-> ->]. destruct (bit_index (os - log_addr) 0 ltac:(lia)) as [-> _].
  replace (8 * po + 0 + 8 * k + 7) with (8 * (po + k) + 7) by lia. destruct (bit_index (po + k) 7 ltac:(lia)) as [-> _].
  replace (8 * (os - log_addr) + 0 + 8 * k + 7) with (8 * (os - log_addr + k) + 7) by lia. destruct (bit_index (os - log_addr + k) 7 ltac:(lia)) as [-> _].
  replace (po + k - po) with k by lia. replace (os - log_addr + k - (os - log_addr)) with k by lia.
  set (a := os - log_addr) in *. set (seg := slice data a k).
  assert (Ls : len seg = k) by (apply len_slice; lia). assert (Bs : bytes seg) by (by apply bytes_slice).
  rewrite (proj2 (Z.ltb_ge 8192 (po + k))) by lia. replace (8 * a + 0 - a * 8) with 0 by lia. rewrite Z.add_0_r.
  rewrite !phys_read_in_range by (rewrite ?len_replicate; lia). rewrite len_replicate, Z2Nat.id, Ls by lia.
  set (b := before_read g e po k). set (x := mailbox_fetched b po k).
  assert (Bb : bytes (regs b)) by (by apply bytes_before_read).
  assert (Nb : len (regs b) = 8192) by (unfold b; rewrite (k_len _ _ _ (keeps_before_read g e po k)); apply N).
  assert (Nx : node_al x) by (eapply keeps_node; [|exact N]; eapply keeps_trans; [apply keeps_before_read|apply keeps_fetched]).
  assert (Bx : bytes (regs x)) by (by apply bytes_fetched).
  assert (Lb : len (slice (regs b) po k) = k) by (apply len_slice; lia).
  assert (Rd : bits_copy data (8 * a) (slice (regs b) po k) 0 (8 * k) = memcpy data a (slice (regs b) po k)) by (apply read_over; auto with ecm; lia).
  assert (We : bits_copy (slice (regs e) po k) 0 seg 0 (8 * k) = seg) by (apply write_back; done || lia).
  assert (Wx : bits_copy (slice (regs x) po k) 0 seg 0 (8 * k) = seg) by (apply write_back; done || lia).
  destruct r, w; cbn [andb negb]; rewrite ?Rd, ?Wx, ?We; done.
Qed.
End mapping.

(** ** EEPROM image and object dictionary *)

(** Words of a PDO category for the entries [ens] as the CoE dictionary gives them. *)
Definition sii_pdo_body (index sm : Z) (ens : list Z) : list Z :=
  [index; Z.of_nat (length ens) + 256 * sm; 0; 0]
  ++ concat ((fun en => [Z.shiftr en 16; Z.land (Z.shiftr en 8) 255; 5 + 256 * Z.land en 255; 0]) <$> ens).
Definition dict_entries (e : esc_t) (entry_index : Z) : list Z := pdo_entry_value e entry_index <$> seqZ 1 (pdo_entry_count e).
Definition sii_reference (e : esc_t) : list Z :=
  let size := pdo_size_bytes e in
  let act := if size =? 0 then 0 else 1 in
  [128; 0; 0; 0; 0; 0; 0; 233; 1177; 0; 1; 0; 1; 0; 0; 0] ++ replicate 8 0
  ++ [SII_SM0_OFFSET; SII_SM0_SIZE; SII_SM1_OFFSET; SII_SM1_SIZE; 4] ++ replicate 35 0
  ++ (if coe_ca e then cat SII_CAT_GENERAL ([0; 0; 9472; 0; 0; 0; 0; 0; 17] ++ replicate 7 0) else [])
  ++ cat SII_CAT_SYNCM [SII_SM0_OFFSET; SII_SM0_SIZE; 38; 1; SII_SM1_OFFSET; SII_SM1_SIZE; 34; 1;
                        SII_SM2_OFFSET; size; 100; act; SII_SM2_OFFSET + (size + 7) / 8 * 8; size; 32; act]
  ++ (if size =? 0 then []
      else cat SII_CAT_TXPDO (sii_pdo_body 6656 3 (dict_entries e 24576)) ++ cat SII_CAT_RXPDO (sii_pdo_body 5632 2 (dict_entries e 28672)))
  ++ [SII_CAT_END].
Definition dict_bytes (e : esc_t) : Z := foldr (fun en s => Z.land en 255 / 8 + s) 0 (dict_entries e 28672).

(** Size of entry [i] (from 0) of [size] bytes cut into pieces of 31. *)
Definition piece (size i : Z) : Z := Z.min SII_PDO_ENTRY_MAX_BYTES (size - SII_PDO_ENTRY_MAX_BYTES * i).
Definition pieces (size : Z) : Z := (size + 30) / 31.
Lemma pdo_chunks_pieces fuel size : 0 <= size <= 31 * Z.of_nat fuel -> size <= 1984 -> pdo_chunks fuel size = piece size <$> seqZ 0 (pieces size).
Proof.
  unfold pieces. revert size. induction fuel as [|fuel IH]; intros size Hs Hm; cbn [pdo_chunks].
  { replace size with 0 by lia. done. }
  destruct (Z.ltb_spec 0 size); [|replace size with 0 by lia; done].
  rewrite (seqZ_cons 0) by (apply Z.div_str_pos; lia). cbn [fmap list_fmap].
  assert (C : (if 31 <? size then 31 else u8 size) = piece size 0) by (unfold piece; case_if; bprop; clia).
  rewrite C. f_equal. replace (u16 (size - piece size 0)) with (Z.max 0 (size - 31)) by (unfold piece; clia).
  rewrite IH by lia. change (Z.succ 0) with (1 + 0). rewrite <- fmap_add_seqZ, <- list_fmap_compose.
  replace (Z.pred ((size + 30) / 31)) with ((Z.max 0 (size - 31) + 30) / 31) by clia.
  apply list_fmap_ext. intros i x Hx. apply lookup_seqZ in Hx as [-> Hx]. unfold piece; cbn. clia.
Qed.
Lemma pack_words_8 a b c d e f h k l : pack_words ([a; b; c; d; e; f; h; k] ++ l) =
  [Z.lor a (Z.shiftl b 8); Z.lor c (Z.shiftl d 8); Z.lor e (Z.shiftl f 8); Z.lor h (Z.shiftl k 8)] ++ pack_words l.
Proof. done. Qed.
Lemma pack_entries ei (l : list Z) k : ei = 24576 \/ ei = 28672 -> Forall (fun c => 0 <= c <= 31) l -> (k + length l <= 255)%nat ->
  pack_words (concat (imap (fun i => pdo_entry_body ei (k + i)) l)) = concat (imap (fun i c => [ei; Z.of_nat (k + i) + 1; 5 + 256 * (c * 8); 0]) l).
Proof.
  intros He Hl. revert k. induction Hl as [|c l Hc Hl IH]; intros k Hk; [done|]. cbn [imap concat length] in *.
  unfold pdo_entry_body at 1. rewrite pack_words_8. f_equal.
  - rewrite Nat.add_0_r. unfold u8. rewrite !Z.mod_small by lia. f_equal; [by destruct He as [-> | ->]|].
    rewrite (lor_shift_add (Z.of_nat k + 1)), (lor_shift_add 5) by lia. f_equal; [lia|]. f_equal; lia.
  - specialize (IH (S k) ltac:(lia)).
    assert (E : forall B (f : nat -> Z -> B), imap (fun i => f (S k + i)%nat) l = imap ((fun i => f (k + i)%nat) ∘ S) l).
    { intros B f. apply imap_ext. intros i x _. cbn. by rewrite Nat.add_succ_r. }
    rewrite (E _ (pdo_entry_body ei)), (E _ (fun i c => [ei; Z.of_nat i + 1; 5 + 256 * (c * 8); 0])) in IH. exact IH.
Qed.
(** The fields of an entry of the dictionary. *)
Lemma dict_entry_fields ei i c : ei = 24576 \/ ei = 28672 -> 0 <= i < 255 -> 0 <= c <= 31 ->
  let en := Z.lor (Z.lor (Z.shiftl ei 16) (Z.shiftl (i + 1) 8)) (c * 8) in
  Z.shiftr en 16 = ei /\ Z.land (Z.shiftr en 8) 255 = i + 1 /\ Z.land en 255 = c * 8.
Proof.
  intros He Hi Hc. cbv zeta.
  assert (E : Z.lor (Z.lor (Z.shiftl ei 16) (Z.shiftl (i + 1) 8)) (c * 8) = c * 8 + (i + 1) * 256 + ei * 65536).
  { rewrite Z.lor_comm, (Z.lor_comm (Z.shiftl ei 16)), Z.lor_assoc. rewrite (lor_shift_add (c * 8)) by lia. rewrite lor_shift_add by lia. lia. }
  rewrite E, !land_255, !Z.shiftr_div_pow2 by lia. destruct He as [-> | ->]; clia.
Qed.
Lemma imap_seqZ {B} (F : nat -> Z -> B) (h : Z -> Z) k :
  imap F (h <$> seqZ 0 k) = (fun z => F (Z.to_nat z) (h z)) <$> seqZ 0 k.
Proof.
  apply list_eq. intros i. rewrite list_lookup_imap, !list_lookup_fmap. destruct (seqZ 0 k !! i) as [z|] eqn:E; [|done].
  apply lookup_seqZ in E as [-> _]. rewrite Z.add_0_l. unfold fmap, option_fmap, option_map. by rewrite Nat2Z.id.
Qed.
Lemma concat_4_length {A} (f : A -> list Z) l : (forall x, length (f x) = 4%nat) -> length (concat (f <$> l)) = (4 * length l)%nat.
Proof. intros H. induction l as [|x l IH]; [done|]. cbn [fmap list_fmap concat length]. rewrite length_app, H, IH. lia. Qed.
Lemma sii_pdo_body_length pi sm ens : Z.of_nat (length (sii_pdo_body pi sm ens)) = 4 + 4 * Z.of_nat (length ens).
Proof. unfold sii_pdo_body. rewrite length_app, concat_4_length by done. cbn [length]. lia. Qed.
Lemma dict_entries_pieces e ei : 0 <= pdo_size_bytes e <= 1984 ->
  dict_entries e ei = (fun i => Z.lor (Z.lor (Z.shiftl ei 16) (Z.shiftl (i + 1) 8)) (piece (pdo_size_bytes e) i * 8)) <$> seqZ 0 (pieces (pdo_size_bytes e)).
Proof.
  intros Hs. unfold dict_entries, pdo_entry_count, pieces. replace (u8 ((pdo_size_bytes e + 31 - 1) / 31)) with ((pdo_size_bytes e + 30) / 31) by clia.
  change (seqZ 1) with (seqZ (1 + 0)). rewrite <- fmap_add_seqZ, <- list_fmap_compose. apply list_fmap_ext. intros i x Hx.
  apply lookup_seqZ in Hx as [-> Hx]. unfold pdo_entry_value, compose. cbv zeta. replace (0 + Z.of_nat i + 1) with (1 + (0 + Z.of_nat i)) by lia. do 2 f_equal.
  unfold piece. case_if; bprop; clia.
Qed.
Lemma piece_range size i : 0 <= i < pieces size -> 0 <= piece size i <= 31.
Proof. unfold piece, pieces. intros. clia. Qed.
Lemma entry_words e ei : ei = 24576 \/ ei = 28672 -> 0 <= pdo_size_bytes e <= 1984 ->
  pack_words (concat (imap (pdo_entry_body ei) (pdo_chunks 64 (pdo_size_bytes e)))) =
  concat ((fun en => [Z.shiftr en 16; Z.land (Z.shiftr en 8) 255; 5 + 256 * Z.land en 255; 0]) <$> dict_entries e ei).
Proof.
  intros He Hs. rewrite pdo_chunks_pieces by lia. set (size := pdo_size_bytes e) in *.
  assert (Hn : 0 <= pieces size <= 64) by (unfold pieces; clia).
  pose proof (pack_entries ei (piece size <$> seqZ 0 (pieces size)) 0 He) as P. cbn [Nat.add] in P.
  change (fun i : nat => pdo_entry_body ei i) with (pdo_entry_body ei) in P. rewrite P.
  - rewrite dict_entries_pieces by done. fold size. rewrite imap_seqZ, <- list_fmap_compose. f_equal. apply list_fmap_ext. intros i x Hx.
    apply lookup_seqZ in Hx as [-> Hx]. unfold compose. pose proof (piece_range size (0 + Z.of_nat i) ltac:(lia)).
    destruct (dict_entry_fields ei (0 + Z.of_nat i) (piece size (0 + Z.of_nat i)) He ltac:(lia) ltac:(lia)) as (-> & -> & ->). rewrite Z2Nat.id by lia. done.
  - apply Forall_fmap, Forall_seqZ. intros i Hi. apply piece_range. lia.
  - rewrite length_fmap, length_seqZ. lia.
Qed.
Lemma pdo_category_words e out cap type pi sm ei :
  ei = (if type =? SII_CAT_TXPDO then 24576 else 28672) -> is_u16 pi -> 0 <= sm < 256 ->
  0 < pdo_size_bytes e <= 1984 -> Z.of_nat (length out) + 6 + 4 * 64 <= cap ->
  append_pdo_category out cap type pi sm (pdo_size_bytes e) = out ++ cat type (sii_pdo_body pi sm (dict_entries e ei)).
Proof.
  intros Hei Hpi Hsm Hs Hcap. assert (He : ei = 24576 \/ ei = 28672) by (subst ei; case_if; auto).
  unfold append_pdo_category. cbv zeta. rewrite <- Hei, (proj2 (Z.eqb_neq _ _)) by lia.
  assert (Ln : Z.of_nat (length (pdo_chunks 64 (pdo_size_bytes e))) = pieces (pdo_size_bytes e) /\ Z.of_nat (length (dict_entries e ei)) = pieces (pdo_size_bytes e)).
  { rewrite pdo_chunks_pieces, dict_entries_pieces by lia. rewrite !length_fmap, length_seqZ. unfold pieces. clia. }
  destruct Ln as [L1 L2]. assert (Hn : 0 < pieces (pdo_size_bytes e) <= 64) by (unfold pieces; clia). rewrite L1.
  replace ((8 + 8 * pieces (pdo_size_bytes e)) / 2) with (4 + 4 * pieces (pdo_size_bytes e)) by clia.
  rewrite (proj2 (Z.ltb_ge _ _)) by lia. rewrite pack_words_8, entry_words by (done || lia). unfold cat. rewrite sii_pdo_body_length, L2.
  unfold sii_pdo_body. rewrite L2. f_equal. cbn [app]. do 2 f_equal.
  assert (Z.lor (Z.land pi 255) (Z.shiftl (Z.shiftr pi 8) 8) = pi) as -> by (rewrite lor_shift_add by (rewrite ?land_255; clia); rewrite land_255, Z.shiftr_div_pow2 by lia; clia).
  assert (Z.lor (u8 (pieces (pdo_size_bytes e))) (Z.shiftl sm 8) = pieces (pdo_size_bytes e) + 256 * sm) as ->
    by (rewrite lor_shift_add by clia; unfold u8; rewrite Z.mod_small by lia; lia).
  done.
Qed.
Lemma dict_bytes_size e : 0 <= pdo_size_bytes e <= 1984 -> dict_bytes e = pdo_size_bytes e.
Proof.
  intros Hs. unfold dict_bytes. rewrite dict_entries_pieces by done. set (size := pdo_size_bytes e) in *.
  assert (G : forall k, (Z.of_nat k <= pieces size) -> foldr (fun en s => Z.land en 255 / 8 + s) 0
     ((fun i => Z.lor (Z.lor (Z.shiftl 28672 16) (Z.shiftl (i + 1) 8)) (piece size i * 8)) <$> seqZ 0 (Z.of_nat k)) = Z.min size (31 * Z.of_nat k)).
  { intros k. induction k as [|k IH]; intros Hk; [change (seqZ 0 (Z.of_nat 0)) with (@nil Z); cbn [fmap list_fmap foldr]; lia|].
    rewrite seqZ_snoc, fmap_app, foldr_app. cbn [fmap list_fmap foldr].
    pose proof (piece_range size (Z.of_nat k) ltac:(lia)). assert (Hp : pieces size <= 64) by (unfold pieces; clia).
    destruct (dict_entry_fields 28672 (Z.of_nat k) (piece size (Z.of_nat k)) ltac:(auto) ltac:(lia) ltac:(lia)) as (_ & _ & ->).
    rewrite Z.div_mul by lia.
    assert (A : forall l v, foldr (fun en s => Z.land en 255 / 8 + s) v l = foldr (fun en s => Z.land en 255 / 8 + s) 0 l + v)
      by (induction l as [|y l IHl]; intros v; cbn; [lia|rewrite IHl; lia]).
    rewrite A, IH by lia. unfold piece, pieces in *. clia. }
  specialize (G (Z.to_nat (pieces size))). assert (Hp : 0 <= pieces size) by (unfold pieces; clia). rewrite Z2Nat.id in G by done.
  rewrite G by lia. unfold pieces. clia.
Qed.

Lemma pdo_cat_length e type pi sm ei : 0 <= pdo_size_bytes e <= 1984 -> Z.of_nat (length (cat type (sii_pdo_body pi sm (dict_entries e ei)))) <= 262.
Proof.
  intros. unfold cat. cbn [length]. rewrite !Nat2Z.inj_succ, sii_pdo_body_length, dict_entries_pieces, length_fmap, length_seqZ by lia. unfold pieces. clia.
Qed.

(** The EEPROM image and the object dictionary describe the same process
    data.  For every process data size the memory has room for (up to 1920 bytes),
    with or without Complete Access, the generated image fits, carries all its
    categories in order with exact sizes, and lists in its two PDO categories
    exactly the entries that the CoE dictionary of the node gives at 0x1A00 and
    0x1600; their sizes add up to the process data size. *)
Theorem sii_matches_dictionary (e : esc_t) :
  0 <= pdo_size_bytes e <= 1920 ->
  sii_words (coe_ca e) (pdo_size_bytes e) = sii_reference e /\ dict_bytes e = pdo_size_bytes e /\ Z.of_nat (length (sii_reference e)) <= 1024.
Proof.
  intros Hs. split; [|split; [apply dict_bytes_size; lia|]].
  - unfold sii_words, sii_reference. cbv zeta. set (pre := wr _ _ _ ++ _). set (size := pdo_size_bytes e) in *.
    assert (P : pre = [128; 0; 0; 0; 0; 0; 0; 233; 1177; 0; 1; 0; 1; 0; 0; 0] ++ replicate 8 0 ++ [4096; 128; 4224; 128; 4] ++ replicate 35 0) by (vm_compute; reflexivity).
    clearbody pre. assert (Lp : length pre = 64%nat) by (rewrite P; reflexivity).
    set (pg := if coe_ca e then _ else pre). set (gen := if coe_ca e then cat _ _ else _).
    assert (Pg : pg = pre ++ gen /\ (length gen <= 18)%nat).
    { unfold pg, gen. destruct (coe_ca e); [|rewrite app_nil_r; split; [done|cbn; lia]]. unfold append_general_category. rewrite Lp. rewrite (proj2 (Z.ltb_ge _ _)) by lia. split; [reflexivity|cbn [cat length app replicate]; lia]. }
    destruct Pg as [Pg Lg].
    assert (Ps : append_sm_category pg 1024 size = pg ++ cat 41 [4096; 128; 38; 1; 4224; 128; 34; 1; 4352; size; 100; if size =? 0 then 0 else 1; 4352 + (size + 7) / 8 * 8; size; 32; if size =? 0 then 0 else 1]).
    { unfold append_sm_category. cbv zeta. rewrite Pg, length_app, Lp. rewrite (proj2 (Z.ltb_ge _ _)) by lia.
      replace (u16 (4352 + (size + 8 - 1) / 8 * 8)) with (4352 + (size + 7) / 8 * 8) by clia. done. }
    rewrite Ps. set (sm := cat 41 _). assert (Lsm : length sm = 18%nat) by done.
    assert (Lps : Z.of_nat (length (pg ++ sm)) <= 100) by (rewrite Pg, !length_app, Lp, Lsm; lia).
    destruct (Z.eqb_spec size 0) as [Z0|Z0].
    + unfold append_pdo_category. rewrite Z0. cbn [Z.eqb]. rewrite (proj2 (Z.ltb_lt _ _)) by lia. rewrite Pg, P, <- !app_assoc. done.
    + rewrite (pdo_category_words e _ _ 50 6656 3 24576) by (done || clia || lia).
      set (tx := cat 50 _). assert (Ltx : Z.of_nat (length tx) <= 262) by (apply pdo_cat_length; lia).
      rewrite (pdo_category_words e _ _ 51 5632 2 28672) by (done || clia || (rewrite ?length_app in *; lia)).
      set (rx := cat 51 _). assert (Lrx : Z.of_nat (length rx) <= 262) by (apply pdo_cat_length; lia).
      rewrite (proj2 (Z.ltb_lt _ _)) by (rewrite !length_app in *; lia). rewrite Pg, P, <- !app_assoc. done.
  - unfold sii_reference. cbv zeta. pose proof (pdo_cat_length e 50 6656 3 24576 ltac:(lia)). pose proof (pdo_cat_length e 51 5632 2 28672 ltac:(lia)).
    rewrite !length_app, !length_replicate. destruct (coe_ca e), (pdo_size_bytes e =? 0); rewrite ?length_app;
      try match goal with |- context [length (cat 30 ?l)] => change (length (cat 30 l)) with 18%nat end;
      match goal with |- context [length (cat 41 ?l)] => change (length (cat 41 l)) with 18%nat end; cbn [length]; lia.
Qed.

(** ** Witnesses *)

Lemma demo_al : node_al demo_node.
Proof. split; [by apply (nw_len _ demo_node_wf)|done|by split]. Qed.
Lemma demo_fmmu_bytes : bytes (regs demo_node).
Proof. apply (nw_bytes _ demo_node_wf). Qed.
Definition demo_dgs : list dgram := [mkDg CMD_BRD 1 0 304 16 0 [0; 0] 0; mkDg CMD_APRD 2 65535 16 0 0 [0; 0] 0].
Lemma process_frame_refines_witness :
  process_frame demo_dc 2 [demo_node; demo_node] (enc_frame (replicate 12 255) 2 demo_dgs [0; 0; 0]) =
  ((run_dgs demo_dc 2 [demo_node; demo_node] demo_dgs).1, enc_frame (replicate 12 255) 2 (run_dgs demo_dc 2 [demo_node; demo_node] demo_dgs).2 [0; 0; 0]).
Proof.
  apply process_frame_refines; [constructor; [exact demo_al|constructor; [exact demo_al|constructor]]|done|lia| |vm_compute; discriminate].
  unfold demo_dgs. repeat (constructor; [unfold dg_wf; cbn [dg_adp dg_ado dg_wkc dg_flags dg_data]; split_and!; first [clia|unfold len; cbn [length]; lia]|]). constructor.
Defined.
Lemma fmmu_paths_agree_witness :
  let '(e1, d1, f1) := fmmu_apply_bits demo_dc 1 demo_node 4096 [1; 2; 3; 4] (4097 * 8) ((4097 + 2 - 1) * 8 + 7 + 1) (4352 * 8) true true in
  let '(e2, d2, f2) := fmmu_apply_bytes demo_dc 1 demo_node 4096 [1; 2; 3; 4] 4097 2 4352 true true in
  e1 <| got_valid_outputs := true |> = e2 <| got_valid_outputs := true |> /\ d1 = d2 /\ f1 = f2.
Proof.
  apply (fmmu_paths_agree demo_dc 1 demo_node 4096 [1; 2; 3; 4] 4097 2 4352 true true demo_al demo_fmmu_bytes);
    first [repeat (constructor; [unfold is_u8; lia|]); constructor|unfold len; cbn [length]; lia].
Defined.
(** The last byte of the logical address space: the byte path sees an empty range. *)
Example fmmu_paths_differ_at_top :
  (fmmu_apply_bits demo_dc 1 demo_node 4294967295 [7] (4294967295 * 8) (4294967295 * 8 + 8) (4352 * 8) false true).2 = (false, true) /\
  (fmmu_apply_bytes demo_dc 1 demo_node 4294967295 [7] 4294967295 1 4352 false true).2 = (false, false).
Proof. split; vm_compute; reflexivity. Qed.
Lemma sii_matches_dictionary_witness : sii_words true 8 = sii_reference demo_node /\ dict_bytes demo_node = 8.
Proof. destruct (sii_matches_dictionary demo_node) as (H1 & H2 & _); [by split|]. split; [exact H1|exact H2]. Defined.
