(* ===== verification/EscFault.v ===== *)
(** * Fault injection and the loop of the soft bus
      (tools/soft_bus/esc_fault.c, soft_bus_main.c)

    The injector stands between the wire and the chain of virtual slaves.
    [esc_fault_frame_begin] decides which nodes see a frame, [esc_fault_frame_end]
    puts the reply into the transmit queue, [esc_fault_pop_due] hands out the
    replies whose time has come; [esc_fault_command] reads one line of the control
    pipe.  [soft_bus_frame] is the body of the receive loop of the program with the
    DC unit and [process_frame] in between, [soft_bus_send] its transmit loop, for
    a bus without virtual drives.  Left out: the log lines, the status report and
    the drive commands, which are a parameter of the command reader. *)
From Stdlib Require Import ZArith Lia Bool Ascii String.
From S2P Require Import Prelude CString EscMem EscTypes EscProfile EscCoe EscDc EscCore.
From stdpp Require Import base list numbers strings.
Open Scope Z_scope.

Notation FAULT_TXQ_LEN := 64%nat (only parsing).
Notation FAULT_FRAME_MAX := 2048%nat (only parsing).
Notation FAULT_REORDER_MAX_NS := 50000000 (only parsing).

Record esc_fault_txq_slot_t := mkSlot { used : bool; held : bool; due_ns : Z; q_seq : Z; q_buf : list Z }.
#[export] Instance eta_slot : Eta esc_fault_txq_slot_t := fun r =>
  mkSlot (used r) (held r) (due_ns r) (q_seq r) (q_buf r).
Record esc_fault_bus_t := mkBus {
  app_seq_offset : Z;
  mute_left : Z; late_left : Z; late_us : Z; dup_left : Z; reorder_left : Z; bad_cable_node : Z; bad_cable_left : Z;
  f_np : Z; f_has_pd : bool; f_drop : bool;
  txq : list esc_fault_txq_slot_t; b_seq : Z;
  rx : Z; tx : Z; muted : Z; bad_cable : Z; late : Z; dup : Z; reordered : Z; reorder_alone : Z;
  mbx_lost : Z; mbx_dup : Z; no_link : Z; q_overflow : Z; wd_drops : Z
}.
#[export] Instance eta_bus : Eta esc_fault_bus_t := fun r =>
  mkBus (app_seq_offset r) (mute_left r) (late_left r) (late_us r) (dup_left r) (reorder_left r) (bad_cable_node r)
    (bad_cable_left r) (f_np r) (f_has_pd r) (f_drop r) (txq r) (b_seq r)
    (rx r) (tx r) (muted r) (bad_cable r) (late r) (dup r) (reordered r) (reorder_alone r)
    (mbx_lost r) (mbx_dup r) (no_link r) (q_overflow r) (wd_drops r).

Definition free_slot : esc_fault_txq_slot_t := mkSlot false false 0 0 [].
Definition esc_fault_init (off : Z) : esc_fault_bus_t :=
  mkBus off 0 0 0 0 0 (-1) 0 0 false false (replicate FAULT_TXQ_LEN free_slot) 0 0 0 0 0 0 0 0 0 0 0 0 0 0.

(** First powered-off node, or the length of the chain. *)
Fixpoint reachable (chain : list esc_t) : Z :=
  match chain with
  | [] => 0
  | e :: chain => if powered_off (fault e) then 0 else 1 + reachable chain
  end.

(** ** Transmit queue *)

(** The mark of a returning frame: the locally administered bit of its source address. *)
Definition mark_reply (buf : list Z) : list Z := if 12 <=? len buf then wr buf 6 (bits_set (rd buf 6) 2) else buf.
(** Slot of the new entry; [None]: no room. *)
Definition txq_put (f : esc_fault_bus_t) (buf : list Z) (due : Z) : esc_fault_bus_t * option nat :=
  match list_find (fun s => used s = false) (txq f) with
  | Some (i, _) =>
      (f <| txq ::= <[i := mkSlot true false due (b_seq f) (mark_reply (take FAULT_FRAME_MAX buf))]> |>
         <| b_seq ::= fun n => u64 (n + 1) |>, Some i)
  | None => (f <| q_overflow ::= fun n => u64 (n + 1) |>, None)
  end.
Definition txq_held (f : esc_fault_bus_t) : option nat := fst <$> list_find (fun s => used s && held s = true) (txq f).

(** [s] goes out before [b]. *)
Definition slot_before (s b : esc_fault_txq_slot_t) : bool :=
  (due_ns s <? due_ns b) || ((due_ns s =? due_ns b) && (q_seq s <? q_seq b)).
Definition slot_due (now : Z) (s : esc_fault_txq_slot_t) : bool := used s && (due_ns s <=? now).
Fixpoint best_due (now : Z) (i : nat) (l : list esc_fault_txq_slot_t) (best : option (nat * esc_fault_txq_slot_t))
  : option (nat * esc_fault_txq_slot_t) :=
  match l with
  | [] => best
  | s :: l =>
      let best := if slot_due now s
                  then match best with None => Some (i, s) | Some (_, b) => if slot_before s b then Some (i, s) else best end
                  else best in
      best_due now (S i) l best
  end.
Definition esc_fault_pop_due (f : esc_fault_bus_t) (now : Z) : esc_fault_bus_t * option (list Z) :=
  match best_due now 0 (txq f) None with
  | None => (f, None)
  | Some (i, s) =>
      let f := if held s then f <| reorder_alone ::= fun n => u64 (n + 1) |> else f in
      (f <| txq ::= alter (fun s => s <| used := false |> <| held := false |>) i |> <| tx ::= fun n => u64 (n + 1) |>,
       Some (q_buf s))
  end.
Definition esc_fault_next_due (f : esc_fault_bus_t) : Z :=
  foldl (fun m s => if used s && ((m =? 0) || (due_ns s <? m)) then due_ns s else m) 0 (txq f).

(** ** Frame hooks *)

Notation REG_ERR_INVALID_P0 := 768 (only parsing).
Notation REG_ERR_RX_P0 := 769 (only parsing).
Notation REG_ERR_FWD_P0 := 776 (only parsing).
Notation REG_ERR_FWD_P1 := 777 (only parsing).
Notation REG_LOST_LINK_P0 := 784 (only parsing).
Notation REG_LOST_LINK_P1 := 785 (only parsing).

(** What one corrupted frame on the cable into node [k] does to node [i]. *)
Definition bad_cable_counters (n_reach k i : Z) (e : esc_t) : esc_t :=
  let e := if i =? k then esc_cnt_inc (esc_cnt_inc (esc_cnt_inc e REG_ERR_INVALID_P0) REG_ERR_RX_P0) REG_ERR_ECAT_PU else e in
  let e := if (k + 1 <=? i) && (i <? n_reach) then esc_cnt_inc (esc_cnt_inc e REG_ERR_FWD_P0) REG_ERR_ECAT_PU else e in
  if i <? n_reach - 1 then esc_cnt_inc e REG_ERR_FWD_P1 else e.
Definition apply_bad_cable_counters (chain : list esc_t) (n_reach k : Z) : list esc_t :=
  imap (fun i e => bad_cable_counters n_reach k (Z.of_nat i) e) chain.

Definition post_emcy (e : esc_t) : esc_t :=
  let x := fault e in
  if negb (emcy_left x =? 0) && (2 <=? al_state e) && negb (s_active (coe_session e))
  then
    let '(e, posted) := coe_post_emcy e (emcy_code x) (emcy_reg x) [u8 (emcy_seq x); u8 (Z.shiftr (emcy_seq x) 8); 165; 90; 195] in
    if posted : bool
    then e <| fault ::= fun x => x <| emcy_left ::= fun n => u32 (n - 1) |> <| emcy_seq ::= fun n => u16 (n + 1) |>
                                   <| emcy_posted ::= fun n => u64 (n + 1) |> |>
    else e
  else e.
Definition release_held (now : Z) (e : esc_t) : esc_t :=
  if mbx_held (fault e) && (mbx_release_ns (fault e) <=? now)
  then mailbox_full (e <| fault ::= fun x => x <| mbx_held := false |> |>) else e.
(** Housekeeping of one node: the node, a response posted twice, a watchdog that dropped it. *)
Definition node_tick (now : Z) (e : esc_t) : esc_t * Z * Z :=
  let e := e <| fault ::= fun x => x <| skip_logical := false |> <| stale_frame := false |> <| sm1_consumed := false |> |> in
  if powered_off (fault e) then (e, 0, 0)
  else
    let again := mbx_dup_pending (fault e) in
    let e := if again then mailbox_full (e <| fault ::= fun x => x <| mbx_dup_pending := false |> |>) else e in
    let '(e, dropped) := esc_wd_check (release_held now (post_emcy e)) now in
    (e, b2z again, b2z dropped).
Fixpoint tick_nodes (now : Z) (chain : list esc_t) : list esc_t * Z * Z :=
  match chain with
  | [] => ([], 0, 0)
  | e :: chain =>
      let '(e, a, d) := node_tick now e in
      let '(chain, a', d') := tick_nodes now chain in (e :: chain, a + a', d + d')
  end.
(** A process data frame uses up one of the injections of a node. *)
Definition node_pd (e : esc_t) : esc_t :=
  let e := if negb (wkc_short_left (fault e) =? 0)
           then e <| fault ::= fun x => x <| skip_logical := true |> <| wkc_short_left ::= fun n => u32 (n - 1) |> |> else e in
  if negb (stale_left (fault e) =? 0)
  then e <| fault ::= fun x => x <| stale_frame := true |> <| stale_left ::= fun n => u32 (n - 1) |> |> else e.

(** Where the frame gets: the number of nodes that process it is the last component. *)
Definition frame_route (f : esc_fault_bus_t) (chain : list esc_t) : esc_fault_bus_t * list esc_t * Z :=
  if negb (mute_left f =? 0)
  then (f <| muted ::= fun n => u64 (n + 1) |> <| mute_left ::= fun n => n - 1 |> <| f_drop := true |>, chain, 0)
  else
    let n_reach := reachable chain in
    if n_reach =? 0 then (f <| no_link ::= fun n => u64 (n + 1) |> <| f_drop := true |>, chain, 0)
    else
      let k := bad_cable_node f in
      let bad := negb (bad_cable_left f =? 0) && (0 <=? k) && (k <? n_reach) in
      let chain := if bad then apply_bad_cable_counters chain n_reach k else chain in
      let f := if bad then f <| bad_cable ::= fun n => u64 (n + 1) |> <| f_drop := true |> <| bad_cable_left ::= fun n => n - 1 |> else f in
      let np := if bad then k else n_reach in
      let chain := if f_has_pd f then (node_pd <$> take (Z.to_nat np) chain) ++ drop (Z.to_nat np) chain else chain in
      (f <| f_np := np |>, chain, np).
Definition esc_fault_frame_begin (f : esc_fault_bus_t) (chain : list esc_t) (buf : list Z) (now : Z)
  : esc_fault_bus_t * list esc_t * Z :=
  let '(chain, again, dropped) := tick_nodes now chain in
  frame_route
    (f <| rx ::= fun n => u64 (n + 1) |> <| f_drop := false |> <| f_np := 0 |> <| f_has_pd := esc_dc_frame_has_pd buf |>
       <| mbx_dup ::= fun n => u64 (n + again) |> <| wd_drops ::= fun n => u64 (n + dropped) |>) chain.

Definition app_seq_step (f : esc_fault_bus_t) (e : esc_t) : esc_t :=
  let off := app_seq_offset f in
  let sm3 := sm_at 3 in
  let start := rd_le16 (regs e) (sm3 + SM_OFF_PHYS_START) in
  let smlen := rd_le16 (regs e) (sm3 + SM_OFF_LENGTH) in
  if (off <? 0) || stale_frame (fault e) then e
  else if negb (al_state e =? ESM_SAFEOP) && negb (al_state e =? ESM_OP) then e
  else if negb (has_bit (reg e (sm3 + SM_OFF_ACTIVATE)) 1) then e
  else if smlen <? off + 2 then e
  else if ESC_REG_SPACE_SIZE <? start + smlen then e
  else
    let e := e <| fault ::= fun x => x <| app_seq ::= fun n => u16 (n + 1) |> |> in
    e <| regs ::= fun r => wr_le16 r (start + off) (app_seq (fault e)) |>.

Fixpoint end_nodes (f : esc_fault_bus_t) (chain : list esc_t) : esc_fault_bus_t * list esc_t :=
  match chain with
  | [] => (f, [])
  | e :: chain =>
      let e := if f_has_pd f then app_seq_step f e else e in
      let e := if sm1_consumed (fault e) && mbx_dup_armed (fault e)
               then e <| fault ::= fun x => x <| mbx_dup_armed := false |> <| mbx_dup_pending := true |> |> else e in
      let '(f, e) := if sm1_consumed (fault e) && mbx_lose_armed (fault e) && negb (f_drop f)
                     then (f <| mbx_lost ::= fun n => u64 (n + 1) |> <| f_drop := true |>,
                           e <| fault ::= fun x => x <| mbx_lose_armed := false |> |>)
                     else (f, e) in
      let '(f, chain) := end_nodes f chain in (f, e :: chain)
  end.
(** The reply goes into the queue, late, held back or twice. *)
Definition queue_reply (f : esc_fault_bus_t) (buf : list Z) (now : Z) : esc_fault_bus_t :=
  let is_late := negb (late_left f =? 0) in
  let due := if is_late then u64 (now + late_us f * 1000) else now in
  let f := if is_late then f <| late ::= fun n => u64 (n + 1) |> <| late_left ::= fun n => n - 1 |> else f in
  let f :=
    match txq_held f with
    | Some h =>
        let f := fst (txq_put f buf due) in
        f <| txq ::= alter (fun s => s <| held := false |> <| due_ns := due |> <| q_seq := b_seq f |>) h |>
          <| b_seq ::= fun n => u64 (n + 1) |> <| reordered ::= fun n => u64 (n + 1) |>
    | None =>
        if negb (reorder_left f =? 0) then
          let '(f, s) := txq_put f buf (u64 (now + FAULT_REORDER_MAX_NS)) in
          let f := match s with Some i => f <| txq ::= alter (fun s => s <| held := true |>) i |> | None => f end in
          f <| reorder_left ::= fun n => n - 1 |>
        else fst (txq_put f buf due)
    end in
  if negb (dup_left f =? 0)
  then (fst (txq_put f buf due)) <| dup ::= fun n => u64 (n + 1) |> <| dup_left ::= fun n => n - 1 |>
  else f.
Definition esc_fault_frame_end (f : esc_fault_bus_t) (chain : list esc_t) (buf : list Z) (now : Z) : esc_fault_bus_t * list esc_t :=
  let np := Z.to_nat (f_np f) in
  let '(f, nodes) := end_nodes f (take np chain) in
  (if f_drop f then f else queue_reply f buf now, nodes ++ drop np chain).

(** ** Commands *)

Definition command_argv (line : str) : list str := take 6 (tokens [] (before_hash (take 255 line))).

Definition parse_u (s : str) : option Z := match strtoul 0 s with Some (v, _, []) => Some v | _ => None end.
(** [strtoul(s, NULL, base)] and [atoi(s)]: 0 when there is nothing to convert. *)
Definition num_or_0 (base : Z) (s : str) : Z := match strtoul base s with Some (v, _, _) => v | None => 0 end.
Definition atoi (s : str) : Z := match strtol 10 s with Some (v, _, _) => i32 v | None => 0 end.

Definition coe_od_zero : coe_od_t := mkOd 0 0 0 (replicate 200 0) (replicate 400 0) 0 [0; 0] [0; 0] 0.
Definition esc_zero : esc_t :=
  mkEsc (replicate 8192 0) 0 0 false 0 0 false false (replicate 1024 0) 0 coe_od_zero coe_session_zero dc_zero fault_zero
    (mkWd 0 0 false false 0) 0 false false 0 0 0 0 None (mkPst [] false) false.

Section commands.
Context (g_cfg : esc_dc_cfg_t).
(** Commands of the virtual drive (esc_cia402.c). *)
Context (drv_command : list esc_t -> list str -> list esc_t * Z).

(** The EEPROM image of the profile was built when the node was attached, so it is built again. *)
Definition fresh_node (e : esc_t) (k : Z) : esc_t :=
  let e1 := esc_init esc_zero (u8 k) (pdo_size_bytes e) in
  let e1 := match prof e with
            | Some p => default e1 (esc_prof_attach (e1 <| prof_st := prof_st e |>) p)
            | None => e1
            end in
  esc_dc_node_reset g_cfg (e1 <| wd ::= fun w => w <| react := react (wd e) |> |>) k.
Definition node_power_on (chain : list esc_t) (k : nat) : list esc_t :=
  esc_chain_wire (alter (fun e => fresh_node e (Z.of_nat k)) k chain).

(** State of the bus after a command; [None] is the answer -1. *)
Definition command_result : Type := option (esc_fault_bus_t * list esc_t).
Definition arg (args : list str) (i : nat) : str := default [] (args !! i).
Definition need_node (chain : list esc_t) (s : str) : option nat :=
  a ← parse_u s; if a <? Z.of_nat (length chain) then Some (Z.to_nat a) else None.
Definition set_fault (g : esc_node_fault_t -> esc_node_fault_t) (e : esc_t) : esc_t := e <| fault ::= g |>.

Section handlers.
Context (f : esc_fault_bus_t) (chain : list esc_t) (args : list str).

Definition cmd_mute : command_result := b ← parse_u (arg args 0); Some (f <| mute_left := u32 b |>, chain).
Definition cmd_wkc_short : command_result :=
  k ← need_node chain (arg args 0); b ← parse_u (arg args 1);
  Some (f, alter (set_fault (fun x => x <| wkc_short_left := u32 b |>)) k chain).
Definition cmd_stale : command_result :=
  k ← need_node chain (arg args 0); b ← parse_u (arg args 1);
  Some (f, alter (set_fault (fun x => x <| stale_left := u32 b |>)) k chain).
Definition local_error (code : Z) (e : esc_t) : esc_t :=
  let cur := al_state e in
  let nxt := if (cur =? ESM_OP) || (cur =? ESM_SAFEOP) then ESM_SAFEOP else cur in
  let e := e <| regs ::= fun r => wr_le16 (wr_le16 r REG_AL_STATUS (Z.lor nxt 16)) REG_AL_STATUS_CODE (u16 code) |> in
  if nxt =? ESM_SAFEOP then e <| got_valid_outputs := false |> else e.
Definition cmd_safeop : command_result :=
  k ← need_node chain (arg args 0); b ← parse_u (arg args 1); Some (f, alter (local_error b) k chain).
Definition cmd_bad_cable : command_result :=
  k ← need_node chain (arg args 0); b ← parse_u (arg args 1);
  Some (f <| bad_cable_node := Z.of_nat k |> <| bad_cable_left := u32 b |>, chain).
Definition cmd_late : command_result :=
  a ← parse_u (arg args 0); b ← parse_u (arg args 1); Some (f <| late_us := u32 a |> <| late_left := u32 b |>, chain).
Definition cmd_dup : command_result := b ← parse_u (arg args 0); Some (f <| dup_left := u32 b |>, chain).
Definition cmd_reorder : command_result := b ← parse_u (arg args 0); Some (f <| reorder_left := u32 b |>, chain).

Definition lost_link (k : nat) (r : Z) (chain : list esc_t) : list esc_t :=
  alter (fun e => if powered_off (fault e) then e else esc_cnt_inc e r) k chain.
Definition power_off (chain : list esc_t) (k : nat) : list esc_t :=
  let chain := alter (set_fault (fun x => x <| powered_off := true |>)) k chain in
  let chain := match k with O => chain | S j => lost_link j REG_LOST_LINK_P1 chain end in
  esc_chain_wire (lost_link (S k) REG_LOST_LINK_P0 chain).
Definition cmd_drop_node : command_result :=
  k ← need_node chain (arg args 0);
  Some (f, if off_at chain (Z.of_nat k) then chain else power_off chain k).
Definition cmd_restore_node : command_result :=
  k ← need_node chain (arg args 0);
  Some (f, if off_at chain (Z.of_nat k) then node_power_on chain k else chain).

Definition cmd_mbx (repeat_ : bool) : command_result :=
  k ← (match args with [] => Some 0%nat | s :: _ => need_node chain s end);
  Some (f, alter (set_fault (fun x => if repeat_ then x <| mbx_lose_armed := true |> else x <| mbx_dup_armed := true |>)) k chain).
Definition cmd_coe_delay : command_result :=
  let ms := atoi (arg args 1) in
  let slow := set_fault (fun x => x <| coe_delay_ms := ms |>) in
  if ms <? 0 then None
  else if streq (arg args 0) (s_ "all") then Some (f, slow <$> chain)
  else k ← need_node chain (arg args 0); Some (f, alter slow k chain).
Definition reject (code tst : Z) (sticky : bool) (e : esc_t) : esc_t :=
  set_fault (fun x => x <| reject_al_code := code |> <| reject_al_state := tst |> <| reject_al_sticky := sticky |>)
    (e <| force_reject_al := true |>).
Definition cmd_reject_al : command_result :=
  let code := match args !! 1%nat with Some s => num_or_0 0 s | None => 0 end in
  let tst := match args !! 2%nat with Some s => num_or_0 0 s | None => 0 end in
  let sticky := match args !! 3%nat with Some s => streq s (s_ "sticky") | None => false end in
  let known := bool_decide (tst ∈ [0; 1; 2; 4; 8]) in
  if (65535 <? code) || negb known || (bool_decide (length args = 4%nat) && negb sticky) then None
  else if streq (arg args 0) (s_ "all") then Some (f, reject code tst sticky <$> chain)
  else k ← need_node chain (arg args 0); Some (f, alter (reject code tst sticky) k chain).
Definition cmd_pdo_out : command_result := k ← need_node chain (arg args 0); Some (f, chain).

(** The bytes of pairs of hexadecimal digits. *)
Fixpoint hex_pairs (s : str) : list Z :=
  match s with a :: b :: s => u8 (num_or_0 16 [a; b]) :: hex_pairs s | _ => [] end.
(** The inputs from byte [off] on; sizes are 64-bit and wrap, and nothing keeps the
    address inside the registers: a byte outside of them is not stored here. *)
Definition put_inputs (start off : Z) (d : list Z) (e : esc_t) : esc_t :=
  e <| regs ::= fun r => foldl (fun r x => wr r (u64 (start + off + Z.of_nat x.1)) x.2) r (imap pair d) |>.
Definition cmd_pdo_in : command_result :=
  k ← need_node chain (arg args 0); e ← chain !! k;
  let start := rd_le16 (regs e) (sm_at 3 + SM_OFF_PHYS_START) in
  let smlen := rd_le16 (regs e) (sm_at 3 + SM_OFF_LENGTH) in
  let off := num_or_0 0 (arg args 1) in
  let hl := Z.of_nat (length (arg args 2)) in
  if Z.odd hl || (smlen <? u64 (off + hl / 2)) then None
  else Some (f, alter (put_inputs start off (hex_pairs (arg args 2))) k chain).
Definition cmd_emcy : command_result :=
  k ← need_node chain (arg args 0);
  let code := num_or_0 0 (arg args 1) in
  let reg_ := match args !! 2%nat with Some s => num_or_0 0 s | None => 1 end in
  let cnt := match args !! 3%nat with Some s => num_or_0 0 s | None => 1 end in
  if (65535 <? code) || (255 <? reg_) || (cnt =? 0) || (100000 <? cnt) then None
  else Some (f, alter (set_fault (fun x => x <| emcy_code := code |> <| emcy_reg := reg_ |>
                                             <| emcy_left ::= fun n => u32 (n + cnt) |>)) k chain).
Definition clear_node (e : esc_t) : esc_t :=
  set_fault (fun x => x <| wkc_short_left := 0 |> <| stale_left := 0 |> <| mbx_lose_armed := false |> <| mbx_dup_armed := false |>
    <| mbx_dup_pending := false |> <| coe_delay_ms := 0 |> <| emcy_left := 0 |> <| reject_al_code := 0 |>
    <| reject_al_state := 0 |> <| reject_al_sticky := false |>) (e <| force_reject_al := false |>).
Definition cmd_clear : command_result :=
  Some (f <| mute_left := 0 |> <| late_left := 0 |> <| dup_left := 0 |> <| reorder_left := 0 |> <| bad_cable_left := 0 |>,
        clear_node <$> chain).

Definition run_command (cmd : str) : command_result :=
  let cmd_is (s : string) (lo hi : nat) := streq cmd (s_ s) && bool_decide (lo <= length args <= hi)%nat in
  if cmd_is "mute" 1%nat 1%nat then cmd_mute
  else if cmd_is "wkc_short" 2%nat 2%nat then cmd_wkc_short
  else if cmd_is "stale" 2%nat 2%nat then cmd_stale
  else if cmd_is "safeop" 2%nat 2%nat then cmd_safeop
  else if cmd_is "bad_cable" 2%nat 2%nat then cmd_bad_cable
  else if cmd_is "late" 2%nat 2%nat then cmd_late
  else if cmd_is "dup" 1%nat 1%nat then cmd_dup
  else if cmd_is "reorder" 1%nat 1%nat then cmd_reorder
  else if cmd_is "drop_node" 1%nat 1%nat then cmd_drop_node
  else if cmd_is "restore_node" 1%nat 1%nat then cmd_restore_node
  else if cmd_is "mbx_repeat" 0%nat 1%nat then cmd_mbx true
  else if cmd_is "mbx_dup" 0%nat 1%nat then cmd_mbx false
  else if cmd_is "coe_delay" 2%nat 2%nat then cmd_coe_delay
  else if cmd_is "reject_al" 1%nat 4%nat then cmd_reject_al
  else if cmd_is "pdo_out" 1%nat 1%nat then cmd_pdo_out
  else if cmd_is "pdo_in" 3%nat 3%nat then cmd_pdo_in
  else if cmd_is "emcy" 2%nat 4%nat then cmd_emcy
  else if cmd_is "clear" 0%nat 0%nat then cmd_clear
  else if cmd_is "status" 0%nat 0%nat then Some (f, chain)
  else None.
End handlers.

Definition esc_fault_command (f : esc_fault_bus_t) (chain : list esc_t) (line : str) : esc_fault_bus_t * list esc_t * Z :=
  match command_argv line with
  | [] => (f, chain, 0)
  | cmd :: args =>
      if streq (take 4 cmd) (s_ "drv_")
      then let '(chain, r) := drv_command chain (cmd :: args) in (f, chain, r)
      else match run_command f chain args cmd with
           | Some (f, chain) => (f, chain, 0)
           | None => (f, chain, -1)
           end
  end.
End commands.

(** ** The loop of the program *)

Section loop.
Context (g_cfg : esc_dc_cfg_t) (g_n : Z).

(** One received frame: the injector, the statistics of the DC unit and the chain afterwards. *)
Definition soft_bus_frame (f : esc_fault_bus_t) (chain : list esc_t) (st : dc_stats) (buf : list Z) (t_rx : Z)
  : esc_fault_bus_t * list esc_t * dc_stats :=
  if len buf <? 16 then (f, chain, st)
  else
    let '(f, chain, np) := esc_fault_frame_begin f chain buf t_rx in
    let chain := esc_dc_frame_begin g_cfg chain t_rx in
    let '(chain, buf) :=
      if 0 <? np
      then let '(nodes, buf) := process_frame g_cfg g_n (take (Z.to_nat np) chain) buf in (nodes ++ drop (Z.to_nat np) chain, buf)
      else (chain, buf) in
    let '(chain, st) := esc_dc_frame_end g_cfg chain st (if 0 <? np then f_has_pd f else false) in
    let '(f, chain) := esc_fault_frame_end f chain buf t_rx in
    (f, chain, st).
(** Every reply that is due goes out; a pop frees one of the 64 slots. *)
Fixpoint send_loop (fuel : nat) (f : esc_fault_bus_t) (now : Z) : esc_fault_bus_t * list (list Z) :=
  match fuel with
  | O => (f, [])
  | S fuel =>
      match esc_fault_pop_due f now with
      | (f, None) => (f, [])
      | (f, Some b) => let '(f, out) := send_loop fuel f now in (f, b :: out)
      end
  end.
Definition soft_bus_send (f : esc_fault_bus_t) (now : Z) : esc_fault_bus_t * list (list Z) := send_loop 65 f now.
End loop.
