(* ===== verification/EscFaultSpec.v ===== *)
(** * What the fault injector of the soft bus guarantees

    The ledger of the replies: every frame received is answered, still queued, or
    accounted to one reason for not being answered.  The order of the replies.
    A bus without injections behaves as the chain of slaves alone. *)
From Stdlib Require Import ZArith Lia Bool Ascii String.
From S2P Require Import Prelude CString EscMem EscTypes EscProfile EscCoe EscDc EscCore EscFault Diag.
From stdpp Require Import base list numbers strings sorting.
Open Scope Z_scope.

(** ** The ledger *)

Definition queued (f : esc_fault_bus_t) : Z := Z.of_nat (length (filter (fun s => used s = true) (txq f))).
(** Replies that went in, replies that are accounted for. *)
Definition replies_in (f : esc_fault_bus_t) : Z := rx f + dup f.
Definition replies_out (f : esc_fault_bus_t) : Z :=
  tx f + queued f + muted f + no_link f + bad_cable f + mbx_lost f + q_overflow f.
Definition balanced (f : esc_fault_bus_t) : Prop := u64 (replies_in f) = u64 (replies_out f).

(** Counters wrap at 64 bits: they are compared modulo 2^64. *)
Definition eqm (a b : Z) : Prop := u64 a = u64 b.
#[export] Instance eqm_equiv : Equivalence eqm.
Proof. split; unfold eqm; [done|intros ??; done|intros ??? -> ->; done]. Qed.
#[export] Instance eqm_add : Proper (eqm ==> eqm ==> eqm) Z.add.
Proof. intros a b H c d H'. unfold eqm, u64 in *. by rewrite Zplus_mod, H, H', <- Zplus_mod. Qed.
Lemma eqm_u64 a : eqm (u64 a) a.
Proof. unfold eqm, u64. apply Zmod_mod. Qed.
Lemma eqm_cancel a b c : eqm a b -> eqm (a + c) (b + c).
Proof. by intros ->. Qed.

(** The frame in progress still owes a reply. *)
Definition owing (b : bool) (f : esc_fault_bus_t) : Prop := eqm (replies_in f) (replies_out f + b2z b).
Lemma balanced_owing f : balanced f <-> owing false f.
Proof. unfold balanced, owing, eqm. cbn [b2z]. by rewrite Z.add_0_r. Qed.

Lemma queued_insert l i s s' : l !! i = Some s ->
  Z.of_nat (length (filter (fun s => used s = true) (<[i := s']> l))) =
  Z.of_nat (length (filter (fun s => used s = true) l)) - b2z (used s) + b2z (used s').
Proof.
  intros H. rewrite insert_take_drop by (by eapply lookup_lt_Some). rewrite <- (take_drop_middle l i s H) at 3.
  rewrite !filter_app, !length_app, !filter_cons. destruct (used s) eqn:E, (used s') eqn:E'; repeat case_decide; cbn [length b2z]; lia || congruence.
Qed.
Lemma eqm_uncancel a b c : eqm (a + c) (b + c) -> eqm a b.
Proof.
  intros H. replace a with (a + c + (- c)) by lia. rewrite H. apply eq_subrelation; [apply _|lia].
Qed.
(** Solves a congruence of sums whose wraps can be dropped. *)
Ltac sums := rewrite ?eqm_u64; apply eq_subrelation; [apply _|lia].

(** Two injectors with the same ledger. *)
Definition ledger (f : esc_fault_bus_t) : list Z :=
  [rx f; dup f; tx f; queued f; muted f; no_link f; bad_cable f; mbx_lost f; q_overflow f].
Lemma ledger_same f f' : ledger f' = ledger f -> replies_in f' = replies_in f /\ replies_out f' = replies_out f.
Proof. unfold ledger, replies_in, replies_out. intros [=]. split; lia. Qed.
Lemma ledger_owing f f' b : ledger f' = ledger f -> owing b f -> owing b f'.
Proof. intros H%ledger_same. unfold owing. by destruct H as [-> ->]. Qed.
Lemma alter_is_insert {A} (g : A -> A) (l : list A) (i : nat) : alter g i l = match l !! i with Some x => <[i := g x]> l | None => l end.
Proof.
  apply list_eq. intros j. destruct (decide (i = j)) as [->|N].
  - rewrite list_lookup_alter_eq. destruct (l !! j) eqn:E; [|done]. rewrite list_lookup_insert_eq; [done|]. by eapply lookup_lt_Some.
  - rewrite list_lookup_alter_ne by done. destruct (l !! i); [by rewrite list_lookup_insert_ne|done].
Qed.
Lemma queued_alter l i g : (forall s, used (g s) = used s) ->
  length (filter (fun s => used s = true) (alter g i l)) = length (filter (fun s : esc_fault_txq_slot_t => used s = true) l).
Proof.
  intros Hg. rewrite alter_is_insert. destruct (l !! i) as [s|] eqn:E; [|done].
  pose proof (queued_insert l i s (g s) E) as H. rewrite Hg in H. lia.
Qed.

Lemma put_ledger f buf due : let f' := (txq_put f buf due).1 in
  eqm (replies_out f') (replies_out f + 1) /\ replies_in f' = replies_in f.
Proof.
  unfold txq_put. destruct (list_find _ (txq f)) as [[i s]|] eqn:E; cbv zeta; cbn [fst]; (split; [|done]);
    unfold replies_out, queued; cbn [txq upd eta rx tx muted no_link bad_cable mbx_lost q_overflow dup].
  - apply list_find_Some in E as (E & Hu & _).
    rewrite (queued_insert (txq f) i s _ E), Hu. cbn [used b2z]. sums.
  - sums.
Qed.
Lemma put_owing f buf due : owing true f -> owing false (txq_put f buf due).1.
Proof.
  destruct (put_ledger f buf due) as [H1 H2]. unfold owing. rewrite H1, H2. intros ->. cbn [b2z]. sums.
Qed.

(** ** One frame *)

Ltac out_sums := unfold replies_out, queued; cbn [rx dup tx txq muted no_link bad_cable mbx_lost q_overflow upd eta fst]; sums.
(** A reply that is lost and counted is not owed any more. *)
Lemma lost_owing f f' : owing true f -> eqm (replies_out f') (replies_out f + 1) -> replies_in f' = replies_in f -> owing false f'.
Proof. unfold owing. intros H O I. rewrite I, O, H. cbn [b2z]. sums. Qed.
Lemma route_owing f chain : owing true f -> f_drop f = false ->
  let f' := (frame_route f chain).1.1 in owing (negb (f_drop f')) f'.
Proof.
  intros H D. unfold frame_route. cbv zeta.
  destruct (negb (mute_left f =? 0)); [|destruct (reachable chain =? 0); [|destruct (negb (bad_cable_left f =? 0) && _ && _)]]; cbn [fst].
  - apply (lost_owing f _ H); [out_sums|done].
  - apply (lost_owing f _ H); [out_sums|done].
  - apply (lost_owing f _ H); [out_sums|done].
  - change (owing (negb (f_drop f)) (f <| f_np := reachable chain |>)). rewrite D. by eapply ledger_owing; [|exact H].
Qed.
Lemma begin_owing f chain buf now : balanced f ->
  let f' := (esc_fault_frame_begin f chain buf now).1.1 in owing (negb (f_drop f')) f'.
Proof.
  intros H%balanced_owing. unfold esc_fault_frame_begin. destruct (tick_nodes now chain) as [[ch again] dropped].
  apply route_owing; [|done]. unfold owing in *. unfold replies_in, replies_out, queued in *.
  cbn [rx dup tx txq muted no_link bad_cable mbx_lost q_overflow upd eta fst]. rewrite eqm_u64.
  replace (rx f + 1 + dup f) with (rx f + dup f + 1) by lia. rewrite H. cbn [b2z]. sums.
Qed.

Lemma end_nodes_owing f chain : owing (negb (f_drop f)) f ->
  let f' := (end_nodes f chain).1 in owing (negb (f_drop f')) f'.
Proof.
  cbv zeta. revert f. induction chain as [|e chain IH]; intros f H; [done|]. cbn [end_nodes].
  set (e1 := if sm1_consumed _ && mbx_dup_armed _ then _ else _).
  destruct (sm1_consumed (fault e1) && mbx_lose_armed (fault e1) && negb (f_drop f)) eqn:E.
  - specialize (IH (f <| mbx_lost ::= fun n => u64 (n + 1) |> <| f_drop := true |>)).
    destruct (end_nodes _ chain) as [f1 ch]. cbn [fst]. apply IH. apply andb_true_iff in E as [_ Ed%negb_true_iff]. rewrite Ed in H.
    unfold owing, replies_in, replies_out, queued in *; cbn [txq upd eta rx tx muted no_link bad_cable mbx_lost q_overflow dup b2z negb f_drop] in *.
    rewrite H. sums.
  - specialize (IH f H). by destruct (end_nodes f chain).
Qed.
Lemma queue_reply_balanced f buf now : owing true f -> balanced (queue_reply f buf now).
Proof.
  intros H. apply balanced_owing. unfold queue_reply. cbv zeta.
  set (due := if negb (late_left f =? 0) then _ else now). set (f1 := if negb (late_left f =? 0) then _ else f).
  assert (H1 : owing true f1) by (unfold f1; case_if; [eapply ledger_owing; [|exact H]|]; done). clearbody f1 due.
  assert (G : forall f2, owing false f2 -> owing false (if negb (dup_left f2 =? 0)
     then (txq_put f2 buf due).1 <| dup ::= fun n => u64 (n + 1) |> <| dup_left ::= fun n => n - 1 |> else f2)).
  { intros f2 H2. case_if; [|done]. destruct (put_ledger f2 buf due) as [P1 P2].
    destruct (txq_put f2 buf due) as [f3 o]. cbn [fst] in *.
    unfold owing in *. change (replies_out (f3 <| dup ::= _ |> <| dup_left ::= _ |>)) with (replies_out f3). rewrite P1.
    unfold replies_in in *. cbn [rx dup upd eta]. rewrite eqm_u64. cbn [b2z] in *.
    replace (rx f3 + (dup f3 + 1)) with (rx f2 + dup f2 + 1) by lia. rewrite H2. sums. }
  apply G. destruct (txq_held f1) as [h|].
  - pose proof (put_owing f1 buf due H1) as P. destruct (txq_put f1 buf due) as [f3 o]. cbn [fst] in *.
    eapply ledger_owing; [|exact P]. unfold ledger, queued. cbn [rx dup tx txq muted no_link bad_cable mbx_lost q_overflow upd eta].
    by rewrite queued_alter.
  - case_if; [|by apply put_owing]. pose proof (put_owing f1 buf (u64 (now + 50000000)) H1) as P.
    destruct (txq_put f1 buf _) as [f3 o]. cbn [fst] in *. eapply ledger_owing; [|exact P].
    destruct o as [i|]; [|done]. unfold ledger, queued. cbn [rx dup tx txq muted no_link bad_cable mbx_lost q_overflow upd eta].
    by rewrite queued_alter.
Qed.
Lemma end_balanced f chain buf now : owing (negb (f_drop f)) f -> balanced (esc_fault_frame_end f chain buf now).1.
Proof.
  intros H. unfold esc_fault_frame_end. pose proof (end_nodes_owing f (take (Z.to_nat (f_np f)) chain) H) as E. cbv zeta in E.
  destruct (end_nodes _ _) as [f1 nodes]. cbn [fst] in *. destruct (f_drop f1); [by apply balanced_owing|by apply queue_reply_balanced].
Qed.

(** ** The queue hands out the earliest reply *)

(** [a] goes out no later than [b]. *)
Definition key_le (a b : esc_fault_txq_slot_t) : Prop :=
  due_ns a < due_ns b \/ due_ns a = due_ns b /\ q_seq a <= q_seq b.
Lemma slot_before_false a b : slot_before a b = false <-> key_le b a.
Proof. unfold slot_before, key_le. rewrite orb_false_iff, andb_false_iff, Z.ltb_ge, Z.eqb_neq, Z.ltb_ge. lia. Qed.
#[export] Instance key_le_preorder : PreOrder key_le.
Proof. split; unfold key_le; [intros ?; lia|intros ???; lia]. Qed.

Lemma best_due_some now i l best j s : best_due now i l best = Some (j, s) ->
  (best = Some (j, s) \/ ((i <= j)%nat /\ l !! (j - i)%nat = Some s /\ slot_due now s = true)) /\
  (forall b, snd <$> best = Some b -> key_le s b) /\
  (forall k x, l !! k = Some x -> slot_due now x = true -> key_le s x).
Proof.
  revert i best. induction l as [|x l IH]; intros i best; cbn [best_due].
  { intros ->. split_and!; [by left| |done]. intros b [=<-]. done. }
  set (b1 := if slot_due now x then _ else best). intros H. apply IH in H as (H1 & H2 & H3).
  assert (B : (forall b, snd <$> best = Some b -> exists c, snd <$> b1 = Some c /\ key_le c b) /\
              (slot_due now x = true -> exists c, snd <$> b1 = Some c /\ key_le c x) /\
              (b1 = best \/ b1 = Some (i, x) /\ slot_due now x = true)).
  { unfold b1. destruct (slot_due now x) eqn:D; [|split_and!; [intros b Hb; by exists b|done|by left]].
    destruct best as [[jb b]|]; [|split_and!; [done|intros _; by exists x|by right]].
    destruct (slot_before x b) eqn:S.
    - assert (key_le x b) by (unfold slot_before in S; unfold key_le; bprop; lia).
      split_and!; [|intros _; by exists x|by right]. intros c [=<-]. by exists x.
    - apply slot_before_false in S. split_and!; [intros c [=<-]; by exists b|intros _; by exists b|by left]. }
  destruct B as (B1 & B2 & B3). split_and!.
  - destruct H1 as [E|(L & E & D)].
    + destruct B3 as [->|[B3 D]]; [by left|]. rewrite E in B3. injection B3 as -> ->. right.
      by rewrite Nat.sub_diag.
    + right. split_and!; [lia| |done]. replace (j - i)%nat with (S (j - S i)) by lia. done.
  - intros b Hb. destruct (B1 b Hb) as (c & Hc & Hle). etransitivity; [by apply H2|done].
  - intros [|k] y Hy D; [injection Hy as ->|by eapply H3].
    destruct (B2 D) as (c & Hc & Hle). etransitivity; [by apply H2|done].
Qed.
Lemma best_due_none now i l best : best_due now i l best = None -> best = None /\ Forall (fun s => slot_due now s = false) l.
Proof.
  revert i best. induction l as [|x l IH]; intros i best H; cbn [best_due] in H; [done|].
  apply IH in H as [Hb HF]. destruct (slot_due now x) eqn:D; [|auto].
  destruct best as [[? b]|]; [destruct (slot_before x b)|]; done.
Qed.

(** What a pop does to the slots. *)
Lemma pop_spec f now : match esc_fault_pop_due f now with
  | (f', None) => f' = f /\ Forall (fun s => slot_due now s = false) (txq f)
  | (f', Some b) => exists i s, txq f !! i = Some s /\ slot_due now s = true /\ b = q_buf s /\
      txq f' = <[i := s <| used := false |> <| held := false |>]> (txq f) /\
      (forall k x, txq f !! k = Some x -> slot_due now x = true -> key_le s x) /\
      eqm (tx f') (tx f + 1) /\ ledger (f' <| tx := 0 |> <| txq := [] |>) = ledger (f <| tx := 0 |> <| txq := [] |>)
  end.
Proof.
  unfold esc_fault_pop_due. destruct (best_due now 0 (txq f) None) as [[i s]|] eqn:E.
  - apply best_due_some in E as ([E|(_ & E & D)] & _ & M); [done|]. rewrite Nat.sub_0_r in E.
    exists i, s. split; [exact E|]. split; [exact D|]. split; [reflexivity|]. split; [|split; [exact M|split]].
    + destruct (held s); cbn [txq upd eta]; by rewrite alter_is_insert, E.
    + destruct (held s); cbn [tx upd eta]; apply eqm_u64.
    + destruct (held s); reflexivity.
  - apply best_due_none in E as [_ E]. done.
Qed.
Lemma pop_balanced f now : balanced f -> balanced (esc_fault_pop_due f now).1.
Proof.
  intros H%balanced_owing. apply balanced_owing. pose proof (pop_spec f now) as P.
  destruct (esc_fault_pop_due f now) as [f' [b|]]; cbn [fst]; [|by destruct P as [-> _]].
  destruct P as (i & s & E & D & _ & Q & _ & T & L). unfold ledger in L. cbn [rx dup tx txq muted no_link bad_cable mbx_lost q_overflow upd eta queued] in L.
  injection L as L1 L2 L3 L4 L5 L6 L7. unfold owing, replies_in, replies_out, queued in *.
  unfold slot_due in D. apply andb_true_iff in D as [Du _].
  rewrite Q, (queued_insert _ _ _ _ E), Du, L1, L2, L3, L4, L5, L6, L7, H. cbn [used upd eta b2z]. rewrite T. sums.
Qed.

(** The replies that are due, as they lie in the queue. *)
Definition due_slots (now : Z) (f : esc_fault_bus_t) : list esc_fault_txq_slot_t := filter (fun s => slot_due now s = true) (txq f).

Lemma due_insert now l i s s' : l !! i = Some s -> slot_due now s = true -> slot_due now s' = false ->
  filter (fun s => slot_due now s = true) l ≡ₚ s :: filter (fun s => slot_due now s = true) (<[i := s']> l).
Proof.
  intros H D D'. rewrite insert_take_drop by (by eapply lookup_lt_Some). rewrite <- (take_drop_middle l i s H) at 1.
  rewrite !filter_app, !filter_cons, decide_True, decide_False by congruence. symmetry. apply Permutation_middle.
Qed.
Lemma due_none now l : Forall (fun s => slot_due now s = false) l -> filter (fun s => slot_due now s = true) l = [].
Proof. induction 1 as [|x l Hx _ IH]; [done|]. rewrite filter_cons, decide_False by congruence. done. Qed.

Lemma send_loop_spec fuel f now : (length (due_slots now f) < fuel)%nat ->
  let '(f', out) := send_loop fuel f now in
  exists l, out = q_buf <$> l /\ l ≡ₚ due_slots now f /\ StronglySorted key_le l /\ due_slots now f' = [] /\
    length (txq f') = length (txq f) /\
    (forall i s, txq f !! i = Some s -> slot_due now s = false -> txq f' !! i = Some s).
Proof.
  revert f. induction fuel as [|fuel IH]; intros f Hl; [lia|]. cbn [send_loop]. pose proof (pop_spec f now) as P.
  destruct (esc_fault_pop_due f now) as [f1 [b|]].
  - destruct P as (i & s & E & D & -> & Q & M & _). set (s' := s <| used := false |> <| held := false |>) in *.
    pose proof (due_insert now (txq f) i s s' E D eq_refl) as Hp. unfold due_slots in *. rewrite <- Q in Hp.
    specialize (IH f1). apply Permutation_length in Hp as Hlen. cbn [length] in Hlen.
    destruct (send_loop fuel f1 now) as [f2 out]. destruct (IH ltac:(lia)) as (l & -> & Hl' & Hs & He & Hn & Hk).
    exists (s :: l). split_and!; [done|by rewrite Hp, Hl'| |done|by rewrite Hn, Q, length_insert|].
    + constructor; [done|]. apply Forall_forall. intros x Hx. rewrite Hl' in Hx.
      assert (Hx' : x ∈ filter (fun s => slot_due now s = true) (txq f)) by (rewrite Hp; by right).
      apply list_elem_of_filter in Hx' as [Dx Hx']. apply list_elem_of_lookup_1 in Hx' as [k Hk']. exact (M k x Hk' Dx).
    + intros j x Hj Dx. apply Hk; [|done]. rewrite Q, list_lookup_insert_ne; [done|]. intros ->. congruence.
  - destruct P as [-> P]. exists []. unfold due_slots in *. rewrite (due_none now (txq f) P). split_and!; [done|done|constructor|done|done|auto].
Qed.

(** The transmit loop sends every reply whose time has come, earliest first,
    replies of the same time in the order of their numbers; nothing that is due
    stays behind, and a reply that is not due stays where it is. *)
Theorem replies_in_order (f : esc_fault_bus_t) (now : Z) :
  (length (txq f) <= 64)%nat ->
  let '(f', out) := soft_bus_send f now in
  exists l, out = q_buf <$> l /\ l ≡ₚ due_slots now f /\ StronglySorted key_le l /\ due_slots now f' = [] /\
    (forall i s, txq f !! i = Some s -> slot_due now s = false -> txq f' !! i = Some s) /\
    (esc_fault_pop_due f' now).2 = None.
Proof.
  intros Hl. unfold soft_bus_send. pose proof (send_loop_spec 65 f now) as S.
  assert (Hd : (length (due_slots now f) <= length (txq f))%nat) by apply length_filter.
  destruct (send_loop 65 f now) as [f' out]. destruct (S ltac:(lia)) as (l & H1 & H2 & H3 & H4 & _ & H5).
  exists l. split_and!; try done. pose proof (pop_spec f' now) as P.
  destruct (esc_fault_pop_due f' now) as [f2 [b|]]; [|done]. destruct P as (i & s & E & D & _).
  assert (Hs : s ∈ due_slots now f') by (apply list_elem_of_filter; split; [done|by eapply list_elem_of_lookup_2]).
  rewrite H4 in Hs. by apply not_elem_of_nil in Hs.
Qed.

(** ** Commands *)

(** A command changes what is injected, never the books. *)
Lemma run_command_ledger g f chain args cmd f' chain' : run_command g f chain args cmd = Some (f', chain') ->
  ledger f' = ledger f /\ length (txq f') = length (txq f).
Proof.
  unfold run_command, cmd_mute, cmd_wkc_short, cmd_stale, cmd_safeop, cmd_bad_cable, cmd_late, cmd_dup, cmd_reorder, cmd_drop_node,
    cmd_restore_node, cmd_mbx, cmd_coe_delay, cmd_reject_al, cmd_pdo_out, cmd_pdo_in, cmd_emcy, cmd_clear. cbv zeta.
  generalize (parse_u (arg args 0)), (parse_u (arg args 1)), (need_node chain (arg args 0)). intros p0 p1 nn H.
  repeat match type of H with (if ?b then _ else _) = _ => destruct b end;
    repeat match type of H with context [mbind _ ?o] => destruct o; cbn [mbind option_bind] in H end; try discriminate;
    try (by injection H as <- <-).
  all: repeat match type of H with
       | context [mbind _ ?o] => destruct o; cbn [mbind option_bind] in H
       | context [if ?b then _ else _] => destruct b
       end; try discriminate; try (by injection H as <- <-).
Qed.
Lemma command_ledger g drv f chain line :
  let f' := (esc_fault_command g drv f chain line).1.1 in ledger f' = ledger f /\ length (txq f') = length (txq f).
Proof.
  cbv zeta. unfold esc_fault_command. destruct (command_argv line) as [|cmd args]; [done|].
  destruct (streq _ _); [by destruct (drv _ _)|].
  destruct (run_command g f chain args cmd) as [[f1 c1]|] eqn:E; [|done]. cbn [fst]. by eapply run_command_ledger.
Qed.
(** A command that answers -1 has changed nothing. *)
Lemma command_refused g drv f chain line : streq (take 4 (default [] (head (command_argv line)))) (s_ "drv_") = false ->
  (esc_fault_command g drv f chain line).2 = -1 -> esc_fault_command g drv f chain line = (f, chain, -1).
Proof.
  unfold esc_fault_command. destruct (command_argv line) as [|cmd args]; [done|]. change (default [] (head (cmd :: args))) with cmd. intros ->.
  by destruct (run_command g f chain args cmd) as [[f1 c1]|].
Qed.

(** ** The program run *)

Inductive bus_event :=
| EvFrame (buf : list Z) (t_rx : Z)
| EvCommand (line : str)
| EvSend (now : Z).

Section run.
Context (g_cfg : esc_dc_cfg_t) (g_n : Z) (drv_command : list esc_t -> list str -> list esc_t * Z).

(** One turn of the loop: the state and the replies sent. *)
Definition bus_turn (s : esc_fault_bus_t * list esc_t * dc_stats) (ev : bus_event) : esc_fault_bus_t * list esc_t * dc_stats * list (list Z) :=
  let '(f, chain, st) := s in
  match ev with
  | EvFrame buf t => (soft_bus_frame g_cfg g_n f chain st buf t, [])
  | EvCommand line => let '(f, chain, _) := esc_fault_command g_cfg drv_command f chain line in (f, chain, st, [])
  | EvSend now => let '(f, out) := soft_bus_send f now in (f, chain, st, out)
  end.
Definition bus_run (s : esc_fault_bus_t * list esc_t * dc_stats) (evs : list bus_event) : esc_fault_bus_t * list esc_t * dc_stats :=
  foldl (fun s ev => (bus_turn s ev).1) s evs.

Lemma frame_balanced f chain st buf t : balanced f -> balanced (soft_bus_frame g_cfg g_n f chain st buf t).1.1.
Proof.
  intros H. unfold soft_bus_frame. destruct (len buf <? 16); [done|].
  pose proof (begin_owing f chain buf t H) as B. cbv zeta in B. destruct (esc_fault_frame_begin f chain buf t) as [[f1 c1] np]. cbn [fst] in B.
  match goal with |- context [if 0 <? np then let '(nodes, buf) := ?p in _ else _] => set (pf := p) end.
  destruct (if 0 <? np then let '(nodes, buf) := pf in _ else _) as [c2 buf2].
  destruct (esc_dc_frame_end g_cfg c2 st _) as [c3 st3].
  pose proof (end_balanced f1 c3 buf2 t B) as E. destruct (esc_fault_frame_end f1 c3 buf2 t) as [f4 c4]. exact E.
Qed.
Lemma send_balanced fuel f now : balanced f -> balanced (send_loop fuel f now).1.
Proof.
  revert f. induction fuel as [|fuel IH]; intros f H; [done|]. cbn [send_loop]. pose proof (pop_balanced f now H) as P.
  destruct (esc_fault_pop_due f now) as [f1 [b|]]; cbn [fst] in P; [|done]. apply IH in P. by destruct (send_loop fuel f1 now).
Qed.
Lemma turn_balanced s ev : balanced s.1.1 -> balanced (bus_turn s ev).1.1.1.
Proof.
  destruct s as [[f chain] st]. cbn [fst]. intros H. destruct ev as [buf t|line|now]; cbn [bus_turn fst].
  - by apply frame_balanced.
  - destruct (command_ledger g_cfg drv_command f chain line) as [L _]. destruct (esc_fault_command _ _ _ _ _) as [[f1 c1] r]. cbn [fst] in *.
    apply balanced_owing. eapply ledger_owing; [exact L|]. by apply balanced_owing.
  - unfold soft_bus_send. pose proof (send_balanced 65 f now H) as B. by destruct (send_loop 65 f now).
Qed.

(** C15: The books of the soft bus balance.  Whatever frames arrive, whatever is
    injected by commands and whenever replies are sent, every received frame and
    every duplicate is accounted for once: sent, waiting in the queue, muted, lost at
    an unpowered first node, lost on a bad cable, lost as an armed mailbox reply, or
    dropped because the queue was full.  Counters are 64-bit, so the sums agree
    modulo 2^64. *)
Theorem fault_ledger (off : Z) (chain : list esc_t) (st : dc_stats) (evs : list bus_event) :
  let f := (bus_run (esc_fault_init off, chain, st) evs).1.1 in
  u64 (rx f + dup f) = u64 (tx f + queued f + muted f + no_link f + bad_cable f + mbx_lost f + q_overflow f).
Proof.
  cbv zeta. change (balanced (bus_run (esc_fault_init off, chain, st) evs).1.1).
  assert (H : balanced (esc_fault_init off, chain, st).1.1) by reflexivity. revert H.
  generalize (esc_fault_init off, chain, st). unfold bus_run. induction evs as [|ev evs IH]; intros s H; [done|].
  cbn [foldl]. apply IH. by apply turn_balanced.
Qed.
End run.

(** ** A bus without injections is the chain alone *)

(** What is injected on a node: power, frames to skip or to freeze and whether this one is,
    armed mailbox faults and a response to repeat, emergencies to post, a delay of
    answers or an answer held back. *)
Definition arm (e : esc_t) : bool * Z * Z * (bool * bool) * (bool * bool * bool) * (Z * bool) :=
  let x := fault e in
  (powered_off x, wkc_short_left x, stale_left x, (mbx_lose_armed x, mbx_dup_armed x), (skip_logical x, stale_frame x, mbx_dup_pending x),
   (emcy_left x, negb (coe_delay_ms x =? 0) || mbx_held x)).
Definition unarmed : bool * Z * Z * (bool * bool) * (bool * bool * bool) * (Z * bool) :=
  (false, 0, 0, (false, false), (false, false, false), (0, false)).
(** Same fault state. *)
Notation same_fault e e' := (fault e' = fault e).

(** Decides the outermost test. *)
Ltac outer_pair := match goal with |- ?f (if ?b then _ else _).1.1 = _ => destruct b end.
Ltac outer_if := match goal with |- ?f (if ?b then _ else _) = _ => destruct b end.

Lemma od_commit_fault e i s d : same_fault e (od_commit e i s d).
Proof. unfold od_commit. repeat case_match; done. Qed.
Lemma ca_store_fault e i s d c : same_fault e (ca_store e i s d c).1.
Proof. unfold ca_store. repeat case_if; cbn [fst]; auto using od_commit_fault. Qed.
Lemma ca_write_loop_fault e i subs d pos w c : same_fault e (ca_write_loop e i subs d pos w c).1.
Proof.
  revert e pos w. induction subs as [|s subs IH]; intros e pos w; cbn [ca_write_loop]; [done|].
  case_if; [done|]. destruct (od_entry e i s) as [en|]; [|apply IH]. cbv zeta. case_if; [done|]. case_if; [apply IH|].
  pose proof (ca_store_fault e i s (slice d pos (entry_bytes en)) c) as H. destruct (ca_store _ _ _ _ _) as [e1 a]. cbn [fst] in H.
  case_if; [done|]. by rewrite IH.
Qed.
Lemma od_ca_write_fault e i s d c : same_fault e (od_ca_write e i s d c).1.
Proof.
  unfold od_ca_write. destruct (od_object e i) as [[oc ms]|]; [|done].
  case_if; [done|]. case_if.
  { case_if; [done|]. destruct (od_entry e i 0); [|done]. case_if; [done|apply ca_store_fault]. }
  case_if; [done|]. destruct (_ <? len d); [done|]. case_if; [|apply ca_write_loop_fault]. case_if; [done|].
  destruct (match od_entry e i 0 with Some en => _ | None => _ end); [|done]. case_if; [apply ca_write_loop_fault|].
  pose proof (ca_store_fault e i 0 (slice d 0 1) c) as H; destruct (ca_store _ _ _ _ _) as [e1 a]; cbn [fst] in H. case_if; [done|].
  by rewrite ca_write_loop_fault.
Qed.
Lemma set_bypass_fault e b : same_fault e (set_bypass e b).
Proof. unfold set_bypass. by destruct (prof e). Qed.
Lemma od_download_fault e i s ca d : same_fault e (od_download e i s ca d).1.
Proof.
  unfold od_download. destruct ca.
  - match goal with |- context [match ?o with Some a => _ | None => _ end] => destruct o as [a0|] end; [|done].
    cbv zeta. case_if; [done|]. pose proof (od_ca_write_fault (set_bypass e true) i s d false) as H.
    destruct (od_ca_write (set_bypass e true) i s d false) as [e1 a]. cbn [fst] in *.
    rewrite set_bypass_fault. case_if; rewrite ?od_ca_write_fault, H; apply set_bypass_fault.
  - cbv zeta. cbn [fst]. case_if; auto using od_commit_fault.
Qed.
Lemma answer_fault e i s ca d o : same_fault e (answer_download (od_download e i s ca d) o i s ca).
Proof.
  unfold answer_download. pose proof (od_download_fault e i s ca d) as H. destruct (od_download _ _ _ _ _) as [e1 a]. cbn [fst] in H. by case_if.
Qed.
Lemma upload_request_fault e o i s ca : same_fault e (coe_handle_upload_request e o i s ca).
Proof. unfold coe_handle_upload_request. destruct (od_upload_value _ _ _ _) as [[|]|]; [done| |done]. by case_if. Qed.
Lemma upload_segment_fault e o c : same_fault e (coe_handle_upload_segment e o c).
Proof.
  unfold coe_handle_upload_segment. cbv zeta. case_if; [done|]. case_if; [done|]. destruct (od_upload_value _ _ _ _) as [[|]|]; [done| |done]. by case_if.
Qed.
Lemma download_init_fault e o q i s c : same_fault e (coe_handle_download_init e o q i s c).
Proof.
  unfold coe_handle_download_init. cbv zeta. assert (E : same_fault e (end_session e)) by done.
  repeat (outer_if; [first [done|by rewrite answer_fault]|]). done.
Qed.
Lemma download_segment_fault e o q c : same_fault e (coe_handle_download_segment e o q c).
Proof.
  unfold coe_handle_download_segment. cbv zeta. do 3 (outer_if; [done|]). outer_if; [|done].
  match goal with |- fault (let '(_, _) := ?p in _) = _ => assert (H : same_fault e p.1) by (destruct (negb _); [done|by rewrite od_download_fault]); destruct p as [e1 r] end.
  cbn [fst] in H. by outer_if.
Qed.
Lemma mailbox_out_arm e : arm (coe_on_mailbox_out_write e) = arm e.
Proof.
  unfold coe_on_mailbox_out_write. destruct (coe_dispatch e) as [e'|] eqn:E; [|by case_if].
  assert (F : same_fault e e').
  { unfold coe_dispatch in E. cbv zeta in E. do 3 (match type of E with (if ?b then _ else _) = _ => destruct b end; [done|]). injection E as <-.
    repeat outer_if; auto using upload_request_fault, upload_segment_fault, download_init_fault, download_segment_fault. }
  cbv zeta. change (fault (stamp_cnt e')) with (fault e'). rewrite F. destruct (coe_delay_ms (fault e) =? 0) eqn:D; cbn [negb andb].
  - unfold arm. cbn. by rewrite F.
  - outer_if; unfold arm; cbn; by rewrite F, D.
Qed.

Section quiet.
Context (g_cfg : esc_dc_cfg_t) (g_n : Z).

Lemma dc_read_arm e off l : arm (esc_dc_before_read g_cfg e off l) = arm e.
Proof. unfold esc_dc_before_read. repeat case_if; done. Qed.
Lemma dc_write_arm e off d : arm (esc_dc_after_write g_cfg g_n e off d) = arm e.
Proof.
  unfold esc_dc_after_write. case_if; [done|]. cbv zeta.
  assert (A : forall e, arm (sync0_activation g_cfg e) = arm e) by (intros x; unfold sync0_activation; cbv zeta; repeat case_if; done).
  assert (L : forall e, arm (latch_receive_times g_cfg g_n e) = arm e) by done.
  assert (T : forall e v, arm (time_control_loop g_cfg e v) = arm e) by done.
  destruct (overlaps off (len d) 2433 1); rewrite ?A; destruct (overlaps off (len d) 2352 2), (_ && overlaps off (len d) (2336 + 4) 4),
    (overlaps off (len d) 2320 8), (overlaps off (len d) 2320 1 && _ && _), (overlaps off (len d) 2304 1); done.
Qed.
Lemma fetched_arm e off l : arm (mailbox_fetched e off l) = arm e.
Proof. unfold mailbox_fetched. repeat case_if; done. Qed.
Lemma before_read_arm e off l : arm (before_read g_cfg e off l) = arm e.
Proof. unfold before_read. rewrite <- (dc_read_arm e off l). done. Qed.
Lemma read_arm e off d : arm (esc_phys_read g_cfg e off d).1 = arm e.
Proof. unfold esc_phys_read. case_if; [done|]. cbn [fst]. by rewrite fetched_arm, before_read_arm. Qed.
Lemma read_or_arm e off d : arm (esc_phys_read_or g_cfg e off d).1 = arm e.
Proof. unfold esc_phys_read_or. case_if; [done|]. cbn [fst]. by rewrite fetched_arm, before_read_arm. Qed.
Lemma wd_sm_arm off l e k : arm (wd_on_write_sm off l e k) = arm e.
Proof. unfold wd_on_write_sm. repeat case_if; done. Qed.
Lemma repeat_arm e off l v : arm (mailbox_repeat e off l v) = arm e.
Proof. unfold mailbox_repeat. by case_if. Qed.
Lemma sii_arm e off l : arm (sii_command e off l) = arm e.
Proof. unfold sii_command. repeat case_if; done. Qed.
Lemma addresses_arm e off l : arm (update_addresses e off l) = arm e.
Proof. unfold update_addresses. repeat case_if; done. Qed.
Lemma write_arm e off d : arm (esc_phys_write g_cfg g_n e off d) = arm e.
Proof.
  unfold esc_phys_write. cbv zeta. case_if; [done|].
  match goal with |- arm (if _ then coe_on_mailbox_out_write ?x else _) = _ => assert (H : arm x = arm e) end.
  { rewrite addresses_arm, sii_arm. unfold esc_wd_on_write. cbn [foldl]. rewrite !wd_sm_arm, repeat_arm.
    match goal with |- arm (?x <| regs ::= _ |>) = _ => transitivity (arm x); [done|] end. by rewrite dc_write_arm. }
  outer_if; [by rewrite mailbox_out_arm|done].
Qed.
Lemma al_arm e : arm (esc_al_control_write e) = arm e.
Proof. unfold esc_al_control_write. cbv zeta. repeat outer_if; try done. by destruct (reject_al_sticky (fault e)). Qed.

Lemma fmmu_entry_arm cmd la e d f : arm (fmmu_entry g_cfg g_n cmd la e d f).1.1 = arm e.
Proof.
  unfold fmmu_entry. cbv zeta. case_if; [done|]. case_if; [done|]. case_if; [case_if; [done|]|].
  - assert (B : forall b0 b1 pb r w, arm (fmmu_apply_bits g_cfg g_n e la d b0 b1 pb r w).1.1 = arm e).
    { intros. unfold fmmu_apply_bits. cbv zeta. do 2 (outer_pair; [done|]).
      match goal with |- context [if r then ?x else _] => set (p := if r then x else (e, d)) end.
      assert (P : arm p.1 = arm e).
      { unfold p. destruct r; [|done]. match goal with |- context [esc_phys_read ?a ?b ?c ?d] => pose proof (read_arm b c d) as R; destruct (esc_phys_read a b c d) end. done. }
      clearbody p. destruct p as [e1 d1]. cbn [fst] in P. destruct w; cbn [fst]; [by rewrite write_arm|done]. }
    match goal with |- context [fmmu_apply_bits ?a ?b ?c ?d ?e ?f ?g ?h ?i ?j] => specialize (B f g h i j); destruct (fmmu_apply_bits a b c d e f g h i j) as [[e1 d1] [x y]] end.
    cbn [fst] in *. by destruct y.
  - unfold fmmu_apply_bytes. cbv zeta. outer_pair; [done|].
    match goal with |- context [esc_phys_read g_cfg e ?o ?dd] => pose proof (read_arm e o dd) as R; destruct (esc_phys_read g_cfg e o dd) as [e1 s1] end.
    cbn [fst] in R. repeat outer_pair; cbn [fst]; rewrite ?write_arm; try done.
    match goal with |- arm (?x <| got_valid_outputs := _ |>) = _ => transitivity (arm x); [done|] end. by rewrite write_arm.
Qed.
Lemma fmmu_arm e la d cmd wkc : arm (fmmu_apply g_cfg g_n e la d cmd wkc).1.1 = arm e.
Proof.
  unfold fmmu_apply. generalize (seqZ 0 (fmmu_count e)). intros fs.
  assert (G : forall s, arm (foldl (fmmu_step g_cfg g_n cmd la) s fs).1.1 = arm s.1.1).
  { induction fs as [|f fs IH]; intros s; [done|]. cbn [foldl]. rewrite IH. destruct s as [[e1 d1] [r w]]. cbn [fmmu_step fst].
    pose proof (fmmu_entry_arm cmd la e1 d1 f) as E. by destruct (fmmu_entry g_cfg g_n cmd la e1 d1 f) as [[e2 d2] [r2 w2]]. }
  specialize (G (e, d, (false, false))). by destruct (foldl _ _ fs) as [[e1 d1] [r w]].
Qed.
Lemma node_arm cmd adp ado l e d wkc : arm (node_datagram g_cfg g_n cmd adp ado l e d wkc).1.1 = arm e.
Proof.
  unfold node_datagram. case_if; [case_if; [done|apply fmmu_arm]|]. unfold access_node.
  destruct (node_access cmd adp l e) as [[mt dr] dw]. case_if; [done|].
  assert (R : arm (read_for g_cfg cmd e ado d).1 = arm e) by (unfold read_for; case_if; auto using read_arm, read_or_arm).
  assert (W : forall e, arm (write_for g_cfg g_n e ado d) = arm e) by (intros x; unfold write_for; cbv zeta; case_if; rewrite ?al_arm; apply write_arm).
  destruct (read_for g_cfg cmd e ado d) as [e1 d1]. cbn [fst] in R. repeat case_if; cbn [fst]; rewrite ?W; done.
Qed.
Lemma chain_arm cmd adp ado l chain d wkc : arm <$> (datagram_loop g_cfg g_n cmd adp ado l chain d wkc).1.1 = arm <$> chain.
Proof.
  revert l d wkc. induction chain as [|e chain IH]; intros l d wkc; cbn [datagram_loop]; [done|].
  pose proof (node_arm cmd adp ado l e d wkc) as E. destruct (node_datagram _ _ _ _ _ _ _ _ _) as [[e1 d1] w1]. cbn [fst] in E.
  set (l' := if is_auto_inc cmd then _ else l). specialize (IH l' d1 w1).
  destruct (datagram_loop _ _ _ _ _ _ _ _ _) as [[c2 d2] w2]. cbn [fst] in *. rewrite !fmap_cons. by rewrite E, IH.
Qed.
Lemma frame_arm chain buf : arm <$> (process_frame g_cfg g_n chain buf).1 = arm <$> chain.
Proof.
  unfold process_frame. destruct (len buf <? 16); [done|]. destruct (negb _); [done|]. cbv zeta. generalize 171%nat, 16. intros fuel off.
  match goal with |- context [frame_loop _ _ _ _ _ _ ?x] => generalize x end. intros end_.
  revert chain buf off. induction fuel as [|fuel IH]; intros chain buf off; cbn [frame_loop]; [done|].
  case_if; [|done]. cbv zeta. case_if; [done|].
  match goal with |- context [process_datagram _ _ ?c ?x ?y ?z ?d ?w] => pose proof (chain_arm x y z y c d w) as H; unfold process_datagram;
    destruct (datagram_loop g_cfg g_n x y z y c d w) as [[c2 d2] w2] end.
  cbn [fst] in H. by rewrite IH.
Qed.

Lemma wd_check_arm e now : arm (esc_wd_check e now).1 = arm e.
Proof.
  unfold esc_wd_check, wd_expire. cbv zeta. destruct (_ =? 0); [done|]. destruct (running _ && _); cbn [fst].
  all: unfold esc_cnt_inc; repeat (match goal with |- context [if ?b then _ else _] => destruct b end); done.
Qed.
Lemma dc_begin_arm chain t : arm <$> esc_dc_frame_begin g_cfg chain t = arm <$> chain.
Proof.
  unfold esc_dc_frame_begin. destruct (_ =? 0); [done|]. apply list_eq. intros i. rewrite !list_lookup_fmap, list_lookup_imap. by destruct (chain !! i).
Qed.
Lemma dc_end_arm chain st pd : arm <$> (esc_dc_frame_end g_cfg chain st pd).1 = arm <$> chain.
Proof.
  unfold esc_dc_frame_end. destruct (_ =? 0); [done|]. cbv zeta. set (c1 := _ <$> chain).
  assert (A1 : arm <$> c1 = arm <$> chain) by (unfold c1; rewrite <- list_fmap_compose; done). clearbody c1.
  assert (A2 : forall c, arm <$> ((fun e => e <| dc ::= fun d => sync0_account d (esc_dc_frame_sys g_cfg e) pd |>) <$> c) = arm <$> c)
    by (intros c; rewrite <- list_fmap_compose; done).
  destruct (fst <$> list_find _ chain) as [r|]; [|cbn [fst]; by rewrite A2].
  destruct (pd && _); [|cbn [fst]; by rewrite A2]. destruct (spread g_cfg c1 r) as [[mn mx] up]. cbn [fst]. rewrite A2, <- A1.
  apply list_eq. intros i. rewrite !list_lookup_fmap, list_lookup_imap. by destruct (c1 !! i).
Qed.

(** Nothing is injected. *)
Definition node_quiet (e : esc_t) : Prop := arm e = unarmed.
Record bus_quiet (f : esc_fault_bus_t) : Prop := {
  bq_seq : app_seq_offset f < 0;
  bq_left : mute_left f = 0 /\ late_left f = 0 /\ dup_left f = 0 /\ reorder_left f = 0 /\ bad_cable_left f = 0;
  bq_free : Forall (fun s => used s = false) (txq f);
  bq_len : length (txq f) = 64%nat;
}.
Lemma quiet_arm c c' : arm <$> c' = arm <$> c -> Forall node_quiet c -> Forall node_quiet c'.
Proof.
  intros H Q. change (Forall ((fun x => x = unarmed) ∘ arm) c'). rewrite <- Forall_fmap, H. by apply Forall_fmap.
Qed.
Lemma quiet_length (c c' : list esc_t) : arm <$> c' = arm <$> c -> length c' = length c.
Proof. intros H. by rewrite <- (length_fmap arm c'), H, length_fmap. Qed.
Lemma quiet_reachable chain : Forall node_quiet chain -> reachable chain = Z.of_nat (length chain).
Proof.
  induction 1 as [|e chain Q _ IH]; [done|]. cbn [reachable length]. unfold node_quiet, arm, unarmed in Q. injection Q as Qp _ _ _ _ _ _ _ _ _. rewrite Qp, IH. lia.
Qed.
Lemma quiet_pd e : node_quiet e -> node_pd e = e.
Proof. unfold node_quiet, arm, unarmed, node_pd. intros [= _ H1 H2 _ _ _ _ _ _ _]. rewrite H1. cbn [Z.eqb negb]. by rewrite H2. Qed.
(** What a slave does by itself before a frame: its watchdog; the mark of the last
    mailbox read is cleared. *)
Definition idle_node (now : Z) (e : esc_t) : esc_t :=
  (esc_wd_check (e <| fault ::= fun x => x <| sm1_consumed := false |> |>) now).1.
Lemma quiet_tick now e : node_quiet e -> (node_tick now e).1.1 = idle_node now e /\ arm (idle_node now e) = arm e.
Proof.
  intros Q. split; [|unfold idle_node; by rewrite wd_check_arm]. unfold node_quiet, arm, unarmed in Q.
  injection Q as Qp _ _ _ _ Qs Qf Qd Qe Qh. apply orb_false_iff in Qh as [_ Qh]. unfold node_tick, idle_node. cbv zeta.
  set (e1 := e <| fault ::= _ |>). assert (E1 : e1 = e <| fault ::= fun x => x <| sm1_consumed := false |> |>).
  { unfold e1. destruct e as [? ? ? ? ? ? ? ? ? ? ? ? ? x]. cbn in *. f_equal. destruct x. cbn in *. congruence. }
  assert (F1 : powered_off (fault e1) = false /\ mbx_dup_pending (fault e1) = false /\ emcy_left (fault e1) = 0 /\ mbx_held (fault e1) = false) by done.
  clearbody e1. destruct F1 as (P1 & D1 & M1 & H1). rewrite P1, D1. unfold post_emcy. cbv zeta. rewrite M1. cbn [Z.eqb negb andb].
  unfold release_held. rewrite H1. cbn [andb]. rewrite E1. by destruct (esc_wd_check _ now).
Qed.
Lemma quiet_ticks now chain : Forall node_quiet chain ->
  (tick_nodes now chain).1.1 = idle_node now <$> chain /\ arm <$> (idle_node now <$> chain) = arm <$> chain.
Proof.
  induction 1 as [|e chain Q _ [IH1 IH2]]; [done|]. cbn [tick_nodes]. destruct (quiet_tick now e Q) as [T1 T2]. rewrite !fmap_cons.
  destruct (node_tick now e) as [[e1 a] b], (tick_nodes now chain) as [[c a'] b']. cbn [fst] in *. split; congruence.
Qed.

Lemma quiet_route f chain : bus_quiet f -> Forall node_quiet chain -> chain <> [] ->
  frame_route f chain = (f <| f_np := Z.of_nat (length chain) |>, chain, Z.of_nat (length chain)).
Proof.
  intros [_ (H1 & _ & _ & _ & H5) _ _] Q Hne. unfold frame_route. rewrite H1, H5, (quiet_reachable _ Q). cbv zeta. cbn [Z.eqb negb andb].
  rewrite (proj2 (Z.eqb_neq (Z.of_nat (length chain)) 0)) by (destruct chain; [done|cbn; lia]).
  rewrite Nat2Z.id, firstn_all, skipn_all, app_nil_r. destruct (f_has_pd f); [|done].
  do 2 f_equal. clear Hne. induction Q as [|e chain Qe _ IH]; [done|]. rewrite fmap_cons, quiet_pd, IH by done. done.
Qed.
Lemma quiet_end f chain : bus_quiet f -> Forall node_quiet chain -> end_nodes f chain = (f, chain).
Proof.
  intros B Q. induction Q as [|e chain Qe _ IH]; [done|]. cbn [end_nodes].
  assert (S : (if f_has_pd f then app_seq_step f e else e) = e).
  { destruct (f_has_pd f); [|done]. unfold app_seq_step. cbv zeta. by rewrite (proj2 (Z.ltb_lt _ 0) (bq_seq f B)). }
  rewrite S. unfold node_quiet, arm, unarmed in Qe. injection Qe as _ _ _ El Ed _ _ _ _ _. rewrite Ed, !andb_false_r, El. cbn [andb]. rewrite andb_false_r. cbn [andb].
  by rewrite IH.
Qed.
(** The reply as it leaves the bus: cut to the slot, marked. *)
Definition wire_reply (buf : list Z) : list Z := mark_reply (take 2048 buf).
Lemma quiet_queue f buf now : bus_quiet f ->
  exists f', (soft_bus_send (queue_reply f buf now) now) = (f', [wire_reply buf]) /\ bus_quiet f'.
Proof.
  intros [B1 (B2 & B3 & B4 & B5 & B6) B7 B8]. destruct (txq f) as [|s0 q0] eqn:Eq; [done|].
  assert (Hheld : txq_held f = None).
  { unfold txq_held. assert (N : list_find (fun s => used s && held s = true) (txq f) = None) by
      (apply list_find_None; rewrite Eq; eapply Forall_impl; [exact B7|]; cbn; intros x ->; done). by rewrite N. }
  unfold queue_reply. rewrite B3. cbn [Z.eqb negb]. rewrite Hheld, B5. cbn [Z.eqb negb].
  pose (f1 := f <| txq ::= <[0%nat := mkSlot true false now (b_seq f) (wire_reply buf)]> |> <| b_seq ::= fun n => u64 (n + 1) |>).
  assert (P : txq_put f buf now = (f1, Some 0%nat)).
  { unfold txq_put. rewrite Eq. apply Forall_cons_1 in B7 as [U0 _]. cbn [list_find]. by rewrite decide_True. }
  rewrite P. cbn [fst]. change (dup_left f1) with (dup_left f). rewrite B4. cbn [Z.eqb negb].
  assert (Q1 : txq f1 = mkSlot true false now (b_seq f) (wire_reply buf) :: q0) by (cbn; by rewrite Eq).
  assert (F1 : app_seq_offset f1 = app_seq_offset f /\ mute_left f1 = 0 /\ late_left f1 = 0 /\ dup_left f1 = 0 /\ reorder_left f1 = 0 /\ bad_cable_left f1 = 0) by done.
  clearbody f1. apply Forall_cons_1 in B7 as [_ U].
  assert (N : forall i best, best_due now i q0 best = best).
  { clear -U. induction U as [|x l Ux _ IH]; intros i best; [done|]. cbn [best_due]. unfold slot_due at 1. rewrite Ux. apply IH. }
  unfold soft_bus_send. change (send_loop 65 f1 now) with (match esc_fault_pop_due f1 now with
    | (f, None) => (f, []) | (f, Some b) => let '(f, out) := send_loop 64 f now in (f, b :: out) end).
  unfold esc_fault_pop_due at 1. rewrite Q1. cbn [best_due]. unfold slot_due at 1. cbn [used due_ns]. rewrite Z.leb_refl. cbn [andb]. rewrite N. cbn [held q_buf].
  set (f2 := f1 <| txq ::= _ |> <| tx ::= _ |>).
  assert (Q2 : txq f2 = mkSlot false false now (b_seq f) (wire_reply buf) :: q0) by (cbn; by rewrite Q1).
  assert (F2 : app_seq_offset f2 = app_seq_offset f1 /\ mute_left f2 = mute_left f1 /\ late_left f2 = late_left f1 /\ dup_left f2 = dup_left f1 /\
    reorder_left f2 = reorder_left f1 /\ bad_cable_left f2 = bad_cable_left f1) by done. clearbody f2.
  assert (P2 : send_loop 64 f2 now = (f2, [])).
  { cbn [send_loop]. unfold esc_fault_pop_due. rewrite Q2. cbn [best_due]. unfold slot_due at 1. cbn [used andb]. by rewrite N. }
  rewrite P2. exists f2. split; [done|]. destruct F1 as (F1 & ?), F2 as (F2 & ?). split; [lia|split_and!; intuition congruence| |].
  - rewrite Q2. by constructor.
  - rewrite Q2. exact B8.
Qed.

(** The injector around a frame of a quiet bus. *)
Lemma quiet_counters f r1 d1 n1 p1 m1 w1 : bus_quiet f ->
  bus_quiet (f <| rx ::= r1 |> <| f_drop := d1 |> <| f_np := n1 |> <| f_has_pd := p1 |> <| mbx_dup ::= m1 |> <| wd_drops ::= w1 |>).
Proof. intros [B1 B2 B3 B4]. split; [exact B1|exact B2|exact B3|exact B4]. Qed.
Lemma quiet_np f n : bus_quiet f -> bus_quiet (f <| f_np := n |>).
Proof. intros [B1 B2 B3 B4]. split; [exact B1|exact B2|exact B3|exact B4]. Qed.
Lemma quiet_begin f chain buf t : bus_quiet f -> Forall node_quiet chain -> chain <> [] -> exists f1 c1,
  esc_fault_frame_begin f chain buf t = (f1, c1, Z.of_nat (length c1)) /\ c1 = idle_node t <$> chain /\ arm <$> c1 = arm <$> chain /\
  bus_quiet f1 /\ f_np f1 = Z.of_nat (length c1) /\ f_has_pd f1 = esc_dc_frame_has_pd buf /\ f_drop f1 = false.
Proof.
  intros B Q Hne. unfold esc_fault_frame_begin. destruct (quiet_ticks t chain Q) as [T1 A1]. destruct (tick_nodes t chain) as [[c1 a] b]. cbn [fst] in *. rewrite <- T1 in A1.
  pose proof (quiet_arm _ _ A1 Q) as Q1. pose proof (quiet_length _ _ A1) as L1.
  assert (Hc1 : c1 <> []) by (destruct c1, chain; done).
  rewrite (quiet_route _ c1 (quiet_counters f _ _ _ _ _ _ B) Q1 Hc1).
  eexists _, c1. do 3 (split; [done|]). split; [exact (quiet_np _ _ (quiet_counters f _ _ _ _ _ _ B))|]. split_and!; reflexivity.
Qed.
Lemma quiet_finish f chain reply t : bus_quiet f -> Forall node_quiet chain -> f_np f = Z.of_nat (length chain) -> f_drop f = false ->
  esc_fault_frame_end f chain reply t = (queue_reply f reply t, chain).
Proof.
  intros B Q N D. unfold esc_fault_frame_end. rewrite N, Nat2Z.id, firstn_all, skipn_all, (quiet_end f chain B Q), app_nil_r. by rewrite D.
Qed.
(** One frame on a quiet bus. *)
Lemma quiet_frame f chain st buf t : bus_quiet f -> Forall node_quiet chain -> chain <> [] -> (len buf <? 16) = false ->
  let '(c3, reply) := process_frame g_cfg g_n (esc_dc_frame_begin g_cfg (idle_node t <$> chain) t) buf in
  let '(c4, st') := esc_dc_frame_end g_cfg c3 st (esc_dc_frame_has_pd buf) in
  exists f', soft_bus_frame g_cfg g_n f chain st buf t = (queue_reply f' reply t, c4, st') /\ bus_quiet f' /\ Forall node_quiet c4 /\ c4 <> [].
Proof.
  intros B Q Hne Hlen. unfold soft_bus_frame. rewrite Hlen.
  destruct (quiet_begin f chain buf t B Q Hne) as (f1 & c1 & -> & <- & A1 & B1 & N1 & P1 & D1).
  pose proof (quiet_length _ _ A1) as L1. pose proof (dc_begin_arm c1 t) as A2. set (c2 := esc_dc_frame_begin g_cfg c1 t) in *. clearbody c2.
  pose proof (quiet_length _ _ A2) as L2. rewrite <- L2 in *.
  assert (L0 : (0 < length c2)%nat) by (rewrite L1; destruct chain; [done|cbn; lia]).
  rewrite (proj2 (Z.ltb_lt 0 (Z.of_nat (length c2)))) by lia. rewrite Nat2Z.id, firstn_all, skipn_all, P1.
  pose proof (frame_arm c2 buf) as A3. destruct (process_frame g_cfg g_n c2 buf) as [c3 reply]. cbn [fst] in *. rewrite app_nil_r.
  pose proof (dc_end_arm c3 st (esc_dc_frame_has_pd buf)) as A4. destruct (esc_dc_frame_end g_cfg c3 st _) as [c4 st']. cbn [fst] in *.
  assert (A5 : arm <$> c4 = arm <$> c2) by congruence. pose proof (quiet_length _ _ A5) as L5.
  assert (Q4 : Forall node_quiet c4) by (eapply quiet_arm; [|exact Q]; congruence).
  exists f1. rewrite (quiet_finish f1 c4 reply t B1 Q4) by congruence. split_and!; [done|done|done|]. destruct c4; [cbn in L5; lia|done].
Qed.

(** The chain alone, without the injector: the slaves look at their watchdogs, the clocks
    advance, the frame passes through all slaves and comes back. *)
Definition plain_frame (s : list esc_t * dc_stats * list (list Z)) (fr : list Z * Z) : list esc_t * dc_stats * list (list Z) :=
  let '(chain, st, out) := s in
  let '(c3, reply) := process_frame g_cfg g_n (esc_dc_frame_begin g_cfg (idle_node fr.2 <$> chain) fr.2) fr.1 in
  let '(c4, st') := esc_dc_frame_end g_cfg c3 st (esc_dc_frame_has_pd fr.1) in
  (c4, st', out ++ [wire_reply reply]).
(** The program: a frame is received, then everything that is due is sent. *)
Definition program_frame (s : esc_fault_bus_t * list esc_t * dc_stats * list (list Z)) (fr : list Z * Z) :=
  let '(f, chain, st, out) := s in
  let '(f, chain, st) := soft_bus_frame g_cfg g_n f chain st fr.1 fr.2 in
  let '(f, sent) := soft_bus_send f fr.2 in
  (f, chain, st, out ++ sent).

(** C14: The injector is transparent.  While nothing is injected (no command left on
    the bus, every slave powered, no emergency to post, no mailbox fault, delay or
    repetition armed, no process data sequence number) every frame of at least 16 bytes that
    arrives is answered at once, once and in order, with exactly what the chain of
    slaves makes of it (cut to 2048 bytes and marked as a reply), and the slaves and the clock statistics
    are those of a bus that only checks the watchdogs, advances the clocks and passes
    the frame through all slaves: no node is reset, no mailbox filled, no counter or
    register touched by the injector, and the bus stays quiet. *)
Theorem injector_transparent (f : esc_fault_bus_t) (chain : list esc_t) (st : dc_stats) (frames : list (list Z * Z)) :
  bus_quiet f -> Forall node_quiet chain -> chain <> [] -> Forall (fun fr => 16 <= len fr.1) frames ->
  let '(f', chain', st', out) := foldl program_frame (f, chain, st, []) frames in
  foldl plain_frame (chain, st, []) frames = (chain', st', out) /\ bus_quiet f' /\ length out = length frames.
Proof.
  intros B Q Hne HF. 
  cut (forall o, let '(f', chain', st', out) := foldl program_frame (f, chain, st, o) frames in
    foldl plain_frame (chain, st, o) frames = (chain', st', out) /\ bus_quiet f' /\ length out = (length o + length frames)%nat).
  { intros H. specialize (H []). destruct (foldl program_frame _ frames) as [[[f' c'] st'] out]. done. }
  revert f chain st B Q Hne. induction HF as [|[buf t] frames Hl _ IH]; intros f chain st B Q Hne o; [cbn; split_and!; [done|done|lia]|].
  cbn [foldl]. pose proof (quiet_frame f chain st buf t B Q Hne ltac:(apply Z.ltb_ge; exact Hl)) as F.
  unfold program_frame at 2, plain_frame at 2. cbn [fst snd].
  destruct (process_frame g_cfg g_n _ buf) as [c3 reply]. destruct (esc_dc_frame_end g_cfg c3 st _) as [c4 st4].
  destruct F as (f1 & -> & B1 & Q4 & N4). destruct (quiet_queue f1 reply t B1) as (f2 & -> & B2).
  specialize (IH f2 c4 st4 B2 Q4 N4 (o ++ [wire_reply reply])). destruct (foldl program_frame _ frames) as [[[f' c'] st'] out].
  destruct IH as (I1 & I2 & I3). rewrite length_app in I3. split_and!; [done|done|]. cbn [length] in *. lia.
Qed.
End quiet.

Definition demo_slot (due seq_ byte : Z) : esc_fault_txq_slot_t := mkSlot true false due seq_ [byte].
Lemma replies_in_order_witness :
  let f := (esc_fault_init (-1)) <| txq := [demo_slot 20 2 7; demo_slot 90 0 8; demo_slot 20 1 9; demo_slot 10 3 5] |> in
  let '(f', out) := soft_bus_send f 50 in
  out = [[5]; [9]; [7]] /\ exists l, out = q_buf <$> l /\ l ≡ₚ due_slots 50 f /\ StronglySorted key_le l.
Proof.
  intros f. pose proof (replies_in_order f 50 ltac:(cbn; lia)) as H.
  assert (E : (soft_bus_send f 50).2 = [[5]; [9]; [7]]) by (vm_compute; reflexivity).
  destruct (soft_bus_send f 50) as [f' out]. destruct H as (l & H1 & H2 & H3 & _). split; [exact E|]. exists l. exact (conj H1 (conj H2 H3)).
Defined.

Definition demo_chain : list esc_t := [esc_init esc_zero 0 4; esc_init esc_zero 1 4].
Definition demo_cfg : esc_dc_cfg_t := mkDcCfg 0 640 0 0 0.
(** A broadcast read of the AL status. *)
Definition demo_frame : list Z :=
  replicate 12 255 ++ [136; 164; 14; 16] ++ [7; 0; 0; 0; 48; 1; 2; 0; 0; 0] ++ [0; 0; 0; 0].
Lemma injector_transparent_witness :
  let '(f', chain', st', out) := foldl (program_frame demo_cfg 2) (esc_fault_init (-1), demo_chain, stats0, []) [(demo_frame, 1000); (demo_frame, 2000)] in
  foldl (plain_frame demo_cfg 2) (demo_chain, stats0, []) [(demo_frame, 1000); (demo_frame, 2000)] = (chain', st', out) /\ length out = 2%nat.
Proof.
  pose proof (injector_transparent demo_cfg 2 (esc_fault_init (-1)) demo_chain stats0 [(demo_frame, 1000); (demo_frame, 2000)]) as H.
  destruct (foldl (program_frame demo_cfg 2) _ _) as [[[f' c'] st'] out].
  destruct H as (H1 & _ & H3); [|repeat constructor|discriminate| |exact (conj H1 H3)].
  - split; [cbn; lia|cbn; repeat split|repeat constructor|reflexivity].
  - repeat (constructor; [vm_compute; discriminate|]). constructor.
Defined.
