(* ===== verification/EscFaultDiag.v ===== *)
(** * A bad cable of the soft bus is found where it is
      (tools/soft_bus/esc_fault.c with libecmaster/diag/ecm_diag.c)

    The injector counts the errors of a corrupted frame in the registers of the
    virtual slaves; the master reads those registers and names the cable.  The
    theorem runs one against the other. *)
From Stdlib Require Import ZArith Lia Bool.
From S2P Require Import Prelude EscMem EscTypes EscCore EscFault Diag.
From stdpp Require Import base list numbers.
Open Scope Z_scope.
Import Diag.Model Diag.Analyze.

(** The registers 0x0300..0x0313 the master reads of a node. *)
Definition err_block (e : esc_t) : list Z := EscMem.slice (regs e) 768 20.
(** [m] corrupted frames on the cable into node [k]. *)
Definition corrupt (m : nat) (k : Z) (chain : list esc_t) : list esc_t :=
  Nat.iter m (fun c => apply_bad_cable_counters c (Z.of_nat (length c)) k) chain.
(** How often counter [j] of node [i] counts one such frame, in a chain of [n] nodes. *)
Definition weight (n k i j : Z) : Z :=
  if (j =? 0) || (j =? 1) then b2z (i =? k)
  else if j =? 8 then b2z (k <? i)
  else if j =? 9 then b2z (i <? n - 1)
  else if j =? 12 then b2z (k <=? i)
  else 0.

(** Decides the comparisons of a goal and leaves the rest to [lia]. *)
Ltac weigh :=
  unfold b2z;
  repeat match goal with
    | |- context [?a =? ?b] => destruct (Z.eqb_spec a b)
    | |- context [?a <? ?b] => destruct (Z.ltb_spec a b)
    | |- context [?a <=? ?b] => destruct (Z.leb_spec a b)
    end; cbn [orb andb]; lia.
Lemma rd_cnt_inc e r a : len (regs e) = 8192 -> 0 <= a < 8192 -> 0 <= r < 8192 ->
  rd (regs (esc_cnt_inc e r)) a = rd (regs e) a + b2z ((a =? r) && (rd (regs e) a <? 255)) /\ len (regs (esc_cnt_inc e r)) = 8192.
Proof.
  intros L Ha Hr. unfold esc_cnt_inc, set_reg, reg. destruct (Z.ltb_spec (rd (regs e) r) 255); cbn [regs upd eta].
  - split; [|by rewrite len_wr]. destruct (Z.eqb_spec a r) as [->|N]; cbn [andb].
    + rewrite rd_wr_eq by lia. rewrite (proj2 (Z.ltb_lt _ 255)) by done. done.
    + rewrite rd_wr_ne by lia. cbn. lia.
  - split; [|done]. destruct (Z.eqb_spec a r) as [->|N]; cbn [andb]; [rewrite (proj2 (Z.ltb_ge _ 255)) by done|]; cbn; lia.
Qed.
Ltac not_both := repeat match goal with |- context [?a =? ?b] => destruct (Z.eqb_spec a b) end; cbn [orb andb]; reflexivity || lia.
Lemma counters_step n k i e j : len (regs e) = 8192 -> 0 <= k -> 0 <= i < n -> 0 <= j < 20 -> 0 <= rd (regs e) (768 + j) < 255 ->
  rd (regs (bad_cable_counters n k i e)) (768 + j) = rd (regs e) (768 + j) + weight n k i j /\
  len (regs (bad_cable_counters n k i e)) = 8192.
Proof.
  intros L Hk Hi Hj Hv. unfold bad_cable_counters. cbv zeta.
  assert (S : forall e' r b, len (regs e') = 8192 -> 768 <= r < 788 -> rd (regs e') (768 + j) = rd (regs e) (768 + j) + b2z b ->
    (768 + j =? r) && b = false ->
    rd (regs (esc_cnt_inc e' r)) (768 + j) = rd (regs e) (768 + j) + b2z (b || (768 + j =? r)) /\ len (regs (esc_cnt_inc e' r)) = 8192).
  { intros e' r b L' Hr E Hb. destruct (rd_cnt_inc e' r (768 + j) L' ltac:(lia) ltac:(lia)) as [C1 C2]. split; [|done].
    rewrite C1, E. destruct b, (768 + j =? r); try discriminate; cbn [b2z andb orb]; [lia|rewrite (proj2 (Z.ltb_lt _ 255)) by lia; cbn [b2z]; lia|lia]. }
  assert (Z0 : rd (regs e) (768 + j) = rd (regs e) (768 + j) + b2z false) by (cbn; lia).
  unfold weight. destruct (Z.eqb_spec i k) as [->|Nik].
  - destruct (S e 768 false L ltac:(lia) Z0 ltac:(apply andb_false_r)) as [A1 A2].
    destruct (S _ 769 _ A2 ltac:(lia) A1 ltac:(cbn [orb]; not_both)) as [B1 B2].
    destruct (S _ 780 _ B2 ltac:(lia) B1 ltac:(cbn [orb]; not_both)) as [C1 C2].
    rewrite (proj2 (Z.leb_gt (k + 1) k)) by lia. cbn [andb].
    destruct (Z.ltb_spec k (n - 1)).
    + destruct (S _ 777 _ C2 ltac:(lia) C1 ltac:(cbn [orb]; not_both)) as [D1 D2]. split; [|done]. rewrite D1. cbn [orb].
      weigh.
    + split; [|done]. rewrite C1. cbn [orb]. weigh.
  - destruct (Z.leb_spec (k + 1) i); cbn [andb].
    + rewrite (proj2 (Z.ltb_lt i n)) by lia.
      destruct (S e 776 false L ltac:(lia) Z0 ltac:(apply andb_false_r)) as [A1 A2].
      destruct (S _ 780 _ A2 ltac:(lia) A1 ltac:(cbn [orb]; not_both)) as [B1 B2].
      destruct (Z.ltb_spec i (n - 1)).
      * destruct (S _ 777 _ B2 ltac:(lia) B1 ltac:(cbn [orb]; not_both)) as [D1 D2]. split; [|done]. rewrite D1. cbn [orb].
        weigh.
      * split; [|done]. rewrite B1. cbn [orb]. weigh.
    + destruct (Z.ltb_spec i (n - 1)).
      * destruct (S e 777 false L ltac:(lia) Z0 ltac:(apply andb_false_r)) as [A1 A2]. split; [|done]. rewrite A1. cbn [orb].
        weigh.
      * split; [|done]. weigh.
Qed.

Lemma corrupt_length m k chain : length (corrupt m k chain) = length chain.
Proof. induction m as [|m IH]; [done|]. unfold corrupt in *. cbn [Nat.iter nat_rect]. unfold apply_bad_cable_counters. by rewrite length_imap. Qed.
Lemma corrupt_node m k chain i e : chain !! i = Some e -> len (regs e) = 8192 -> (forall j, 0 <= j < 20 -> rd (regs e) (768 + j) = 0) ->
  0 <= k -> (m <= 255)%nat ->
  exists e', corrupt m k chain !! i = Some e' /\ len (regs e') = 8192 /\
    forall j, 0 <= j < 20 -> rd (regs e') (768 + j) = Z.of_nat m * weight (Z.of_nat (length chain)) k (Z.of_nat i) j.
Proof.
  intros He L Hz Hk. induction m as [|m IH]; intros Hm.
  - exists e. split_and!; [done|done|]. intros j Hj. rewrite Hz by done. lia.
  - destruct (IH ltac:(lia)) as (e1 & E1 & L1 & V1). pose proof (corrupt_length m k chain) as Hl.
    unfold corrupt in *. cbn [Nat.iter nat_rect]. fold (Nat.iter m (fun c => apply_bad_cable_counters c (Z.of_nat (length c)) k) chain) in *.
    set (c := Nat.iter m _ chain) in *.
    assert (W : forall j, 0 <= weight (Z.of_nat (length chain)) k (Z.of_nat i) j <= 1) by (intros j; unfold weight; weigh).
    assert (Hi : (i < length chain)%nat) by (by eapply lookup_lt_Some).
    exists (bad_cable_counters (Z.of_nat (length chain)) k (Z.of_nat i) e1).
    assert (St : forall j, 0 <= j < 20 -> rd (regs (bad_cable_counters (Z.of_nat (length chain)) k (Z.of_nat i) e1)) (768 + j) =
      Z.of_nat (S m) * weight (Z.of_nat (length chain)) k (Z.of_nat i) j /\
      len (regs (bad_cable_counters (Z.of_nat (length chain)) k (Z.of_nat i) e1)) = 8192).
    { intros j Hj. specialize (W j). destruct (counters_step (Z.of_nat (length chain)) k (Z.of_nat i) e1 j) as [S1 S2]; try done; try lia.
      - rewrite V1 by done. nia.
      - split; [|done]. rewrite S1, V1 by done. lia. }
    split_and!; [|by apply (St 0)|intros j Hj; by apply St].
    unfold apply_bad_cable_counters. rewrite list_lookup_imap, E1, Hl. done.
Qed.

(** A read of the error counters of the whole chain. *)
Record counter_read (chain : list esc_t) (raw : ecm_diag_raw_t) : Prop := {
  cr_ok : frame_ok raw = true;
  cr_first : first raw = 0;
  cr_count : raw_count raw = Z.of_nat (length chain);
  cr_slave : forall i e, chain !! i = Some e -> 0 < wkc_err (raw_s raw !!! i) /\ rs_err (raw_s raw !!! i) = err_block e;
}.

(** Totals and last deltas of a slave whose counters were read for the first time. *)
Lemma ingest_first clear rd_ r sl : 0 < wkc_err r -> have_prev sl = false ->
  let d := split ((fun j => if is_counter j then rs_err r !!! Z.to_nat j else 0) <$> seqZ 0 20) in
  tot (ingest_slave clear rd_ r sl) = add (tot sl) d /\ last (ingest_slave clear rd_ r sl) = d /\
  saturated (ingest_slave clear rd_ r sl) =
    if existsb (fun j => is_counter j && (rs_err r !!! Z.to_nat j =? 255)) (seqZ 0 20) then u64 (saturated sl + 1) else saturated sl.
Proof.
  intros Hw Hp. cbv zeta. unfold ingest_slave. cbv zeta. rewrite (proj2 (Z.ltb_lt 0 (wkc_err r))) by done. cbn [orb negb].
  set (sl1 := sl <| seen_read := rd_ |> <| station_addr := _ |> <| last := _ |> <| answered := _ |> <| ever_answered := _ |>).
  assert (E : tot sl1 = tot sl /\ saturated sl1 = saturated sl /\ have_prev sl1 = false) by done.
  clearbody sl1. destruct E as (E1 & E2 & E3). unfold ingest_errors. rewrite E3, <- E1, <- E2.
  assert (D : delta_byte clear false (prev sl1) (rs_err r) <$> seqZ 0 ECM_DIAG_ERR_LEN =
              (fun j => if is_counter j then rs_err r !!! Z.to_nat j else 0) <$> seqZ 0 20).
  { apply list_fmap_ext. intros _ j _. unfold delta_byte. destruct (is_counter j); [|done]. by destruct clear. }
  rewrite D. change (seqZ 0 ECM_DIAG_ERR_LEN) with (seqZ 0 20).
  generalize (existsb (fun j => is_counter j && (rs_err r !!! Z.to_nat j =? 255)) (seqZ 0 20)).
  generalize (split ((fun j => if is_counter j then rs_err r !!! Z.to_nat j else 0) <$> seqZ 0 20)).
  intros c b. destruct b, (0 <? wkc_dl r), (0 <? wkc_al r); done.
Qed.

(** The counts of one node after [m] corrupted frames. *)
Definition seen_counts (m n k i : Z) : ecm_diag_counts_t :=
  let w j := m * weight n k i j in
  mkcounts [w 0; 0; 0; 0] [w 1; 0; 0; 0] [w 8; w 9; 0; 0] (w 12) 0 [0; 0; 0; 0].
Lemma err_block_at e j : len (regs e) = 8192 -> 0 <= j < 20 -> err_block e !!! Z.to_nat j = rd (regs e) (768 + j).
Proof.
  intros L Hj. rewrite <- (rd_slice (regs e) 768 20 j) by lia. fold (err_block e).
  assert (Hl : (Z.to_nat j < length (err_block e))%nat).
  { pose proof (len_slice (regs e) 768 20 ltac:(lia) ltac:(lia) ltac:(lia)) as H. unfold len in H. unfold err_block. lia. }
  destruct (lookup_lt_is_Some_2 _ _ Hl) as [x Hx]. unfold rd. rewrite Hx. by apply list_lookup_total_correct.
Qed.

Section located.
Context (chain : list esc_t) (m : nat) (k : Z) (expected : Z) (raw : ecm_diag_raw_t).
Notation N := (Z.of_nat (length chain)).
Context (Hn : (length chain <= 64)%nat) (Hm : (1 <= m <= 254)%nat) (Hk : 0 <= k < N).
Context (Hzero : forall i e, chain !! i = Some e -> len (regs e) = 8192 /\ err_block e = replicate 20 0).
Context (Hraw : counter_read (corrupt m k chain) raw).
Notation d := (ecm_diag_ingest (ecm_diag_init N expected) raw).

Lemma weight_range j i : 0 <= weight N k i j <= 1.
Proof. unfold weight. weigh. Qed.

Lemma located_slave i : 0 <= i < N ->
  tot (slave_at d i) = seen_counts (Z.of_nat m) N k i /\ last (slave_at d i) = seen_counts (Z.of_nat m) N k i /\ saturated (slave_at d i) = 0.
Proof.
  intros Hi. destruct (lookup_lt_is_Some_2 chain (Z.to_nat i) ltac:(lia)) as [e He].
  destruct (Hzero _ _ He) as [L Z0].
  destruct (corrupt_node m k chain (Z.to_nat i) e) as (e' & E' & L' & V'); try done; try lia.
  { intros j Hj. rewrite <- err_block_at, Z0 by done. rewrite lookup_total_replicate_2; [done|lia]. }
  rewrite Z2Nat.id in V' by lia.
  assert (Wf : diag_wf (ecm_diag_init N expected) /\ n (ecm_diag_init N expected) = N).
  { unfold ecm_diag_init, ECM_DIAG_MAX_SLAVES, diag_wf. rewrite (proj2 (Z.ltb_ge 64 N)) by lia. cbn [s n]. rewrite length_replicate. split; [split; lia|done]. }
  destruct Wf as [Wf En]. destruct Hraw as [Hok Hf Hc Hs].
  destruct (ingest_at (ecm_diag_init N expected) raw i Wf Hok ltac:(lia) ltac:(rewrite En; lia)) as [rd_ Hat].
  rewrite corrupt_length in Hc. rewrite Hf, Hc in Hat. rewrite (proj2 (Z.leb_le 0 i)), (proj2 (Z.ltb_lt i (0 + N))) in Hat by lia. cbn [andb] in Hat.
  assert (Hz : s (ecm_diag_init N expected) !!! Z.to_nat i = slave_zero).
  { apply list_lookup_total_correct. cbn [ecm_diag_init s]. apply lookup_replicate_2. lia. }
  rewrite Hz in Hat. destruct (Hs _ _ E') as [Hw Hr].
  unfold slave_at. rewrite Hat. destruct (ingest_first (clear_on_read raw) rd_ (raw_s raw !!! Z.to_nat i) slave_zero Hw eq_refl) as (T1 & T2 & T3).
  rewrite Hr in T1, T2, T3.
  assert (G : (fun j => if is_counter j then err_block e' !!! Z.to_nat j else 0) <$> seqZ 0 20 =
              (fun j => if is_counter j then Z.of_nat m * weight N k i j else 0) <$> seqZ 0 20).
  { apply list_fmap_ext. intros q j Hq. apply list_elem_of_lookup_2, elem_of_seqZ in Hq.
    destruct (is_counter j); [|done]. rewrite err_block_at by (done || lia). apply V'. lia. }
  rewrite G in T1, T2.
  assert (Sp : split ((fun j => if is_counter j then Z.of_nat m * weight N k i j else 0) <$> seqZ 0 20) = seen_counts (Z.of_nat m) N k i).
  { change (seqZ 0 20) with [0;1;2;3;4;5;6;7;8;9;10;11;12;13;14;15;16;17;18;19]. unfold split, seen_counts, is_counter.
    change (seqZ 0 4) with [0;1;2;3]. cbn -[Z.mul weight].
    assert (W0 : forall j, (j =? 0) || (j =? 1) || (j =? 8) || (j =? 9) || (j =? 12) = false -> Z.of_nat m * weight N k i j = 0).
    { intros j Hj. unfold weight. destruct (j =? 0), (j =? 1), (j =? 8), (j =? 9), (j =? 12); try discriminate. cbn [orb]. lia. }
    rewrite (W0 2 eq_refl), (W0 3 eq_refl), (W0 4 eq_refl), (W0 5 eq_refl), (W0 6 eq_refl), (W0 7 eq_refl), (W0 10 eq_refl), (W0 11 eq_refl),
      (W0 13 eq_refl), (W0 16 eq_refl), (W0 17 eq_refl), (W0 18 eq_refl), (W0 19 eq_refl). reflexivity. }
  rewrite Sp in T1, T2. split_and!; [|done|].
  - rewrite T1. unfold seen_counts, add, slave_zero, counts_zero, zero4. cbn [tot inv rx fwd pu pdi lost zip_with].
    assert (U : forall j, u64 (0 + Z.of_nat m * weight N k i j) = Z.of_nat m * weight N k i j).
    { intros j. pose proof (weight_range j i). unfold u64. apply Z.mod_small. nia. }
    rewrite !U. done.
  - rewrite T3. assert (B : existsb (fun j => is_counter j && (err_block e' !!! Z.to_nat j =? 255)) (seqZ 0 20) = false).
    { apply not_true_iff_false. rewrite existsb_exists. intros (j & Hj & Hb). apply list_elem_of_In, elem_of_seqZ in Hj.
      apply andb_true_iff in Hb as [_ Hb%Z.eqb_eq]. rewrite err_block_at, V' in Hb by (done || lia). pose proof (weight_range j i). nia. }
    rewrite B. done.
Qed.

Lemma flat_map_single {B} (f : Z -> list B) (a : Z) (c : nat) : a <= k < a + Z.of_nat c -> (forall i, a <= i < a + Z.of_nat c -> i <> k -> f i = []) ->
  flat_map f (seqZ a (Z.of_nat c)) = f k.
Proof.
  revert a. induction c as [|c IH]; intros a Ha Hf; [lia|]. rewrite seqZ_cons by lia. cbn [flat_map].
  replace (Z.pred (Z.of_nat (S c))) with (Z.of_nat c) by lia. destruct (decide (a = k)) as [->|Na].
  - rewrite (proj2 (flat_map_nil f (seqZ (Z.succ k) (Z.of_nat c)))); [apply app_nil_r|]. intros i Hi%elem_of_seqZ. apply Hf; lia.
  - rewrite (Hf a) by lia. apply IH; [lia|]. intros i Hi. apply Hf. lia.
Qed.
Lemma located_n : n d = N.
Proof.
  destruct (ingest_s (ecm_diag_init N expected) raw) as [-> _]. cbn [ecm_diag_init n]. unfold ECM_DIAG_MAX_SLAVES.
  by rewrite (proj2 (Z.ltb_ge 64 N)) by lia.
Qed.

Lemma nz_weight j i : nz (Z.of_nat m * weight N k i j) = (0 <? weight N k i j).
Proof. pose proof (weight_range j i). unfold nz. weigh. Qed.

(** The counters of slave [i] in plain numbers. *)
Lemma located_counts i : 0 <= i < N ->
  let c := mkcounts [if i =? k then Z.of_nat m else 0; 0; 0; 0] [if i =? k then Z.of_nat m else 0; 0; 0; 0]
    [if k <? i then Z.of_nat m else 0; if i <? N - 1 then Z.of_nat m else 0; 0; 0] (if k <=? i then Z.of_nat m else 0) 0 [0; 0; 0; 0] in
  tot (slave_at d i) = c /\ last (slave_at d i) = c /\ saturated (slave_at d i) = 0.
Proof.
  intros Hi. destruct (located_slave i Hi) as (-> & -> & ->). cbv zeta.
  assert (E : seen_counts (Z.of_nat m) N k i = mkcounts [if i =? k then Z.of_nat m else 0; 0; 0; 0] [if i =? k then Z.of_nat m else 0; 0; 0; 0]
    [if k <? i then Z.of_nat m else 0; if i <? N - 1 then Z.of_nat m else 0; 0; 0] (if k <=? i then Z.of_nat m else 0) 0 [0; 0; 0; 0]); [|done].
  unfold seen_counts, weight. cbn [Z.eqb orb Pos.eqb]. unfold b2z.
  destruct (i =? k), (k <? i), (i <? N - 1), (k <=? i); rewrite ?Z.mul_0_r, ?Z.mul_1_r; done.
Qed.
Lemma four_at (a b c e : Z) : [a; b; c; e] !!! Z.to_nat 0 = a /\ [a; b; c; e] !!! Z.to_nat 1 = b /\ [a; b; c; e] !!! Z.to_nat 2 = c /\
  [a; b; c; e] !!! Z.to_nat 3 = e /\ [a; b; c; e] !!! 0%nat = a.
Proof. done. Qed.
(** Puts the counters of slave [i] into the goal. *)
Ltac counts i Hi :=
  let T := fresh in let L := fresh in let S := fresh in destruct (located_counts i Hi) as (T & L & S); rewrite ?T, ?L, ?S; clear T L S;
  cbn [inv rx fwd pu pdi lost];
  repeat match goal with |- context [[?a; ?b; ?c; ?e] !!! _] =>
    let A := fresh in let B := fresh in let C := fresh in let D := fresh in let E := fresh in
    destruct (four_at a b c e) as (A & B & C & D & E); rewrite ?A, ?B, ?C, ?D, ?E; clear A B C D E end.

Lemma located_origins : origins d = [mkfind ECM_FIND_CABLE_FWD ECM_SEV_ERROR (k + 1) 0 0 (Z.of_nat m) true].
Proof.
  unfold origins, slaves. rewrite located_n, flat_map_single; [|lia|].
  - unfold origin_fwd, origin_ret, worst, now_active, flat_map, nz. counts k Hk. rewrite Z.eqb_refl.
    change (u64 (0 + 0)) with 0. cbn [Z.ltb Z.compare Z.eqb negb when app]. rewrite Z.ltb_irrefl.
    rewrite (proj2 (Z.eqb_neq (Z.of_nat m) 0)) by lia. cbn [negb when app].
    assert (U : u64 (Z.of_nat m + Z.of_nat m) = Z.of_nat m + Z.of_nat m) by (unfold u64; apply Z.mod_small; lia).
    rewrite U, (proj2 (Z.ltb_lt 0 (Z.of_nat m + Z.of_nat m))) by lia. done.
  - intros i Hi Ne. unfold origin_fwd, origin_ret, worst, now_active, flat_map, nz. counts i Hi.
    rewrite (proj2 (Z.eqb_neq i k)) by done. done.
Qed.
Lemma located_fwd : fwd_no_origin d = [].
Proof.
  unfold fwd_no_origin, any_origin, slaves. rewrite located_origins, located_n.
  assert (G : forall c a so_far, 0 <= a -> a + Z.of_nat c <= N -> (k < a -> so_far = true) -> fwd_loop d (seqZ a (Z.of_nat c)) true so_far 0 0 = (0, 0)).
  { induction c as [|c IH]; intros a so Ha Hc Hs; [done|]. rewrite seqZ_cons by lia. cbn [fwd_loop].
    replace (Z.pred (Z.of_nat (S c))) with (Z.of_nat c) by lia. assert (Ha' : 0 <= a < N) by lia. counts a Ha'.
    rewrite andb_false_r, orb_false_r.
    destruct (Z.eqb_spec a k) as [->|Nk].
    - rewrite (proj2 (Z.ltb_irrefl k)) || rewrite (Z.ltb_irrefl k). change (nz 0) with false. cbn [andb].
      apply IH; try lia. intros _. unfold nz. rewrite (proj2 (Z.eqb_neq (Z.of_nat m) 0)) by lia. cbn [negb]. by rewrite orb_true_r.
    - change (nz 0) with false. rewrite !orb_false_r.
      assert (F : nz (if k <? a then Z.of_nat m else 0) && negb so = false).
      { destruct (Z.ltb_spec k a); [rewrite Hs by done; apply andb_false_r|done]. }
      rewrite F. apply IH; try lia. intros H. apply Hs. lia. }
  rewrite G by lia. done.
Qed.
Lemma located_counters : slave_counters d = [].
Proof.
  unfold slave_counters, slaves. rewrite located_n. apply flat_map_nil. intros i Hi%elem_of_seqZ. assert (Hi' : 0 <= i < N) by lia.
  assert (P : nz (pu (tot (slave_at d i))) && negb (port_err (slave_at d i)) = false).
  { unfold port_err. change (seqZ 0 4) with [0; 1; 2; 3]. cbn [existsb]. counts i Hi'.
    unfold nz. destruct (Z.eqb_spec i k), (Z.ltb_spec k i), (Z.leb_spec k i); try lia; try done;
      rewrite (proj2 (Z.eqb_neq (Z.of_nat m) 0)) by lia; cbn [negb orb andb]; done. }
  rewrite P. counts i Hi'. done.
Qed.
End located.

(** C16: A bad cable is found where it is.  Corrupted frames, at least one and at most
    254, arrive on the cable into node [k] of a chain whose error counters were
    clear.  When the master then reads the counters for the first time, its analysis
    of the frame errors is one finding, active and an error: the cable into slave
    [k + 1] (the master counts from 1), with the number of frames; the errors
    forwarded by the other nodes raise no second finding. *)
Theorem bad_cable_located (chain : list esc_t) (m : nat) (k expected : Z) (raw : ecm_diag_raw_t) :
  (length chain <= 64)%nat -> (1 <= m <= 254)%nat -> 0 <= k < Z.of_nat (length chain) ->
  (forall i e, chain !! i = Some e -> len (regs e) = 8192 /\ err_block e = replicate 20 0) ->
  counter_read (corrupt m k chain) raw ->
  let d := ecm_diag_ingest (ecm_diag_init (Z.of_nat (length chain)) expected) raw in
  origins d ++ fwd_no_origin d ++ slave_counters d = [mkfind ECM_FIND_CABLE_FWD ECM_SEV_ERROR (k + 1) 0 0 (Z.of_nat m) true].
Proof.
  intros Hn Hm Hk Hz Hr. cbv zeta.
  by rewrite (located_origins chain m k), (located_fwd chain m k), (located_counters chain m k).
Qed.

Definition fresh : esc_t := esc_init esc_zero 0 4.
Lemma bad_cable_located_witness :
  let chain := [fresh; fresh; fresh] in
  let raw := mkraw 1 0 true false 3 0 3 3 8 0 0 1 [Wkc.wkc_zero; Wkc.wkc_zero]
    ((fun e => mkraws 4097 1 1 1 (err_block e) 0 8 0) <$> corrupt 3 1 chain) in
  let d := ecm_diag_ingest (ecm_diag_init 3 8) raw in
  origins d ++ fwd_no_origin d ++ slave_counters d = [mkfind ECM_FIND_CABLE_FWD ECM_SEV_ERROR 2 0 0 3 true].
Proof.
  intros chain raw.
  apply (bad_cable_located chain 3 1 8 raw); [unfold chain; cbn; lia|lia|unfold chain; cbn; lia| |].
  - intros i e He. assert (e = fresh) as -> by (unfold chain in He; do 3 (destruct i as [|i]; [injection He as He; symmetry; exact He|]); discriminate He). split; vm_compute; reflexivity.
  - split; [reflexivity|reflexivity|vm_compute; reflexivity|]. intros i e He. unfold raw. cbn [raw_s].
    assert (E : (fun e => mkraws 4097 1 1 1 (err_block e) 0 8 0) <$> corrupt 3 1 chain !! i = Some (mkraws 4097 1 1 1 (err_block e) 0 8 0)) by (rewrite He; reflexivity).
    rewrite <- list_lookup_fmap in E. rewrite (list_lookup_total_correct _ _ _ E). cbn [wkc_err rs_err]. split; [lia|reflexivity].
Defined.
