(* ===== verification/Cia402Cfg.v ===== *)
(** * CiA402 axis configuration: libecm_cia402/ecm_cia402_cfg.c

    Mode lists (parse and print), the axis list, the object index of an axis
    and the binding of every object the requested modes need.  The error
    texts become the constructors of [axis_err], which keep the object and
    the reason.  The "SLAVE[:AXIS]" list and the axes file are in Cia402File. *)
From Stdlib Require Import ZArith Lia Bool Ascii String.
From S2P Require Import Prelude CString Pdo.
From stdpp Require Import base list numbers sets.
Open Scope Z_scope.

Definition ECM_AXIS_MAX : Z := 32.
Definition ECM_AXIS_OFFSET : Z := 0x800.

Definition ECM_MODE_PP : Z := 1.
Definition ECM_MODE_VL : Z := 2.
Definition ECM_MODE_PV : Z := 4.
Definition ECM_MODE_TQ : Z := 8.
Definition ECM_MODE_HM : Z := 32.
Definition ECM_MODE_IP : Z := 64.
Definition ECM_MODE_CSP : Z := 128.
Definition ECM_MODE_CSV : Z := 256.
Definition ECM_MODE_CST : Z := 512.
Definition ECM_MODE_KNOWN : Z :=
  Z.lor (Z.lor (Z.lor (Z.lor (Z.lor ECM_MODE_PP ECM_MODE_PV) ECM_MODE_HM) ECM_MODE_CSP) ECM_MODE_CSV) ECM_MODE_CST.

(** [modes & bits] as a condition. *)
Definition has (m bits : Z) : bool := negb (Z.land m bits =? 0).

Record ecm_axis_cfg_t := mkaxcfg { cfg_slave : Z; cfg_n : Z; cfg_modes : Z; cfg_name : list ascii }.
Record ecm_axis_bind_t := mkaxbind {
  b_cw : ecm_pdo_handle_t; b_sw : ecm_pdo_handle_t; b_tpos : ecm_pdo_handle_t; b_apos : ecm_pdo_handle_t;
  b_tvel : ecm_pdo_handle_t; b_avel : ecm_pdo_handle_t; b_ttq : ecm_pdo_handle_t; b_atq : ecm_pdo_handle_t;
  b_mode : ecm_pdo_handle_t; b_mode_disp : ecm_pdo_handle_t; b_err : ecm_pdo_handle_t; b_mode_by_sdo : bool
}.
#[export] Instance ecm_axis_bind_eta : Eta ecm_axis_bind_t := fun b =>
  mkaxbind (b_cw b) (b_sw b) (b_tpos b) (b_apos b) (b_tvel b) (b_avel b) (b_ttq b) (b_atq b)
    (b_mode b) (b_mode_disp b) (b_err b) (b_mode_by_sdo b).
Definition axbind_zero : ecm_axis_bind_t :=
  mkaxbind handle_zero handle_zero handle_zero handle_zero handle_zero handle_zero
    handle_zero handle_zero handle_zero handle_zero handle_zero false.

(** ** Mode lists *)

Definition MODES : list (list ascii * Z) :=
  [(list_ascii_of_string "pp", ECM_MODE_PP); (list_ascii_of_string "pv", ECM_MODE_PV);
   (list_ascii_of_string "hm", ECM_MODE_HM); (list_ascii_of_string "csp", ECM_MODE_CSP);
   (list_ascii_of_string "csv", ECM_MODE_CSV); (list_ascii_of_string "cst", ECM_MODE_CST)].

(** [buf] holds the characters written, [cap] counts the terminator. *)
Fixpoint modes_str_loop (l : list (list ascii * Z)) (modes cap : Z) (buf : list ascii) : list ascii :=
  match l with
  | [] => buf
  | (name, bit) :: l =>
      if negb (has modes bit) then modes_str_loop l modes cap buf
      else
        let buf := match buf with [] => [] | _ => buf ++ [","%char] end in
        let buf := buf ++ take (Z.to_nat (cap - 1 - Z.of_nat (length buf))) (toupper <$> name) in
        if cap <=? Z.of_nat (length buf) + 1 then buf else modes_str_loop l modes cap buf
  end.
Definition ecm_axis_modes_str (modes cap : Z) : list ascii :=
  if cap =? 0 then [] else modes_str_loop MODES modes cap [].

Inductive modes_err := UnknownMode (t : list ascii) | NoModeGiven.

Fixpoint parse_modes_loop (toks : list (list ascii)) (m : Z) : modes_err + Z :=
  match toks with
  | [] => if m =? 0 then inl NoModeGiven else inr m
  | t :: toks =>
      match list_find (fun e => strcaseeq t e.1 = true) MODES with
      | None => inl (UnknownMode t)
      | Some (_, e) => parse_modes_loop toks (Z.lor m e.2)
      end
  end.
(** The text is cut at the 127 characters of the local buffer. *)
Definition ecm_axis_parse_modes (s : list ascii) : modes_err + Z :=
  parse_modes_loop (strtok "," [] (take 127 s)) 0.

(** ** The axis list *)

Inductive add_err := BadRange | GivenTwice | TooMany.

(** The name of an unnamed axis is its reference "SLAVE:N". *)
Fixpoint dec_digits (fuel : nat) (n : Z) (acc : list ascii) : list ascii :=
  match fuel with
  | O => acc
  | S fuel =>
      let acc := ascii_of_nat (48 + Z.to_nat (n mod 10)) :: acc in
      if n <? 10 then acc else dec_digits fuel (n / 10) acc
  end.
Definition add_axis (ax : list ecm_axis_cfg_t) (max slave n modes : Z) (name : list ascii) :
    add_err + list ecm_axis_cfg_t :=
  if (slave <? 1) || (ECM_PDO_MAX_SLAVES <? slave) || (n <? 0) || (7 <? n) then inl BadRange
  else if existsb (fun a => (cfg_slave a =? slave) && (cfg_n a =? n)) ax then inl GivenTwice
  else if max <=? Z.of_nat (length ax) then inl TooMany
  else
    let nm := match name with
              | [] => take 23 (dec_digits 3 slave [] ++ ":"%char :: dec_digits 2 n [])
              | _ => take 23 name
              end in
    inr (ax ++ [mkaxcfg (u16 slave) (u8 n) modes nm]).

(** ** Binding *)

Definition ecm_axis_index (a : ecm_axis_cfg_t) (base : Z) : Z := u16 (base + ECM_AXIS_OFFSET * cfg_n a).

Inductive axis_err :=
  | NoMode | ModeNotHandled
  | Missing (idx : Z) (dir : ecm_pdo_dir_t)       (* the slave does not map the object *)
  | WrongDir (idx : Z) (dir : ecm_pdo_dir_t).     (* mapped in the other direction *)

(** [need]: the result code with its text, and the handle. *)
Definition need (a : ecm_axis_cfg_t) (t : ecm_pdo_table_t) (loc : list ecm_pdo_loc_t) (base : Z)
    (dir : ecm_pdo_dir_t) (optional : bool) : option axis_err * ecm_pdo_handle_t :=
  let idx := ecm_axis_index a base in
  match ecm_pdo_bind t loc (cfg_slave a) idx 0 with
  | None => (if optional then None else Some (Missing idx dir), handle_zero)
  | Some h =>
      if decide (h_dir h = dir) then (None, h) else (Some (WrongDir idx dir), handle_zero)
  end.

(** [if (need(...)) return -1;] and the call whose result is ignored. *)
Notation "'NEED' h ':=' m 'IN' k" :=
  (match m with (Some e, _) => inl e | (None, h) => k end) (at level 200, h name, k at level 200) : ecm_scope.

Definition ecm_axis_bind (a : ecm_axis_cfg_t) (t : ecm_pdo_table_t) (loc : list ecm_pdo_loc_t) :
    axis_err + ecm_axis_bind_t :=
  let b := axbind_zero in
  let m := cfg_modes a in
  let nd := need a t loc in
  if m =? 0 then inl NoMode
  else if negb (Z.land m (Z.lnot ECM_MODE_KNOWN) =? 0) then inl ModeNotHandled
  else
    NEED cw := nd 0x6040 ECM_PDO_OUT false IN
    NEED sw := nd 0x6041 ECM_PDO_IN false IN
    let b := b <| b_cw := cw |> <| b_sw := sw |> in
    NEED tpos := (if has m (Z.lor ECM_MODE_CSP ECM_MODE_PP) then nd 0x607A ECM_PDO_OUT false
                  else (None, handle_zero)) IN
    NEED apos := (if has m (Z.lor (Z.lor ECM_MODE_CSP ECM_MODE_PP) ECM_MODE_HM) then nd 0x6064 ECM_PDO_IN false
                  else (None, handle_zero)) IN
    let b := b <| b_tpos := tpos |> <| b_apos := apos |> in
    let vel := has m (Z.lor ECM_MODE_CSV ECM_MODE_PV) in
    NEED tvel := (if vel then nd 0x60FF ECM_PDO_OUT false else (None, handle_zero)) IN
    let b := b <| b_tvel := tvel |> in
    let b := if vel then b <| b_avel := (nd 0x606C ECM_PDO_IN true).2 |> else b in
    NEED apos2 := (if vel && (h_bits (b_avel b) =? 0) then nd 0x6064 ECM_PDO_IN false else (None, b_apos b)) IN
    let b := b <| b_apos := apos2 |> in
    NEED ttq := (if has m ECM_MODE_CST then nd 0x6071 ECM_PDO_OUT false else (None, handle_zero)) IN
    NEED atq := (if has m ECM_MODE_CST then nd 0x6077 ECM_PDO_IN false else (None, handle_zero)) IN
    let b := b <| b_ttq := ttq |> <| b_atq := atq |> in
    let several := negb (Z.land m (m - 1) =? 0) in
    NEED mode := nd 0x6060 ECM_PDO_OUT (negb several) IN
    NEED mode_disp := nd 0x6061 ECM_PDO_IN (negb several) IN
    let b := b <| b_mode := mode |> <| b_mode_disp := mode_disp |> in
    let b := b <| b_mode_by_sdo := h_bits mode =? 0 |> in
    let b := b <| b_err := (nd 0x603F ECM_PDO_IN true).2 |> in
    let b := if h_bits (b_apos b) =? 0 then b <| b_apos := (nd 0x6064 ECM_PDO_IN true).2 |> else b in
    let b := if h_bits (b_avel b) =? 0 then b <| b_avel := (nd 0x606C ECM_PDO_IN true).2 |> else b in
    inr b.

(** The modes missing from 0x6502, as the error text prints them. *)
Definition ecm_axis_check_modes (a : ecm_axis_cfg_t) (supported : Z) : option (list ascii) :=
  let miss := Z.land (cfg_modes a) (Z.lnot supported) in
  if miss =? 0 then None else Some (ecm_axis_modes_str miss 64).

(** ** What a bound axis has *)

(** [h] is the axis' own object [base], mapped in direction [dir]. *)
Definition bound (a : ecm_axis_cfg_t) (t : ecm_pdo_table_t) (loc : list ecm_pdo_loc_t) (base : Z)
    (dir : ecm_pdo_dir_t) (h : ecm_pdo_handle_t) : Prop :=
  ecm_pdo_bind t loc (cfg_slave a) (ecm_axis_index a base) 0 = Some h /\ h_dir h = dir.

Lemma need_inv a t loc base dir opt h : need a t loc base dir opt = (None, h) ->
  bound a t loc base dir h \/ (opt = true /\ h = handle_zero).
Proof.
  unfold need, bound. destruct (ecm_pdo_bind _ _ _ _ _) as [h'|].
  - destruct (decide (h_dir h' = dir)); [|discriminate]. intros [= <-]. auto.
  - destruct opt; [|discriminate]. intros [= <-]. auto.
Qed.

Lemma need_opt a t loc base dir : bound a t loc base dir (need a t loc base dir true).2 \/
  (need a t loc base dir true).2 = handle_zero.
Proof.
  unfold need, bound. destruct (ecm_pdo_bind _ _ _ _ _) as [h'|]; [|auto].
  destruct (decide (h_dir h' = dir)); auto.
Qed.

(** Present with the right object, or absent. *)
Definition maybe (a : ecm_axis_cfg_t) t loc base dir (h : ecm_pdo_handle_t) : Prop :=
  bound a t loc base dir h \/ h = handle_zero.

Lemma need_maybe a t loc base dir opt h : need a t loc base dir opt = (None, h) -> maybe a t loc base dir h.
Proof. intros H. destruct (need_inv _ _ _ _ _ _ _ H) as [?|[_ ?]]; [left|right]; done. Qed.

Lemma need_must a t loc base dir h : need a t loc base dir false = (None, h) -> bound a t loc base dir h.
Proof. intros H. by destruct (need_inv _ _ _ _ _ _ _ H) as [?|[? _]]. Qed.

Lemma need_if a t loc base dir c opt h :
  (if c : bool then need a t loc base dir opt else (None, handle_zero)) = (None, h) ->
  maybe a t loc base dir h /\ (c = true -> opt = false -> bound a t loc base dir h).
Proof.
  destruct c; [|intros [= <-]; split; [by right|done]].
  intros H. split; [by eapply need_maybe|]. intros _ ->. by apply need_must.
Qed.

Record bind_ok (a : ecm_axis_cfg_t) (t : ecm_pdo_table_t) (loc : list ecm_pdo_loc_t) (b : ecm_axis_bind_t) : Prop := {
  bo_modes : cfg_modes a <> 0 /\ Z.land (cfg_modes a) (Z.lnot ECM_MODE_KNOWN) = 0;
  bo_cw : bound a t loc 0x6040 ECM_PDO_OUT (b_cw b);
  bo_sw : bound a t loc 0x6041 ECM_PDO_IN (b_sw b);
  bo_tpos : has (cfg_modes a) (Z.lor ECM_MODE_CSP ECM_MODE_PP) = true -> bound a t loc 0x607A ECM_PDO_OUT (b_tpos b);
  bo_apos : has (cfg_modes a) (Z.lor (Z.lor ECM_MODE_CSP ECM_MODE_PP) ECM_MODE_HM) = true ->
              bound a t loc 0x6064 ECM_PDO_IN (b_apos b);
  bo_tvel : has (cfg_modes a) (Z.lor ECM_MODE_CSV ECM_MODE_PV) = true -> bound a t loc 0x60FF ECM_PDO_OUT (b_tvel b);
  bo_avel : has (cfg_modes a) (Z.lor ECM_MODE_CSV ECM_MODE_PV) = true ->
              bound a t loc 0x606C ECM_PDO_IN (b_avel b) \/ bound a t loc 0x6064 ECM_PDO_IN (b_apos b);
  bo_tq : has (cfg_modes a) ECM_MODE_CST = true ->
            bound a t loc 0x6071 ECM_PDO_OUT (b_ttq b) /\ bound a t loc 0x6077 ECM_PDO_IN (b_atq b);
  bo_mode : Z.land (cfg_modes a) (cfg_modes a - 1) <> 0 ->
              bound a t loc 0x6060 ECM_PDO_OUT (b_mode b) /\ bound a t loc 0x6061 ECM_PDO_IN (b_mode_disp b);
  bo_sdo : b_mode_by_sdo b = (h_bits (b_mode b) =? 0);
  bo_outs : maybe a t loc 0x607A ECM_PDO_OUT (b_tpos b) /\ maybe a t loc 0x60FF ECM_PDO_OUT (b_tvel b) /\
            maybe a t loc 0x6071 ECM_PDO_OUT (b_ttq b) /\ maybe a t loc 0x6060 ECM_PDO_OUT (b_mode b);
  bo_ins : maybe a t loc 0x6064 ECM_PDO_IN (b_apos b) /\ maybe a t loc 0x606C ECM_PDO_IN (b_avel b) /\
           maybe a t loc 0x6077 ECM_PDO_IN (b_atq b) /\ maybe a t loc 0x6061 ECM_PDO_IN (b_mode_disp b) /\
           maybe a t loc 0x603F ECM_PDO_IN (b_err b)
}.

(** Rebinding an absent optional object keeps a bound one. *)
Lemma rebind a t loc base dir (h : ecm_pdo_handle_t) : maybe a t loc base dir h ->
  maybe a t loc base dir (if h_bits h =? 0 then (need a t loc base dir true).2 else h).
Proof. intros H. destruct (h_bits h =? 0); [apply need_opt|done]. Qed.

Lemma rebind_bound a t loc base dir (h : ecm_pdo_handle_t) : bound a t loc base dir h ->
  bound a t loc base dir (if h_bits h =? 0 then (need a t loc base dir true).2 else h).
Proof.
  intros H. destruct (h_bits h =? 0); [|done]. destruct H as [H1 H2]. unfold need.
  rewrite H1. rewrite decide_True by done. done.
Qed.

(** One [NEED] of the binding: it failed, or it gave the handle [h]. *)
Ltac next_need h E :=
  lazymatch goal with
  | |- (match ?x with _ => _ end) = _ -> _ => destruct x as [[|] h] eqn:E; [discriminate|]
  end.

Lemma axis_bind_inv a t loc b : ecm_axis_bind a t loc = inr b -> bind_ok a t loc b.
Proof.
  unfold ecm_axis_bind. destruct (Z.eqb_spec (cfg_modes a) 0) as [|Hm]; [discriminate|].
  destruct (Z.eqb_spec (Z.land (cfg_modes a) (Z.lnot ECM_MODE_KNOWN)) 0) as [Hk|]; [|discriminate]. cbn [negb].
  cbv zeta. set (m := cfg_modes a) in *. next_need cw E1. next_need sw E2.
  next_need tpos E3.
  next_need apos E4.
  next_need tvel E5.
  set (vel := has m (Z.lor ECM_MODE_CSV ECM_MODE_PV)) in *.
  set (avel := if vel then (need a t loc 0x606C ECM_PDO_IN true).2 else handle_zero).
  next_need apos2 E6.
  next_need ttq E7.
  next_need atq E8.
  next_need mode E9. next_need md E10.
  assert (Eav : vel && (h_bits avel =? 0) = true /\ need a t loc 0x6064 ECM_PDO_IN false = (None, apos2) \/
                vel && (h_bits avel =? 0) = false /\ apos2 = apos).
  { unfold avel. destruct vel; cbn in E6 |- *; [|injection E6 as <-; auto].
    destruct (h_bits _ =? 0); cbn in E6 |- *; [auto|injection E6 as <-; auto]. }
  intros Hb. apply (inj inr) in Hb.
  assert (Hfields : b = mkaxbind cw sw tpos (if h_bits apos2 =? 0 then (need a t loc 0x6064 ECM_PDO_IN true).2 else apos2)
     tvel (if h_bits avel =? 0 then (need a t loc 0x606C ECM_PDO_IN true).2 else avel) ttq atq mode md
     (need a t loc 0x603F ECM_PDO_IN true).2 (h_bits mode =? 0)).
  { rewrite <- Hb. unfold avel. destruct vel; cbn; destruct (h_bits apos2 =? 0); cbn; repeat case_if; reflexivity. }
  clear Hb. subst b.
  apply need_if in E3 as [T1 T2]. apply need_if in E4 as [P1 P2]. apply need_if in E5 as [V1 V2].
  apply need_if in E7 as [Q1 Q2]. apply need_if in E8 as [R1 R2].
  assert (Pap : maybe a t loc 0x6064 ECM_PDO_IN apos2 /\ (has m (Z.lor (Z.lor ECM_MODE_CSP ECM_MODE_PP) ECM_MODE_HM) = true ->
            bound a t loc 0x6064 ECM_PDO_IN apos2)).
  { destruct Eav as [[_ E]|[_ ->]]; [apply need_must in E; split; [by left|done]|auto]. }
  assert (Pav : maybe a t loc 0x606C ECM_PDO_IN avel).
  { unfold avel. destruct vel; [apply need_opt|by right]. }
  constructor; cbn; fold m; auto using need_must.
  - intros H. apply rebind_bound, Pap, H.
  - intros H. fold vel in H. destruct Eav as [[_ E]|[Ev _]].
    + right. apply rebind_bound. by apply need_must.
    + left. rewrite H in Ev. cbn in Ev. rewrite Ev. destruct Pav as [|Ez]; [done|]. by rewrite Ez in Ev.
  - intros H. rewrite (proj2 (Z.eqb_neq _ _) H) in E9, E10. split; by apply need_must.
  - split_and!; auto. eapply need_maybe; eauto.
  - split_and!; auto using rebind, need_opt; [apply rebind, Pap|eapply need_maybe; eauto|apply need_opt].
Qed.

(** The output objects of an axis, with their base index. *)
Definition axis_outs (b : ecm_axis_bind_t) : list (Z * ecm_pdo_handle_t) :=
  [(0x6040, b_cw b); (0x607A, b_tpos b); (0x60FF, b_tvel b); (0x6071, b_ttq b); (0x6060, b_mode b)].

Lemma axis_outs_bound a t loc b base h : bind_ok a t loc b -> (base, h) ∈ axis_outs b -> h_bits h <> 0 ->
  bound a t loc base ECM_PDO_OUT h /\ 0x6040 <= base <= 0x60FF.
Proof.
  intros [] Hin Hh. destruct bo_outs0 as (H1 & H2 & H3 & H4). unfold axis_outs in Hin.
  rewrite !elem_of_cons in Hin.
  destruct Hin as [[= -> ->]|[[= -> ->]|[[= -> ->]|[[= -> ->]|[[= -> ->]|Hin]]]]]; [..|by apply not_elem_of_nil in Hin]; (split; [|lia]); auto;
    try (match goal with H : maybe _ _ _ _ _ ?h |- bound _ _ _ _ _ ?h => destruct H as [|E]; [done|by rewrite E in Hh] end).
Qed.

Lemma axis_index_inj a1 a2 b1 b2 : 0 <= cfg_n a1 <= 7 -> 0 <= cfg_n a2 <= 7 ->
  0x6040 <= b1 <= 0x60FF -> 0x6040 <= b2 <= 0x60FF ->
  ecm_axis_index a1 b1 = ecm_axis_index a2 b2 -> cfg_n a1 = cfg_n a2 /\ b1 = b2.
Proof. intros H1 H2 H3 H4 E. unfold ecm_axis_index, ECM_AXIS_OFFSET in E. clia. Qed.

(** Two outputs of axes of one slave share no bit unless they are the same
    object of the same axis. *)
Lemma axis_outs_disjoint a1 a2 t loc b1 b2 base1 h1 base2 h2 :
  table_wf t -> loc_fits t loc (cfg_slave a1) -> cfg_slave a1 = cfg_slave a2 ->
  0 <= cfg_n a1 <= 7 -> 0 <= cfg_n a2 <= 7 ->
  ecm_axis_bind a1 t loc = inr b1 -> ecm_axis_bind a2 t loc = inr b2 ->
  (base1, h1) ∈ axis_outs b1 -> (base2, h2) ∈ axis_outs b2 -> h_bits h1 <> 0 -> h_bits h2 <> 0 ->
  (cfg_n a1, base1) <> (cfg_n a2, base2) -> handles_disjoint h1 h2.
Proof.
  intros Hw Hl Hs N1 N2 B1 B2 I1 I2 Z1 Z2 Hne. apply axis_bind_inv in B1, B2.
  destruct (axis_outs_bound _ _ _ _ _ _ B1 I1 Z1) as [[P1 D1] R1].
  destruct (axis_outs_bound _ _ _ _ _ _ B2 I2 Z2) as [[P2 D2] R2]. rewrite <- Hs in P2.
  apply (bind_disjoint t loc (cfg_slave a1) (ecm_axis_index a1 base1) 0 (ecm_axis_index a2 base2) 0 h1 h2 Hw Hl); [|exact P1|exact P2|congruence]. intros [= E].
  destruct (axis_index_inj a1 a2 base1 base2) as [En Eb]; auto. apply Hne. by rewrite En, Eb.
Qed.

(** A bound axis has, at the index of its own axis number and in the
    right direction, every object its modes need: controlword and statusword
    always, target and actual position for CSP / PP (actual position for HM),
    target velocity with an actual velocity or a position to derive it from
    for CSV / PV, the torques for CST, and 0x6060 / 0x6061 as soon as there is
    more than one mode to switch between. *)
Theorem axis_bind_complete a t loc b : ecm_axis_bind a t loc = inr b -> bind_ok a t loc b.
Proof. apply axis_bind_inv. Qed.

(** The outputs of two axes of one slave never share a bit of the
    IOmap, nor do two outputs of one axis: writing the one leaves the other
    as it is. *)
Theorem axis_outputs_separate a1 a2 t loc b1 b2 base1 h1 base2 h2 io v :
  table_wf t -> loc_fits t loc (cfg_slave a1) -> cfg_slave a1 = cfg_slave a2 ->
  0 <= cfg_n a1 <= 7 -> 0 <= cfg_n a2 <= 7 ->
  ecm_axis_bind a1 t loc = inr b1 -> ecm_axis_bind a2 t loc = inr b2 ->
  (base1, h1) ∈ axis_outs b1 -> (base2, h2) ∈ axis_outs b2 -> h_bits h1 <> 0 -> h_bits h2 <> 0 ->
  (cfg_n a1, base1) <> (cfg_n a2, base2) ->
  bytes io -> 0 <= v -> handle_in h1 io -> handle_in h2 io ->
  ecm_pdo_get h2 (ecm_pdo_set h1 io v) = ecm_pdo_get h2 io.
Proof. intros. apply pdo_get_set_other; eauto using axis_outs_disjoint. Qed.

(** Mode lists survive printing and parsing: every non-empty set of modes
    the master handles is read back from its own text. *)
Theorem modes_roundtrip m : 0 < m -> Z.land m (Z.lnot ECM_MODE_KNOWN) = 0 ->
  ecm_axis_parse_modes (ecm_axis_modes_str m 64) = inr m.
Proof.
  intros Hm Hk.
  assert (Hr : m < 1024).
  { apply Z.lt_nge. intros Hge. assert (Hb : Z.land m (Z.lnot 1023) = 0).
    { apply Z.bits_inj'. intros i Hi. apply (f_equal (fun z => Z.testbit z i)) in Hk.
      rewrite Z.bits_0 in *. rewrite Z.land_spec, Z.lnot_spec in * by done.
      destruct (Z.testbit m i); [|done]. cbn in *.
      destruct (Z.testbit 1023 i) eqn:E; [done|].
      exfalso. assert (Hi10 : 10 <= i).
      { destruct (Z.le_gt_cases 10 i); [done|]. rewrite (Z.ones_spec_low 10) in E by lia. done. }
      rewrite (Z.bits_above_log2 ECM_MODE_KNOWN i) in Hk; [done|done|].
      change (Z.log2 ECM_MODE_KNOWN) with 9. lia. }
    rewrite <- Z.ldiff_land in Hb. change 1023 with (Z.ones 10) in Hb.
    rewrite Z.ldiff_ones_r in Hb by lia. rewrite Z.shiftl_mul_pow2, Z.shiftr_div_pow2 in Hb by lia.
    assert (1 <= m / 2 ^ 10) by (apply Z.div_le_lower_bound; lia). lia. }
  assert (Hall : forallb (fun m => negb (Z.land m (Z.lnot ECM_MODE_KNOWN) =? 0) ||
     match ecm_axis_parse_modes (ecm_axis_modes_str m 64) with inr m' => m' =? m | inl _ => false end)
     (seqZ 1 1023) = true) by (vm_compute; reflexivity).
  rewrite forallb_forall in Hall. specialize (Hall m). rewrite Hk in Hall. cbn [Z.eqb negb orb] in Hall.
  assert (Hin : In m (seqZ 1 1023)) by (apply list_elem_of_In, elem_of_seqZ; lia).
  specialize (Hall Hin). destruct (ecm_axis_parse_modes _); [done|]. bprop. by subst.
Qed.

(** A drive passes the check of 0x6502 exactly when it supports every
    requested mode. *)
Theorem check_modes_exact a supported :
  ecm_axis_check_modes a supported = None <->
  forall i, 0 <= i -> Z.testbit (cfg_modes a) i = true -> Z.testbit supported i = true.
Proof.
  unfold ecm_axis_check_modes. split.
  - destruct (Z.eqb_spec (Z.land (cfg_modes a) (Z.lnot supported)) 0) as [E|]; [|done]. intros _ i Hi Ht.
    apply (f_equal (fun z => Z.testbit z i)) in E. rewrite Z.land_spec, Z.lnot_spec, Z.bits_0, Ht in E by done.
    by destruct (Z.testbit supported i).
  - intros H. assert (Z.land (cfg_modes a) (Z.lnot supported) = 0) as ->; [|done].
    apply Z.bits_inj'. intros i Hi. rewrite Z.land_spec, Z.lnot_spec, Z.bits_0 by done.
    specialize (H i Hi). destruct (Z.testbit (cfg_modes a) i); [|done]. by rewrite H.
Qed.

(** *** A two-axis drive *)
Definition demo_pdos : list add_args :=
  [(1, ECM_PDO_OUT, 0x1600, 0x6040, 0, 16); (1, ECM_PDO_OUT, 0x1600, 0x607A, 0, 32);
   (1, ECM_PDO_OUT, 0x1610, 0x6840, 0, 16); (1, ECM_PDO_OUT, 0x1610, 0x687A, 0, 32);
   (1, ECM_PDO_IN, 0x1A00, 0x6041, 0, 16); (1, ECM_PDO_IN, 0x1A00, 0x6064, 0, 32);
   (1, ECM_PDO_IN, 0x1A10, 0x6841, 0, 16); (1, ECM_PDO_IN, 0x1A10, 0x6864, 0, 32)].
Definition demo_table : ecm_pdo_table_t := default ecm_pdo_table_init (add_all ecm_pdo_table_init demo_pdos).
Definition demo_loc : list ecm_pdo_loc_t := [mkloc 0 0 0; mkloc 0 0 96].
Definition demo_axis (n : Z) : ecm_axis_cfg_t := mkaxcfg 1 n ECM_MODE_CSP [].
Definition demo_bind (n : Z) : ecm_axis_bind_t :=
  match ecm_axis_bind (demo_axis n) demo_table demo_loc with inr b => b | inl _ => axbind_zero end.

Lemma demo_table_wf : table_wf demo_table.
Proof.
  apply (add_all_wf demo_pdos ecm_pdo_table_init).
  - apply table_init_wf.
  - unfold demo_pdos. repeat (apply Forall_cons_2; [cbn; clia|]). apply Forall_nil_2.
  - vm_compute. reflexivity.
Qed.

Lemma axis_bind_complete_witness : bind_ok (demo_axis 1) demo_table demo_loc (demo_bind 1).
Proof. apply (axis_bind_complete (demo_axis 1)). vm_compute. reflexivity. Defined.

Lemma axis_outputs_separate_witness :
  ecm_pdo_get (b_tpos (demo_bind 1)) (ecm_pdo_set (b_cw (demo_bind 1)) (replicate 24 170) 15) =
  ecm_pdo_get (b_tpos (demo_bind 1)) (replicate 24 170).
Proof.
  assert (B : ecm_axis_bind (demo_axis 1) demo_table demo_loc = inr (demo_bind 1)) by (vm_compute; reflexivity).
  assert (I1 : (0x6040, b_cw (demo_bind 1)) ∈ axis_outs (demo_bind 1)) by (unfold axis_outs; rewrite !elem_of_cons; auto).
  assert (I2 : (0x607A, b_tpos (demo_bind 1)) ∈ axis_outs (demo_bind 1)) by (unfold axis_outs; rewrite !elem_of_cons; auto).
  assert (L : loc_fits demo_table demo_loc 1) by (intros []; vm_compute; split; congruence).
  assert (Z1 : h_bits (b_cw (demo_bind 1)) <> 0) by (vm_compute; congruence).
  assert (Z2 : h_bits (b_tpos (demo_bind 1)) <> 0) by (vm_compute; congruence).
  assert (Hio : bytes (replicate 24 170)) by (unfold bytes; apply Forall_replicate; unfold is_u8; lia).
  assert (H1 : handle_in (b_cw (demo_bind 1)) (replicate 24 170)) by (vm_compute; repeat split; congruence).
  assert (H2 : handle_in (b_tpos (demo_bind 1)) (replicate 24 170)) by (vm_compute; repeat split; congruence).
  assert (N : 0 <= cfg_n (demo_axis 1) <= 7) by (cbn; lia).
  exact (axis_outputs_separate (demo_axis 1) (demo_axis 1) demo_table demo_loc (demo_bind 1) (demo_bind 1)
           0x6040 (b_cw (demo_bind 1)) 0x607A (b_tpos (demo_bind 1)) (replicate 24 170) 15
           demo_table_wf L eq_refl N N B B I1 I2 Z1 Z2 ltac:(cbn; congruence) Hio ltac:(lia) H1 H2).
Defined.

Lemma modes_roundtrip_witness : ecm_axis_parse_modes (ecm_axis_modes_str 0x181 64) = inr 0x181.
Proof. apply (modes_roundtrip 0x181); [lia|vm_compute; reflexivity]. Defined.
