(* ===== verification/Cia402Axis.v ===== *)
(** * Master-side CiA402 axis: libecm_cia402/ecm_cia402_axis.c

    The axis state machine run in the RT hook: drive state from the
    statusword, commands, safety latches, controlword walk, transition
    timeout, cyclic setpoints with the step limit, profile modes (PP, PV, HM)
    and the published record.  [axis_rt] is one tick of one axis, cut into
    the numbered stages of the source; [ecm_cia402_rt] is the whole hook.
    The negative controls ([ECM_CIA402_BROKEN], 0 in a product build) are not
    part of the model: every [ECM_CIA402_LATCH_OFF] is 0. *)
From Stdlib Require Import ZArith Lia Bool Ascii String.
From S2P Require Import Prelude Ring Pdo Xchg Cia402Cfg.
From stdpp Require Import base list numbers sets.
Import Xring Xst Xchg.
Open Scope Z_scope.

(** ** Data *)

Inductive ecm_ds_t :=
  | DS_UNKNOWN | DS_NOT_READY | DS_SOD | DS_RTSO | DS_SO | DS_OE | DS_QSA | DS_FRA | DS_FAULT.
#[export] Instance ecm_ds_eq_dec : EqDecision ecm_ds_t.
Proof. solve_decision. Defined.
Definition ds_num (d : ecm_ds_t) : Z :=
  match d with
  | DS_UNKNOWN => 0 | DS_NOT_READY => 1 | DS_SOD => 2 | DS_RTSO => 3 | DS_SO => 4
  | DS_OE => 5 | DS_QSA => 6 | DS_FRA => 7 | DS_FAULT => 8
  end.
Definition ds_is (a b : ecm_ds_t) : bool := bool_decide (a = b).

Inductive ecm_tgt_t := TGT_DISABLED | TGT_ENABLED | TGT_QUICKSTOP.
#[export] Instance ecm_tgt_eq_dec : EqDecision ecm_tgt_t.
Proof. solve_decision. Defined.
Definition tgt_num (t : ecm_tgt_t) : Z :=
  match t with TGT_DISABLED => 0 | TGT_ENABLED => 1 | TGT_QUICKSTOP => 2 end.
Definition tgt_is (a b : ecm_tgt_t) : bool := bool_decide (a = b).

Inductive ecm_hm_t := HM_IDLE | HM_RUNNING | HM_DONE | HM_FAILED.
#[export] Instance ecm_hm_eq_dec : EqDecision ecm_hm_t.
Proof. solve_decision. Defined.
Definition hm_num (h : ecm_hm_t) : Z :=
  match h with HM_IDLE => 0 | HM_RUNNING => 1 | HM_DONE => 2 | HM_FAILED => 3 end.
Definition hm_running (h : ecm_hm_t) : bool := match h with HM_RUNNING => true | _ => false end.

(** Error numbers ([uint8_t err]; the monitor may store any of them). *)
Definition ECM_AXERR_NONE : Z := 0.
Definition ECM_AXERR_TIMEOUT : Z := 1.
Definition ECM_AXERR_FAULT : Z := 2.
Definition ECM_AXERR_BUS_LOST : Z := 3.
Definition ECM_AXERR_MODE : Z := 4.
Definition ECM_AXERR_IN_FAULT : Z := 5.
Definition ECM_AXERR_DROPPED : Z := 6.
Definition ECM_AXERR_STEP : Z := 7.
Definition ECM_AXERR_SHUTDOWN : Z := 8.
Definition ECM_AXERR_HANDSHAKE : Z := 9.
Definition ECM_AXERR_HOMING : Z := 10.
Definition ECM_AXERR_CONFIG : Z := 11.
Definition ECM_AXERR_SLAVE_FAILED : Z := 12.

Definition ECM_CIA402_PP_QUEUE : Z := 16.
Definition ECM_CIA402_HM_SETTLE : Z := 10.
Definition ECM_PP_REL : Z := 1.
Definition ECM_PP_IMM : Z := 2.

Definition ECM_CIA_OP_ENABLE : Z := 257.
Definition ECM_CIA_OP_DISABLE : Z := 258.
Definition ECM_CIA_OP_QUICKSTOP : Z := 259.
Definition ECM_CIA_OP_FAULT_RESET : Z := 260.
Definition ECM_CIA_OP_SET_MODE : Z := 261.
Definition ECM_CIA_OP_PP_POINT : Z := 262.
Definition ECM_CIA_OP_PV_VEL : Z := 263.
Definition ECM_CIA_OP_HOME : Z := 264.

Definition ECM_OPMODE_PP : Z := 1.
Definition ECM_OPMODE_PV : Z := 3.
Definition ECM_OPMODE_HM : Z := 6.
Definition ECM_OPMODE_CSP : Z := 8.
Definition ECM_OPMODE_CSV : Z := 9.
Definition ECM_OPMODE_CST : Z := 10.

Record ecm_cia402_axis_t := mkaxis {
  a_cfg : ecm_axis_cfg_t; a_b : ecm_axis_bind_t;
  a_ds : ecm_ds_t; a_ds_wait : ecm_ds_t; a_sw : Z; a_cw : Z;
  a_target : ecm_tgt_t; a_err : Z; a_err_ds : Z; a_reset_pulse : Z; a_armed : bool; a_mode_ok : bool;
  a_mode_req : Z; a_mode_disp : Z; a_apos : Z; a_avel : Z; a_apos_prev : Z; a_apos_prev_ok : bool;
  a_ecode : Z; a_last_sp : Z; a_last_delta : Z; a_last_sent : Z;
  a_max_step_pos : Z; a_max_step_vel : Z; a_step_seen : Z; a_reached_oe : bool;
  a_pp_q : list Z; a_pp_qf : list Z; a_pp_head : Z; a_pp_n : Z; a_pp_phase : Z; a_pp_flags : Z; a_pp_cur : Z;
  a_pp_since : Z; a_pp_sent : Z; a_pp_acked : Z; a_pp_lost : Z;
  a_pv_vel : Z; a_hm_phase : ecm_hm_t; a_hm_seen_low : bool; a_homed : bool; a_running : bool;
  a_hm_since : Z; a_step_since : Z;
  a_used : Z; a_late : Z; a_underrun : Z; a_dropped : Z; a_transitions : Z; a_step_refused : Z; a_last_seq : Z
}.
#[export] Instance ecm_cia402_axis_eta : Eta ecm_cia402_axis_t := fun a =>
  mkaxis (a_cfg a) (a_b a) (a_ds a) (a_ds_wait a) (a_sw a) (a_cw a)
    (a_target a) (a_err a) (a_err_ds a) (a_reset_pulse a) (a_armed a) (a_mode_ok a)
    (a_mode_req a) (a_mode_disp a) (a_apos a) (a_avel a) (a_apos_prev a) (a_apos_prev_ok a)
    (a_ecode a) (a_last_sp a) (a_last_delta a) (a_last_sent a)
    (a_max_step_pos a) (a_max_step_vel a) (a_step_seen a) (a_reached_oe a)
    (a_pp_q a) (a_pp_qf a) (a_pp_head a) (a_pp_n a) (a_pp_phase a) (a_pp_flags a) (a_pp_cur a)
    (a_pp_since a) (a_pp_sent a) (a_pp_acked a) (a_pp_lost a)
    (a_pv_vel a) (a_hm_phase a) (a_hm_seen_low a) (a_homed a) (a_running a)
    (a_hm_since a) (a_step_since a)
    (a_used a) (a_late a) (a_underrun a) (a_dropped a) (a_transitions a) (a_step_refused a) (a_last_seq a).

Definition axis_zero : ecm_cia402_axis_t :=
  mkaxis (mkaxcfg 0 0 0 []) axbind_zero DS_UNKNOWN DS_UNKNOWN 0 0
    TGT_DISABLED 0 0 0 false false 0 0 0 0 0 false
    0 0 0 0 0 0 0 false
    (replicate 16 0) (replicate 16 0) 0 0 0 0 0
    0 0 0 0 0 HM_IDLE false false false 0 0
    0 0 0 0 0 0 0.
#[export] Instance ecm_cia402_axis_inhabited : Inhabited ecm_cia402_axis_t := populate axis_zero.

Record ecm_cia402_t := mkcia {
  m_naxes : Z; m_cycle_ns : Z; m_step_timeout_ticks : Z; m_home_timeout_ticks : Z;
  m_ax : list ecm_cia402_axis_t; m_cmd : ecm_xring_t ecm_xcmd_t; m_sp : list (ecm_xring_t ecm_xsp_t);
  m_st : list ecm_xst_t; m_clock : ecm_xst_t;
  m_cmd_applied : Z; m_cmd_deferred : Z; m_cmd_bad : Z; m_shutdown : bool; m_ext_err : list Z
}.
#[export] Instance ecm_cia402_eta : Eta ecm_cia402_t := fun c =>
  mkcia (m_naxes c) (m_cycle_ns c) (m_step_timeout_ticks c) (m_home_timeout_ticks c) (m_ax c) (m_cmd c) (m_sp c)
    (m_st c) (m_clock c) (m_cmd_applied c) (m_cmd_deferred c) (m_cmd_bad c) (m_shutdown c) (m_ext_err c).

(** ** Names *)

Open Scope string_scope.
Definition ecm_cia402_ds_str (d : ecm_ds_t) : string :=
  match d with
  | DS_UNKNOWN => "unknown" | DS_NOT_READY => "Not ready to switch on" | DS_SOD => "Switch on disabled"
  | DS_RTSO => "Ready to switch on" | DS_SO => "Switched on" | DS_OE => "Operation enabled"
  | DS_QSA => "Quick stop active" | DS_FRA => "Fault reaction active" | DS_FAULT => "Fault"
  end.
Definition ecm_cia402_ds_key (d : ecm_ds_t) : string :=
  match d with
  | DS_UNKNOWN => "UNKNOWN" | DS_NOT_READY => "NOT_READY_TO_SWITCH_ON" | DS_SOD => "SWITCH_ON_DISABLED"
  | DS_RTSO => "READY_TO_SWITCH_ON" | DS_SO => "SWITCHED_ON" | DS_OE => "OPERATION_ENABLED"
  | DS_QSA => "QUICK_STOP_ACTIVE" | DS_FRA => "FAULT_REACTION_ACTIVE" | DS_FAULT => "FAULT"
  end.
Definition ecm_cia402_err_key (err : Z) : string :=
  match err with
  | 0 => "none" | 1 => "timeout" | 2 => "fault" | 3 => "bus_lost" | 4 => "mode" | 5 => "in_fault"
  | 6 => "dropped" | 7 => "step" | 8 => "shutdown" | 9 => "handshake" | 10 => "homing" | 11 => "config"
  | 12 => "slave_failed" | _ => "unknown"
  end.
Definition ecm_cia402_err_str (err : Z) : string :=
  match err with
  | 0 => "none" | 1 => "transition timeout" | 2 => "drive fault" | 3 => "bus lost" | 4 => "mode"
  | 5 => "enable refused: drive in fault" | 6 => "left Operation enabled without a command"
  | 7 => "setpoint step above the limit" | 8 => "enable refused: shutting down"
  | 9 => "PP set-point not acknowledged" | 10 => "homing failed" | 11 => "slave refused its configuration"
  | 12 => "slave recovery failed" | _ => "?"
  end.
Definition ecm_cia402_mode_str (m : Z) : string :=
  match m with
  | 1 => "PP" | 3 => "PV" | 6 => "HM" | 8 => "CSP" | 9 => "CSV" | 10 => "CST" | _ => "?"
  end.
Close Scope string_scope.

Definition ecm_cia402_decode (sw : Z) : ecm_ds_t :=
  match Z.land sw 0x4F with
  | 0x00 => DS_NOT_READY
  | 0x40 => DS_SOD
  | 0x0F => DS_FRA
  | 0x08 => DS_FAULT
  | _ =>
      match Z.land sw 0x6F with
      | 0x21 => DS_RTSO
      | 0x23 => DS_SO
      | 0x27 => DS_OE
      | 0x07 => DS_QSA
      | _ => DS_UNKNOWN
      end
  end.

(** ** Setup *)

(** [ms] in ticks of [cycle_ns], rounded up, at least 1; kept in 32 bits. *)
Definition ms_ticks (ms cycle_ns : Z) : Z :=
  let t := u32 (u64 (u64 (ms * 1000000) + cycle_ns - 1) / cycle_ns) in
  if t =? 0 then 1 else t.

Definition ecm_cia402_set_home_timeout (c : ecm_cia402_t) (ms : Z) : ecm_cia402_t :=
  c <| m_home_timeout_ticks := ms_ticks ms (m_cycle_ns c) |>.

Definition ecm_cia402_init (cycle_ns step_timeout_ms : Z) : ecm_cia402_t :=
  let cyc := if cycle_ns =? 0 then 1000000 else cycle_ns in
  ecm_cia402_set_home_timeout
    (mkcia 0 cyc (ms_ticks step_timeout_ms cyc) 0 (replicate 32 axis_zero) (ecm_xring_init ECM_XCHG_CMD_CAP)
       (replicate 32 (ecm_xring_init ECM_XRING_CAP)) (replicate 32 xst_zero) xst_zero 0 0 0 false (replicate 32 0))
    30000.

Definition ecm_cia402_add_axis (c : ecm_cia402_t) (cfg : ecm_axis_cfg_t) (b : ecm_axis_bind_t) : ecm_cia402_t * Z :=
  if ECM_AXIS_MAX <=? m_naxes c then (c, -1)
  else
    let m := cfg_modes cfg in
    let req := if has m ECM_MODE_CSP then ECM_OPMODE_CSP else if has m ECM_MODE_CSV then ECM_OPMODE_CSV
               else if has m ECM_MODE_PP then ECM_OPMODE_PP else if has m ECM_MODE_PV then ECM_OPMODE_PV
               else if has m ECM_MODE_HM then ECM_OPMODE_HM else 0 in
    let a := axis_zero <| a_cfg := cfg |> <| a_b := b |> <| a_mode_req := req |> in
    (c <| m_ax ::= <[Z.to_nat (m_naxes c) := a]> |> <| m_naxes := m_naxes c + 1 |>, m_naxes c).

Definition ecm_cia402_set_ext_error (c : ecm_cia402_t) (axis err : Z) : ecm_cia402_t :=
  if (axis <? 0) || (m_naxes c <=? axis) then c
  else c <| m_ext_err ::= <[Z.to_nat axis := u8 err]> |>.

Definition ecm_cia402_set_step_limit (c : ecm_cia402_t) (axis max_pos max_vel : Z) : ecm_cia402_t :=
  if (axis <? 0) || (m_naxes c <=? axis) then c
  else c <| m_ax ::= alter (fun a => a <| a_max_step_pos := if 0 <? max_pos then max_pos else 0 |>
                                       <| a_max_step_vel := if 0 <? max_vel then max_vel else 0 |>)
                           (Z.to_nat axis) |>.

Definition ecm_cia402_shutdown (c : ecm_cia402_t) : ecm_cia402_t :=
  let c := c <| m_shutdown := true |> in
  c <| m_ax ::= imap (fun i a => if Z.of_nat i <? m_naxes c then a <| a_target := TGT_DISABLED |> else a) |>.

Definition ds_down (d : ecm_ds_t) : bool :=
  match d with DS_RTSO | DS_SO | DS_OE | DS_QSA => false | _ => true end.
Definition ecm_cia402_all_down (c : ecm_cia402_t) (bus_lost : bool) : bool :=
  if bus_lost then true else forallb (fun a => ds_down (a_ds a)) (take (Z.to_nat (m_naxes c)) (m_ax c)).

(** ** The tick of one axis *)

Definition sext (v bits : Z) : Z :=
  if (bits =? 0) || (64 <=? bits) then i64 v
  else
    let m := u64 (Z.shiftl 1 (bits - 1)) in
    let v := Z.land v (u64 (u64 (Z.shiftl 1 bits) - 1)) in
    i64 (u64 (Z.lxor v m - m)).

Definition mode_allowed (a : ecm_cia402_axis_t) (m : Z) : bool :=
  let modes := cfg_modes (a_cfg a) in
  if m =? ECM_OPMODE_CSP then has modes ECM_MODE_CSP
  else if m =? ECM_OPMODE_CSV then has modes ECM_MODE_CSV
  else if m =? ECM_OPMODE_PP then has modes ECM_MODE_PP
  else if m =? ECM_OPMODE_PV then has modes ECM_MODE_PV
  else if m =? ECM_OPMODE_HM then has modes ECM_MODE_HM
  else false.

(** *** Commands; [shutdown] and [xe] are [c->shutdown] and the axis'
    [ext_err].  The second result is the increment of [c->cmd_bad]. *)

Definition cmd_enable (shutdown : bool) (xe tick : Z) (a : ecm_cia402_axis_t) : ecm_cia402_axis_t :=
  if shutdown then a <| a_err := ECM_AXERR_SHUTDOWN |>
  else if negb (xe =? 0) then a <| a_err := xe |> <| a_target := TGT_DISABLED |>
  else if ds_is (a_ds a) DS_FAULT || ds_is (a_ds a) DS_FRA
  then a <| a_err := ECM_AXERR_IN_FAULT |> <| a_target := TGT_DISABLED |>
  else if negb (mode_allowed a (a_mode_req a)) then a <| a_err := ECM_AXERR_MODE |> <| a_target := TGT_DISABLED |>
  else a <| a_target := TGT_ENABLED |> <| a_err := ECM_AXERR_NONE |> <| a_err_ds := 0 |>
         <| a_ds_wait := a_ds a |> <| a_step_since := tick |> <| a_reached_oe := false |>.

Definition cmd_fault_reset (a : ecm_cia402_axis_t) : ecm_cia402_axis_t :=
  let a := a <| a_target := TGT_DISABLED |> in
  let a := if ds_is (a_ds a) DS_FAULT then a <| a_reset_pulse := 2 |> else a in
  if (a_err a =? ECM_AXERR_FAULT) || (a_err a =? ECM_AXERR_IN_FAULT) then a <| a_err := ECM_AXERR_NONE |> else a.

Definition cmd_set_mode (arg0 : Z) (a : ecm_cia402_axis_t) : ecm_cia402_axis_t :=
  if negb (mode_allowed a arg0) || ((h_bits (b_mode (a_b a)) =? 0) && negb (arg0 =? a_mode_req a))
  then a <| a_err := ECM_AXERR_MODE |>
  else if negb (arg0 =? a_mode_req a)
  then a <| a_mode_req := i8 arg0 |> <| a_mode_ok := false |> <| a_armed := false |>
  else a.

Definition cmd_pp_point (arg0 arg1 : Z) (a : ecm_cia402_axis_t) : ecm_cia402_axis_t :=
  if negb (a_running a) || negb (a_mode_req a =? ECM_OPMODE_PP)
  then a <| a_err := ECM_AXERR_MODE |> <| a_pp_lost := u64 (a_pp_lost a + 1) |>
  else if a_pp_n a =? ECM_CIA402_PP_QUEUE then a <| a_pp_lost := u64 (a_pp_lost a + 1) |>
  else
    let i := Z.to_nat ((a_pp_head a + a_pp_n a) mod ECM_CIA402_PP_QUEUE) in
    a <| a_pp_q ::= <[i := arg0]> |> <| a_pp_qf ::= <[i := u8 arg1]> |> <| a_pp_n := u8 (a_pp_n a + 1) |>.

Definition cmd_pv_vel (arg0 : Z) (a : ecm_cia402_axis_t) : ecm_cia402_axis_t :=
  if negb (a_running a) || negb (a_mode_req a =? ECM_OPMODE_PV) then a <| a_err := ECM_AXERR_MODE |>
  else a <| a_pv_vel := arg0 |>.

Definition cmd_home (tick : Z) (a : ecm_cia402_axis_t) : ecm_cia402_axis_t :=
  if negb (a_running a) || negb (a_mode_req a =? ECM_OPMODE_HM) then a <| a_err := ECM_AXERR_MODE |>
  else a <| a_hm_phase := HM_RUNNING |> <| a_hm_since := tick |> <| a_hm_seen_low := false |> <| a_homed := false |>.

Definition apply_cmd (shutdown : bool) (xe : Z) (x : ecm_xcmd_t) (tick : Z) (a : ecm_cia402_axis_t) :
    ecm_cia402_axis_t * bool :=
  let a := a <| a_last_seq := c_seq x |> in
  if c_op x =? ECM_CIA_OP_ENABLE then (cmd_enable shutdown xe tick a, false)
  else if c_op x =? ECM_CIA_OP_DISABLE then (a <| a_target := TGT_DISABLED |>, false)
  else if c_op x =? ECM_CIA_OP_QUICKSTOP then (a <| a_target := TGT_QUICKSTOP |>, false)
  else if c_op x =? ECM_CIA_OP_FAULT_RESET then (cmd_fault_reset a, false)
  else if c_op x =? ECM_CIA_OP_SET_MODE then (cmd_set_mode (c_arg0 x) a, false)
  else if c_op x =? ECM_CIA_OP_PP_POINT then (cmd_pp_point (c_arg0 x) (c_arg1 x) a, false)
  else if c_op x =? ECM_CIA_OP_PV_VEL then (cmd_pv_vel (c_arg0 x) a, false)
  else if c_op x =? ECM_CIA_OP_HOME then (cmd_home tick a, false)
  else (a, true).

(** *** 1. inputs *)

Definition in_pos (io : list Z) (a : ecm_cia402_axis_t) : ecm_cia402_axis_t :=
  let b := a_b a in
  if h_bits (b_apos b) =? 0 then a
  else a <| a_apos := i32 (sext (ecm_pdo_get (b_apos b) io) (h_bits (b_apos b))) |>.

Definition in_vel (cycle_ns : Z) (io : list Z) (a : ecm_cia402_axis_t) : ecm_cia402_axis_t :=
  let b := a_b a in
  if negb (h_bits (b_avel b) =? 0) then a <| a_avel := i32 (sext (ecm_pdo_get (b_avel b) io) (h_bits (b_avel b))) |>
  else if negb (h_bits (b_apos b) =? 0) then
    let v := if a_apos_prev_ok a
             then i32 (Z.quot (i32 (u32 (u32 (a_apos a) - u32 (a_apos_prev a))) * 1000000000) (i64 cycle_ns))
             else 0 in
    a <| a_avel := v |> <| a_apos_prev := a_apos a |> <| a_apos_prev_ok := true |>
  else a.

Definition in_misc (io : list Z) (a : ecm_cia402_axis_t) : ecm_cia402_axis_t :=
  let b := a_b a in
  let a := if h_bits (b_err b) =? 0 then a else a <| a_ecode := u16 (ecm_pdo_get (b_err b) io) |> in
  let a := if h_bits (b_mode_disp b) =? 0 then a <| a_mode_disp := a_mode_req a |>
           else a <| a_mode_disp := i8 (sext (ecm_pdo_get (b_mode_disp b) io) (h_bits (b_mode_disp b))) |> in
  let ds := ecm_cia402_decode (a_sw a) in
  let a := if ds_is ds (a_ds a) then a else a <| a_transitions := u64 (a_transitions a + 1) |> in
  a <| a_ds := ds |>.

Definition axis_inputs (cycle_ns : Z) (io : list Z) (in_valid : bool) (a : ecm_cia402_axis_t) : ecm_cia402_axis_t :=
  let a := if in_valid
           then in_misc io (in_vel cycle_ns io (in_pos io (a <| a_sw := u16 (ecm_pdo_get (b_sw (a_b a)) io) |>)))
           else a in
  let a := if in_valid then a else a <| a_apos_prev_ok := false |> in
  a <| a_mode_ok := negb (a_mode_req a =? 0) && (a_mode_disp a =? a_mode_req a) |>.

(** *** 2. latches *)

Definition axis_latch (xe : Z) (bus_lost : bool) (a : ecm_cia402_axis_t) : ecm_cia402_axis_t :=
  let a :=
    if bus_lost then
      if tgt_is (a_target a) TGT_DISABLED then a
      else a <| a_target := TGT_DISABLED |> <| a_err := ECM_AXERR_BUS_LOST |>
    else if (ds_is (a_ds a) DS_FAULT || ds_is (a_ds a) DS_FRA) && negb (tgt_is (a_target a) TGT_DISABLED) then
      a <| a_target := TGT_DISABLED |> <| a_err := ECM_AXERR_FAULT |> <| a_err_ds := ds_num (a_ds a) |>
    else a in
  if xe =? 0 then a else a <| a_target := TGT_DISABLED |> <| a_err := xe |>.

Definition axis_s1 (in_valid : bool) (a : ecm_cia402_axis_t) : ecm_cia402_axis_t :=
  if in_valid && tgt_is (a_target a) TGT_ENABLED then
    if ds_is (a_ds a) DS_OE then a <| a_reached_oe := true |>
    else if a_reached_oe a
    then a <| a_target := TGT_DISABLED |> <| a_err := ECM_AXERR_DROPPED |> <| a_err_ds := ds_num (a_ds a) |>
    else a
  else a.

(** *** 4. controlword: [(axis, cw, enabling_now)] *)

Definition axis_control (a : ecm_cia402_axis_t) : ecm_cia402_axis_t * Z * bool :=
  let '(a, cw, en) :=
    match a_target a with
    | TGT_ENABLED =>
        match a_ds a with
        | DS_SOD => (a, 0x0006, false)
        | DS_RTSO => (a, 0x0007, false)
        | DS_SO => if a_mode_ok a then (a, 0x000F, true) else (a, 0x0007, false)
        | DS_OE => (a, 0x000F, false)
        | _ => (a, 0x0000, false)
        end
    | TGT_QUICKSTOP =>
        if ds_is (a_ds a) DS_OE || ds_is (a_ds a) DS_QSA then (a, 0x0002, false)
        else (a <| a_target := TGT_DISABLED |>, 0x0000, false)
    | TGT_DISABLED =>
        match a_ds a with
        | DS_OE => (a, 0x0007, false)
        | DS_SO => (a, 0x0006, false)
        | _ => (a, 0x0000, false)
        end
    end in
  if a_reset_pulse a =? 2 then (a <| a_reset_pulse := 1 |>, 0x0080, en)
  else if a_reset_pulse a =? 1 then (a <| a_reset_pulse := 0 |>, 0x0000, en)
  else (a, cw, en).

(** *** 5. timeout of a commanded transition *)

Definition axis_timeout (timeout tick : Z) (bus_lost : bool) (a : ecm_cia402_axis_t) (cw : Z) : ecm_cia402_axis_t * Z :=
  if tgt_is (a_target a) TGT_ENABLED && negb (ds_is (a_ds a) DS_OE) && negb bus_lost then
    if negb (ds_is (a_ds a) (a_ds_wait a)) then (a <| a_ds_wait := a_ds a |> <| a_step_since := tick |>, cw)
    else if timeout <? u64 (tick - a_step_since a) then
      (a <| a_err := ECM_AXERR_TIMEOUT |> <| a_err_ds := ds_num (a_ds a) |> <| a_target := TGT_DISABLED |>,
       if ds_is (a_ds a) DS_SO then 0x0006 else 0x0000)
    else (a, cw)
  else (a, cw).

(** *** 6. setpoints for [k+1]: [(ring, axis, got)] *)

Fixpoint axis_sp_loop (fuel : nat) (k1 : Z) (usable : bool) (skipped : Z) (r : ecm_xring_t ecm_xsp_t)
    (a : ecm_cia402_axis_t) : ecm_xring_t ecm_xsp_t * ecm_cia402_axis_t * bool :=
  match fuel with
  | O => (r, a, false)
  | S fuel =>
      match ecm_xring_peek r with
      | None => (r, a, false)
      | Some e =>
          if k1 <? e_tick e then (r, a, false)
          else if (e_tick e <? k1) || negb usable then
            if skipped =? ECM_XCHG_SP_SKIP_MAX then (r, a, false)
            else
              let a := if e_tick e <? k1 then a <| a_late := u64 (a_late a + 1) |>
                       else a <| a_dropped := u64 (a_dropped a + 1) |> in
              axis_sp_loop fuel k1 usable (skipped + 1) (ecm_xring_pop r) a
          else (ecm_xring_pop r,
                a <| a_last_sp := e_v e !!! 0%nat |> <| a_armed := true |> <| a_used := u64 (a_used a + 1) |>, true)
      end
  end.

Definition is_csp (a : ecm_cia402_axis_t) : bool := a_mode_req a =? ECM_OPMODE_CSP.
Definition is_csv (a : ecm_cia402_axis_t) : bool := a_mode_req a =? ECM_OPMODE_CSV.
Definition runs (a : ecm_cia402_axis_t) : bool :=
  tgt_is (a_target a) TGT_ENABLED && ds_is (a_ds a) DS_OE && a_mode_ok a.

(** S4: [(axis, cw, got, running)] *)
Definition axis_step (got running : bool) (a : ecm_cia402_axis_t) (cw : Z) : ecm_cia402_axis_t * Z * bool * bool :=
  if got then
    let lim := if is_csp a then a_max_step_pos a else if is_csv a then a_max_step_vel a else 0 in
    let ref := a_last_sent a in
    let d := i64 (a_last_sp a - ref) in
    if negb (lim =? 0) && ((lim <? d) || (d <? - lim)) then
      let cw := if ds_is (a_ds a) DS_OE then 0x0002 else cw in
      (a <| a_step_seen := d |> <| a_step_refused := u64 (a_step_refused a + 1) |> <| a_err := ECM_AXERR_STEP |>
         <| a_target := TGT_QUICKSTOP |> <| a_last_sp := ref |> <| a_armed := false |>, cw, false, false)
    else (a, cw, got, running)
  else (a, cw, got, running).

Definition axis_csp (enabling_now got running : bool) (a : ecm_cia402_axis_t) (io : list Z) :
    ecm_cia402_axis_t * list Z :=
  let b := a_b a in
  if is_csp a && negb (h_bits (b_tpos b) =? 0) then
    let '(a, t) :=
      if negb running || enabling_now || negb (a_armed a) then
        let t := a_apos a in
        let a := if negb running then a <| a_armed := false |> else a in
        (a <| a_last_sp := t |> <| a_last_delta := 0 |>, t)
      else if got then (a <| a_last_delta := i64 (a_last_sp a - a_last_sent a) |>, a_last_sp a)
      else (a, a_last_sp a) in
    (a <| a_last_sent := t |>, ecm_pdo_set (b_tpos b) io (u64 t))
  else (a, io).

Definition axis_csv (got running : bool) (a : ecm_cia402_axis_t) (io : list Z) : ecm_cia402_axis_t * list Z :=
  let b := a_b a in
  if is_csv a && negb (h_bits (b_tvel b) =? 0) then
    let v := if running && got then a_last_sp a else 0 in
    let a := if negb running then a <| a_armed := false |> else a in
    (a <| a_last_sent := v |>, ecm_pdo_set (b_tvel b) io (u64 v))
  else (a, io).

(** *** 7. profile modes *)

Definition axis_stop (a : ecm_cia402_axis_t) : ecm_cia402_axis_t :=
  let a := if negb (a_pp_n a =? 0) || (a_pp_phase a =? 1)
           then a <| a_pp_lost := u64 (a_pp_lost a + (a_pp_n a + b2z (a_pp_phase a =? 1))) |> else a in
  let a := a <| a_pp_n := 0 |> <| a_pp_phase := 0 |> <| a_pv_vel := 0 |> in
  if hm_running (a_hm_phase a)
  then a <| a_hm_phase := HM_FAILED |> <| a_err := if a_err a =? 0 then ECM_AXERR_HOMING else a_err a |>
  else a.

Definition swbit (sw mask : Z) : bool := negb (Z.land sw mask =? 0).

Definition pp_step (timeout tick : Z) (running : bool) (a : ecm_cia402_axis_t) (cw : Z) : ecm_cia402_axis_t * Z :=
  let sw := a_sw a in
  if negb running then (a <| a_pp_cur := a_apos a |>, cw)
  else if a_pp_phase a =? 0 then
    let flags := a_pp_qf a !!! Z.to_nat (a_pp_head a) in
    if negb (a_pp_n a =? 0) && (negb (swbit sw 0x1000) && (swbit flags ECM_PP_IMM || swbit sw 0x0400)) then
      (a <| a_pp_cur := a_pp_q a !!! Z.to_nat (a_pp_head a) |> <| a_pp_flags := flags |>
         <| a_pp_head := u8 ((a_pp_head a + 1) mod ECM_CIA402_PP_QUEUE) |> <| a_pp_n := u8 (a_pp_n a - 1) |>
         <| a_pp_phase := 1 |> <| a_pp_since := tick |> <| a_pp_sent := u64 (a_pp_sent a + 1) |>, cw)
    else (a, cw)
  else if a_pp_phase a =? 1 then
    if swbit sw 0x1000 && (u64 (a_pp_since a + 2) <=? tick) then
      (a <| a_pp_phase := 2 |> <| a_pp_acked := u64 (a_pp_acked a + 1) |>, cw)
    else if timeout <? u64 (tick - a_pp_since a) then
      (a <| a_err := ECM_AXERR_HANDSHAKE |> <| a_target := TGT_DISABLED |> <| a_pp_phase := 0 |>
         <| a_pp_lost := u64 (a_pp_lost a + 1) |>, 0x0007)
    else (a, cw)
  else if negb (swbit sw 0x1000) then (a <| a_pp_phase := 0 |>, cw)
  else (a, cw).

Definition pp_bits (running : bool) (a : ecm_cia402_axis_t) (cw : Z) : Z :=
  if running && (cw =? 0x000F) && (a_pp_phase a =? 1)
  then Z.lor (Z.lor (Z.lor cw 0x0010) (if swbit (a_pp_flags a) ECM_PP_IMM then 0x0020 else 0))
         (if swbit (a_pp_flags a) ECM_PP_REL then 0x0040 else 0)
  else cw.

Definition hm_step (home_timeout tick : Z) (a : ecm_cia402_axis_t) (cw : Z) : ecm_cia402_axis_t * Z :=
  let sw := a_sw a in
  let seen := u64 (a_hm_since a + 2) <=? tick in
  let a := if seen && negb (swbit sw 0x1000) then a <| a_hm_seen_low := true |> else a in
  let a :=
    if seen && swbit sw 0x2000 then a <| a_hm_phase := HM_FAILED |> <| a_err := ECM_AXERR_HOMING |>
    else if seen && (Z.land sw 0x1400 =? 0x1400) &&
            (a_hm_seen_low a || (u64 (a_hm_since a + ECM_CIA402_HM_SETTLE) <=? tick))
    then a <| a_hm_phase := HM_DONE |> <| a_homed := true |>
    else if home_timeout <? u64 (tick - a_hm_since a) then a <| a_hm_phase := HM_FAILED |> <| a_err := ECM_AXERR_HOMING |>
    else a in
  (a, if hm_running (a_hm_phase a) && (cw =? 0x000F) then Z.lor cw 0x0010 else cw).

Definition axis_profile (step_timeout home_timeout tick : Z) (running : bool) (a : ecm_cia402_axis_t) (io : list Z)
    (cw : Z) : ecm_cia402_axis_t * list Z * Z :=
  let a := if running then a else axis_stop a in
  let b := a_b a in
  if a_mode_req a =? ECM_OPMODE_PP then
    let '(a, cw) := pp_step step_timeout tick running a cw in
    let io := if h_bits (b_tpos b) =? 0 then io else ecm_pdo_set (b_tpos b) io (u64 (a_pp_cur a)) in
    (a, io, pp_bits running a cw)
  else if a_mode_req a =? ECM_OPMODE_PV then
    (a, if h_bits (b_tvel b) =? 0 then io
        else ecm_pdo_set (b_tvel b) io (u64 (if running then a_pv_vel a else 0)), cw)
  else if (a_mode_req a =? ECM_OPMODE_HM) && running && hm_running (a_hm_phase a) then
    let '(a, cw) := hm_step home_timeout tick a cw in (a, io, cw)
  else (a, io, cw).

(** The part that is reached only with a bus. *)
Definition axis_out (step_timeout home_timeout tick : Z) (enabling_now : bool) (a : ecm_cia402_axis_t) (cw : Z)
    (r : ecm_xring_t ecm_xsp_t) (io : list Z) : ecm_xring_t ecm_xsp_t * ecm_cia402_axis_t * list Z :=
  let k1 := u64 (tick + 1) in
  let running := runs a in
  let cyclic := is_csp a || is_csv a in
  let a := a <| a_running := running |> in
  let '(r, a, got) := axis_sp_loop 18 k1 (running && cyclic) 0 r a in
  let a := if running && cyclic && negb got && a_armed a then a <| a_underrun := u64 (a_underrun a + 1) |> else a in
  let '(a, cw, got, running) := axis_step got running a cw in
  let '(a, io) := axis_csp enabling_now got running a io in
  let '(a, io) := axis_csv got running a io in
  let '(a, io, cw) := axis_profile step_timeout home_timeout tick running a io cw in
  let b := a_b a in
  let io := if h_bits (b_mode b) =? 0 then io else ecm_pdo_set (b_mode b) io (u64 (u8 (a_mode_req a))) in
  let io := ecm_pdo_set (b_cw b) io cw in
  (r, a <| a_cw := cw |>, io).

Definition axis_rt (cycle_ns step_timeout home_timeout xe tick : Z) (in_valid bus_lost : bool)
    (r : ecm_xring_t ecm_xsp_t) (a : ecm_cia402_axis_t) (io : list Z) :
    ecm_xring_t ecm_xsp_t * ecm_cia402_axis_t * list Z :=
  let a := axis_inputs cycle_ns io in_valid a in
  let a := axis_latch xe bus_lost a in
  let a := axis_s1 in_valid a in
  let '(a, cw, enabling_now) := axis_control a in
  let '(a, cw) := axis_timeout step_timeout tick bus_lost a cw in
  if bus_lost then (r, a, io)
  else axis_out step_timeout home_timeout tick enabling_now a cw r io.

(** ** Published record *)

Definition publish_words (a : ecm_cia402_axis_t) : list Z :=
  [ Z.lor (Z.lor (Z.lor (Z.lor (Z.lor (a_sw a) (Z.shiftl (a_cw a) 16)) (Z.shiftl (ds_num (a_ds a)) 32))
      (Z.shiftl (tgt_num (a_target a)) 40)) (Z.shiftl (a_err a) 48)) (u64 (Z.shiftl (a_err_ds a) 56));
    Z.lor (u32 (a_apos a)) (Z.shiftl (u32 (a_avel a)) 32);
    Z.lor (Z.lor (Z.lor (Z.lor (Z.lor (Z.lor (Z.lor (a_ecode a) (Z.shiftl (u8 (a_mode_disp a)) 16))
      (Z.shiftl (b2z (a_mode_ok a)) 24)) (Z.shiftl (u8 (a_mode_req a)) 32)) (Z.shiftl (b2z (a_homed a)) 40))
      (Z.shiftl (hm_num (a_hm_phase a)) 41)) (Z.shiftl (a_pp_phase a) 43)) (Z.shiftl (a_pp_n a) 45);
    a_used a; a_late a; a_underrun a;
    Z.lor (a_last_seq a) (Z.shiftl (Z.land (a_step_refused a) 0xFFFFFFFF) 32);
    Z.lor (Z.land (a_dropped a) 0xFFFFFFFF) (Z.shiftl (Z.land (a_pp_acked a) 0xFFFFFFFF) 32) ].

Definition publish (tick : Z) (i : nat) (c : ecm_cia402_t) : ecm_cia402_t :=
  c <| m_st ::= <[i := ecm_xst_write (m_st c !!! i) tick (publish_words (m_ax c !!! i)) ECM_XST_WORDS]> |>.

Record ecm_cia402_state_t := mkstate {
  s_tick : Z; s_sw : Z; s_cw : Z; s_ecode : Z; s_ds : Z; s_target : Z; s_err : Z; s_err_ds : Z; s_mode_ok : Z;
  s_mode_disp : Z; s_mode_req : Z; s_apos : Z; s_avel : Z;
  s_used : Z; s_late : Z; s_underrun : Z; s_dropped : Z; s_last_seq : Z; s_step_refused : Z;
  s_homed : Z; s_hm_phase : Z; s_pp_phase : Z; s_pp_n : Z; s_pp_acked : Z
}.

Definition unpack (t : Z) (w : list Z) : ecm_cia402_state_t :=
  let w0 := w !!! 0%nat in let w1 := w !!! 1%nat in let w2 := w !!! 2%nat in
  let w6 := w !!! 6%nat in let w7 := w !!! 7%nat in
  {| s_tick := t; s_sw := u16 w0; s_cw := u16 (Z.shiftr w0 16); s_ds := u8 (Z.shiftr w0 32);
     s_target := u8 (Z.shiftr w0 40); s_err := u8 (Z.shiftr w0 48); s_err_ds := u8 (Z.shiftr w0 56);
     s_apos := i32 (u32 w1); s_avel := i32 (u32 (Z.shiftr w1 32));
     s_ecode := u16 w2; s_mode_disp := i8 (u8 (Z.shiftr w2 16)); s_mode_ok := u8 (Z.shiftr w2 24);
     s_mode_req := i8 (u8 (Z.shiftr w2 32));
     s_homed := Z.land (u8 (Z.shiftr w2 40)) 1; s_hm_phase := Z.land (u8 (Z.shiftr w2 41)) 3;
     s_pp_phase := Z.land (u8 (Z.shiftr w2 43)) 3; s_pp_n := Z.land (u8 (Z.shiftr w2 45)) 31;
     s_used := w !!! 3%nat; s_late := w !!! 4%nat; s_underrun := w !!! 5%nat; s_last_seq := u32 w6;
     s_step_refused := u32 (Z.shiftr w6 32); s_dropped := u32 w7; s_pp_acked := u32 (Z.shiftr w7 32) |}.

Definition ecm_cia402_read (c : ecm_cia402_t) (axis : Z) : option ecm_cia402_state_t :=
  if (axis <? 0) || (m_naxes c <=? axis) then None
  else match ecm_xst_read (m_st c !!! Z.to_nat axis) ECM_XST_WORDS ECM_XST_TRIES with
  | None => None
  | Some (t, w) => Some (unpack t w)
  end.

Definition ecm_cia402_read_clock (c : ecm_cia402_t) : option (Z * Z) :=
  match ecm_xst_read (m_clock c) ECM_XST_WORDS ECM_XST_TRIES with
  | None => None
  | Some (t, w) => Some (t, w !!! 0%nat)
  end.

(** ** The hook *)

Definition cia_exec (tick : Z) (c : ecm_cia402_t) (x : ecm_xcmd_t) : ecm_cia402_t :=
  let i := Z.to_nat (c_target x) in
  let c :=
    if c_target x <? m_naxes c then
      let '(a, bad) := apply_cmd (m_shutdown c) (m_ext_err c !!! i) x tick (m_ax c !!! i) in
      let c := c <| m_ax ::= <[i := a]> |> in
      if bad then c <| m_cmd_bad := u64 (m_cmd_bad c + 1) |> else c
    else c <| m_cmd_bad := u64 (m_cmd_bad c + 1) |> in
  c <| m_cmd_applied := u64 (m_cmd_applied c + 1) |>.

Fixpoint cia_cmd_loop (fuel : nat) (tick n : Z) (c : ecm_cia402_t) : ecm_cia402_t :=
  match fuel with
  | O => c
  | S fuel =>
      match ecm_xring_peek (m_cmd c) with
      | None => c
      | Some x =>
          if u64 (tick + 1) <? c_tick x then c
          else if n =? ECM_XCHG_CMD_PER_TICK then c <| m_cmd_deferred := u64 (m_cmd_deferred c + 1) |>
          else cia_cmd_loop fuel tick (n + 1) ((cia_exec tick c x) <| m_cmd ::= ecm_xring_pop |>)
      end
  end.

Definition cia_axis (tick : Z) (in_valid bus_lost : bool) (ci : ecm_cia402_t * list Z) (i : nat) :
    ecm_cia402_t * list Z :=
  let '(c, io) := ci in
  let '(r, a, io) := axis_rt (m_cycle_ns c) (m_step_timeout_ticks c) (m_home_timeout_ticks c) (m_ext_err c !!! i)
                       tick in_valid bus_lost (m_sp c !!! i) (m_ax c !!! i) io in
  let c := c <| m_sp ::= <[i := r]> |> <| m_ax ::= <[i := a]> |> in
  (publish tick i c, io).

Definition ecm_cia402_rt (c : ecm_cia402_t) (io : list Z) (tick t_send_ns : Z) (in_valid bus_lost : bool) :
    ecm_cia402_t * list Z :=
  let c := cia_cmd_loop 9 tick 0 c in
  let '(c, io) := foldl (cia_axis tick in_valid bus_lost) (c, io) (seq 0 (Z.to_nat (m_naxes c))) in
  let cw := [t_send_ns; m_cycle_ns c; b2z in_valid; b2z bus_lost;
             m_cmd_applied c; m_cmd_deferred c; m_cmd_bad c; 0] in
  (c <| m_clock ::= fun s => ecm_xst_write s tick cw ECM_XST_WORDS |>, io).

(** ** Application side *)

Definition ecm_cia402_cmd2 (c : ecm_cia402_t) (axis op arg0 arg1 seq tick : Z) : ecm_cia402_t * bool :=
  if (axis <? 0) || (m_naxes c <=? axis) then (c, false)
  else let '(r, ok) := ecm_xring_push (m_cmd c) (mkxcmd tick (u16 axis) (u16 op) seq arg0 arg1) in
       (c <| m_cmd := r |>, ok).
Definition ecm_cia402_cmd (c : ecm_cia402_t) (axis op arg seq tick : Z) : ecm_cia402_t * bool :=
  if (axis <? 0) || (m_naxes c <=? axis) then (c, false)
  else let '(r, ok) := ecm_xring_push (m_cmd c) (mkxcmd tick (u16 axis) (u16 op) seq arg 0) in
       (c <| m_cmd := r |>, ok).
Definition ecm_cia402_setpoint (c : ecm_cia402_t) (axis tick v : Z) : ecm_cia402_t * bool :=
  if (axis <? 0) || (m_naxes c <=? axis) then (c, false)
  else let '(r, ok) := ecm_xring_push (m_sp c !!! Z.to_nat axis) (mkxsp tick [v; 0; 0]) in
       (c <| m_sp ::= <[Z.to_nat axis := r]> |>, ok).
