(* ===== verification/Cia402File.v ===== *)
(** * Text files of the CiA 402 layer and references to objects
      (libecm_cia402/ecm_cia402_cfg.c and ecm_cia402_diag.c, libecmaster/pdo/ecm_pdo.c)

    The readers of "SLAVE[:AXIS]" lists, of the axes file and of the tables of
    vendor error codes, the text and the source of the error code of an axis, and
    the reader of "SLAVE:INDEX:SUB".  A file is the list of its characters without
    NUL; [fgets] cuts it into lines of at most 255.  The texts of the messages and the
    line of [ecm_cia402_axis_diag] are left out.  A file of axes gives a well-formed
    list; a table of codes is a map in which the last line of a code wins. *)
From Stdlib Require Import ZArith Lia Bool Ascii String.
From S2P Require Import Prelude CString Pdo Cia402Cfg Cia402Axis.
From stdpp Require Import base list numbers strings gmap.
Open Scope Z_scope.

(** ** References *)

(** [strtol] up to a ":" or the end: value, is there a ":", rest. *)
Definition colon (s : str) : option str := match s with c :: s => if Ascii.eqb c ":" then Some s else None | [] => None end.
Definition ecm_pdo_parse_ref (s : str) : option (Z * Z * Z) :=
  '(sl, _, e) ← strtol 0 s;
  p ← colon e;
  if (sl <? 1) || (ECM_PDO_MAX_SLAVES <? sl) then None
  else
    '(ix, _, e) ← strtoul 0 p;
    p ← colon e;
    if (ix =? 0) || (0xFFFF <? ix) then None
    else
      '(sb, _, e) ← strtoul 0 p;
      if negb (streq e []) || (0xFF <? sb) then None else Some (sl, ix, sb).
Example parse_ref_ex : ecm_pdo_parse_ref (s_ "2:0x6041:0") = Some (2, 0x6041, 0).
Proof. reflexivity. Qed.

(** ** Axes *)

Inductive list_err := BadAxis (t : str) | AddFailed (e : add_err) | NoAxisGiven.
(** "SLAVE[:AXIS]". *)
Definition parse_axis (t : str) : option (Z * Z) :=
  '(sl, _, e) ← strtol 0 t;
  match colon e with
  | Some p => '(n, _, e) ← strtol 0 p; if streq e [] then Some (sl, n) else None
  | None => if streq e [] then Some (sl, 0) else None
  end.
Fixpoint list_loop (toks : list str) (modes max : Z) (any : bool) (ax : list ecm_axis_cfg_t) : list_err + list ecm_axis_cfg_t :=
  match toks with
  | [] => if any then inr ax else inl NoAxisGiven
  | t :: toks =>
      match parse_axis t with
      | None => inl (BadAxis t)
      | Some (sl, n) =>
          match add_axis ax max sl n modes [] with
          | inl e => inl (AddFailed e)
          | inr ax => list_loop toks modes max true ax
          end
      end
  end.
Definition ecm_axis_parse_list (s : str) (modes max : Z) (ax : list ecm_axis_cfg_t) : list_err + list ecm_axis_cfg_t :=
  list_loop (strtok "," [] (take 255 s)) modes max false ax.

(** The lines [fgets] reads into a buffer of 256: up to a newline, at most 255 characters. *)
Fixpoint fgets_lines (room : nat) (cur s : str) : list str :=
  match s with
  | [] => match cur with [] => [] | _ => [rev cur] end
  | c :: s =>
      if Ascii.eqb c "010" then rev (c :: cur) :: fgets_lines 254 [] s
      else match room with
           | O => rev (c :: cur) :: fgets_lines 254 [] s
           | S room => fgets_lines room (c :: cur) s
           end
  end.
Definition file_lines (text : str) : list str := fgets_lines 254 [] text.

Inductive file_err := BadLine (ln : Z) | BadModes (ln : Z) (e : modes_err) | BadList (ln : Z) (e : list_err) | OneAxisPerLine (ln : Z) | EmptyFile.

(** The pairs of keys and values after the reference: modes, name. *)
Fixpoint pairs_loop (toks : list str) (mstr name : option str) : option (option str * option str) :=
  match toks with
  | k :: v :: toks =>
      if streq k (s_ "modes") then pairs_loop toks (Some v) name
      else if streq k (s_ "name") then pairs_loop toks mstr (Some v)
      else None
  | _ => Some (mstr, name)
  end.
Definition set_last_name (name : str) (ax : list ecm_axis_cfg_t) : list ecm_axis_cfg_t :=
  alter (fun a => mkaxcfg (cfg_slave a) (cfg_n a) (cfg_modes a) (take 23 name)) (length ax - 1)%nat ax.
Definition load_line (ln max : Z) (line : str) (ax : list ecm_axis_cfg_t) : file_err + list ecm_axis_cfg_t :=
  match take 8 (tokens [] (before_hash line)) with
  | [] => inr ax
  | kw :: toks =>
      match toks with
      | ref :: _ :: _ :: _ =>
          if negb (streq kw (s_ "axis")) then inl (BadLine ln)
          else match pairs_loop (drop 1 toks) None None with
          | Some (Some mstr, name) =>
              match ecm_axis_parse_modes mstr with
              | inl e => inl (BadModes ln e)
              | inr m =>
                  match ecm_axis_parse_list ref m max ax with
                  | inl e => inl (BadList ln e)
                  | inr ax' =>
                      if negb (length ax' =? length ax + 1)%nat then inl (OneAxisPerLine ln)
                      else inr (match name with Some n => set_last_name n ax' | None => ax' end)
                  end
              end
          | _ => inl (BadLine ln)
          end
      | _ => inl (BadLine ln)
      end
  end.
Fixpoint load_lines (ln max : Z) (lines : list str) (ax : list ecm_axis_cfg_t) : file_err + list ecm_axis_cfg_t :=
  match lines with
  | [] => inr ax
  | l :: lines =>
      match load_line (ln + 1) max l ax with
      | inl e => inl e
      | inr ax => load_lines (ln + 1) max lines ax
      end
  end.
Definition ecm_axis_load_cfg (text : str) (max : Z) (ax : list ecm_axis_cfg_t) : file_err + list ecm_axis_cfg_t :=
  match load_lines 0 max (file_lines text) ax with
  | inl e => inl e
  | inr [] => inl EmptyFile
  | inr ax => inr ax
  end.

Definition nl : str := ["010"%char].
Example load_cfg_ex :
  ecm_axis_load_cfg (s_ "# drives" ++ nl ++ s_ "axis 2:1 modes csp,HM name left" ++ nl ++ s_ "axis 3 modes pv") 32 [] =
  inr [mkaxcfg 2 1 (Z.lor ECM_MODE_CSP ECM_MODE_HM) (s_ "left"); mkaxcfg 3 0 ECM_MODE_PV (s_ "3:0")].
Proof. vm_compute. reflexivity. Qed.

(** ** Error codes *)

Notation ECM_EMCY_VENDOR_MAX := 256%nat (only parsing).
Record vt_t := mkVt { vt_vendor : Z; vt_code : Z; vt_text : str }.

Definition STD : list (Z * string) :=
  [(0x2310, "continuous over current"); (0x2320, "short circuit / earth leakage (output side)"); (0x2330, "earth leakage (output side)");
   (0x3110, "mains over-voltage"); (0x3120, "mains under-voltage"); (0x3130, "phase failure"); (0x3210, "DC link over-voltage");
   (0x3220, "DC link under-voltage"); (0x4210, "excess temperature device"); (0x4310, "excess temperature drive");
   (0x6320, "parameter error"); (0x7121, "motor blocked"); (0x7122, "motor error or commutation malfunction");
   (0x7305, "incremental sensor 1 fault"); (0x8311, "excess torque"); (0x8611, "following error"); (0x8612, "reference limit");
   (0x8700, "sync controller error (EtherCAT sync / communication)"); (0xA000, "transition PREOP -> SAFEOP failed (ETG.1000.6)");
   (0xA001, "transition SAFEOP -> OP failed (ETG.1000.6)")].

Definition is_entry (vendor code : Z) (e : vt_t) : bool := (vt_vendor e =? vendor) && (vt_code e =? code).
Definition ecm_cia402_emcy_text (VT : list vt_t) (code vendor : Z) : option str :=
  match list_find (fun e => is_entry vendor code e = true) VT with
  | Some (_, e) => Some (vt_text e)
  | None => match list_find (fun x => x.1 = code) STD with Some (_, x) => Some (s_ x.2) | None => None end
  end.

Fixpoint strip_end (s : str) : str :=
  match s with [] => [] | c :: s => match strip_end s with [] => if isspace c then [] else [c] | t => c :: t end end.
Inductive emcy_line := EBlank | EVendor (v : Z) | ECode (c : Z) (text : str) | EBad.
Definition emcy_parse (line : str) : emcy_line :=
  let p := strip_end (skip_space (before_hash line)) in
  match p with
  | [] => EBlank
  | _ =>
      if streq (take 6 p) (s_ "vendor") && match p !! 6%nat with Some c => isspace c | None => false end then
        match strtoul 0 (drop 7 p) with
        | Some (v, _, e) => if streq (skip_space e) [] then EVendor (u32 v) else EBad
        | None => EBad
        end
      else match strtoul 0 p with
           | Some (c, _, (x :: _) as e) => if (0xFFFF <? c) || negb (isspace x) then EBad else ECode c (skip_space e)
           | _ => EBad
           end
  end.
(** A new code is appended, a known one gets the new text. *)
Definition vt_put (VT : list vt_t) (vendor c : Z) (text : str) : option (list vt_t) :=
  let e := mkVt vendor (u16 c) (take 71 text) in
  match list_find (fun e => is_entry vendor c e = true) VT with
  | Some (k, _) => Some (<[k := e]> VT)
  | None => if (length VT =? ECM_EMCY_VENDOR_MAX)%nat then None else Some (VT ++ [e])
  end.
(** The table afterwards and whether every line was read. *)
Fixpoint emcy_lines (lines : list str) (vendor : option Z) (VT : list vt_t) : list vt_t * bool :=
  match lines with
  | [] => (VT, true)
  | l :: lines =>
      match emcy_parse l with
      | EBlank => emcy_lines lines vendor VT
      | EVendor v => emcy_lines lines (Some v) VT
      | EBad => (VT, false)
      | ECode c text =>
          match vendor, text with
          | Some v, _ :: _ => match vt_put VT v c text with Some VT => emcy_lines lines vendor VT | None => (VT, false) end
          | _, _ => (VT, false)
          end
      end
  end.
Definition ecm_cia402_emcy_load (VT : list vt_t) (text : str) : list vt_t * bool := emcy_lines (file_lines text) None VT.

Example emcy_load_ex :
  let VT := (ecm_cia402_emcy_load [] (s_ "vendor 0x100000 # drive" ++ nl ++ s_ "0xFF01 over current" ++ nl ++ s_ "0xFF01  too hot ")).1 in
  ecm_cia402_emcy_text VT 0xFF01 0x100000 = Some (s_ "too hot") /\ ecm_cia402_emcy_text VT 0x8611 0x100000 = Some (s_ "following error") /\
  ecm_cia402_emcy_text VT 0xFF01 5 = None.
Proof. vm_compute. done. Qed.

Inductive ecm_code_src_t := ECM_CODE_NONE | ECM_CODE_603F | ECM_CODE_EMCY.
Record ecm_cia402_emcy_in_t := mkEmcyIn { em_have : bool; em_in_code : Z }.
Definition in_fault (s : ecm_cia402_state_t) : bool := (s_ds s =? ds_num DS_FAULT) || (s_ds s =? ds_num DS_FRA).
Definition ecm_cia402_axis_code (s : ecm_cia402_state_t) (axes_on_slave faulted_on_slave : Z) (last : option ecm_cia402_emcy_in_t) : ecm_code_src_t * Z :=
  if negb (s_ecode s =? 0) then (ECM_CODE_603F, s_ecode s)
  else match last with
       | Some l =>
           if in_fault s && em_have l && negb (em_in_code l =? 0) && ((axes_on_slave =? 1) || (faulted_on_slave =? 1))
           then (ECM_CODE_EMCY, em_in_code l) else (ECM_CODE_NONE, 0)
       | None => (ECM_CODE_NONE, 0)
       end.

(** ** What a file of axes gives *)

Definition axis_key (a : ecm_axis_cfg_t) : Z * Z := (cfg_slave a, cfg_n a).
Record axis_wf (a : ecm_axis_cfg_t) : Prop := {
  aw_slave : 1 <= cfg_slave a <= ECM_PDO_MAX_SLAVES;
  aw_axis : 0 <= cfg_n a <= 7;
  aw_modes : cfg_modes a <> 0 /\ Z.ldiff (cfg_modes a) ECM_MODE_KNOWN = 0;
}.
Record axes_wf (max : Z) (ax : list ecm_axis_cfg_t) : Prop := {
  xw_all : Forall axis_wf ax;
  xw_once : NoDup (axis_key <$> ax);
  xw_max : Z.of_nat (length ax) <= max;
}.

Lemma parse_modes_known s m : ecm_axis_parse_modes s = inr m -> m <> 0 /\ Z.ldiff m ECM_MODE_KNOWN = 0.
Proof.
  unfold ecm_axis_parse_modes. assert (H : Z.ldiff 0 ECM_MODE_KNOWN = 0) by done. revert H. generalize 0 at 1 3.
  induction (strtok _ _ _) as [|t toks IH]; intros acc Ha; cbn [parse_modes_loop].
  - destruct (Z.eqb_spec acc 0); [done|]. by intros [= <-].
  - destruct (list_find _ MODES) as [[k e]|] eqn:E; [|done]. apply IH.
    apply list_find_Some in E as (E & _). assert (B : Z.ldiff e.2 ECM_MODE_KNOWN = 0).
    { apply list_elem_of_lookup_2 in E. revert e E. apply Forall_forall. repeat (constructor; [vm_compute; reflexivity|]). constructor. }
    apply Z.bits_inj'. intros n Hn. rewrite Z.ldiff_spec, Z.lor_spec, Z.bits_0.
    apply (f_equal (fun z => Z.testbit z n)) in Ha, B. rewrite Z.ldiff_spec, Z.bits_0 in Ha, B.
    destruct (Z.testbit ECM_MODE_KNOWN n); [by rewrite andb_false_r|]. cbn [negb] in *. rewrite andb_true_r in *. by rewrite Ha, B.
Qed.
Lemma add_axis_wf ax max slave n modes name ax' : add_axis ax max slave n modes name = inr ax' ->
  modes <> 0 /\ Z.ldiff modes ECM_MODE_KNOWN = 0 -> axes_wf max ax -> axes_wf max ax'.
Proof.
  unfold add_axis. destruct (_ || _) eqn:R; [done|]. destruct (existsb _ ax) eqn:X; [done|]. destruct (Z.leb_spec max (Z.of_nat (length ax))); [done|].
  intros [= <-] Hm [W1 W2 W3]. bprop. unfold ECM_PDO_MAX_SLAVES in *.
  assert (U1 : u16 slave = slave) by (unfold u16; apply Z.mod_small; lia). assert (U2 : u8 n = n) by (unfold u8; apply Z.mod_small; lia).
  rewrite U1, U2. split.
  - apply Forall_app. split; [done|]. constructor; [|done]. by split; cbn; unfold ECM_PDO_MAX_SLAVES; try lia.
  - rewrite fmap_app. apply NoDup_app. split_and!; [done| |apply NoDup_singleton]. intros k Hk ->%list_elem_of_singleton.
    apply list_elem_of_fmap in Hk as (a & Ha & Hin). apply not_true_iff_false in X. apply X, existsb_exists. exists a.
    split; [by apply list_elem_of_In|]. injection Ha as -> ->. by rewrite !Z.eqb_refl.
  - rewrite length_app. cbn. lia.
Qed.
Lemma list_loop_wf toks modes max any ax ax' : list_loop toks modes max any ax = inr ax' ->
  modes <> 0 /\ Z.ldiff modes ECM_MODE_KNOWN = 0 -> axes_wf max ax -> axes_wf max ax'.
Proof.
  revert any ax. induction toks as [|t toks IH]; intros any ax; cbn [list_loop]; [destruct any; [|done]; by intros [= <-]|].
  destruct (parse_axis t) as [[sl n]|]; [|done]. destruct (add_axis ax max sl n modes []) as [|ax1] eqn:E; [done|]. intros H Hm W.
  eapply IH; [exact H|done|]. by eapply add_axis_wf.
Qed.
Lemma set_last_name_wf name max ax : axes_wf max ax -> axes_wf max (set_last_name name ax).
Proof.
  intros [W1 W2 W3]. unfold set_last_name. split.
  - apply Forall_alter; [done|]. intros x _ [X1 X2 X3]. by split.
  - assert (E : axis_key <$> alter (fun a => mkaxcfg (cfg_slave a) (cfg_n a) (cfg_modes a) (take 23 name)) (length ax - 1)%nat ax = axis_key <$> ax); [|by rewrite E].
    apply list_eq. intros i. rewrite !list_lookup_fmap. destruct (decide (i = length ax - 1)%nat) as [->|N].
    + rewrite list_lookup_alter_eq. by destruct (ax !! _).
    + by rewrite list_lookup_alter_ne.
  - by rewrite length_alter.
Qed.
Lemma load_line_wf ln max line ax ax' : load_line ln max line ax = inr ax' -> axes_wf max ax -> axes_wf max ax'.
Proof.
  unfold load_line. destruct (take 8 _) as [|kw toks]; [by intros [= <-]|]. destruct toks as [|ref [|a [|b toks]]]; try done. destruct (negb _); [done|].
  destruct (pairs_loop _ _ _) as [[[mstr|] name]|]; [|done|done]. destruct (ecm_axis_parse_modes mstr) as [|m] eqn:M; [done|].
  destruct (ecm_axis_parse_list ref m max ax) as [|ax1] eqn:E; [done|]. destruct (negb _); [done|]. intros [= <-] W.
  assert (W1 : axes_wf max ax1) by (eapply list_loop_wf; [exact E|by eapply parse_modes_known|done]). destruct name; [by apply set_last_name_wf|done].
Qed.

(** The axes file gives axes of existing slaves, each one once, with modes the master
    can handle, and not more than there is room for. *)
Theorem axis_load_wf (text : str) (max : Z) (ax : list ecm_axis_cfg_t) : 0 <= max ->
  ecm_axis_load_cfg text max [] = inr ax -> ax <> [] /\ axes_wf max ax.
Proof.
  intros Hm. unfold ecm_axis_load_cfg. assert (W : axes_wf max []) by (split; [constructor|constructor|cbn; lia]). revert W.
  generalize (@nil ecm_axis_cfg_t) at 1 2. generalize 0. induction (file_lines text) as [|l lines IH]; intros ln a W; cbn [load_lines].
  - destruct a; [done|]. by intros [= <-].
  - destruct (load_line (ln + 1) max l a) as [|a1] eqn:E; [done|]. apply IH. by eapply load_line_wf.
Qed.

(** ** The table of codes is a map *)

Definition vt_lookup (VT : list vt_t) (k : Z * Z) : option str := (fun x => vt_text x.2) <$> list_find (fun e => is_entry k.1 k.2 e = true) VT.
(** The assignments a file makes. *)
Fixpoint assignments (lines : list str) (vendor : Z) : list (Z * Z * str) :=
  match lines with
  | [] => []
  | l :: lines =>
      match emcy_parse l with
      | EVendor v => assignments lines v
      | ECode c text => (vendor, c, take 71 text) :: assignments lines vendor
      | _ => assignments lines vendor
      end
  end.
Lemma is_entry_spec v c e : is_entry v c e = true <-> (vt_vendor e, vt_code e) = (v, c).
Proof. unfold is_entry. rewrite andb_true_iff, !Z.eqb_eq. intuition congruence. Qed.
Lemma emcy_code_range l c t : emcy_parse l = ECode c t -> 0 <= c <= 0xFFFF.
Proof.
  unfold emcy_parse. destruct (strip_end _) as [|x p]; [done|]. destruct (_ && _); [destruct (strtoul _ _) as [[[]]|]; [|done]; by destruct (streq _ _)|].
  destruct (strtoul 0 (x :: p)) as [[[v e] [|y r]]|] eqn:E; [done| |done]. destruct (_ || _) eqn:B; [done|]. intros [= <- _]. bprop.
  apply (strtoull_range 0) in E; lia.
Qed.
(** The search and the update, by recursion. *)
Fixpoint find_text (k : Z * Z) (VT : list vt_t) : option str :=
  match VT with [] => None | e :: VT => if is_entry k.1 k.2 e then Some (vt_text e) else find_text k VT end.
Fixpoint put_rec (v c : Z) (e : vt_t) (VT : list vt_t) : list vt_t :=
  match VT with [] => [e] | x :: VT => if is_entry v c x then e :: VT else x :: put_rec v c e VT end.
Lemma find_text_lookup k VT : vt_lookup VT k = find_text k VT.
Proof.
  unfold vt_lookup. induction VT as [|e VT IH]; [done|]. cbn [list_find find_text]. destruct (is_entry k.1 k.2 e); [done|].
  rewrite <- IH. rewrite decide_False by done. by destruct (list_find _ VT) as [[]|].
Qed.
Lemma vt_put_rec VT v c t VT' : vt_put VT v c t = Some VT' -> VT' = put_rec v c (mkVt v (u16 c) (take 71 t)) VT.
Proof.
  unfold vt_put. cbv zeta. set (e := mkVt _ _ _).
  assert (F : match list_find (fun e => is_entry v c e = true) VT with
    | Some (k, _) => <[k := e]> VT = put_rec v c e VT | None => VT ++ [e] = put_rec v c e VT end).
  { induction VT as [|x VT IH]; [done|]. cbn [list_find put_rec]. destruct (is_entry v c x) eqn:I; [done|]. rewrite decide_False by done.
    destruct (list_find _ VT) as [[k y]|]; exact (f_equal (cons x) IH). }
  destruct (list_find _ VT) as [[k y]|]; [by intros [= <-]|]. destruct (_ =? _)%nat; [done|]. by intros [= <-].
Qed.
(** Storing a code changes this code and no other. *)
Lemma vt_put_lookup VT v c t VT' k : 0 <= c <= 0xFFFF -> vt_put VT v c t = Some VT' ->
  vt_lookup VT' k = if decide ((v, c) = k) then Some (take 71 t) else vt_lookup VT k.
Proof.
  intros Hc H. apply vt_put_rec in H as ->. assert (U : u16 c = c) by (unfold u16; apply Z.mod_small; lia). rewrite U, !find_text_lookup.
  set (e := mkVt v c (take 71 t)). destruct k as [v' c']. assert (He : is_entry v' c' e = bool_decide ((v, c) = (v', c'))).
  { case_bool_decide as E; [by apply is_entry_spec|]. apply not_true_iff_false. by rewrite is_entry_spec. }
  induction VT as [|x VT IH]; cbn [put_rec find_text fst snd].
  - rewrite He. case_bool_decide; by case_decide.
  - destruct (is_entry v c x) eqn:I; cbn [find_text fst snd].
    + rewrite He. case_bool_decide as E; [by rewrite decide_True|]. rewrite decide_False by done.
      destruct (is_entry v' c' x) eqn:I'; [|done]. apply is_entry_spec in I, I'. congruence.
    + rewrite IH. destruct (is_entry v' c' x) eqn:I'; [|done]. case_decide as E; [|done]. injection E as -> ->. congruence.
Qed.

(** A file that is read completely makes its assignments, in order, so that the last
    line of a code wins; what it does not name keeps its text. *)
Theorem emcy_load_refines (text : str) (VT VT' : list vt_t) (m : gmap (Z * Z) str) :
  (forall k, vt_lookup VT k = m !! k) -> ecm_cia402_emcy_load VT text = (VT', true) ->
  forall k, vt_lookup VT' k = foldl (fun m a => <[a.1 := a.2]> m) m (assignments (file_lines text) 0) !! k.
Proof.
  unfold ecm_cia402_emcy_load. intros HM H. change 0 with (default 0 (@None Z)). revert H. generalize (@None Z) as v. revert VT m HM.
  induction (file_lines text) as [|l lines IH]; intros VT m HM v; cbn [emcy_lines assignments]; [intros [= <-]; apply HM|].
  destruct (emcy_parse l) as [|w|c t|] eqn:E; [by apply IH|intros H; by apply (IH _ _ HM (Some w))| |done].
  destruct v as [v|]; [|done]. destruct t as [|x t]; [done|]. destruct (vt_put VT v c (x :: t)) as [VT1|] eqn:P; [|done]. intros H.
  intros k0. refine (IH VT1 _ _ _ H k0). intros k. rewrite (vt_put_lookup VT v c (x :: t) VT1 k (emcy_code_range _ _ _ E) P).
  cbn [fst snd from_option id]. case_decide as D; [subst; by rewrite lookup_insert_eq|]. by rewrite lookup_insert_ne.
Qed.
