(* ===== verification/Cia402Safety.v ===== *)
(** * Safety of the CiA402 axis

    Theorems on [Cia402Axis]: who may enable an axis, what controlword can
    leave the master, what target the drive gets (S1, S2, S4, S5, S6 of
    docs/safety_boundary.md), the accounting of PP points and the published
    record. *)
From Stdlib Require Import ZArith Lia Bool.
From S2P Require Import Prelude Ring Pdo Xchg.
Import Xring Xst Xchg.
From S2P Require Import Cia402Cfg Cia402Axis.
From stdpp Require Import base list numbers sets.
Open Scope Z_scope.

(** Case analysis of one stage: every [if] and every match on the drive
    state, the target or the homing phase. *)
Ltac stage_cases :=
  repeat (case_if || match goal with
    | |- context [match a_target ?a with _ => _ end] => destruct (a_target a) eqn:?
    | |- context [match a_ds ?a with _ => _ end] => destruct (a_ds a) eqn:?
    | |- context [match a_hm_phase ?a with _ => _ end] => destruct (a_hm_phase a) eqn:?
    end).
Ltac stage :=
  stage_cases;
  repeat match goal with |- _ /\ _ => split end;
  try first [reflexivity | left; reflexivity | right; reflexivity | assumption | discriminate].

(** *** What the stages leave alone *)

(** The part of the axis that decides the controlword. *)
Definition view (a : ecm_cia402_axis_t) : ecm_tgt_t * ecm_ds_t * bool := (a_target a, a_ds a, a_mode_ok a).
(** The fields no stage of the tick ever writes. *)
Definition fixed (a : ecm_cia402_axis_t) : ecm_axis_cfg_t * ecm_axis_bind_t * Z * Z * Z :=
  (a_cfg a, a_b a, a_mode_req a, a_max_step_pos a, a_max_step_vel a).

Lemma fixed_mode a a' : fixed a' = fixed a -> a_mode_req a' = a_mode_req a.
Proof. by intros [= _ _ H _ _]. Qed.
Lemma fixed_bind a a' : fixed a' = fixed a -> a_b a' = a_b a.
Proof. by intros [= _ H _ _ _]. Qed.
Lemma fixed_step a a' : fixed a' = fixed a -> a_max_step_pos a' = a_max_step_pos a.
Proof. by intros [= _ _ _ H _]. Qed.

(** Neither the inputs nor the latches below touch these. *)
Definition quiet (f : ecm_cia402_axis_t -> ecm_cia402_axis_t) : Prop :=
  forall a, a_target (f a) = a_target a /\ fixed (f a) = fixed a /\ a_reset_pulse (f a) = a_reset_pulse a /\
    a_last_sp (f a) = a_last_sp a /\ a_last_sent (f a) = a_last_sent a /\ a_armed (f a) = a_armed a /\
    a_cw (f a) = a_cw a.

Lemma quiet_comp f g : quiet f -> quiet g -> quiet (fun a => g (f a)).
Proof.
  intros Hf Hg a. destruct (Hf a) as (F1 & F2 & F3 & F4 & F5 & F6 & F7).
  destruct (Hg (f a)) as (G1 & G2 & G3 & G4 & G5 & G6 & G7). split_and!; congruence.
Qed.

Lemma in_pos_quiet io : quiet (in_pos io).
Proof. intros a. unfold in_pos. stage. Qed.
Lemma in_vel_quiet cyc io : quiet (in_vel cyc io).
Proof. intros a. unfold in_vel. stage. Qed.
Lemma in_misc_quiet io : quiet (in_misc io).
Proof. intros a. unfold in_misc. stage. Qed.

Lemma inputs_quiet cyc io v : quiet (axis_inputs cyc io v).
Proof.
  intros a. unfold axis_inputs. destruct v; [|stage].
  destruct (in_misc_quiet io (in_vel cyc io (in_pos io (a <| a_sw := u16 (ecm_pdo_get (b_sw (a_b a)) io) |>))))
    as (M1 & M2 & M3 & M4 & M5 & M6 & M7).
  destruct (quiet_comp _ _ (in_pos_quiet io) (in_vel_quiet cyc io) (a <| a_sw := u16 (ecm_pdo_get (b_sw (a_b a)) io) |>))
    as (N1 & N2 & N3 & N4 & N5 & N6 & N7).
  generalize dependent (in_misc io (in_vel cyc io (in_pos io (a <| a_sw := u16 (ecm_pdo_get (b_sw (a_b a)) io) |>)))).
  intros a' M1 M2 M3 M4 M5 M6 M7. split_and!; etransitivity; try eassumption; etransitivity; try eassumption; reflexivity.
Qed.

Lemma latch_keep xe lost a :
  fixed (axis_latch xe lost a) = fixed a /\ a_ds (axis_latch xe lost a) = a_ds a /\
  a_mode_ok (axis_latch xe lost a) = a_mode_ok a /\
  (a_target (axis_latch xe lost a) = a_target a \/ a_target (axis_latch xe lost a) = TGT_DISABLED).
Proof. unfold axis_latch, fixed. stage. Qed.

Lemma latch_lost xe a : a_target (axis_latch xe true a) = TGT_DISABLED.
Proof. unfold axis_latch, tgt_is. stage. all: by apply bool_decide_eq_true in E0. Qed.

Lemma latch_lost_err xe a : a_cw (axis_latch xe true a) = a_cw a /\
  (a_target a <> TGT_DISABLED -> a_err (axis_latch xe true a) = if xe =? 0 then ECM_AXERR_BUS_LOST else xe).
Proof.
  unfold axis_latch, tgt_is. split; [stage|]. intros H. rewrite bool_decide_eq_false_2 by done. stage.
Qed.

Lemma latch_ext xe lost a : xe <> 0 -> a_target (axis_latch xe lost a) = TGT_DISABLED.
Proof. intros H. unfold axis_latch. rewrite (proj2 (Z.eqb_neq xe 0) H). done. Qed.

Lemma s1_keep v a :
  fixed (axis_s1 v a) = fixed a /\ a_ds (axis_s1 v a) = a_ds a /\ a_mode_ok (axis_s1 v a) = a_mode_ok a /\
  (a_target (axis_s1 v a) = a_target a \/ a_target (axis_s1 v a) = TGT_DISABLED).
Proof. unfold axis_s1, fixed. stage. Qed.

Lemma control_keep a :
  let '(a', cw, en) := axis_control a in
  fixed a' = fixed a /\ a_ds a' = a_ds a /\ a_mode_ok a' = a_mode_ok a /\
  (a_target a' = a_target a \/ a_target a' = TGT_DISABLED) /\
  (en = true -> a_target a' = TGT_ENABLED /\ a_ds a' = DS_SO /\ a_mode_ok a' = true).
Proof.
  unfold axis_control, fixed. destruct (a_target a) eqn:Et; stage;
    first [by left | by right | by intros; split_and!].
Qed.

Lemma s1_disabled v a : a_target a = TGT_DISABLED -> axis_s1 v a = a.
Proof. intros H. unfold axis_s1, tgt_is. rewrite H, bool_decide_eq_false_2 by done. by rewrite andb_false_r. Qed.

Lemma control_disabled a : a_target a = TGT_DISABLED ->
  let '(a', cw, en) := axis_control a in a_target a' = TGT_DISABLED /\ a_err a' = a_err a /\ a_cw a' = a_cw a.
Proof. intros H. unfold axis_control. rewrite H. stage. Qed.

Lemma timeout_keep to tick lost a cw :
  let '(a', cw') := axis_timeout to tick lost a cw in
  fixed a' = fixed a /\ a_ds a' = a_ds a /\ a_mode_ok a' = a_mode_ok a /\
  (a_target a' = a_target a \/ a_target a' = TGT_DISABLED).
Proof. unfold axis_timeout, fixed. stage. Qed.

Lemma runs_inv a : runs a = true -> a_target a = TGT_ENABLED /\ a_ds a = DS_OE /\ a_mode_ok a = true.
Proof.
  unfold runs, tgt_is, ds_is. intros H. apply andb_true_iff in H as [H ->]. apply andb_true_iff in H as [H1 H2].
  apply bool_decide_eq_true in H1, H2. done.
Qed.

(** The setpoint loop only counts and takes over a value. *)
Lemma sp_loop_keep fuel k1 u n r a :
  let '(r', a', got) := axis_sp_loop fuel k1 u n r a in
  view a' = view a /\ fixed a' = fixed a /\ a_last_sent a' = a_last_sent a /\ a_apos a' = a_apos a /\
  a_reset_pulse a' = a_reset_pulse a /\
  (got = false -> a_last_sp a' = a_last_sp a /\ a_armed a' = a_armed a) /\ (got = true -> a_armed a' = true /\ u = true).
Proof.
  revert n r a. induction fuel as [|fuel IH]; intros n r a; cbn [axis_sp_loop]; [done|].
  destruct (ecm_xring_peek r) as [e|]; [|done]. case_if; [done|]. case_if.
  - case_if; [done|].
    match goal with |- context [axis_sp_loop fuel k1 u (n + 1) ?r' ?a'] => specialize (IH (n + 1) r' a') end.
    destruct (axis_sp_loop _ _ _ _ _ _) as [[r' a'] got]. destruct (e_tick e <? k1); exact IH.
  - cbn. split_and!; try done. intros _. bprop. by destruct u.
Qed.

Lemma step_keep got run a cw :
  let '(a', cw', got', run') := axis_step got run a cw in
  fixed a' = fixed a /\ a_ds a' = a_ds a /\ a_mode_ok a' = a_mode_ok a /\ a_apos a' = a_apos a /\
  a_last_sent a' = a_last_sent a /\ (a_target a' = a_target a \/ a_target a' = TGT_QUICKSTOP).
Proof. unfold axis_step, fixed. stage. Qed.

Lemma csp_keep en got run a io :
  view (axis_csp en got run a io).1 = view a /\ fixed (axis_csp en got run a io).1 = fixed a /\
  a_apos (axis_csp en got run a io).1 = a_apos a.
Proof. unfold axis_csp, fixed, view. stage. Qed.

Lemma csp_err en got run a io : a_err (axis_csp en got run a io).1 = a_err a.
Proof. unfold axis_csp. stage. Qed.

Lemma csv_keep got run a io :
  view (axis_csv got run a io).1 = view a /\ fixed (axis_csv got run a io).1 = fixed a /\
  a_apos (axis_csv got run a io).1 = a_apos a /\
  (is_csv a = false -> axis_csv got run a io = (a, io)).
Proof. unfold axis_csv, fixed, view. stage. all: intros H; rewrite H in *; done. Qed.

Lemma stop_keep a : view (axis_stop a) = view a /\ fixed (axis_stop a) = fixed a /\ a_apos (axis_stop a) = a_apos a /\
  a_armed (axis_stop a) = a_armed a /\ a_last_sp (axis_stop a) = a_last_sp a /\ a_last_sent (axis_stop a) = a_last_sent a.
Proof. unfold axis_stop, fixed, view. stage. Qed.

Lemma stop_err a : a_err a <> 0 -> a_err (axis_stop a) = a_err a.
Proof. intros H. unfold axis_stop. stage; bprop; by contradict H. Qed.

Lemma pp_step_keep to tick run a cw :
  let '(a', cw') := pp_step to tick run a cw in
  fixed a' = fixed a /\ a_ds a' = a_ds a /\ a_mode_ok a' = a_mode_ok a /\
  (a_target a' = a_target a \/ a_target a' = TGT_DISABLED).
Proof. unfold pp_step, fixed. stage. Qed.

Lemma hm_step_keep to tick a cw :
  view (hm_step to tick a cw).1 = view a /\ fixed (hm_step to tick a cw).1 = fixed a.
Proof. unfold hm_step, fixed, view. stage. Qed.

(** *** The controlword *)

(** Bit 3 (enable operation) of a controlword goes with an axis that is
    commanded to run, in Switched on with the mode confirmed or already in
    Operation enabled; and a controlword has 16 bits. *)
Definition cw_ok (a : ecm_cia402_axis_t) (cw : Z) : Prop :=
  is_u16 cw /\ (Z.testbit cw 3 = true ->
  a_target a = TGT_ENABLED /\ (a_ds a = DS_OE \/ (a_ds a = DS_SO /\ a_mode_ok a = true))).

Lemma cw_ok_view a a' cw : view a' = view a -> cw_ok a cw -> cw_ok a' cw.
Proof. intros [= E1 E2 E3]. unfold cw_ok. rewrite E1, E2, E3. done. Qed.

Ltac cw_cases :=
  stage_cases; try (split; [unfold is_u16; lia | intros; exfalso; discriminate]).

Lemma control_cw a : let '(a', cw, en) := axis_control a in cw_ok a' cw.
Proof. unfold axis_control. destruct (a_target a) eqn:Et; cw_cases; (split; [unfold is_u16; lia | intros _; cbn; auto]). Qed.

Lemma timeout_cw to tick lost a cw : cw_ok a cw ->
  let '(a', cw') := axis_timeout to tick lost a cw in cw_ok a' cw'.
Proof. intros H. unfold axis_timeout. cw_cases; exact H. Qed.

(** A setpoint is only taken in Operation enabled, so a refused one always
    turns the controlword into a quick stop. *)
Lemma step_cw got run a cw : (got = true -> a_ds a = DS_OE) -> cw_ok a cw ->
  let '(a', cw', _, _) := axis_step got run a cw in cw_ok a' cw'.
Proof.
  intros Hoe H. unfold axis_step. destruct got; [|exact H]. rewrite (Hoe eq_refl).
  change (ds_is DS_OE DS_OE) with true. cw_cases; exact H.
Qed.

Lemma pp_bits_bit3 run a cw : is_u16 cw ->
  is_u16 (pp_bits run a cw) /\ Z.testbit (pp_bits run a cw) 3 = Z.testbit cw 3.
Proof.
  intros H. unfold pp_bits. destruct (run && (cw =? 0x000F) && (a_pp_phase a =? 1)) eqn:E; [|done].
  bprop. subst cw. stage_cases; (split; [vm_compute; split; congruence|done]).
Qed.

Lemma pp_step_cw to tick run a cw : cw_ok a cw -> let '(a', cw') := pp_step to tick run a cw in cw_ok a' cw'.
Proof. intros H. unfold pp_step. cw_cases; exact H. Qed.

Lemma hm_step_bit3 to tick a cw : is_u16 cw ->
  is_u16 (hm_step to tick a cw).2 /\ Z.testbit (hm_step to tick a cw).2 3 = Z.testbit cw 3.
Proof.
  intros H. unfold hm_step. cbn [snd].
  match goal with |- context [if ?b then Z.lor cw _ else cw] => destruct b eqn:E end; [|done].
  bprop. subst cw. split; [vm_compute; split; congruence|done].
Qed.

Lemma profile_cw st ht tick run a io cw : cw_ok a cw ->
  let '(a', io', cw') := axis_profile st ht tick run a io cw in
  cw_ok a' cw' /\ fixed a' = fixed a /\ a_ds a' = a_ds a /\ a_mode_ok a' = a_mode_ok a /\
  (a_target a' = a_target a \/ a_target a' = TGT_DISABLED).
Proof.
  intros H. unfold axis_profile. cbv zeta.
  set (a1 := if run then a else axis_stop a).
  assert (K : view a1 = view a /\ fixed a1 = fixed a).
  { unfold a1. destruct run; [done|]. destruct (stop_keep a) as (? & ? & _). done. }
  clearbody a1. destruct K as [Kv Kf]. pose proof (cw_ok_view _ _ _ Kv H) as H1.
  pose proof Kv as Kv'. injection Kv' as K1 K2 K3.
  case_if; [|case_if; [|case_if]].
  - pose proof (pp_step_cw st tick run a1 cw H1) as P. pose proof (pp_step_keep st tick run a1 cw) as Q.
    destruct (pp_step st tick run a1 cw) as [a2 cw2]. destruct Q as (Q1 & Q2 & Q3 & Q4).
    split; [destruct P as [P0 P]; destruct (pp_bits_bit3 run a2 cw2 P0) as [B1 B2]; split; [done|by rewrite B2]|]. split_and!; congruence.
  - split; [done|]. split_and!; try congruence. all: left; congruence.
  - destruct (hm_step_bit3 ht tick a1 cw (proj1 H)) as [P0 P]. destruct (hm_step_keep ht tick a1 cw) as [Q1 Q2].
    destruct (hm_step ht tick a1 cw) as [a2 cw2]. cbn [fst snd] in *. pose proof Q1 as Q1'. injection Q1' as V1 V2 V3.
    split; [split; [done|rewrite P; apply (cw_ok_view a1); auto]|]. split_and!; try congruence. all: left; congruence.
  - split; [done|]. split_and!; try congruence. all: left; congruence.
Qed.

(** *** The IOmap stays well-formed *)

(** The axis' output objects lie inside the IOmap. *)
Definition outs_in (b : ecm_axis_bind_t) (io : list Z) : Prop :=
  handle_in (b_cw b) io /\ handle_in (b_tpos b) io /\ handle_in (b_tvel b) io /\ handle_in (b_mode b) io.
Definition io_same (io io' : list Z) : Prop := bytes io' /\ length io' = length io.

Lemma outs_in_same b io io' : io_same io io' -> outs_in b io -> outs_in b io'.
Proof. intros [_ Hl]. unfold outs_in, handle_in. by rewrite Hl. Qed.
Lemma io_same_refl io : bytes io -> io_same io io.
Proof. done. Qed.
Lemma io_same_trans io1 io2 io3 : io_same io1 io2 -> io_same io2 io3 -> io_same io1 io3.
Proof. intros [_ H1] [H2 H3]. split; [done|congruence]. Qed.
Lemma set_same h io v : bytes io -> 0 <= v -> handle_in h io -> io_same io (ecm_pdo_set h io v).
Proof. intros Hb Hv Hh. destruct (pdo_set_bits h io v Hb Hv Hh) as (? & ? & _). done. Qed.
Lemma set64_same h io v : bytes io -> handle_in h io -> io_same io (ecm_pdo_set h io (u64 v)).
Proof. intros. apply set_same; auto. pose proof (u64_range v). clia. Qed.
#[local] Hint Resolve set64_same io_same_refl : ecm.

Lemma csp_io en got run a io : bytes io -> outs_in (a_b a) io -> io_same io (axis_csp en got run a io).2.
Proof. intros Hb (_ & H & _). unfold axis_csp. stage_cases; cbn [snd]; auto with ecm. Qed.
Lemma csv_io got run a io : bytes io -> outs_in (a_b a) io -> io_same io (axis_csv got run a io).2.
Proof. intros Hb (_ & _ & H & _). unfold axis_csv. stage_cases; cbn [snd]; auto with ecm. Qed.
Lemma profile_io st ht tick run a io cw : bytes io -> outs_in (a_b a) io ->
  io_same io (axis_profile st ht tick run a io cw).1.2.
Proof.
  intros Hb (_ & H1 & H2 & _). unfold axis_profile. cbv zeta. set (a1 := if run then a else axis_stop a).
  assert (Eb : a_b a1 = a_b a).
  { unfold a1. destruct run; [done|]. destruct (stop_keep a) as (_ & F & _). by apply fixed_bind. }
  clearbody a1. rewrite Eb. case_if.
  - destruct (pp_step st tick run a1 cw). case_if; cbn [fst snd]; auto with ecm.
  - case_if; [case_if; cbn [fst snd]; auto with ecm|]. case_if; [|cbn [fst snd]; auto with ecm].
    destruct (hm_step ht tick a1 cw). cbn [fst snd]. auto with ecm.
Qed.

(** *** The part with a bus, and the whole tick *)

Lemma out_keep st ht tick en a cw r io : cw_ok a cw ->
  let '(r', a', io') := axis_out st ht tick en a cw r io in
  cw_ok a' (a_cw a') /\ fixed a' = fixed a /\ a_ds a' = a_ds a /\ a_mode_ok a' = a_mode_ok a /\
  (a_target a' = a_target a \/ a_target a' <> TGT_ENABLED) /\
  exists io1, io' = ecm_pdo_set (b_cw (a_b a)) io1 (a_cw a') /\
    (bytes io -> outs_in (a_b a) io -> io_same io io1).
Proof.
  intros H. unfold axis_out. cbv zeta. set (run := runs a). set (cyc := is_csp a || is_csv a).
  pose proof (sp_loop_keep 18 (u64 (tick + 1)) (run && cyc) 0 r (a <| a_running := run |>)) as L.
  destruct (axis_sp_loop _ _ _ _ _ _) as [[r1 a1] got]. destruct L as (L1 & L2 & _ & _ & _ & _ & L7).
  assert (Hoe : got = true -> a_ds a1 = DS_OE).
  { intros G. destruct (L7 G) as [_ U]. apply andb_true_iff in U as [U _]. apply runs_inv in U as (_ & U & _).
    injection L1 as _ L1 _. by rewrite L1. }
  assert (H1 : cw_ok a1 cw) by (by apply (cw_ok_view (a <| a_running := run |>))).
  match goal with |- context [axis_step got run ?x cw] => set (a2 := x) end.
  assert (V2 : view a2 = view a /\ fixed a2 = fixed a) by (unfold a2; case_if; done).
  assert (H2 : cw_ok a2 cw) by (apply (cw_ok_view a); [apply V2|done]).
  pose proof (step_cw got run a2 cw ltac:(intros G; injection (proj1 V2) as _ -> _; rewrite <- (Hoe G); by injection L1) H2) as P3.
  pose proof (step_keep got run a2 cw) as Q3.
  destruct (axis_step got run a2 cw) as [[[a3 cw3] got3] run3]. destruct Q3 as (S1 & S2 & S3 & _ & _ & S6).
  destruct (csp_keep en got3 run3 a3 io) as (C1 & C2 & _). pose proof (csp_io en got3 run3 a3 io) as J4.
  destruct (axis_csp en got3 run3 a3 io) as [a4 io4]. cbn [fst snd] in *.
  destruct (csv_keep got3 run3 a4 io4) as (D1 & D2 & _). pose proof (csv_io got3 run3 a4 io4) as J5.
  destruct (axis_csv got3 run3 a4 io4) as [a5 io5]. cbn [fst snd] in *.
  assert (P5 : cw_ok a5 cw3) by (apply (cw_ok_view a3); [congruence|done]).
  pose proof (profile_cw st ht tick run3 a5 io5 cw3 P5) as P6. pose proof (profile_io st ht tick run3 a5 io5 cw3) as J6.
  destruct (axis_profile st ht tick run3 a5 io5 cw3) as [[a6 io6] cw6]. cbn [fst snd] in J6.
  destruct P6 as (P6 & F6 & E6 & M6 & T6). cbn -[ecm_pdo_set].
  assert (V5 : view a5 = view a3) by congruence. injection V5 as V51 V52 V53. injection (proj1 V2) as V21 V22 V23.
  assert (F5 : fixed a6 = fixed a) by (rewrite F6, D2, C2, S1; apply V2).
  split_and!; try congruence.
  - exact P6.
  - exact F5.
  - destruct T6 as [T6|T6]; [|right; congruence]. destruct S6 as [S6|S6]; [left; congruence|right; congruence].
  - assert (Fb : a_b a6 = a_b a) by (by apply fixed_bind). rewrite Fb. eexists. split; [reflexivity|]. intros Hio Ho.
    assert (F4 : a_b a4 = a_b a) by (apply fixed_bind; rewrite C2, S1; apply V2).
    assert (F3 : a_b a3 = a_b a) by (apply fixed_bind; rewrite S1; apply V2).
    assert (F5' : a_b a5 = a_b a) by (apply fixed_bind; rewrite D2, C2, S1; apply V2).
    rewrite F3 in J4. rewrite F4 in J5. rewrite F5' in J6. specialize (J4 Hio Ho).
    specialize (J5 (proj1 J4) (outs_in_same _ _ _ J4 Ho)). pose proof (io_same_trans _ _ _ J4 J5) as J45.
    specialize (J6 (proj1 J5) (outs_in_same _ _ _ J45 Ho)). pose proof (io_same_trans _ _ _ J45 J6) as J46.
    case_if; [done|]. apply (io_same_trans _ io6); [done|]. apply set64_same; [apply J46|].
    by apply (outs_in_same _ _ _ J46 Ho).
Qed.

Lemma rt_keep cyc st ht xe tick v r a io :
  let '(r', a', io') := axis_rt cyc st ht xe tick v false r a io in
  cw_ok a' (a_cw a') /\ fixed a' = fixed a /\ (a_target a' = TGT_ENABLED -> a_target a = TGT_ENABLED /\ xe = 0) /\
  exists io1, io' = ecm_pdo_set (b_cw (a_b a)) io1 (a_cw a') /\
    (bytes io -> outs_in (a_b a) io -> io_same io io1).
Proof.
  unfold axis_rt. destruct (inputs_quiet cyc io v a) as (I1 & I2 & _). set (a1 := axis_inputs cyc io v a) in *.
  destruct (latch_keep xe false a1) as (L1 & _ & _ & L4). pose proof (latch_ext xe false a1) as L5.
  set (a2 := axis_latch xe false a1) in *. destruct (s1_keep v a2) as (S1 & _ & _ & S4). set (a3 := axis_s1 v a2) in *.
  pose proof (control_keep a3) as C. pose proof (control_cw a3) as W4.
  destruct (axis_control a3) as [[a4 cw4] en]. destruct C as (C1 & _ & _ & C4 & _).
  pose proof (timeout_keep st tick false a4 cw4) as T. pose proof (timeout_cw st tick false a4 cw4 W4) as W5.
  destruct (axis_timeout st tick false a4 cw4) as [a5 cw5]. destruct T as (T1 & _ & _ & T4).
  pose proof (out_keep st ht tick en a5 cw5 r io W5) as O.
  destruct (axis_out st ht tick en a5 cw5 r io) as [[r' a'] io']. destruct O as (O1 & O2 & _ & _ & O5 & io1 & O6).
  assert (F : fixed a5 = fixed a) by congruence. split; [done|]. split; [congruence|]. split.
  - intros He. destruct (decide (xe = 0)) as [|Hx]; [|specialize (L5 Hx)].
    + split; [|done]. destruct O5, T4, C4, S4, L4; congruence.
    + exfalso. destruct O5, T4, C4, S4; congruence.
  - exists io1. apply fixed_bind in F. rewrite <- F. done.
Qed.

(** *** Cyclic position: what goes to 0x607A *)

Lemma csp_value en got run a io : is_csp a = true -> h_bits (b_tpos (a_b a)) <> 0 -> (en = true -> run = false) ->
  let '(a', io') := axis_csp en got run a io in
  io' = ecm_pdo_set (b_tpos (a_b a)) io (u64 (a_last_sent a')) /\ a_last_sp a' = a_last_sent a' /\
  a_apos a' = a_apos a /\
  (if run && a_armed a then a_armed a' = true /\ a_last_sent a' = a_last_sp a
   else a_armed a' = false /\ a_last_sent a' = a_apos a).
Proof.
  intros Hc Hb He. unfold axis_csp. rewrite Hc, (proj2 (Z.eqb_neq _ _) Hb). cbn [negb andb].
  destruct en; [rewrite He by done|]; destruct run, (a_armed a) eqn:Ea; cbn [negb orb andb]; try destruct got;
    split_and!; try reflexivity; exact Ea.
Qed.

(** The setpoint of the queue [q] that is due for tick [k1]: the first one that is not
    overdue, when at most [skip] overdue ones are ahead of it and it is for [k1]. *)
Fixpoint due_sp (skip : nat) (k1 : Z) (q : list ecm_xsp_t) {struct q} : option Z :=
  match q with
  | [] => None
  | e :: q =>
      if k1 <? e_tick e then None
      else if e_tick e <? k1 then match skip with O => None | S skip => due_sp skip k1 q end
      else Some (e_v e !!! 0%nat)
  end.
Lemma sp_loop_due fuel skip k1 u n r a : u = true -> xring_wf r -> n = 16 - Z.of_nat skip -> (skip < fuel)%nat ->
  let '(r', a', got) := axis_sp_loop fuel k1 u n r a in
  match due_sp skip k1 (xring_queue r) with Some v => got = true /\ a_last_sp a' = v | None => got = false end.
Proof.
  intros ->. revert skip n r a. induction fuel as [|fuel IH]; intros skip n r a W N F; [lia|]. cbn [axis_sp_loop].
  rewrite (xring_peek_queue r W). destruct (xring_queue r) as [|e q] eqn:Q; cbn [head due_sp]; [reflexivity|].
  destruct (k1 <? e_tick e); [done|]. cbn [negb orb]. rewrite orb_false_r. destruct (e_tick e <? k1) eqn:L; [|done].
  destruct skip as [|skip].
  - rewrite N. done.
  - unfold ECM_XCHG_SP_SKIP_MAX. rewrite (proj2 (Z.eqb_neq n 16)) by lia.
    destruct (xring_pop_queue r e q W Q) as (W' & Q' & _).
    specialize (IH skip (n + 1) (ecm_xring_pop r) (a <| a_late := u64 (a_late a + 1) |>) W' ltac:(lia) ltac:(lia)). by rewrite Q' in IH.
Qed.
(** A step of [d] within the limit of the axis (0: no limit). *)
Definition step_ok (a : ecm_cia402_axis_t) (v : Z) : bool :=
  (a_max_step_pos a =? 0) || (Z.abs (i64 (v - a_last_sent a)) <=? a_max_step_pos a).
(** The CSP target of a tick from the axis before the output stage: value sent, armed,
    step refused. *)
Definition csp_next (running : bool) (due : option Z) (held apos : Z) (a : ecm_cia402_axis_t) : Z * bool * bool :=
  if negb running then (apos, false, false)
  else match due with
       | None => if a_armed a then (held, true, false) else (apos, false, false)
       | Some v => if step_ok a v then (v, true, false) else (apos, false, true)
       end.

(** Nothing after the decision changes the published [running] flag. *)
Lemma sp_loop_running fuel k1 u n r a : a_running (axis_sp_loop fuel k1 u n r a).1.2 = a_running a.
Proof.
  revert n r a. induction fuel as [|fuel IH]; intros n r a; cbn [axis_sp_loop]; [done|].
  destruct (ecm_xring_peek r) as [e|]; [|done]. case_if; [done|]. case_if; [|done]. case_if; [done|].
  cbv zeta. rewrite IH. by case_if.
Qed.
Lemma step_running got run a cw : a_running (axis_step got run a cw).1.1.1 = a_running a.
Proof. unfold axis_step. cbv zeta. stage_cases; done. Qed.
Lemma csp_running en got run a io : a_running (axis_csp en got run a io).1 = a_running a.
Proof. unfold axis_csp. cbv zeta. stage_cases; done. Qed.
Lemma stop_running a : a_running (axis_stop a) = a_running a.
Proof. unfold axis_stop. cbv zeta. stage_cases; done. Qed.
(** The test of S4 on the axis the setpoint loop leaves. *)
Lemma step_limit_ok got run a cw : is_csp a = true -> 0 <= a_max_step_pos a ->
  let '(a', cw', got', run') := axis_step got run a cw in
  if got && negb (step_ok a (a_last_sp a))
  then got' = false /\ run' = false /\ a_target a' = TGT_QUICKSTOP /\ a_err a' = ECM_AXERR_STEP /\ a_armed a' = false
  else a' = a /\ got' = got /\ run' = run.
Proof.
  intros Hc Hl. unfold axis_step. destruct got; [|done]. rewrite Hc. cbv zeta. cbn [andb].
  assert (Eq : negb (step_ok a (a_last_sp a)) = negb (a_max_step_pos a =? 0) &&
     ((a_max_step_pos a <? i64 (a_last_sp a - a_last_sent a)) || (i64 (a_last_sp a - a_last_sent a) <? - a_max_step_pos a))).
  { unfold step_ok. rewrite negb_orb. f_equal. apply eq_true_iff_eq.
    rewrite negb_true_iff, Z.leb_gt, orb_true_iff, !Z.ltb_lt. lia. }
  rewrite Eq. case_if; done.
Qed.

Lemma csp_out st ht tick en a cw r io :
  is_csp a = true -> h_bits (b_tpos (a_b a)) <> 0 -> (en = true -> runs a = false) -> xring_wf r -> 0 <= a_max_step_pos a ->
  let '(r', a', io') := axis_out st ht tick en a cw r io in
  let io1 := ecm_pdo_set (b_tpos (a_b a)) io (u64 (a_last_sent a')) in
  let io2 := if h_bits (b_mode (a_b a)) =? 0 then io1
             else ecm_pdo_set (b_mode (a_b a)) io1 (u64 (u8 (a_mode_req a))) in
  io' = ecm_pdo_set (b_cw (a_b a)) io2 (a_cw a') /\ a_last_sp a' = a_last_sent a' /\ a_apos a' = a_apos a /\
  a_running a' = runs a /\
  let '(t, armed, refused) := csp_next (runs a) (due_sp 16 (u64 (tick + 1)) (xring_queue r)) (a_last_sp a) (a_apos a) a in
  a_last_sent a' = t /\ a_armed a' = armed /\
  (if refused then a_target a' = TGT_QUICKSTOP /\ a_err a' = ECM_AXERR_STEP else a_target a' = a_target a).
Proof.
  intros Hc Hb Hen Wr Hlim. unfold axis_out. cbv zeta. set (run := runs a) in *.
  pose proof (sp_loop_keep 18 (u64 (tick + 1)) (run && (is_csp a || is_csv a)) 0 r (a <| a_running := run |>)) as L.
  pose proof (sp_loop_due 18 16 (u64 (tick + 1)) (run && (is_csp a || is_csv a)) 0 r (a <| a_running := run |>)) as Du.
  pose proof (sp_loop_running 18 (u64 (tick + 1)) (run && (is_csp a || is_csv a)) 0 r (a <| a_running := run |>)) as R1.
  destruct (axis_sp_loop _ _ _ _ _ _) as [[r1 a1] got]. destruct L as (L1 & L2 & L3 & L4 & _ & L6 & L7).
  cbn [fst snd] in R1. change (a_running (a <| a_running := run |>)) with run in R1.
  match goal with |- context [axis_step got run ?x cw] => set (a2 := x) end.
  assert (K2 : view a2 = view a1 /\ fixed a2 = fixed a1 /\ a_last_sent a2 = a_last_sent a1 /\ a_apos a2 = a_apos a1 /\
               a_last_sp a2 = a_last_sp a1 /\ a_armed a2 = a_armed a1 /\ a_running a2 = a_running a1) by (unfold a2; case_if; done).
  destruct K2 as (K1 & K2 & K3 & K4 & K5 & K6 & K7). clearbody a2.
  assert (F2 : fixed a2 = fixed a) by (rewrite K2, L2; reflexivity). pose proof F2 as F2'. injection F2' as Fc Fb Fm Fp Fv.
  assert (Hc2 : is_csp a2 = true) by (unfold is_csp in *; congruence).
  assert (Tv : a_target a2 = a_target a) by (rewrite L1 in K1; by injection K1).
  pose proof (step_limit_ok got run a2 cw Hc2 ltac:(congruence)) as S. pose proof (step_keep got run a2 cw) as Q.
  pose proof (step_running got run a2 cw) as R3.
  destruct (axis_step got run a2 cw) as [[[a3 cw3] got3] run3]. cbn [fst snd] in R3. destruct Q as (Q1 & Q2 & Q3 & Q4 & Q5 & _).
  assert (F3 : fixed a3 = fixed a) by congruence. pose proof F3 as F3'. injection F3' as Gc Gb Gm Gp Gv.
  assert (Hc3 : is_csp a3 = true) by (unfold is_csp in *; congruence).
  assert (Hen3 : en = true -> run3 = false).
  { intros E. specialize (Hen E). case_if_in S; [|destruct S as (_ & _ & ->)]; intuition. }
  pose proof (csp_value en got3 run3 a3 io Hc3 ltac:(by rewrite Gb) Hen3) as V.
  destruct (csp_keep en got3 run3 a3 io) as (C1 & C2 & C3).
  pose proof (csp_err en got3 run3 a3 io) as Ce. pose proof (csp_running en got3 run3 a3 io) as R4.
  destruct (axis_csp en got3 run3 a3 io) as [a4 io4]. cbn [fst] in *. destruct V as (V1 & V2 & V3 & V4).
  assert (Hnv : is_csv a4 = false).
  { unfold is_csp, is_csv in *. injection C2 as _ _ -> _ _. bprop. rewrite Hc3. done. }
  destruct (csv_keep got3 run3 a4 io4) as (_ & _ & _ & D). rewrite (D Hnv).
  set (a5 := if run3 then a4 else axis_stop a4).
  assert (P : axis_profile st ht tick run3 a4 io4 cw3 = (a5, io4, cw3)).
  { unfold axis_profile. fold a5. assert (a_mode_req a5 = ECM_OPMODE_CSP) as ->; [|done].
    unfold a5. destruct (stop_keep a4) as (_ & F & _). apply fixed_mode in F. apply fixed_mode in C2.
    unfold is_csp in Hc3. bprop. destruct run3; congruence. }
  rewrite P.
  assert (A5 : view a5 = view a4 /\ fixed a5 = fixed a4 /\ a_apos a5 = a_apos a4 /\ a_armed a5 = a_armed a4 /\
               a_last_sp a5 = a_last_sp a4 /\ a_last_sent a5 = a_last_sent a4 /\ a_running a5 = a_running a4).
  { unfold a5. destruct run3; [done|]. destruct (stop_keep a4) as (? & ? & ? & ? & ? & ?). rewrite stop_running. done. }
  destruct A5 as (B1 & B2 & B3 & B4 & B5 & B6 & B7).
  assert (Ae : run3 = false -> a5 = axis_stop a4) by (intros E; unfold a5; by rewrite E). clearbody a5.
  assert (F5 : fixed a5 = fixed a) by congruence. injection F5 as Hcf Hbf Hmf Hpf Hvf.
  cbv beta iota zeta.
  change (a_last_sent (a5 <| a_cw := cw3 |>)) with (a_last_sent a5).
  change (a_last_sp (a5 <| a_cw := cw3 |>)) with (a_last_sp a5).
  change (a_armed (a5 <| a_cw := cw3 |>)) with (a_armed a5).
  change (a_apos (a5 <| a_cw := cw3 |>)) with (a_apos a5).
  change (a_target (a5 <| a_cw := cw3 |>)) with (a_target a5).
  change (a_err (a5 <| a_cw := cw3 |>)) with (a_err a5).
  change (a_running (a5 <| a_cw := cw3 |>)) with (a_running a5).
  change (a_cw (a5 <| a_cw := cw3 |>)) with cw3.
  rewrite Hbf, Hmf, B3, B4, B5, B6, V1, Gb.
  assert (Et4 : a_target a5 = a_target a3) by (rewrite C1 in B1; by injection B1).
  assert (Ap : a_apos a3 = a_apos a) by (rewrite Q4, K4, L4; reflexivity).
  split; [reflexivity|]. split; [done|]. split; [congruence|]. split; [congruence|].
  assert (Hs : step_ok a2 (a_last_sp a2) = step_ok a (a_last_sp a2)).
  { unfold step_ok. by rewrite Fp, K3, L3. }
  unfold csp_next. fold run. destruct run eqn:Hrun; cbn [negb andb] in *.
  - specialize (Du ltac:(by rewrite Hc) Wr eq_refl ltac:(lia)).
    destruct (due_sp 16 (u64 (tick + 1)) (xring_queue r)) as [v|].
    + destruct Du as [-> Du]. rewrite Hs, K5, Du in S. cbn [andb] in S. destruct (step_ok a v); cbn [negb] in S.
      * destruct S as (-> & -> & ->). destruct (L7 eq_refl) as [L71 _]. rewrite K6, L71 in V4. cbn [andb] in V4.
        destruct V4. split_and!; congruence.
      * destruct S as (-> & -> & St & Se & Sa). cbn [andb] in V4. destruct V4 as [Va Vs].
        split_and!; [congruence|done|congruence|]. rewrite Ae by done.
        rewrite stop_err; rewrite Ce, Se; [done|vm_compute; congruence].
    + subst got. cbn [andb] in S. destruct S as (-> & -> & ->). destruct (L6 eq_refl) as [L61 L62].
      rewrite K6, L62 in V4. cbn [andb] in V4. change (a_armed (a <| a_running := true |>)) with (a_armed a) in V4.
      change (a_last_sp (a <| a_running := true |>)) with (a_last_sp a) in L61.
      destruct (a_armed a); destruct V4; split_and!; congruence.
  - destruct got; [destruct (L7 eq_refl) as [_ ?]; discriminate|]. cbn [andb] in S. destruct S as (-> & -> & ->).
    cbn [andb] in V4. destruct V4. split_and!; congruence.
Qed.

(** C1: the master never enables an axis by itself (S1, S7).  Whatever the
    statusword, the inputs and the state of the axis: when the controlword
    that leaves the tick has the enable-operation bit, the axis was commanded
    to run before the tick and still is, no monitor error stands, and the
    drive is already in Operation enabled, or in Switched on with the
    requested mode confirmed by 0x6061.  The controlword in the frame is the
    one recorded in the axis. *)
Theorem axis_controlword_guard cyc st ht xe tick v r a io :
  bytes io -> outs_in (a_b a) io ->
  let '(r', a', io') := axis_rt cyc st ht xe tick v false r a io in
  ecm_pdo_get (b_cw (a_b a)) io' = a_cw a' mod 2 ^ h_bits (b_cw (a_b a)) /\
  (Z.testbit (a_cw a') 3 = true ->
   a_target a = TGT_ENABLED /\ a_target a' = TGT_ENABLED /\ xe = 0 /\
   (a_ds a' = DS_OE \/ (a_ds a' = DS_SO /\ a_mode_ok a' = true))).
Proof.
  intros Hio Ho. pose proof (rt_keep cyc st ht xe tick v r a io) as K.
  destruct (axis_rt cyc st ht xe tick v false r a io) as [[r' a'] io'].
  destruct K as ([K0 K1] & _ & K3 & io1 & -> & J). specialize (J Hio Ho). split.
  - apply pdo_get_set; [apply J|clia|]. by apply (outs_in_same _ _ _ J Ho).
  - intros Hb. destruct (K1 Hb) as [T D]. destruct (K3 T) as [T0 X]. done.
Qed.

Lemma axis_bus_lost_lemma cyc st ht xe tick v r a io :
  let '(r', a', io') := axis_rt cyc st ht xe tick v true r a io in
  io' = io /\ r' = r /\ a_target a' = TGT_DISABLED /\ a_cw a' = a_cw a /\
  (a_target a <> TGT_DISABLED -> a_err a' = if xe =? 0 then ECM_AXERR_BUS_LOST else xe).
Proof.
  unfold axis_rt. destruct (inputs_quiet cyc io v a) as (I1 & _ & _ & _ & _ & _ & I7).
  set (a1 := axis_inputs cyc io v a) in *. clearbody a1. destruct (latch_lost_err xe a1) as (L2 & L3).
  pose proof (latch_lost xe a1) as L1. set (a2 := axis_latch xe true a1) in *. clearbody a2.
  rewrite s1_disabled by done. pose proof (control_disabled a2 L1) as C.
  destruct (axis_control a2) as [[a3 cw] en]. destruct C as (C1 & C2 & C3).
  assert (T : axis_timeout st tick true a3 cw = (a3, cw)) by (unfold axis_timeout; by rewrite andb_false_r).
  rewrite T. split_and!; try congruence. intros H. rewrite C2. apply L3. congruence.
Qed.

(** C3: bus lost (S5): the tick writes nothing and leaves the axis disabled;
    an axis that was not disabled gets the error BUS_LOST (or the error the
    monitor set), and the setpoint queue is left alone. *)
Theorem axis_bus_lost_disables cyc st ht xe tick v r a io :
  let '(r', a', io') := axis_rt cyc st ht xe tick v true r a io in
  io' = io /\ r' = r /\ a_target a' = TGT_DISABLED /\ a_cw a' = a_cw a /\
  (a_target a <> TGT_DISABLED -> a_err a' = if xe =? 0 then ECM_AXERR_BUS_LOST else xe).
Proof. apply axis_bus_lost_lemma. Qed.

(** *** The state before the output stages *)

(** The motion state, and the PP queue with its accounts. *)
Definition motion (a : ecm_cia402_axis_t) : Z * Z * bool := (a_last_sp a, a_last_sent a, a_armed a).
Definition pps (a : ecm_cia402_axis_t) : list Z * list Z * Z * Z * Z * Z * Z :=
  (a_pp_q a, a_pp_qf a, a_pp_head a, a_pp_n a, a_pp_phase a, a_pp_acked a, a_pp_lost a).
Definition inert (a a' : ecm_cia402_axis_t) : Prop := motion a' = motion a /\ pps a' = pps a.

Lemma inert_trans a b c : inert a b -> inert b c -> inert a c.
Proof. intros [H1 H2] [H3 H4]. split; congruence. Qed.

Lemma inputs_inert cyc io v a : inert a (axis_inputs cyc io v a).
Proof.
  unfold axis_inputs. destruct v; [|split; reflexivity].
  set (a0 := a <| a_sw := u16 (ecm_pdo_get (b_sw (a_b a)) io) |>).
  assert (H1 : inert a0 (in_pos io a0)) by (unfold in_pos, inert; stage).
  assert (H2 : inert (in_pos io a0) (in_vel cyc io (in_pos io a0))).
  { generalize (in_pos io a0). intros b. unfold in_vel, inert. stage. }
  assert (H3 : inert (in_vel cyc io (in_pos io a0)) (in_misc io (in_vel cyc io (in_pos io a0)))).
  { generalize (in_vel cyc io (in_pos io a0)). intros b. unfold in_misc, inert. stage. }
  assert (H0 : inert a a0) by (split; reflexivity). clearbody a0.
  pose proof (inert_trans _ _ _ (inert_trans _ _ _ (inert_trans _ _ _ H0 H1) H2) H3) as H. clear H0 H1 H2 H3.
  generalize dependent (in_misc io (in_vel cyc io (in_pos io a0))). intros b H.
  apply (inert_trans _ b); [done|]. split; reflexivity.
Qed.

(** Stages 1 to 5 decide the target and the controlword and nothing else of
    the motion. *)
Definition prepare (cyc st xe tick : Z) (v lost : bool) (a : ecm_cia402_axis_t) (io : list Z) :
    ecm_cia402_axis_t * Z * bool :=
  let a := axis_s1 v (axis_latch xe lost (axis_inputs cyc io v a)) in
  let '(a, cw, en) := axis_control a in
  let '(a, cw) := axis_timeout st tick lost a cw in (a, cw, en).

Lemma rt_prepare cyc st ht xe tick v lost r a io :
  axis_rt cyc st ht xe tick v lost r a io =
  let '(a, cw, en) := prepare cyc st xe tick v lost a io in
  if lost then (r, a, io) else axis_out st ht tick en a cw r io.
Proof.
  unfold axis_rt, prepare. destruct (axis_control _) as [[a1 cw] en]. by destruct (axis_timeout _ _ _ _ _).
Qed.

Lemma prepare_keep cyc st xe tick v lost a io :
  let '(a', cw, en) := prepare cyc st xe tick v lost a io in
  inert a a' /\ fixed a' = fixed a /\ (en = true -> runs a' = false) /\ cw_ok a' cw /\
  (a_target a' = a_target a \/ a_target a' = TGT_DISABLED).
Proof.
  unfold prepare. destruct (inputs_quiet cyc io v a) as (I1 & I2 & _). pose proof (inputs_inert cyc io v a) as N1.
  set (a1 := axis_inputs cyc io v a) in *. clearbody a1.
  destruct (latch_keep xe lost a1) as (L1 & _ & _ & L4).
  assert (N2 : inert a1 (axis_latch xe lost a1)) by (unfold axis_latch, inert; stage).
  set (a2 := axis_latch xe lost a1) in *. clearbody a2. destruct (s1_keep v a2) as (S1 & _ & _ & S4).
  assert (N3 : inert a2 (axis_s1 v a2)) by (unfold axis_s1, inert; stage).
  set (a3 := axis_s1 v a2) in *. clearbody a3. pose proof (control_keep a3) as C. pose proof (control_cw a3) as W.
  assert (N4 : let '(a4, _, _) := axis_control a3 in inert a3 a4) by (unfold axis_control, inert; stage).
  destruct (axis_control a3) as [[a4 cw4] en]. destruct C as (C1 & _ & _ & C4 & C5).
  pose proof (timeout_keep st tick lost a4 cw4) as T. pose proof (timeout_cw st tick lost a4 cw4 W) as W5.
  assert (N5 : let '(a5, _) := axis_timeout st tick lost a4 cw4 in inert a4 a5) by (unfold axis_timeout, inert; stage).
  destruct (axis_timeout st tick lost a4 cw4) as [a5 cw5]. destruct T as (T1 & T2 & _ & T4).
  split_and!; [eauto using inert_trans|congruence| |done|destruct L4, S4, C4, T4; ((left; congruence) || (right; congruence))].
  intros E. destruct (C5 E) as (_ & Hso & _). destruct (runs a5) eqn:R; [|done]. apply runs_inv in R as (_ & R & _). congruence.
Qed.

(** Writing the mode and the controlword after it leaves the target in place. *)
Lemma tpos_last b m cw t io : bytes io -> outs_in b io -> 0 <= cw ->
  handles_disjoint (b_cw b) (b_tpos b) -> handles_disjoint (b_mode b) (b_tpos b) ->
  ecm_pdo_get (b_tpos b)
    (ecm_pdo_set (b_cw b)
       (if h_bits (b_mode b) =? 0 then ecm_pdo_set (b_tpos b) io (u64 t)
        else ecm_pdo_set (b_mode b) (ecm_pdo_set (b_tpos b) io (u64 t)) (u64 m)) cw) =
  u64 t mod 2 ^ h_bits (b_tpos b).
Proof.
  intros Hio Ho Hcw Hd1 Hd2. pose proof (u64_range t) as R.
  assert (J1 : io_same io (ecm_pdo_set (b_tpos b) io (u64 t))) by (apply set64_same; [done|apply Ho]).
  assert (G1 : ecm_pdo_get (b_tpos b) (ecm_pdo_set (b_tpos b) io (u64 t)) = u64 t mod 2 ^ h_bits (b_tpos b))
    by (apply pdo_get_set; [done|clia|apply Ho]).
  pose proof (outs_in_same _ _ _ J1 Ho) as (Q1 & Q2 & Q3 & Q4). rewrite <- G1. case_if.
  + apply pdo_get_set_other; auto; apply J1.
  + pose proof (set64_same (b_mode b) _ m (proj1 J1) Q4) as J2.
    pose proof (outs_in_same _ _ _ J2 (outs_in_same _ _ _ J1 Ho)) as (Q1' & Q2' & _).
    rewrite pdo_get_set_other; auto; [|apply J2]. apply pdo_get_set_other; auto; [apply J1|].
    pose proof (u64_range m). clia.
Qed.
Lemma csp_next_same run due h h' apos a a' : a_armed a = a_armed a' -> a_max_step_pos a = a_max_step_pos a' ->
  a_last_sent a = a_last_sent a' -> (a_armed a' = true -> h = h') ->
  csp_next run due h apos a = csp_next run due h' apos a'.
Proof.
  intros E1 E2 E3 E4. unfold csp_next, step_ok. rewrite E1, E2, E3. destruct run; [|done]. destruct due; [done|].
  cbn [negb]. case_if; [by rewrite E4|done].
Qed.

(** The held value of an armed CSP axis is the one sent last. *)
Definition csp_inv (a : ecm_cia402_axis_t) : Prop :=
  is_csp a = true -> h_bits (b_tpos (a_b a)) <> 0 -> a_armed a = true -> a_last_sp a = a_last_sent a.

(** C2: what the drive gets as target position in CSP (S2, S3, S4), exactly,
    for every tick with a bus, given a well-formed setpoint queue, a step
    limit that is not negative and output fields that do not overlap.  The
    frame carries the value the axis records as sent, and that value is
    determined: an axis that does not run (not commanded enabled, not in
    Operation enabled or mode not confirmed) sends the actual position read in
    this tick and is disarmed; a running axis sends the setpoint due for the
    next frame (at most 16 overdue ones are skipped) when it is within the
    step limit of the value sent before; without a due setpoint it repeats the
    value sent before if it is armed and sends the actual position if it is
    not; and a due setpoint beyond the limit is refused: the actual position is
    sent, the axis is disarmed and ends in quick stop with error STEP.  Held
    and sent value of an armed axis stay equal.  (An axis still armed when the bus comes back therefore
    repeats the value it sent before the loss.) *)
Theorem axis_csp_target cyc st ht xe tick v r a io :
  csp_inv a -> is_csp a = true -> h_bits (b_tpos (a_b a)) <> 0 -> 0 <= a_max_step_pos a -> xring_wf r ->
  bytes io -> outs_in (a_b a) io -> handles_disjoint (b_cw (a_b a)) (b_tpos (a_b a)) ->
  handles_disjoint (b_mode (a_b a)) (b_tpos (a_b a)) ->
  let '(r', a', io') := axis_rt cyc st ht xe tick v false r a io in
  ecm_pdo_get (b_tpos (a_b a)) io' = u64 (a_last_sent a') mod 2 ^ h_bits (b_tpos (a_b a)) /\
  csp_inv a' /\
  (a_running a' = true -> a_target a = TGT_ENABLED /\ a_ds a' = DS_OE /\ a_mode_ok a' = true) /\
  let '(t, armed, refused) :=
    csp_next (a_running a') (due_sp 16 (u64 (tick + 1)) (xring_queue r)) (a_last_sent a) (a_apos a') a in
  a_last_sent a' = t /\ a_armed a' = armed /\
  (if refused then a_target a' = TGT_QUICKSTOP /\ a_err a' = ECM_AXERR_STEP else a_running a' = runs a').
Proof.
  intros Hinv Hc Hb Hlim Wr Hio Ho Hd1 Hd2. rewrite rt_prepare.
  pose proof (prepare_keep cyc st xe tick v false a io) as P.
  destruct (prepare cyc st xe tick v false a io) as [[a1 cw] en]. destruct P as ([M _] & F & En & W & T).
  pose proof (fixed_mode _ _ F) as Fm. pose proof (fixed_bind _ _ F) as Fb. pose proof (fixed_step _ _ F) as Fs.
  injection M as M1 M2 M3.
  assert (Hc1 : is_csp a1 = true) by (unfold is_csp in *; congruence).
  pose proof (csp_out st ht tick en a1 cw r io Hc1 ltac:(by rewrite Fb) En Wr ltac:(congruence)) as O.
  pose proof (out_keep st ht tick en a1 cw r io W) as K.
  destruct (axis_out st ht tick en a1 cw r io) as [[r' a'] io']. rewrite Fb, Fm in O.
  destruct K as ((K0 & _) & KF & Kd & Km & _). destruct O as (O1 & O2 & O3 & O4 & O5). split_and!.
  - rewrite O1. apply tpos_last; auto; clia.
  - intros _ _ _. done.
  - intros R. rewrite O4 in R. apply runs_inv in R as (R1 & R2 & R3). split_and!; [destruct T; congruence|congruence..].
  - rewrite O3, O4. rewrite (csp_next_same (runs a1) _ (a_last_sp a1) (a_last_sent a) (a_apos a1) a1 a M3 Fs M2) in O5
      by (intros E; rewrite M1, Hinv by congruence; done).
    destruct (csp_next _ _ _ _ _) as [[t armed] refused]. destruct O5 as (O6 & O7 & O8).
    split_and!; [done..|]. destruct refused; [done|]. unfold runs. by rewrite O8, Kd, Km.
Qed.

(** ** Profile position: the queue of points *)

Definition pp_slot (a : ecm_cia402_axis_t) (k : Z) : nat := Z.to_nat ((a_pp_head a + k) mod ECM_CIA402_PP_QUEUE).
(** The points waiting, oldest first, with their flags. *)
Definition pp_queue (a : ecm_cia402_axis_t) : list (Z * Z) :=
  (fun k => (a_pp_q a !!! pp_slot a k, a_pp_qf a !!! pp_slot a k)) <$> seqZ 0 (a_pp_n a).
(** Points taken over: acknowledged, counted as lost, waiting or in the
    handshake. *)
Definition pp_total (a : ecm_cia402_axis_t) : Z := u64 (a_pp_acked a + a_pp_lost a + a_pp_n a + b2z (a_pp_phase a =? 1)).

Record pp_wf (a : ecm_cia402_axis_t) : Prop := {
  pw_q : length (a_pp_q a) = 16%nat; pw_qf : length (a_pp_qf a) = 16%nat;
  pw_head : 0 <= a_pp_head a < 16; pw_n : 0 <= a_pp_n a <= 16; pw_phase : 0 <= a_pp_phase a <= 2
}.

Lemma pps_facts a a' : pps a' = pps a -> pp_queue a' = pp_queue a /\ pp_total a' = pp_total a /\ (pp_wf a -> pp_wf a').
Proof.
  intros [= E1 E2 E3 E4 E5 E6 E7]. unfold pp_queue, pp_total, pp_slot. rewrite E1, E2, E3, E4, E5, E6, E7.
  split_and!; auto. intros []. constructor; congruence.
Qed.

(** The slots of different positions differ while the queue is not full. *)
Lemma pp_slot_lt a k : (pp_slot a k < 16)%nat.
Proof. unfold pp_slot, ECM_CIA402_PP_QUEUE. pose proof (Z.mod_pos_bound (a_pp_head a + k) 16). lia. Qed.
Lemma pp_slot_inj a j k : Z.abs (j - k) < 16 -> pp_slot a j = pp_slot a k -> j = k.
Proof.
  unfold pp_slot, ECM_CIA402_PP_QUEUE. intros H E. assert (Em : (a_pp_head a + j) mod 16 = (a_pp_head a + k) mod 16).
  { pose proof (Z.mod_pos_bound (a_pp_head a + j) 16). pose proof (Z.mod_pos_bound (a_pp_head a + k) 16). lia. }
  pose proof (mod_near_inj (a_pp_head a + j) (a_pp_head a + k) 16). lia.
Qed.

(** A PP_POINT command: refused and counted, or appended. *)
Lemma pp_point_spec arg0 arg1 a : pp_wf a ->
  let a' := cmd_pp_point arg0 arg1 a in
  pp_wf a' /\ pp_total a' = u64 (pp_total a + 1) /\
  if a_running a && (a_mode_req a =? ECM_OPMODE_PP) && negb (a_pp_n a =? 16)
  then pp_queue a' = pp_queue a ++ [(arg0, u8 arg1)] /\ a_pp_lost a' = a_pp_lost a
  else pp_queue a' = pp_queue a /\ a_pp_lost a' = u64 (a_pp_lost a + 1).
Proof.
  intros Hw. pose proof Hw as [W1 W2 W3 W4 W5]. unfold cmd_pp_point. cbv zeta.
  destruct (a_running a && (a_mode_req a =? ECM_OPMODE_PP)) eqn:E1.
  2:{ assert (negb (a_running a) || negb (a_mode_req a =? ECM_OPMODE_PP) = true) as ->.
      { apply andb_false_iff in E1 as [-> | ->]; [done|by rewrite orb_true_r]. }
      split_and!; [by constructor| |done]. unfold pp_total; cbn. clia. }
  apply andb_true_iff in E1 as [-> ->]. cbn [negb orb andb].
  unfold ECM_CIA402_PP_QUEUE. destruct (Z.eqb_spec (a_pp_n a) 16) as [En|En]; cbn [negb].
  { split_and!; [by constructor| |done|done]. unfold pp_total; cbn. clia. }
  set (i := Z.to_nat ((a_pp_head a + a_pp_n a) mod 16)). assert (Hi : i = pp_slot a (a_pp_n a)) by done.
  assert (Hu : u8 (a_pp_n a + 1) = a_pp_n a + 1) by clia. rewrite Hu. split_and!.
  - constructor; cbn; rewrite ?length_insert; auto; lia.
  - unfold pp_total; cbn. clia.
  - match goal with |- pp_queue ?x = _ => set (a2 := x) end.
    assert (A : a_pp_n a2 = a_pp_n a + 1 /\ a_pp_q a2 = <[i := arg0]> (a_pp_q a) /\
                a_pp_qf a2 = <[i := u8 arg1]> (a_pp_qf a) /\ forall k, pp_slot a2 k = pp_slot a k) by done.
    clearbody a2. destruct A as (A1 & A2 & A3 & A4). pose proof (pp_slot_lt a (a_pp_n a)) as Hlt.
    unfold pp_queue. rewrite A1, A2, A3, seqZ_app, fmap_app by lia. f_equal.
    + apply list_fmap_ext. intros j k Hk. apply lookup_seqZ in Hk as [-> Hj]. rewrite A4.
      assert (Hne : i <> pp_slot a (0 + Z.of_nat j)).
      { rewrite Hi. intros E. apply pp_slot_inj in E; lia. }
      by rewrite !list_lookup_total_insert_ne.
    + rewrite seqZ_cons, seqZ_nil, Z.add_0_l by lia. cbn [fmap list_fmap].
      rewrite !A4, <- Hi, !list_lookup_total_insert_eq by lia. done.
  - done.
Qed.

(** *** A tick on the queue *)

Lemma sp_loop_pps fuel k1 u n r a : pps (axis_sp_loop fuel k1 u n r a).1.2 = pps a.
Proof.
  revert n r a. induction fuel as [|fuel IH]; intros n r a; [done|]. cbn [axis_sp_loop].
  destruct (ecm_xring_peek r) as [e|]; [|done]. case_if; [done|]. case_if; [|done]. case_if; [done|].
  rewrite IH. by destruct (e_tick e <? k1).
Qed.

Lemma stop_pp a : pp_wf a -> pp_wf (axis_stop a) /\ pp_queue (axis_stop a) = [] /\ pp_total (axis_stop a) = pp_total a.
Proof.
  intros [W1 W2 W3 W4 W5].
  assert (H : exists lost, pps (axis_stop a) = (a_pp_q a, a_pp_qf a, a_pp_head a, 0, 0, a_pp_acked a, lost) /\
     u64 (a_pp_acked a + lost) = pp_total a).
  { unfold axis_stop, pp_total. destruct (negb (a_pp_n a =? 0) || (a_pp_phase a =? 1)) eqn:E.
    - exists (u64 (a_pp_lost a + (a_pp_n a + b2z (a_pp_phase a =? 1)))). split; [stage|clia].
    - exists (a_pp_lost a). split; [stage|]. apply orb_false_iff in E as [E1 ->]. bprop. rewrite E1. cbn. f_equal. lia. }
  destruct H as (lost & E & Ht). generalize dependent (axis_stop a). intros a' E.
  injection E as E1 E2 E3 E4 E5 E6 E7. split_and!.
  - constructor; rewrite ?E1, ?E2, ?E3, ?E4, ?E5; auto; lia.
  - unfold pp_queue. rewrite E4. done.
  - unfold pp_total at 1. rewrite E4, E5, E6, E7. cbn [Z.eqb b2z]. rewrite <- Ht. f_equal. lia.
Qed.

(** What a tick may do to the queue: leave it, flush it, or start the oldest
    point. *)
Definition pp_next (a a' : ecm_cia402_axis_t) : Prop :=
  (pp_queue a' = pp_queue a) \/ (pp_queue a' = []) \/
  (pp_queue a = (a_pp_cur a', a_pp_flags a') :: pp_queue a' /\ a_pp_phase a' = 1).

Lemma pp_start a : pp_wf a -> a_pp_n a <> 0 ->
  pp_queue a = (a_pp_q a !!! Z.to_nat (a_pp_head a), a_pp_qf a !!! Z.to_nat (a_pp_head a)) ::
    ((fun k => (a_pp_q a !!! pp_slot a (k + 1), a_pp_qf a !!! pp_slot a (k + 1))) <$> seqZ 0 (a_pp_n a - 1)).
Proof.
  intros [W1 W2 W3 W4 W5] Hn. unfold pp_queue. rewrite seqZ_cons by lia. rewrite fmap_cons. f_equal.
  - unfold pp_slot, ECM_CIA402_PP_QUEUE. rewrite Z.add_0_r, Z.mod_small by lia. done.
  - rewrite <- (fmap_add_seqZ 1 0), <- list_fmap_compose. apply list_fmap_ext. intros j k _. cbn.
    by rewrite (Z.add_comm 1 k).
Qed.

Lemma pp_step_pp to tick run a cw : pp_wf a -> run = true ->
  let a' := (pp_step to tick run a cw).1 in pp_wf a' /\ pp_total a' = pp_total a /\ pp_next a a'.
Proof.
  intros Hw ->. pose proof Hw as [W1 W2 W3 W4 W5]. unfold pp_step. cbn [negb]. cbv zeta.
  destruct (Z.eqb_spec (a_pp_phase a) 0) as [E0|E0].
  - case_if; [|split_and!; [done|done|by left]]. apply andb_true_iff in E as [En _]. bprop.
    match goal with |- context [fst (?x, cw)] => change (fst (x, cw)) with x; set (a2 := x) end.
    assert (A : a_pp_q a2 = a_pp_q a /\ a_pp_qf a2 = a_pp_qf a /\ a_pp_head a2 = u8 ((a_pp_head a + 1) mod 16) /\
      a_pp_n a2 = u8 (a_pp_n a - 1) /\ a_pp_phase a2 = 1 /\ a_pp_acked a2 = a_pp_acked a /\ a_pp_lost a2 = a_pp_lost a /\
      a_pp_cur a2 = a_pp_q a !!! Z.to_nat (a_pp_head a) /\ a_pp_flags a2 = a_pp_qf a !!! Z.to_nat (a_pp_head a)) by done.
    clearbody a2. destruct A as (A1 & A2 & A3 & A4 & A5 & A6 & A7 & A8 & A9).
    assert (Hh : a_pp_head a2 = (a_pp_head a + 1) mod 16) by (rewrite A3; clia).
    assert (Hn : a_pp_n a2 = a_pp_n a - 1) by (rewrite A4; clia). split_and!.
    + constructor; rewrite ?A1, ?A2, ?Hh, ?Hn, ?A5; auto; try lia. apply Z.mod_pos_bound. lia.
    + unfold pp_total. rewrite Hn, A5, A6, A7, E0. cbn [Z.eqb b2z]. f_equal. cbn. lia.
    + right. right. split; [|done]. rewrite pp_start, A8, A9 by done. f_equal.
      unfold pp_queue. rewrite A1, A2, Hn. apply list_fmap_ext. intros j k _.
      assert (pp_slot a2 k = pp_slot a (k + 1)) as ->; [|done].
      unfold pp_slot, ECM_CIA402_PP_QUEUE. rewrite Hh, Z.add_mod_idemp_l by lia. do 2 f_equal. lia.
  - destruct (Z.eqb_spec (a_pp_phase a) 1) as [E1|E1].
    + case_if; [|case_if; [|split_and!; [done|done|by left]]]; (split_and!; [constructor; cbn; auto; lia| |by left]);
        unfold pp_total; cbn [a_pp_acked a_pp_lost a_pp_n a_pp_phase upd fst]; rewrite E1; cbn [Z.eqb b2z Pos.eqb]; clia.
    + case_if; [|split_and!; [done|done|by left]]. split_and!; [constructor; cbn; auto; lia| |by left].
      unfold pp_total; cbn [a_pp_acked a_pp_lost a_pp_n a_pp_phase upd fst]. by rewrite (proj2 (Z.eqb_neq _ _) E1).
Qed.

Lemma pp_next_of_pps a b a' : pps b = pps a -> pp_next b a' -> pp_next a a'.
Proof. intros E. destruct (pps_facts _ _ E) as (Eq & _). unfold pp_next. by rewrite Eq. Qed.

Lemma hm_step_pps ht tick a cw : pps (hm_step ht tick a cw).1 = pps a.
Proof. unfold hm_step. stage. Qed.

Lemma profile_pp st ht tick run a io cw : pp_wf a ->
  let a' := (axis_profile st ht tick run a io cw).1.1 in pp_wf a' /\ pp_total a' = pp_total a /\ pp_next a a'.
Proof.
  intros Hw. unfold axis_profile. cbv zeta. destruct run.
  - case_if.
    + pose proof (pp_step_pp st tick true a cw Hw eq_refl) as P. destruct (pp_step st tick true a cw). exact P.
    + case_if; [split_and!; [done|done|by left]|]. case_if; [|split_and!; [done|done|by left]].
      pose proof (hm_step_pps ht tick a cw) as P. destruct (hm_step ht tick a cw) as [a2 cw2]. cbn [fst] in *.
      destruct (pps_facts _ _ P) as (P1 & P2 & P3). split_and!; [auto|done|by left].
  - destruct (stop_pp a Hw) as (W & Q & T). generalize dependent (axis_stop a). intros a1 W Q T.
    assert (H : forall a', pps a' = pps a1 -> pp_wf a' /\ pp_total a' = pp_total a /\ pp_next a a').
    { intros a' E. destruct (pps_facts _ _ E) as (P1 & P2 & P3). split_and!; [auto|congruence|].
      right. left. congruence. }
    case_if.
    + unfold pp_step. cbn [negb]. apply H. reflexivity.
    + case_if; [by apply H|]. rewrite andb_false_r. by apply H.
Qed.

Lemma out_pp st ht tick en a cw r io : pp_wf a ->
  let a' := (axis_out st ht tick en a cw r io).1.2 in pp_wf a' /\ pp_total a' = pp_total a /\ pp_next a a'.
Proof.
  intros Hw. unfold axis_out. cbv zeta.
  pose proof (sp_loop_pps 18 (u64 (tick + 1)) (runs a && (is_csp a || is_csv a)) 0 r (a <| a_running := runs a |>)) as L.
  destruct (axis_sp_loop _ _ _ _ _ _) as [[r1 a1] got]. cbn [fst snd] in L.
  match goal with |- context [axis_step got (runs a) ?x cw] => set (a2 := x) end.
  assert (E2 : pps a2 = pps a1) by (unfold a2; case_if; reflexivity). clearbody a2.
  assert (E3 : let '(a3, _, _, _) := axis_step got (runs a) a2 cw in pps a3 = pps a2) by (unfold axis_step; stage).
  destruct (axis_step got (runs a) a2 cw) as [[[a3 cw3] got3] run3].
  assert (E4 : pps (axis_csp en got3 run3 a3 io).1 = pps a3) by (unfold axis_csp; stage).
  destruct (axis_csp en got3 run3 a3 io) as [a4 io4].
  assert (E5 : pps (axis_csv got3 run3 a4 io4).1 = pps a4) by (unfold axis_csv; stage).
  destruct (axis_csv got3 run3 a4 io4) as [a5 io5]. cbn [fst] in *.
  assert (E : pps a5 = pps a) by (rewrite E5, E4, E3, E2, L; reflexivity). destruct (pps_facts _ _ E) as (F1 & F2 & F3).
  pose proof (profile_pp st ht tick run3 a5 io5 cw3 (F3 Hw)) as P.
  destruct (axis_profile st ht tick run3 a5 io5 cw3) as [[a6 io6] cw6]. cbn [fst snd] in *.
  destruct P as (P1 & P2 & P3). assert (E7 : pps (a6 <| a_cw := cw6 |>) = pps a6) by reflexivity.
  destruct (pps_facts _ _ E7) as (G1 & G2 & G3).
  split; [exact (G3 P1)|]. split; [exact (eq_trans G2 (eq_trans P2 F2))|]. apply (pp_next_of_pps a a5) in P3; [|done].
  unfold pp_next in *. rewrite G1. exact P3.
Qed.

Lemma rt_pp cyc st ht xe tick v lost r a io : pp_wf a ->
  let a' := (axis_rt cyc st ht xe tick v lost r a io).1.2 in pp_wf a' /\ pp_total a' = pp_total a /\ pp_next a a'.
Proof.
  intros Hw. rewrite rt_prepare. pose proof (prepare_keep cyc st xe tick v lost a io) as P.
  destruct (prepare cyc st xe tick v lost a io) as [[a1 cw] en]. destruct P as ([_ M] & _).
  destruct (pps_facts _ _ M) as (F1 & F2 & F3). destruct lost.
  - cbn. split_and!; [auto|done|by left].
  - destruct (out_pp st ht tick en a1 cw r io (F3 Hw)) as (P1 & P2 & P3). cbv zeta.
    split_and!; [done|congruence|]. by apply (pp_next_of_pps a a1) in P3.
Qed.

(** Commands other than PP_POINT leave the queue alone. *)
Lemma apply_cmd_pps sd xe x tick a : c_op x <> ECM_CIA_OP_PP_POINT -> pps (apply_cmd sd xe x tick a).1 = pps a.
Proof.
  intros H. unfold apply_cmd. cbv zeta. rewrite (proj2 (Z.eqb_neq _ _) H).
  repeat case_if; try reflexivity; cbn [fst].
  - unfold cmd_enable. stage.
  - unfold cmd_fault_reset. stage.
  - unfold cmd_set_mode. stage.
  - unfold cmd_pv_vel. stage.
  - unfold cmd_home. stage.
Qed.

(** *** Histories of one axis *)

Inductive aev :=
  | ACmd (shutdown : bool) (xe : Z) (x : ecm_xcmd_t) (tick : Z)
  | ATick (cyc st ht xe tick : Z) (in_valid bus_lost : bool) (r : ecm_xring_t ecm_xsp_t) (io : list Z).

Definition aev_do (a : ecm_cia402_axis_t) (ev : aev) : ecm_cia402_axis_t :=
  match ev with
  | ACmd sd xe x tick => (apply_cmd sd xe x tick a).1
  | ATick cyc st ht xe tick v lost r io => (axis_rt cyc st ht xe tick v lost r a io).1.2
  end.
Definition is_point (ev : aev) : bool :=
  match ev with ACmd _ _ x _ => c_op x =? ECM_CIA_OP_PP_POINT | ATick _ _ _ _ _ _ _ _ _ => false end.
Definition points (evs : list aev) : Z := Z.of_nat (length (filter (fun ev => is_point ev = true) evs)).

Lemma aev_pp a ev : pp_wf a -> pp_wf (aev_do a ev) /\ pp_total (aev_do a ev) = u64 (pp_total a + b2z (is_point ev)).
Proof.
  intros Hw. destruct ev as [sd xe x tick|cyc st ht xe tick v lost r io]; cbn [aev_do is_point].
  - destruct (Z.eqb_spec (c_op x) ECM_CIA_OP_PP_POINT) as [E|E].
    + unfold apply_cmd. rewrite E. cbn [b2z].
      change ((if ECM_CIA_OP_PP_POINT =? ECM_CIA_OP_ENABLE then _ else _).1) with
        (cmd_pp_point (c_arg0 x) (c_arg1 x) (a <| a_last_seq := c_seq x |>)).
      assert (E7 : pps (a <| a_last_seq := c_seq x |>) = pps a) by reflexivity.
      destruct (pps_facts _ _ E7) as (_ & F2 & F3).
      destruct (pp_point_spec (c_arg0 x) (c_arg1 x) _ (F3 Hw)) as (P1 & P2 & _). split; [done|]. by rewrite P2, F2.
    + destruct (pps_facts _ _ (apply_cmd_pps sd xe x tick a E)) as (_ & F2 & F3). split; [auto|].
      rewrite F2. cbn. rewrite Z.add_0_r. unfold pp_total. clia.
  - destruct (rt_pp cyc st ht xe tick v lost r a io Hw) as (P1 & P2 & _). split; [done|].
    rewrite P2. cbn. rewrite Z.add_0_r. unfold pp_total. clia.
Qed.

(** C28: no PP point disappears unaccounted.  Over any history of commands and
    ticks -- whatever the statuswords, bus losses, faults, mode changes and
    timeouts -- the points commanded so far are exactly those acknowledged by
    the drive, counted as lost, waiting in the queue or in the handshake
    (all counters modulo 2^64). *)
Theorem axis_pp_accounted a evs : pp_wf a -> pp_total a = 0 ->
  let a' := foldl aev_do a evs in
  u64 (a_pp_acked a' + a_pp_lost a' + a_pp_n a' + b2z (a_pp_phase a' =? 1)) = u64 (points evs).
Proof.
  intros Hw Ht. cbv zeta. change (pp_total (foldl aev_do a evs) = u64 (points evs)).
  assert (H : pp_total (foldl aev_do a evs) = u64 (pp_total a + points evs)); [|by rewrite H, Ht].
  clear Ht. revert a Hw. induction evs as [|ev evs IH]; intros a Hw; cbn [foldl].
  - unfold points. cbn. rewrite Z.add_0_r. unfold pp_total. clia.
  - destruct (aev_pp a ev Hw) as [W T]. rewrite (IH _ W), T. unfold points. rewrite filter_cons.
    destruct (is_point ev); cbn [b2z]; [rewrite decide_True by done|rewrite decide_False by done]; cbn [length]; clia.
Qed.

(** PP points reach the drive in the order of the commands.  An accepted
    point goes to the end of the queue; a tick leaves the queue as it is,
    empties it (only when the axis is not running; the points are counted as
    lost), or takes its oldest point as the target of the new set-point
    handshake -- never another one. *)
Theorem axis_pp_fifo cyc st ht xe tick v lost r a io arg0 arg1 : pp_wf a ->
  let p := cmd_pp_point arg0 arg1 a in
  let a' := (axis_rt cyc st ht xe tick v lost r a io).1.2 in
  pp_wf p /\ pp_wf a' /\
  (pp_queue p = pp_queue a ++ [(arg0, u8 arg1)] \/
   (pp_queue p = pp_queue a /\ a_pp_lost p = u64 (a_pp_lost a + 1))) /\
  (pp_queue a' = pp_queue a \/ pp_queue a' = [] \/
   (pp_queue a = (a_pp_cur a', a_pp_flags a') :: pp_queue a' /\ a_pp_phase a' = 1)).
Proof.
  intros Hw. cbv zeta. destruct (pp_point_spec arg0 arg1 a Hw) as (P1 & _ & P3).
  destruct (rt_pp cyc st ht xe tick v lost r a io Hw) as (R1 & _ & R3). split_and!; auto.
  case_if_in P3; destruct P3 as [P3 P4]; auto.
Qed.

(** ** Witnesses: the CSP axis of the demo drive *)

Definition run_axis : ecm_cia402_axis_t :=
  axis_zero <| a_cfg := demo_axis 0 |> <| a_b := demo_bind 0 |> <| a_mode_req := ECM_OPMODE_CSP |>
    <| a_max_step_pos := 100 |> <| a_target := TGT_ENABLED |> <| a_armed := true |>
    <| a_last_sp := 1000 |> <| a_last_sent := 1000 |>.
(** Statusword Operation enabled, position 1000. *)
Definition run_io : list Z :=
  ecm_pdo_set (b_apos (demo_bind 0)) (ecm_pdo_set (b_sw (demo_bind 0)) (replicate 24 0) 0x0027) 1000.
Definition run_ring : ecm_xring_t ecm_xsp_t := (ecm_xring_push (ecm_xring_init 512) (mkxsp 8 [1060; 0; 0])).1.

Definition bytesb (io : list Z) : bool := forallb (fun b => (0 <=? b) && (b <? 256)) io.
Lemma bytesb_ok io : bytesb io = true -> bytes io.
Proof.
  unfold bytesb, bytes. induction io as [|b io IH]; [constructor|]. cbn [forallb]. intros H.
  apply andb_true_iff in H as [H1 H2]. bprop. constructor; [unfold is_u8; lia|auto].
Qed.

Lemma run_outs : outs_in (a_b run_axis) run_io.
Proof. unfold outs_in, handle_in. vm_compute. repeat split; congruence. Qed.
Lemma run_io_bytes : bytes run_io.
Proof. apply bytesb_ok. vm_compute. reflexivity. Qed.

Lemma axis_controlword_guard_witness :
  let '(r', a', io') := axis_rt 1000000 500 30000 0 7 true false run_ring run_axis run_io in
  a_cw a' = 0x000F /\ a_target run_axis = TGT_ENABLED /\ a_ds a' = DS_OE.
Proof.
  pose proof (axis_controlword_guard 1000000 500 30000 0 7 true run_ring run_axis run_io run_io_bytes run_outs) as H.
  destruct (axis_rt 1000000 500 30000 0 7 true false run_ring run_axis run_io) as [[r' a'] io'] eqn:E.
  apply (f_equal (fun t => t.1.2)) in E. vm_compute in E. cbn [fst snd] in E. destruct H as [_ H].
  split; [by rewrite <- E|]. destruct H as (H1 & _ & _ & _); [rewrite <- E; reflexivity|].
  split; [done|by rewrite <- E].
Defined.

(** The setpoint 1060 for frame 8 is within the limit and goes out. *)
Lemma axis_csp_target_witness :
  let '(r', a', io') := axis_rt 1000000 500 30000 0 7 true false run_ring run_axis run_io in
  ecm_pdo_get (b_tpos (a_b run_axis)) io' = 1060.
Proof.
  assert (Hinv : csp_inv run_axis) by (intros _ _ _; reflexivity).
  assert (Hb : h_bits (b_tpos (a_b run_axis)) <> 0) by (vm_compute; congruence).
  assert (Hs : 0 <= a_max_step_pos run_axis) by (vm_compute; congruence).
  assert (D1 : handles_disjoint (b_cw (a_b run_axis)) (b_tpos (a_b run_axis))) by (left; vm_compute; congruence).
  assert (D2 : handles_disjoint (b_mode (a_b run_axis)) (b_tpos (a_b run_axis))) by (left; vm_compute; congruence).
  assert (Wr : xring_wf run_ring) by (apply xring_push_wf, xring_init_wf; lia).
  pose proof (axis_csp_target 1000000 500 30000 0 7 true run_ring run_axis run_io Hinv eq_refl Hb Hs Wr
    run_io_bytes run_outs D1 D2) as H.
  assert (Ev : a_running (axis_rt 1000000 500 30000 0 7 true false run_ring run_axis run_io).1.2 = true)
    by (vm_compute; reflexivity).
  destruct (axis_rt 1000000 500 30000 0 7 true false run_ring run_axis run_io) as [[r' a'] io'].
  cbn [fst snd] in Ev. destruct H as (H1 & _ & _ & H2). rewrite Ev in H2.
  change (csp_next true (due_sp 16 (u64 (7 + 1)) (xring_queue run_ring)) (a_last_sent run_axis) (a_apos a') run_axis)
    with (1060, true, false) in H2. destruct H2 as (H2 & _). rewrite H2 in H1. rewrite H1. vm_compute. reflexivity.
Defined.

Lemma zero_pp_wf : pp_wf axis_zero.
Proof. constructor; vm_compute; try reflexivity; split; congruence. Qed.

(** A point refused while the axis does not run is counted as lost. *)
Lemma axis_pp_accounted_witness :
  let evs := [ACmd false 0 (mkxcmd 0 0 ECM_CIA_OP_PP_POINT 1 500 0) 1;
              ATick 1000000 500 30000 0 1 true false run_ring run_io] in
  let a' := foldl aev_do axis_zero evs in
  u64 (a_pp_acked a' + a_pp_lost a' + a_pp_n a' + b2z (a_pp_phase a' =? 1)) = 1.
Proof.
  intros evs. apply (axis_pp_accounted axis_zero evs); [apply zero_pp_wf|vm_compute; reflexivity].
Defined.

Lemma axis_pp_fifo_witness :
  pp_wf (cmd_pp_point 500 2 (axis_zero <| a_running := true |> <| a_mode_req := ECM_OPMODE_PP |>)).
Proof.
  assert (W : pp_wf (axis_zero <| a_running := true |> <| a_mode_req := ECM_OPMODE_PP |>)).
  { constructor; vm_compute; try reflexivity; split; congruence. }
  by destruct (axis_pp_fifo 1000000 500 30000 0 1 true false run_ring _ run_io 500 2 W) as (H & _).
Defined.
