(* ===== verification/Cia402Hook.v ===== *)
(** * The CiA402 hook and its histories

    [ecm_cia402_rt] over all axes: the commands of a tick, then every axis
    with its published record.  Who can enable an axis, what a shutdown
    leaves possible, what a reader gets, and the histories in which the
    code keeps a stale target over a bus loss. *)
From Stdlib Require Import ZArith Lia Bool.
From S2P Require Import Prelude Ring Pdo Xchg.
Import Xring Xst Xchg.
From S2P Require Import Cia402Cfg Cia402Axis Cia402Safety.
From stdpp Require Import base list numbers sets.
Open Scope Z_scope.

(** ** The whole hook *)

Lemma rt_enabled cyc st ht xe tick v lost r a io :
  a_target (axis_rt cyc st ht xe tick v lost r a io).1.2 = TGT_ENABLED ->
  a_target a = TGT_ENABLED /\ xe = 0 /\ lost = false.
Proof.
  destruct lost.
  - pose proof (axis_bus_lost_lemma cyc st ht xe tick v r a io) as H.
    destruct (axis_rt _ _ _ _ _ _ _ _ _ _) as [[r' a'] io']. cbn. destruct H as (_ & _ & H & _). congruence.
  - pose proof (rt_keep cyc st ht xe tick v r a io) as H.
    destruct (axis_rt _ _ _ _ _ _ _ _ _ _) as [[r' a'] io']. cbn. destruct H as (_ & _ & H & _).
    intros E. by destruct (H E).
Qed.

Lemma apply_cmd_enabled sd xe x tick a : a_target (apply_cmd sd xe x tick a).1 = TGT_ENABLED ->
  (c_op x <> ECM_CIA_OP_ENABLE /\ a_target a = TGT_ENABLED) \/
  (c_op x = ECM_CIA_OP_ENABLE /\ sd = false /\ xe = 0) \/
  (c_op x = ECM_CIA_OP_ENABLE /\ sd = true /\ a_target a = TGT_ENABLED).
Proof.
  unfold apply_cmd. cbv zeta. destruct (Z.eqb_spec (c_op x) ECM_CIA_OP_ENABLE) as [E|E].
  - cbn [fst]. unfold cmd_enable. destruct sd; [auto|]. destruct (Z.eqb_spec xe 0); [auto|]. discriminate.
  - intros H. left. split; [done|]. revert H. repeat (case_if; [cbn [fst]|]); cbn [fst]; try done; try discriminate.
    + unfold cmd_fault_reset. stage_cases; discriminate.
    + unfold cmd_set_mode. stage_cases; done.
    + unfold cmd_pp_point. stage_cases; done.
    + unfold cmd_pv_vel. stage_cases; done.
    + unfold cmd_home. stage_cases; done.
Qed.

Definition tgt_of (c : ecm_cia402_t) (i : nat) : ecm_tgt_t := a_target (m_ax c !!! i).

(** What commands and ticks do not change of the master. *)
Record cia_same (c c' : ecm_cia402_t) : Prop := {
  cs_n : m_naxes c' = m_naxes c; cs_len : length (m_ax c') = length (m_ax c); cs_sd : m_shutdown c' = m_shutdown c;
  cs_xe : m_ext_err c' = m_ext_err c
}.
Lemma cia_same_refl c : cia_same c c.
Proof. by constructor. Qed.
Lemma cia_same_trans c1 c2 c3 : cia_same c1 c2 -> cia_same c2 c3 -> cia_same c1 c3.
Proof. intros [] []. constructor; congruence. Qed.

(** An ENABLE command for axis [i] that the master may accept. *)
Definition enables (c : ecm_cia402_t) (i : nat) (x : ecm_xcmd_t) : Prop :=
  Z.to_nat (c_target x) = i /\ c_op x = ECM_CIA_OP_ENABLE /\ m_shutdown c = false /\ m_ext_err c !!! i = 0.

Lemma cia_exec_spec tick c x i : (i < length (m_ax c))%nat ->
  cia_same c (cia_exec tick c x) /\ m_cmd (cia_exec tick c x) = m_cmd c /\
  m_cmd_deferred (cia_exec tick c x) = m_cmd_deferred c /\
  (tgt_of (cia_exec tick c x) i = TGT_ENABLED -> tgt_of c i = TGT_ENABLED \/ enables c i x).
Proof.
  intros Hi. unfold cia_exec, tgt_of. destruct (c_target x <? m_naxes c); [|split_and!; [by constructor|done|done|by left]].
  pose proof (apply_cmd_enabled (m_shutdown c) (m_ext_err c !!! Z.to_nat (c_target x)) x tick
    (m_ax c !!! Z.to_nat (c_target x))) as H.
  destruct (apply_cmd _ _ _ _ _) as [a bad]. cbn [fst] in H.
  assert (G : a_target (<[Z.to_nat (c_target x) := a]> (m_ax c) !!! i) = TGT_ENABLED ->
              a_target (m_ax c !!! i) = TGT_ENABLED \/ enables c i x).
  { destruct (decide (Z.to_nat (c_target x) = i)) as [Ei|Hne].
    - rewrite Ei in *. rewrite list_lookup_total_insert_eq by done. intros E. unfold enables.
      destruct (H E) as [[_ ?]|[(? & ? & ?)|(_ & _ & ?)]]; auto.
    - rewrite list_lookup_total_insert_ne by done. auto. }
  destruct bad; (split_and!; [constructor; cbn; rewrite ?length_insert; done|done|done|exact G]).
Qed.

Lemma cia_fold_spec tick l c i : (i < length (m_ax c))%nat ->
  cia_same c (foldl (cia_exec tick) c l) /\ m_cmd_deferred (foldl (cia_exec tick) c l) = m_cmd_deferred c /\
  (tgt_of (foldl (cia_exec tick) c l) i = TGT_ENABLED -> tgt_of c i = TGT_ENABLED \/ Exists (enables c i) l).
Proof.
  revert c. induction l as [|x l IH]; intros c Hi; cbn [foldl].
  { split_and!; [apply cia_same_refl|done|by left]. }
  destruct (cia_exec_spec tick c x i Hi) as (S1 & _ & D1 & T1).
  destruct (IH (cia_exec tick c x)) as (S2 & D2 & T2); [by rewrite (cs_len _ _ S1)|].
  split_and!; [by apply (cia_same_trans _ _ _ S1)|congruence|]. intros E.
  destruct (T2 E) as [E1|E1].
  - destruct (T1 E1); [by left|right; by constructor].
  - right. apply Exists_cons_tl. eapply Exists_impl; [exact E1|]. intros y (Y1 & Y2 & Y3 & Y4). unfold enables.
    rewrite <- (cs_sd _ _ S1), <- (cs_xe _ _ S1). done.
Qed.

Lemma cia_exec_set_cmd tick c x r : cia_exec tick (c <| m_cmd := r |>) x = (cia_exec tick c x) <| m_cmd := r |>.
Proof.
  unfold cia_exec. cbn. case_if; [|done]. destruct (apply_cmd _ _ _ _ _) as [a bad]. by destruct bad.
Qed.
Lemma cia_fold_set_cmd tick l c r :
  foldl (cia_exec tick) (c <| m_cmd := r |>) l = (foldl (cia_exec tick) c l) <| m_cmd := r |>.
Proof. revert c. induction l as [|x l IH]; intros c; [done|]. cbn [foldl]. by rewrite cia_exec_set_cmd, IH. Qed.

Lemma cia_loop_spec fuel b tick c :
  (b <= 8)%nat -> (b < fuel)%nat -> xring_wf (m_cmd c) ->
  let q := xring_queue (m_cmd c) in
  let l := cmds_now (u64 (tick + 1)) b q in
  exists r dfr, xring_wf r /\ xring_queue r = drop (length l) q /\
    cia_cmd_loop fuel tick (8 - Z.of_nat b) c =
    (foldl (cia_exec tick) c l) <| m_cmd := r |> <| m_cmd_deferred := dfr |>.
Proof.
  revert b c. induction fuel as [|fuel IH]; intros b c Hb Hf Hw q l; [lia|].
  cbn [cia_cmd_loop]. rewrite xring_peek_queue by done. fold q. unfold l, cmds_now.
  destruct q as [|x q'] eqn:Eq; cbn [head take_while].
  { exists (m_cmd c), (m_cmd_deferred c). rewrite take_nil. split_and!; [done|by subst q|]. by destruct c. }
  rewrite Z.leb_antisym. destruct (u64 (tick + 1) <? c_tick x) eqn:Et; cbn [negb].
  { exists (m_cmd c), (m_cmd_deferred c). rewrite take_nil. split_and!; [done|by subst q|]. by destruct c. }
  destruct b as [|b].
  { exists (m_cmd c), (u64 (m_cmd_deferred c + 1)). split_and!; [done|by subst q|]. by destruct c. }
  rewrite (proj2 (Z.eqb_neq _ _)) by (unfold ECM_XCHG_CMD_PER_TICK; lia).
  destruct (xring_pop_queue (m_cmd c) x q') as (Pw & Pq & _); [done|by subst q|].
  replace (8 - Z.of_nat (S b) + 1) with (8 - Z.of_nat b) by lia.
  assert (E1 : (cia_exec tick c x) <| m_cmd ::= ecm_xring_pop |> = (cia_exec tick c x) <| m_cmd := ecm_xring_pop (m_cmd c) |>).
  { assert (Em : m_cmd (cia_exec tick c x) = m_cmd c).
    { unfold cia_exec. case_if; [|done]. destruct (apply_cmd _ _ _ _ _) as [a bad]. by destruct bad. }
    generalize dependent (cia_exec tick c x). intros c1 Em. cbn. by rewrite Em. }
  rewrite E1. set (c1 := cia_exec tick c x) in *.
  destruct (IH b (c1 <| m_cmd := ecm_xring_pop (m_cmd c) |>)) as (r & dfr & R1 & R2 & R3); [lia|lia|done|].
  change (m_cmd (c1 <| m_cmd := ecm_xring_pop (m_cmd c) |>)) with (ecm_xring_pop (m_cmd c)) in R2, R3.
  rewrite Pq in R2, R3. exists r, dfr. split_and!; [done|done|]. rewrite R3, cia_fold_set_cmd. done.
Qed.

Lemma cia_axis_spec tick v lost c io k i : (i < length (m_ax c))%nat -> (k < length (m_ax c))%nat ->
  let '(c', io') := cia_axis tick v lost (c, io) k in
  cia_same c c' /\ m_cmd c' = m_cmd c /\
  (tgt_of c' i = TGT_ENABLED -> tgt_of c i = TGT_ENABLED /\ (i = k -> lost = false /\ m_ext_err c !!! i = 0)).
Proof.
  intros Hi Hk. unfold cia_axis, tgt_of.
  pose proof (rt_enabled (m_cycle_ns c) (m_step_timeout_ticks c) (m_home_timeout_ticks c) (m_ext_err c !!! k)
    tick v lost (m_sp c !!! k) (m_ax c !!! k) io) as H.
  destruct (axis_rt _ _ _ _ _ _ _ _ _ _) as [[r a] io']. cbn [fst snd] in H. unfold publish.
  split_and!; [constructor; cbn; rewrite ?length_insert; done|done|].
  cbn [m_ax upd]. destruct (decide (k = i)) as [->|Hne].
  - rewrite list_lookup_total_insert_eq by done. intros E. destruct (H E) as (H1 & H2 & H3). done.
  - rewrite list_lookup_total_insert_ne by done. intros E. split; [done|]. intros Ei. by symmetry in Ei.
Qed.

Lemma cia_axes_spec tick v lost l c io i : (i < length (m_ax c))%nat -> Forall (fun k => (k < length (m_ax c))%nat) l ->
  let '(c', io') := foldl (cia_axis tick v lost) (c, io) l in
  cia_same c c' /\ m_cmd c' = m_cmd c /\
  (tgt_of c' i = TGT_ENABLED -> tgt_of c i = TGT_ENABLED /\ (i ∈ l -> lost = false /\ m_ext_err c !!! i = 0)).
Proof.
  revert c io. induction l as [|k l IH]; intros c io Hi Hl; cbn [foldl].
  { split_and!; [apply cia_same_refl|done|]. intros E. split; [done|]. intros Hn. by apply not_elem_of_nil in Hn. }
  apply Forall_cons_1 in Hl as [Hk Hl]. pose proof (cia_axis_spec tick v lost c io k i Hi Hk) as H.
  destruct (cia_axis tick v lost (c, io) k) as [c1 io1]. destruct H as (S1 & M1 & T1).
  specialize (IH c1 io1). rewrite (cs_len _ _ S1) in IH. specialize (IH Hi Hl).
  destruct (foldl (cia_axis tick v lost) (c1, io1) l) as [c2 io2]. destruct IH as (S2 & M2 & T2).
  split_and!; [by apply (cia_same_trans _ _ _ S1)|congruence|]. intros E. destruct (T2 E) as [E1 X2].
  destruct (T1 E1) as [E0 X1]. split; [done|]. intros Hin. apply elem_of_cons in Hin as [Hin|Hin]; [auto|].
  rewrite <- (cs_xe _ _ S1). auto.
Qed.

Record cia_wf (c : ecm_cia402_t) : Prop := {
  cw_n : 0 <= m_naxes c <= 32; cw_ax : length (m_ax c) = 32%nat; cw_cmd : xring_wf (m_cmd c)
}.

(** The hook on the target of one axis. *)
Lemma cia_rt_target c io tick ts v lost i : cia_wf c -> (i < 32)%nat ->
  let c' := (ecm_cia402_rt c io tick ts v lost).1 in
  cia_wf c' /\ cia_same c c' /\
  xring_queue (m_cmd c') = drop (length (cmds_now (u64 (tick + 1)) 8 (xring_queue (m_cmd c)))) (xring_queue (m_cmd c)) /\
  (Z.of_nat i < m_naxes c -> tgt_of c' i = TGT_ENABLED ->
   lost = false /\ m_ext_err c !!! i = 0 /\
   (tgt_of c i = TGT_ENABLED \/ Exists (enables c i) (cmds_now (u64 (tick + 1)) 8 (xring_queue (m_cmd c))))).
Proof.
  intros Hw Hi. pose proof Hw as [W1 W2 W3]. cbv zeta. unfold ecm_cia402_rt.
  destruct (cia_loop_spec 9 8 tick c ltac:(lia) ltac:(lia) W3) as (r & dfr & R1 & R2 & R3).
  change (8 - Z.of_nat 8) with 0 in R3. rewrite R3. set (l := cmds_now (u64 (tick + 1)) 8 (xring_queue (m_cmd c))) in *.
  destruct (cia_fold_spec tick l c i ltac:(lia)) as (S1 & _ & T1). set (c1 := foldl (cia_exec tick) c l) in *.
  match goal with |- context [foldl (cia_axis tick v lost) (?x, io) _] => set (c2 := x) end.
  assert (S2 : cia_same c c2) by (destruct S1; by constructor).
  assert (M2 : m_cmd c2 = r) by done. assert (T2 : tgt_of c2 i = tgt_of c1 i) by done. clearbody c2.
  rewrite (cs_n _ _ S2).
  pose proof (cia_axes_spec tick v lost (seq 0 (Z.to_nat (m_naxes c))) c2 io i) as H.
  rewrite (cs_len _ _ S2) in H. specialize (H ltac:(lia)).
  specialize (H ltac:(apply Forall_lookup_2; intros j k Hk; apply lookup_seq in Hk as [-> Hj]; lia)).
  destruct (foldl _ (c2, io) _) as [c3 io3]. destruct H as (S3 & M3 & T3). cbn [fst].
  pose proof (cia_same_trans _ _ _ S2 S3) as S. split_and!.
  - destruct S. constructor; cbn; [lia|lia|by rewrite M3, M2].
  - destruct S. by constructor.
  - cbn. by rewrite M3, M2.
  - intros Hn E. change (tgt_of c3 i = TGT_ENABLED) in E. destruct (T3 E) as [E2 X]. rewrite (cs_xe _ _ S2) in X.
    destruct X as [X1 X2]; [apply elem_of_seq; lia|]. split_and!; [done|done|]. apply T1. by rewrite <- T2.
Qed.

(** C4: only an ENABLE command enables (S1).  When the hook of a tick leaves
    axis [i] with target ENABLED, the bus is not lost, the monitor holds no
    error against the axis, and either the target was ENABLED before, or one
    of the commands taken in this tick is an ENABLE for this axis, accepted
    while the master was not shutting down. *)
Theorem cia402_enable_needs_command c io tick ts v lost i :
  cia_wf c -> Z.of_nat i < m_naxes c ->
  tgt_of (ecm_cia402_rt c io tick ts v lost).1 i = TGT_ENABLED ->
  lost = false /\ m_ext_err c !!! i = 0 /\
  (tgt_of c i = TGT_ENABLED \/ Exists (enables c i) (cmds_now (u64 (tick + 1)) 8 (xring_queue (m_cmd c)))).
Proof.
  intros Hw Hi. pose proof (cw_n _ Hw) as Hn.
  destruct (cia_rt_target c io tick ts v lost i Hw ltac:(lia)) as (_ & _ & _ & H). by apply H.
Qed.

(** *** Everything the application and the RT thread may call *)

Inductive ciaop :=
  | OCmd (axis op arg0 arg1 seq tick : Z) | OSp (axis tick v : Z)
  | OExt (axis err : Z) | OLimit (axis max_pos max_vel : Z) | OHome (ms : Z)
  | ORt (io : list Z) (tick t_send_ns : Z) (in_valid bus_lost : bool).

Definition ciado (c : ecm_cia402_t) (o : ciaop) : ecm_cia402_t :=
  match o with
  | OCmd axis op arg0 arg1 seq tick => (ecm_cia402_cmd2 c axis op arg0 arg1 seq tick).1
  | OSp axis tick v => (ecm_cia402_setpoint c axis tick v).1
  | OExt axis err => ecm_cia402_set_ext_error c axis err
  | OLimit axis mp mv => ecm_cia402_set_step_limit c axis mp mv
  | OHome ms => ecm_cia402_set_home_timeout c ms
  | ORt io tick ts v lost => (ecm_cia402_rt c io tick ts v lost).1
  end.

Definition stopped (c : ecm_cia402_t) : Prop :=
  cia_wf c /\ m_shutdown c = true /\ forall i, Z.of_nat i < m_naxes c -> tgt_of c i <> TGT_ENABLED.

Lemma shutdown_stopped c : cia_wf c -> stopped (ecm_cia402_shutdown c).
Proof.
  intros [W1 W2 W3]. unfold stopped, ecm_cia402_shutdown. split_and!; [|done|].
  - constructor; cbn; auto. by rewrite length_imap.
  - intros i Hi. unfold tgt_of. cbn in Hi |- *.
    destruct (lookup_lt_is_Some_2 (m_ax c) i) as [a Ha]; [lia|].
    erewrite list_lookup_total_correct; [|rewrite list_lookup_imap, Ha; reflexivity].
    rewrite (proj2 (Z.ltb_lt _ _)) by done. done.
Qed.

Lemma stopped_step c o : stopped c -> stopped (ciado c o).
Proof.
  intros (Hw & Hs & Ht). pose proof Hw as [W1 W2 W3].
  destruct o as [axis op arg0 arg1 sq tick|axis tick v|axis err|axis mp mv|ms|io tick ts v lost]; cbn [ciado].
  - unfold ecm_cia402_cmd2. case_if; [done|].
    destruct (xring_push_wf (m_cmd c) (mkxcmd tick (u16 axis) (u16 op) sq arg0 arg1) W3) as [P _].
    destruct (ecm_xring_push _ _) as [r ok]. split_and!; [by constructor|done|done].
  - unfold ecm_cia402_setpoint. case_if; [done|]. destruct (ecm_xring_push _ _) as [r ok].
    split_and!; [by constructor|done|done].
  - unfold ecm_cia402_set_ext_error. case_if; [done|]. split_and!; [by constructor|done|done].
  - unfold ecm_cia402_set_step_limit. case_if; [done|]. split_and!; [|done|].
    + constructor; cbn; auto. by rewrite length_alter.
    + intros i Hi. unfold tgt_of. cbn [m_ax upd]. cbn in Hi. rewrite list_lookup_total_alter.
      case_decide as Hd; [destruct Hd as [<- _]|]; exact (Ht _ Hi).
  - split_and!; [by constructor|done|done].
  - destruct (cia_rt_target c io tick ts v lost 0 Hw ltac:(lia)) as (Hw' & Hs' & _).
    split_and!; [done|by rewrite (cs_sd _ _ Hs')|]. intros i Hi E. rewrite (cs_n _ _ Hs') in Hi.
    destruct (cia_rt_target c io tick ts v lost i Hw ltac:(lia)) as (_ & _ & _ & H).
    destruct (H Hi E) as (_ & _ & [H0|H0]); [by apply (Ht i)|].
    apply Exists_exists in H0 as (x & _ & _ & _ & Hf & _). congruence.
Qed.

(** A shutdown is final (S6).  After [ecm_cia402_shutdown], whatever the
    application queues (ENABLE commands included), the monitor reports and
    the ticks bring, no axis is ever commanded to run again; so the
    controlword of every later tick can only walk the drives down. *)
Theorem cia402_shutdown_final c ops i :
  cia_wf c -> let c' := foldl ciado (ecm_cia402_shutdown c) ops in
  Z.of_nat i < m_naxes c' -> tgt_of c' i <> TGT_ENABLED.
Proof.
  intros Hw c' Hi.
  assert (H : forall c0, stopped c0 -> stopped (foldl ciado c0 ops)).
  { clear. induction ops as [|o ops IH]; intros c0 H; [done|]. cbn. by apply IH, stopped_step. }
  destruct (H _ (shutdown_stopped c Hw)) as (_ & _ & Ht). by apply Ht.
Qed.

(** ** The published record *)

Lemma lor_shift a b k : 0 <= k -> 0 <= a < 2 ^ k -> Z.lor a (Z.shiftl b k) = a + b * 2 ^ k.
Proof.
  intros Hk Ha.
  assert (H0 : Z.land a (Z.shiftl b k) = 0).
  { apply Z.bits_inj'. intros i Hi. rewrite Z.land_spec, Z.bits_0. destruct (Z.lt_ge_cases i k).
    - rewrite (Z.shiftl_spec_low b k i) by lia. apply andb_false_r.
    - rewrite (testbit_above a k i) by lia. done. }
  rewrite <- Z.lxor_lor by done. rewrite <- Z.add_nocarry_lxor by done. rewrite Z.shiftl_mul_pow2 by done. done.
Qed.

(** The ranges the C types of the fields give. *)
Record axis_ranges (a : ecm_cia402_axis_t) : Prop := {
  ar_sw : is_u16 (a_sw a); ar_cw : is_u16 (a_cw a); ar_err : is_u8 (a_err a); ar_err_ds : is_u8 (a_err_ds a);
  ar_apos : is_i32 (a_apos a); ar_avel : is_i32 (a_avel a); ar_ecode : is_u16 (a_ecode a);
  ar_disp : is_i8 (a_mode_disp a); ar_req : is_i8 (a_mode_req a); ar_seq : is_u32 (a_last_seq a);
  ar_ph : 0 <= a_pp_phase a <= 2; ar_n : 0 <= a_pp_n a <= 16
}.

(** The record as the fields of the axis; three counters keep 32 bits. *)
Definition state_of (t : Z) (a : ecm_cia402_axis_t) : ecm_cia402_state_t :=
  {| s_tick := t; s_sw := a_sw a; s_cw := a_cw a; s_ecode := a_ecode a; s_ds := ds_num (a_ds a);
     s_target := tgt_num (a_target a); s_err := a_err a; s_err_ds := a_err_ds a; s_mode_ok := b2z (a_mode_ok a);
     s_mode_disp := a_mode_disp a; s_mode_req := a_mode_req a; s_apos := a_apos a; s_avel := a_avel a;
     s_used := a_used a; s_late := a_late a; s_underrun := a_underrun a; s_dropped := u32 (a_dropped a);
     s_last_seq := a_last_seq a; s_step_refused := u32 (a_step_refused a);
     s_homed := b2z (a_homed a); s_hm_phase := hm_num (a_hm_phase a); s_pp_phase := a_pp_phase a;
     s_pp_n := a_pp_n a; s_pp_acked := u32 (a_pp_acked a) |}.

Lemma num_ranges a : 0 <= ds_num (a_ds a) < 256 /\ 0 <= tgt_num (a_target a) < 256 /\ 0 <= hm_num (a_hm_phase a) <= 3.
Proof. destruct (a_ds a), (a_target a), (a_hm_phase a); cbn; lia. Qed.

Lemma land32 z : Z.land z 0xFFFFFFFF = u32 z.
Proof. exact (Z.land_ones z 32 ltac:(lia)). Qed.

Lemma word0_sum a : axis_ranges a ->
  publish_words a !!! 0%nat = a_sw a + a_cw a * 2 ^ 16 + ds_num (a_ds a) * 2 ^ 32 + tgt_num (a_target a) * 2 ^ 40 +
    a_err a * 2 ^ 48 + a_err_ds a * 2 ^ 56.
Proof.
  intros []. destruct (num_ranges a) as (N1 & N2 & _). unfold is_u8, is_u16 in *. cbn -[Z.pow Z.mul Z.shiftl u64].
  assert (u64 (Z.shiftl (a_err_ds a) 56) = Z.shiftl (a_err_ds a) 56) as ->.
  { rewrite Z.shiftl_mul_pow2 by lia. unfold u64. apply Z.mod_small. lia. }
  rewrite (lor_shift (a_sw a)), (lor_shift _ _ 32), (lor_shift _ _ 40), (lor_shift _ _ 48), (lor_shift _ _ 56) by lia. done.
Qed.

Lemma word2_sum a : axis_ranges a ->
  publish_words a !!! 2%nat = a_ecode a + u8 (a_mode_disp a) * 2 ^ 16 + b2z (a_mode_ok a) * 2 ^ 24 +
    u8 (a_mode_req a) * 2 ^ 32 + b2z (a_homed a) * 2 ^ 40 + hm_num (a_hm_phase a) * 2 ^ 41 +
    a_pp_phase a * 2 ^ 43 + a_pp_n a * 2 ^ 45.
Proof.
  intros []. destruct (num_ranges a) as (_ & _ & N3). unfold is_u8, is_u16 in *. cbn -[Z.pow Z.mul Z.shiftl u8 b2z].
  pose proof (u8_range (a_mode_disp a)) as R1. pose proof (u8_range (a_mode_req a)) as R2. unfold is_u8 in R1, R2.
  assert (R3 : 0 <= b2z (a_mode_ok a) <= 1) by (destruct (a_mode_ok a); cbn; lia).
  assert (R4 : 0 <= b2z (a_homed a) <= 1) by (destruct (a_homed a); cbn; lia).
  rewrite (lor_shift (a_ecode a)), (lor_shift _ _ 24), (lor_shift _ _ 32), (lor_shift _ _ 40), (lor_shift _ _ 41),
    (lor_shift _ _ 43), (lor_shift _ _ 45) by lia. done.
Qed.

(** A field of a word written as a sum of shifted fields. *)
Ltac field_eq :=
  unfold u8, u16, u32;
  repeat match goal with |- context [2 ^ ?k] => let v := eval vm_compute in (2 ^ k) in change (2 ^ k) with v end;
  Z.to_euclidean_division_equations; lia.

Lemma unpack_publish t a : axis_ranges a -> unpack t (publish_words a) = state_of t a.
Proof.
  intros Hr. pose proof (word0_sum a Hr) as W0. pose proof (word2_sum a Hr) as W2.
  destruct Hr. destruct (num_ranges a) as (N1 & N2 & N3).
  unfold unpack. rewrite W0, W2.
  assert (W1 : publish_words a !!! 1%nat = u32 (a_apos a) + u32 (a_avel a) * 2 ^ 32).
  { cbn -[Z.pow Z.mul Z.shiftl u32]. apply lor_shift; [lia|]. apply u32_range. }
  assert (W6 : publish_words a !!! 6%nat = a_last_seq a + u32 (a_step_refused a) * 2 ^ 32).
  { cbn -[Z.pow Z.mul Z.shiftl u32 Z.land]. rewrite land32. apply lor_shift; [lia|done]. }
  assert (W7 : publish_words a !!! 7%nat = u32 (a_dropped a) + u32 (a_pp_acked a) * 2 ^ 32).
  { cbn -[Z.pow Z.mul Z.shiftl u32 Z.land]. rewrite !land32. apply lor_shift; [lia|apply u32_range]. }
  rewrite W1, W6, W7. clear W0 W1 W2 W6 W7.
  pose proof (u32_range (a_apos a)). pose proof (u32_range (a_avel a)). pose proof (u32_range (a_step_refused a)).
  pose proof (u32_range (a_dropped a)). pose proof (u32_range (a_pp_acked a)).
  pose proof (u8_range (a_mode_disp a)) as R1. pose proof (u8_range (a_mode_req a)) as R2.
  assert (R3 : 0 <= b2z (a_mode_ok a) <= 1) by (destruct (a_mode_ok a); cbn; lia).
  assert (R4 : 0 <= b2z (a_homed a) <= 1) by (destruct (a_homed a); cbn; lia).
  unfold state_of. rewrite !Z.shiftr_div_pow2 by lia.
  change 3 with (Z.ones 2). change 31 with (Z.ones 5).
  match goal with |- context [Z.land ?x 1] => change (Z.land x 1) with (Z.land x (Z.ones 1)) end.
  rewrite !Z.land_ones by lia.
  assert (A1 : i32 (u32 (a_apos a)) = a_apos a) by clia. assert (A2 : i32 (u32 (a_avel a)) = a_avel a) by clia.
  assert (A3 : i8 (u8 (a_mode_disp a)) = a_mode_disp a) by clia. assert (A4 : i8 (u8 (a_mode_req a)) = a_mode_req a) by clia.
  unfold is_u8, is_u16, is_u32, is_i32, is_i8 in *.
  generalize dependent (u32 (a_apos a)). intros apos Rapos A1. generalize dependent (u32 (a_avel a)). intros avel Ravel A2.
  generalize dependent (u8 (a_mode_disp a)). intros md Rmd A3. generalize dependent (u8 (a_mode_req a)). intros mr Rmr A4.
  f_equal; first [rewrite <- A1; f_equal; field_eq | rewrite <- A2; f_equal; field_eq
    | rewrite <- A3; f_equal; field_eq | rewrite <- A4; f_equal; field_eq | field_eq].
Qed.

(** The records after the loop over the axes. *)
Lemma cia_axis_st tick v lost c io k i : (i < length (m_ax c))%nat -> (k < length (m_ax c))%nat ->
  length (m_st c) = length (m_ax c) ->
  let '(c', io') := cia_axis tick v lost (c, io) k in
  length (m_st c') = length (m_ax c') /\ length (m_ax c') = length (m_ax c) /\
  if decide (k = i) then m_st c' !!! i = ecm_xst_write (m_st c !!! i) tick (publish_words (m_ax c' !!! i)) ECM_XST_WORDS
  else m_st c' !!! i = m_st c !!! i /\ m_ax c' !!! i = m_ax c !!! i.
Proof.
  intros Hi Hk Hl. unfold cia_axis. destruct (axis_rt _ _ _ _ _ _ _ _ _ _) as [[r a] io']. unfold publish.
  cbn [m_st m_ax upd]. rewrite !length_insert. split_and!; [done|done|]. destruct (decide (k = i)) as [->|Hne].
  - rewrite !list_lookup_total_insert_eq by lia. done.
  - rewrite !list_lookup_total_insert_ne by done. done.
Qed.

Lemma cia_axes_st tick v lost l c io i : NoDup l -> i ∈ l -> Forall (fun k => (k < length (m_ax c))%nat) l ->
  length (m_st c) = length (m_ax c) ->
  let '(c', io') := foldl (cia_axis tick v lost) (c, io) l in
  m_st c' !!! i = ecm_xst_write (m_st c !!! i) tick (publish_words (m_ax c' !!! i)) ECM_XST_WORDS.
Proof.
  intros Hnd Hin Hl Hlen.
  assert (Hi : (i < length (m_ax c))%nat) by (by apply (proj1 (Forall_forall _ _) Hl)).
  assert (Hrest : forall l c io, i ∉ l -> (i < length (m_ax c))%nat -> Forall (fun k => (k < length (m_ax c))%nat) l ->
     length (m_st c) = length (m_ax c) ->
     let c' := (foldl (cia_axis tick v lost) (c, io) l).1 in m_st c' !!! i = m_st c !!! i /\ m_ax c' !!! i = m_ax c !!! i).
  { clear. induction l as [|k l IH]; intros c io Hn Hi Hl Hlen; [done|]. apply Forall_cons_1 in Hl as [Hk Hl].
    apply not_elem_of_cons in Hn as [Hne Hn]. pose proof (cia_axis_st tick v lost c io k i Hi Hk Hlen) as H.
    cbn [foldl]. destruct (cia_axis tick v lost (c, io) k) as [c1 io1]. destruct H as (L1 & L2 & H).
    rewrite decide_False in H by congruence. destruct H as [H1 H2].
    rewrite <- L2 in Hl, Hi. destruct (IH c1 io1 Hn Hi Hl L1) as [E1 E2]. cbv zeta. split; congruence. }
  revert c io Hi Hl Hlen. induction l as [|k l IH]; intros c io Hi Hl Hlen; [by apply not_elem_of_nil in Hin|].
  apply Forall_cons_1 in Hl as [Hk Hl]. inversion_clear Hnd as [|? ? Hnk Hnd'].
  pose proof (cia_axis_st tick v lost c io k i Hi Hk Hlen) as H. cbn [foldl].
  destruct (cia_axis tick v lost (c, io) k) as [c1 io1]. destruct H as (L1 & L2 & H). rewrite <- L2 in Hl, Hi.
  destruct (decide (k = i)) as [->|Hne].
  - destruct (Hrest l c1 io1 Hnk Hi Hl L1) as [E1 E2]. destruct (foldl _ (c1, io1) l) as [c2 io2]. cbn [fst] in *.
    by rewrite E1, E2.
  - destruct H as [H1 H2]. apply elem_of_cons in Hin as [Hin|Hin]; [congruence|].
    specialize (IH Hnd' Hin c1 io1 Hi Hl L1). destruct (foldl _ (c1, io1) l) as [c2 io2]. by rewrite IH, H1.
Qed.

(** What the hook publishes for an axis is what a reader of the API gets:
    after the tick, [ecm_cia402_read] returns the tick and every field of the
    axis as it stands -- packed into eight 64-bit words and unpacked again --
    with the counters of dropped setpoints, refused steps and acknowledged
    points in their low 32 bits. *)
Theorem cia402_read_published c io tick ts v lost i :
  cia_wf c -> length (m_st c) = 32%nat -> Forall xst_wf (m_st c) -> 0 <= i < m_naxes c ->
  let c' := (ecm_cia402_rt c io tick ts v lost).1 in
  axis_ranges (m_ax c' !!! Z.to_nat i) ->
  ecm_cia402_read c' i = Some (state_of tick (m_ax c' !!! Z.to_nat i)).
Proof.
  intros Hw Hst Hf Hi c' Hr. pose proof Hw as [W1 W2 W3]. unfold ecm_cia402_read.
  destruct (cia_rt_target c io tick ts v lost 0 Hw ltac:(lia)) as (_ & Sm & _).
  fold c' in Sm. rewrite (cs_n _ _ Sm).
  assert (((i <? 0) || (m_naxes c <=? i)) = false) as -> by (apply orb_false_iff; split; [apply Z.ltb_ge|apply Z.leb_gt]; lia).
  assert (Hrec : m_st c' !!! Z.to_nat i =
    ecm_xst_write (m_st c !!! Z.to_nat i) tick (publish_words (m_ax c' !!! Z.to_nat i)) ECM_XST_WORDS).
  { unfold c', ecm_cia402_rt. destruct (cia_loop_spec 9 8 tick c ltac:(lia) ltac:(lia) W3) as (r & dfr & _ & _ & R3).
    change (8 - Z.of_nat 8) with 0 in R3. rewrite R3. set (l := cmds_now _ 8 _).
    destruct (cia_fold_spec tick l c 0%nat ltac:(lia)) as (S1 & _).
    assert (Est : m_st (foldl (cia_exec tick) c l) = m_st c).
    { clearbody l. clear. revert c. induction l as [|x l IH]; intros c; [done|]. cbn [foldl]. rewrite IH. unfold cia_exec.
      case_if; [|done]. destruct (apply_cmd _ _ _ _ _) as [a bad]. by destruct bad. }
    match goal with |- context [foldl (cia_axis tick v lost) (?x, io) _] => set (c2 := x) end.
    assert (E2 : m_st c2 = m_st c) by (rewrite <- Est; done).
    assert (N2 : m_naxes c2 = m_naxes c /\ length (m_ax c2) = 32%nat) by (split; [apply S1|rewrite <- W2; apply S1]).
    clearbody c2. destruct N2 as [N2 L2]. rewrite N2.
    pose proof (cia_axes_st tick v lost (seq 0 (Z.to_nat (m_naxes c))) c2 io (Z.to_nat i) (NoDup_seq _ _)) as H.
    specialize (H ltac:(apply elem_of_seq; lia)). rewrite L2, E2 in H.
    specialize (H ltac:(apply Forall_lookup_2; intros j k Hk; apply lookup_seq in Hk as [-> Hj]; lia) Hst).
    destruct (foldl _ (c2, io) _) as [c3 io3]. cbn [fst m_st m_ax upd]. exact H. }
  rewrite Hrec. unfold ECM_XST_TRIES. rewrite xst_read_write; [by rewrite unpack_publish| |done|reflexivity].
  destruct (lookup_lt_is_Some_2 (m_st c) (Z.to_nat i)) as [s Hs]; [lia|].
  rewrite (list_lookup_total_correct _ _ _ Hs). by eapply Forall_lookup_1.
Qed.

(** ** Concrete histories *)

(** One CSP axis on the demo drive; inputs are the statusword and the
    position. *)
Definition demo_c : ecm_cia402_t :=
  ecm_cia402_set_step_limit (ecm_cia402_add_axis (ecm_cia402_init 1000000 500) (demo_axis 0) (demo_bind 0)).1 0 100 0.
Definition demo_inputs (sw pos : Z) : list Z :=
  ecm_pdo_set (b_apos (demo_bind 0)) (ecm_pdo_set (b_sw (demo_bind 0)) (replicate 24 0) sw) (u64 pos).
Definition demo_tpos (io : list Z) : Z := sext (ecm_pdo_get (b_tpos (demo_bind 0)) io) 32.

(** Enabled at tick 1 with the drive in Operation enabled, one setpoint for
    frame 2: position 1050. *)
Definition demo_running : ecm_cia402_t :=
  foldl ciado demo_c
    [OCmd 0 ECM_CIA_OP_ENABLE 0 0 1 0; OSp 0 2 1000; OSp 0 3 1050;
     ORt (demo_inputs 0x0023 1000) 0 0 true false; ORt (demo_inputs 0x0027 1000) 1 0 true false;
     ORt (demo_inputs 0x0027 1000) 2 0 true false].

(** The bus is lost for three ticks while the drive stays in Operation
    enabled and moves to 5000; the ENABLE command of the application is taken
    in the tick that sees the bus again.  The axis runs at once with the old
    setpoint 1050 as target: neither the actual position nor within the step
    limit of it.  [axis_rt] returns before its stage 6 while the bus is lost, so
    [armed], the PP queue and the PV velocity survive the stop. *)
Example csp_stale_target_after_bus_loss :
  let lost := foldl ciado demo_running
    [ORt (demo_inputs 0x0027 1050) 3 0 false true; ORt (demo_inputs 0x0027 1050) 4 0 false true;
     ORt (demo_inputs 0x0027 1050) 5 0 false true; OCmd 0 ECM_CIA_OP_ENABLE 0 0 2 0] in
  let '(c', io') := ecm_cia402_rt lost (demo_inputs 0x0027 5000) 6 0 true false in
  tgt_of lost 0 = TGT_DISABLED /\ a_err (m_ax lost !!! 0%nat) = ECM_AXERR_BUS_LOST /\
  tgt_of c' 0 = TGT_ENABLED /\ a_cw (m_ax c' !!! 0%nat) = 0x000F /\
  a_apos (m_ax c' !!! 0%nat) = 5000 /\ demo_tpos io' = 1050 /\ a_max_step_pos (m_ax c' !!! 0%nat) = 100.
Proof. vm_compute. auto 10. Qed.

(** *** Well-formed masters *)

Lemma cia_init_wf cyc ms : cia_wf (ecm_cia402_init cyc ms).
Proof.
  constructor; [cbn; lia|reflexivity|].
  destruct (xring_init_wf (E := ecm_xcmd_t) ECM_XCHG_CMD_CAP) as [H _]; [unfold ECM_XCHG_CMD_CAP; lia|exact H].
Qed.
Lemma cia_add_wf c cfg b : cia_wf c -> cia_wf (ecm_cia402_add_axis c cfg b).1.
Proof.
  intros [W1 W2 W3]. unfold ecm_cia402_add_axis, ECM_AXIS_MAX. destruct (Z.leb_spec 32 (m_naxes c)); [done|].
  constructor; cbn [fst m_naxes m_ax m_cmd upd]; [lia|by rewrite length_insert|done].
Qed.
Lemma cia_limit_wf c axis p v : cia_wf c -> cia_wf (ecm_cia402_set_step_limit c axis p v).
Proof.
  intros [W1 W2 W3]. unfold ecm_cia402_set_step_limit. case_if; [done|].
  constructor; cbn [m_naxes m_ax m_cmd upd]; [lia|by rewrite length_alter|done].
Qed.
Lemma ciado_wf c o : cia_wf c -> cia_wf (ciado c o).
Proof.
  intros Hw. pose proof Hw as [W1 W2 W3].
  destruct o as [axis op arg0 arg1 sq tick|axis tick v|axis err|axis mp mv|ms|io tick ts v lost]; cbn [ciado].
  - unfold ecm_cia402_cmd2. case_if; [done|].
    destruct (xring_push_wf (m_cmd c) (mkxcmd tick (u16 axis) (u16 op) sq arg0 arg1) W3) as [P _].
    destruct (ecm_xring_push _ _) as [r ok]. by constructor.
  - unfold ecm_cia402_setpoint. case_if; [done|]. destruct (ecm_xring_push _ _) as [r ok]. by constructor.
  - unfold ecm_cia402_set_ext_error. case_if; [done|]. by constructor.
  - by apply cia_limit_wf.
  - by constructor.
  - by destruct (cia_rt_target c io tick ts v lost 0 Hw ltac:(lia)) as (Hw' & _).
Qed.
Lemma ciarun_wf ops c : cia_wf c -> cia_wf (foldl ciado c ops).
Proof. revert c. induction ops as [|o ops IH]; intros c H; [done|]. apply IH, ciado_wf, H. Qed.

Lemma demo_c_wf : cia_wf demo_c.
Proof. apply cia_limit_wf, cia_add_wf, cia_init_wf. Qed.
Lemma demo_running_wf : cia_wf demo_running.
Proof. apply ciarun_wf, demo_c_wf. Qed.

(** *** Witnesses *)

Lemma cia402_enable_needs_command_witness :
  let q := foldl ciado demo_c [OCmd 0 ECM_CIA_OP_ENABLE 0 0 1 0] in
  Exists (enables q 0) (cmds_now 1 8 (xring_queue (m_cmd q))).
Proof.
  intros q.
  destruct (cia402_enable_needs_command q (demo_inputs 0x0040 0) 0 0 true false 0%nat
    (ciarun_wf _ _ demo_c_wf) eq_refl ltac:(vm_compute; reflexivity)) as (_ & _ & [H|H]).
  - exfalso. vm_compute in H. discriminate.
  - exact H.
Defined.

(** The running axis of the demo, shut down, then enabled in vain. *)
Lemma cia402_shutdown_final_witness :
  tgt_of demo_running 0 = TGT_ENABLED /\
  tgt_of (foldl ciado (ecm_cia402_shutdown demo_running)
    [OCmd 0 ECM_CIA_OP_ENABLE 0 0 7 0; ORt (demo_inputs 0x0027 1050) 3 0 true false]) 0 <> TGT_ENABLED.
Proof.
  split; [vm_compute; reflexivity|].
  apply (cia402_shutdown_final demo_running); [apply demo_running_wf|vm_compute; reflexivity].
Defined.

Definition xst_wfb (s : ecm_xst_t) : bool :=
  (length (st_w s) =? 8)%nat && negb (Z.odd (st_seq s)) && (0 <=? st_seq s) && (st_seq s <? 4294967296).
Lemma xst_wfb_all l : forallb xst_wfb l = true -> Forall xst_wf l.
Proof.
  induction l as [|s l IH]; [constructor|]. cbn [forallb]. intros H. apply andb_true_iff in H as [H Hl].
  constructor; [|auto]. unfold xst_wfb in H. apply andb_true_iff in H as [H H4].
  apply andb_true_iff in H as [H H3]. apply andb_true_iff in H as [H1 H2]. apply Nat.eqb_eq in H1. bprop.
  split_and!; [done|done|split; lia].
Qed.

Lemma cia402_read_published_witness :
  let c' := (ecm_cia402_rt demo_running (demo_inputs 0x1427 (-7)) 3 0 true false).1 in
  option_map s_apos (ecm_cia402_read c' 0) = Some (-7).
Proof.
  intros c'.
  assert (Hs : length (m_st demo_running) = 32%nat) by (vm_compute; reflexivity).
  assert (Hf : Forall xst_wf (m_st demo_running)).
  { apply xst_wfb_all. vm_compute. reflexivity. }
  assert (Hr : axis_ranges (m_ax c' !!! 0%nat)) by (constructor; vm_compute; split; congruence).
  pose proof (cia402_read_published demo_running (demo_inputs 0x1427 (-7)) 3 0 true false 0
    demo_running_wf Hs Hf ltac:(vm_compute; split; congruence) Hr) as H. cbv zeta in H. fold c' in H.
  rewrite H. vm_compute. reflexivity.
Defined.
