(* ===== verification/EscDrive.v ===== *)
(** * The virtual CiA 402 drive and its handshake with the master
      (tools/soft_bus/esc_cia402.c, with libecm_cia402)

    The power drive state machine of one axis: statusword, controlword
    commands, transition table, faults, timing of commanded transitions.  The
    motion of the axis is computed in floating point and is not modelled; what
    the state machine takes from it is an argument of [axis_step]: whether the
    axis moved before the step ([moving]) and a [motion] with the statusword bits,
    a following error fault and whether the axis stands afterwards.  The second
    part runs this drive against the controlword walk of the master's axis. *)
From Stdlib Require Import ZArith Lia Bool.
From S2P Require Import Prelude EscMem EscTypes Cia402Axis.
From stdpp Require Import base list numbers.
Open Scope Z_scope.

Module Drv.

Inductive cia402_ds_t := DS_NOT_READY | DS_SOD | DS_RTSO | DS_SO | DS_OE | DS_QSA | DS_FRA | DS_FAULT.
#[export] Instance cia402_ds_eq_dec : EqDecision cia402_ds_t.
Proof. solve_decision. Defined.
Definition at_ds (a b : cia402_ds_t) : bool := bool_decide (a = b).

Definition esc_cia402_sw_state (ds : cia402_ds_t) : Z :=
  match ds with
  | DS_NOT_READY => 0 | DS_SOD => 64 | DS_RTSO => 33 | DS_SO => 35 | DS_OE => 39 | DS_QSA => 7 | DS_FRA => 15 | DS_FAULT => 8
  end.

Definition CMD_DISABLE_VOLTAGE (cw : Z) : bool := Z.land cw 130 =? 0.
Definition CMD_QUICK_STOP (cw : Z) : bool := Z.land cw 134 =? 2.
Definition CMD_SHUTDOWN (cw : Z) : bool := Z.land cw 135 =? 6.
Definition CMD_SWITCH_ON (cw : Z) : bool := Z.land cw 143 =? 7.
Definition CMD_ENABLE_OP (cw : Z) : bool := Z.land cw 143 =? 15.

Definition esc_cia402_next (ds : cia402_ds_t) (cw cw_prev qs_option : Z) : cia402_ds_t :=
  let fr_edge := has_bit cw 128 && negb (has_bit cw_prev 128) in
  match ds with
  | DS_NOT_READY => DS_NOT_READY
  | DS_FAULT => if fr_edge then DS_SOD else DS_FAULT
  | DS_FRA => DS_FRA
  | DS_SOD => if CMD_SHUTDOWN cw then DS_RTSO else DS_SOD
  | DS_RTSO => if CMD_DISABLE_VOLTAGE cw || CMD_QUICK_STOP cw then DS_SOD
               else if CMD_SWITCH_ON cw || CMD_ENABLE_OP cw then DS_SO else DS_RTSO
  | DS_SO => if CMD_DISABLE_VOLTAGE cw || CMD_QUICK_STOP cw then DS_SOD
             else if CMD_SHUTDOWN cw then DS_RTSO
             else if CMD_ENABLE_OP cw then DS_OE else DS_SO
  | DS_OE => if CMD_DISABLE_VOLTAGE cw then DS_SOD
             else if CMD_QUICK_STOP cw then DS_QSA
             else if CMD_SHUTDOWN cw then DS_RTSO
             else if CMD_SWITCH_ON cw then DS_SO else DS_OE
  | DS_QSA => if CMD_DISABLE_VOLTAGE cw then DS_SOD
              else if (5 <=? qs_option) && (qs_option <=? 8) && CMD_ENABLE_OP cw then DS_OE else DS_QSA
  end.

(** Calibration, as far as the state machine reads it; [brakes]: [disable_op_decel > 0]. *)
Record esc_cia402_cal_t := mkCal {
  power_on_ms : Z; trans_cycles : Z; code_lost_op : Z; code_ferr : Z; lost_pd_fault : bool; lost_op_emcy : bool;
  lost_op_autoclear : bool; reinit_ms : Z; sw_target_hold : bool; brakes : bool
}.
(** The axis without the motion state. *)
Record esc_cia402_axis_t := mkAx {
  cw : Z; cw_prev : Z; mode_req : Z; mode : Z; supported : Z; warn_mode : bool; qs_option : Z;
  ds : cia402_ds_t; sw : Z; err_code : Z; wait_cycles : Z; pending : cia402_ds_t; t_since_power_ns : Z;
  inj_refuse_enable : bool; inj_slow_ms : Z; inj_fault_code : Z; inj_latched : bool; inj_quickstop : bool;
  braking : bool; reinit : bool; tr_hold : bool; steps : Z; transitions : Z; faults : Z; emcy : Z
}.
#[export] Instance eta_ax : Eta esc_cia402_axis_t := fun r =>
  mkAx (cw r) (cw_prev r) (mode_req r) (mode r) (supported r) (warn_mode r) (qs_option r)
    (ds r) (sw r) (err_code r) (wait_cycles r) (pending r) (t_since_power_ns r)
    (inj_refuse_enable r) (inj_slow_ms r) (inj_fault_code r) (inj_latched r) (inj_quickstop r)
    (braking r) (reinit r) (tr_hold r) (steps r) (transitions r) (faults r) (emcy r).
Definition axis_reset (supported_modes : Z) : esc_cia402_axis_t :=
  mkAx 0 0 0 0 supported_modes false 2 DS_NOT_READY 0 0 0 DS_NOT_READY 0 false 0 0 false false false false false 0 0 0 0.

Definition mode_bit (m : Z) : Z :=
  if m =? 1 then 0 else if m =? 2 then 1 else if m =? 3 then 2 else if m =? 4 then 3 else if m =? 6 then 5
  else if m =? 7 then 6 else if m =? 8 then 7 else if m =? 9 then 8 else if m =? 10 then 9 else -1.
Definition ms_to_cycles (ms dt_ns : Z) : Z := if (ms =? 0) || (dt_ns =? 0) then 0 else u32 (u64 (u64 (ms * 1000000) + dt_ns - 1) / dt_ns).

Section axis.
Context (cal : esc_cia402_cal_t).

Definition set_ds (x : esc_cia402_axis_t) (to : cia402_ds_t) : esc_cia402_axis_t :=
  if at_ds (ds x) to then x
  else
    let x := if at_ds (ds x) DS_OE && sw_target_hold cal && has_bit (sw x) 1024 && negb (at_ds to DS_FRA) && negb (at_ds to DS_FAULT)
             then x <| tr_hold := true |> else x in
    let x := if at_ds to DS_OE then x <| tr_hold := false |> else x <| braking := false |> in
    x <| ds := to |> <| transitions ::= fun n => u64 (n + 1) |> <| wait_cycles := 0 |>.

(** The axis and the fault block of the node (where an emergency is posted). *)
Definition raise_fault (s : esc_cia402_axis_t * esc_node_fault_t) (code : Z) : esc_cia402_axis_t * esc_node_fault_t :=
  let '(x, f) := s in
  if at_ds (ds x) DS_FAULT || at_ds (ds x) DS_FRA then (x, f)
  else
    let x := x <| err_code := code |> <| faults ::= fun n => u64 (n + 1) |> <| tr_hold := false |> <| braking := false |> in
    let '(x, f) := if negb (code =? code_lost_op cal) || lost_op_emcy cal
                   then (x <| emcy ::= fun n => u64 (n + 1) |>,
                         f <| emcy_code := code |> <| emcy_reg := 1 |> <| emcy_left ::= fun n => u32 (n + 1) |>)
                   else (x, f) in
    (set_ds x (if at_ds (ds x) DS_OE || at_ds (ds x) DS_QSA then DS_FRA else DS_FAULT), f).

Definition power_on (dt_ns : Z) (x : esc_cia402_axis_t) : esc_cia402_axis_t :=
  if at_ds (ds x) DS_NOT_READY then
    let x := x <| t_since_power_ns ::= fun t => u64 (t + dt_ns) |> in
    let ms := if reinit x then reinit_ms cal else power_on_ms cal in
    if ms * 1000000 <=? t_since_power_ns x then (set_ds x DS_SOD) <| reinit := false |> else x
  else x.
(** Injected faults and the loss of OP; [al_code]: the AL status code. *)
Definition step_faults (op : bool) (al_code : Z) (s : esc_cia402_axis_t * esc_node_fault_t) : esc_cia402_axis_t * esc_node_fault_t :=
  let x := s.1 in
  let s := if negb (inj_fault_code x =? 0) && negb (at_ds (ds x) DS_FAULT) && negb (at_ds (ds x) DS_FRA) then raise_fault s (inj_fault_code x) else s in
  let x := s.1 in
  let s := if negb op && (at_ds (ds x) DS_OE || at_ds (ds x) DS_QSA) then raise_fault s (code_lost_op cal)
           else if negb op && (at_ds (ds x) DS_RTSO || at_ds (ds x) DS_SO)
           then if lost_pd_fault cal && (al_code =? 27) then raise_fault s (code_lost_op cal) else (set_ds x DS_SOD, s.2)
           else s in
  let x := s.1 in
  let s := if op && lost_op_autoclear cal && at_ds (ds x) DS_FAULT && (err_code x =? code_lost_op cal) && (inj_fault_code x =? 0)
           then (set_ds (x <| err_code := 0 |> <| reinit := true |> <| t_since_power_ns := 0 |>) DS_NOT_READY, s.2)
           else s in
  let x := s.1 in
  if inj_quickstop x && at_ds (ds x) DS_OE then (set_ds (x <| inj_quickstop := false |>) DS_QSA, s.2) else s.

Definition select_mode (x : esc_cia402_axis_t) : esc_cia402_axis_t :=
  if mode_req x =? mode x then x
  else if (mode_req x =? 0) || ((0 <=? mode_bit (mode_req x)) && Z.testbit (supported x) (mode_bit (mode_req x)))
  then x <| mode := mode_req x |> <| warn_mode := false |>
  else x <| warn_mode := true |>.

(** The transition the controlword asks for, after refusals. *)
Definition wanted (moving : bool) (x : esc_cia402_axis_t) : esc_cia402_axis_t * cia402_ds_t :=
  let nx := esc_cia402_next (ds x) (cw x) (cw_prev x) (qs_option x) in
  let nx := if at_ds nx DS_SOD && at_ds (ds x) DS_FAULT && inj_latched x && negb (err_code x =? 0) then DS_FAULT else nx in
  let nx := if at_ds nx DS_OE && negb (at_ds (ds x) DS_QSA) && inj_refuse_enable x then ds x else nx in
  if at_ds (ds x) DS_OE && at_ds nx DS_SO && brakes cal && moving then (x <| braking := true |>, DS_OE) else (x, nx).
Definition commanded (op : bool) (dt_ns : Z) (moving : bool) (x : esc_cia402_axis_t) : esc_cia402_axis_t :=
  if op && negb (at_ds (ds x) DS_NOT_READY) && negb (at_ds (ds x) DS_FRA) then
    let '(x, nx) := wanted moving x in
    if at_ds nx (ds x) then x <| wait_cycles := 0 |>
    else
      let urgent := at_ds nx DS_QSA || at_ds nx DS_SOD in
      let need := if urgent then 0
                  else u32 ((if trans_cycles cal =? 0 then 0 else trans_cycles cal - 1) + ms_to_cycles (inj_slow_ms x) dt_ns) in
      let x := if (wait_cycles x =? 0) || negb (at_ds (pending x) nx) then x <| pending := nx |> <| wait_cycles := u32 (need + 1) |> else x in
      let x := x <| wait_cycles ::= fun w => u32 (w - 1) |> in
      if wait_cycles x =? 0 then
        let x := if at_ds nx DS_SOD && at_ds (ds x) DS_FAULT then x <| err_code := 0 |> else x in
        set_ds x nx
      else x
  else x.

(** What the motion of one step gives to the state machine. *)
Record motion := mkMo { mo_sw : Z; mo_ferr : bool; mo_still : bool }.
Definition after_motion (mo : motion) (s : esc_cia402_axis_t * esc_node_fault_t) : esc_cia402_axis_t * esc_node_fault_t :=
  let s := if at_ds (ds s.1) DS_OE && negb (braking s.1)
           then if mo_ferr mo then raise_fault s (code_ferr cal) else (s.1 <| sw ::= fun v => Z.lor v (mo_sw mo) |>, s.2)
           else s in
  let x := s.1 in
  let x := if at_ds (ds x) DS_FRA && mo_still mo then set_ds x DS_FAULT
           else if at_ds (ds x) DS_QSA && mo_still mo && (qs_option x <=? 4) then set_ds x DS_SOD else x in
  (x, s.2).
Definition final_sw (x : esc_cia402_axis_t) : esc_cia402_axis_t :=
  let v := Z.lor (bits_clear (sw x) 111) (esc_cia402_sw_state (ds x)) in
  let v := if at_ds (ds x) DS_OE then v else bits_clear v 13312 in
  let v := if tr_hold x && (at_ds (ds x) DS_RTSO || at_ds (ds x) DS_SO || at_ds (ds x) DS_SOD) then Z.lor v 1024 else v in
  x <| sw := v |>.
Definition step_end (y : esc_cia402_axis_t) : esc_cia402_axis_t :=
  (final_sw y) <| cw_prev := cw (final_sw y) |> <| steps ::= fun n => u64 (n + 1) |>.
Definition axis_step (op : bool) (al_code dt_ns : Z) (moving : bool) (mo : motion) (s : esc_cia402_axis_t * esc_node_fault_t)
  : esc_cia402_axis_t * esc_node_fault_t :=
  let s := (power_on dt_ns s.1, s.2) in
  let s := step_faults op al_code s in
  let x := commanded op dt_ns moving (select_mode s.1) in
  let v := Z.lor (Z.lor (esc_cia402_sw_state (ds x)) 16) 512 in
  let x := x <| sw := if warn_mode x then Z.lor v 128 else v |> in
  let s := after_motion mo (x, s.2) in
  (step_end s.1, s.2).
End axis.
End Drv.
Import Drv.

(** ** The statusword is understood *)

(** The state as the master names it. *)
Definition master_ds (d : Drv.cia402_ds_t) : ecm_ds_t :=
  match d with
  | Drv.DS_NOT_READY => Cia402Axis.DS_NOT_READY | Drv.DS_SOD => Cia402Axis.DS_SOD | Drv.DS_RTSO => Cia402Axis.DS_RTSO | Drv.DS_SO => Cia402Axis.DS_SO
  | Drv.DS_OE => Cia402Axis.DS_OE | Drv.DS_QSA => Cia402Axis.DS_QSA | Drv.DS_FRA => Cia402Axis.DS_FRA | Drv.DS_FAULT => Cia402Axis.DS_FAULT
  end.
Lemma decode_low v : ecm_cia402_decode v = ecm_cia402_decode (Z.land v 111).
Proof. unfold ecm_cia402_decode. by rewrite <- !Z.land_assoc. Qed.
Lemma low_state v d : Z.land (Z.lor (bits_clear v 111) (esc_cia402_sw_state d)) 111 = esc_cia402_sw_state d.
Proof.
  unfold bits_clear. rewrite Z.land_lor_distr_l, <- Z.land_assoc. change (Z.land (Z.lnot 111) 111) with 0. rewrite Z.land_0_r.
  by destruct d.
Qed.
Lemma low_final x : Z.land (sw (final_sw x)) 111 = esc_cia402_sw_state (Drv.ds x).
Proof.
  unfold final_sw. cbv zeta. cbn -[bits_clear esc_cia402_sw_state Z.land Z.lor at_ds].
  assert (C : forall v, Z.land (bits_clear v 13312) 111 = Z.land v 111) by (intros v; unfold bits_clear; rewrite <- Z.land_assoc; done).
  assert (L : forall v, Z.land (Z.lor v 1024) 111 = Z.land v 111) by (intros v; rewrite Z.land_lor_distr_l; change (Z.land 1024 111) with 0; apply Z.lor_0_r).
  repeat case_if; rewrite ?L, ?C; apply low_state.
Qed.
Lemma step_end_decoded y : ecm_cia402_decode (sw (step_end y)) = master_ds (Drv.ds (step_end y)).
Proof.
  change (ecm_cia402_decode (sw (final_sw y)) = master_ds (Drv.ds y)). rewrite decode_low, low_final. by destruct (Drv.ds y).
Qed.

(** ** Master and drive in a loop *)

(** One cycle in OP: the master decodes the statusword and answers with its
    controlword, the drive makes one step. *)
Definition bus_cycle (cal : esc_cia402_cal_t) (dt_ns : Z) (s : ecm_cia402_axis_t * (esc_cia402_axis_t * esc_node_fault_t)) (io : bool * motion) :
  ecm_cia402_axis_t * (esc_cia402_axis_t * esc_node_fault_t) :=
  let '(a, (x, f)) := s in
  let '(a, c, _) := axis_control (a <| a_ds := ecm_cia402_decode (sw x) |>) in
  (a, Drv.axis_step cal true 0 dt_ns io.1 io.2 (x <| cw := c |>, f)).

(** Nothing is injected, and the axis says what state it is in. *)
Record quiet (x : esc_cia402_axis_t) : Prop := {
  q_inj : inj_refuse_enable x = false /\ inj_slow_ms x = 0 /\ inj_fault_code x = 0 /\ inj_quickstop x = false;
  q_sw : ecm_cia402_decode (sw x) = master_ds (Drv.ds x);
}.
Definition plain_ds (d : Drv.cia402_ds_t) : bool :=
  match d with Drv.DS_SOD | Drv.DS_RTSO | Drv.DS_SO | Drv.DS_OE => true | _ => false end.

(** State, wait counter and pending state after a commanded transition to [nx]. *)
Definition cmd_effect (T : Z) (d : Drv.cia402_ds_t) (w : Z) (p nx : Drv.cia402_ds_t) : Drv.cia402_ds_t * Z * Drv.cia402_ds_t :=
  if at_ds nx d then (d, 0, p)
  else
    let need := if at_ds nx Drv.DS_SOD then 1 else T in
    let w' := (if (w =? 0) || negb (at_ds p nx) then need else w) - 1 in
    if w' =? 0 then (nx, 0, nx) else (d, w', nx).

Lemma cmd_effect_plain T d w p nx : plain_ds d = true -> plain_ds nx = true -> plain_ds (cmd_effect T d w p nx).1.1 = true.
Proof. intros. unfold cmd_effect. repeat case_if; done. Qed.

Section loop.
Context (cal : esc_cia402_cal_t) (dt_ns : Z).
Context (HT : 0 <= trans_cycles cal < 2147483648).
(** The cycles a transition takes that is not urgent. *)
Definition trans_time : Z := Z.max 1 (trans_cycles cal).
Notation T := trans_time.
(** A drive that brakes first stays in Operation enabled while it moves. *)
Definition braked (d : Drv.cia402_ds_t) (mv : bool) (nx : Drv.cia402_ds_t) : Drv.cia402_ds_t :=
  if at_ds d Drv.DS_OE && at_ds nx Drv.DS_SO && brakes cal && mv then Drv.DS_OE else nx.
Lemma trans_time_range : 1 <= T < 2147483648.
Proof. unfold trans_time. lia. Qed.

Lemma set_ds_to x to : Drv.ds (set_ds cal x to) = to /\ (at_ds (Drv.ds x) to = false -> wait_cycles (set_ds cal x to) = 0).
Proof.
  unfold set_ds. destruct (at_ds (Drv.ds x) to) eqn:E.
  - unfold at_ds in E. apply bool_decide_eq_true in E. done.
  - repeat case_if; done.
Qed.
Lemma set_ds_rest x to :
  pending (set_ds cal x to) = pending x /\ inj_refuse_enable (set_ds cal x to) = inj_refuse_enable x /\ inj_slow_ms (set_ds cal x to) = inj_slow_ms x /\
  inj_fault_code (set_ds cal x to) = inj_fault_code x /\ inj_quickstop (set_ds cal x to) = inj_quickstop x.
Proof. unfold set_ds. repeat case_if; done. Qed.
(** State, wait and injections of the axis. *)
Definition core (x : esc_cia402_axis_t) := (Drv.ds x, wait_cycles x, pending x, (inj_refuse_enable x, inj_slow_ms x, inj_fault_code x, inj_quickstop x)).
(** The wait of a transition to [nx] that is not yet over. *)
Lemma wait_effect x nx : quiet x -> plain_ds (Drv.ds x) = true -> 0 <= wait_cycles x <= T -> plain_ds nx = true -> at_ds nx (Drv.ds x) = false ->
  let need := if at_ds nx Drv.DS_QSA || at_ds nx Drv.DS_SOD then 0
              else u32 ((if trans_cycles cal =? 0 then 0 else trans_cycles cal - 1) + ms_to_cycles (inj_slow_ms x) dt_ns) in
  let y := if (wait_cycles x =? 0) || negb (at_ds (pending x) nx) then x <| pending := nx |> <| wait_cycles := u32 (need + 1) |> else x in
  let z := y <| wait_cycles ::= fun w => u32 (w - 1) |> in
  let w' := (if (wait_cycles x =? 0) || negb (at_ds (pending x) nx) then if at_ds nx Drv.DS_SOD then 1 else T else wait_cycles x) - 1 in
  core z = (Drv.ds x, w', nx, (false, 0, 0, false)).
Proof.
  intros [(I1 & I2 & I3 & I4) _] Hp Hw Hn Hd. cbv zeta. pose proof trans_time_range as HTT.
  assert (Q : at_ds nx Drv.DS_QSA = false) by (destruct nx; done). rewrite Q. cbn [orb].
  unfold ms_to_cycles. rewrite I2. cbn [Z.eqb orb].
  set (need := if at_ds nx Drv.DS_SOD then 0 else _).
  assert (Nd : u32 (need + 1) = if at_ds nx Drv.DS_SOD then 1 else T).
  { unfold need. case_if; [done|]. unfold trans_time. destruct (Z.eqb_spec (trans_cycles cal) 0) as [->|]; [done|]. clia. }
  rewrite Nd. set (v := if at_ds nx Drv.DS_SOD then 1 else T). assert (Hv : 1 <= v <= T) by (unfold v; case_if; lia).
  unfold core. destruct ((wait_cycles x =? 0) || negb (at_ds (pending x) nx)) eqn:Ey.
  - cbn -[u32]. rewrite I1, I2, I3, I4. replace (u32 (v - 1)) with (v - 1) by clia. done.
  - bprop. unfold at_ds in *. match goal with H : bool_decide (pending x = nx) = true |- _ => apply bool_decide_eq_true in H end.
    cbn -[u32]. rewrite I1, I2, I3, I4. replace (u32 (wait_cycles x - 1)) with (wait_cycles x - 1) by clia. congruence.
Qed.
Lemma commanded_effect x mv : quiet x -> plain_ds (Drv.ds x) = true -> 0 <= wait_cycles x <= T ->
  let nx := esc_cia402_next (Drv.ds x) (cw x) (cw_prev x) (qs_option x) in plain_ds nx = true ->
  let x' := commanded cal true dt_ns mv x in
  (Drv.ds x', wait_cycles x', pending x') = cmd_effect T (Drv.ds x) (wait_cycles x) (pending x) (braked (Drv.ds x) mv nx) /\
  inj_refuse_enable x' = false /\ inj_slow_ms x' = 0 /\ inj_fault_code x' = 0 /\ inj_quickstop x' = false.
Proof.
  intros Qx Hp Hw. cbv zeta. set (nx := esc_cia402_next _ _ _ _). intros Hn. unfold commanded. destruct (q_inj _ Qx) as (I1 & I2 & I3 & I4).
  assert (P : at_ds (Drv.ds x) Drv.DS_NOT_READY = false /\ at_ds (Drv.ds x) Drv.DS_FRA = false /\ at_ds (Drv.ds x) Drv.DS_FAULT = false) by (destruct (Drv.ds x); done).
  destruct P as (P1 & P2 & P3). rewrite P1, P2. cbn [andb negb].
  unfold wanted, braked. fold nx. rewrite P3, I1. cbv zeta. rewrite !andb_false_r. cbn [andb].
  destruct (at_ds (Drv.ds x) Drv.DS_OE && at_ds nx Drv.DS_SO && brakes cal && mv) eqn:B.
  - assert (O : Drv.ds x = Drv.DS_OE) by (apply andb_true_iff in B as [B _]; apply andb_true_iff in B as [B _]; apply andb_true_iff in B as [B _]; unfold at_ds in B; by apply bool_decide_eq_true in B).
    unfold cmd_effect. rewrite O. cbn. by rewrite I1, I2, I3, I4, O.
  - unfold cmd_effect. destruct (at_ds nx (Drv.ds x)) eqn:E; [done|]. cbv zeta.
    pose proof (wait_effect x nx Qx Hp Hw Hn E) as W. cbv zeta in W. match type of W with core ?u = _ => set (z := u) in * end. clearbody z.
    unfold core in W. injection W as W1 W2 W3 W4 W5 W6 W7. rewrite <- W2.
    case_if; [|by rewrite W1, W3]. rewrite !W1, !P3, !andb_false_r. destruct (set_ds_to z nx) as [Z1 Z2].
    destruct (set_ds_rest z nx) as (R1 & R2 & R3 & R4 & R5). rewrite R1, R2, R3, R4, R5, Z1, Z2; [by rewrite W3|].
    rewrite W1. unfold at_ds in *. apply bool_decide_eq_false. apply bool_decide_eq_false in E. congruence.
Qed.

(** Entering the statusword leaves the rest alone. *)
Lemma step_end_core y : core (step_end y) = core y.
Proof. done. Qed.
Lemma select_mode_core x : core (select_mode x) = core x /\ cw (select_mode x) = cw x /\ cw_prev (select_mode x) = cw_prev x /\ qs_option (select_mode x) = qs_option x.
Proof. unfold select_mode. repeat case_if; done. Qed.
Lemma after_motion_core mo x f : plain_ds (Drv.ds x) = true -> mo_ferr mo = false -> core (after_motion cal mo (x, f)).1 = core x.
Proof.
  intros P F. unfold after_motion. rewrite F. cbv zeta.
  assert (D : at_ds (Drv.ds x) Drv.DS_FRA = false /\ at_ds (Drv.ds x) Drv.DS_QSA = false) by (destruct (Drv.ds x); done). destruct D as [D1 D2].
  assert (G : forall y, Drv.ds y = Drv.ds x -> core y = core x ->
    core (if at_ds (Drv.ds y) Drv.DS_FRA && mo_still mo then set_ds cal y Drv.DS_FAULT
          else if at_ds (Drv.ds y) Drv.DS_QSA && mo_still mo && (qs_option y <=? 4) then set_ds cal y Drv.DS_SOD else y) = core x).
  { intros y E C. by rewrite E, D1, D2. }
  cbn [fst snd]. destruct (at_ds (Drv.ds x) Drv.DS_OE && negb (braking x)); apply G; done.
Qed.
Lemma no_faults x f : quiet x -> plain_ds (Drv.ds x) = true -> step_faults cal true 0 (power_on cal dt_ns x, f) = (x, f).
Proof.
  intros [(I1 & I2 & I3 & I4) _] P. unfold power_on.
  assert (P1 : at_ds (Drv.ds x) Drv.DS_NOT_READY = false) by (destruct (Drv.ds x); done). rewrite P1.
  assert (P2 : at_ds (Drv.ds x) Drv.DS_FAULT = false) by (destruct (Drv.ds x); done).
  unfold step_faults. cbv zeta. cbn [fst snd negb andb]. rewrite I3. cbn [Z.eqb negb andb fst snd]. rewrite P2, !andb_false_r.
  cbn [andb fst snd]. by rewrite I4.
Qed.
(** One step of a quiet axis: the commanded transition and nothing else. *)
Lemma axis_step_effect x f mv mo : quiet x -> plain_ds (Drv.ds x) = true -> 0 <= wait_cycles x <= T -> mo_ferr mo = false ->
  let nx := esc_cia402_next (Drv.ds x) (cw x) (cw_prev x) (qs_option x) in plain_ds nx = true ->
  let x' := (Drv.axis_step cal true 0 dt_ns mv mo (x, f)).1 in
  quiet x' /\ (Drv.ds x', wait_cycles x', pending x') = cmd_effect T (Drv.ds x) (wait_cycles x) (pending x) (braked (Drv.ds x) mv nx).
Proof.
  intros Q P W F. cbv zeta. set (nx := esc_cia402_next _ _ _ _). intros Hn. unfold Drv.axis_step. cbn [fst snd]. rewrite no_faults by done. cbv zeta. cbn [fst snd].
  destruct (select_mode_core x) as (S1 & S2 & S3 & S4). set (y := select_mode x) in *.
  assert (Qy : quiet y).
  { destruct Q as [I D]. unfold core in S1. injection S1 as E1 E2 E3 E4 E5 E6 E7. split; [by rewrite E4, E5, E6, E7|].
    rewrite E1. rewrite <- D. subst y. unfold select_mode. repeat case_if; done. }
  assert (Ey : Drv.ds y = Drv.ds x /\ wait_cycles y = wait_cycles x /\ pending y = pending x) by (unfold core in S1; by injection S1).
  destruct Ey as (Y1 & Y2 & Y3).
  pose proof (commanded_effect y mv Qy) as C. cbv zeta in C. rewrite Y1, Y2, Y3, S2, S3, S4 in C. fold nx in C.
  destruct (C P W Hn) as (C1 & C2). clear C. set (z := commanded cal true dt_ns mv y) in *.
  assert (Pz : plain_ds (Drv.ds z) = true).
  { change (plain_ds (Drv.ds z, wait_cycles z, pending z).1.1 = true). rewrite C1. apply cmd_effect_plain; [done|]. unfold braked. by case_if. }
  match goal with |- context [after_motion cal mo (?v, f)] => set (v1 := v) end.
  assert (V : core v1 = core z /\ Drv.ds v1 = Drv.ds z) by done. destruct V as [V1 V2].
  pose proof (after_motion_core mo v1 f ltac:(by rewrite V2) F) as A. destruct (after_motion cal mo (v1, f)) as [u f']. cbn [fst snd] in *.
  rewrite V1 in A. pose proof (step_end_core u) as S. rewrite A in S. unfold core in S. injection S as B1 B2 B3 B4 B5 B6 B7.
  split; [split; [|apply step_end_decoded]|].
  - change (inj_refuse_enable u = false /\ inj_slow_ms u = 0 /\ inj_fault_code u = 0 /\ inj_quickstop u = false). by rewrite B4, B5, B6, B7.
  - change ((Drv.ds u, wait_cycles u, pending u) = cmd_effect T (Drv.ds x) (wait_cycles x) (pending x) (braked (Drv.ds x) mv nx)). by rewrite B1, B2, B3.
Qed.

(** The states in the order of the walk, and the cycles a walk still takes at most. *)
Definition up_rem (d : Drv.cia402_ds_t) (w : Z) (p : Drv.cia402_ds_t) : Z :=
  let left k nx := k * T + (if (w =? 0) || negb (at_ds p nx) then T else w) in
  match d with
  | Drv.DS_SOD => left 2 Drv.DS_RTSO | Drv.DS_RTSO => left 1 Drv.DS_SO | Drv.DS_SO => left 0 Drv.DS_OE | _ => 0
  end.
Definition down_rem (d : Drv.cia402_ds_t) (w : Z) (p : Drv.cia402_ds_t) : Z :=
  let left k nx := k * T + (if (w =? 0) || negb (at_ds p nx) then T else w) in
  match d with
  | Drv.DS_OE => 1 + left 1 Drv.DS_SO | Drv.DS_SO => 1 + left 0 Drv.DS_RTSO | Drv.DS_RTSO => 1 | _ => 0
  end.
(** A wait for a stop never lasts: it is over in the step it begins. *)
Definition wait_ok (w : Z) (p : Drv.cia402_ds_t) : Prop := 0 <= w <= T /\ (w <> 0 -> p <> Drv.DS_SOD).
Definition up_next (d : Drv.cia402_ds_t) : Drv.cia402_ds_t :=
  match d with Drv.DS_SOD => Drv.DS_RTSO | Drv.DS_RTSO => Drv.DS_SO | Drv.DS_SO => Drv.DS_OE | d => d end.
Definition down_next (d : Drv.cia402_ds_t) : Drv.cia402_ds_t :=
  match d with Drv.DS_OE => Drv.DS_SO | Drv.DS_SO => Drv.DS_RTSO | Drv.DS_RTSO => Drv.DS_SOD | d => d end.


Ltac ds_eval :=
  repeat match goal with |- context [at_ds ?a ?b] => let v := eval vm_compute in (at_ds a b) in change (at_ds a b) with v end; cbn [negb andb]; rewrite ?orb_false_r, ?orb_true_r.
Ltac walk :=
  try match goal with W : ?w <> 0 -> Drv.DS_SOD <> Drv.DS_SOD |- _ => assert (w = 0) by (destruct (Z.eq_dec w 0) as [?|Hz]; [done|by destruct (W Hz)]) end;
  ds_eval; repeat (match goal with |- context [if ?v =? 0 then _ else _] => destruct (Z.eqb_spec v 0) end; cbn [orb]; ds_eval);
  (split_and!; try done; try discriminate; nia).
Lemma up_step d w p : plain_ds d = true -> wait_ok w p ->
  let '(d', w', p') := cmd_effect T d w p (up_next d) in plain_ds d' = true /\ wait_ok w' p' /\ up_rem d' w' p' = Z.max 0 (up_rem d w p - 1).
Proof.
  pose proof trans_time_range. intros P [W Wp]. unfold cmd_effect, up_rem, wait_ok. destruct d; try discriminate P; cbn [up_next]; destruct p; walk.
Qed.
Lemma down_step d w p : plain_ds d = true -> wait_ok w p ->
  let '(d', w', p') := cmd_effect T d w p (down_next d) in plain_ds d' = true /\ wait_ok w' p' /\ down_rem d' w' p' = Z.max 0 (down_rem d w p - 1).
Proof.
  pose proof trans_time_range. intros P [W Wp]. unfold cmd_effect, down_rem, wait_ok. destruct d; try discriminate P; cbn [down_next]; destruct p; walk.
Qed.

(** The controlword walk asks for the next state up or down. *)
Lemma master_walks_up a x : quiet x -> plain_ds (Drv.ds x) = true -> a_target a = TGT_ENABLED -> a_mode_ok a = true -> a_reset_pulse a = 0 ->
  exists c en, axis_control (a <| a_ds := ecm_cia402_decode (sw x) |>) = (a <| a_ds := master_ds (Drv.ds x) |>, c, en) /\
    forall cp q, esc_cia402_next (Drv.ds x) c cp q = up_next (Drv.ds x).
Proof.
  intros [_ D] P Ht Hm Hr. rewrite D. unfold axis_control.
  change (a_target (a <| a_ds := master_ds (Drv.ds x) |>)) with (a_target a). change (a_mode_ok (a <| a_ds := master_ds (Drv.ds x) |>)) with (a_mode_ok a).
  rewrite Ht, Hm. destruct (Drv.ds x); try discriminate P; cbn [master_ds];
    (eexists _, _; split; [cbn; rewrite Hr; reflexivity|intros; reflexivity]).
Qed.
Lemma master_walks_down a x : quiet x -> plain_ds (Drv.ds x) = true -> a_target a = TGT_DISABLED -> a_reset_pulse a = 0 ->
  exists c en, axis_control (a <| a_ds := ecm_cia402_decode (sw x) |>) = (a <| a_ds := master_ds (Drv.ds x) |>, c, en) /\
    forall cp q, esc_cia402_next (Drv.ds x) c cp q = down_next (Drv.ds x).
Proof.
  intros [_ D] P Ht Hr. rewrite D. unfold axis_control.
  change (a_target (a <| a_ds := master_ds (Drv.ds x) |>)) with (a_target a).
  rewrite Ht. destruct (Drv.ds x); try discriminate P; cbn [master_ds];
    (eexists _, _; split; [cbn; rewrite Hr; reflexivity|intros; reflexivity]).
Qed.

(** What a cycle of the loop keeps: [rem] counts the walk down, [nxt] is its direction. *)
Definition walking (goal_a : ecm_cia402_axis_t -> Prop) (s : ecm_cia402_axis_t * (esc_cia402_axis_t * esc_node_fault_t)) : Prop :=
  goal_a s.1 /\ quiet s.2.1 /\ plain_ds (Drv.ds s.2.1) = true /\ wait_ok (wait_cycles s.2.1) (pending s.2.1).
Definition rem_of (rem : Drv.cia402_ds_t -> Z -> Drv.cia402_ds_t -> Z) (s : ecm_cia402_axis_t * (esc_cia402_axis_t * esc_node_fault_t)) : Z :=
  rem (Drv.ds s.2.1) (wait_cycles s.2.1) (pending s.2.1).
Definition goes_up (a : ecm_cia402_axis_t) : Prop := a_target a = TGT_ENABLED /\ a_mode_ok a = true /\ a_reset_pulse a = 0.
Definition goes_down (a : ecm_cia402_axis_t) : Prop := a_target a = TGT_DISABLED /\ a_reset_pulse a = 0.

(** A direction [nxt] of the walk with its measure [rem]. *)
Definition directed (goal_a : ecm_cia402_axis_t -> Prop) (nxt : Drv.cia402_ds_t -> Drv.cia402_ds_t)
  (rem : Drv.cia402_ds_t -> Z -> Drv.cia402_ds_t -> Z) : Prop :=
  (forall a d, goal_a a -> goal_a (a <| a_ds := d |>)) /\
  (forall a x, goal_a a -> quiet x -> plain_ds (Drv.ds x) = true ->
     exists c en, axis_control (a <| a_ds := ecm_cia402_decode (sw x) |>) = (a <| a_ds := master_ds (Drv.ds x) |>, c, en) /\
       forall cp q, esc_cia402_next (Drv.ds x) c cp q = nxt (Drv.ds x)) /\
  (forall d w p, plain_ds d = true -> wait_ok w p ->
     let '(d', w', p') := cmd_effect T d w p (nxt d) in plain_ds d' = true /\ wait_ok w' p' /\ rem d' w' p' = Z.max 0 (rem d w p - 1)) /\
  (forall d, plain_ds d = true -> plain_ds (nxt d) = true).
Lemma directed_up : directed goes_up up_next up_rem.
Proof.
  split_and!; [done| |apply up_step|by intros []]. intros a x (T1 & T2 & T3) Q P. by apply master_walks_up.
Qed.
Lemma directed_down : directed goes_down down_next down_rem.
Proof.
  split_and!; [done| |apply down_step|by intros []]. intros a x (T1 & T2) Q P. by apply master_walks_down.
Qed.

(** A cycle keeps the walk going, and it comes nearer unless the drive brakes. *)
Lemma cycle_walks goal_a nxt rem s io : directed goal_a nxt rem -> mo_ferr io.2 = false -> walking goal_a s ->
  walking goal_a (bus_cycle cal dt_ns s io) /\
  ((forall d, braked d io.1 (nxt d) = nxt d) -> rem_of rem (bus_cycle cal dt_ns s io) = Z.max 0 (rem_of rem s - 1)).
Proof.
  intros (Hg & Hc & Hs & Hn) Hf (G & Q & P & W). destruct s as [a [x f]]. cbn [fst snd] in *.
  destruct (Hc a x G Q P) as (c & en & E & N). unfold bus_cycle. rewrite E.
  assert (Qc : quiet (x <| cw := c |>)) by (destruct Q; by split).
  pose proof (axis_step_effect (x <| cw := c |>) f io.1 io.2 Qc P (proj1 W) Hf) as A. cbv zeta in A.
  change (Drv.ds (x <| cw := c |>)) with (Drv.ds x) in A. change (cw (x <| cw := c |>)) with c in A.
  change (wait_cycles (x <| cw := c |>)) with (wait_cycles x) in A. change (pending (x <| cw := c |>)) with (pending x) in A.
  rewrite N in A. destruct (A (Hn _ P)) as [A1 A2]. clear A.
  specialize (Hs (Drv.ds x) (wait_cycles x) (pending x) P W). unfold walking, rem_of. cbn [fst snd].
  destruct (Drv.axis_step cal true 0 dt_ns io.1 io.2 (x <| cw := c |>, f)) as [x' f']. cbn [fst snd] in *.
  assert (K : braked (Drv.ds x) io.1 (nxt (Drv.ds x)) = nxt (Drv.ds x) \/ (Drv.ds x', wait_cycles x', pending x') = (Drv.ds x, 0, pending x)).
  { destruct (decide (braked (Drv.ds x) io.1 (nxt (Drv.ds x)) = nxt (Drv.ds x))) as [|D]; [by left|right]. rewrite A2. unfold braked in *.
    revert D. case_if; [|done]. intros _. apply andb_true_iff in E0 as [B _]; apply andb_true_iff in B as [B _]; apply andb_true_iff in B as [B _].
    unfold at_ds in B. apply bool_decide_eq_true in B. by rewrite B. }
  destruct K as [K|K].
  - rewrite K in A2. rewrite <- A2 in Hs. destruct Hs as (S1 & S2 & S3). split; [|intros _; exact S3].
    split_and!; [by apply Hg|exact A1|exact S1|exact S2|exact S2..].
  - split; [|intros B; rewrite B in A2; rewrite <- A2 in Hs; apply Hs]. injection K as K1 K2 K3. pose proof trans_time_range.
    cbn [fst snd]. unfold wait_ok. rewrite K1, K2. split_and!; [by apply Hg|exact A1|exact P|lia|lia|done].
Qed.
Lemma walk_kept goal_a nxt rem s ios : directed goal_a nxt rem ->
  Forall (fun io : bool * motion => mo_ferr io.2 = false) ios -> walking goal_a s -> walking goal_a (foldl (bus_cycle cal dt_ns) s ios).
Proof.
  intros D Hf. revert s. induction Hf as [|io ios Hio Hf IH]; intros s W; cbn [foldl]; [done|].
  apply IH. by destruct (cycle_walks goal_a nxt rem s io D Hio W).
Qed.
Lemma walk_ends goal_a nxt rem s ios : directed goal_a nxt rem ->
  Forall (fun io : bool * motion => mo_ferr io.2 = false) ios -> Forall (fun io : bool * motion => forall d, braked d io.1 (nxt d) = nxt d) ios ->
  walking goal_a s -> rem_of rem s <= Z.of_nat (length ios) -> 0 <= rem_of rem s ->
  rem_of rem (foldl (bus_cycle cal dt_ns) s ios) = 0.
Proof.
  intros D Hf. revert s. induction Hf as [|io ios Hio Hf IH]; intros s B W R R0; cbn [foldl length] in *; [lia|].
  apply Forall_cons_1 in B as [B1 B2]. destruct (cycle_walks goal_a nxt rem s io D Hio W) as [W' R']. specialize (R' B1).
  apply IH; [done|done|lia|lia].
Qed.
Lemma up_rem_bounds d w p : wait_ok w p -> 0 <= up_rem d w p <= 3 * T.
Proof. intros [W _]. pose proof trans_time_range. unfold up_rem. destruct d; try case_if; lia. Qed.
Lemma down_rem_bounds d w p : wait_ok w p -> 0 <= down_rem d w p <= 2 * T + 1.
Proof. intros [W _]. pose proof trans_time_range. unfold down_rem. destruct d; try case_if; lia. Qed.
Lemma up_rem_zero d w p : plain_ds d = true -> wait_ok w p -> up_rem d w p = 0 -> d = Drv.DS_OE.
Proof. intros P [W _]. pose proof trans_time_range. unfold up_rem. destruct d; try discriminate P; try done; case_if; bprop; lia. Qed.
Lemma down_rem_zero d w p : plain_ds d = true -> wait_ok w p -> down_rem d w p = 0 -> d = Drv.DS_SOD.
Proof. intros P [W _]. pose proof trans_time_range. unfold down_rem. destruct d; try discriminate P; try done; try case_if; bprop; lia. Qed.

End loop.

(** The statusword is understood.  Whatever a step of the drive meets (loss of
    OP, injected faults, quick stop, refused or delayed transitions, any motion),
    the master decodes the statusword it publishes to exactly the state the drive
    is in; never to "unknown". *)
Theorem drive_state_decoded (cal : esc_cia402_cal_t) (op : bool) (al dt : Z) (mv : bool) (mo : motion) (s : esc_cia402_axis_t * esc_node_fault_t) :
  let x := (Drv.axis_step cal op al dt mv mo s).1 in ecm_cia402_decode (sw x) = master_ds (Drv.ds x).
Proof. cbv zeta. unfold Drv.axis_step. cbv zeta. cbn [fst]. apply step_end_decoded. Qed.

(** ** Witnesses *)

Definition demo_cal : esc_cia402_cal_t := mkCal 0 2 34560 34321 false true false 0 false false.
Definition demo_drive : esc_cia402_axis_t := (Drv.axis_reset 421) <| Drv.ds := Drv.DS_SOD |> <| sw := 592 |>.
Definition demo_axis : ecm_cia402_axis_t := axis_zero <| a_target := TGT_ENABLED |> <| a_mode_ok := true |>.
(** A braking drive, enabled and moving for three cycles after the command, is down five cycles after it stands. *)
Definition brake_cal : esc_cia402_cal_t := mkCal 0 2 34560 34321 false true false 0 false true.
Definition demo_oe : esc_cia402_axis_t := (Drv.axis_reset 421) <| Drv.ds := Drv.DS_OE |> <| sw := 567 |>.
(** While it moves the drive stays in Operation enabled. *)
Example brake_holds :
  Drv.ds (foldl (bus_cycle brake_cal 1000000) (axis_zero, (demo_oe, fault_zero)) (replicate 50 (true, mkMo 0 false false))).2.1 = Drv.DS_OE.
Proof. vm_compute. reflexivity. Qed.
